(* ===== verification/_CoqProject ===== *)
-Q . S2P
Prelude.v
Text.v
Bitmap.v
Lists.v
Hash.v
Stacks.v
Interrupt.v
Network.v
Post.v
Disk.v
FileHdr.v
OpenFile.v
PBitmap.v
Directory.v
FileSys.v
FsDump.v
Machine.v
Console.v
KernelTests.v
Mips.v
Debugger.v
AddrSpace.v
Host.v
Sockets.v
UserProgs.v
Coff.v
Exception.v
Stubs.v
Paging.v
UserStep.v
Boot.v
Threads.v
Switch.v
Synch.v
SchedInv.v
SynchInv.v
KernelSafe.v
Frame.v
KernelProps.v
Calls.v
SynchDisk.v
