(* ===== verification/Prelude.v ===== *)
(** * A verification of the NachOS kernel (src/code)

    NachOS is a small operating system that runs as one process on a simulated
    machine.  The simulated hardware is in src/code/machine: a clock with
    pending interrupts, a MIPS processor with paged memory, a disk, a console
    and a network.  On it run a thread system (threads), a file system
    (filesys), user programs with demand paging and system calls (userprog) and
    a post office (network); lib holds the containers that all of them use and
    the calls of the host.  Beside the kernel there are user programs (test), a
    shell for the host (shell), the tool that makes executables
    (src/coff2noff) and C++ examples (src/c++example).
    The model follows the build configuration of src/code/build.linux
    (FILESYS_STUB, RDATA, SIM_FIX; no USE_TLB; a little-endian host with 32-bit
    [int]).  The disk file system is modelled too, although that build replaces
    it by UNIX files: AddrSpace.v and Exception.v use the stub, which Host.v
    shows to be a map from names to bytes; FileSys.v models the real one.

    ** Conventions

    A C++ routine is a function to [outcome] (this file): it returns [Ok], or
    stops with [AssertFailed] ([ASSERT] of lib/debug.h), [Undefined] (an array
    access out of bounds, a null or dangling pointer, signed overflow, a value
    that was never set) or [Halted].  State is passed explicitly; heaps of
    objects behind pointers are finite maps, so sharing is kept (page tables are
    shared by an address space, the machine and the table of frames; list
    elements, threads, semaphores are reached by pointers).  Integers are [Z];
    [int_add] fails on overflow of [int], [to_int] and [to_uint] wrap around
    where the code uses unsigned arithmetic or, as the simulator does for MIPS
    registers, relies on wrap-around.  The tick counters and the frames' use
    stamps are not bounded in the model; [Schedule] fails when the due time
    overflows.  Memory that C++ leaves uninitialised is an argument ([uninit],
    [garbage], [vir0], [local], [buffer0], [data0]), so the theorems hold for
    every content.  [for] loops with a known bound are [for_range] and
    [for_until]; other loops take fuel, and the theorems give a fuel that is
    enough: 130 rounds for the string of [SysWrite], ten attempts of
    [SendToSocket] (the code's own bound), the number of items for a
    [HashIterator], the length of the list for the linked lists, the distance
    to the end of the file for [Copy] and [Print], the size of its buffer for a
    line of the shell and the number of lines for the shell, the characters left
    in the input for the debugger.  Text that the kernel prints is modelled where
    it is the result: the [Print] routines of the file system, [List], the
    debugger, the tests of the console and the network.

    ** Files

    - Prelude: outcomes, machine integers, bytes, arrays, loops, the shared
      tactics and hints.
    - Text: C strings and what [cout] prints.
    - Bitmap (lib/bitmap): the class on 32-bit words; it refines a set of bit
      numbers.
    - Lists (lib/list): [List] and [SortedList] on a heap of elements; they
      refine the functional lists of [Spec], which the other files use.
    - Hash (lib/hash): [HashTable] and [HashIterator]; the table refines a
      finite map, and iteration ends after as many steps as there are items.
    - Stacks (src/c++example): the stack on an array, on a list and as a
      template, behind one class; on every sequence of calls they agree.
    - Interrupt (machine/interrupt, stats, timer; threads/alarm): pending
      interrupts, the clock, delivery in order of time, idling.  The class
      [InterruptState] is the interface to the rest of the kernel state.
    - Network, Post (machine/network, network/post; the socket routines of
      lib/sysdep): packets, mailboxes and the postal worker; two machines as a
      transition system.
    - Console (machine/console; the interrupt side of userprog/synchconsole): the
      keyboard and the display; the keyboard in use as a transition system.
    - KernelTests (threads/kernel.cc; the receiving half of network/post):
      [NetworkTest] on two machines at once, with their devices and postal
      workers, and [ConsoleTest].
    - Disk (machine/disk; Read and WriteFile of lib/sysdep): requests, latency;
      the class [BlockStore] is what the file system is proved against, and the
      disk image is an instance of it.
    - FileHdr, OpenFile, PBitmap, Directory, FileSys (filesys/filehdr, openfile,
      pbitmap, directory, filesys; Copy and Print of threads/main.cc): the disk
      file system bottom up.  [fs_inv] is the invariant of the disk, [fs_files]
      the abstract state, a map from names to contents; every operation refines
      an operation of that map, failures included.
    - FsDump (the [Print] routines of filehdr, directory, filesys, bitmap): the
      dump of the disk, as text.
    - Machine (machine/machine, translate): registers, memory, translation, the
      global frame table.
    - Mips (machine/mipssim): decoding and every instruction; under a kernel
      that keeps [handler_contract], one step from a well-formed machine ends in
      one, unless the kernel's handler fails.
    - Debugger (machine/machine.cc, interrupt.cc): the commands of the interactive
      debugger, the stream they are read from, the dumps.
    - AddrSpace (userprog/addrspace, noff.h): loading a program, running it,
      saving and restoring it, deleting it.
    - Host (lib/sysdep; the stub classes of filesys/openfile.h, filesys.h): the
      UNIX process, its files and descriptors, and the stub file system on them.
      What the host refuses, and how much of a read or write it does, are
      arbitrary (the class [Host]).
    - Sockets (the rest of lib/sysdep): datagram sockets with names, opening and
      closing; they satisfy what Network.v asks of the host.
    - UserProgs (test/sort.c, matmult.c, shell.c; shell): the programs, and the
      shell with its library on the process of Host.
    - Coff (src/coff2noff): the converter as a process with a disk, from the
      headers of the input to the executable that AddrSpace loads.
    - Exception (userprog/exception.cc, ksyscall.h): page faults and system
      calls; [mem_inv] says that every frame holds at most one valid page.
    - Stubs (test/start.s, userprog/syscall.h): the stubs of the system calls as
      MIPS code, run on Mips and Exception.
    - Paging: memory accesses, the page fault handler and the loaded page tables
      together; [paged] is the invariant of a program that only reads.
    - UserStep: the handler of exception.cc keeps the contract of Mips when it
      returns.
    - Boot (threads/main.cc, kernel.cc; lib/debug): the command line, the tasks
      of [main] and the user program it starts.
    - Threads, Synch (threads/thread, scheduler, synch, synchlist): the thread
      system as a transition system.  A suspended thread is the list of kernel
      actions it has still to do, which is what [SWITCH] saves; [step] is one
      action of the current thread, a preemption by the timer, a device that
      posts a semaphore, or a step of user code, which may change the machine.
      [SetLevel], which may run interrupt handlers when it enables interrupts,
      is followed by such steps.
      The drivers of the disk, the display and the network (filesys/synchdisk,
      userprog/synchconsole, network/post) are lists of such actions, and the
      completion of a request is a step.
    - Switch (threads/switch.s and switch.h for the x86; [StackAllocate]): the
      instructions of [SWITCH] and [ThreadRoot] on registers and a word memory,
      below the abstraction of Threads.  The class [Cdecl] is what compiled
      functions promise them.
    - SchedInv, SynchInv, KernelSafe: the scheduler's invariant, the ownership
      discipline of locks, condition variables and devices, and that both hold
      in every reachable state.  Frame: what each action leaves alone, in
      particular the work a thread has still to do on devices and lists.
    - KernelProps: what follows for threads, locks, semaphores and user contexts.
    - Calls: runs with the events at lists and devices (an item put or taken, a
      request, its completion, the end of a wait); what a call does between its
      start and its return.  SynchDisk: what the events of the drivers do to the
      disk of Disk.

    ** What the theorems show

    - Thread system: a checked program never fails an assertion of the kernel or
      touches a freed object; the ready list is exactly the READY threads in
      order of priority; no wake-up is lost; locks exclude each other;
      synchronized lists are queues: items come out once each, in the order in
      which they went in, a call puts or takes exactly one, under the lock; how
      [Yield] chooses and that it is round robin among equals; a user program
      in an address space of its own finds its registers and page table
      unchanged when its thread runs again; the limit of 128 threads counts creations; the self
      tests of threads, semaphores and synchronized lists pass.
    - Context switch: a thread that is switched away and back finds every
      register, its stack pointer and its return address as they were, if nothing
      wrote to its object and its stack; the first switch to a new thread runs
      [ThreadBegin], the body with its argument and [ThreadFinish], in that order.
    - Drivers: whatever the interleaving, the calls that threads make to
      [SynchDisk] do not overlap at the disk, every read returns what the last
      write stored, and a call returns after the interrupt of its own request.
    - File system: formatting, creation, opening, removal, reading and writing
      refine a map of files, keep the invariant, and leave other files alone;
      copying a host file in and printing it gives the same bytes; the dump of
      the disk shows every file.
    - Machine: translation computes what the page table says, memory reads back
      what was written, multiplication and overflow detection are exact, decoding
      inverts encoding; one instruction never leaves the well-formed states unless
      the kernel stops in its handler, which it does for every exception but
      system calls and page faults.
      The debugger interprets the lines typed, and why an empty one silences it.
    - User programs: loading places every byte, page faults bring the right page
      in, ownership of frames is kept; the places where the code loses dirty
      pages, frees frames twice or runs past a buffer are theorems as well.  The
      program that [main] starts has no page in memory; as long as nothing is
      written, every read of it gives the byte of its executable, whatever has
      to be evicted.  A converted COFF file loads with every byte in its place.
      sort.c sorts, and the shell runs what is typed.  A call through its stub
      returns what syscall.h says for [Add], halts for [Halt], and stops in an
      assertion for the calls that have no handler.
    - Host: the stub file system is a map from names to bytes, and which refusals
      of the host stop NachOS in an assertion; who listens on a socket, and that a second Nachos takes a name over.
    - Containers and devices: refinement of sets, lists and maps, termination of
      iteration, order and progress of interrupts, what a disk request does;
      mail arrives in order and unchanged or not at all; the keyboard delivers
      what is typed in order, up to the first end of file or 0xFF; in the network
      test both machines show the greeting and then the acknowledgement of the
      other, or wait, and the console test echoes what is typed.

    ** Not modelled

    Debug output, instruction traces and the usage message are output only.
    [SynchList::Apply] calls its function under the lock and changes nothing.
    Signals, the protection of memory, delays and random numbers (lib/sysdep) are
    calls of the host.  threads/switch.s and switch.h also have parts for five
    processors that the build does not use.  Threads exchanges lists of actions
    where Switch exchanges registers; the C++ code between two switches is not
    compiled, so the two levels are not composed.  lib/tut*.h is a copy of the
    third-party TUT framework.  The remaining programs of test make one or two
    system calls each, and the machine code that the cross compiler makes of them
    is not in the repository; the thread calls of shell/nachos_syscall.c are
    pthreads.
    A kernel action carries no result: the item that [RemoveFront] returns and
    the bytes that a read transfers are in the trace of events of Calls.v, and a
    later action does not depend on them.  The file system of FileSys.v is proved
    on synchronous sectors: that [SynchDisk] provides them is the theorem of
    SynchDisk.v, but the two are not composed into one execution.  Reads and
    writes of the host's terminal are not refused in the model. *)

From stdpp Require Export base tactics numbers list gmap option sets.
From Stdlib Require Export ZArith Lia.

(** ** Outcomes of C++ code

    A C++ routine of the kernel either returns, stops in [ASSERT] (debug.h:
    [Abort()] ends the process), performs an operation whose behaviour the
    language does not define (array access out of bounds, use of a dangling or
    null pointer, signed overflow), or ends the simulation ([Interrupt::Halt]).
    [OutOfFuel] is the value of a loop model whose fuel was too small; the
    theorems show that it is not reached. *)
Inductive failure :=
  | AssertFailed
  | Undefined
  | Halted
  | OutOfFuel.

Inductive outcome (A : Type) :=
  | Ok (a : A)
  | Err (e : failure).
Arguments Ok {A} a.
Arguments Err {A} e.

#[export] Instance failure_eq_dec : EqDecision failure.
Proof. solve_decision. Defined.

#[export] Instance outcome_eq_dec {A} `{EqDecision A} : EqDecision (outcome A).
Proof. solve_decision. Defined.

#[export] Instance outcome_ret : MRet outcome := fun A a => Ok a.
#[export] Instance outcome_bind : MBind outcome := fun A B f m =>
  match m with
  | Ok a => f a
  | Err e => Err e
  end.
#[export] Instance outcome_fmap : FMap outcome := fun A B f m =>
  match m with
  | Ok a => Ok (f a)
  | Err e => Err e
  end.

(** [ASSERT(condition)] of lib/debug.h. *)
Definition ASSERT (condition : bool) : outcome unit :=
  if condition then Ok tt else Err AssertFailed.

(** [refines R impl spec]: the code returns, with a result related to the
    specification's, when the specification does, and fails in the same way
    when it fails. *)
Definition refines {A B} (R : A -> B -> Prop) (impl : outcome A) (spec : outcome B) : Prop :=
  match spec with
  | Ok b => exists a, impl = Ok a /\ R a b
  | Err e => impl = Err e
  end.

(** [array[i]] and [array[i] = x] on a C array of [length l] elements. *)
Definition arr_get {A} (l : list A) (i : Z) : outcome A :=
  if (0 <=? i)%Z then
    match l !! Z.to_nat i with
    | Some x => Ok x
    | None => Err Undefined
    end
  else Err Undefined.

Definition arr_set {A} (l : list A) (i : Z) (x : A) : outcome (list A) :=
  if ((0 <=? i) && (i <? Z.of_nat (length l)))%Z
  then Ok (<[Z.to_nat i := x]> l)
  else Err Undefined.

(** [bcopy(from, &buf[pos], length from)]: overwrite a stretch of a buffer. *)
Definition splice {A} (l : list A) (pos : nat) (from : list A) : list A :=
  take pos l ++ from ++ drop (pos + length from) l.

(** [bcopy(&buf\[off\], _, n)] and [bcopy(bs, &buf\[off\], length bs)]: an access
    outside the buffer is undefined. *)
Definition buf_get (buf : list Z) (off n : Z) : outcome (list Z) :=
  if ((0 <=? off) && (0 <=? n) && (off + n <=? Z.of_nat (length buf)))%Z
  then Ok (take (Z.to_nat n) (drop (Z.to_nat off) buf)) else Err Undefined.
Definition buf_put (buf : list Z) (off : Z) (bs : list Z) : outcome (list Z) :=
  if ((0 <=? off) && (off + Z.of_nat (length bs) <=? Z.of_nat (length buf)))%Z
  then Ok (splice buf (Z.to_nat off) bs) else Err Undefined.

(** ** Loops

    [for_range lo hi body s] is [for (i = lo; i < hi; i++) s = body(i, s)];
    [for_until] is the same loop whose body may [return] ([inr]). *)
Fixpoint for_from {S} (n : nat) (i : Z) (body : Z -> S -> outcome S) (s : S) : outcome S :=
  match n with
  | O => Ok s
  | Datatypes.S n' => s' ← body i s; for_from n' (i + 1)%Z body s'
  end.

Definition for_range {S} (lo hi : Z) (body : Z -> S -> outcome S) (s : S) : outcome S :=
  for_from (Z.to_nat (hi - lo)) lo body s.

Fixpoint until_from {S R} (n : nat) (i : Z) (body : Z -> S -> outcome (S + R)) (s : S)
  : outcome (S + R) :=
  match n with
  | O => Ok (inl s)
  | Datatypes.S n' =>
      r ← body i s;
      match r with
      | inl s' => until_from n' (i + 1)%Z body s'
      | inr v => Ok (inr v)
      end
  end.

Definition for_until {S R} (lo hi : Z) (body : Z -> S -> outcome (S + R)) (s : S)
  : outcome (S + R) :=
  until_from (Z.to_nat (hi - lo)) lo body s.

(** ** Preprocessor arithmetic of lib/utility.h (C division truncates) *)
Definition divRoundDown (n s : Z) : Z := Z.quot n s.
Definition divRoundUp (n s : Z) : Z :=
  (Z.quot n s + (if 0 <? Z.rem n s then 1 else 0))%Z.

(** ** Machine integers

    [int] is a [Z] in \[-2^31, 2^31), [unsigned int] a [Z] in \[0, 2^32).
    [to_int] and [to_uint] are the conversions; arithmetic that wraps is
    written as the mathematical operation followed by a conversion. *)
Definition to_uint (z : Z) : Z := (z mod 2 ^ 32)%Z.
Definition to_int (z : Z) : Z := ((z + 2 ^ 31) mod 2 ^ 32 - 2 ^ 31)%Z.
Definition is_int (z : Z) : Prop := (- 2 ^ 31 <= z < 2 ^ 31)%Z.
Definition is_uint (z : Z) : Prop := (0 <= z < 2 ^ 32)%Z.
Definition is_byte (z : Z) : Prop := (0 <= z < 256)%Z.

(** Signed addition whose overflow C++ leaves undefined. *)
Definition int_add (a b : Z) : outcome Z :=
  if ((- 2 ^ 31 <=? a + b) && (a + b <? 2 ^ 31))%Z then Ok (a + b)%Z else Err Undefined.

(** Little-endian layout of an object of [n] bytes in memory (the host is
    little-endian, [CheckEndian] in machine.cc). *)
Fixpoint le_bytes (n : nat) (z : Z) : list Z :=
  match n with
  | O => []
  | S n' => (z mod 256)%Z :: le_bytes n' (z / 256)%Z
  end.

Fixpoint le_value (l : list Z) : Z :=
  match l with
  | [] => 0%Z
  | b :: l' => (b + 256 * le_value l')%Z
  end.

(** ** Automation *)
Create HintDb nachos.

Ltac inv_ok1 :=
  match goal with
  | H : Ok _ = Ok _ |- _ => injection H as H; subst
  | H : Ok _ = Err _ |- _ => discriminate H
  | H : Err _ = Ok _ |- _ => discriminate H
  | H : Err _ = Err _ |- _ => injection H as H; subst
  | H : mbind ?f ?m = Ok _ |- _ =>
      let E := fresh "E" in
      destruct m eqn:E; cbn [mbind outcome_bind] in H; [|discriminate H]
  | H : (_, _) = (_, _) |- _ => injection H as H; subst
  end.

(** Decompose every hypothesis that a monadic computation returned. *)
Ltac inv_ok := repeat (inv_ok1; simplify_eq/=).

(** Step a monadic goal whose first action is known to return. *)
Ltac ok_step E := rewrite E; cbn [mbind outcome_bind].

(** Split every boolean comparison of integers in the context. *)
Ltac bool_lia :=
  repeat match goal with
  | H : (_ && _)%bool = true |- _ => apply andb_true_iff in H as [? ?]
  | H : (_ || _)%bool = false |- _ => apply orb_false_iff in H as [? ?]
  | H : negb _ = true |- _ => apply negb_true_iff in H
  | H : negb _ = false |- _ => apply negb_false_iff in H
  end; lia.

Open Scope Z_scope.

(** ** Facts about outcomes and arrays *)

Lemma ASSERT_Ok b u : ASSERT b = Ok u -> b = true.
Proof. by destruct b. Qed.

Lemma ASSERT_true : ASSERT true = Ok tt.
Proof. done. Qed.

Lemma arr_get_Some {A} (l : list A) i x :
  0 <= i -> l !! Z.to_nat i = Some x -> arr_get l i = Ok x.
Proof. intros Hi Hx. unfold arr_get. rewrite Hx. by destruct (Z.leb_spec 0 i); [|lia]. Qed.

Lemma arr_get_Ok {A} (l : list A) i x :
  arr_get l i = Ok x -> 0 <= i < Z.of_nat (length l) /\ l !! Z.to_nat i = Some x.
Proof.
  unfold arr_get. destruct (Z.leb_spec 0 i); [|done].
  destruct (l !! Z.to_nat i) eqn:E; [|done]. intros [= ->].
  split; [|done]. apply lookup_lt_Some in E. lia.
Qed.

Lemma arr_get_lt {A} (l : list A) i :
  0 <= i < Z.of_nat (length l) -> exists x, l !! Z.to_nat i = Some x /\ arr_get l i = Ok x.
Proof.
  intros Hi. destruct (lookup_lt_is_Some_2 l (Z.to_nat i)) as [x Hx]; [lia|].
  exists x. split; [done|]. apply arr_get_Some; [lia|done].
Qed.

Lemma arr_get_ge {A} (l : list A) i :
  i < 0 \/ Z.of_nat (length l) <= i -> arr_get l i = Err Undefined.
Proof.
  intros Hi. unfold arr_get. destruct (Z.leb_spec 0 i); [|done].
  by rewrite lookup_ge_None_2 by lia.
Qed.

Lemma arr_set_lt {A} (l : list A) i x :
  0 <= i < Z.of_nat (length l) -> arr_set l i x = Ok (<[Z.to_nat i := x]> l).
Proof. intros. unfold arr_set. by replace (_ && _)%bool with true by lia. Qed.

Lemma arr_set_Ok {A} (l l' : list A) i x :
  arr_set l i x = Ok l' ->
  0 <= i < Z.of_nat (length l) /\ l' = <[Z.to_nat i := x]> l.
Proof. unfold arr_set. destruct (_ && _)%bool eqn:E; [|done]. intros [= <-]. split; [lia|done]. Qed.

Lemma arr_set_ge {A} (l : list A) i x :
  i < 0 \/ Z.of_nat (length l) <= i -> arr_set l i x = Err Undefined.
Proof. intros. unfold arr_set. by replace (_ && _)%bool with false by lia. Qed.

Lemma length_splice {A} (l from : list A) pos :
  (pos + length from <= length l)%nat -> length (splice l pos from) = length l.
Proof. intros. unfold splice. rewrite !length_app, length_take, length_drop. lia. Qed.

Lemma lookup_splice {A} (l from : list A) pos i :
  (pos + length from <= length l)%nat ->
  splice l pos from !! i =
    if decide (pos <= i < pos + length from)%nat then from !! (i - pos)%nat else l !! i.
Proof.
  intros Hlen. unfold splice. case_decide.
  - rewrite lookup_app_r by (rewrite length_take; lia).
    rewrite length_take, Nat.min_l by lia. apply lookup_app_l. lia.
  - destruct (decide (i < pos)%nat).
    + rewrite lookup_app_l by (rewrite length_take; lia). by rewrite lookup_take_lt by lia.
    + rewrite lookup_app_r by (rewrite length_take; lia).
      rewrite length_take, Nat.min_l by lia.
      rewrite lookup_app_r by lia. rewrite lookup_drop. f_equal. lia.
Qed.

(** Storing one element and then the rest. *)
Lemma splice_cons {A} (l from : list A) x pos :
  (pos + S (length from) <= length l)%nat -> splice (<[pos := x]> l) (S pos) from = splice l pos (x :: from).
Proof.
  intros Hl. apply list_eq. intros i. rewrite !lookup_splice by (rewrite ?length_insert; cbn [length]; lia). cbn [length].
  destruct (decide (i = pos)) as [->|Hne].
  - rewrite decide_False, decide_True by lia. rewrite list_lookup_insert_eq by lia. by rewrite Nat.sub_diag.
  - case_decide.
    + rewrite decide_True by lia. by replace (i - pos)%nat with (S (i - S pos)) by lia.
    + rewrite decide_False by lia. by apply list_lookup_insert_ne.
Qed.

Lemma buf_get_ok buf off n :
  0 <= off -> 0 <= n -> off + n <= Z.of_nat (length buf) ->
  buf_get buf off n = Ok (take (Z.to_nat n) (drop (Z.to_nat off) buf)).
Proof. intros. unfold buf_get. by replace (_ && _) with true by lia. Qed.

Lemma buf_put_ok buf off bs :
  0 <= off -> off + Z.of_nat (length bs) <= Z.of_nat (length buf) ->
  buf_put buf off bs = Ok (splice buf (Z.to_nat off) bs).
Proof. intros. unfold buf_put. by replace (_ && _) with true by lia. Qed.

Lemma filter_ext_in {A} (P Q : A -> Prop) `{!forall x, Decision (P x)}
    `{!forall x, Decision (Q x)} (l : list A) :
  (forall x, x ∈ l -> P x <-> Q x) -> filter P l = filter Q l.
Proof.
  induction l as [|x l IH]; intros HPQ; [done|].
  rewrite !filter_cons, IH by (intros y Hy; apply HPQ; by right).
  specialize (HPQ x ltac:(left)). do 2 case_decide; [done|tauto|tauto|done].
Qed.

Lemma seqZ_snoc m n : 0 <= n -> seqZ m (n + 1) = seqZ m n ++ [m + n].
Proof. intros. rewrite seqZ_app by lia. f_equal. Qed.

Lemma filter_all {A} (P : A -> Prop) `{!forall x, Decision (P x)} (l : list A) :
  (forall x, x ∈ l -> P x) -> filter P l = l.
Proof.
  induction l as [|x l IH]; intros HP; [done|].
  rewrite filter_cons_True by (apply HP; left). f_equal. apply IH. intros. apply HP. by right.
Qed.

Lemma NoDup_drop {A} (l : list A) n : NoDup l -> NoDup (drop n l).
Proof. intros Hnd. rewrite <- (take_drop n l) in Hnd. by apply NoDup_app in Hnd as (_ & _ & ?). Qed.

Lemma foldl_snoc_app {A} (acc ys : list A) : foldl (fun s y => s ++ [y]) acc ys = acc ++ ys.
Proof.
  revert acc. induction ys as [|y ys IH]; intros acc; simpl; [by rewrite app_nil_r|].
  by rewrite IH, <- app_assoc.
Qed.

Lemma of_nat_not_minus1 n : (Z.of_nat n =? -1) = false.
Proof. apply Z.eqb_neq. lia. Qed.

(** A concatenation of blocks of the same size, addressed by block and offset. *)
Lemma length_concat_blocks {A} (bl : list (list A)) n :
  Forall (fun b => length b = n) bl -> length (concat bl) = (n * length bl)%nat.
Proof. induction 1 as [|b bl Hb _ IH]; cbn [concat length]; [lia|]. rewrite length_app, IH, Hb. lia. Qed.

Lemma lookup_concat_blocks {A} (bl : list (list A)) n i j :
  Forall (fun b => length b = n) bl -> (j < n)%nat ->
  concat bl !! (n * i + j)%nat = bl !! i ≫= (fun b => b !! j).
Proof.
  intros Hbl Hj. revert i. induction Hbl as [|b bl Hb _ IH]; intros i; [done|]. cbn [concat].
  destruct i as [|i].
  - rewrite lookup_app_l by lia. cbn. f_equal. lia.
  - rewrite lookup_app_r by lia. cbn. rewrite <- IH. f_equal. lia.
Qed.

(** ** Facts about loops *)

Lemma for_from_ind {S} (P : Z -> S -> Prop) body n lo s :
  P lo s ->
  (forall i s, lo <= i < lo + Z.of_nat n -> P i s ->
     exists s', body i s = Ok s' /\ P (i + 1) s') ->
  exists s', for_from n lo body s = Ok s' /\ P (lo + Z.of_nat n) s'.
Proof.
  revert lo s. induction n as [|n IH]; intros lo s HP Hstep; simpl.
  { exists s. by rewrite Z.add_0_r. }
  destruct (Hstep lo s) as (s' & -> & HP'); [lia|done|]. cbn [mbind outcome_bind].
  destruct (IH (lo + 1) s') as (s'' & Heq & HP''); [done| |].
  { intros i s0 Hi. apply Hstep. lia. }
  exists s''. split; [done|]. replace (lo + Z.of_nat (Datatypes.S n)) with (lo + 1 + Z.of_nat n) by lia.
  done.
Qed.

(** A loop returns, and establishes [P hi], when its body does so step by step. *)
Lemma for_range_ind {S} (P : Z -> S -> Prop) body lo hi s :
  lo <= hi -> P lo s ->
  (forall i s, lo <= i < hi -> P i s -> exists s', body i s = Ok s' /\ P (i + 1) s') ->
  exists s', for_range lo hi body s = Ok s' /\ P hi s'.
Proof.
  intros Hle HP Hstep. unfold for_range.
  destruct (for_from_ind P body (Z.to_nat (hi - lo)) lo s HP) as (s' & ? & ?).
  { intros i s0 Hi. apply Hstep. lia. }
  exists s'. split; [done|]. by replace hi with (lo + Z.of_nat (Z.to_nat (hi - lo))) by lia.
Qed.

Lemma for_range_empty {S} body lo hi (s : S) : hi <= lo -> for_range lo hi body s = Ok s.
Proof. intros. unfold for_range. by replace (Z.to_nat (hi - lo)) with O by lia. Qed.

Lemma for_range_S {S} body lo hi (s : S) :
  lo < hi -> for_range lo hi body s = s' ← body lo s; for_range (lo + 1) hi body s'.
Proof.
  intros. unfold for_range.
  by replace (Z.to_nat (hi - lo)) with (Datatypes.S (Z.to_nat (hi - (lo + 1)))) by lia.
Qed.

(** Partial-correctness rule: what holds if the loop returned. *)
Lemma for_range_inv {S} (P : Z -> S -> Prop) body lo hi s s' :
  lo <= hi -> for_range lo hi body s = Ok s' -> P lo s ->
  (forall i s s', lo <= i < hi -> P i s -> body i s = Ok s' -> P (i + 1) s') ->
  P hi s'.
Proof.
  intros Hle. unfold for_range.
  remember (Z.to_nat (hi - lo)) as n eqn:Hn.
  revert lo s Hle Hn. induction n as [|n IH]; intros lo s Hle Hn Heq HP Hstep; simpl in Heq.
  { inv_ok. by replace hi with lo by lia. }
  destruct (body lo s) as [s1|] eqn:E; cbn [mbind outcome_bind] in Heq; [|done].
  eapply (IH (lo + 1)); [lia|lia|done| |].
  - eapply Hstep; [lia|done|done].
  - intros. eapply Hstep; [lia|done|done].
Qed.

Lemma until_from_ind {S R} (P : Z -> S -> Prop) (Q : R -> Prop) body n lo s :
  P lo s ->
  (forall i s, lo <= i < lo + Z.of_nat n -> P i s ->
     exists r, body i s = Ok r /\ match r with inl s' => P (i + 1) s' | inr v => Q v end) ->
  exists r, until_from n lo body s = Ok r /\
    match r with inl s' => P (lo + Z.of_nat n) s' | inr v => Q v end.
Proof.
  revert lo s. induction n as [|n IH]; intros lo s HP Hstep; simpl.
  { exists (inl s). by rewrite Z.add_0_r. }
  destruct (Hstep lo s) as (r & -> & HP'); [lia|done|]. cbn [mbind outcome_bind].
  destruct r as [s'|v]; [|by exists (inr v)].
  destruct (IH (lo + 1) s') as (r & Heq & Hr); [done| |].
  { intros i s0 Hi. apply Hstep. lia. }
  exists r. split; [done|]. by replace (lo + Z.of_nat (Datatypes.S n)) with (lo + 1 + Z.of_nat n) by lia.
Qed.

(** A loop with an early [return] ends, either having run through or returning
    a value that satisfies [Q]. *)
Lemma for_until_ind {S R} (P : Z -> S -> Prop) (Q : R -> Prop) body lo hi s :
  lo <= hi -> P lo s ->
  (forall i s, lo <= i < hi -> P i s ->
     exists r, body i s = Ok r /\ match r with inl s' => P (i + 1) s' | inr v => Q v end) ->
  exists r, for_until lo hi body s = Ok r /\
    match r with inl s' => P hi s' | inr v => Q v end.
Proof.
  intros Hle HP Hstep. unfold for_until.
  destruct (until_from_ind P Q body (Z.to_nat (hi - lo)) lo s HP) as (r & ? & ?).
  { intros i s0 Hi. apply Hstep. lia. }
  exists r. split; [done|]. by replace hi with (lo + Z.of_nat (Z.to_nat (hi - lo))) by lia.
Qed.

(** ** Facts about machine integers *)

Lemma to_uint_range z : is_uint (to_uint z).
Proof. unfold is_uint, to_uint. apply Z.mod_pos_bound. lia. Qed.

Lemma to_int_range z : is_int (to_int z).
Proof.
  unfold is_int, to_int. pose proof (Z.mod_pos_bound (z + 2 ^ 31) (2 ^ 32)). lia.
Qed.

Lemma to_uint_id z : is_uint z -> to_uint z = z.
Proof. unfold is_uint, to_uint. apply Z.mod_small. Qed.

Lemma to_int_id z : is_int z -> to_int z = z.
Proof. unfold is_int, to_int. intros. rewrite Z.mod_small; lia. Qed.

Lemma to_int_to_uint z : to_int (to_uint z) = to_int z.
Proof. unfold to_int, to_uint. by rewrite Zplus_mod_idemp_l. Qed.

Lemma to_uint_to_int z : to_uint (to_int z) = to_uint z.
Proof.
  unfold to_int, to_uint. rewrite Zminus_mod_idemp_l. f_equal. lia.
Qed.

Lemma to_int_cases z : is_uint z -> to_int z = if z <? 2 ^ 31 then z else z - 2 ^ 32.
Proof.
  unfold is_uint, to_int. intros Hz. destruct (Z.ltb_spec z (2 ^ 31)).
  - rewrite Z.mod_small; lia.
  - replace (z + 2 ^ 31) with (z - 2 ^ 31 + 1 * 2 ^ 32) by lia.
    rewrite Z_mod_plus_full, Z.mod_small; lia.
Qed.

Lemma to_uint_cases z : is_int z -> to_uint z = if z <? 0 then z + 2 ^ 32 else z.
Proof.
  unfold is_int, to_uint. intros Hz. destruct (Z.ltb_spec z 0).
  - replace z with (z + 2 ^ 32 + (-1) * 2 ^ 32) at 1 by lia.
    rewrite Z_mod_plus_full, Z.mod_small; lia.
  - rewrite Z.mod_small; lia.
Qed.

Lemma int_add_Ok a b : is_int (a + b) -> int_add a b = Ok (a + b).
Proof. unfold is_int, int_add. intros. by replace (_ && _)%bool with true by lia. Qed.

Lemma int_add_overflow a b : ~ is_int (a + b) -> int_add a b = Err Undefined.
Proof. unfold is_int, int_add. intros. by replace (_ && _)%bool with false by lia. Qed.

Lemma divRoundUp_pos n s : 0 <= n -> 0 < s -> divRoundUp n s = (n + s - 1) / s.
Proof.
  intros Hn Hs. unfold divRoundUp.
  rewrite Z.quot_div_nonneg, Z.rem_mod_nonneg by lia.
  pose proof (Z.div_mod n s ltac:(lia)) as Hdm. pose proof (Z.mod_pos_bound n s Hs).
  destruct (Z.ltb_spec 0 (n mod s)).
  - apply Z.div_unique with (n mod s - 1); nia.
  - apply Z.div_unique with (s - 1); nia.
Qed.

Lemma divRoundUp_bounds n s :
  0 <= n -> 0 < s -> n <= divRoundUp n s * s < n + s.
Proof.
  intros Hn Hs. rewrite divRoundUp_pos by lia.
  pose proof (Z.div_mod (n + s - 1) s ltac:(lia)). pose proof (Z.mod_pos_bound (n + s - 1) s Hs). nia.
Qed.

Lemma divRoundUp_nonneg n s : 0 <= n -> 0 < s -> 0 <= divRoundUp n s.
Proof. intros. pose proof (divRoundUp_bounds n s). nia. Qed.

(** ** Facts about little-endian layout *)

Lemma length_le_bytes n z : length (le_bytes n z) = n.
Proof. revert z. induction n; intros; simpl; auto. Qed.

Lemma le_bytes_byte n z : Forall is_byte (le_bytes n z).
Proof.
  revert z. induction n; intros; simpl; constructor; auto.
  apply Z.mod_pos_bound. lia.
Qed.

Lemma le_value_bytes n z : le_value (le_bytes n z) = z mod 256 ^ Z.of_nat n.
Proof.
  revert z. induction n as [|n IH]; intros z; simpl.
  { by rewrite Z.mod_1_r. }
  rewrite IH. rewrite Nat2Z.inj_succ, Z.pow_succ_r by lia.
  rewrite Z.rem_mul_r by lia. lia.
Qed.

Lemma le_value_range l :
  Forall is_byte l -> 0 <= le_value l < 256 ^ Z.of_nat (length l).
Proof.
  induction 1 as [|b l Hb _ IH]; simpl; [lia|].
  rewrite Nat2Z.inj_succ, Z.pow_succ_r by lia. unfold is_byte in Hb. lia.
Qed.

Lemma le_bytes_value l : Forall is_byte l -> le_bytes (length l) (le_value l) = l.
Proof.
  induction 1 as [|b l Hb _ IH]; simpl; [done|]. unfold is_byte in Hb.
  rewrite (Z.add_comm b), (Z.mul_comm 256).
  rewrite Z.add_comm, Z_mod_plus_full, Z.mod_small by lia.
  rewrite Z_div_plus_full, Z.div_small, Z.add_0_l by lia. by rewrite IH.
Qed.

Lemma le_word_roundtrip z : is_uint z -> le_value (le_bytes 4 z) = z.
Proof. intros Hz. rewrite le_value_bytes. by apply Z.mod_small. Qed.

Lemma le_int_roundtrip z : is_int z -> to_int (le_value (le_bytes 4 z)) = z.
Proof.
  intros Hz. rewrite le_value_bytes. change (256 ^ Z.of_nat 4) with (2 ^ 32).
  change (z mod 2 ^ 32) with (to_uint z). rewrite to_int_to_uint. by apply to_int_id.
Qed.

#[export] Hint Resolve to_uint_range to_int_range le_bytes_byte length_le_bytes : nachos.
