(* ===== verification/Text.v ===== *)
(** * Text (C strings and what [cout] prints)

    Characters are bytes; the files that model output or messages write their
    strings with [text]. *)

From stdpp Require Import strings pretty.
From S2P Require Import Prelude.
Open Scope Z_scope.

Fixpoint text (s : string) : list Z :=
  match s with
  | EmptyString => []
  | String c s' => Z.of_N (Ascii.N_of_ascii c) :: text s'
  end.
Definition newline : Z := 10.
Definition tab : Z := 9.

(** [cout << n] for an integer *)
Definition number (n : Z) : list Z := text (pretty n).

(** A C string ends at its first 0. *)
Fixpoint c_string (l : list Z) : list Z :=
  match l with c :: l' => if c =? 0 then [] else c :: c_string l' | [] => [] end.

(** [cout << buffer] for an array of characters: without a terminator the
    printing runs past the array. *)
Definition print_string (buffer : list Z) : outcome (list Z) :=
  if bool_decide (0 ∈ buffer) then Ok (c_string buffer) else Err Undefined.

Lemma c_string_id l : Forall (fun c => c <> 0) l -> c_string l = l.
Proof.
  induction 1 as [|c l Hc _ IH]; [done|]. cbn. destruct (Z.eqb_spec c 0); [done|]. by rewrite IH.
Qed.

Lemma c_string_terminated l r : Forall (fun c => c <> 0) l -> c_string (l ++ 0 :: r) = l.
Proof.
  induction 1 as [|c l Hc _ IH]; [done|]. cbn. destruct (Z.eqb_spec c 0); [done|]. by rewrite IH.
Qed.

Lemma print_string_ok l r : Forall (fun c => c <> 0) l -> print_string (l ++ 0 :: r) = Ok l.
Proof.
  intros Hl. unfold print_string. rewrite bool_decide_true by set_solver. by rewrite c_string_terminated.
Qed.
