(* ===== verification/Bitmap.v ===== *)
(** * Bitmaps (src/code/lib/bitmap.h, bitmap.cc)

    [Bitmap] is the class's state: the storage is an array of 32-bit words.
    Every method is an executable definition with the source's assertions.
    The theorems relate the word-level code to the abstract view [bit b i],
    the i-th bit of the map. *)

From S2P Require Import Prelude.

Definition BitsInByte : Z := 8.
Definition BitsInWord : Z := 4 * BitsInByte.

Record Bitmap := mkBitmap {
  numBits : Z;
  numWords : Z;
  map : list Z;
}.

(** [1 << k] as the [unsigned int] operand it becomes. *)
Definition bit_mask (k : Z) : Z := to_uint (to_int (Z.shiftl 1 k)).

(** [Bitmap::Test] *)
Definition Test (b : Bitmap) (which : Z) : outcome bool :=
  _ ← ASSERT ((0 <=? which) && (which <? numBits b));
  w ← arr_get (map b) (Z.quot which BitsInWord);
  Ok (negb (Z.land w (bit_mask (Z.rem which BitsInWord)) =? 0)).

(** [Bitmap::Mark] *)
Definition Mark (b : Bitmap) (which : Z) : outcome Bitmap :=
  _ ← ASSERT ((0 <=? which) && (which <? numBits b));
  w ← arr_get (map b) (Z.quot which BitsInWord);
  m ← arr_set (map b) (Z.quot which BitsInWord)
        (Z.lor w (bit_mask (Z.rem which BitsInWord)));
  let b' := mkBitmap (numBits b) (numWords b) m in
  t ← Test b' which;
  _ ← ASSERT t;
  Ok b'.

(** [Bitmap::Clear] *)
Definition Clear (b : Bitmap) (which : Z) : outcome Bitmap :=
  _ ← ASSERT ((0 <=? which) && (which <? numBits b));
  w ← arr_get (map b) (Z.quot which BitsInWord);
  m ← arr_set (map b) (Z.quot which BitsInWord)
        (Z.land w (to_uint (Z.lnot (bit_mask (Z.rem which BitsInWord)))));
  let b' := mkBitmap (numBits b) (numWords b) m in
  t ← Test b' which;
  _ ← ASSERT (negb t);
  Ok b'.

(** [Bitmap::Bitmap]: the words are zeroed, then every bit is cleared. *)
Definition newBitmap (numItems : Z) : outcome Bitmap :=
  _ ← ASSERT (0 <? numItems);
  let nw := divRoundUp numItems BitsInWord in
  for_range 0 numItems (fun i b => Clear b i)
    (mkBitmap numItems nw (replicate (Z.to_nat nw) 0)).

(** [Bitmap::FindAndSet] *)
Definition FindAndSet (b : Bitmap) : outcome (Bitmap * Z) :=
  r ← for_until 0 (numBits b) (fun i (b : Bitmap) =>
        t ← Test b i;
        if negb t then b' ← Mark b i; Ok (inr (b', i)) else Ok (inl b)) b;
  match r with
  | inl b' => Ok (b', -1)
  | inr p => Ok p
  end.

(** [Bitmap::NumClear] *)
Definition NumClear (b : Bitmap) : outcome Z :=
  for_range 0 (numBits b) (fun i count =>
    t ← Test b i;
    Ok (if negb t then count + 1 else count)) 0.

(** [Bitmap::Print]: the numbers printed. *)
Definition Print (b : Bitmap) : outcome (list Z) :=
  for_range 0 (numBits b) (fun i out =>
    t ← Test b i;
    Ok (if (t : bool) then out ++ [i] else out)) [].

(** [Bitmap::SelfTest] *)
Definition SelfTest (b : Bitmap) : outcome Bitmap :=
  _ ← ASSERT (BitsInWord <=? numBits b);
  n ← NumClear b;
  _ ← ASSERT (n =? numBits b);
  '(b, k) ← FindAndSet b;
  _ ← ASSERT (k =? 0);
  b ← Mark b 31;
  t0 ← Test b 0;
  t31 ← Test b 31;
  _ ← ASSERT (t0 && t31);
  '(b, k) ← FindAndSet b;
  _ ← ASSERT (k =? 1);
  b ← Clear b 0;
  b ← Clear b 1;
  b ← Clear b 31;
  b ← for_range 0 (numBits b) (fun i b => Mark b i) b;
  '(b, k) ← FindAndSet b;
  _ ← ASSERT (k =? -1);
  for_range 0 (numBits b) (fun i b => Clear b i) b.

(** ** Abstract view and representation invariant *)

(** The abstract state of the map: is bit [i] set? *)
Definition bit (b : Bitmap) (i : Z) : bool :=
  match map b !! Z.to_nat (i / 32) with
  | Some w => Z.testbit w (i mod 32)
  | None => false
  end.

Record bitmap_wf (b : Bitmap) : Prop := {
  wf_pos : 0 < numBits b;
  wf_words : numWords b = divRoundUp (numBits b) BitsInWord;
  wf_length : Z.of_nat (length (map b)) = numWords b;
  wf_range : Forall is_uint (map b);
}.

(** The clear bits of [b], in increasing order. *)
Definition clear_bits (b : Bitmap) : list Z :=
  filter (fun i => bit b i = false) (seqZ 0 (numBits b)).

(** ** Word-level lemmas *)

Lemma bit_mask_pow k : 0 <= k < 32 -> bit_mask k = 2 ^ k.
Proof.
  intros Hk. unfold bit_mask. rewrite to_uint_to_int, Z.shiftl_1_l. apply to_uint_id.
  unfold is_uint. split; [apply Z.pow_nonneg; lia|]. apply Z.pow_lt_mono_r; lia.
Qed.

Lemma land_pow2_testbit w k : 0 <= k -> negb (Z.land w (2 ^ k) =? 0) = Z.testbit w k.
Proof.
  intros Hk. destruct (Z.testbit w k) eqn:E.
  - apply negb_true_iff, Z.eqb_neq. intros H0.
    assert (Z.testbit (Z.land w (2 ^ k)) k = true) as H1.
    { rewrite Z.land_spec, E, Z.pow2_bits_true by lia. done. }
    by rewrite H0, Z.bits_0 in H1.
  - apply negb_false_iff, Z.eqb_eq. apply Z.bits_inj'. intros n Hn.
    rewrite Z.bits_0, Z.land_spec, Z.pow2_bits_eqb by lia.
    destruct (Z.eqb_spec k n) as [->|]; [by rewrite E|by rewrite andb_false_r].
Qed.

Lemma is_uint_testbit w : 0 <= w -> (forall n, 32 <= n -> Z.testbit w n = false) -> is_uint w.
Proof.
  intros Hw Hbits. split; [done|]. destruct (Z.eq_dec w 0) as [->|]; [lia|].
  apply Z.log2_lt_pow2; [lia|]. destruct (Z.ltb_spec (Z.log2 w) 32); [done|].
  specialize (Hbits (Z.log2 w) ltac:(lia)). by rewrite Z.bit_log2 in Hbits by lia.
Qed.

Lemma is_uint_high w n : is_uint w -> 32 <= n -> Z.testbit w n = false.
Proof.
  intros [H0 H1] Hn. destruct (Z.eq_dec w 0) as [->|]; [apply Z.bits_0|].
  apply Z.bits_above_log2; [done|]. assert (Z.log2 w < 32); [|lia]. apply Z.log2_lt_pow2; lia.
Qed.

Lemma lor_uint a b : is_uint a -> is_uint b -> is_uint (Z.lor a b).
Proof.
  intros Ha Hb. apply is_uint_testbit.
  - apply Z.lor_nonneg. split; [apply Ha|apply Hb].
  - intros n Hn. by rewrite Z.lor_spec, !is_uint_high.
Qed.

Lemma land_uint_l a b : is_uint a -> 0 <= b -> is_uint (Z.land a b).
Proof.
  intros Ha Hb. apply is_uint_testbit.
  - apply Z.land_nonneg. by right.
  - intros n Hn. by rewrite Z.land_spec, (is_uint_high a).
Qed.

Lemma to_uint_testbit w n : 0 <= n < 32 -> Z.testbit (to_uint w) n = Z.testbit w n.
Proof. intros. unfold to_uint. apply Z.mod_pow2_bits_low. lia. Qed.

Lemma pow2_uint k : 0 <= k < 32 -> is_uint (2 ^ k).
Proof. intros. split; [apply Z.pow_nonneg; lia|]. apply Z.pow_lt_mono_r; lia. Qed.

(** ** Method lemmas *)

Section methods.
Context (b : Bitmap) (Hwf : bitmap_wf b).

Lemma numWords_bounds : numBits b <= numWords b * 32 < numBits b + 32.
Proof.
  destruct Hwf as [? Hw _ _]. rewrite Hw. unfold BitsInWord, BitsInByte.
  apply divRoundUp_bounds; lia.
Qed.

Lemma word_lookup i :
  0 <= i < numBits b ->
  exists w, map b !! Z.to_nat (i / 32) = Some w /\ is_uint w /\
    arr_get (map b) (Z.quot i BitsInWord) = Ok w /\
    0 <= i / 32 < Z.of_nat (length (map b)).
Proof.
  intros Hi. pose proof numWords_bounds as Hnw. destruct Hwf as [? ? Hlen Hrange].
  assert (0 <= i / 32 < Z.of_nat (length (map b))) as Hlt.
  { split; [apply Z.div_pos; lia|]. apply Z.div_lt_upper_bound; lia. }
  destruct (lookup_lt_is_Some_2 (map b) (Z.to_nat (i / 32))) as [w Hw]; [lia|].
  exists w. split; [done|]. split; [by eapply Forall_lookup_1|]. split; [|done].
  change BitsInWord with 32. rewrite Z.quot_div_nonneg by lia.
  apply arr_get_Some; [lia|done].
Qed.

Lemma rem_word i : 0 <= i -> Z.rem i BitsInWord = i mod 32.
Proof. intros. change BitsInWord with 32. apply Z.rem_mod_nonneg; lia. Qed.

Lemma Test_spec i : 0 <= i < numBits b -> Test b i = Ok (bit b i).
Proof.
  intros Hi. unfold Test, bit. destruct (word_lookup i Hi) as (w & Hw & _ & Hget & _).
  replace (_ && _)%bool with true by lia. cbn [ASSERT mbind outcome_bind].
  rewrite Hget, Hw. cbn [mbind outcome_bind].
  pose proof (Z.mod_pos_bound i 32). rewrite rem_word by lia.
  rewrite bit_mask_pow by lia. by rewrite land_pow2_testbit by lia.
Qed.

(** Replacing the word that holds bit [i]. *)
Lemma bit_insert i w' j :
  0 <= i < numBits b -> 0 <= j ->
  bit (mkBitmap (numBits b) (numWords b) (<[Z.to_nat (i / 32) := w']> (map b))) j =
    if i / 32 =? j / 32 then Z.testbit w' (j mod 32) else bit b j.
Proof.
  intros Hi Hj. destruct (word_lookup i Hi) as (w & Hw & _ & _ & Hlt).
  unfold bit; simpl. pose proof (Z.div_pos j 32 Hj).
  destruct (Z.eqb_spec (i / 32) (j / 32)) as [Hd|Hne].
  - rewrite <- Hd. by rewrite list_lookup_insert_eq by lia.
  - by rewrite list_lookup_insert_ne by lia.
Qed.

Lemma wf_insert i w' :
  is_uint w' ->
  bitmap_wf (mkBitmap (numBits b) (numWords b) (<[i := w']> (map b))).
Proof.
  intros Hw. destruct Hwf as [? ? ? ?]. split; simpl; [done|done|by rewrite length_insert|].
  by apply Forall_insert.
Qed.

End methods.

Lemma div_mod_eq_iff i j : i / 32 = j / 32 -> i mod 32 = j mod 32 -> i = j.
Proof. intros. pose proof (Z.div_mod i 32). pose proof (Z.div_mod j 32). lia. Qed.

(** [Mark] sets exactly the requested bit. *)
Lemma Mark_ok b i :
  bitmap_wf b -> 0 <= i < numBits b ->
  exists b', Mark b i = Ok b' /\ bitmap_wf b' /\ numBits b' = numBits b /\
    forall j, 0 <= j -> bit b' j = if j =? i then true else bit b j.
Proof.
  intros Hwf Hi. destruct (word_lookup b Hwf i Hi) as (w & Hw & Hu & Hget & Hlt).
  pose proof (Z.mod_pos_bound i 32 ltac:(lia)) as Hm.
  set (b' := mkBitmap (numBits b) (numWords b)
    (<[Z.to_nat (i / 32) := Z.lor w (2 ^ (i mod 32))]> (map b))).
  assert (bitmap_wf b') as Hwf' by (apply wf_insert; [done|apply lor_uint; [done|by apply pow2_uint]]).
  assert (forall j, 0 <= j -> bit b' j = if j =? i then true else bit b j) as Hbits.
  { intros j Hj. unfold b'. rewrite bit_insert by done.
    destruct (Z.eqb_spec (i / 32) (j / 32)) as [Hd|Hd].
    - pose proof (Z.mod_pos_bound j 32 ltac:(lia)).
      rewrite Z.lor_spec, Z.pow2_bits_eqb by lia.
      destruct (Z.eqb_spec j i) as [->|Hne]; [by rewrite Z.eqb_refl, orb_true_r|].
      destruct (Z.eqb_spec (i mod 32) (j mod 32)); [by destruct (div_mod_eq_iff i j)|].
      unfold bit. by rewrite <- Hd, Hw, orb_false_r.
    - destruct (Z.eqb_spec j i) as [->|]; done. }
  exists b'. split; [|done]. unfold Mark.
  replace (_ && _)%bool with true by lia. cbn [ASSERT mbind outcome_bind].
  rewrite Hget. cbn [mbind outcome_bind]. rewrite rem_word by lia. rewrite bit_mask_pow by lia.
  change BitsInWord with 32. rewrite Z.quot_div_nonneg, arr_set_lt by lia.
  cbn [mbind outcome_bind]. fold b'. rewrite (Test_spec b' Hwf') by done.
  cbn [mbind outcome_bind]. rewrite Hbits by lia. by rewrite Z.eqb_refl.
Qed.

(** [Clear] clears exactly the requested bit. *)
Lemma Clear_ok b i :
  bitmap_wf b -> 0 <= i < numBits b ->
  exists b', Clear b i = Ok b' /\ bitmap_wf b' /\ numBits b' = numBits b /\
    forall j, 0 <= j -> bit b' j = if j =? i then false else bit b j.
Proof.
  intros Hwf Hi. destruct (word_lookup b Hwf i Hi) as (w & Hw & Hu & Hget & Hlt).
  pose proof (Z.mod_pos_bound i 32 ltac:(lia)) as Hm.
  set (b' := mkBitmap (numBits b) (numWords b)
    (<[Z.to_nat (i / 32) := Z.land w (to_uint (Z.lnot (2 ^ (i mod 32))))]> (map b))).
  assert (bitmap_wf b') as Hwf'.
  { apply wf_insert; [done|apply land_uint_l; [done|]]. apply to_uint_range. }
  assert (forall j, 0 <= j -> bit b' j = if j =? i then false else bit b j) as Hbits.
  { intros j Hj. unfold b'. rewrite bit_insert by done.
    destruct (Z.eqb_spec (i / 32) (j / 32)) as [Hd|Hd].
    - pose proof (Z.mod_pos_bound j 32 ltac:(lia)).
      rewrite Z.land_spec, to_uint_testbit, Z.lnot_spec, Z.pow2_bits_eqb by lia.
      destruct (Z.eqb_spec j i) as [->|Hne]; [by rewrite Z.eqb_refl, andb_false_r|].
      destruct (Z.eqb_spec (i mod 32) (j mod 32)); [by destruct (div_mod_eq_iff i j)|].
      unfold bit. by rewrite <- Hd, Hw, andb_true_r.
    - destruct (Z.eqb_spec j i) as [->|]; done. }
  exists b'. split; [|done]. unfold Clear.
  replace (_ && _)%bool with true by lia. cbn [ASSERT mbind outcome_bind].
  rewrite Hget. cbn [mbind outcome_bind]. rewrite rem_word by lia. rewrite bit_mask_pow by lia.
  change BitsInWord with 32. rewrite Z.quot_div_nonneg, arr_set_lt by lia.
  cbn [mbind outcome_bind]. fold b'. rewrite (Test_spec b' Hwf') by done.
  cbn [mbind outcome_bind]. rewrite Hbits by lia. by rewrite Z.eqb_refl.
Qed.

(** Out-of-range requests stop in the assertion. *)
Lemma Test_out b i : ~ (0 <= i < numBits b) -> Test b i = Err AssertFailed.
Proof. intros. unfold Test. by replace (_ && _)%bool with false by lia. Qed.

Lemma Mark_out b i : ~ (0 <= i < numBits b) -> Mark b i = Err AssertFailed.
Proof. intros. unfold Mark. by replace (_ && _)%bool with false by lia. Qed.

Lemma Clear_out b i : ~ (0 <= i < numBits b) -> Clear b i = Err AssertFailed.
Proof. intros. unfold Clear. by replace (_ && _)%bool with false by lia. Qed.

(** ** Whole-map loops *)

Section sweep.
Context (op : Bitmap -> Z -> outcome Bitmap) (v : bool).
Context (Hop : forall b i, bitmap_wf b -> 0 <= i < numBits b ->
  exists b', op b i = Ok b' /\ bitmap_wf b' /\ numBits b' = numBits b /\
    forall j, 0 <= j -> bit b' j = if j =? i then v else bit b j).

(** Applying [Mark] (or [Clear]) to every bit makes every bit set (clear). *)
Lemma sweep_ok b :
  bitmap_wf b ->
  exists b', for_range 0 (numBits b) (fun i b => op b i) b = Ok b' /\ bitmap_wf b' /\
    numBits b' = numBits b /\ forall j, 0 <= j < numBits b -> bit b' j = v.
Proof.
  intros Hwf. pose proof (wf_pos _ Hwf).
  destruct (for_range_ind (fun i b' => bitmap_wf b' /\ numBits b' = numBits b /\
      forall j, 0 <= j < i -> bit b' j = v) (fun i b => op b i) 0 (numBits b) b)
    as (b' & ? & ? & ? & ?); [lia| | |].
  - repeat split; [apply Hwf..|]. intros j Hj. lia.
  - intros i b1 Hi (Hwf1 & Hn & Hall).
    destruct (Hop b1 i Hwf1 ltac:(lia)) as (b2 & Heq & Hwf2 & Hn2 & Hb2).
    exists b2. split; [done|]. split; [done|]. split; [lia|].
    intros j Hj. rewrite Hb2 by lia. destruct (Z.eqb_spec j i); [done|]. apply Hall. lia.
  - by exists b'.
Qed.
End sweep.

Lemma replicate_words_wf n :
  0 < n -> bitmap_wf (mkBitmap n (divRoundUp n BitsInWord)
             (replicate (Z.to_nat (divRoundUp n BitsInWord)) 0)).
Proof.
  intros Hn. pose proof (divRoundUp_nonneg n BitsInWord ltac:(lia) ltac:(done)).
  split; simpl; [done|done|rewrite length_replicate; lia|].
  apply Forall_replicate. done.
Qed.

(** The constructor yields an empty map. *)
Lemma newBitmap_ok n :
  0 < n -> exists b, newBitmap n = Ok b /\ bitmap_wf b /\ numBits b = n /\
    forall i, 0 <= i < n -> bit b i = false.
Proof.
  intros Hn. unfold newBitmap. replace (0 <? n) with true by lia.
  cbn [ASSERT mbind outcome_bind].
  exact (sweep_ok Clear false Clear_ok _ (replicate_words_wf n Hn)).
Qed.

(** ** Clear bits *)

Lemma elem_of_clear_bits b i :
  i ∈ clear_bits b <-> 0 <= i < numBits b /\ bit b i = false.
Proof. unfold clear_bits. rewrite list_elem_of_filter, elem_of_seqZ. split; intros; intuition lia. Qed.

Lemma NoDup_clear_bits b : NoDup (clear_bits b).
Proof. apply NoDup_filter, NoDup_seqZ. Qed.

Lemma filter_seqZ_none (P : Z -> Prop) `{!forall i, Decision (P i)} m n :
  (forall i, m <= i < m + n -> ~ P i) -> filter P (seqZ m n) = [].
Proof.
  intros HP. destruct (filter P (seqZ m n)) as [|x l] eqn:E; [done|].
  assert (x ∈ filter P (seqZ m n)) as Hx by (rewrite E; left).
  apply list_elem_of_filter in Hx as [Hx Hs%elem_of_seqZ]. by destruct (HP x).
Qed.

Lemma clear_bits_head b i :
  0 <= i < numBits b -> bit b i = false -> (forall j, 0 <= j < i -> bit b j = true) ->
  exists rest, clear_bits b = i :: rest.
Proof.
  intros Hi Hb Hlow. unfold clear_bits.
  replace (numBits b) with (i + (numBits b - i)) by lia.
  rewrite seqZ_app by lia. rewrite filter_app, filter_seqZ_none by (intros; rewrite Hlow; [done|lia]).
  rewrite Z.add_0_l. rewrite seqZ_cons by lia. simpl.
  rewrite filter_cons_True by done. eauto.
Qed.

Lemma clear_bits_least b x rest i :
  clear_bits b = x :: rest -> 0 <= i < x -> bit b i = false -> False.
Proof.
  intros Hcb Hi Hb. assert (x ∈ clear_bits b) as Hx by (rewrite Hcb; left).
  apply elem_of_clear_bits in Hx as [Hx _].
  unfold clear_bits in Hcb. replace (numBits b) with (i + 1 + (numBits b - (i + 1))) in Hcb by lia.
  rewrite seqZ_app, filter_app, seqZ_snoc, filter_app, filter_cons_True in Hcb by (done || lia).
  destruct (filter _ (seqZ 0 i)) as [|y l] eqn:Ey; simplify_eq/=; [lia|].
  assert (x ∈ filter (fun j => bit b j = false) (seqZ 0 i)) as Hy by (rewrite Ey; left).
  apply list_elem_of_filter in Hy as [_ Hy%elem_of_seqZ]. lia.
Qed.

Lemma clear_bits_update b b' x rest :
  numBits b' = numBits b ->
  (forall j, 0 <= j -> bit b' j = if j =? x then true else bit b j) ->
  clear_bits b = x :: rest -> clear_bits b' = rest.
Proof.
  intros Hn Hbits Hcb.
  assert (clear_bits b' = filter (fun i => i <> x) (clear_bits b)) as ->.
  { unfold clear_bits. rewrite Hn, list_filter_filter. apply filter_ext_in.
    intros i Hi%elem_of_seqZ. rewrite Hbits by lia.
    destruct (Z.eqb_spec i x); intuition congruence. }
  pose proof (NoDup_clear_bits b) as Hnd. rewrite Hcb in Hnd |- *.
  apply NoDup_cons in Hnd as [Hx _].
  rewrite filter_cons_False by auto.
  apply filter_all. by intros i Hi ->.
Qed.

(** [FindAndSet] pops the first clear bit: it returns [-1] and changes nothing
    when the map is full. *)
Lemma FindAndSet_ok b :
  bitmap_wf b ->
  match clear_bits b with
  | [] => FindAndSet b = Ok (b, -1)
  | x :: rest => exists b', FindAndSet b = Ok (b', x) /\ bitmap_wf b' /\
      numBits b' = numBits b /\ clear_bits b' = rest /\
      forall j, 0 <= j -> bit b' j = if j =? x then true else bit b j
  end.
Proof.
  intros Hwf. pose proof (wf_pos _ Hwf).
  set (body := fun i (b : Bitmap) => t ← Test b i;
    if negb t then b' ← Mark b i; Ok (inr (b', i)) else Ok (inl b)).
  destruct (for_until_ind (fun i b1 => b1 = b /\ forall j, 0 <= j < i -> bit b j = true)
    (fun '(b', x) => 0 <= x < numBits b /\ Mark b x = Ok b' /\ bit b x = false /\
       forall j, 0 <= j < x -> bit b j = true) body 0 (numBits b) b) as (r & Hr & HQ); [lia| | |].
  - split; [done|]. intros. lia.
  - intros i b1 Hi [-> Hlow]. unfold body. rewrite (Test_spec b Hwf) by lia.
    cbn [mbind outcome_bind]. destruct (bit b i) eqn:Hbi; cbn [negb].
    + exists (inl b). split; [done|]. split; [done|]. intros j Hj.
      destruct (Z.eq_dec j i) as [->|]; [done|]. apply Hlow. lia.
    + destruct (Mark_ok b i Hwf Hi) as (b' & HM & _). rewrite HM. by eexists (inr (b', i)).
  - unfold FindAndSet. fold body. rewrite Hr. cbn [mbind outcome_bind].
    destruct r as [b1|[b1 x]].
    + destruct HQ as [-> Hall]. destruct (clear_bits b) as [|x rest] eqn:E; [done|].
      assert (x ∈ clear_bits b) as Hx by (rewrite E; left).
      apply elem_of_clear_bits in Hx as [Hx Hxf]. rewrite Hall in Hxf; [done|lia].
    + destruct HQ as (Hx & HM & Hxf & Hlow).
      destruct (clear_bits_head b x) as [rest Hcb]; [done..|]. rewrite Hcb.
      destruct (Mark_ok b x Hwf Hx) as (b' & HM' & Hwf' & Hn' & Hb').
      rewrite HM in HM'. injection HM' as <-.
      exists b1. split_and!; [done..| |done]. by eapply clear_bits_update.
Qed.

(** [NumClear] counts the clear bits. *)
Lemma NumClear_ok b : bitmap_wf b -> NumClear b = Ok (Z.of_nat (length (clear_bits b))).
Proof.
  intros Hwf. pose proof (wf_pos _ Hwf). unfold NumClear.
  destruct (for_range_ind (fun i c => c = Z.of_nat (length
    (filter (fun j => bit b j = false) (seqZ 0 i))))
    (fun i count => t ← Test b i; Ok (if negb t then count + 1 else count)) 0 (numBits b) 0)
    as (c & -> & ->); [lia|done| |done].
  intros i c Hi ->. rewrite (Test_spec b Hwf) by lia. cbn [mbind outcome_bind].
  eexists. split; [done|]. rewrite seqZ_snoc, filter_app, length_app, Z.add_0_l by lia.
  destruct (bit b i) eqn:Hbi; cbn [negb].
  - rewrite filter_cons_False by congruence. simpl. lia.
  - rewrite filter_cons_True by done. simpl. lia.
Qed.

(** [Print] lists the set bits in increasing order. *)
Lemma Print_ok b :
  bitmap_wf b -> Print b = Ok (filter (fun i => bit b i = true) (seqZ 0 (numBits b))).
Proof.
  intros Hwf. pose proof (wf_pos _ Hwf). unfold Print.
  destruct (for_range_ind (fun i out => out = filter (fun j => bit b j = true) (seqZ 0 i))
    (fun i out => t ← Test b i; Ok (if (t : bool) then out ++ [i] else out)) 0 (numBits b) [])
    as (c & -> & ->); [lia|done| |done].
  intros i c Hi ->. rewrite (Test_spec b Hwf) by lia. cbn [mbind outcome_bind].
  eexists. split; [done|]. rewrite seqZ_snoc, filter_app, Z.add_0_l by lia.
  destruct (bit b i) eqn:Hbi.
  - by rewrite filter_cons_True.
  - rewrite filter_cons_False by congruence. by rewrite app_nil_r.
Qed.

(** ** Properties of the component *)

(** Every bit of a map in [0, n) has value [v]. *)
Definition uniform (b : Bitmap) (v : bool) : Prop :=
  forall i, 0 <= i < numBits b -> bit b i = v.

Lemma clear_bits_full b : uniform b true -> clear_bits b = [].
Proof. intros Hu. apply filter_seqZ_none. intros i Hi. rewrite Hu by lia. done. Qed.

Lemma clear_bits_empty b : uniform b false -> clear_bits b = seqZ 0 (numBits b).
Proof.
  intros Hu. apply filter_all. intros i Hi%elem_of_seqZ. apply Hu. lia.
Qed.

(** Steps of [SelfTest]: an operation applied to a well-formed map. *)
Ltac bitmap_step lem :=
  let b' := fresh "b" in let E := fresh "E" in
  let W := fresh "W" in let N := fresh "N" in let B := fresh "B" in
  destruct lem as (b' & E & W & N & B); [assumption || lia..|]; ok_step E.

Lemma SelfTest_ok b :
  bitmap_wf b -> 32 <= numBits b -> uniform b false ->
  exists b', SelfTest b = Ok b' /\ bitmap_wf b' /\ numBits b' = numBits b /\ uniform b' false.
Proof.
  intros Hwf Hn Hu. unfold SelfTest.
  replace (BitsInWord <=? numBits b) with true by (unfold BitsInWord, BitsInByte; lia).
  cbn [ASSERT mbind outcome_bind]. rewrite (NumClear_ok b Hwf). cbn [mbind outcome_bind].
  rewrite clear_bits_empty, length_seqZ by done.
  rewrite Z2Nat.id, Z.eqb_refl by lia. cbn [ASSERT mbind outcome_bind].
  pose proof (FindAndSet_ok b Hwf) as HF. rewrite clear_bits_empty, seqZ_cons in HF by (done || lia).
  destruct HF as (b1 & E1 & W1 & N1 & _ & B1). ok_step E1. rewrite Z.eqb_refl.
  cbn [ASSERT mbind outcome_bind].
  bitmap_step (Mark_ok b1 31).
  rewrite !Test_spec by (done || lia). cbn [mbind outcome_bind]. rewrite !B, !B1 by lia.
  cbn [Z.eqb andb Pos.eqb ASSERT mbind outcome_bind].
  destruct (clear_bits_head b0 1) as [rest Hcb].
  { lia. }
  { rewrite B, B1 by lia. cbn. apply Hu. lia. }
  { intros j Hj. replace j with 0 by lia. by rewrite B, B1 by lia. }
  pose proof (FindAndSet_ok b0 W) as HF. rewrite Hcb in HF.
  destruct HF as (b2 & E2 & W2 & N2 & _ & B2). ok_step E2. cbn [Z.eqb Pos.eqb ASSERT mbind outcome_bind].
  bitmap_step (Clear_ok b2 0). bitmap_step (Clear_ok b3 1). bitmap_step (Clear_ok b4 31).
  destruct (sweep_ok Mark true Mark_ok b5) as (b6 & E6 & W6 & N6 & B6); [done|]. ok_step E6.
  pose proof (FindAndSet_ok b6 W6) as HF. rewrite clear_bits_full in HF.
  2: { intros i Hi. apply B6. lia. }
  ok_step HF. cbn [Z.eqb Pos.eqb ASSERT mbind outcome_bind].
  destruct (sweep_ok Clear false Clear_ok b6 W6) as (b7 & E7 & W7 & N7 & B7).
  exists b7. split_and!; [done|done|lia|]. intros i Hi. apply B7. lia.
Qed.

(** The set of bits that are set: the abstract value of a map. *)
Definition set_bits (b : Bitmap) : gset Z :=
  list_to_set (filter (fun i => bit b i = true) (seqZ 0 (numBits b))).

Lemma elem_of_set_bits b i : i ∈ set_bits b <-> 0 <= i < numBits b /\ bit b i = true.
Proof.
  unfold set_bits. rewrite elem_of_list_to_set, list_elem_of_filter, elem_of_seqZ.
  split; intros; intuition lia.
Qed.

(** Every bit is either set or clear. *)
Lemma length_clear_bits b :
  bitmap_wf b -> Z.of_nat (length (clear_bits b)) + Z.of_nat (size (set_bits b)) = numBits b.
Proof.
  intros Hwf. pose proof (wf_pos _ Hwf). unfold set_bits. rewrite size_list_to_set.
  2: { apply NoDup_filter, NoDup_seqZ. }
  unfold clear_bits. rewrite <- (Z2Nat.id (numBits b)) at 3 by lia. rewrite <- (length_seqZ 0 (numBits b)).
  induction (seqZ 0 (numBits b)) as [|i l IH]; [done|]. rewrite !filter_cons.
  destruct (bit b i); repeat case_decide; try done; cbn [length]; lia.
Qed.

Lemma set_bits_update b b' i v :
  numBits b' = numBits b -> 0 <= i < numBits b ->
  (forall j, 0 <= j -> bit b' j = if j =? i then v else bit b j) ->
  set_bits b' = if v then {[i]} ∪ set_bits b else set_bits b ∖ {[i]}.
Proof.
  intros Hn Hi Hb. apply set_eq. intros j. rewrite elem_of_set_bits, Hn.
  destruct v; rewrite ?elem_of_union, ?elem_of_difference, elem_of_singleton, elem_of_set_bits;
    (destruct (decide (0 <= j < numBits b)); [rewrite Hb by lia|intuition lia]);
    destruct (Z.eqb_spec j i); intuition (lia || congruence).
Qed.

(** On a well-formed bitmap the word-level [Test], [Mark] and [Clear]
    implement membership, insertion and removal on the finite set of marked
    bits, keep the representation invariant, and stop in their assertion
    exactly when the bit number is out of range. *)
Theorem bitmap_refines_set b i :
  bitmap_wf b ->
  if decide (0 <= i < numBits b) then
    Test b i = Ok (bool_decide (i ∈ set_bits b)) /\
    (exists b', Mark b i = Ok b' /\ bitmap_wf b' /\ numBits b' = numBits b /\
       set_bits b' = {[i]} ∪ set_bits b) /\
    (exists b', Clear b i = Ok b' /\ bitmap_wf b' /\ numBits b' = numBits b /\
       set_bits b' = set_bits b ∖ {[i]})
  else
    Test b i = Err AssertFailed /\ Mark b i = Err AssertFailed /\ Clear b i = Err AssertFailed.
Proof.
  intros Hwf. case_decide as Hi.
  2: { by rewrite Test_out, Mark_out, Clear_out. }
  split; [|split].
  - rewrite Test_spec by done. f_equal. symmetry.
    destruct (bit b i) eqn:E; [apply bool_decide_eq_true_2|apply bool_decide_eq_false_2];
      rewrite elem_of_set_bits; intuition congruence.
  - destruct (Mark_ok b i Hwf Hi) as (b' & ? & ? & ? & Hb). exists b'. split_and!; [done..|].
    by apply (set_bits_update b b' i true).
  - destruct (Clear_ok b i Hwf Hi) as (b' & ? & ? & ? & Hb). exists b'. split_and!; [done..|].
    by apply (set_bits_update b b' i false).
Qed.

Lemma bitmap_refines_set_witness :
  if decide (0 <= 37 < 40) then
    Test (mkBitmap 40 2 [5; 32]) 37 = Ok (bool_decide (37 ∈ set_bits (mkBitmap 40 2 [5; 32])))
  else True.
Proof.
  assert (bitmap_wf (mkBitmap 40 2 [5; 32])) as Hwf.
  { split; simpl; [lia|reflexivity|reflexivity|]. repeat constructor; unfold is_uint; lia. }
  exact (proj1 (bitmap_refines_set (mkBitmap 40 2 [5; 32]) 37 Hwf)).
Defined.

(** [FindAndSet] returns the smallest clear bit and marks exactly that
    one; it returns [-1] and leaves the map as it was when no bit is clear;
    [NumClear] counts the clear bits, so it drops by one with each success. *)
Theorem FindAndSet_first_clear b :
  bitmap_wf b ->
  exists b' r, FindAndSet b = Ok (b', r) /\ bitmap_wf b' /\ numBits b' = numBits b /\
    ((r = -1 /\ b' = b /\ (forall i, 0 <= i < numBits b -> i ∈ set_bits b) /\
      NumClear b = Ok 0) \/
     (0 <= r < numBits b /\ r ∉ set_bits b /\ (forall i, 0 <= i < r -> i ∈ set_bits b) /\
      set_bits b' = {[r]} ∪ set_bits b /\
      exists k, NumClear b = Ok (k + 1) /\ NumClear b' = Ok k)).
Proof.
  intros Hwf. pose proof (FindAndSet_ok b Hwf) as HF.
  destruct (clear_bits b) as [|x rest] eqn:E.
  - exists b, (-1). split_and!; [done..|]. left. split_and!; [done..| |].
    + intros i Hi. apply elem_of_set_bits. split; [done|]. destruct (bit b i) eqn:Eb; [done|].
      exfalso. assert (i ∈ clear_bits b) as Hc by (by apply elem_of_clear_bits).
      rewrite E in Hc. by apply elem_of_nil in Hc.
    + by rewrite NumClear_ok, E.
  - destruct HF as (b' & HF & Hwf' & Hn & Hrest & Hb).
    assert (x ∈ clear_bits b) as Hx by (rewrite E; left).
    apply elem_of_clear_bits in Hx as [Hx Hxf].
    exists b', x. split_and!; [done..|]. right. split_and!; [lia..| | | |].
    + rewrite elem_of_set_bits. intuition congruence.
    + intros i Hi. apply elem_of_set_bits. split; [lia|]. destruct (bit b i) eqn:Eb; [done|].
      exfalso. exact (clear_bits_least b x rest i E ltac:(lia) Eb).
    + apply (set_bits_update b b' x true); [done|lia|done].
    + exists (Z.of_nat (length rest)). rewrite !NumClear_ok by done. rewrite E, Hrest. simpl.
      split; f_equal; lia.
Qed.

Lemma FindAndSet_first_clear_witness :
  exists b' r, FindAndSet (mkBitmap 40 2 [4294967295; 5]) = Ok (b', r) /\ r = 33.
Proof.
  assert (bitmap_wf (mkBitmap 40 2 [4294967295; 5])) as Hwf.
  { split; simpl; [lia|reflexivity|reflexivity|]. repeat constructor; unfold is_uint; lia. }
  destruct (FindAndSet_first_clear _ Hwf) as (b' & r & HF & _).
  exists b', r. split; [exact HF|]. vm_compute in HF. congruence.
Defined.

(** A freshly constructed map of at least one word passes [SelfTest] and
    is handed back empty; the constructor itself refuses a size that is not
    positive. *)
Theorem bitmap_selftest_passes n :
  (n <= 0 -> newBitmap n = Err AssertFailed) /\
  (32 <= n -> exists b b', newBitmap n = Ok b /\ bitmap_wf b /\ set_bits b = ∅ /\
     SelfTest b = Ok b' /\ bitmap_wf b' /\ set_bits b' = ∅).
Proof.
  split; intros Hn.
  - unfold newBitmap. by replace (0 <? n) with false by lia.
  - destruct (newBitmap_ok n) as (b & Hb & Hwf & Hnb & Hu); [lia|].
    destruct (SelfTest_ok b) as (b' & HS & Hwf' & Hnb' & Hu'); [done|lia| |].
    { intros i Hi. apply Hu. lia. }
    exists b, b'. split_and!; [done..| |done|done|];
      apply set_eq; intros i; rewrite elem_of_set_bits; (split; [|set_solver]);
      intros [Hi Ht]; exfalso; [rewrite Hu in Ht|rewrite Hu' in Ht]; (done || lia).
Qed.

Lemma bitmap_selftest_passes_witness :
  exists b b', newBitmap 200 = Ok b /\ SelfTest b = Ok b' /\ set_bits b' = ∅.
Proof.
  destruct (proj2 (bitmap_selftest_passes 200) ltac:(lia)) as (b & b' & ? & _ & _ & ? & _ & ?).
  exists b, b'. auto.
Defined.
