(* ===== verification/Lists.v ===== *)
(** * Linked lists (src/code/lib/list.h, list.cc)

    The list is modelled as the source has it: a heap of [ListElement] cells
    linked by [next] pointers, with the [first] and [last] pointers and the
    counter [numInList].  [new] takes a fresh location, [delete] removes the
    cell, and every dereference of a null or dangling pointer is [Undefined].

    [Spec] gives the abstract operations on functional lists that the rest of
    the kernel relies on; the refinement theorem shows that the pointer code
    computes them, fails exactly when they fail, never touches a cell that is
    not there and leaks none. *)

From S2P Require Import Prelude.
From Stdlib Require Export Sorting.Sorted.

(** ** The pointer implementation *)

Record ListElement (T : Type) := mkElement {
  item : T;
  next : option positive;
}.
Arguments mkElement {T} _ _.
Arguments item {T} _.
Arguments next {T} _.

Record LinkedList (T : Type) := mkList {
  heap : gmap positive (ListElement T);
  first : option positive;
  last : option positive;
  numInList : Z;
}.
Arguments mkList {T} _ _ _ _.
Arguments heap {T} _.
Arguments first {T} _.
Arguments last {T} _.
Arguments numInList {T} _.

Section implementation.
Context {T : Type} `{EqDecision T}.
Implicit Types (l : LinkedList T) (h : gmap positive (ListElement T)) (x : T).

(** [*p] *)
Definition load h (p : option positive) : outcome (ListElement T) :=
  match p with
  | None => Err Undefined
  | Some a =>
      match h !! a with
      | Some e => Ok e
      | None => Err Undefined
      end
  end.

(** [p->next = q] *)
Definition set_next h (p q : option positive) : outcome (gmap positive (ListElement T)) :=
  match p with
  | None => Err Undefined
  | Some a => e ← load h p; Ok (<[a := mkElement (item e) q]> h)
  end.

(** [delete p] *)
Definition free h (p : option positive) : outcome (gmap positive (ListElement T)) :=
  match p with
  | None => Ok h
  | Some a => _ ← load h p; Ok (delete a h)
  end.

(** [new ListElement<T>(x)] *)
Definition alloc h x : gmap positive (ListElement T) * positive :=
  let a := fresh (dom h) in (<[a := mkElement x None]> h, a).

(** [List::List] *)
Definition newList : LinkedList T := mkList ∅ None None 0.

(** [IsEmpty], [NumInList], [Front] of list.h *)
Definition IsEmpty l : bool := numInList l =? 0.
Definition NumInList l : Z := numInList l.
Definition Front l : outcome T := e ← load (heap l) (first l); Ok (item e).

(** A walk along the [next] pointers needs at most one step per cell. *)
Definition walk_fuel l : nat := S (size (heap l)).

(** [List::IsInList] *)
Fixpoint scan (fuel : nat) h (ptr : option positive) x : outcome bool :=
  match ptr with
  | None => Ok false
  | Some _ =>
      match fuel with
      | O => Err OutOfFuel
      | S fuel' =>
          e ← load h ptr;
          if decide (x = item e) then Ok true else scan fuel' h (next e) x
      end
  end.

Definition IsInList l x : outcome bool := scan (walk_fuel l) (heap l) (first l) x.

(** [List::Append] *)
Definition Append l x : outcome (LinkedList T) :=
  let '(h, a) := alloc (heap l) x in
  i ← IsInList l x;
  _ ← ASSERT (negb i);
  l' ← (if IsEmpty l then Ok (mkList h (Some a) (Some a) (numInList l + 1))
        else h' ← set_next h (last l) (Some a);
             Ok (mkList h' (first l) (Some a) (numInList l + 1)));
  i' ← IsInList l' x;
  _ ← ASSERT i';
  Ok l'.

(** [List::Prepend] *)
Definition Prepend l x : outcome (LinkedList T) :=
  let '(h, a) := alloc (heap l) x in
  i ← IsInList l x;
  _ ← ASSERT (negb i);
  l' ← (if IsEmpty l then Ok (mkList h (Some a) (Some a) (numInList l + 1))
        else h' ← set_next h (Some a) (first l);
             Ok (mkList h' (Some a) (last l) (numInList l + 1)));
  i' ← IsInList l' x;
  _ ← ASSERT i';
  Ok l'.

(** [List::RemoveFront] *)
Definition RemoveFront l : outcome (LinkedList T * T) :=
  _ ← ASSERT (negb (IsEmpty l));
  e ← load (heap l) (first l);
  let thing := item e in
  let '(f', la') := if decide (first l = last l) then (None, None) else (next e, last l) in
  h' ← free (heap l) (first l);
  Ok (mkList h' f' la' (numInList l - 1), thing).

(** The search loop of [List::Remove]; [None] when the loop runs off the end. *)
Fixpoint remove_loop (fuel : nat) l (prev ptr : option positive) x
  : outcome (option (LinkedList T)) :=
  match ptr with
  | None => Ok None
  | Some _ =>
      match fuel with
      | O => Err OutOfFuel
      | S fuel' =>
          e ← load (heap l) ptr;
          if decide (x = item e) then
            h1 ← set_next (heap l) prev (next e);
            pe ← load h1 prev;
            let la' := if decide (next pe = None) then prev else last l in
            h2 ← free h1 ptr;
            Ok (Some (mkList h2 (first l) la' (numInList l - 1)))
          else remove_loop fuel' l ptr (next e) x
      end
  end.

(** [List::Remove] *)
Definition Remove l x : outcome (LinkedList T) :=
  i ← IsInList l x;
  _ ← ASSERT i;
  f ← load (heap l) (first l);
  l' ← (if decide (x = item f) then
          '(l', removed) ← RemoveFront l;
          _ ← ASSERT (bool_decide (x = removed));
          Ok l'
        else
          r ← remove_loop (walk_fuel l) l (first l) (next f) x;
          match r with
          | Some l' => Ok l'
          | None => Err AssertFailed
          end);
  i' ← IsInList l' x;
  _ ← ASSERT (negb i');
  Ok l'.

(** [List::Apply] and the [ListIterator] walk: the items visited, in order. *)
Fixpoint visit (fuel : nat) h (ptr : option positive) : outcome (list T) :=
  match ptr with
  | None => Ok []
  | Some _ =>
      match fuel with
      | O => Err OutOfFuel
      | S fuel' =>
          e ← load h ptr;
          rest ← visit fuel' h (next e);
          Ok (item e :: rest)
      end
  end.

Definition Apply {S} (f : S -> T -> S) (s : S) l : outcome S :=
  items ← visit (walk_fuel l) (heap l) (first l);
  Ok (foldl f s items).

(** [List::SanityCheck]: the counting loop runs from [first] to [last]. *)
Fixpoint count_to_last (fuel : nat) l (numFound : Z) (ptr : option positive) : outcome Z :=
  if decide (ptr = last l) then Ok numFound
  else
    match fuel with
    | O => Err OutOfFuel
    | S fuel' =>
        e ← load (heap l) ptr;
        _ ← ASSERT (numFound + 1 <=? numInList l);
        count_to_last fuel' l (numFound + 1) (next e)
    end.

Definition SanityCheck l : outcome unit :=
  if decide (first l = None) then
    ASSERT ((numInList l =? 0) && bool_decide (last l = None))
  else if decide (first l = last l) then
    e ← load (heap l) (last l);
    ASSERT ((numInList l =? 1) && bool_decide (next e = None))
  else
    n ← count_to_last (walk_fuel l) l 1 (first l);
    _ ← ASSERT (n =? numInList l);
    e ← load (heap l) (last l);
    ASSERT (bool_decide (next e = None)).

(** ** [SortedList] *)
Section sorted.
Context (compare : T -> T -> Z).

(** The insertion loop of [SortedList::Insert], [ptr] the current element:
    [inr] when the element was linked in and the method returned from inside
    the loop, [inl] when the loop ran to the end and the element goes last. *)
Fixpoint insert_loop (fuel : nat) l (a ptr : positive) x
  : outcome (LinkedList T + LinkedList T) :=
  match fuel with
  | O => Err OutOfFuel
  | S fuel' =>
      e ← load (heap l) (Some ptr);
      match next e with
      | None =>
          h' ← set_next (heap l) (last l) (Some a);
          Ok (inl (mkList h' (first l) (Some a) (numInList l)))
      | Some n =>
          ne ← load (heap l) (Some n);
          if compare x (item ne) <? 0 then
            h1 ← set_next (heap l) (Some a) (Some n);
            h2 ← set_next h1 (Some ptr) (Some a);
            Ok (inr (mkList h2 (first l) (last l) (numInList l + 1)))
          else insert_loop fuel' l a n x
      end
  end.

(** [SortedList::Insert] *)
Definition Insert l x : outcome (LinkedList T) :=
  let '(h, a) := alloc (heap l) x in
  i ← IsInList l x;
  _ ← ASSERT (negb i);
  r ← (if IsEmpty l then Ok (inl (mkList h (Some a) (Some a) (numInList l)))
       else
         f ← load h (first l);
         if compare x (item f) <? 0 then
           h' ← set_next h (Some a) (first l);
           Ok (inl (mkList h' (Some a) (last l) (numInList l)))
         else
           match first l with
           | None => Err Undefined
           | Some p => insert_loop (walk_fuel l) (mkList h (first l) (last l) (numInList l)) a p x
           end);
  match r with
  | inr l' => Ok l'
  | inl l1 =>
      let l' := mkList (heap l1) (first l1) (last l1) (numInList l1 + 1) in
      i' ← IsInList l' x;
      _ ← ASSERT i';
      Ok l'
  end.

(** The order check of [SortedList::SanityCheck]. *)
Fixpoint check_order (fuel : nat) h (prev ptr : option positive) : outcome unit :=
  match ptr with
  | None => Ok tt
  | Some _ =>
      match fuel with
      | O => Err OutOfFuel
      | S fuel' =>
          pe ← load h prev;
          e ← load h ptr;
          _ ← ASSERT (compare (item pe) (item e) <=? 0);
          check_order fuel' h ptr (next e)
      end
  end.

Definition SortedSanityCheck l : outcome unit :=
  _ ← SanityCheck l;
  if decide (first l = last l) then Ok tt
  else
    e ← load (heap l) (first l);
    check_order (walk_fuel l) (heap l) (first l) (next e).

(** [SortedList::SelfTest] after its call of [List::SelfTest]: insert
    everything, take everything out, check the order. *)
Definition SortedSelfTest_tail l (p : list T) : outcome (LinkedList T) :=
  l ← for_range 0 (Z.of_nat (length p)) (fun i l =>
        x ← arr_get p i; l ← Insert l x; b ← IsInList l x; _ ← ASSERT b; Ok l) l;
  _ ← SortedSanityCheck l;
  '(l, q) ← for_range 0 (Z.of_nat (length p)) (fun i '(l, q) =>
        '(l, x) ← RemoveFront l; b ← IsInList l x; _ ← ASSERT (negb b); Ok (l, q ++ [x])) (l, []);
  _ ← ASSERT (IsEmpty l);
  _ ← for_range 0 (Z.of_nat (length p) - 1) (fun i u =>
        x ← arr_get q i; y ← arr_get q (i + 1); ASSERT (compare x y <=? 0)) tt;
  _ ← SortedSanityCheck l;
  Ok l.
End sorted.

(** [List::SelfTest].  [Append] and [SanityCheck] are virtual: a
    [SortedList] runs this test with its own versions. *)
Definition ListSelfTest (append : LinkedList T -> T -> outcome (LinkedList T))
    (sanity : LinkedList T -> outcome unit) l (p : list T) : outcome (LinkedList T) :=
  _ ← sanity l;
  _ ← ASSERT (IsEmpty l && bool_decide (first l = None));
  _ ← (if decide (first l = None) then Ok tt else Err AssertFailed);
  l ← for_range 0 (Z.of_nat (length p)) (fun i l =>
        x ← arr_get p i; l ← append l x; b ← IsInList l x; _ ← ASSERT b;
        _ ← ASSERT (negb (IsEmpty l)); Ok l) l;
  _ ← sanity l;
  l ← for_range 0 (Z.of_nat (length p)) (fun i l =>
        x ← arr_get p i; l ← Remove l x; b ← IsInList l x; _ ← ASSERT (negb b); Ok l) l;
  _ ← ASSERT (IsEmpty l);
  _ ← sanity l;
  Ok l.

(** [SortedList::SelfTest] *)
Definition SortedSelfTest (compare : T -> T -> Z) l (p : list T) : outcome (LinkedList T) :=
  l ← ListSelfTest (Insert compare) (SortedSanityCheck compare) l p;
  SortedSelfTest_tail compare l p.
End implementation.

(** ** Abstract specification *)
Module Spec.
Section spec.
Context {T : Type} `{EqDecision T}.
Implicit Types (xs : list T) (x : T).

Definition append xs x : outcome (list T) :=
  _ ← ASSERT (bool_decide (x ∉ xs)); Ok (xs ++ [x]).

Definition prepend xs x : outcome (list T) :=
  _ ← ASSERT (bool_decide (x ∉ xs)); Ok (x :: xs).

Definition removeFront xs : outcome (list T * T) :=
  match xs with
  | [] => Err AssertFailed
  | x :: xs' => Ok (xs', x)
  end.

Definition remove xs x : outcome (list T) :=
  _ ← ASSERT (bool_decide (x ∈ xs)); Ok (filter (fun y => y <> x) xs).

(** Insertion before the first element that compares greater. *)
Fixpoint place (compare : T -> T -> Z) xs x : list T :=
  match xs with
  | [] => [x]
  | y :: xs' => if compare x y <? 0 then x :: y :: xs' else y :: place compare xs' x
  end.

Definition insert (compare : T -> T -> Z) xs x : outcome (list T) :=
  _ ← ASSERT (bool_decide (x ∉ xs)); Ok (place compare xs x).
End spec.
End Spec.

(** What the sorting callers of [SortedList] promise about [compare]. *)
Class Comparator {T} (compare : T -> T -> Z) : Prop := {
  compare_flip x y : 0 <= compare x y -> compare y x <= 0;
  compare_strict x y : compare x y < 0 -> 0 < compare y x;
  compare_trans x y z : compare x y <= 0 -> compare y z <= 0 -> compare x z <= 0;
}.

Definition cmp_le {T} (compare : T -> T -> Z) (x y : T) : Prop := compare x y <= 0.

(** ** Representation invariant *)

(** [lseg h p cells q]: following [next] from [p] passes through [cells]
    (locations and items) and arrives at [q]. *)
Fixpoint lseg {T} (h : gmap positive (ListElement T)) (p : option positive)
    (cells : list (positive * T)) (q : option positive) : Prop :=
  match cells with
  | [] => p = q
  | (a, x) :: cells' =>
      p = Some a /\ exists n, h !! a = Some (mkElement x n) /\ lseg h n cells' q
  end.

Record list_cells {T} (l : LinkedList T) (cells : list (positive * T)) : Prop := {
  lc_nodup : NoDup cells.*1;
  lc_dom : dom (heap l) = list_to_set cells.*1;
  lc_seg : lseg (heap l) (first l) cells None;
  lc_last : last l = list.last cells.*1;
  lc_num : numInList l = Z.of_nat (length cells);
}.

(** [list_rep l xs]: the pointer structure [l] represents [xs]. *)
Definition list_rep {T} (l : LinkedList T) (xs : list T) : Prop :=
  exists cells, list_cells l cells /\ cells.*2 = xs.

(** ** Segments *)
Section segments.
Context {T : Type} `{EqDecision T}.
Implicit Types (h : gmap positive (ListElement T)) (cells : list (positive * T)).

Lemma lseg_app h p c1 c2 q :
  lseg h p (c1 ++ c2) q <-> exists m, lseg h p c1 m /\ lseg h m c2 q.
Proof.
  revert p. induction c1 as [|[a x] c1 IH]; intros p; simpl.
  - split; [eauto|]. by intros (m & -> & ?).
  - setoid_rewrite IH. split.
    + intros (-> & n & ? & m & ? & ?). exists m. eauto.
    + intros (m & (-> & n & ? & ?) & ?). eauto 10.
Qed.

Lemma lseg_ext h h' p cells q :
  (forall a, a ∈ cells.*1 -> h !! a = h' !! a) -> lseg h p cells q -> lseg h' p cells q.
Proof.
  revert p. induction cells as [|[a x] cells IH]; intros p Heq; simpl; [done|].
  intros (-> & n & Hn & Hseg). split; [done|]. exists n. rewrite <- Heq by (simpl; left).
  split; [done|]. apply IH; [|done]. intros b Hb. apply Heq. simpl. by right.
Qed.

Lemma lseg_insert h p cells q a e :
  a ∉ cells.*1 -> lseg h p cells q -> lseg (<[a := e]> h) p cells q.
Proof. intros Ha. apply lseg_ext. intros b Hb. rewrite lookup_insert_ne; [done|]. by intros ->. Qed.

Lemma lseg_delete h p cells q a :
  a ∉ cells.*1 -> lseg h p cells q -> lseg (delete a h) p cells q.
Proof. intros Ha. apply lseg_ext. intros b Hb. rewrite lookup_delete_ne; [done|]. by intros ->. Qed.

Lemma scan_ok h p cells fuel x :
  lseg h p cells None -> (length cells <= fuel)%nat ->
  scan fuel h p x = Ok (bool_decide (x ∈ cells.*2)).
Proof.
  revert p fuel. induction cells as [|[a y] cells IH]; intros p fuel; cbn [lseg fmap list_fmap].
  { intros -> _. rewrite bool_decide_eq_false_2 by apply not_elem_of_nil.
    by destruct fuel. }
  intros (-> & n & Hn & Hseg) Hf. destruct fuel as [|fuel]; [simpl in Hf; lia|].
  cbn [scan load]. rewrite Hn. cbn [mbind outcome_bind item next]. destruct (decide (x = y)) as [->|Hx].
  - by rewrite bool_decide_eq_true_2 by left.
  - rewrite (IH n fuel) by (done || (simpl in Hf; lia)). f_equal. apply bool_decide_ext.
    rewrite elem_of_cons. split; [by right|by intros [?|?]].
Qed.

Lemma visit_ok h p cells fuel :
  lseg h p cells None -> (length cells <= fuel)%nat -> visit fuel h p = Ok cells.*2.
Proof.
  revert p fuel. induction cells as [|[a y] cells IH]; intros p fuel; simpl.
  { intros -> _. by destruct fuel. }
  intros (-> & n & Hn & Hseg) Hf. destruct fuel as [|fuel]; [simpl in Hf; lia|]. simpl.
  rewrite Hn. cbn [mbind outcome_bind item next]. by rewrite (IH n fuel) by (done || lia).
Qed.

End segments.

Section cells.
Context {T : Type} `{EqDecision T}.
Implicit Types (l : LinkedList T) (cells : list (positive * T)).

Lemma cells_size l cells : list_cells l cells -> size (heap l) = length cells.
Proof.
  intros [Hnd Hdom _ _ _]. rewrite <- size_dom, Hdom, size_list_to_set by done.
  by rewrite length_fmap.
Qed.

Lemma cells_in l cells a : list_cells l cells -> a ∈ cells.*1 <-> is_Some (heap l !! a).
Proof.
  intros [_ Hdom _ _ _]. by rewrite <- elem_of_dom, Hdom, elem_of_list_to_set.
Qed.

Lemma cells_fresh l cells :
  list_cells l cells -> fresh (dom (heap l)) ∉ cells.*1.
Proof.
  intros [_ Hdom _ _ _] Hin. apply (is_fresh (dom (heap l))).
  rewrite Hdom at 2. by apply elem_of_list_to_set.
Qed.

Lemma IsInList_ok l cells x :
  list_cells l cells -> IsInList l x = Ok (bool_decide (x ∈ cells.*2)).
Proof.
  intros Hc. apply scan_ok; [apply Hc|]. unfold walk_fuel. rewrite (cells_size l cells Hc). lia.
Qed.

Lemma IsEmpty_ok l cells : list_cells l cells -> IsEmpty l = bool_decide (cells = []).
Proof.
  intros [_ _ _ _ Hn]. unfold IsEmpty. rewrite Hn. by destruct cells.
Qed.

(** Assembling a representation after the cells at [c1 ++ c2] were relinked. *)
Lemma cells_cons h a x cells la f n m :
  lseg h f cells None -> h !! a = Some (mkElement x f) -> a ∉ cells.*1 -> NoDup cells.*1 ->
  dom h = {[a]} ∪ list_to_set cells.*1 -> la = list.last (a :: cells.*1) ->
  n = Z.of_nat (S (length cells)) -> m = Some a ->
  list_cells (mkList h m la n) ((a, x) :: cells).
Proof.
  intros Hseg Ha Hnin Hnd Hdom -> -> ->. split; simpl; [by constructor|done|eauto|done|done].
Qed.

Lemma newList_ok : list_cells (@newList T) [].
Proof. split; simpl; [constructor|set_solver|done|done|done]. Qed.

Lemma last_snoc_cells (c : list (positive * T)) a x :
  list.last (c ++ [(a, x)]).*1 = Some a.
Proof. by rewrite fmap_app, last_app. Qed.

(** The heap after [alloc] holds the old cells and the new one. *)
Lemma lookup_alloc_ne l cells a e :
  list_cells l cells -> a ∈ cells.*1 ->
  <[fresh (dom (heap l)) := e]> (heap l) !! a = heap l !! a.
Proof.
  intros Hc Ha. apply lookup_insert_ne. intros <-. by eapply (cells_fresh l cells).
Qed.

Lemma lookup_middle (h : gmap positive (ListElement T)) p c1 a x c2 q :
  lseg h p (c1 ++ (a, x) :: c2) q -> exists n, h !! a = Some (mkElement x n) /\ lseg h n c2 q.
Proof. intros (m & _ & -> & n & ?)%lseg_app. eauto. Qed.

(** Writing the [next] field of a middle cell cuts the segment there. *)
Lemma lseg_relink (h : gmap positive (ListElement T)) p c1 a x c2 n q :
  lseg h p (c1 ++ (a, x) :: c2) q -> NoDup (c1 ++ (a, x) :: c2).*1 ->
  lseg (<[a := mkElement x n]> h) p (c1 ++ [(a, x)]) n.
Proof.
  intros (m & H1 & -> & _)%lseg_app Hnd. rewrite fmap_app in Hnd. simpl in Hnd.
  apply NoDup_app in Hnd as (_ & Hdisj & _). apply lseg_app. exists (Some a). split.
  - apply lseg_insert; [|done]. intros Hin. apply (Hdisj a Hin). left.
  - simpl. split; [done|]. exists n. by rewrite lookup_insert_eq.
Qed.

End cells.

(** ** Operation lemmas *)
Section operations.
Context {T : Type} `{EqDecision T}.
Implicit Types (l : LinkedList T) (cells : list (positive * T)) (x : T).

(** The final [ASSERT(IsInList(item))] of the insertion methods. *)
Lemma check_inserted l cells x :
  list_cells l cells -> x ∈ cells.*2 ->
  (i' ← IsInList l x; _ ← ASSERT i'; Ok l) = Ok l.
Proof.
  intros Hc Hx. rewrite (IsInList_ok l cells x Hc). cbn [mbind outcome_bind].
  by rewrite bool_decide_eq_true_2.
Qed.

(** Linking a fresh cell after the last one. *)
Lemma link_last l cells x :
  list_cells l cells -> cells <> [] ->
  exists h', set_next (<[fresh (dom (heap l)) := mkElement x None]> (heap l)) (last l)
               (Some (fresh (dom (heap l)))) = Ok h' /\
    list_cells (mkList h' (first l) (Some (fresh (dom (heap l)))) (numInList l + 1))
      (cells ++ [(fresh (dom (heap l)), x)]).
Proof.
  intros Hc Hne. pose proof (cells_fresh l cells Hc) as Hfr.
  set (a := fresh (dom (heap l))) in *. destruct Hc as [Hnd Hdom Hseg Hla Hnum].
  destruct (exists_last Hne) as (c & [z y] & ->).
  rewrite last_snoc_cells in Hla. rewrite Hla.
  destruct (lookup_middle _ _ _ _ _ _ _ Hseg) as (n & Hz & Hn). simpl in Hn. subst n.
  assert (a <> z) as Haz.
  { intros ->. apply Hfr. rewrite fmap_app. set_solver. }
  cbn [set_next load]. rewrite lookup_insert_ne, Hz by done. cbn [mbind outcome_bind item].
  eexists. split; [done|]. split; simpl.
  - rewrite fmap_app. apply NoDup_app. split; [done|]. split; [|apply NoDup_singleton].
    intros b Hb. simpl. rewrite list_elem_of_singleton. by intros ->.
  - rewrite !dom_insert_L, Hdom. rewrite !fmap_app, !list_to_set_app_L. simpl. set_solver.
  - apply lseg_app. exists (Some a). split.
    + eapply lseg_relink; [|done]. by apply lseg_insert.
    + simpl. split; [done|]. exists None. split; [|done].
      by rewrite lookup_insert_ne, lookup_insert_eq.
  - by rewrite last_snoc_cells.
  - rewrite Hnum, !length_app. simpl. lia.
Qed.

(** Linking a fresh cell before the first one (also for the empty list). *)
Lemma link_first l cells x :
  list_cells l cells ->
  list_cells (mkList (<[fresh (dom (heap l)) := mkElement x (first l)]> (heap l))
      (Some (fresh (dom (heap l))))
      (match cells with [] => Some (fresh (dom (heap l))) | _ => last l end) (numInList l + 1))
    ((fresh (dom (heap l)), x) :: cells).
Proof.
  intros Hc. pose proof (cells_fresh l cells Hc) as Hfr.
  set (a := fresh (dom (heap l))) in *. destruct Hc as [Hnd Hdom Hseg Hla Hnum].
  apply (cells_cons _ _ _ _ _ (first l)); [by apply lseg_insert|by rewrite lookup_insert_eq|done..| | |lia|done].
  - by rewrite dom_insert_L, Hdom.
  - destruct cells as [|[b y] cells]; [done|]. by rewrite Hla.
Qed.

Lemma first_empty l cells : list_cells l cells -> cells = [] -> first l = None.
Proof. intros Hc ->. exact (lc_seg _ _ Hc). Qed.

Lemma Append_ok l cells x :
  list_cells l cells -> x ∉ cells.*2 ->
  exists l' a, Append l x = Ok l' /\ list_cells l' (cells ++ [(a, x)]).
Proof.
  intros Hc Hx. unfold Append, alloc. rewrite (IsInList_ok l cells x Hc).
  cbn [mbind outcome_bind]. rewrite bool_decide_eq_false_2 by done. cbn [negb ASSERT mbind outcome_bind].
  rewrite (IsEmpty_ok l cells Hc). destruct (decide (cells = [])) as [->|Hne].
  - rewrite bool_decide_eq_true_2 by done. cbn [mbind outcome_bind].
    pose proof (link_first l [] x Hc) as Hl. rewrite (first_empty l [] Hc eq_refl) in Hl.
    eexists _, _. split; [|exact Hl]. apply (check_inserted _ _ x Hl). left.
  - rewrite bool_decide_eq_false_2 by done. destruct (link_last l cells x Hc Hne) as (h' & -> & Hl).
    cbn [mbind outcome_bind]. eexists _, _. split; [|exact Hl].
    apply (check_inserted _ _ x Hl). rewrite fmap_app. set_solver.
Qed.

Lemma Prepend_ok l cells x :
  list_cells l cells -> x ∉ cells.*2 ->
  exists l' a, Prepend l x = Ok l' /\ list_cells l' ((a, x) :: cells).
Proof.
  intros Hc Hx. unfold Prepend, alloc. rewrite (IsInList_ok l cells x Hc).
  cbn [mbind outcome_bind]. rewrite bool_decide_eq_false_2 by done. cbn [negb ASSERT mbind outcome_bind].
  rewrite (IsEmpty_ok l cells Hc). pose proof (link_first l cells x Hc) as Hl.
  destruct cells as [|c cells].
  - rewrite bool_decide_eq_true_2 by done. cbn [mbind outcome_bind].
    rewrite (first_empty l [] Hc eq_refl) in Hl.
    eexists _, _. split; [|exact Hl]. apply (check_inserted _ _ x Hl). left.
  - rewrite bool_decide_eq_false_2 by done. cbn [set_next load].
    rewrite lookup_insert_eq. cbn [mbind outcome_bind item]. rewrite insert_insert_eq.
    eexists _, _. split; [|exact Hl]. apply (check_inserted _ _ x Hl). left.
Qed.

Lemma RemoveFront_ok l a x cells :
  list_cells l ((a, x) :: cells) ->
  exists l', RemoveFront l = Ok (l', x) /\ list_cells l' cells.
Proof.
  intros Hc. pose proof (IsEmpty_ok l _ Hc) as He. destruct Hc as [Hnd Hdom Hseg Hla Hnum].
  unfold RemoveFront. rewrite He, bool_decide_eq_false_2 by done. cbn [negb ASSERT mbind outcome_bind].
  destruct Hseg as (Hf & n & Hn & Hseg). rewrite Hf. cbn [load]. rewrite Hn.
  cbn [mbind outcome_bind item next free load]. rewrite fmap_cons in Hnd. simpl in Hnum.
  apply NoDup_cons in Hnd as [Ha Hnd].
  assert (dom (delete a (heap l)) = list_to_set cells.*1) as Hdom'.
  { rewrite dom_delete_L, Hdom. simpl.
    rewrite difference_union_distr_l_L, difference_diag_L, union_empty_l_L.
    apply difference_disjoint_L. set_unfold. naive_solver. }
  destruct (decide (Some a = last l)) as [Hal|Hal].
  - rewrite Hn. cbn [mbind outcome_bind]. eexists. split; [done|].
    destruct cells as [|[b y] cells].
    + split; simpl; [done|done|done|done|simpl in Hnum; lia].
    + exfalso. apply Ha. rewrite Hla in Hal. symmetry in Hal.
      exact (last_Some_elem_of (b :: cells.*1) a Hal).
  - rewrite Hn. cbn [mbind outcome_bind]. eexists. split; [done|].
    split; simpl; [done|done|by apply lseg_delete| |lia].
    destruct cells as [|[b y] cells]; [by destruct Hal|]. by rewrite Hla.
Qed.
End operations.

Section removal.
Context {T : Type} `{EqDecision T}.
Implicit Types (l : LinkedList T) (c d : list (positive * T)) (x : T).

(** Unlinking the cell [a] that follows [pv]. *)
Lemma unlink_ok l c pv y a x d n m :
  list_cells l (c ++ (pv, y) :: (a, x) :: d) ->
  heap l !! pv = Some (mkElement y m) -> heap l !! a = Some (mkElement x n) ->
  list_cells (mkList (delete a (<[pv := mkElement y n]> (heap l))) (first l)
    (if decide (n = None) then Some pv else last l) (numInList l - 1)) (c ++ (pv, y) :: d).
Proof.
  intros [Hnd Hdom Hseg Hla Hnum] Hpv Ha.
  assert (lseg (heap l) n d None) as Hd.
  { replace (c ++ (pv, y) :: (a, x) :: d) with ((c ++ [(pv, y)]) ++ (a, x) :: d) in Hseg
      by by rewrite <- app_assoc.
    apply lookup_middle in Hseg as (n' & Ha' & Hd). by simplify_eq. }
  pose proof (lseg_relink _ _ _ _ _ _ n _ Hseg Hnd) as Hre.
  rewrite fmap_app, !fmap_cons in Hnd. cbn [fst] in Hnd.
  pose proof Hnd as (Hndc & Hdis & Hnd2)%NoDup_app.
  pose proof Hnd2 as [Hpvn [Han Hndd]%NoDup_cons]%NoDup_cons.
  assert (a ∉ c.*1) as Hac by (intros Hin; apply (Hdis a Hin); set_solver).
  assert (pv ∉ c.*1) as Hpc by (intros Hin; apply (Hdis pv Hin); set_solver).
  assert (pv <> a /\ pv ∉ d.*1) as [Hpa Hpd] by set_solver.
  split; cbn [heap first last numInList].
  - rewrite fmap_app, fmap_cons. cbn [fst]. apply NoDup_app. split; [done|]. split.
    + intros b Hb. rewrite elem_of_cons. intros [->|Hbd]; [done|]. apply (Hdis b Hb). set_solver.
    + by constructor.
  - rewrite dom_delete_L, dom_insert_L, Hdom.
    rewrite !fmap_app, !fmap_cons, !list_to_set_app_L, !list_to_set_cons. cbn [fst].
    apply set_eq. intros b. rewrite !elem_of_difference, !elem_of_union, !elem_of_singleton,
      !elem_of_list_to_set. destruct (decide (b = a)) as [->|]; naive_solver.
  - replace (c ++ (pv, y) :: d) with ((c ++ [(pv, y)]) ++ d) by by rewrite <- app_assoc.
    apply lseg_app. exists n. split.
    + apply lseg_delete; [|done]. rewrite fmap_app. set_solver.
    + apply lseg_delete; [done|]. by apply lseg_insert.
  - rewrite Hla, !fmap_app, !fmap_cons, !last_app. cbn [fst]. destruct d as [|[b z] d].
    + simpl in Hd. subst n. by rewrite decide_True.
    + destruct Hd as (-> & _). rewrite decide_False by done. simpl. done.
  - rewrite Hnum, !length_app. cbn [length]. lia.
Qed.

Lemma remove_loop_ok l c pv y d1 a x d2 n fuel :
  list_cells l (c ++ (pv, y) :: d1 ++ (a, x) :: d2) -> x ∉ d1.*2 ->
  heap l !! pv = Some (mkElement y n) -> (length d1 < fuel)%nat ->
  exists l', remove_loop fuel l (Some pv) n x = Ok (Some l') /\
    list_cells l' (c ++ (pv, y) :: d1 ++ d2).
Proof.
  revert c pv y n fuel. induction d1 as [|[b z] d1 IH]; intros c pv y n fuel Hc Hx Hpv Hf.
  - destruct fuel as [|fuel]; [simpl in Hf; lia|]. cbn [app] in Hc |- *.
    destruct (lookup_middle _ _ _ _ _ _ _ (lc_seg _ _ Hc)) as (n' & Hpv' & -> & na & Ha & _).
    simplify_eq. pose proof (unlink_ok l c pv y a x d2 na (Some a) Hc Hpv Ha) as Hl.
    assert (pv <> a) as Hpa.
    { intros ->. destruct Hc as [Hnd _ _ _ _]. rewrite fmap_app in Hnd.
      apply NoDup_app in Hnd as (_ & _ & [Hnin _]%NoDup_cons). simpl in Hnin. set_solver. }
    cbn [remove_loop load set_next]. rewrite Ha. cbn [mbind outcome_bind item next].
    rewrite decide_True by done. rewrite Hpv. cbn [mbind outcome_bind item].
    rewrite lookup_insert_eq. cbn [mbind outcome_bind next free load].
    rewrite lookup_insert_ne, Ha by done. cbn [mbind outcome_bind]. eauto.
  - destruct fuel as [|fuel]; [simpl in Hf; lia|]. rewrite fmap_cons in Hx. cbn [snd] in Hx.
    destruct (lookup_middle _ _ _ _ _ _ _ (lc_seg _ _ Hc)) as (n' & Hpv' & -> & nb & Hb & _).
    simplify_eq. cbn [remove_loop load]. rewrite Hb. cbn [mbind outcome_bind item next].
    rewrite decide_False by set_solver.
    destruct (IH (c ++ [(pv, y)]) b z nb fuel) as (l' & Heq & Hl');
      [by rewrite <- app_assoc|set_solver|done|simpl in Hf; lia|].
    exists l'. split; [done|]. by rewrite <- app_assoc in Hl'.
Qed.

Lemma Remove_ok l d1 a x d2 :
  list_cells l (d1 ++ (a, x) :: d2) -> x ∉ d1.*2 -> x ∉ d2.*2 ->
  exists l', Remove l x = Ok l' /\ list_cells l' (d1 ++ d2).
Proof.
  intros Hc Hx1 Hx2. unfold Remove. rewrite (IsInList_ok l _ x Hc). cbn [mbind outcome_bind].
  rewrite bool_decide_eq_true_2 by (rewrite fmap_app; set_solver). cbn [ASSERT mbind outcome_bind].
  assert (forall l', list_cells l' (d1 ++ d2) ->
    (i' ← IsInList l' x; _ ← ASSERT (negb i'); Ok l') = Ok l') as Hpost.
  { intros l' Hl'. rewrite (IsInList_ok l' _ x Hl'). cbn [mbind outcome_bind].
    by rewrite bool_decide_eq_false_2 by (rewrite fmap_app; set_solver). }
  destruct d1 as [|[b z] d1].
  - destruct (RemoveFront_ok l a x d2 Hc) as (l' & Hl & Hl'). pose proof (lc_seg _ _ Hc) as Hseg.
    destruct Hseg as (-> & n & Ha & _). cbn [load]. rewrite Ha. cbn [mbind outcome_bind item].
    rewrite decide_True by done. rewrite Hl. cbn [mbind outcome_bind].
    rewrite bool_decide_eq_true_2 by done. cbn [ASSERT mbind outcome_bind]. eauto.
  - pose proof (lc_seg _ _ Hc) as Hseg. destruct Hseg as (Hf & n & Hb & Hseg).
    assert (x <> z /\ x ∉ d1.*2) as [Hxz Hx1'] by (rewrite fmap_cons in Hx1; set_solver).
    destruct (remove_loop_ok l [] b z d1 a x d2 n (walk_fuel l)) as (l' & Hl & Hl'); [done..| |].
    { unfold walk_fuel. rewrite (cells_size _ _ Hc). simpl. rewrite length_app. simpl. lia. }
    rewrite Hf. cbn [load]. rewrite Hb. cbn [mbind outcome_bind item next].
    rewrite decide_False by done. rewrite Hl. cbn [mbind outcome_bind].
    exists l'. split; [by apply Hpost|done].
Qed.
End removal.

Section insertion.
Context {T : Type} `{EqDecision T} (compare : T -> T -> Z).
Implicit Types (l : LinkedList T) (c d : list (positive * T)) (x : T).

(** Linking a fresh cell between [p] and its successor [n]. *)
Lemma link_middle l c p y d x n :
  list_cells l (c ++ (p, y) :: d) -> d <> [] -> heap l !! p = Some (mkElement y n) ->
  let a := fresh (dom (heap l)) in
  list_cells (mkList (<[p := mkElement y (Some a)]> (<[a := mkElement x n]> (heap l)))
    (first l) (last l) (numInList l + 1)) (c ++ (p, y) :: (a, x) :: d).
Proof.
  intros Hc Hd Hp a. pose proof (cells_fresh l _ Hc) as Hfr. fold a in Hfr.
  destruct Hc as [Hnd Hdom Hseg Hla Hnum].
  destruct (lookup_middle _ _ _ _ _ _ _ Hseg) as (n' & Hp' & Hsd). simplify_eq.
  rewrite fmap_app, fmap_cons in Hnd, Hfr. cbn [fst] in Hnd, Hfr.
  pose proof Hnd as (Hndc & Hdis & [Hpd Hndd]%NoDup_cons)%NoDup_app.
  assert (a <> p /\ a ∉ c.*1 /\ a ∉ d.*1) as (Hap & Hac & Had) by set_solver.
  split; cbn [heap first last numInList].
  - rewrite fmap_app, !fmap_cons. cbn [fst]. apply NoDup_app. split; [done|]. split.
    + intros b Hb. rewrite !elem_of_cons. intros [->|[->|Hbd]]; [|done|];
        apply (Hdis _ Hb); set_solver.
    + constructor; [set_solver|]. by constructor.
  - rewrite !dom_insert_L, Hdom, !fmap_app, !fmap_cons, !list_to_set_app_L, !list_to_set_cons.
    cbn [fst]. set_solver.
  - replace (c ++ (p, y) :: (a, x) :: d) with ((c ++ [(p, y)]) ++ (a, x) :: d)
      by by rewrite <- app_assoc.
    apply lseg_app. exists (Some a). split.
    + eapply lseg_relink; [apply lseg_insert; [|done]|]; rewrite fmap_app, fmap_cons; done.
    + split; [done|]. exists n. rewrite lookup_insert_ne, lookup_insert_eq by done.
      split; [done|]. apply lseg_insert; [done|]. by apply lseg_insert.
  - rewrite Hla, !fmap_app, !last_app, !fmap_cons. destruct d as [|[b z] d]; [done|].
    rewrite fmap_cons. simpl. done.
  - rewrite Hnum, !length_app. cbn [length]. lia.
Qed.

Lemma insert_loop_ok l c p y d x fuel :
  list_cells l (c ++ (p, y) :: d) -> (length d < fuel)%nat ->
  let a := fresh (dom (heap l)) in
  exists r d', insert_loop compare fuel
      (mkList (<[a := mkElement x None]> (heap l)) (first l) (last l) (numInList l)) a p x = Ok r /\
    d'.*2 = Spec.place compare d.*2 x /\
    match r with
    | inr l' => list_cells l' (c ++ (p, y) :: d')
    | inl l1 => list_cells (mkList (heap l1) (first l1) (last l1) (numInList l1 + 1))
                  (c ++ (p, y) :: d')
    end.
Proof.
  revert c p y fuel. induction d as [|[b z] d IH]; intros c p y fuel Hc Hf a;
    (destruct fuel as [|fuel]; [simpl in Hf; lia|]);
    destruct (lookup_middle _ _ _ _ _ _ _ (lc_seg _ _ Hc)) as (n & Hp & Hsd);
    (assert (a <> p) as Hap by (intros <-; apply (cells_fresh l _ Hc); rewrite fmap_app; set_solver));
    cbn [insert_loop load heap]; rewrite lookup_insert_ne, Hp by done; cbn [mbind outcome_bind next].
  - simpl in Hsd. subst n. cbn [last].
    destruct (link_last l (c ++ [(p, y)]) x Hc) as (h' & Hs & Hl); [by destruct c|].
    fold a in Hs, Hl |- *. rewrite Hs. cbn [mbind outcome_bind first numInList].
    eexists _, [(a, x)]. split; [done|]. split; [done|].
    cbn [heap first last numInList]. by rewrite <- app_assoc in Hl.
  - destruct Hsd as (-> & nb & Hb & Hsd).
    assert (a <> b) as Hab.
    { intros <-. apply (cells_fresh l _ Hc). rewrite fmap_app, !fmap_cons. set_solver. }
    rewrite lookup_insert_ne, Hb by done. cbn [mbind outcome_bind item].
    rewrite fmap_cons. cbn [snd Spec.place]. destruct (compare x z <? 0).
    + cbn [set_next load]. rewrite lookup_insert_eq. cbn [mbind outcome_bind item].
      rewrite insert_insert_eq, lookup_insert_ne, Hp by done. cbn [mbind outcome_bind item].
      eexists _, ((a, x) :: (b, z) :: d). split; [done|]. split; [done|].
      exact (link_middle l c p y ((b, z) :: d) x (Some b) Hc ltac:(done) Hp).
    + destruct (IH (c ++ [(p, y)]) b z fuel) as (r & d' & Hr & Hd' & Hl);
        [by rewrite <- app_assoc|simpl in Hf; lia|].
      exists r, ((b, z) :: d'). split; [done|]. rewrite fmap_cons, Hd'. split; [done|].
      destruct r; by rewrite <- app_assoc in Hl.
Qed.

Lemma elem_of_place (xs : list T) x z : z ∈ Spec.place compare xs x <-> z = x \/ z ∈ xs.
Proof.
  induction xs as [|y xs IH]; simpl; [set_solver|].
  destruct (compare x y <? 0); rewrite !elem_of_cons, ?IH; tauto.
Qed.

Lemma Insert_ok l cells x :
  list_cells l cells -> x ∉ cells.*2 ->
  exists l' cells', Insert compare l x = Ok l' /\ list_cells l' cells' /\
    cells'.*2 = Spec.place compare cells.*2 x.
Proof.
  intros Hc Hx. unfold Insert, alloc. rewrite (IsInList_ok l cells x Hc).
  cbn [mbind outcome_bind]. rewrite bool_decide_eq_false_2 by done. cbn [negb ASSERT mbind outcome_bind].
  rewrite (IsEmpty_ok l cells Hc). pose proof (link_first l cells x Hc) as Hfirst.
  pose proof (cells_fresh l _ Hc) as Hfr. set (a := fresh (dom (heap l))) in *.
  destruct cells as [|[p y] cells].
  - rewrite bool_decide_eq_true_2 by done. cbn [mbind outcome_bind heap first last numInList].
    rewrite (first_empty l [] Hc eq_refl) in Hfirst.
    eexists _, _. split; [apply (check_inserted _ _ x Hfirst); left|]. done.
  - rewrite bool_decide_eq_false_2 by done. pose proof (lc_seg _ _ Hc) as (Hf & n & Hp & _).
    assert (a <> p) as Hap by (rewrite fmap_cons in Hfr; set_solver).
    rewrite Hf. cbn [load]. rewrite lookup_insert_ne, Hp by done. cbn [mbind outcome_bind item].
    rewrite fmap_cons. cbn [snd Spec.place]. destruct (compare x y <? 0).
    + cbn [set_next load]. rewrite lookup_insert_eq. cbn [mbind outcome_bind item heap first last numInList].
      rewrite insert_insert_eq. rewrite Hf in Hfirst.
      eexists _, _. split; [apply (check_inserted _ _ x Hfirst); left|]. done.
    + destruct (insert_loop_ok l [] p y cells x (walk_fuel l)) as (r & d' & Hr & Hd' & Hl); [done| |].
      { unfold walk_fuel. rewrite (cells_size _ _ Hc). simpl. lia. }
      fold a in Hr. rewrite Hf in Hr. rewrite Hr. cbn [mbind outcome_bind]. cbn [app] in Hl.
      destruct r as [l1|l'].
      * eexists _, _. split; [apply (check_inserted _ _ x Hl)|].
        { rewrite fmap_cons, Hd'. cbn [snd]. rewrite elem_of_cons, elem_of_place. auto. }
        split; [done|]. by rewrite fmap_cons, Hd'.
      * eexists _, _. split; [done|]. split; [done|]. by rewrite fmap_cons, Hd'.
Qed.
End insertion.

(** ** Consistency checks *)
Section sanity.
Context {T : Type} `{EqDecision T}.
Implicit Types (l : LinkedList T) (c d : list (positive * T)) (x : T).

Lemma last_not_middle l c p y d :
  list_cells l (c ++ (p, y) :: d) -> last l = Some p <-> d = [].
Proof.
  intros [Hnd _ _ Hla _]. rewrite Hla, fmap_app, fmap_cons, last_app. cbn [fst].
  rewrite fmap_app, fmap_cons in Hnd. apply NoDup_app in Hnd as (_ & _ & [Hp _]%NoDup_cons).
  destruct d as [|[b z] d]; [done|]. split; [|done]. intros Hl. exfalso. apply Hp.
  change (list.last (p :: ((b, z) :: d).*1)) with (list.last (b :: d.*1)) in Hl.
  rewrite fmap_cons. cbn [fst]. apply last_Some_elem_of.
  destruct (list.last (b :: d.*1)) eqn:E; [done|]. by apply last_None in E.
Qed.

Lemma count_to_last_ok l c p y d fuel :
  list_cells l (c ++ (p, y) :: d) -> (length d < fuel)%nat ->
  count_to_last fuel l (Z.of_nat (length c) + 1) (Some p) = Ok (numInList l).
Proof.
  revert c p y fuel. induction d as [|[b z] d IH]; intros c p y fuel Hc Hf;
    (destruct fuel as [|fuel]; [simpl in Hf; lia|]); cbn [count_to_last].
  - rewrite decide_True by (symmetry; by apply (last_not_middle l c p y [])).
    f_equal. rewrite (lc_num _ _ Hc), length_app. simpl. lia.
  - rewrite decide_False.
    2: { intros Hl. symmetry in Hl. by apply (last_not_middle l c p y ((b, z) :: d)) in Hl. }
    destruct (lookup_middle _ _ _ _ _ _ _ (lc_seg _ _ Hc)) as (n & Hp & -> & _).
    cbn [load]. rewrite Hp. cbn [mbind outcome_bind next].
    pose proof (lc_num _ _ Hc) as Hn. rewrite length_app in Hn. simpl in Hn.
    replace (_ <=? numInList l) with true by lia. cbn [ASSERT mbind outcome_bind].
    pose proof (IH (c ++ [(p, y)]) b z fuel) as IH'. rewrite length_app in IH'. simpl in IH'.
    replace (Z.of_nat (length c + 1) + 1) with (Z.of_nat (length c) + 1 + 1) in IH' by lia.
    apply IH'; [by rewrite <- app_assoc|simpl in Hf; lia].
Qed.

Lemma load_last l c p y :
  list_cells l (c ++ [(p, y)]) -> load (heap l) (last l) = Ok (mkElement y None).
Proof.
  intros Hc. rewrite (proj2 (last_not_middle l c p y [] Hc) eq_refl).
  destruct (lookup_middle _ _ _ _ _ _ _ (lc_seg _ _ Hc)) as (n & Hp & Hn). simpl in Hn. subst n.
  cbn [load]. by rewrite Hp.
Qed.

Lemma SanityCheck_ok l cells : list_cells l cells -> SanityCheck l = Ok tt.
Proof.
  intros Hc. unfold SanityCheck. pose proof (lc_num _ _ Hc) as Hn.
  destruct cells as [|[p y] d].
  { rewrite (first_empty l [] Hc eq_refl), decide_True by done.
    rewrite Hn, (lc_last _ _ Hc). done. }
  pose proof (lc_seg _ _ Hc) as (Hf & n & Hp & _). rewrite Hf, decide_False by done.
  destruct (exists_last (l := (p, y) :: d) ltac:(done)) as (c' & [q z] & Hcq).
  assert (load (heap l) (last l) = Ok (mkElement z None)) as Hll
    by (apply (load_last l c' q z); by rewrite <- Hcq).
  pose proof (last_not_middle l [] p y d Hc) as Hlm.
  destruct (decide (Some p = last l)) as [Hpl|Hpl]; rewrite Hll; cbn [mbind outcome_bind].
  - symmetry in Hpl. apply Hlm in Hpl as ->. by rewrite Hn.
  - rewrite (count_to_last_ok l [] p y d) by
      (done || (unfold walk_fuel; rewrite (cells_size _ _ Hc); simpl; lia)).
    cbn [mbind outcome_bind]. by rewrite Z.eqb_refl.
Qed.

Section order.
Context (compare : T -> T -> Z).

Lemma check_order_ok h p y d n fuel :
  h !! p = Some (mkElement y n) -> lseg h n d None -> (length d <= fuel)%nat ->
  Sorted (cmp_le compare) (y :: d.*2) ->
  check_order compare fuel h (Some p) n = Ok tt.
Proof.
  revert p y n fuel. induction d as [|[b z] d IH]; intros p y n fuel Hp Hseg Hf Hs.
  { simpl in Hseg. subst. by destruct fuel. }
  destruct fuel as [|fuel]; [simpl in Hf; lia|]. destruct Hseg as (-> & nb & Hb & Hseg).
  rewrite fmap_cons in Hs. apply Sorted_inv in Hs as [Hs Hhd]. apply HdRel_inv in Hhd.
  cbn [check_order load]. rewrite Hp, Hb. cbn [mbind outcome_bind item next].
  unfold cmp_le in Hhd. cbn [snd] in Hhd. replace (_ <=? 0) with true by lia.
  cbn [ASSERT mbind outcome_bind]. apply (IH b z); [done|done|simpl in Hf; lia|done].
Qed.

Lemma SortedSanityCheck_ok l cells :
  list_cells l cells -> Sorted (cmp_le compare) cells.*2 -> SortedSanityCheck compare l = Ok tt.
Proof.
  intros Hc Hs. unfold SortedSanityCheck. rewrite (SanityCheck_ok l cells Hc).
  cbn [mbind outcome_bind]. destruct (decide (first l = last l)); [done|].
  destruct cells as [|[p y] d].
  { rewrite (first_empty l [] Hc eq_refl), (lc_last _ _ Hc) in n. done. }
  pose proof (lc_seg _ _ Hc) as (Hf & m & Hp & Hseg). rewrite Hf. cbn [load]. rewrite Hp.
  cbn [mbind outcome_bind next]. apply (check_order_ok _ p y d); [done|done| |done].
  unfold walk_fuel. rewrite (cells_size _ _ Hc). simpl. lia.
Qed.
End order.
End sanity.

(** ** Sorted insertion *)
Section place.
Context {T : Type} `{EqDecision T} (compare : T -> T -> Z) `{!Comparator compare}.
Implicit Types (xs : list T) (x : T).

(** [place] puts [x] after every element it does not precede strictly. *)
Lemma place_split xs x :
  exists xs1 xs2, xs = xs1 ++ xs2 /\ Spec.place compare xs x = xs1 ++ x :: xs2 /\
    Forall (fun y => 0 <= compare x y) xs1 /\
    (forall y, list.head xs2 = Some y -> compare x y < 0).
Proof.
  induction xs as [|y xs IH]; simpl.
  { exists [], []. split_and!; [done..|]. by intros. }
  destruct (Z.ltb_spec (compare x y) 0).
  - exists [], (y :: xs). split_and!; [done..|]. intros ? [= <-]. done.
  - destruct IH as (xs1 & xs2 & -> & -> & Hall & Hhd). exists (y :: xs1), xs2. by repeat constructor.
Qed.

Lemma place_Permutation xs x : Spec.place compare xs x ≡ₚ x :: xs.
Proof.
  destruct (place_split xs x) as (xs1 & xs2 & -> & -> & _). by rewrite Permutation_middle.
Qed.

Lemma place_Sorted xs x :
  Sorted (cmp_le compare) xs -> Sorted (cmp_le compare) (Spec.place compare xs x).
Proof.
  induction xs as [|y xs IH]; intros Hs; simpl; [by repeat constructor|].
  destruct (Z.ltb_spec (compare x y) 0).
  - constructor; [done|]. constructor. unfold cmp_le. lia.
  - apply Sorted_inv in Hs as [Hs Hhd]. constructor; [by apply IH|].
    assert (cmp_le compare y x) as Hyx by by apply compare_flip.
    destruct xs as [|z xs]; simpl; [by constructor|].
    destruct (compare x z <? 0); constructor; [done|]. by apply HdRel_inv in Hhd.
Qed.

(** In an ordered list, whatever follows the insertion point is greater. *)
Lemma place_tail x xs1 xs2 :
  Sorted (cmp_le compare) (xs1 ++ xs2) ->
  (forall y, list.head xs2 = Some y -> compare x y < 0) ->
  Forall (fun y => compare x y < 0) xs2.
Proof.
  intros Hs Hhd. apply Sorted_StronglySorted in Hs.
  2: { intros y z w. apply compare_trans. }
  induction xs1 as [|w xs1 IH]; simpl in *; [|apply StronglySorted_inv in Hs as [? _]; auto].
  destruct xs2 as [|y xs2]; [done|]. specialize (Hhd y eq_refl). constructor; [done|].
  apply StronglySorted_inv in Hs as [_ Hall]. eapply Forall_impl; [exact Hall|].
  intros z Hz. unfold cmp_le in Hz. destruct (Z.ltb_spec (compare x z) 0) as [|Hge]; [done|].
  apply compare_flip in Hge. pose proof (compare_trans y z x Hz Hge).
  apply compare_strict in Hhd. lia.
Qed.

Lemma place_NoDup xs x : x ∉ xs -> NoDup xs -> NoDup (Spec.place compare xs x).
Proof. intros Hx Hnd. rewrite place_Permutation. by constructor. Qed.
End place.

(** ** Properties of the component *)
Section properties.
Context {T : Type} `{EqDecision T}.
Implicit Types (l : LinkedList T) (xs : list T) (x : T).

Lemma cells_split (cells : list (positive * T)) x :
  x ∈ cells.*2 -> NoDup cells.*2 ->
  exists d1 a d2, cells = d1 ++ (a, x) :: d2 /\ x ∉ d1.*2 /\ x ∉ d2.*2.
Proof.
  intros Hx Hnd. apply list_elem_of_fmap in Hx as ([a y] & -> & Hin).
  apply list_elem_of_split in Hin as (d1 & d2 & ->). exists d1, a, d2. split; [done|].
  rewrite fmap_app, fmap_cons in Hnd. apply NoDup_app in Hnd as (_ & Hdis & [Hn _]%NoDup_cons).
  split; [|done]. intros Hin. apply (Hdis _ Hin). left.
Qed.

Lemma filter_ne_app (d1 d2 : list T) x :
  x ∉ d1 -> x ∉ d2 -> filter (fun y => y <> x) (d1 ++ x :: d2) = d1 ++ d2.
Proof.
  intros H1 H2. rewrite filter_app, filter_cons_False by auto.
  by rewrite !filter_all by (intros y Hy ->; done).
Qed.

Lemma insertion_refines l xs x (impl : outcome (LinkedList T)) ys :
  (x ∈ xs -> impl = Err AssertFailed) ->
  (x ∉ xs -> exists l', impl = Ok l' /\ list_rep l' ys) ->
  refines list_rep impl (_ ← ASSERT (bool_decide (x ∉ xs)); Ok ys).
Proof.
  intros Hin Hout. destruct (decide (x ∈ xs)) as [Hx|Hx].
  - rewrite bool_decide_eq_false_2 by auto. by apply Hin.
  - rewrite bool_decide_eq_true_2 by done. by apply Hout.
Qed.

Lemma append_refines l xs x :
  list_rep l xs -> refines list_rep (Append l x) (Spec.append xs x).
Proof.
  intros (cells & Hc & <-). apply (insertion_refines l); intros Hx.
  - unfold Append, alloc. rewrite (IsInList_ok l cells x Hc). cbn [mbind outcome_bind].
    by rewrite bool_decide_eq_true_2.
  - destruct (Append_ok l cells x Hc Hx) as (l' & a & ? & ?). exists l'. split; [done|].
    eexists. split; [done|]. by rewrite fmap_app.
Qed.

Lemma prepend_refines l xs x :
  list_rep l xs -> refines list_rep (Prepend l x) (Spec.prepend xs x).
Proof.
  intros (cells & Hc & <-). apply (insertion_refines l); intros Hx.
  - unfold Prepend, alloc. rewrite (IsInList_ok l cells x Hc). cbn [mbind outcome_bind].
    by rewrite bool_decide_eq_true_2.
  - destruct (Prepend_ok l cells x Hc Hx) as (l' & a & ? & ?). exists l'. split; [done|].
    by eexists.
Qed.

Lemma insert_refines compare l xs x :
  list_rep l xs -> refines list_rep (Insert compare l x) (Spec.insert compare xs x).
Proof.
  intros (cells & Hc & <-). apply (insertion_refines l); intros Hx.
  - unfold Insert, alloc. rewrite (IsInList_ok l cells x Hc). cbn [mbind outcome_bind].
    by rewrite bool_decide_eq_true_2.
  - destruct (Insert_ok compare l cells x Hc Hx) as (l' & cells' & ? & ? & ?). exists l'.
    split; [done|]. by exists cells'.
Qed.

Lemma removeFront_refines l xs :
  list_rep l xs ->
  refines (fun '(l', x) '(xs', y) => list_rep l' xs' /\ x = y) (RemoveFront l) (Spec.removeFront xs).
Proof.
  intros (cells & Hc & <-). destruct cells as [|[a x] cells].
  - unfold RemoveFront. rewrite (IsEmpty_ok l [] Hc). done.
  - destruct (RemoveFront_ok l a x cells Hc) as (l' & ? & ?). exists (l', x). split; [done|].
    split; [|done]. by exists cells.
Qed.

Lemma remove_refines l xs x :
  list_rep l xs -> NoDup xs -> refines list_rep (Remove l x) (Spec.remove xs x).
Proof.
  intros (cells & Hc & <-) Hnd. unfold Spec.remove. destruct (decide (x ∈ cells.*2)) as [Hx|Hx].
  - rewrite bool_decide_eq_true_2 by done.
    destruct (cells_split cells x Hx Hnd) as (d1 & a & d2 & -> & H1 & H2).
    destruct (Remove_ok l d1 a x d2 Hc H1 H2) as (l' & ? & ?). exists l'. split; [done|].
    exists (d1 ++ d2). split; [done|]. rewrite !fmap_app, fmap_cons. symmetry. by apply filter_ne_app.
  - rewrite bool_decide_eq_false_2 by done. unfold Remove. rewrite (IsInList_ok l cells x Hc).
    cbn [mbind outcome_bind]. by rewrite bool_decide_eq_false_2.
Qed.

(** C38: the pointer implementation of [List] computes the functional list
    operations.  From a structure that represents [xs] (no duplicates),
    [Append], [Prepend], [RemoveFront] and [Remove] end in a structure that
    represents the abstract result, or stop in an assertion exactly when the
    abstract operation does; membership, length, [Front], iteration and
    [SanityCheck] read [xs] off correctly.  No operation dereferences a null or
    dangling pointer (except [Front] of an empty list) or runs out of fuel. *)
Theorem linked_list_refines l xs x :
  list_rep l xs -> NoDup xs ->
  refines list_rep (Append l x) (Spec.append xs x) /\
  refines list_rep (Prepend l x) (Spec.prepend xs x) /\
  refines (fun '(l', y) '(xs', z) => list_rep l' xs' /\ y = z) (RemoveFront l) (Spec.removeFront xs) /\
  refines list_rep (Remove l x) (Spec.remove xs x) /\
  IsInList l x = Ok (bool_decide (x ∈ xs)) /\
  NumInList l = Z.of_nat (length xs) /\ IsEmpty l = bool_decide (xs = []) /\
  Front l = match xs with [] => Err Undefined | y :: _ => Ok y end /\
  Apply (fun s y => s ++ [y]) [] l = Ok xs /\
  SanityCheck l = Ok tt.
Proof.
  intros Hr Hnd. split_and!; [by apply append_refines|by apply prepend_refines|
    by apply removeFront_refines|by apply remove_refines|..];
    destruct Hr as (cells & Hc & <-).
  - by apply IsInList_ok.
  - unfold NumInList. by rewrite (lc_num _ _ Hc), length_fmap.
  - rewrite (IsEmpty_ok l cells Hc). by destruct cells.
  - unfold Front. destruct cells as [|[a y] cells].
    + by rewrite (first_empty l [] Hc eq_refl).
    + destruct (lc_seg _ _ Hc) as (-> & n & Ha & _). cbn [load]. by rewrite Ha.
  - unfold Apply. rewrite (visit_ok _ _ cells) by
      (apply Hc || (unfold walk_fuel; rewrite (cells_size _ _ Hc); lia)).
    cbn [mbind outcome_bind]. f_equal. by apply (foldl_snoc_app []).
  - by apply (SanityCheck_ok l cells).
Qed.

(** [SortedList::Insert] refuses an item already present; otherwise the
    result represents the old items with the new one added, is ordered whenever
    the list was, and the new item stands behind every old item it does not
    strictly precede (so equal keys keep their arrival order). *)
Theorem sorted_insert_correct compare `{!Comparator compare} l xs x :
  list_rep l xs -> NoDup xs -> Sorted (cmp_le compare) xs ->
  if decide (x ∈ xs) then Insert compare l x = Err AssertFailed
  else exists l' xs1 xs2, Insert compare l x = Ok l' /\ xs = xs1 ++ xs2 /\
    list_rep l' (xs1 ++ x :: xs2) /\ NoDup (xs1 ++ x :: xs2) /\
    Sorted (cmp_le compare) (xs1 ++ x :: xs2) /\
    Forall (fun y => 0 <= compare x y) xs1 /\ Forall (fun y => compare x y < 0) xs2 /\
    SortedSanityCheck compare l' = Ok tt.
Proof.
  intros Hr Hnd Hs. pose proof (insert_refines compare l xs x Hr) as HI. unfold Spec.insert in HI.
  destruct (decide (x ∈ xs)) as [Hx|Hx].
  { rewrite bool_decide_eq_false_2 in HI by auto. exact HI. }
  rewrite bool_decide_eq_true_2 in HI by done. destruct HI as (l' & HI & Hr').
  pose proof (place_Sorted compare xs x Hs) as Hs'. pose proof (place_NoDup compare xs x Hx Hnd) as Hnd'.
  destruct (place_split compare xs x) as (xs1 & xs2 & Heq & Hp & Hall & Hhd). rewrite Hp in *.
  exists l', xs1, xs2. split_and!; [done..| |].
  - rewrite Heq in Hs. by apply (place_tail compare x xs1).
  - destruct Hr' as (cells & Hc & Hcs). apply (SortedSanityCheck_ok compare l' cells Hc). by rewrite Hcs.
Qed.
End properties.

(** ** Self tests *)
Section selftest.
Context {T : Type} `{EqDecision T}.
Context (append : LinkedList T -> T -> outcome (LinkedList T)) (sanity : LinkedList T -> outcome unit).
Context (I : list T -> Prop).
Context (Happend : forall l xs x, list_rep l xs -> I xs -> x ∉ xs ->
  exists l' xs', append l x = Ok l' /\ list_rep l' xs' /\ xs' ≡ₚ x :: xs /\ I xs').
Context (Hfilter : forall xs x, I xs -> I (filter (fun y => y <> x) xs)).
Context (Hsanity : forall l xs, list_rep l xs -> I xs -> sanity l = Ok tt).
Context (Hnil : I []).
Implicit Types (l : LinkedList T) (p : list T).

Lemma IsInList_rep l xs x : list_rep l xs -> IsInList l x = Ok (bool_decide (x ∈ xs)).
Proof. intros (cells & Hc & <-). by apply IsInList_ok. Qed.

Lemma IsEmpty_rep l xs : list_rep l xs -> IsEmpty l = bool_decide (xs = []).
Proof. intros (cells & Hc & <-). rewrite (IsEmpty_ok l cells Hc). by destruct cells. Qed.

Lemma fill_loop_ok (chk : LinkedList T -> outcome unit) p l :
  (forall l xs x, list_rep l xs -> x ∈ xs -> chk l = Ok tt) ->
  NoDup p -> list_rep l [] ->
  exists l' xs, for_range 0 (Z.of_nat (length p)) (fun i l =>
      x ← arr_get p i; l ← append l x; b ← IsInList l x; _ ← ASSERT b;
      _ ← chk l; Ok l) l = Ok l' /\ list_rep l' xs /\ xs ≡ₚ p /\ I xs.
Proof.
  intros Hchk Hnd Hl.
  destruct (for_range_ind (fun i l => exists xs, list_rep l xs /\ xs ≡ₚ take (Z.to_nat i) p /\ I xs)
    (fun i l => x ← arr_get p i; l ← append l x; b ← IsInList l x; _ ← ASSERT b;
      _ ← chk l; Ok l) 0 (Z.of_nat (length p)) l)
    as (l' & Heq & xs & Hr & Hp & HI); [lia|by exists []| |].
  - intros i l1 Hi (xs & Hr & Hp & HI).
    destruct (arr_get_lt p i) as (x & Hx & Hget); [lia|]. rewrite Hget. cbn [mbind outcome_bind].
    assert (x ∉ xs) as Hnin.
    { rewrite Hp. intros (j & Hj & Hlt)%elem_of_take.
      pose proof (NoDup_lookup p _ _ _ Hnd Hj Hx). lia. }
    destruct (Happend l1 xs x Hr HI Hnin) as (l2 & xs' & Ha & Hr' & Hp' & HI').
    rewrite Ha. cbn [mbind outcome_bind]. rewrite (IsInList_rep l2 xs' x Hr'). cbn [mbind outcome_bind].
    rewrite bool_decide_eq_true_2 by (rewrite Hp'; left). cbn [ASSERT mbind outcome_bind].
    rewrite (Hchk l2 xs' x Hr') by (rewrite Hp'; left). cbn [mbind outcome_bind]. eexists. split; [done|]. exists xs'. split_and!; [done| |done].
    rewrite Hp', Hp. replace (Z.to_nat (i + 1)) with (S (Z.to_nat i)) by lia.
    rewrite (take_S_r p _ x) by done. by rewrite Permutation_cons_append.
  - exists l', xs. split_and!; [done..| |done]. by rewrite Hp, Nat2Z.id, firstn_all.
Qed.

Lemma drain_loop_ok p l xs :
  NoDup p -> list_rep l xs -> xs ≡ₚ p -> I xs ->
  exists l', for_range 0 (Z.of_nat (length p)) (fun i l =>
      x ← arr_get p i; l ← Remove l x; b ← IsInList l x; _ ← ASSERT (negb b); Ok l) l = Ok l' /\
    list_rep l' [].
Proof.
  intros Hnd Hl Hp HI.
  destruct (for_range_ind (fun i l => exists xs, list_rep l xs /\ xs ≡ₚ drop (Z.to_nat i) p /\ I xs)
    (fun i l => x ← arr_get p i; l ← Remove l x; b ← IsInList l x; _ ← ASSERT (negb b); Ok l)
    0 (Z.of_nat (length p)) l) as (l' & Heq & xs' & Hr & Hp' & _); [lia|by exists xs| |].
  - intros i l1 Hi (ys & Hr & Hpy & HIy).
    destruct (arr_get_lt p i) as (x & Hx & Hget); [lia|]. rewrite Hget. cbn [mbind outcome_bind].
    assert (drop (Z.to_nat i) p = x :: drop (Z.to_nat (i + 1)) p) as Hdrop.
    { replace (Z.to_nat (i + 1)) with (S (Z.to_nat i)) by lia. by apply drop_S. }
    assert (NoDup ys) as Hndy by (rewrite Hpy; by apply NoDup_drop).
    assert (x ∈ ys) as Hxy by (rewrite Hpy, Hdrop; left).
    pose proof (remove_refines l1 ys x Hr Hndy) as HR. unfold Spec.remove in HR.
    rewrite bool_decide_eq_true_2 in HR by done. destruct HR as (l2 & HR & Hr2).
    rewrite HR. cbn [mbind outcome_bind]. rewrite (IsInList_rep l2 _ x Hr2). cbn [mbind outcome_bind].
    rewrite bool_decide_eq_false_2 by (rewrite list_elem_of_filter; by intros [? _]).
    cbn [negb ASSERT mbind outcome_bind]. eexists. split; [done|]. eexists. split_and!; [done| |by apply Hfilter].
    rewrite Hpy, Hdrop in Hndy. apply NoDup_cons in Hndy as [Hnx _].
    rewrite Hpy, Hdrop, filter_cons_False by auto. rewrite filter_all; [done|]. by intros y Hy ->.
  - exists l'. split; [done|]. rewrite Nat2Z.id, drop_all in Hp'. symmetry in Hp'. by apply Permutation_nil in Hp' as ->.
Qed.

Lemma ListSelfTest_ok p l :
  NoDup p -> list_rep l [] ->
  exists l', ListSelfTest append sanity l p = Ok l' /\ list_rep l' [].
Proof.
  intros Hnd Hl. unfold ListSelfTest. rewrite (Hsanity l [] Hl Hnil). cbn [mbind outcome_bind].
  assert (first l = None) as Hf.
  { destruct Hl as (cells & Hc & Hn). apply fmap_nil_inv in Hn. by apply (first_empty l cells). }
  rewrite (IsEmpty_rep l [] Hl), Hf. cbn [ASSERT mbind outcome_bind].
  change (bool_decide ([] = []) && bool_decide (None = None))%bool with true.
  cbn [ASSERT mbind outcome_bind]. rewrite decide_True by done. cbn [mbind outcome_bind].
  destruct (fill_loop_ok (fun l => ASSERT (negb (IsEmpty l))) p l) as (l1 & xs & -> & Hr1 & Hp & HI); [|done..|].
  { intros l0 ys y Hr Hy. rewrite (IsEmpty_rep l0 ys Hr).
    rewrite bool_decide_eq_false_2; [done|]. by intros ->; apply not_elem_of_nil in Hy. }
  cbn [mbind outcome_bind].
  rewrite (Hsanity l1 xs Hr1 HI). cbn [mbind outcome_bind].
  destruct (drain_loop_ok p l1 xs Hnd Hr1 Hp HI) as (l2 & -> & Hr2). cbn [mbind outcome_bind].
  rewrite (IsEmpty_rep l2 [] Hr2). cbn. rewrite (Hsanity l2 [] Hr2 Hnil). cbn. eauto.
Qed.
End selftest.

Section sorted_selftest.
Context {T : Type} `{EqDecision T} (compare : T -> T -> Z) `{!Comparator compare}.
Implicit Types (l : LinkedList T) (p : list T).

Lemma Sorted_filter (P : T -> Prop) `{!forall x, Decision (P x)} xs :
  Sorted (cmp_le compare) xs -> Sorted (cmp_le compare) (filter P xs).
Proof.
  intros Hs. apply Sorted_StronglySorted in Hs.
  2: { intros y z w. apply compare_trans. }
  apply StronglySorted_Sorted. induction Hs as [|x xs Hs IH Hall]; [constructor|].
  rewrite filter_cons. case_decide; [|done]. constructor; [done|].
  apply Forall_forall. intros y [_ Hy]%list_elem_of_filter. by eapply Forall_forall in Hall.
Qed.

Lemma Sorted_adjacent xs i x y :
  Sorted (cmp_le compare) xs -> xs !! i = Some x -> xs !! S i = Some y -> compare x y <= 0.
Proof.
  intros Hs. revert i. induction Hs as [|z zs Hs IH Hhd]; intros i; [done|].
  destruct i as [|i]; simpl; [|by apply IH]. intros [= ->] Hy.
  destruct zs as [|w zs]; [done|]. simplify_eq/=. by apply HdRel_inv in Hhd.
Qed.

Lemma Insert_step l xs x :
  list_rep l xs -> Sorted (cmp_le compare) xs -> x ∉ xs ->
  exists l' xs', Insert compare l x = Ok l' /\ list_rep l' xs' /\ xs' ≡ₚ x :: xs /\
    Sorted (cmp_le compare) xs'.
Proof.
  intros Hr Hs Hx. pose proof (insert_refines compare l xs x Hr) as HI. unfold Spec.insert in HI.
  rewrite bool_decide_eq_true_2 in HI by done. destruct HI as (l' & HI & Hr').
  exists l', (Spec.place compare xs x). split_and!; [done..| |].
  - apply place_Permutation.
  - by apply place_Sorted.
Qed.

Lemma Sorted_rep_sanity l xs :
  list_rep l xs -> Sorted (cmp_le compare) xs -> SortedSanityCheck compare l = Ok tt.
Proof. intros (cells & Hc & <-). by apply SortedSanityCheck_ok. Qed.

(** The loop that empties the list front to back. *)
Lemma pop_loop_ok l xs :
  list_rep l xs -> NoDup xs ->
  exists l', for_range 0 (Z.of_nat (length xs)) (fun i '(l, q) =>
      '(l, x) ← RemoveFront l; b ← IsInList l x; _ ← ASSERT (negb b); Ok (l, q ++ [x])) (l, []) =
    Ok (l', xs) /\ list_rep l' [].
Proof.
  intros Hl Hnd.
  destruct (for_range_ind (fun i '(l, q) => q = take (Z.to_nat i) xs /\ list_rep l (drop (Z.to_nat i) xs))
    (fun i '(l, q) => '(l, x) ← RemoveFront l; b ← IsInList l x; _ ← ASSERT (negb b); Ok (l, q ++ [x]))
    0 (Z.of_nat (length xs)) (l, [])) as ([l' q] & Heq & Hq & Hr); [lia|done| |].
  - intros i [l1 q] Hi [-> Hr]. destruct (lookup_lt_is_Some_2 xs (Z.to_nat i)) as [x Hx]; [lia|].
    assert (Z.to_nat (i + 1) = S (Z.to_nat i)) as Hi1 by lia.
    pose proof (drop_S xs x (Z.to_nat i) Hx) as Hdrop. rewrite Hdrop in Hr.
    pose proof (removeFront_refines l1 _ Hr) as ([l2 y] & Heq & Hr2 & ->). cbn [Spec.removeFront] in Hr2.
    rewrite Heq. cbn [mbind outcome_bind]. rewrite (IsInList_rep l2 _ x Hr2). cbn [mbind outcome_bind].
    rewrite bool_decide_eq_false_2.
    2: { pose proof (NoDup_drop xs (Z.to_nat i) Hnd) as Hd. rewrite Hdrop in Hd.
         by apply NoDup_cons in Hd as [? _]. }
    cbn [negb ASSERT mbind outcome_bind]. eexists. split; [done|]. rewrite Hi1. split; [|done].
    symmetry. by apply take_S_r.
  - rewrite Nat2Z.id, drop_all in Hr. rewrite Nat2Z.id, firstn_all in Hq. subst. eauto.
Qed.

Lemma order_loop_ok xs :
  Sorted (cmp_le compare) xs ->
  for_range 0 (Z.of_nat (length xs) - 1) (fun i u =>
    x ← arr_get xs i; y ← arr_get xs (i + 1); ASSERT (compare x y <=? 0)) tt = Ok tt.
Proof.
  intros Hs. destruct (decide (xs = [])) as [->|Hne]; [done|].
  assert (0 < length xs)%nat by (destruct xs; [done|simpl; lia]).
  destruct (for_range_ind (fun _ _ => True) (fun i (u : unit) =>
    x ← arr_get xs i; y ← arr_get xs (i + 1); ASSERT (compare x y <=? 0)) 0
    (Z.of_nat (length xs) - 1) tt) as ([] & -> & _); [lia|done| |done].
  intros i _ Hi _. exists tt. split; [|done].
  destruct (arr_get_lt xs i) as (x & Hx & ->); [lia|].
  destruct (arr_get_lt xs (i + 1)) as (y & Hy & ->); [lia|]. cbn [mbind outcome_bind].
  replace (Z.to_nat (i + 1)) with (S (Z.to_nat i)) in Hy by lia.
  pose proof (Sorted_adjacent xs _ x y Hs Hx Hy). by replace (_ <=? 0) with true by lia.
Qed.
End sorted_selftest.

(** [List::SelfTest] and [SortedList::SelfTest] pass, on a fresh list, for
    every array of distinct entries and every lawful comparison function, and
    leave the list empty again. *)
Theorem list_selftests_pass {T} `{EqDecision T} (compare : T -> T -> Z) `{!Comparator compare} p :
  NoDup p ->
  (exists l, ListSelfTest Append SanityCheck newList p = Ok l /\ list_rep l []) /\
  (exists l, SortedSelfTest compare newList p = Ok l /\ list_rep l []).
Proof.
  intros Hnd. assert (list_rep (@newList T) []) as Hnew by (exists []; split; [apply newList_ok|done]).
  split.
  - apply (ListSelfTest_ok _ _ (fun _ => True)); [| | |done..].
    + intros l xs x Hr _ Hx. pose proof (append_refines l xs x Hr) as HA. unfold Spec.append in HA.
      rewrite bool_decide_eq_true_2 in HA by done. destruct HA as (l' & ? & ?).
      exists l', (xs ++ [x]). split_and!; [done..| |done].
      symmetry. apply Permutation_cons_append.
    + done.
    + intros l xs (cells & Hc & _) _. by apply (SanityCheck_ok l cells).
  - unfold SortedSelfTest. destruct (ListSelfTest_ok (Insert compare) (SortedSanityCheck compare)
      (Sorted (cmp_le compare)) (Insert_step compare)
      (fun xs x => Sorted_filter compare (fun y => y <> x) xs)
      (Sorted_rep_sanity compare) ltac:(constructor) p newList Hnd Hnew) as (l1 & -> & Hr1).
    cbn [mbind outcome_bind]. unfold SortedSelfTest_tail.
    destruct (fill_loop_ok (Insert compare) (Sorted (cmp_le compare)) (Insert_step compare)
      ltac:(constructor) (fun _ => Ok tt) p l1) as (l2 & xs & HF & Hr2 & Hp & Hs); [done..|].
    cbn [mbind outcome_bind] in HF |- *. rewrite HF. cbn [mbind outcome_bind].
    rewrite (Sorted_rep_sanity compare l2 xs Hr2 Hs). cbn [mbind outcome_bind].
    rewrite <- (Permutation_length Hp). assert (NoDup xs) as Hndx by by rewrite Hp.
    destruct (pop_loop_ok l2 xs Hr2 Hndx) as (l3 & -> & Hr3). cbn [mbind outcome_bind].
    rewrite (IsEmpty_rep l3 [] Hr3). cbn [bool_decide]. cbn [ASSERT mbind outcome_bind].
    change (bool_decide (@nil T = [])) with true. cbn [ASSERT mbind outcome_bind].
    rewrite (order_loop_ok compare xs Hs). cbn [mbind outcome_bind].
    rewrite (Sorted_rep_sanity compare l3 [] Hr3) by constructor. cbn [mbind outcome_bind]. eauto.
Qed.

(** A concrete two-element list, used by the witnesses. *)
Definition sample_list : LinkedList Z :=
  mkList (<[1%positive := mkElement 5 (Some 2%positive)]> {[2%positive := mkElement 9 None]})
    (Some 1%positive) (Some 2%positive) 2.

Lemma sample_list_rep : list_rep sample_list [5; 9].
Proof.
  exists [(1%positive, 5); (2%positive, 9)]. split; [|reflexivity]. split; simpl.
  - apply (bool_decide_unpack _). vm_compute. exact I.
  - vm_compute. reflexivity.
  - split; [reflexivity|]. exists (Some 2%positive). split; [reflexivity|].
    split; [reflexivity|]. exists None. split; reflexivity.
  - reflexivity.
  - reflexivity.
Qed.

(** [IntCompare] of lib/libtest.cc *)
Definition IntCompare (x y : Z) : Z := if x <? y then -1 else if x =? y then 0 else 1.

Lemma IntCompare_spec x y :
  (IntCompare x y < 0 <-> x < y) /\ (IntCompare x y <= 0 <-> x <= y) /\ (0 < IntCompare x y <-> y < x).
Proof. unfold IntCompare. destruct (Z.ltb_spec x y), (Z.eqb_spec x y); lia. Qed.

#[export] Instance IntCompare_comparator : Comparator IntCompare.
Proof.
  split; intros x y; [..|intros z]; pose proof (IntCompare_spec x y);
    pose proof (IntCompare_spec y x); [lia|lia|].
  pose proof (IntCompare_spec y z). pose proof (IntCompare_spec x z). lia.
Qed.

Lemma linked_list_refines_witness :
  refines list_rep (Remove sample_list 5) (Spec.remove [5; 9] 5) /\
  refines list_rep (Append sample_list 9) (Err AssertFailed).
Proof.
  assert (NoDup [5; 9]) as Hnd by (apply (bool_decide_unpack _); vm_compute; exact I).
  split.
  - exact (proj1 (proj2 (proj2 (proj2 (linked_list_refines sample_list [5; 9] 5 sample_list_rep Hnd))))).
  - exact (proj1 (linked_list_refines sample_list [5; 9] 9 sample_list_rep Hnd)).
Defined.

Lemma sorted_insert_correct_witness :
  exists l', Insert IntCompare sample_list 7 = Ok l' /\ list_rep l' [5; 7; 9].
Proof.
  assert (NoDup [5; 9]) as Hnd by (apply (bool_decide_unpack _); vm_compute; exact I).
  assert (Sorted (cmp_le IntCompare) [5; 9]) as Hs
    by (repeat constructor; unfold cmp_le, IntCompare; simpl; lia).
  pose proof (sorted_insert_correct IntCompare sample_list [5; 9] 7 sample_list_rep Hnd Hs) as H.
  rewrite decide_False in H by (rewrite !elem_of_cons, elem_of_nil; lia).
  destruct H as (l' & xs1 & xs2 & HI & Heq & Hr & _ & _ & H1 & H2 & _). exists l'. split; [exact HI|].
  assert (xs1 = [5] /\ xs2 = [9]) as [-> ->]; [|exact Hr].
  destruct xs1 as [|a [|b xs1]]; simplify_eq/=.
  - exfalso. apply Forall_cons in H2 as [H2 _]. vm_compute in H2. discriminate.
  - auto.
  - destruct xs1; simplify_eq/=. exfalso. apply Forall_cons in H1 as [_ H1].
    apply Forall_cons in H1 as [H1 _]. vm_compute in H1. by apply H1.
Defined.

Lemma list_selftests_pass_witness :
  exists l, SortedSelfTest IntCompare newList [9; 5; 7] = Ok l.
Proof.
  assert (NoDup [9; 5; 7]) as Hnd by (apply (bool_decide_unpack _); vm_compute; exact I).
  destruct (proj2 (list_selftests_pass IntCompare [9; 5; 7] Hnd)) as (l & Hl & _).
  exists l. exact Hl.
Defined.
