(* ===== verification/Hash.v ===== *)
(** * Self-expanding hash tables (src/code/lib/hash.h, hash.cc)

    An array of buckets, each a [List].  The bucket lists are the abstract lists
    of [Lists.Spec], which the linked lists implement.  The item type, the
    functions [getKey] and [hash] and the equality of keys are the arguments of
    the C++ template. *)

From S2P Require Import Prelude Lists.

Definition InitialBuckets : Z := 4.
Definition ResizeRatio : Z := 3.
Definition IncreaseSizeBy : Z := 4.

(** [HashTable<Key,T>] without its two function pointers. *)
Record HashTable (T : Type) := mkHash {
  buckets : list (list T);
  numBuckets : Z;
  numItems : Z;
}.
Arguments mkHash {T} _ _ _.
Arguments buckets {T} _.
Arguments numBuckets {T} _.
Arguments numItems {T} _.

(** [HashIterator<Key,T>]: the bucket and what is left of it. *)
Record HashIterator (T : Type) := mkIter { it_bucket : Z; bucketIter : option (list T) }.
Arguments mkIter {T} _ _.
Arguments it_bucket {T} _.
Arguments bucketIter {T} _.

Section implementation.
Context {Key T : Type} `{EqDecision Key} `{EqDecision T} (getKey : T -> Key) (hash : Key -> Z).
Implicit Types (h : HashTable T) (key : Key) (item : T).

(** [HashTable::InitBuckets] *)
Definition InitBuckets (sz : Z) h : HashTable T := mkHash (replicate (Z.to_nat sz) []) sz (numItems h).

(** [HashTable::HashTable] *)
Definition newHashTable : HashTable T := InitBuckets InitialBuckets (mkHash [] 0 0).

(** [HashTable::HashValue] *)
Definition HashValue h key : outcome Z :=
  if numBuckets h =? 0 then Err Undefined
  else
    let result := to_int (Z.rem (hash key) (to_uint (numBuckets h))) in
    _ ← ASSERT ((0 <=? result) && (result <? numBuckets h));
    Ok result.

(** The loop of [HashTable::FindInBucket]. *)
Fixpoint find_item (key : Key) (xs : list T) : option T :=
  match xs with
  | [] => None
  | x :: xs => if decide (key = getKey x) then Some x else find_item key xs
  end.

(** [HashTable::FindInBucket], [HashTable::Find] and [HashTable::IsInTable]; [None] is
    the result FALSE. *)
Definition FindInBucket h (bucket : Z) key : outcome (option T) :=
  xs ← arr_get (buckets h) bucket; Ok (find_item key xs).
Definition Find h key : outcome (option T) := b ← HashValue h key; FindInBucket h b key.
Definition IsInTable h key : outcome bool := r ← Find h key; Ok (bool_decide (is_Some r)).

(** [HashTable::IsEmpty] *)
Definition IsEmpty h : bool := numItems h =? 0.

(** [buckets\[HashValue(getKey(item))\]->Append(item)] *)
Definition put h item : outcome (HashTable T) :=
  b ← HashValue h (getKey item);
  xs ← arr_get (buckets h) b;
  xs ← Spec.append xs item;
  bs ← arr_set (buckets h) b xs;
  Ok (mkHash bs (numBuckets h) (numItems h)).

(** [HashTable::SanityCheck] *)
Definition check_items h (i : Z) (xs : list T) : outcome unit :=
  foldr (fun x rest => b ← HashValue h (getKey x); _ ← ASSERT (i =? b); rest) (Ok tt) xs.
Definition SanityCheck h : outcome unit :=
  numFound ← for_range 0 (numBuckets h) (fun i n =>
    xs ← arr_get (buckets h) i;
    n ← int_add n (Z.of_nat (length xs));
    _ ← check_items h i xs; Ok n) 0;
  ASSERT (numItems h =? numFound).

(** The inner [while] of [HashTable::ReHash]: empty one old bucket. *)
Fixpoint drain (xs : list T) h : outcome (HashTable T) :=
  match xs with
  | [] => Ok h
  | item :: xs => h ← put h item; drain xs h
  end.

(** [HashTable::ReHash] *)
Definition ReHash h : outcome (HashTable T) :=
  let oldTable := buckets h in
  let oldSize := numBuckets h in
  _ ← SanityCheck h;
  _ ← (if numBuckets h * IncreaseSizeBy <? 2 ^ 31 then Ok tt else Err Undefined);
  let h := InitBuckets (numBuckets h * IncreaseSizeBy) h in
  h ← for_range 0 oldSize (fun i h => xs ← arr_get oldTable i; drain xs h) h;
  _ ← SanityCheck h;
  Ok h.

(** [HashTable::Insert] *)
Definition Insert h item : outcome (HashTable T) :=
  let key := getKey item in
  found ← IsInTable h key;
  _ ← ASSERT (negb found);
  _ ← (if numBuckets h =? 0 then Err Undefined else Ok tt);
  h ← (if ResizeRatio <=? Z.quot (numItems h) (numBuckets h) then ReHash h else Ok h);
  h ← put h item;
  n ← int_add (numItems h) 1;
  let h := mkHash (buckets h) (numBuckets h) n in
  found ← IsInTable h key;
  _ ← ASSERT found;
  Ok h.

(** [HashTable::Remove] *)
Definition Remove h key : outcome (HashTable T * T) :=
  bucket ← HashValue h key;
  found ← FindInBucket h bucket key;
  match found with
  | None => Err AssertFailed
  | Some item =>
      xs ← arr_get (buckets h) bucket;
      xs ← Spec.remove xs item;
      bs ← arr_set (buckets h) bucket xs;
      n ← int_add (numItems h) (-1);
      let h := mkHash bs (numBuckets h) n in
      again ← IsInTable h key;
      _ ← ASSERT (negb again);
      Ok (h, item)
  end.

(** [HashTable::Apply]: the items in the order in which the function sees them. *)
Definition Apply h : outcome (list T) :=
  for_range 0 (numBuckets h) (fun i seen => xs ← arr_get (buckets h) i; Ok (seen ++ xs)) [].

(** [HashTable::FindNextFullBucket] *)
Definition FindNextFullBucket h (start : Z) : outcome Z :=
  r ← for_until start (numBuckets h) (fun bucket (_ : unit) =>
        xs ← arr_get (buckets h) bucket;
        Ok (match xs with [] => inl tt | _ => inr bucket end)) tt;
  Ok (match r with inl _ => Z.max start (numBuckets h) | inr b => b end).

(** [HashIterator::HashIterator], [IsDone], [Item] and [Next] *)
Definition bucket_iter h (bucket : Z) : outcome (HashIterator T) :=
  if bucket <? numBuckets h then xs ← arr_get (buckets h) bucket; Ok (mkIter bucket (Some xs))
  else Ok (mkIter bucket None).
Definition newIterator h : outcome (HashIterator T) := b ← FindNextFullBucket h 0; bucket_iter h b.
Definition IsDone h (it : HashIterator T) : bool := it_bucket it =? numBuckets h.
Definition Item h (it : HashIterator T) : outcome T :=
  _ ← ASSERT (negb (IsDone h it));
  match bucketIter it with
  | Some (x :: _) => Ok x
  | _ => Err Undefined
  end.
Definition Next h (it : HashIterator T) : outcome (HashIterator T) :=
  match bucketIter it with
  | None | Some [] => Err Undefined
  | Some [_] => b ← FindNextFullBucket h (it_bucket it + 1); bucket_iter h b
  | Some (_ :: xs) => Ok (mkIter (it_bucket it) (Some xs))
  end.

(** [for (; !iter->IsDone(); iter->Next()) ... iter->Item()]: the items visited. *)
Fixpoint iterate (fuel : nat) h (it : HashIterator T) : outcome (list T) :=
  if IsDone h it then Ok []
  else match fuel with
       | O => Err OutOfFuel
       | S fuel => x ← Item h it; it ← Next h it; rest ← iterate fuel h it; Ok (x :: rest)
       end.

(** [HashTable::~HashTable]; [DeleteBuckets] frees the lists, whose destructor
    does nothing. *)
Definition deleteHashTable h : outcome unit := ASSERT (IsEmpty h).

(** [HashTable::SelfTest] *)
Definition SelfTest (p : list T) h : outcome (HashTable T) :=
  it ← newIterator h;
  _ ← SanityCheck h;
  _ ← ASSERT (IsEmpty h);
  _ ← ASSERT (IsDone h it);
  h ← for_range 0 (Z.of_nat (length p)) (fun i h =>
        x ← arr_get p i;
        h ← Insert h x;
        b ← IsInTable h (getKey x); _ ← ASSERT b;
        _ ← ASSERT (negb (IsEmpty h)); Ok h) h;
  h ← for_range 0 (Z.of_nat (length p)) (fun i h =>
        x ← arr_get p i;
        '(h, y) ← Remove h (getKey x);
        _ ← ASSERT (bool_decide (y = x)); Ok h) h;
  _ ← ASSERT (IsEmpty h);
  _ ← SanityCheck h;
  Ok h.
End implementation.

(** ** Representation *)
Section correctness.
Context {Key T : Type} `{Countable Key} `{EqDecision T} (getKey : T -> Key) (hash : Key -> Z).
Context (Hhash : forall key, is_uint (hash key)).
Implicit Types (h : HashTable T) (key : Key) (x item : T).

Definition contents h : list T := concat (buckets h).

(** Every item is in its bucket and no key occurs twice. *)
Record placed h : Prop := {
  pl_size : numBuckets h = Z.of_nat (length (buckets h));
  pl_range : 0 < numBuckets h < 2 ^ 31;
  pl_bucket i xs x : buckets h !! i = Some xs -> x ∈ xs -> Z.of_nat i = hash (getKey x) mod numBuckets h;
  pl_keys : NoDup (getKey <$> contents h);
}.

Record hash_ok h : Prop := {
  ho_placed : placed h;
  ho_count : numItems h = Z.of_nat (length (contents h));
  ho_range : numItems h < 2 ^ 31;
}.

(** The table implements the finite map [m]. *)
Definition hash_rep h (m : gmap Key T) : Prop :=
  hash_ok h /\ forall key x, m !! key = Some x <-> x ∈ contents h /\ getKey x = key.

(** The bucket of a key. *)
Definition slot h key : nat := Z.to_nat (hash key mod numBuckets h).

Lemma slot_lt h key : placed h -> (slot h key < length (buckets h))%nat.
Proof. intros [Hs Hr _ _]. unfold slot. pose proof (Z.mod_pos_bound (hash key) (numBuckets h)). lia. Qed.

Lemma HashValue_ok h key : placed h -> HashValue hash h key = Ok (Z.of_nat (slot h key)).
Proof.
  intros Hp. pose proof (pl_range _ Hp) as Hr. pose proof (Z.mod_pos_bound (hash key) (numBuckets h)) as Hm.
  pose proof (Hhash key) as [Hk _]. unfold HashValue, slot. rewrite (proj2 (Z.eqb_neq _ _)) by lia.
  rewrite to_uint_id by (unfold is_uint; lia). rewrite Z.rem_mod_nonneg by lia. rewrite to_int_id by (unfold is_int; lia).
  replace (_ && _) with true by lia. cbn. by rewrite Z2Nat.id by lia.
Qed.

Lemma bucket_at h key : placed h -> exists xs, buckets h !! slot h key = Some xs /\ arr_get (buckets h) (Z.of_nat (slot h key)) = Ok xs.
Proof.
  intros Hp. destruct (lookup_lt_is_Some_2 _ _ (slot_lt h key Hp)) as [xs Hxs]. exists xs. split; [done|].
  apply arr_get_Some; [lia|]. by rewrite Nat2Z.id.
Qed.

Lemma concat_insert {A} (bs : list (list A)) i xs ys :
  bs !! i = Some xs -> exists l1 l2, concat bs = l1 ++ xs ++ l2 /\ concat (<[i := ys]> bs) = l1 ++ ys ++ l2.
Proof.
  intros Hi. exists (concat (take i bs)), (concat (drop (S i) bs)).
  assert (i < length bs)%nat as Hlt by by eapply lookup_lt_Some. split.
  - rewrite <- (take_drop_middle _ _ _ Hi) at 1. by rewrite concat_app.
  - rewrite insert_take_drop by done. by rewrite concat_app.
Qed.

Lemma bucket_contents h i xs x : buckets h !! i = Some xs -> x ∈ xs -> x ∈ contents h.
Proof.
  intros Hi Hx. destruct (concat_insert _ _ _ xs Hi) as (l1 & l2 & E & _). unfold contents. rewrite E. set_solver.
Qed.

(** An item of the table is in the bucket of its key. *)
Lemma contents_bucket h x : placed h -> x ∈ contents h -> exists xs, buckets h !! slot h (getKey x) = Some xs /\ x ∈ xs.
Proof.
  intros Hp Hx. unfold contents in Hx. apply list_elem_of_In, in_concat in Hx as (xs & Hxs & Hin).
  apply list_elem_of_In, list_elem_of_lookup in Hxs as [i Hi]. apply list_elem_of_In in Hin.
  exists xs. split; [|done]. unfold slot. rewrite <- (pl_bucket _ Hp i xs x Hi Hin). by rewrite Nat2Z.id.
Qed.

(** ** Lookup *)
Lemma find_item_Some key xs x :
  NoDup (getKey <$> xs) -> find_item getKey key xs = Some x <-> x ∈ xs /\ getKey x = key.
Proof.
  induction xs as [|y xs IH]; cbn; intros Hnd; [set_solver|]. apply NoDup_cons in Hnd as [Hy Hnd]. case_decide as E.
  - split; [intros [= <-]; by repeat constructor|]. intros [Hin Hx]. apply elem_of_cons in Hin as [->|Hin]; [done|].
    exfalso. apply Hy. apply list_elem_of_fmap. exists x. split; [congruence|done].
  - rewrite IH by done. rewrite elem_of_cons. naive_solver.
Qed.

Lemma bucket_keys h i xs : placed h -> buckets h !! i = Some xs -> NoDup (getKey <$> xs).
Proof.
  intros Hp Hi. destruct (concat_insert _ _ _ xs Hi) as (l1 & l2 & E & _). pose proof (pl_keys _ Hp) as Hnd.
  unfold contents in Hnd. rewrite E, !fmap_app in Hnd. apply NoDup_app in Hnd as (_ & _ & Hnd). by apply NoDup_app in Hnd as (? & _).
Qed.

Lemma Find_Some h key r :
  placed h -> Find getKey hash h key = Ok r ->
  forall x, r = Some x <-> x ∈ contents h /\ getKey x = key.
Proof.
  intros Hp. unfold Find. rewrite HashValue_ok by done. cbn [mbind outcome_bind]. unfold FindInBucket.
  destruct (bucket_at h key Hp) as (xs & Hxs & ->). cbn [mbind outcome_bind]. intros [= <-] x.
  rewrite find_item_Some by by eapply bucket_keys. split.
  - intros [Hin Hk]. split; [by eapply bucket_contents|done].
  - intros [Hin <-]. destruct (contents_bucket h x Hp Hin) as (ys & Hys & ?). split; [congruence|done].
Qed.

Lemma Find_returns h key : placed h -> exists r, Find getKey hash h key = Ok r.
Proof.
  intros Hp. unfold Find. rewrite HashValue_ok by done. cbn [mbind outcome_bind]. unfold FindInBucket.
  destruct (bucket_at h key Hp) as (xs & Hxs & ->). eauto.
Qed.

Lemma hash_Find_ok h m key : hash_rep h m -> Find getKey hash h key = Ok (m !! key).
Proof.
  intros [Hok Hm]. destruct (Find_returns h key (ho_placed _ Hok)) as [r Hr]. rewrite Hr. f_equal.
  apply option_eq. intros x. rewrite Hm. by apply (Find_Some h key r (ho_placed _ Hok)).
Qed.

Lemma IsInTable_ok h m key : hash_rep h m -> IsInTable getKey hash h key = Ok (bool_decide (is_Some (m !! key))).
Proof. intros Hr. unfold IsInTable. by rewrite (hash_Find_ok _ m). Qed.

(** ** Placing an item *)
Lemma put_ok h item :
  placed h -> getKey item ∉ getKey <$> contents h ->
  exists h', put getKey hash h item = Ok h' /\ placed h' /\ contents h' ≡ₚ item :: contents h /\
    numBuckets h' = numBuckets h /\ numItems h' = numItems h.
Proof.
  intros Hp Hnew. unfold put. rewrite HashValue_ok by done. cbn [mbind outcome_bind].
  destruct (bucket_at h (getKey item) Hp) as (xs & Hxs & ->). cbn [mbind outcome_bind].
  assert (item ∉ xs) as Hnin.
  { intros Hin. apply Hnew. apply list_elem_of_fmap. exists item. split; [done|]. by eapply bucket_contents. }
  unfold Spec.append. rewrite bool_decide_eq_true_2 by done. cbn [ASSERT mbind outcome_bind].
  pose proof (slot_lt h (getKey item) Hp) as Hlt. rewrite arr_set_lt by lia. cbn [mbind outcome_bind]. rewrite Nat2Z.id.
  eexists. split; [done|].
  destruct (concat_insert _ _ _ (xs ++ [item]) Hxs) as (l1 & l2 & E1 & E2).
  assert (concat (<[slot h (getKey item) := xs ++ [item]]> (buckets h)) ≡ₚ item :: concat (buckets h)) as Hperm.
  { rewrite E1, E2. rewrite <- !app_assoc. cbn. by rewrite <- !Permutation_middle. }
  split_and!; [|exact Hperm|done|done]. destruct Hp as [Hs Hr Hb Hk]. split; cbn [numBuckets buckets].
  - by rewrite length_insert.
  - done.
  - intros i ys x Hi Hx. destruct (decide (i = slot h (getKey item))) as [->|Hne].
    + rewrite list_lookup_insert_eq in Hi by lia. injection Hi as <-. apply elem_of_app in Hx as [Hx|Hx].
      * by eapply Hb.
      * apply list_elem_of_singleton in Hx as ->. unfold slot. pose proof (Z.mod_pos_bound (hash (getKey item)) (numBuckets h)). lia.
    + rewrite list_lookup_insert_ne in Hi by done. by eapply Hb.
  - unfold contents. cbn [buckets]. rewrite Hperm. cbn. by constructor.
Qed.

Lemma drain_ok xs h :
  placed h -> NoDup (getKey <$> (xs ++ contents h)) ->
  exists h', drain getKey hash xs h = Ok h' /\ placed h' /\ contents h' ≡ₚ xs ++ contents h /\
    numBuckets h' = numBuckets h /\ numItems h' = numItems h.
Proof.
  revert h. induction xs as [|x xs IH]; intros h Hp Hnd; cbn [drain]; [by exists h|].
  cbn [app fmap list_fmap] in Hnd. apply NoDup_cons in Hnd as [Hx Hnd]. rewrite fmap_app in Hx.
  destruct (put_ok h x Hp) as (h1 & -> & Hp1 & Hc1 & E1 & E2); [set_solver|]. cbn [mbind outcome_bind].
  destruct (IH h1 Hp1) as (h2 & -> & Hp2 & Hc2 & E3 & E4).
  { rewrite Hc1. rewrite <- Permutation_middle. cbn. constructor; [by rewrite fmap_app|done]. }
  exists h2. split_and!; [done|done| |congruence|congruence]. rewrite Hc2, Hc1. by rewrite <- Permutation_middle.
Qed.

(** ** The self check *)
Lemma check_items_ok h i xs :
  placed h -> buckets h !! i = Some xs -> check_items getKey hash h (Z.of_nat i) xs = Ok tt.
Proof.
  intros Hp Hi. assert (forall x, x ∈ xs -> Z.of_nat i = hash (getKey x) mod numBuckets h) as Hall by (intros; by eapply pl_bucket).
  clear Hi. unfold check_items. induction xs as [|x xs IH]; [done|]. cbn [foldr]. rewrite HashValue_ok by done. cbn [mbind outcome_bind].
  replace (Z.of_nat i =? Z.of_nat (slot h (getKey x))) with true.
  - cbn [ASSERT mbind outcome_bind]. apply IH. intros. apply Hall. by right.
  - symmetry. apply Z.eqb_eq. unfold slot. rewrite <- (Hall x) by by left. lia.
Qed.

Lemma length_concat_take {A} (bs : list (list A)) n : (length (concat (take n bs)) <= length (concat bs))%nat.
Proof. rewrite <- (take_drop n bs) at 2. rewrite concat_app, length_app. lia. Qed.

Lemma hash_SanityCheck_ok h : hash_ok h -> SanityCheck getKey hash h = Ok tt.
Proof.
  intros [Hp Hc Hr]. pose proof (pl_size _ Hp) as Hs. unfold SanityCheck.
  destruct (for_range_ind (fun i n => n = Z.of_nat (length (concat (take (Z.to_nat i) (buckets h)))))
    (fun i n => xs ← arr_get (buckets h) i; n ← int_add n (Z.of_nat (length xs)); _ ← check_items getKey hash h i xs; Ok n)
    0 (numBuckets h) 0) as (n & -> & ->); [pose proof (pl_range _ Hp); lia|done| |].
  - intros i n Hi ->. destruct (arr_get_lt (buckets h) i) as (xs & Hxs & ->); [lia|]. cbn [mbind outcome_bind].
    assert (length (concat (take (Z.to_nat (i + 1)) (buckets h))) = length (concat (take (Z.to_nat i) (buckets h))) + length xs)%nat as E.
    { replace (Z.to_nat (i + 1)) with (S (Z.to_nat i)) by lia. rewrite (take_S_r _ _ _ Hxs), concat_app, length_app. cbn. rewrite app_nil_r. lia. }
    pose proof (length_concat_take (buckets h) (Z.to_nat (i + 1))). unfold contents in Hc.
    rewrite int_add_Ok by (unfold is_int; lia). cbn [mbind outcome_bind].
    pose proof (check_items_ok h (Z.to_nat i) xs Hp Hxs) as Hck. rewrite Z2Nat.id in Hck by lia. rewrite Hck. cbn [mbind outcome_bind].
    eexists. split; [done|]. lia.
  - cbn [mbind outcome_bind]. rewrite Hs, Nat2Z.id, firstn_all. unfold contents in Hc. by rewrite Hc, Z.eqb_refl.
Qed.

(** [ReHash] keeps every item, in four times as many buckets. *)
Lemma ReHash_ok h :
  hash_ok h -> numBuckets h * IncreaseSizeBy < 2 ^ 31 ->
  exists h', ReHash getKey hash h = Ok h' /\ hash_ok h' /\ contents h' ≡ₚ contents h /\
    numBuckets h' = numBuckets h * IncreaseSizeBy /\ numItems h' = numItems h.
Proof.
  intros Hok Hbig. destruct Hok as [Hp Hc Hr]. unfold ReHash. rewrite hash_SanityCheck_ok by done. cbn [mbind outcome_bind].
  rewrite (proj2 (Z.ltb_lt _ _) Hbig). cbn [mbind outcome_bind].
  pose proof (pl_size _ Hp) as Hs. pose proof (pl_range _ Hp) as Hrg. unfold IncreaseSizeBy in *.
  assert (forall n, contents (InitBuckets n h) = []) as Hempty.
  { intros n. unfold contents. cbn. induction (Z.to_nat n); [done|done]. }
  destruct (for_range_ind (fun i h' => placed h' /\ contents h' ≡ₚ concat (take (Z.to_nat i) (buckets h)) /\
      numBuckets h' = numBuckets h * 4 /\ numItems h' = numItems h)
    (fun i h' => xs ← arr_get (buckets h) i; drain getKey hash xs h') 0 (numBuckets h) (InitBuckets (numBuckets h * 4) h))
    as (h' & -> & Hp' & Hc' & Hn' & Hi'); [lia| | |].
  - split_and!; [|by rewrite Hempty|done|done]. split; cbn [InitBuckets numBuckets buckets].
    + rewrite length_replicate. lia.
    + lia.
    + intros i xs x Hxs Hx. apply lookup_replicate in Hxs as [-> _]. set_solver.
    + rewrite Hempty. constructor.
  - intros i h1 Hi (Hp1 & Hc1 & Hn1 & Hi1). destruct (arr_get_lt (buckets h) i) as (xs & Hxs & ->); [lia|]. cbn [mbind outcome_bind].
    assert (concat (take (Z.to_nat (i + 1)) (buckets h)) = concat (take (Z.to_nat i) (buckets h)) ++ xs) as Et.
    { replace (Z.to_nat (i + 1)) with (S (Z.to_nat i)) by lia. rewrite (take_S_r _ _ _ Hxs), concat_app. cbn. by rewrite app_nil_r. }
    destruct (drain_ok xs h1 Hp1) as (h2 & -> & Hp2 & Hc2 & Hn2 & Hi2).
    { rewrite Hc1. rewrite (Permutation_app_comm xs), <- Et. pose proof (pl_keys _ Hp) as Hnd. unfold contents in Hnd.
      rewrite <- (take_drop (Z.to_nat (i + 1)) (buckets h)), concat_app, fmap_app in Hnd. by apply NoDup_app in Hnd as (? & _). }
    eexists. split; [done|]. split_and!; [done| |congruence|congruence]. rewrite Hc2, Hc1, Et. apply Permutation_app_comm.
  - cbn [mbind outcome_bind]. rewrite Hs, Nat2Z.id, firstn_all in Hc'.
    assert (hash_ok h') as Hok'. { split; [done| |lia]. rewrite Hi', Hc. unfold contents at 1. rewrite <- Hc'. done. }
    rewrite hash_SanityCheck_ok by done. eauto 10.
Qed.
(** ** Insertion and removal *)
Lemma rep_keys h m key : hash_rep h m -> key ∈ getKey <$> contents h <-> is_Some (m !! key).
Proof.
  intros [_ Hm]. rewrite list_elem_of_fmap. split.
  - intros (x & -> & Hx). exists x. by apply Hm.
  - intros [x Hx]. apply Hm in Hx as [? <-]. eauto.
Qed.

Lemma rep_add h h' m item :
  hash_rep h m -> m !! getKey item = None -> hash_ok h' -> contents h' ≡ₚ item :: contents h ->
  hash_rep h' (<[getKey item := item]> m).
Proof.
  intros [_ Hm] Hnone Hok Hc. split; [done|]. intros key x. rewrite Hc, elem_of_cons.
  destruct (decide (getKey item = key)) as [<-|Hne].
  - rewrite lookup_insert_eq. split; [intros [= <-]; auto|]. intros [[->|Hin] Hk]; [done|].
    assert (m !! getKey item = Some x) by by apply Hm. congruence.
  - rewrite lookup_insert_ne, Hm by done. naive_solver.
Qed.

Lemma hash_Insert_ok h m item :
  hash_rep h m -> m !! getKey item = None -> numItems h + 1 < 2 ^ 31 -> numBuckets h * IncreaseSizeBy < 2 ^ 31 ->
  exists h', Insert getKey hash h item = Ok h' /\ hash_rep h' (<[getKey item := item]> m) /\ numItems h' = numItems h + 1 /\
    numBuckets h' <= numBuckets h * IncreaseSizeBy /\ 3 * numBuckets h' <= Z.max (4 * numItems h) (3 * numBuckets h).
Proof.
  intros Hrep Hnone Hi Hb. pose proof Hrep as [Hok Hm]. pose proof (pl_range _ (ho_placed _ Hok)) as Hrg. unfold Insert.
  rewrite (IsInTable_ok h m) by done. cbn [mbind outcome_bind]. rewrite Hnone, bool_decide_eq_false_2 by (by intros [? [=]]).
  cbn [negb ASSERT mbind outcome_bind]. rewrite (proj2 (Z.eqb_neq _ _)) by lia. cbn [mbind outcome_bind].
  assert (exists h1, (if ResizeRatio <=? Z.quot (numItems h) (numBuckets h) then ReHash getKey hash h else Ok h) = Ok h1 /\
    hash_ok h1 /\ contents h1 ≡ₚ contents h /\ numItems h1 = numItems h /\ numBuckets h1 <= numBuckets h * IncreaseSizeBy /\
    3 * numBuckets h1 <= Z.max (4 * numItems h) (3 * numBuckets h)) as (h1 & -> & Hok1 & Hc1 & En1 & Eb1 & Er1).
  { unfold ResizeRatio, IncreaseSizeBy in *. destruct (Z.leb_spec 3 (Z.quot (numItems h) (numBuckets h))) as [Hge|].
    - destruct (ReHash_ok h Hok Hb) as (h1 & -> & ? & ? & Hn1 & ?). exists h1. unfold IncreaseSizeBy in Hn1. split_and!; [done..|lia|].
      assert (3 * numBuckets h <= numItems h); [|lia]. pose proof (ho_count _ Hok). rewrite Z.quot_div_nonneg in Hge by lia.
      pose proof (Z.mul_div_le (numItems h) (numBuckets h)). nia.
    - exists h. split_and!; [done..|lia|lia]. }
  cbn [mbind outcome_bind].
  destruct (put_ok h1 item (ho_placed _ Hok1)) as (h2 & -> & Hp2 & Hc2 & Eb2 & En2).
  { rewrite Hc1, (rep_keys h m) by done. rewrite Hnone. by intros [? [=]]. }
  cbn [mbind outcome_bind]. pose proof (ho_count _ Hok) as Hcount. rewrite int_add_Ok by (unfold is_int; lia). cbn [mbind outcome_bind].
  set (h3 := mkHash (buckets h2) (numBuckets h2) (numItems h2 + 1)).
  assert (hash_rep h3 (<[getKey item := item]> m)) as Hrep3.
  { eapply rep_add; [done|done| |].
    - split; [by destruct Hp2|change (contents h3) with (contents h2)|cbn; lia]. rewrite Hc2, Hc1. cbn. lia.
    - change (contents h3) with (contents h2). by rewrite Hc2, Hc1. }
  rewrite (IsInTable_ok h3 (<[getKey item := item]> m)) by done. rewrite lookup_insert_eq. rewrite bool_decide_eq_true_2 by eauto.
  cbn [ASSERT mbind outcome_bind]. exists h3. split_and!; [done|done|cbn; lia|cbn; lia|cbn; lia].
Qed.

Lemma filter_remove {A} `{EqDecision A} (xs : list A) (x : A) : NoDup xs -> x ∈ xs -> xs ≡ₚ x :: filter (fun y => y <> x) xs.
Proof.
  induction xs as [|y xs IH]; intros Hnd Hx; [set_solver|]. apply NoDup_cons in Hnd as [Hy Hnd]. rewrite filter_cons.
  destruct (decide (y = x)) as [->|Hne].
  - rewrite decide_False by tauto. by rewrite filter_all by (intros z Hz ->; done).
  - rewrite decide_True by done. rewrite Permutation_swap. constructor. apply IH; [done|]. set_solver.
Qed.

Lemma hash_Remove_ok h m key x :
  hash_rep h m -> m !! key = Some x ->
  exists h', Remove getKey hash h key = Ok (h', x) /\ hash_rep h' (delete key m) /\ numItems h' = numItems h - 1 /\
    numBuckets h' = numBuckets h.
Proof.
  intros Hrep Hx. pose proof Hrep as [Hok Hm]. pose proof (ho_placed _ Hok) as Hp. pose proof (proj1 (Hm key x) Hx) as [Hin Hkey].
  unfold Remove. rewrite HashValue_ok by done. cbn [mbind outcome_bind].
  pose proof (hash_Find_ok h m key Hrep) as Hf. unfold Find in Hf. rewrite HashValue_ok in Hf by done. cbn [mbind outcome_bind] in Hf.
  rewrite Hf, Hx. cbn [mbind outcome_bind].
  destruct (bucket_at h key Hp) as (xs & Hxs & ->). cbn [mbind outcome_bind].
  assert (x ∈ xs) as Hinx. { destruct (contents_bucket h x Hp Hin) as (ys & Hys & ?). rewrite Hkey in Hys. congruence. }
  unfold Spec.remove. rewrite bool_decide_eq_true_2 by done. cbn [ASSERT mbind outcome_bind].
  pose proof (slot_lt h key Hp) as Hlt. rewrite arr_set_lt by lia. cbn [mbind outcome_bind]. rewrite Nat2Z.id.
  destruct Hok as [_ Hc Hr]. assert (0 < length (contents h))%nat by (destruct (contents h); [set_solver|cbn; lia]).
  rewrite int_add_Ok by (unfold is_int; lia). cbn [mbind outcome_bind].
  set (h2 := mkHash _ (numBuckets h) (numItems h + -1)).
  assert (contents h ≡ₚ x :: contents h2) as Hperm.
  { destruct (concat_insert _ _ _ (filter (fun y => y <> x) xs) Hxs) as (l1 & l2 & E1 & E2). unfold contents, h2. cbn [buckets]. rewrite E1, E2.
    rewrite Permutation_middle. apply Permutation_app_head. rewrite app_comm_cons. apply Permutation_app_tail.
    apply filter_remove; [|done]. eapply NoDup_fmap_1. by eapply bucket_keys. }
  assert (NoDup (getKey <$> x :: contents h2)) as [Hx2 Hnd2]%NoDup_cons by (rewrite <- Hperm; apply Hp).
  assert (hash_ok h2) as Hok2.
  { split; [|rewrite Hperm in Hc; cbn in *; lia|cbn; lia]. destruct Hp as [Hs Hrg Hb _]. split; unfold h2; cbn [numBuckets buckets]; [by rewrite length_insert|done| |done].
    intros i ys y Hi Hy. destruct (decide (i = slot h key)) as [->|Hne].
    - rewrite list_lookup_insert_eq in Hi by lia. injection Hi as <-. apply list_elem_of_filter in Hy as [_ Hy]. by eapply Hb.
    - rewrite list_lookup_insert_ne in Hi by done. by eapply Hb. }
  assert (hash_rep h2 (delete key m)) as Hrep2.
  { split; [done|]. intros k y. rewrite lookup_delete_Some, Hm, Hperm, elem_of_cons. split.
    - intros (Hne & [->|?] & <-); [congruence|done].
    - intros [Hy <-]. split_and!; [|by right|done]. rewrite <- Hkey. intros E. apply Hx2. rewrite E. by apply list_elem_of_fmap_2. }
  rewrite (IsInTable_ok h2 (delete key m)) by done. rewrite lookup_delete_eq, bool_decide_eq_false_2 by (by intros [? [=]]).
  cbn [negb ASSERT mbind outcome_bind]. exists h2. split_and!; [done|done|cbn; lia|done].
Qed.
(** ** Iteration *)

(** What an iterator has still to visit. *)
Inductive iter_rep h : HashIterator T -> list T -> Prop :=
  | iter_done : iter_rep h (mkIter (numBuckets h) None) []
  | iter_at (b : nat) x xs : (b < length (buckets h))%nat ->
      iter_rep h (mkIter (Z.of_nat b) (Some (x :: xs))) (x :: xs ++ concat (drop (S b) (buckets h))).

Lemma concat_drop_cons {A} (bs : list (list A)) i xs : bs !! i = Some xs -> concat (drop i bs) = xs ++ concat (drop (S i) bs).
Proof. intros Hi. by rewrite (drop_S _ _ _ Hi). Qed.

Lemma next_bucket_ok h (start : nat) :
  placed h -> (start <= length (buckets h))%nat ->
  exists it, (b ← FindNextFullBucket h (Z.of_nat start); bucket_iter h b) = Ok it /\ iter_rep h it (concat (drop start (buckets h))).
Proof.
  intros Hp Hst. pose proof (pl_size _ Hp) as Hs. unfold FindNextFullBucket.
  destruct (for_until_ind (fun i (_ : unit) => concat (drop start (buckets h)) = concat (drop (Z.to_nat i) (buckets h)))
    (fun b => 0 <= b < numBuckets h /\ concat (drop start (buckets h)) = concat (drop (Z.to_nat b) (buckets h)) /\
       buckets h !! Z.to_nat b <> Some [])
    (fun bucket (_ : unit) => xs ← arr_get (buckets h) bucket; Ok (match xs with [] => inl tt | _ => inr bucket end))
    (Z.of_nat start) (numBuckets h) tt) as (r & -> & Hr); [lia|by rewrite Nat2Z.id| |].
  - intros i [] Hi Hd. destruct (arr_get_lt (buckets h) i) as (xs & Hxs & ->); [lia|]. cbn [mbind outcome_bind]. eexists. split; [done|].
    destruct xs as [|x xs].
    + rewrite Hd, (concat_drop_cons _ _ _ Hxs). cbn. f_equal. f_equal. lia.
    + split_and!; [lia|lia|done|congruence].
  - cbn [mbind outcome_bind]. destruct r as [[]|b].
    + replace (Z.max (Z.of_nat start) (numBuckets h)) with (numBuckets h) by lia. unfold bucket_iter. rewrite Z.ltb_irrefl.
      eexists. split; [done|]. rewrite Hr. rewrite drop_ge by lia. constructor.
    + destruct Hr as (Hb & Hd & Hne). unfold bucket_iter. rewrite (proj2 (Z.ltb_lt _ _)) by lia.
      destruct (arr_get_lt (buckets h) b) as (xs & Hxs & ->); [lia|]. cbn [mbind outcome_bind]. eexists. split; [done|].
      rewrite Hd, (concat_drop_cons _ _ _ Hxs). destruct xs as [|x xs]; [done|].
      replace b with (Z.of_nat (Z.to_nat b)) at 1 by lia. constructor. lia.
Qed.

Lemma iterate_ok h it rem : placed h -> iter_rep h it rem -> iterate (length rem) h it = Ok rem.
Proof.
  intros Hp. pose proof (pl_size _ Hp) as Hs. revert it. induction rem as [|x rem IH]; intros it Hit.
  - inversion Hit; subst. cbn. unfold IsDone. cbn. by rewrite Z.eqb_refl.
  - inversion Hit as [|b y xs Hb]; subst. cbn [length iterate].
    assert (forall o, IsDone h (mkIter (Z.of_nat b) o) = false) as Hnd by (intros; unfold IsDone; cbn; lia).
    rewrite Hnd. unfold Item. rewrite Hnd. cbn [negb ASSERT mbind outcome_bind bucketIter].
    destruct xs as [|x2 xs].
    + unfold Next. cbn [bucketIter it_bucket]. replace (Z.of_nat b + 1) with (Z.of_nat (S b)) by lia.
      destruct (next_bucket_ok h (S b) Hp) as (it' & -> & Hit'); [lia|]. cbn [mbind outcome_bind app] in *. by rewrite (IH it').
    + cbn [Next bucketIter mbind outcome_bind it_bucket app] in *. rewrite IH; [done|]. by constructor.
Qed.

Lemma Apply_ok h : placed h -> Apply h = Ok (contents h).
Proof.
  intros Hp. pose proof (pl_size _ Hp) as Hs. pose proof (pl_range _ Hp). unfold Apply.
  destruct (for_range_ind (fun i seen => seen = concat (take (Z.to_nat i) (buckets h)))
    (fun i seen => xs ← arr_get (buckets h) i; Ok (seen ++ xs)) 0 (numBuckets h) []) as (seen & -> & ->); [lia|done| |].
  - intros i seen Hi ->. destruct (arr_get_lt (buckets h) i) as (xs & Hxs & ->); [lia|]. eexists. split; [done|].
    replace (Z.to_nat (i + 1)) with (S (Z.to_nat i)) by lia. rewrite (take_S_r _ _ _ Hxs), concat_app. cbn. by rewrite app_nil_r.
  - by rewrite Hs, Nat2Z.id, firstn_all.
Qed.

Lemma newHashTable_rep : hash_rep newHashTable (∅ : gmap Key T).
Proof.
  split; [split; [|done|done]; split; cbn [newHashTable InitBuckets numBuckets buckets]|].
  - done.
  - done.
  - intros i xs x Hi Hx. apply lookup_replicate in Hi as [-> _]. set_solver.
  - constructor.
  - intros key x. rewrite lookup_empty. split; [done|]. intros [Hx _]. cbn in Hx. set_solver.
Qed.

(** Filling a new table never fails for fewer than 2^28 different keys. *)
Definition insert_all (xs : list T) : outcome (HashTable T) :=
  foldl (fun (r : outcome (HashTable T)) x => h ← r; Insert getKey hash h x) (Ok newHashTable) xs.

Lemma insert_all_ok xs :
  NoDup (getKey <$> xs) -> Z.of_nat (length xs) < 2 ^ 28 ->
  exists h m, insert_all xs = Ok h /\ hash_rep h m /\ (forall key, is_Some (m !! key) <-> key ∈ getKey <$> xs) /\
    numItems h = Z.of_nat (length xs) /\ 3 * numBuckets h <= Z.max (4 * numItems h) 12.
Proof.
  unfold insert_all. induction xs as [|x xs IH] using rev_ind; intros Hnd Hlen.
  - exists newHashTable, ∅. split_and!; [done|apply newHashTable_rep| |done|done].
    intros key. rewrite lookup_empty. cbn. split; [by intros [? [=]]|set_solver].
  - rewrite length_app in *. cbn [length] in *. rewrite fmap_app in *. cbn [fmap list_fmap] in *. apply NoDup_app in Hnd as (Hnd & Hx & _).
    destruct IH as (h & m & E & Hrep & Hkeys & Hn & Hb); [done|lia|]. rewrite foldl_snoc, E. cbn [mbind outcome_bind].
    destruct (hash_Insert_ok h m x) as (h' & -> & Hrep' & Hn' & _ & Hb'); [done| |lia|unfold IncreaseSizeBy; lia|].
    { apply eq_None_not_Some. rewrite Hkeys. intros Hin. apply (Hx _ Hin). set_solver. }
    exists h', (<[getKey x := x]> m). split_and!; [done|done| |lia|lia].
    intros key. rewrite lookup_insert_is_Some', Hkeys. set_solver.
Qed.

(** C31: the hash table implements a finite map.  A table that represents [m]
    finds exactly what [m] holds; inserts a new key, growing the array and
    moving every item when the buckets are full, and stops in its assertion for
    a key that is there; removes and returns the item of a key that is there
    and stops in its assertion for one that is not; is empty exactly when [m]
    is; and passes [SanityCheck].  The numbers of items and buckets must stay
    below 2^31. *)
Theorem hash_refines_map h m key item :
  hash_rep h m -> numItems h + 1 < 2 ^ 31 -> numBuckets h * IncreaseSizeBy < 2 ^ 31 ->
  Find getKey hash h key = Ok (m !! key) /\
  match m !! getKey item with
  | None => exists h', Insert getKey hash h item = Ok h' /\ hash_rep h' (<[getKey item := item]> m)
  | Some _ => Insert getKey hash h item = Err AssertFailed
  end /\
  match m !! key with
  | Some x => exists h', Remove getKey hash h key = Ok (h', x) /\ hash_rep h' (delete key m)
  | None => Remove getKey hash h key = Err AssertFailed
  end /\
  (IsEmpty h = true <-> m = ∅) /\ SanityCheck getKey hash h = Ok tt.
Proof.
  intros Hrep Hi Hb. pose proof Hrep as [Hok Hm]. split_and!.
  - by apply hash_Find_ok.
  - destruct (m !! getKey item) eqn:E.
    + unfold Insert. rewrite (IsInTable_ok h m) by done. cbn [mbind outcome_bind]. rewrite E. by rewrite bool_decide_eq_true_2 by eauto.
    + destruct (hash_Insert_ok h m item) as (h' & ? & ? & _); eauto.
  - destruct (m !! key) as [x|] eqn:E.
    + destruct (hash_Remove_ok h m key x) as (h' & ? & ? & _); eauto.
    + unfold Remove. pose proof (hash_Find_ok h m key Hrep) as Hf. unfold Find in Hf. rewrite HashValue_ok in Hf |- * by apply Hok.
      cbn [mbind outcome_bind] in *. by rewrite Hf, E.
  - unfold IsEmpty. rewrite Z.eqb_eq, (ho_count _ Hok). split.
    + intros Hl. assert (contents h = []) as E by (destruct (contents h); [done|cbn in Hl; lia]).
      apply map_empty. intros k. destruct (m !! k) as [x|] eqn:Ek; [|done]. apply Hm in Ek as [Hx _]. rewrite E in Hx. set_solver.
    + intros ->. destruct (contents h) as [|x l] eqn:E; [done|]. exfalso.
      assert ((∅ : gmap Key T) !! getKey x = Some x) as Hx by (apply Hm; split; [left|done]). done.
  - by apply hash_SanityCheck_ok.
Qed.

(** C32: stepping through a table ends.  The loop over a [HashIterator] stops
    after exactly as many steps as there are items, having visited every item of
    the map once, in the order in which [Apply] does; empty buckets, at the start
    or at the end too, are skipped. *)
Theorem hash_iteration_ends h m :
  hash_rep h m ->
  exists it, newIterator h = Ok it /\ iterate (Z.to_nat (numItems h)) h it = Ok (contents h) /\ Apply h = Ok (contents h) /\
    NoDup (contents h) /\ forall x, x ∈ contents h <-> m !! getKey x = Some x.
Proof.
  intros [Hok Hm]. pose proof (ho_placed _ Hok) as Hp. destruct (next_bucket_ok h 0 Hp) as (it & Hit & Hrep); [lia|].
  exists it. split_and!.
  - exact Hit.
  - rewrite (ho_count _ Hok), Nat2Z.id. rewrite drop_0 in Hrep. by apply iterate_ok.
  - by apply Apply_ok.
  - eapply NoDup_fmap_1, Hp.
  - intros x. rewrite Hm. tauto.
Qed.
End correctness.

(** ** The test of libtest.cc *)

(** [HashInt], and the strings of [hashTestVector] by their values ([HashKey] is
    [atoi]). *)
Definition HashInt (key : Z) : Z := to_uint key.
Definition hashTestVector : list Z := seqZ 0 15.

Lemma HashInt_uint key : is_uint (HashInt key).
Proof. apply to_uint_range. Qed.

(** The test of [LibSelfTest] passes on the sixteen-bucket table that inserting
    its fifteen strings leaves, and the table can then be deleted. *)
Lemma hash_selftest_passes :
  (h ← SelfTest id HashInt hashTestVector newHashTable; deleteHashTable h) = Ok tt /\
  match insert_all id HashInt hashTestVector with Ok h => numBuckets h = 16 | Err _ => False end.
Proof. by vm_compute. Qed.

(** Twelve items fill four buckets: the next insertion expands the table. *)
Lemma hash_refines_map_witness :
  exists h m, numBuckets h = 4 /\ numItems h = 12 /\ hash_rep id HashInt h m /\ m !! 20 = None /\
    (exists h', Insert id HashInt h 20 = Ok h' /\ numBuckets h' = 16 /\ hash_rep id HashInt h' (<[20 := 20]> m)) /\
    Insert id HashInt h 3 = Err AssertFailed /\ Remove id HashInt h 20 = Err AssertFailed.
Proof.
  destruct (insert_all_ok id HashInt HashInt_uint (seqZ 0 12)) as (h & m & E & Hrep & Hkeys & _ & _).
  { rewrite list_fmap_id. apply NoDup_seqZ. }
  { done. }
  assert (numBuckets h = 4 /\ numItems h = 12) as [Hb Hn] by (vm_compute in E; by injection E as <-).
  assert (m !! 20 = None) as H20. { apply eq_None_not_Some. rewrite Hkeys, list_fmap_id. intros ?%elem_of_seqZ. lia. }
  assert (is_Some (m !! 3)) as [y H3]. { rewrite Hkeys, list_fmap_id. apply elem_of_seqZ. lia. }
  destruct (hash_refines_map id HashInt HashInt_uint h m 20 20 Hrep) as (_ & Hins & Hrem & _); [lia|rewrite Hb; done|].
  destruct (hash_refines_map id HashInt HashInt_uint h m 20 3 Hrep) as (_ & Hins3 & _); [lia|rewrite Hb; done|].
  cbn [id] in *. rewrite H20 in *. rewrite H3 in Hins3. destruct Hins as (h' & Eh & Hrep').
  exists h, m. do 4 (split; [assumption|]). split; [|split; assumption].
  exists h'. split; [exact Eh|]. split; [|exact Hrep'].
  vm_compute in E. injection E as <-. vm_compute in Eh. by injection Eh as <-.
Defined.

Lemma hash_iteration_ends_witness :
  exists h it, insert_all id HashInt [0; 1; 2; 5] = Ok h /\ newIterator h = Ok it /\ iterate 4 h it = Ok [0; 1; 5; 2].
Proof.
  destruct (insert_all_ok id HashInt HashInt_uint [0; 1; 2; 5]) as (h & m & E & Hrep & _).
  { apply (bool_decide_unpack _). by vm_compute. }
  { done. }
  destruct (hash_iteration_ends id HashInt h m Hrep) as (it & Hit & Hall & _). exists h, it.
  vm_compute in E. injection E as <-. split_and!; [by vm_compute|done|exact Hall].
Defined.
