(* ===== verification/Stacks.v ===== *)
(** * The stacks of the C++ introduction (src/c++example)

    Three programs with one interface: stack.cc and templatestack.cc keep a
    stack in an array, inheritstack.cc has an abstract class with an array and a
    list below it, and a test routine that does not care which it is given.
    The abstract class is the type class [Stack]; [StackLaws] is what its
    documentation promises, and both implementations are instances.  The list of
    list.cc lives on a heap of cells, as in Lists.v. *)

From S2P Require Import Prelude Lists.
From stdpp Require Import strings.
Open Scope Z_scope.

(** ** The abstract class *)
Class Stack (S T : Type) := {
  Push : S -> T -> outcome S;
  Pop : S -> outcome (S * T);
  Full : S -> bool;
  Empty : S -> bool;
}.

(** What the programs print. *)
Inductive event (T : Type) :=
  | Pushing (value : T)
  | Popping (value : T)
  | Testing (what : string).
Arguments Pushing {T} value.
Arguments Popping {T} value.
Arguments Testing {T} what.

Section tests.
Context {S T : Type} `{Stack S T}.

(** [while (!Empty()) cout << "popping " << Pop() << "\n"] *)
Fixpoint pop_all (fuel : nat) (s : S) : outcome (S * list (event T)) :=
  if Empty s then Ok (s, [])
  else match fuel with
  | O => Err OutOfFuel
  | Datatypes.S fuel' =>
      '(s, v) ← Pop s;
      '(s, out) ← pop_all fuel' s;
      Ok (s, Popping v :: out)
  end.

(** [while (!Full()) { cout << "pushing " << count << "\n"; Push(count++); }];
    [succ] is [++] on a [T]. *)
Fixpoint push_until_full (succ : T -> outcome T) (fuel : nat) (count : T) (s : S) : outcome (S * list (event T)) :=
  if Full s then Ok (s, [])
  else match fuel with
  | O => Err OutOfFuel
  | Datatypes.S fuel' =>
      next ← succ count;
      s ← Push s count;
      '(s, out) ← push_until_full succ fuel' next s;
      Ok (s, Pushing count :: out)
  end.

(** [Stack<T>::SelfTest] of templatestack.cc. *)
Definition TemplateSelfTest (succ : T -> outcome T) (fuel : nat) (start : T) (s : S) : outcome (S * list (event T)) :=
  '(s, out) ← push_until_full succ fuel start s;
  '(s, out') ← pop_all fuel s;
  Ok (s, out ++ out').

End tests.

(** [Stack::SelfTest] of inheritstack.cc, for every derived class. *)
Definition InheritSelfTest {S} `{Stack S Z} (fuel : nat) (numToPush : Z) (s : S) : outcome (S * list (event Z)) :=
  '(s, count, out) ← for_range 0 numToPush (fun _ '(s, count, out) =>
    _ ← ASSERT (negb (Full s));
    next ← int_add count 1;
    s ← Push s count;
    Ok (s, next, out ++ [Pushing count])) (s, 17, []);
  '(s, out') ← pop_all fuel s;
  Ok (s, out ++ out').

(** ** As an array *)
Record ArrayStack (T : Type) := mkArrayStack {
  size : Z;
  top : Z;
  stack : list T;
}.
Arguments mkArrayStack {T} _ _ _.
Arguments size {T} _.
Arguments top {T} _.
Arguments stack {T} _.

Section array.
Context {T : Type}.
Implicit Types s : ArrayStack T.

(** The constructor; [uninit] is what the new array holds. *)
Definition newArrayStack (sz : Z) (uninit : list T) : outcome (ArrayStack T) :=
  _ ← ASSERT (1 <=? sz);
  Ok (mkArrayStack sz 0 uninit).

Definition ArrayFull s : bool := top s =? size s.
Definition ArrayEmpty s : bool := top s =? 0.

Definition ArrayPush s (value : T) : outcome (ArrayStack T) :=
  _ ← ASSERT (negb (ArrayFull s));
  a ← arr_set (stack s) (top s) value;
  Ok (mkArrayStack (size s) (top s + 1) a).

Definition ArrayPop s : outcome (ArrayStack T * T) :=
  _ ← ASSERT (negb (ArrayEmpty s));
  v ← arr_get (stack s) (top s - 1);
  Ok (mkArrayStack (size s) (top s - 1) (stack s), v).

Definition array_stack : Stack (ArrayStack T) T := {|
  Push := ArrayPush;
  Pop := ArrayPop;
  Full := ArrayFull;
  Empty := ArrayEmpty;
|}.
#[global] Existing Instance array_stack.
End array.

(** ** As a list (list.cc) *)
Record IntList := mkIntList {
  cells : gmap positive (ListElement Z);
  head : option positive;
  tail : option positive;
}.

Definition newIntList : IntList := mkIntList ∅ None None.
Definition ListEmpty (l : IntList) : bool := bool_decide (head l = None).

(** [List::Prepend] *)
Definition ListPrepend (l : IntList) (value : Z) : outcome IntList :=
  let '(h, element) := alloc (cells l) value in
  if ListEmpty l then Ok (mkIntList h (Some element) (Some element))
  else h ← set_next h (Some element) (head l); Ok (mkIntList h (Some element) (tail l)).

(** [List::Remove] *)
Definition ListRemove (l : IntList) : outcome (IntList * Z) :=
  let element := head l in
  _ ← ASSERT (negb (ListEmpty l));
  e ← load (cells l) (head l);
  let value := item e in
  let '(f, la) := if decide (head l = tail l) then (None, None) else (next e, tail l) in
  h ← free (cells l) element;
  Ok (mkIntList h f la, value).

(** [List::~List] *)
Fixpoint deleteIntList (fuel : nat) (l : IntList) : outcome IntList :=
  if ListEmpty l then Ok l
  else match fuel with
  | O => Err OutOfFuel
  | S fuel' => '(l, _) ← ListRemove l; deleteIntList fuel' l
  end.

(** [ListStack] *)
Definition ListStack : Type := IntList.
Definition newListStack : ListStack := newIntList.
Definition ListPush (s : ListStack) (value : Z) : outcome ListStack := ListPrepend s value.
Definition ListPop (s : ListStack) : outcome (ListStack * Z) :=
  _ ← ASSERT (negb (ListEmpty s));
  ListRemove s.
Definition ListFull (s : ListStack) : bool := false.

Definition list_stack : Stack ListStack Z := {|
  Push := ListPush;
  Pop := ListPop;
  Full := ListFull;
  Empty := ListEmpty;
|}.
#[export] Existing Instance list_stack.

(** ** The programs *)

(** The class of stack.cc has the text of the template, with [int] for [T]. *)
Module IntStack.

Definition newStack (sz : Z) (uninit : list Z) : outcome (ArrayStack Z) := newArrayStack sz uninit.
Definition Push : ArrayStack Z -> Z -> outcome (ArrayStack Z) := ArrayPush.
Definition Pop : ArrayStack Z -> outcome (ArrayStack Z * Z) := ArrayPop.
Definition Full : ArrayStack Z -> bool := ArrayFull.
Definition Empty : ArrayStack Z -> bool := ArrayEmpty.

(** [Stack::SelfTest] *)
Definition SelfTest (fuel : nat) (s : ArrayStack Z) : outcome (ArrayStack Z * list (event Z)) :=
  TemplateSelfTest (H := Build_Stack _ _ Push Pop Full Empty) (fun c => int_add c 1) fuel 17 s.

End IntStack.

(** [main] of stack.cc *)
Definition stack_main (uninit : list Z) : outcome (list (event Z)) :=
  s ← IntStack.newStack 10 uninit;
  '(_, out) ← IntStack.SelfTest 11 s;
  Ok out.

(** [main] of inheritstack.cc *)
Definition inherit_main (uninit : list Z) : outcome (list (event Z)) :=
  s1 ← newArrayStack 10 uninit;
  '(_, out1) ← InheritSelfTest 11 10 s1;
  '(s2, out2) ← InheritSelfTest 11 10 newListStack;
  _ ← deleteIntList 1 s2;
  Ok (Testing "ArrayStack" :: out1 ++ Testing "ListStack" :: out2).

(** [char] arithmetic wraps to the eight bits of the type. *)
Definition char_succ (c : Z) : outcome Z := Ok ((c + 1 + 128) mod 256 - 128).

(** [main] of templatestack.cc *)
Definition template_main (uninit uninit' : list Z) : outcome (list (event Z)) :=
  s1 ← newArrayStack 10 uninit;
  s2 ← newArrayStack 10 uninit';
  '(_, out1) ← TemplateSelfTest (fun c => int_add c 1) 11 17 s1;
  '(_, out2) ← TemplateSelfTest char_succ 11 97 s2;
  Ok (Testing "Stack<int>" :: out1 ++ Testing "Stack<char>" :: out2).

(** ** What the interface promises

    [rep s c xs]: the stack holds [xs], the top first, and has room for [c]
    elements ([None]: any number). *)
Definition has_room (c : option Z) (n : nat) : bool := match c with Some m => Z.of_nat n <? m | None => true end.

Class StackLaws (S T : Type) `{Stack S T} (rep : S -> option Z -> list T -> Prop) : Prop := {
  law_full s c xs : rep s c xs -> Full s = negb (has_room c (length xs));
  law_empty s c xs : rep s c xs -> Empty s = bool_decide (length xs = 0%nat);
  law_push s c xs v : rep s c xs ->
    if has_room c (length xs) then exists s', Push s v = Ok s' /\ rep s' c (v :: xs) else Push s v = Err AssertFailed;
  law_pop s c xs : rep s c xs ->
    match xs with
    | v :: xs' => exists s', Pop s = Ok (s', v) /\ rep s' c xs'
    | [] => Pop s = Err AssertFailed
    end;
}.

(** A client's calls and what it sees. *)
Inductive call (T : Type) :=
  | CPush (v : T)
  | CPop
  | CEmpty.
Arguments CPush {T} v.
Arguments CPop {T}.
Arguments CEmpty {T}.

Fixpoint run {S T} `{Stack S T} (s : S) (calls : list (call T)) : outcome (list (T + bool)) :=
  match calls with
  | [] => Ok []
  | CPush v :: rest => s ← Push s v; run s rest
  | CPop :: rest => '(s, v) ← Pop s; out ← run s rest; Ok (inl v :: out)
  | CEmpty :: rest => out ← run s rest; Ok (inr (Empty s) :: out)
  end.

(** The reference: a list with a bound. *)
Fixpoint run_list {T} (c : option Z) (xs : list T) (calls : list (call T)) : outcome (list (T + bool)) :=
  match calls with
  | [] => Ok []
  | CPush v :: rest => if has_room c (length xs) then run_list c (v :: xs) rest else Err AssertFailed
  | CPop :: rest =>
      match xs with
      | v :: xs' => out ← run_list c xs' rest; Ok (inl v :: out)
      | [] => Err AssertFailed
      end
  | CEmpty :: rest => out ← run_list c xs rest; Ok (inr (bool_decide (length xs = 0%nat)) :: out)
  end.

(** The calls never have more than [m] elements on the stack. *)
Fixpoint fits {T} (m : Z) (n : nat) (calls : list (call T)) : bool :=
  match calls with
  | [] => true
  | CPush _ :: rest => (Z.of_nat n <? m) && fits m (S n) rest
  | CPop :: rest => match n with O => true | S n' => fits m n' rest end
  | CEmpty :: rest => fits m n rest
  end.

Section clients.
Context {S T : Type} `{StackLaws S T rep}.

Lemma run_ok s c xs calls : rep s c xs -> run s calls = run_list c xs calls.
Proof.
  revert s xs. induction calls as [|[v| |] rest IH]; intros s xs Hr; cbn [run run_list]; [done|..].
  - pose proof (law_push s c xs v Hr) as Hp. destruct (has_room c (length xs)); [|by rewrite Hp].
    destruct Hp as (s' & -> & Hr'). cbn [mbind outcome_bind]. by apply IH.
  - pose proof (law_pop s c xs Hr) as Hp. destruct xs as [|v xs]; [by rewrite Hp|].
    destruct Hp as (s' & -> & Hr'). cbn [mbind outcome_bind]. by rewrite (IH s' xs).
  - rewrite (IH s xs Hr). by rewrite (law_empty s c xs Hr).
Qed.

Lemma pop_all_ok s c xs fuel :
  rep s c xs -> (length xs <= fuel)%nat -> exists s', pop_all fuel s = Ok (s', map Popping xs) /\ rep s' c [].
Proof.
  revert s fuel. induction xs as [|v xs IH]; intros s fuel Hr Hf.
  - exists s. split; [|done]. destruct fuel; cbn [pop_all]; by rewrite (law_empty s c [] Hr).
  - destruct fuel as [|fuel]; cbn [length] in Hf; [lia|]. cbn [pop_all]. rewrite (law_empty s c _ Hr).
    cbn [length]. rewrite bool_decide_false by lia. destruct (law_pop s c _ Hr) as (s1 & -> & Hr1). cbn [mbind outcome_bind].
    destruct (IH s1 fuel Hr1) as (s' & -> & Hr'); [lia|]. by exists s'.
Qed.

(** Filling an empty stack and emptying it again. *)
Lemma push_until_full_ok (succ : T -> outcome T) (vs : list T) s m xs fuel last_ :
  rep s (Some m) xs -> m = Z.of_nat (length xs + length vs) -> (length vs <= fuel)%nat ->
  (forall i v, (vs ++ [last_]) !! i = Some v -> forall w, (vs ++ [last_]) !! Datatypes.S i = Some w -> succ v = Ok w) ->
  exists s', push_until_full succ fuel (default last_ (vs !! 0%nat)) s = Ok (s', map Pushing vs) /\ rep s' (Some m) (reverse vs ++ xs).
Proof.
  revert s xs fuel. induction vs as [|v vs IH]; intros s xs fuel Hr Hm Hf Hs.
  - exists s. split; [|done]. cbn [length] in Hm.
    destruct fuel; cbn [push_until_full]; rewrite (law_full s _ xs Hr); cbn [has_room]; by rewrite (proj2 (Z.ltb_ge _ m)) by lia.
  - destruct fuel as [|fuel]; cbn [length] in *; [lia|]. cbn [push_until_full]. rewrite (law_full s _ xs Hr). cbn [has_room].
    rewrite (proj2 (Z.ltb_lt _ m)) by lia. cbn [negb lookup list_lookup default from_option id].
    assert (succ v = Ok (default last_ (vs !! 0%nat))) as ->.
    { apply (Hs 0%nat v eq_refl). by destruct vs. }
    cbn [mbind outcome_bind]. pose proof (law_push s _ xs v Hr) as Hp. cbn [has_room] in Hp. rewrite (proj2 (Z.ltb_lt _ m)) in Hp by lia.
    destruct Hp as (s1 & -> & Hr1). cbn [mbind outcome_bind].
    destruct (IH s1 (v :: xs) fuel) as (s' & -> & Hr'); [done|cbn [length]; lia|lia| |].
    { intros i u Hu w Hw. by apply (Hs (Datatypes.S i) u Hu w Hw). }
    exists s'. split; [done|]. by rewrite reverse_cons, <- app_assoc.
Qed.

End clients.

(** ** The array keeps the promise *)
Record array_rep {T} (s : ArrayStack T) (c : option Z) (xs : list T) : Prop := {
  ar_cap : c = Some (size s);
  ar_top : top s = Z.of_nat (length xs);
  ar_len : Z.of_nat (length (stack s)) = size s;
  ar_items : take (length xs) (stack s) = reverse xs;
}.

Lemma newArrayStack_ok {T} sz (uninit : list T) :
  1 <= sz -> Z.of_nat (length uninit) = sz ->
  exists s, newArrayStack sz uninit = Ok s /\ array_rep s (Some sz) [].
Proof.
  intros Hs Hl. unfold newArrayStack. rewrite (proj2 (Z.leb_le 1 sz)) by lia. cbn [ASSERT mbind outcome_bind].
  eexists. split; [reflexivity|]. by split.
Qed.

Lemma array_rep_room {T} (s : ArrayStack T) c xs :
  array_rep s c xs -> ArrayFull s = negb (has_room c (length xs)) /\ (length xs <= length (stack s))%nat.
Proof.
  intros [-> Ht Hl Hi]. assert (length xs <= length (stack s))%nat as Hle.
  { apply (f_equal length) in Hi. rewrite length_take, length_reverse in Hi. lia. }
  split; [|done]. unfold ArrayFull, has_room. rewrite Ht. destruct (Z.ltb_spec (Z.of_nat (length xs)) (size s)); cbn [negb]; lia.
Qed.

#[export] Instance array_stack_laws T : StackLaws (ArrayStack T) T array_rep.
Proof.
  split.
  - intros s c xs Hr. apply (array_rep_room s c xs Hr).
  - intros s c xs [_ Ht _ _]. cbn [Empty array_stack]. unfold ArrayEmpty. rewrite Ht. case_bool_decide; lia.
  - intros s c xs v Hr. destruct (array_rep_room s c xs Hr) as [Hf Hle]. destruct Hr as [-> Ht Hl Hi]. cbn [Push array_stack]. unfold ArrayPush. rewrite Hf.
    destruct (has_room _ _) eqn:Eroom; [|done]. cbn [negb ASSERT mbind outcome_bind has_room] in *.
    rewrite arr_set_lt by lia. cbn [mbind outcome_bind]. eexists. split; [reflexivity|]. rewrite Ht, Nat2Z.id.
    split; cbn [size top stack length]; [done|lia|by rewrite length_insert|]. rewrite reverse_cons, <- Hi.
    rewrite (take_S_r _ _ v) by (apply list_lookup_insert_eq; lia). by rewrite take_insert_ge by lia.
  - intros s c xs Hr. destruct (array_rep_room s c xs Hr) as [_ Hle]. destruct Hr as [-> Ht Hl Hi]. cbn [Pop array_stack]. unfold ArrayPop, ArrayEmpty.
    rewrite Ht. destruct xs as [|v xs]; [done|]. cbn [length] in *. rewrite (proj2 (Z.eqb_neq _ 0)) by lia. cbn [negb ASSERT mbind outcome_bind].
    assert (stack s !! length xs = Some v) as Hv.
    { rewrite reverse_cons in Hi. rewrite <- (lookup_take_lt _ (S (length xs))), Hi by lia.
      rewrite lookup_app_r by (rewrite length_reverse; lia). by rewrite length_reverse, Nat.sub_diag. }
    replace (Z.of_nat (S (length xs)) - 1) with (Z.of_nat (length xs)) by lia.
    rewrite (arr_get_Some _ _ v) by (rewrite ?Nat2Z.id; done || lia). cbn [mbind outcome_bind]. eexists. split; [reflexivity|].
    split; cbn [size top stack]; [done..|]. rewrite (take_S_r _ _ _ Hv), reverse_cons in Hi. by apply app_inj_tail in Hi as [? _].
Qed.

(** ** And so does the list *)
Definition counted (l : IntList) (n : Z) : LinkedList Z := mkList (cells l) (head l) (tail l) n.
Definition list_stack_rep (l : ListStack) (c : option Z) (xs : list Z) : Prop :=
  c = None /\ exists cs, list_cells (counted l (Z.of_nat (length cs))) cs /\ cs.*2 = xs.

Lemma newListStack_ok : list_stack_rep newListStack None [].
Proof. split; [done|]. exists []. split; [exact newList_ok|done]. Qed.

Lemma ListEmpty_ok l cs n : list_cells (counted l n) cs -> ListEmpty l = bool_decide (cs = []).
Proof.
  intros [_ _ Hs _ _]. cbn [first counted] in Hs. unfold ListEmpty. destruct cs as [|[a x] cs]; cbn [lseg] in Hs.
  - by rewrite Hs.
  - destruct Hs as [-> _]. done.
Qed.

Lemma ListPrepend_ok l cs x :
  list_cells (counted l (Z.of_nat (length cs))) cs ->
  exists l' a, ListPrepend l x = Ok l' /\ list_cells (counted l' (Z.of_nat (S (length cs)))) ((a, x) :: cs).
Proof.
  intros Hc. pose proof (link_first _ cs x Hc) as Hl. unfold ListPrepend, alloc. rewrite (ListEmpty_ok l cs _ Hc).
  cbn [heap first Lists.last numInList counted] in Hl. replace (Z.of_nat (length cs) + 1) with (Z.of_nat (S (length cs))) in Hl by lia.
  destruct cs as [|c cs].
  - rewrite bool_decide_true by done. rewrite (first_empty _ [] Hc eq_refl : head l = None) in Hl. eexists _, _. split; [reflexivity|exact Hl].
  - rewrite bool_decide_false by done. cbn [set_next load]. rewrite lookup_insert_eq. cbn [mbind outcome_bind item].
    rewrite insert_insert_eq. eexists _, _. split; [reflexivity|exact Hl].
Qed.

(** [Remove] is [RemoveFront] of the kernel's list without its counter. *)
Lemma ListRemove_front l n :
  ListEmpty l = (n =? 0) ->
  ListRemove l = '(l', x) ← RemoveFront (counted l n); Ok (mkIntList (heap l') (first l') (Lists.last l'), x).
Proof.
  intros He. unfold ListRemove, RemoveFront, IsEmpty. cbn [numInList heap first Lists.last counted]. rewrite He.
  destruct (ASSERT _); [|done]. cbn [mbind outcome_bind]. destruct (load _ _) as [e|]; [|done]. cbn [mbind outcome_bind].
  by destruct (decide (head l = tail l)), (free _ _).
Qed.

Lemma ListRemove_ok l a x cs :
  list_cells (counted l (Z.of_nat (S (length cs)))) ((a, x) :: cs) ->
  exists l', ListRemove l = Ok (l', x) /\ list_cells (counted l' (Z.of_nat (length cs))) cs.
Proof.
  intros Hc. rewrite (ListRemove_front l (Z.of_nat (S (length cs)))) by (rewrite (ListEmpty_ok l _ _ Hc), bool_decide_false by done; symmetry; apply Z.eqb_neq; lia).
  destruct (RemoveFront_ok _ a x cs Hc) as (l' & -> & Hc'). cbn [mbind outcome_bind]. eexists. split; [reflexivity|].
  unfold counted. cbn [cells head tail]. pose proof (lc_num _ _ Hc') as Hn. rewrite <- Hn. by destruct l'.
Qed.

#[export] Instance list_stack_laws : StackLaws ListStack Z list_stack_rep.
Proof.
  split.
  - intros s c xs [-> _]. done.
  - intros s c xs [-> (cs & Hc & <-)]. cbn [Empty list_stack]. rewrite (ListEmpty_ok s cs _ Hc), length_fmap. by destruct cs.
  - intros s c xs v [-> (cs & Hc & <-)]. cbn [has_room Push list_stack]. unfold ListPush.
    destruct (ListPrepend_ok s cs v Hc) as (l' & a & -> & Hc'). exists l'. split; [done|]. split; [done|]. by exists ((a, v) :: cs).
  - intros s c xs [-> (cs & Hc & <-)]. cbn [Pop list_stack]. unfold ListPop. rewrite (ListEmpty_ok s cs _ Hc).
    destruct cs as [|[a v] cs]; [done|]. rewrite bool_decide_false by done. cbn [fmap list_fmap snd negb ASSERT mbind outcome_bind].
    destruct (ListRemove_ok s a v cs Hc) as (l' & -> & Hc'). exists l'. split; [done|]. split; [done|]. by exists cs.
Qed.

(** Deleting a list frees every cell. *)
Lemma deleteIntList_ok l cs fuel :
  list_cells (counted l (Z.of_nat (length cs))) cs -> (length cs <= fuel)%nat ->
  exists l', deleteIntList fuel l = Ok l' /\ cells l' = ∅.
Proof.
  revert l fuel. induction cs as [|[a x] cs IH]; intros l fuel Hc Hf.
  - exists l. split; [destruct fuel; cbn [deleteIntList]; by rewrite (ListEmpty_ok l _ _ Hc)|].
    apply dom_empty_inv_L. apply (lc_dom _ _ Hc).
  - cbn [length] in *. destruct fuel as [|fuel]; [lia|]. cbn [deleteIntList]. rewrite (ListEmpty_ok l _ _ Hc), bool_decide_false by done.
    destruct (ListRemove_ok l a x cs Hc) as (l1 & -> & Hc1). cbn [mbind outcome_bind]. apply (IH l1 fuel Hc1). lia.
Qed.

(** ** The two implementations are the same stack *)

(** While the calls fit the bound, a bounded list and an unbounded one behave
    alike. *)
Lemma run_list_fits {T} m (xs : list T) calls :
  fits m (length xs) calls = true -> run_list (Some m) xs calls = run_list None xs calls.
Proof.
  revert xs. induction calls as [|[v| |] rest IH]; intros xs Hf; cbn [run_list fits has_room] in *; [done|..].
  - apply andb_true_iff in Hf as [-> Hf]. by apply (IH (v :: xs)).
  - destruct xs as [|v xs]; [done|]. cbn [length] in Hf. by rewrite IH.
  - by rewrite IH.
Qed.

(** [ArrayStack] and [ListStack] are interchangeable.  Every sequence of
    calls has on the array the results of a list bounded by the size of the
    stack, and on the linked list those of an unbounded one, failures of the
    assertions on underflow and overflow included; so a client that never holds
    more than the size cannot tell the two apart. *)
Theorem array_and_list_stacks_equivalent sz uninit calls :
  1 <= sz -> Z.of_nat (length uninit) = sz ->
  exists s, newArrayStack sz uninit = Ok s /\
    run s calls = run_list (Some sz) [] calls /\
    run newListStack calls = run_list None [] calls /\
    (fits sz 0 calls = true -> run s calls = run newListStack calls).
Proof.
  intros Hs Hl. destruct (newArrayStack_ok sz uninit Hs Hl) as (s & Hn & Hr). exists s. split; [done|].
  rewrite (run_ok s (Some sz) [] calls Hr), (run_ok newListStack None [] calls newListStack_ok). split; [done|]. split; [done|].
  apply (run_list_fits sz []).
Qed.

Lemma array_and_list_stacks_equivalent_witness :
  exists s, newArrayStack 3 [0; 0; 0] = Ok s /\
    run s [CPush 1; CPush 2; CEmpty; CPop; CPush 3; CPop; CPop; CEmpty] = Ok [inr false; inl 2; inl 3; inl 1; inr true] /\
    run s [CPush 1; CPush 2; CEmpty; CPop; CPush 3; CPop; CPop; CEmpty] =
    run newListStack [CPush 1; CPush 2; CEmpty; CPop; CPush 3; CPop; CPop; CEmpty].
Proof.
  destruct (array_and_list_stacks_equivalent 3 [0; 0; 0] [CPush 1; CPush 2; CEmpty; CPop; CPush 3; CPop; CPop; CEmpty]
    ltac:(lia) ltac:(reflexivity)) as (s & Hs & Ha & _ & He).
  exists s. split; [exact Hs|]. split; [rewrite Ha; reflexivity|]. apply He. reflexivity.
Defined.

(** The shared test prints the same on every implementation with room for it:
    the numbers from 17 on, and then the same numbers backwards. *)
Lemma InheritSelfTest_ok {S} `{StackLaws S Z rep} (s : S) c n fuel :
  rep s c [] -> 0 <= n -> is_int (17 + n) -> (Z.to_nat n <= fuel)%nat ->
  match c with Some m => n <= m | None => True end ->
  exists s', InheritSelfTest fuel n s = Ok (s', map Pushing (seqZ 17 n) ++ map Popping (reverse (seqZ 17 n))) /\ rep s' c [].
Proof.
  intros Hr Hn Hint Hf Hc. unfold InheritSelfTest.
  edestruct (for_range_ind (fun i '(s, count, out) => rep s c (reverse (seqZ 17 i)) /\ count = 17 + i /\ out = map Pushing (seqZ 17 i)))
    as ([[s1 count] out] & HL & Hr1 & _ & ->); [| | |rewrite HL].
  - exact Hn.
  - split; [exact Hr|done].
  - intros i [[s1 count] out] Hi (Hr1 & -> & ->).
    assert (has_room c (length (reverse (seqZ 17 i))) = true) as Hroom.
    { rewrite length_reverse, length_seqZ. unfold has_room. destruct c; [apply Z.ltb_lt; lia|done]. }
    rewrite (law_full s1 c _ Hr1), Hroom. cbn [negb ASSERT mbind outcome_bind].
    rewrite int_add_Ok by (unfold is_int in *; lia). cbn [mbind outcome_bind].
    pose proof (law_push s1 c _ (17 + i) Hr1) as Hp. rewrite Hroom in Hp. destruct Hp as (s2 & -> & Hr2). cbn [mbind outcome_bind].
    eexists. split; [reflexivity|]. cbn beta iota. rewrite seqZ_snoc by lia. rewrite reverse_snoc, map_app. split; [done|]. split; [lia|done].
  - cbn [mbind outcome_bind]. destruct (pop_all_ok s1 c _ fuel Hr1) as (s' & -> & Hr').
    { rewrite length_reverse, length_seqZ. lia. }
    cbn [mbind outcome_bind]. exists s'. done.
Qed.

(** What the three programs print. *)
Lemma inherit_main_prints uninit :
  length uninit = 10%nat ->
  let test := map Pushing (seqZ 17 10) ++ map Popping (reverse (seqZ 17 10)) in
  inherit_main uninit = Ok (Testing "ArrayStack" :: test ++ Testing "ListStack" :: test).
Proof.
  intros Hl test. unfold inherit_main. destruct (newArrayStack_ok 10 uninit) as (s & -> & Hr); [lia|by rewrite Hl|]. cbn [mbind outcome_bind].
  destruct (InheritSelfTest_ok s (Some 10) 10 11 Hr) as (s1 & -> & _); [lia|unfold is_int; lia|lia|lia|]. cbn [mbind outcome_bind].
  destruct (InheritSelfTest_ok newListStack None 10 11 newListStack_ok) as (s2 & -> & [_ (cs & Hc & Hcs)]); [lia|unfold is_int; lia|lia|done|].
  cbn [mbind outcome_bind]. apply fmap_nil_inv in Hcs as ->. by destruct (deleteIntList_ok s2 [] 1 Hc) as (l' & -> & _); [cbn; lia|].
Qed.

Lemma TemplateSelfTest_ok (succ : Z -> outcome Z) (s : ArrayStack Z) a n fuel :
  array_rep s (Some n) [] -> 1 <= n -> (Z.to_nat n <= fuel)%nat -> (forall x, a <= x < a + n -> succ x = Ok (x + 1)) ->
  exists s', TemplateSelfTest succ fuel a s = Ok (s', map Pushing (seqZ a n) ++ map Popping (reverse (seqZ a n))) /\
    array_rep s' (Some n) [].
Proof.
  intros Hr Hn Hfuel Hs. unfold TemplateSelfTest.
  destruct (push_until_full_ok succ (seqZ a n) s n [] fuel (a + n) Hr) as (s1 & Hp & Hr1);
    [rewrite length_seqZ; cbn [length]; lia|rewrite length_seqZ; lia| |].
  { intros i x Hx y Hy. rewrite <- seqZ_snoc in Hx, Hy by lia. apply lookup_seqZ in Hx as [-> Hi]. apply lookup_seqZ in Hy as [-> Hi'].
    rewrite Hs by lia. f_equal. lia. }
  rewrite (proj2 (lookup_seqZ a n 0 a)) in Hp by lia. cbn [default from_option id] in Hp. rewrite Hp.
  cbn [mbind outcome_bind]. rewrite app_nil_r in Hr1.
  destruct (pop_all_ok s1 _ _ fuel Hr1) as (s2 & -> & Hr2); [rewrite length_reverse, length_seqZ; lia|].
  cbn [mbind outcome_bind]. by exists s2.
Qed.

Lemma stack_main_prints uninit :
  length uninit = 10%nat ->
  stack_main uninit = Ok (map Pushing (seqZ 17 10) ++ map Popping (reverse (seqZ 17 10))).
Proof.
  intros Hl. unfold stack_main, IntStack.newStack. destruct (newArrayStack_ok 10 uninit) as (s & -> & Hr); [lia|by rewrite Hl|]. cbn [mbind outcome_bind].
  destruct (TemplateSelfTest_ok (fun c => int_add c 1) s 17 10 11 Hr) as (s1 & HT & _);
    [lia|lia|intros x Hx; apply int_add_Ok; unfold is_int; lia|].
  change (IntStack.SelfTest 11 s) with (TemplateSelfTest (fun c => int_add c 1) 11 17 s). by rewrite HT.
Qed.

Lemma template_main_prints uninit uninit' :
  length uninit = 10%nat -> length uninit' = 10%nat ->
  let test a := map Pushing (seqZ a 10) ++ map Popping (reverse (seqZ a 10)) in
  template_main uninit uninit' = Ok (Testing "Stack<int>" :: test 17 ++ Testing "Stack<char>" :: test 97).
Proof.
  intros Hl Hl' test. unfold template_main. destruct (newArrayStack_ok 10 uninit) as (s & -> & Hr); [lia|by rewrite Hl|]. cbn [mbind outcome_bind].
  destruct (newArrayStack_ok 10 uninit') as (s' & -> & Hr'); [lia|by rewrite Hl'|]. cbn [mbind outcome_bind].
  destruct (TemplateSelfTest_ok (fun c => int_add c 1) s 17 10 11 Hr) as (s1 & -> & _);
    [lia|lia|intros x Hx; apply int_add_Ok; unfold is_int; lia|]. cbn [mbind outcome_bind].
  destruct (TemplateSelfTest_ok char_succ s' 97 10 11 Hr') as (s2 & -> & _); [lia|lia| |done].
  intros x Hx. unfold char_succ. rewrite Z.mod_small by lia. f_equal. lia.
Qed.
