(* ===== verification/Interrupt.v ===== *)
(** * Simulated interrupts and time (src/code/machine/interrupt.h,
      interrupt.cc, stats.h, stats.cc)

    The interrupt hardware keeps a list of pending interrupts ordered by due
    time, the interrupt level, and the simulated clock (in the statistics).
    Interrupt handlers ([CallBack] of the device objects), the pending load of
    the CPU and [Thread::Yield] belong to other components: they are arguments
    of the definitions that call them.  The rest of the kernel state is any
    type [K] that gives access to the two records below ([InterruptState]). *)

From S2P Require Import Prelude Lists.

(** ** Data *)
Inductive IntStatus := IntOff | IntOn.
Inductive MachineStatus := IdleMode | SystemMode | UserMode.
Inductive IntType :=
  | TimerInt | DiskInt | ConsoleWriteInt | ConsoleReadInt | NetworkSendInt | NetworkRecvInt.

(** The device objects that derive from [CallBackObj] and register with
    [Interrupt::Schedule]. *)
Inductive CallBackObj :=
  | TimerObj | DiskObj | ConsoleInputObj | ConsoleOutputObj | NetworkInputObj | NetworkOutputObj.

#[export] Instance IntStatus_eq_dec : EqDecision IntStatus.
Proof. solve_decision. Defined.
#[export] Instance MachineStatus_eq_dec : EqDecision MachineStatus.
Proof. solve_decision. Defined.
#[export] Instance IntType_eq_dec : EqDecision IntType.
Proof. solve_decision. Defined.
#[export] Instance CallBackObj_eq_dec : EqDecision CallBackObj.
Proof. solve_decision. Defined.

Record PendingInterrupt := mkPending {
  callOnInterrupt : CallBackObj;
  when : Z;
  type : IntType;
}.

#[export] Instance PendingInterrupt_eq_dec : EqDecision PendingInterrupt.
Proof. solve_decision. Defined.

Record Interrupt := mkInterrupt {
  level : IntStatus;
  pending : list PendingInterrupt;
  inHandler : bool;
  yieldOnReturn : bool;
  status : MachineStatus;
}.

Record Statistics := mkStatistics {
  totalTicks : Z;
  idleTicks : Z;
  systemTicks : Z;
  userTicks : Z;
  numDiskReads : Z;
  numDiskWrites : Z;
  numConsoleCharsRead : Z;
  numConsoleCharsWritten : Z;
  numPageFaults : Z;
  numPacketsSent : Z;
  numPacketsRecvd : Z;
}.

(** Constants of stats.h *)
Definition UserTick : Z := 1.
Definition SystemTick : Z := 10.
Definition RotationTime : Z := 500.
Definition SeekTime : Z := 500.
Definition ConsoleTime : Z := 100.
Definition NetworkTime : Z := 100.
Definition TimerTicks : Z := 100.

(** [Statistics::Statistics] *)
Definition newStatistics : Statistics := mkStatistics 0 0 0 0 0 0 0 0 0 0 0.

(** [Interrupt::Interrupt] *)
Definition newInterrupt : Interrupt := mkInterrupt IntOff [] false false SystemMode.

(** [PendingCompare] *)
Definition PendingCompare (x y : PendingInterrupt) : Z :=
  if when x <? when y then -1 else if when y <? when x then 1 else 0.

(** Field updates *)
Definition with_level (l : IntStatus) (i : Interrupt) : Interrupt :=
  mkInterrupt l (pending i) (inHandler i) (yieldOnReturn i) (status i).
Definition with_pending (p : list PendingInterrupt) (i : Interrupt) : Interrupt :=
  mkInterrupt (level i) p (inHandler i) (yieldOnReturn i) (status i).
Definition with_inHandler (b : bool) (i : Interrupt) : Interrupt :=
  mkInterrupt (level i) (pending i) b (yieldOnReturn i) (status i).
Definition with_yield (b : bool) (i : Interrupt) : Interrupt :=
  mkInterrupt (level i) (pending i) (inHandler i) b (status i).
Definition with_status (st : MachineStatus) (i : Interrupt) : Interrupt :=
  mkInterrupt (level i) (pending i) (inHandler i) (yieldOnReturn i) st.
Definition with_ticks (total idle system user : Z) (s : Statistics) : Statistics :=
  mkStatistics total idle system user (numDiskReads s) (numDiskWrites s)
    (numConsoleCharsRead s) (numConsoleCharsWritten s) (numPageFaults s)
    (numPacketsSent s) (numPacketsRecvd s).

(** ** Access to the kernel's interrupt and statistics objects *)
Class InterruptState (K : Type) := {
  k_int : K -> Interrupt;
  k_stats : K -> Statistics;
  set_int : Interrupt -> K -> K;
  set_stats : Statistics -> K -> K;
}.

Class InterruptStateLaws (K : Type) `{InterruptState K} : Prop := {
  int_set_int i k : k_int (set_int i k) = i;
  stats_set_int i k : k_stats (set_int i k) = k_stats k;
  int_set_stats s k : k_int (set_stats s k) = k_int k;
  stats_set_stats s k : k_stats (set_stats s k) = s;
}.

Section interrupt.
Context {K : Type} `{InterruptState K}.
Context (CallBack : CallBackObj -> K -> outcome K).
Context (DelayedLoad0 : K -> outcome K).
Context (Yield : K -> outcome K).
Implicit Types k : K.

(** [Interrupt::Schedule].  The list element is freshly allocated, so the
    assertion of [SortedList::Insert] that it is not yet in the list holds. *)
Definition Schedule (toCall : CallBackObj) (fromNow : Z) (ty : IntType) k : outcome K :=
  t ← int_add (totalTicks (k_stats k)) fromNow;
  _ ← ASSERT (0 <? fromNow);
  Ok (set_int (with_pending (Spec.place PendingCompare (pending (k_int k)) (mkPending toCall t ty))
                (k_int k)) k).

(** [Interrupt::ChangeLevel] *)
Definition ChangeLevel (now : IntStatus) k : K := set_int (with_level now (k_int k)) k.

(** The [do ... while] loop of [Interrupt::CheckIfDue]. *)
Fixpoint run_due (fuel : nat) k : outcome K :=
  match fuel with
  | O => Err OutOfFuel
  | S fuel' =>
      '(rest, nxt) ← Spec.removeFront (pending (k_int k));
      k ← CallBack (callOnInterrupt nxt) (set_int (with_pending rest (k_int k)) k);
      match pending (k_int k) with
      | [] => Ok k
      | p :: _ => if when p <=? totalTicks (k_stats k) then run_due fuel' k else Ok k
      end
  end.

(** [Interrupt::CheckIfDue] *)
Definition CheckIfDue (advanceClock : bool) k : outcome (K * bool) :=
  _ ← ASSERT (bool_decide (level (k_int k) = IntOff));
  match pending (k_int k) with
  | [] => Ok (k, false)
  | nxt :: _ =>
      let s := k_stats k in
      if (totalTicks s <? when nxt) && negb advanceClock then Ok (k, false)
      else
        let k := if totalTicks s <? when nxt
                 then set_stats (with_ticks (when nxt) (idleTicks s + (when nxt - totalTicks s))
                                   (systemTicks s) (userTicks s) s) k
                 else k in
        k ← DelayedLoad0 k;
        let k := set_int (with_inHandler true (k_int k)) k in
        k ← run_due (length (pending (k_int k))) k;
        Ok (set_int (with_inHandler false (k_int k)) k, true)
  end.

(** [Interrupt::OneTick] *)
Definition OneTick k : outcome K :=
  let oldStatus := status (k_int k) in
  let s := k_stats k in
  let k := set_stats
             (if decide (oldStatus = SystemMode)
              then with_ticks (totalTicks s + SystemTick) (idleTicks s)
                     (systemTicks s + SystemTick) (userTicks s) s
              else with_ticks (totalTicks s + UserTick) (idleTicks s) (systemTicks s)
                     (userTicks s + UserTick) s) k in
  let k := ChangeLevel IntOff k in
  '(k, _) ← CheckIfDue false k;
  let k := ChangeLevel IntOn k in
  if yieldOnReturn (k_int k) then
    let k := set_int (with_status SystemMode (with_yield false (k_int k))) k in
    k ← Yield k;
    Ok (set_int (with_status oldStatus (k_int k)) k)
  else Ok k.

(** [Interrupt::SetLevel] *)
Definition SetLevel (now : IntStatus) k : outcome (K * IntStatus) :=
  let old := level (k_int k) in
  _ ← ASSERT (bool_decide (now = IntOff) || negb (inHandler (k_int k)));
  let k := ChangeLevel now k in
  if decide (now = IntOn /\ old = IntOff) then k ← OneTick k; Ok (k, old)
  else Ok (k, old).

(** [Interrupt::YieldOnReturn] *)
Definition YieldOnReturn k : outcome K :=
  _ ← ASSERT (inHandler (k_int k));
  Ok (set_int (with_yield true (k_int k)) k).

(** [Interrupt::Idle]; [Interrupt::Halt] ends the simulation. *)
Definition Idle k : outcome K :=
  let k := set_int (with_status IdleMode (k_int k)) k in
  '(k, b) ← CheckIfDue true k;
  if (b : bool) then Ok (set_int (with_status SystemMode (k_int k)) k)
  else Err Halted.

(** The alarm handler (threads/alarm.cc, [Alarm::CallBack]): ask for a context
    switch unless the machine idles. *)
Definition AlarmCallBack k : outcome K :=
  if decide (status (k_int k) = IdleMode) then Ok k else YieldOnReturn k.

(** [Timer::SetInterrupt] (machine/timer.cc); [rnd] is [RandomNumber()]. *)
Definition SetInterrupt (randomize disable : bool) (rnd : Z) k : outcome K :=
  if disable then Ok k
  else
    let delay := if randomize then 1 + rnd mod (TimerTicks * 2) else TimerTicks in
    Schedule TimerObj delay TimerInt k.

(** [Timer::CallBack]: the alarm handler first, then the next timer interrupt. *)
Definition TimerCallBack (randomize disable : bool) (rnd : Z) k : outcome K :=
  k ← AlarmCallBack k;
  SetInterrupt randomize disable rnd k.

End interrupt.

(** ** Ordering of the pending list *)
Lemma PendingCompare_spec x y :
  (PendingCompare x y < 0 <-> when x < when y) /\ (PendingCompare x y <= 0 <-> when x <= when y) /\
  (0 < PendingCompare x y <-> when y < when x).
Proof. unfold PendingCompare. destruct (Z.ltb_spec (when x) (when y)), (Z.ltb_spec (when y) (when x)); lia. Qed.

#[export] Instance PendingCompare_comparator : Comparator PendingCompare.
Proof.
  split; intros x y; [..|intros z]; pose proof (PendingCompare_spec x y);
    pose proof (PendingCompare_spec y x); [lia|lia|].
  pose proof (PendingCompare_spec y z). pose proof (PendingCompare_spec x z). lia.
Qed.

Abbreviation pending_sorted p := (Sorted (cmp_le PendingCompare) p).

(** The interrupts of [p] that are due at time [now]. *)
Definition due (now : Z) (p : list PendingInterrupt) : list PendingInterrupt :=
  filter (fun x => when x <= now) p.

Lemma due_cons_later now x p : now < when x -> due now (x :: p) = due now p.
Proof. intros. unfold due. rewrite filter_cons_False by lia. done. Qed.

Lemma sorted_head_later now x p :
  pending_sorted (x :: p) -> now < when x -> Forall (fun y => now < when y) (x :: p).
Proof.
  intros Hs Hx. apply Sorted_StronglySorted in Hs.
  2: { intros a b c. apply compare_trans. }
  apply StronglySorted_inv in Hs as [_ Hall]. constructor; [done|].
  eapply Forall_impl; [exact Hall|]. intros y Hy.
  apply (PendingCompare_spec x y) in Hy. lia.
Qed.

Lemma due_none now p : Forall (fun y => now < when y) p -> due now p = [].
Proof. induction 1; [done|]. by rewrite due_cons_later. Qed.

(** Scheduling in the future leaves the due interrupts as they are. *)
Lemma due_place now p x : now < when x -> due now (Spec.place PendingCompare p x) = due now p.
Proof.
  intros Hx. destruct (place_split PendingCompare p x) as (p1 & p2 & -> & -> & _).
  unfold due. by rewrite !filter_app, filter_cons_False by lia.
Qed.

Section correctness.
Context {K : Type} `{InterruptState K} `{!InterruptStateLaws K}.
Context (CallBack : CallBackObj -> K -> outcome K).
Context (DelayedLoad0 : K -> outcome K).
Context (Yield : K -> outcome K).
Context (log : K -> list CallBackObj).
Implicit Types k : K.

Abbreviation now k := (totalTicks (k_stats k)).

(** What the simulator relies on from a device's interrupt handler: it
    returns, does not move the clock or the tick counters, leaves the level and
    the handler flag alone, and schedules only in the future. *)
Record handler_ok : Prop := {
  h_run o k : level (k_int k) = IntOff -> inHandler (k_int k) = true ->
    pending_sorted (pending (k_int k)) -> 0 <= now k < 2 ^ 30 ->
    exists k', CallBack o k = Ok k' /\ log k' = log k ++ [o] /\
      level (k_int k') = IntOff /\ inHandler (k_int k') = true /\
      (now k' = now k /\ idleTicks (k_stats k') = idleTicks (k_stats k) /\
       systemTicks (k_stats k') = systemTicks (k_stats k) /\
       userTicks (k_stats k') = userTicks (k_stats k)) /\
      pending_sorted (pending (k_int k')) /\
      due (now k) (pending (k_int k')) = due (now k) (pending (k_int k));
  h_load k : exists k', DelayedLoad0 k = Ok k' /\ log k' = log k /\
    k_int k' = k_int k /\ k_stats k' = k_stats k;
  h_log_int i k : log (set_int i k) = log k;
  h_log_stats s k : log (set_stats s k) = log k;
}.

(** Scheduling ahead of time returns and keeps the list ordered. *)
Lemma Schedule_ok o d ty k :
  0 < d -> is_int (now k + d) -> pending_sorted (pending (k_int k)) ->
  exists k', Schedule o d ty k = Ok k' /\ k_stats k' = k_stats k /\
    level (k_int k') = level (k_int k) /\ inHandler (k_int k') = inHandler (k_int k) /\
    pending_sorted (pending (k_int k')) /\
    mkPending o (now k + d) ty ∈ pending (k_int k') /\
    due (now k) (pending (k_int k')) = due (now k) (pending (k_int k)).
Proof.
  intros Hd Hint Hs. unfold Schedule. rewrite int_add_Ok by done. cbn [mbind outcome_bind].
  replace (0 <? d) with true by lia. cbn [ASSERT mbind outcome_bind]. eexists. split; [done|].
  rewrite int_set_int, stats_set_int. cbn [level inHandler pending with_pending]. split_and!; [done..| | |].
  - by apply place_Sorted; [apply _|].
  - apply elem_of_place. by left.
  - apply due_place. simpl. lia.
Qed.

Section with_handlers.
Context (Hh : handler_ok).

Lemma run_due_ok fuel k x p :
  level (k_int k) = IntOff -> inHandler (k_int k) = true ->
  pending (k_int k) = x :: p -> pending_sorted (x :: p) -> when x <= now k -> 0 <= now k < 2 ^ 30 ->
  (length (due (now k) (x :: p)) <= fuel)%nat ->
  exists k', run_due CallBack fuel k = Ok k' /\
    log k' = log k ++ (callOnInterrupt <$> due (now k) (x :: p)) /\
    level (k_int k') = IntOff /\ inHandler (k_int k') = true /\
    (now k' = now k /\ idleTicks (k_stats k') = idleTicks (k_stats k) /\
     systemTicks (k_stats k') = systemTicks (k_stats k) /\
     userTicks (k_stats k') = userTicks (k_stats k)) /\
    pending_sorted (pending (k_int k')) /\ due (now k') (pending (k_int k')) = [].
Proof.
  revert k x p. induction fuel as [|fuel IH]; intros k x p Hl Hin Hp Hs Hx Hb Hf;
    (assert (due (now k) (x :: p) = x :: due (now k) p) as Hd
      by (unfold due; by rewrite filter_cons_True)); rewrite Hd in Hf |- *; simpl in Hf; [lia|].
  cbn [run_due]. rewrite Hp. cbn [Spec.removeFront mbind outcome_bind].
  apply Sorted_inv in Hs as [Hs _].
  destruct (h_run Hh (callOnInterrupt x) (set_int (with_pending p (k_int k)) k))
    as (k1 & -> & Hlog & Hl1 & Hin1 & Ht1 & Hs1 & Hd1);
    [by rewrite int_set_int..|by rewrite stats_set_int|].
  cbn [mbind outcome_bind]. rewrite (h_log_int Hh) in Hlog. rewrite !stats_set_int in Ht1.
  rewrite stats_set_int, int_set_int in Hd1. cbn [pending with_pending] in Hd1.
  destruct Ht1 as (Hnow & Hidle & Hsys & Husr).
  rewrite fmap_cons. destruct (pending (k_int k1)) as [|y q] eqn:Hq.
  - rewrite <- Hd1. exists k1. rewrite Hq. split_and!; done.
  - rewrite Hnow. destruct (Z.leb_spec (when y) (now k)) as [Hy|Hy].
    + rewrite <- Hnow in Hy, Hd1.
      destruct (IH k1 y q) as (k2 & -> & Hlog2 & Hl2 & Hin2 & Ht2 & Hs2 & Hd2);
        [done..|lia|rewrite Hd1, Hnow; lia|].
      exists k2. rewrite Hlog2, Hlog, Hd1, Hnow, <- app_assoc.
      destruct Ht2 as (? & ? & ? & ?). split_and!; (done || congruence).
    + pose proof (due_none _ _ (sorted_head_later _ _ _ Hs1 Hy)) as Hnone.
      rewrite Hnone in Hd1. exists k1. rewrite <- Hd1, Hnow, Hq. split_and!; done.
Qed.

Lemma length_due now (p : list PendingInterrupt) : (length (due now p) <= length p)%nat.
Proof. apply length_filter. Qed.

(** The handler section of [CheckIfDue], entered with a due interrupt. *)
Lemma deliver_ok k x p :
  level (k_int k) = IntOff -> pending (k_int k) = x :: p -> pending_sorted (x :: p) ->
  when x <= now k -> 0 <= now k < 2 ^ 30 ->
  exists k', (k ← DelayedLoad0 k;
      let k := set_int (with_inHandler true (k_int k)) k in
      k ← run_due CallBack (length (pending (k_int k))) k;
      Ok (set_int (with_inHandler false (k_int k)) k, true)) = Ok (k', true) /\
    log k' = log k ++ (callOnInterrupt <$> due (now k) (x :: p)) /\
    level (k_int k') = IntOff /\ inHandler (k_int k') = false /\
    (now k' = now k /\ idleTicks (k_stats k') = idleTicks (k_stats k) /\
     systemTicks (k_stats k') = systemTicks (k_stats k) /\
     userTicks (k_stats k') = userTicks (k_stats k)) /\
    pending_sorted (pending (k_int k')) /\ due (now k) (pending (k_int k')) = [].
Proof.
  intros Hl Hp Hs Hx Hb. destruct (h_load Hh k) as (k1 & -> & Hlog1 & Hi1 & Hs1).
  cbn [mbind outcome_bind]. rewrite Hi1, int_set_int.
  destruct (run_due_ok (length (pending (with_inHandler true (k_int k))))
    (set_int (with_inHandler true (k_int k)) k1) x p)
    as (k2 & -> & Hlog2 & Hl2 & Hin2 & Ht2 & Hs2 & Hd2);
    rewrite ?int_set_int, ?stats_set_int, ?Hs1; [done..|simpl; rewrite Hp; apply length_due|].
  rewrite stats_set_int, Hs1 in Hlog2, Ht2. rewrite (h_log_int Hh), Hlog1 in Hlog2.
  cbn [mbind outcome_bind]. eexists. split; [done|].
  rewrite int_set_int, stats_set_int, (h_log_int Hh). cbn [level inHandler pending with_inHandler].
  rewrite (proj1 Ht2) in Hd2. destruct_and?; by split_and!.
Qed.

(** [CheckIfDue] in one statement; see [interrupts_delivered_in_order]. *)
Lemma CheckIfDue_ok (adv : bool) k :
  level (k_int k) = IntOff -> pending_sorted (pending (k_int k)) ->
  let t := match pending (k_int k) with
           | x :: _ => if adv then Z.max (now k) (when x) else now k
           | [] => now k
           end in
  0 <= now k -> t < 2 ^ 30 ->
  exists k' b, CheckIfDue CallBack DelayedLoad0 adv k = Ok (k', b) /\
    log k' = log k ++ (callOnInterrupt <$> due t (pending (k_int k))) /\
    b = negb (bool_decide (due t (pending (k_int k)) = [])) /\
    level (k_int k') = IntOff /\
    (now k' = t /\ idleTicks (k_stats k') = idleTicks (k_stats k) + (t - now k) /\
     systemTicks (k_stats k') = systemTicks (k_stats k) /\
     userTicks (k_stats k') = userTicks (k_stats k)) /\
    pending_sorted (pending (k_int k')) /\ due t (pending (k_int k')) = [] /\
    (if b then inHandler (k_int k') = false else k' = k).
Proof.
  cbn zeta. intros Hl Hs H0 Hb. unfold CheckIfDue. rewrite Hl.
  change (bool_decide (IntOff = IntOff)) with true. cbn [ASSERT mbind outcome_bind].
  destruct (pending (k_int k)) as [|x p] eqn:Hp; cbn zeta.
  { exists k, false. rewrite app_nil_r, Hp, Z.sub_diag, Z.add_0_r. destruct_and?; by split_and!. }
  assert (forall t, when x <= t -> negb (bool_decide (due t (x :: p) = [])) = true) as Hdue.
  { intros t0 Ht. apply negb_true_iff, bool_decide_eq_false_2. unfold due.
    by rewrite filter_cons_True. }
  destruct (Z.ltb_spec (now k) (when x)) as [Hx|Hx], adv; cbn [andb negb].
  - set (k0 := set_stats _ k).
    destruct (deliver_ok k0 x p) as (k' & Hdel & Hlog & Hl' & Hin & Ht & Hs' & Hd);
      unfold k0; rewrite ?int_set_stats, ?stats_set_stats; [done..|simpl; lia|simpl; lia|].
    cbn zeta in Hdel. unfold k0 in *. rewrite Hdel. rewrite stats_set_stats, (h_log_stats Hh) in *. cbn [totalTicks with_ticks] in *.
    exists k', true. rewrite Z.max_r, Hdue by lia. simpl in Ht. destruct_and?; by split_and!.
  - exists k, false. pose proof (sorted_head_later _ _ _ Hs Hx) as Hlate.
    rewrite Hp, (due_none _ _ Hlate), app_nil_r, Z.sub_diag, Z.add_0_r. destruct_and?; by split_and!.
  - destruct (deliver_ok k x p) as (k' & Hdel & Hlog & Hl' & Hin & Ht & Hs' & Hd); [done..|lia|].
    cbn zeta in Hdel. rewrite Hdel. exists k', true. rewrite Z.max_l, Hdue, Z.sub_diag, Z.add_0_r by lia. destruct_and?; by split_and!.
  - destruct (deliver_ok k x p) as (k' & Hdel & Hlog & Hl' & Hin & Ht & Hs' & Hd); [done..|lia|].
    cbn zeta in Hdel. rewrite Hdel. exists k', true. rewrite Hdue, Z.sub_diag, Z.add_0_r by lia. destruct_and?; by split_and!.
Qed.
End with_handlers.
End correctness.

(** ** Properties of the component *)

(** All simulated time is attributed: idle, system and user ticks add up. *)
Definition ticks_balanced (s : Statistics) : Prop :=
  totalTicks s = idleTicks s + systemTicks s + userTicks s.

Section properties.
Context {K : Type} `{InterruptState K} `{!InterruptStateLaws K}.
Context (CallBack : CallBackObj -> K -> outcome K) (DelayedLoad0 : K -> outcome K).
Context (Yield : K -> outcome K) (log : K -> list CallBackObj).
Implicit Types k : K.

Lemma due_sorted t p : pending_sorted p -> pending_sorted (due t p).
Proof. by apply Sorted_filter; apply _. Qed.

Lemma due_all t p : Forall (fun x => when x <= t) (due t p).
Proof. apply Forall_forall. by intros x [? _]%list_elem_of_filter. Qed.

Lemma due_nil_later t p : due t p = [] -> Forall (fun x => t < when x) p.
Proof.
  intros Hd. apply Forall_forall. intros x Hx. destruct (Z.ltb_spec t (when x)); [done|].
  assert (x ∈ due t p) as Hin by (by apply list_elem_of_filter). rewrite Hd in Hin.
  by apply not_elem_of_nil in Hin.
Qed.

(** C36: with handlers that only schedule in the future, [CheckIfDue] calls the
    handler of exactly the interrupts due at the (possibly advanced) clock, each
    once and in due-time order, returns whether there were any, leaves only
    later interrupts pending, and charges the skipped time to [idleTicks]; the
    loop ends within the number of pending interrupts. *)
Theorem interrupts_delivered_in_order (adv : bool) k :
  handler_ok CallBack DelayedLoad0 log ->
  level (k_int k) = IntOff -> pending_sorted (pending (k_int k)) ->
  let t := match pending (k_int k) with
           | x :: _ => if adv then Z.max (totalTicks (k_stats k)) (when x) else totalTicks (k_stats k)
           | [] => totalTicks (k_stats k)
           end in
  0 <= totalTicks (k_stats k) -> t < 2 ^ 30 ->
  exists k' fired, CheckIfDue CallBack DelayedLoad0 adv k = Ok (k', negb (bool_decide (fired = []))) /\
    fired = due t (pending (k_int k)) /\ pending_sorted fired /\
    log k' = log k ++ (callOnInterrupt <$> fired) /\
    Forall (fun x => when x <= t) fired /\
    pending_sorted (pending (k_int k')) /\ Forall (fun x => t < when x) (pending (k_int k')) /\
    totalTicks (k_stats k') = t /\
    idleTicks (k_stats k') = idleTicks (k_stats k) + (t - totalTicks (k_stats k)) /\
    systemTicks (k_stats k') = systemTicks (k_stats k) /\
    userTicks (k_stats k') = userTicks (k_stats k).
Proof.
  intros Hh Hl Hs t H0 Hb.
  destruct (CheckIfDue_ok CallBack DelayedLoad0 log Hh adv k Hl Hs H0 Hb)
    as (k' & b & Heq & Hlog & -> & _ & Ht & Hs' & Hd & _).
  exists k', (due t (pending (k_int k))). destruct_and?.
  split_and!; try done; [by apply due_sorted|apply due_all|by apply due_nil_later].
Qed.

(** C37: [Idle] halts the machine exactly when nothing is pending; otherwise it
    moves the clock forward to the first pending interrupt (never back), runs
    what is due, and returns in system mode with the time balance intact. *)
Theorem idle_advances_to_next_interrupt k :
  handler_ok CallBack DelayedLoad0 log ->
  level (k_int k) = IntOff -> pending_sorted (pending (k_int k)) ->
  ticks_balanced (k_stats k) -> 0 <= totalTicks (k_stats k) ->
  match pending (k_int k) with
  | [] => Idle CallBack DelayedLoad0 k = Err Halted
  | x :: _ =>
      Z.max (totalTicks (k_stats k)) (when x) < 2 ^ 30 ->
      exists k', Idle CallBack DelayedLoad0 k = Ok k' /\ status (k_int k') = SystemMode /\
        totalTicks (k_stats k') = Z.max (totalTicks (k_stats k)) (when x) /\
        ticks_balanced (k_stats k') /\
        callOnInterrupt x ∈ drop (length (log k)) (log k')
  end.
Proof.
  intros Hh Hl Hs Hbal H0. unfold Idle. set (k0 := set_int (with_status IdleMode (k_int k)) k).
  assert (level (k_int k0) = IntOff) as Hl0 by (unfold k0; by rewrite int_set_int).
  assert (pending (k_int k0) = pending (k_int k)) as Hp0 by (unfold k0; by rewrite int_set_int).
  assert (k_stats k0 = k_stats k) as Hst0 by (unfold k0; by rewrite stats_set_int).
  assert (log k0 = log k) as Hlog0 by (unfold k0; by rewrite (h_log_int _ _ _ Hh)).
  pose proof (CheckIfDue_ok CallBack DelayedLoad0 log Hh true k0 Hl0) as HC.
  rewrite Hp0, Hst0, Hlog0 in HC. specialize (HC Hs). cbn zeta in HC. specialize (HC H0).
  destruct (pending (k_int k)) as [|x p] eqn:Hp.
  - unfold CheckIfDue. rewrite Hl0, Hp0. done.
  - intros Hb. destruct (HC Hb) as (k' & b & -> & Hlog & -> & _ & Ht & _).
    assert (due (Z.max (totalTicks (k_stats k)) (when x)) (x :: p) =
      x :: due (Z.max (totalTicks (k_stats k)) (when x)) p) as Hd
      by (unfold due; by rewrite filter_cons_True by lia).
    rewrite Hd, fmap_cons in *. cbn [mbind outcome_bind].
    rewrite bool_decide_eq_false_2 by done. cbn [negb]. eexists. split; [done|].
    rewrite int_set_int, stats_set_int, (h_log_int _ _ _ Hh), Hlog, drop_app_length.
    destruct Ht as (Ht & Hi & Hsy & Hu). unfold ticks_balanced in *. split_and!; [done|done|lia|by left].
Qed.
End properties.

(** A concrete kernel state with a timer that reschedules itself, for the
    witnesses: interrupt hardware, statistics and the log of handlers run. *)
Module Sim.
Definition K : Type := Interrupt * Statistics * list CallBackObj.
#[global] Instance sim_state : InterruptState K := {
  k_int k := k.1.1; k_stats k := k.1.2;
  set_int i k := (i, k.1.2, k.2); set_stats s k := (k.1.1, s, k.2) }.
#[global] Instance sim_laws : InterruptStateLaws K.
Proof. by split; intros; destruct k as [[? ?] ?]. Qed.

Definition logged (o : CallBackObj) (k : K) : K := (k.1, k.2 ++ [o]).
Definition CallBack (o : CallBackObj) (k : K) : outcome K :=
  match o with
  | TimerObj => TimerCallBack false false 0 (logged o k)
  | _ => Ok (logged o k)
  end.

Lemma handlers_ok : handler_ok CallBack (fun k => Ok k) (fun k : K => k.2).
Proof.
  split; [|eauto|done|done]. intros o k Hl Hin Hs Hb.
  destruct o; try (eexists; split; [reflexivity|]; by split_and!).
  cbn [CallBack]. unfold TimerCallBack, AlarmCallBack, YieldOnReturn.
  set (k1 := logged TimerObj k). destruct (decide (status (k_int k1) = IdleMode)).
  - cbn [mbind outcome_bind]. unfold SetInterrupt.
    destruct (Schedule_ok TimerObj TimerTicks TimerInt k1) as (k2 & HS & Hst & ? & ? & ? & _ & ?);
      [done| |done|]; [unfold is_int; simpl in *; unfold TimerTicks; lia|].
    exists k2. split; [done|]. unfold Schedule in HS.
    assert (k2.2 = k1.2) as Hlog by by inv_ok. rewrite Hst.
    split_and!; (done || (etrans; [eassumption|done])).
  - change (inHandler (k_int k1)) with (inHandler (k_int k)). rewrite Hin. cbn [ASSERT mbind outcome_bind].
    set (k1' := set_int _ k1).
    destruct (Schedule_ok TimerObj TimerTicks TimerInt k1') as (k2 & HS & Hst & ? & ? & ? & _ & ?);
      [done| |done|]; [unfold is_int; simpl in *; unfold TimerTicks; lia|].
    exists k2. split; [done|]. unfold Schedule in HS.
    assert (k2.2 = k1'.2) as Hlog by by inv_ok. rewrite Hst.
    split_and!; (done || (etrans; [eassumption|done])).
Qed.

(** Two interrupts pending at times 100 and 150, clock at 120. *)
Definition k0 : K :=
  (mkInterrupt IntOff [mkPending TimerObj 100 TimerInt; mkPending DiskObj 150 DiskInt] false false
     SystemMode, mkStatistics 120 0 120 0 0 0 0 0 0 0 0, []).

Lemma k0_sorted : pending_sorted (pending (k_int k0)).
Proof. repeat constructor. unfold cmp_le. apply PendingCompare_spec. simpl. lia. Qed.
End Sim.

Lemma interrupts_delivered_in_order_witness :
  exists k', CheckIfDue Sim.CallBack (fun k => Ok k) false Sim.k0 = Ok (k', true) /\
    k'.2 = [TimerObj] /\ pending (k_int k') = [mkPending DiskObj 150 DiskInt; mkPending TimerObj 220 TimerInt].
Proof.
  destruct (interrupts_delivered_in_order Sim.CallBack (fun k => Ok k) (fun k : Sim.K => k.2) false Sim.k0
    Sim.handlers_ok eq_refl Sim.k0_sorted ltac:(simpl; lia) ltac:(simpl; lia)) as (k' & fired & Heq & Hf & _ & Hlog & _).
  vm_compute in Hf. subst fired. exists k'. split; [exact Heq|]. split; [exact Hlog|].
  vm_compute in Heq. injection Heq as <-. reflexivity.
Defined.

Lemma idle_advances_to_next_interrupt_witness :
  exists k', Idle Sim.CallBack (fun k => Ok k) Sim.k0 = Ok k' /\ totalTicks (k_stats k') = 120.
Proof.
  destruct (idle_advances_to_next_interrupt Sim.CallBack (fun k => Ok k) (fun k : Sim.K => k.2) Sim.k0
    Sim.handlers_ok eq_refl Sim.k0_sorted eq_refl ltac:(simpl; lia) ltac:(simpl; lia)) as (k' & Heq & _ & Ht & _).
  exists k'. split; [exact Heq|exact Ht].
Defined.
