(* ===== verification/Network.v ===== *)
(** * The simulated network (src/code/machine/network.h, network.cc; the socket
    routines of src/code/lib/sysdep.cc)

    Fixed-size packets between the machines, in order but unreliably, over UNIX
    datagram sockets.  The host's [select], [recvfrom] and [sendto] on the
    sockets are the operations of the class [HostSockets]; [SocketLaws] says
    what a datagram socket documents: datagrams arrive whole and in the order
    in which they were sent, or [sendto] reports failure.  The socket of a
    machine has the machine's number in its name, and is named here by it. *)

From Stdlib Require Export QArith.
From S2P Require Import Prelude Lists Interrupt.
#[local] Open Scope Z_scope.

(** [PacketHeader]: three words, the last one unsigned. *)
Record PacketHeader := mkPacket { p_to : Z; p_from : Z; p_length : Z }.
Definition sizeof_header : Z := 12.
Definition MaxWireSize : Z := 64.
Definition MaxPacketSize : Z := MaxWireSize - sizeof_header.

(** [*(PacketHeader * )buffer = hdr] and [hdr = *(PacketHeader * )buffer]; the
    header of the post office has the same layout. *)
Definition header_words (a b n : Z) : list Z := le_bytes 4 a ++ le_bytes 4 b ++ le_bytes 4 n.
Definition word_of (i : nat) (bs : list Z) : Z := le_value (take 4 (drop (4 * i) bs)).
Definition packet_bytes (h : PacketHeader) : list Z := header_words (p_to h) (p_from h) (p_length h).
Definition packet_of (bs : list Z) : outcome PacketHeader :=
  bs ← buf_get bs 0 sizeof_header;
  Ok (mkPacket (to_int (word_of 0 bs)) (to_int (word_of 1 bs)) (word_of 2 bs)).

(** ** The host's sockets (lib/sysdep.cc) *)
Class HostSockets (W : Type) := {
  host_select : W -> Z;
  host_recvfrom : W -> W * Z * list Z;
  host_sendto : Z -> list Z -> W -> W * Z;
}.

Section sockets.
Context {W : Type} `{HostSockets W}.

(** [PollSocket] and [PollFile] *)
Definition PollSocket (w : W) : outcome bool :=
  let retVal := host_select w in
  _ ← ASSERT ((retVal =? 0) || (retVal =? 1));
  Ok (negb (retVal =? 0)).

(** [ReadFromSocket] into a buffer of its own size. *)
Definition ReadFromSocket (packetSize : Z) (w : W) : outcome (W * list Z) :=
  let '(w, retVal, buffer) := host_recvfrom w in
  _ ← ASSERT (retVal =? packetSize);
  Ok (w, buffer).

(** [SendToSocket]: the loop with [retries] attempts left. *)
Fixpoint send_loop (retries : nat) (toName : Z) (buffer : list Z) (w : W) : outcome W :=
  match retries with
  | O => Ok w
  | S retries =>
      let '(w, retVal) := host_sendto toName buffer w in
      if retVal =? Z.of_nat (length buffer) then Ok w
      else _ ← ASSERT (retVal <? 0); send_loop retries toName buffer w
  end.
Definition SendToSocket (buffer : list Z) (toName : Z) (w : W) : outcome W := send_loop 10 toName buffer w.
End sockets.

(** ** The devices *)
Record NetworkInput := mkNetIn { packetAvail : bool; inHdr : PacketHeader; inbox : list Z }.
Record NetworkOutput := mkNetOut { chanceToWork : Q; sendBusy : bool }.

Section devices.
Context {W K : Type} `{HostSockets W} `{InterruptState K}.

(** The double-precision product [chanceToWork * 100]. *)
Context (times100 : Q -> Q).
Context (hostName : Z).

Definition count_packets (sent recvd : Z) (k : K) : K :=
  let s := k_stats k in
  set_stats (mkStatistics (totalTicks s) (idleTicks s) (systemTicks s) (userTicks s)
    (numDiskReads s) (numDiskWrites s) (numConsoleCharsRead s) (numConsoleCharsWritten s) (numPageFaults s)
    (numPacketsSent s + sent) (numPacketsRecvd s + recvd)) k.

(** [NetworkInput::NetworkInput]; the other fields are not initialised. *)
Definition newNetworkInput (hdr0 : PacketHeader) (inbox0 : list Z) (k : K) : outcome (NetworkInput * K) :=
  k ← Schedule NetworkInputObj NetworkTime NetworkRecvInt k;
  Ok (mkNetIn false (mkPacket (p_to hdr0) (p_from hdr0) 0) inbox0, k).

(** [NetworkInput::CallBack] *)
Definition NetworkInputCallBack (callWhenAvail : K -> outcome K) (n : NetworkInput) (w : W) (k : K)
  : outcome (NetworkInput * W * K) :=
  k ← Schedule NetworkInputObj NetworkTime NetworkRecvInt k;
  if negb (p_length (inHdr n) =? 0) then Ok (n, w, k)
  else
    ready ← PollSocket w;
    if negb ready then Ok (n, w, k)
    else
      '(w, buffer) ← ReadFromSocket MaxWireSize w;
      hdr ← packet_of buffer;
      _ ← ASSERT ((p_to hdr =? hostName) && (p_length hdr <=? MaxPacketSize));
      data ← buf_get buffer sizeof_header (p_length hdr);
      box ← buf_put (inbox n) 0 data;
      k ← callWhenAvail (count_packets 0 1 k);
      Ok (mkNetIn (packetAvail n) hdr box, w, k).

(** [NetworkInput::Receive] into the caller's buffer. *)
Definition NetworkReceive (n : NetworkInput) (data : list Z) : outcome (NetworkInput * PacketHeader * list Z) :=
  let hdr := inHdr n in
  let n := mkNetIn (packetAvail n) (mkPacket (p_to hdr) (p_from hdr) 0) (inbox n) in
  if negb (p_length hdr =? 0) then
    bs ← buf_get (inbox n) 0 (p_length hdr);
    data ← buf_put data 0 bs;
    Ok (n, hdr, data)
  else Ok (n, hdr, data).

(** [NetworkOutput::NetworkOutput] *)
Definition newNetworkOutput (reliability : Q) : NetworkOutput :=
  mkNetOut (if negb (Qle_bool 0 reliability) then 0%Q else if negb (Qle_bool reliability 1) then 1%Q else reliability) false.

(** [NetworkOutput::CallBack] *)
Definition NetworkOutputCallBack (callWhenDone : K -> outcome K) (n : NetworkOutput) (k : K) : outcome (NetworkOutput * K) :=
  k ← callWhenDone (count_packets 1 0 k);
  Ok (mkNetOut (chanceToWork n) false, k).

(** [RandomNumber() % 100 >= chanceToWork * 100] *)
Definition lost (n : NetworkOutput) (random : Z) : bool :=
  Qle_bool (times100 (chanceToWork n)) (inject_Z (random mod 100)).

(** [NetworkOutput::Send]; [buffer0] is the uninitialised wire buffer, [random]
    the result of [RandomNumber]. *)
Definition NetworkSend (random : Z) (buffer0 : list Z) (n : NetworkOutput) (w : W) (k : K) (hdr : PacketHeader) (data : list Z)
  : outcome (NetworkOutput * W * K) :=
  _ ← ASSERT (negb (sendBusy n) && (0 <? p_length hdr) && (p_length hdr <=? MaxPacketSize) && (p_from hdr =? hostName));
  k ← Schedule NetworkOutputObj NetworkTime NetworkSendInt k;
  if lost n random then Ok (n, w, k)
  else
    buffer ← buf_put buffer0 0 (packet_bytes hdr);
    bs ← buf_get data 0 (p_length hdr);
    buffer ← buf_put buffer sizeof_header bs;
    w ← SendToSocket buffer (p_to hdr) w;
    Ok (n, w, k).
End devices.

(** ** What the host promises *)

(** [inbound w] are the datagrams that wait at the socket of machine [me]. *)
Class SocketLaws (W : Type) `{HostSockets W} (me : Z) (inbound : W -> list (list Z)) : Prop := {
  select_ready w : host_select w = if decide (inbound w = []) then 0 else 1;
  recvfrom_first w p q : inbound w = p :: q -> length p = Z.to_nat MaxWireSize ->
    exists w', host_recvfrom w = (w', MaxWireSize, p) /\ inbound w' = q;
  sendto_appends w p : length p = Z.to_nat MaxWireSize ->
    exists w' retVal, host_sendto me p w = (w', retVal) /\
      ((retVal = MaxWireSize /\ inbound w' = inbound w ++ [p]) \/ (retVal < 0 /\ inbound w' = inbound w));
}.

(** ** Headers *)
Lemma length_header_words a b n : length (header_words a b n) = 12%nat.
Proof. unfold header_words. by rewrite !length_app, !length_le_bytes. Qed.

Lemma header_words_byte a b n : Forall is_byte (header_words a b n).
Proof. unfold header_words. rewrite !Forall_app. eauto using le_bytes_byte. Qed.

Lemma word_of_header a b n rest :
  word_of 0 (header_words a b n ++ rest) = to_uint a /\ word_of 1 (header_words a b n ++ rest) = to_uint b /\
  word_of 2 (header_words a b n ++ rest) = to_uint n.
Proof.
  assert (forall z, le_value (le_bytes 4 z) = to_uint z) as Hw by (intros; by rewrite le_value_bytes).
  unfold word_of, header_words. rewrite <- !app_assoc.
  assert (forall x y : list Z, length x = 4%nat -> take 4 (x ++ y) = x) as Htake.
  { intros x y <-. apply take_app_length. }
  assert (forall x y : list Z, length x = 4%nat -> drop 4 (x ++ y) = y) as Hdrop.
  { intros x y <-. apply drop_app_length. }
  change (4 * 0)%nat with 0%nat. change (4 * 1)%nat with 4%nat. change (4 * 2)%nat with (4 + 4)%nat.
  rewrite <- (drop_drop _ 4 4), !Hdrop, drop_0, !Htake by apply length_le_bytes. by rewrite !Hw.
Qed.

Definition packet_ok (h : PacketHeader) : Prop := is_int (p_to h) /\ is_int (p_from h) /\ is_uint (p_length h).

Lemma packet_roundtrip h rest : packet_ok h -> packet_of (packet_bytes h ++ rest) = Ok h.
Proof.
  intros (Ht & Hf & Hl). unfold packet_of, sizeof_header. rewrite buf_get_ok.
  2: lia. 2: lia. 2: rewrite length_app; unfold packet_bytes; rewrite length_header_words; lia.
  cbn [mbind outcome_bind]. change (Z.to_nat 0) with 0%nat. rewrite drop_0. change (Z.to_nat 12) with 12%nat.
  unfold packet_bytes. rewrite take_app_le by (by rewrite length_header_words).
  rewrite <- (app_nil_r (take 12 _)), take_ge by (by rewrite length_header_words).
  destruct (word_of_header (p_to h) (p_from h) (p_length h) []) as (-> & -> & ->).
  rewrite !to_int_to_uint, !to_int_id, to_uint_id by done. by destruct h.
Qed.

(** ** The clock *)

(** A state in which the devices can schedule their next interrupt. *)
Definition clock_ok {K} `{InterruptState K} (k : K) : Prop :=
  0 <= totalTicks (k_stats k) < 2 ^ 30 /\ pending_sorted (pending (k_int k)).

(** What the devices ask of the code they call. *)
Definition keeps {K} `{InterruptState K} (f : K -> outcome K) : Prop :=
  forall k, clock_ok k -> exists k', f k = Ok k' /\ clock_ok k'.

Section device_lemmas.
Context {W K : Type} `{HostSockets W} `{InterruptState K} `{!InterruptStateLaws K}.
Context (times100 : Q -> Q).

Lemma Schedule_keeps o ty : keeps (Schedule o NetworkTime ty).
Proof.
  intros k [Ht Hs]. destruct (Schedule_ok o NetworkTime ty k) as (k' & -> & Est & _ & _ & Hs' & _);
    [done|unfold is_int, NetworkTime; lia|done|].
  exists k'. split; [done|]. split; [by rewrite Est|done].
Qed.

Lemma count_packets_clock s r (k : K) : clock_ok k -> clock_ok (count_packets s r k).
Proof. intros [Ht Hs]. unfold clock_ok, count_packets. by rewrite stats_set_stats, int_set_stats. Qed.

(** The bytes on the wire: the header, the data, and padding. *)
Definition wire (buffer0 : list Z) (hdr : PacketHeader) (data : list Z) : list Z :=
  packet_bytes hdr ++ take (Z.to_nat (p_length hdr)) data ++ drop (12 + Z.to_nat (p_length hdr)) buffer0.

Lemma length_wire buffer0 hdr data :
  length buffer0 = Z.to_nat MaxWireSize -> 0 <= p_length hdr <= MaxPacketSize -> p_length hdr <= Z.of_nat (length data) ->
  length (wire buffer0 hdr data) = Z.to_nat MaxWireSize.
Proof.
  unfold MaxPacketSize, MaxWireSize, sizeof_header. intros Hb Hl Hd. unfold wire, packet_bytes.
  rewrite !length_app, length_header_words, length_take, length_drop, Hb. lia.
Qed.

Lemma packet_wire buffer0 hdr data : packet_ok hdr -> packet_of (wire buffer0 hdr data) = Ok hdr.
Proof. apply packet_roundtrip. Qed.

Section to_me.
Context (me : Z) (inbound : W -> list (list Z)) `{!SocketLaws W me inbound}.

Lemma send_loop_ok retries p w : length p = Z.to_nat MaxWireSize ->
  exists w', send_loop retries me p w = Ok w' /\ (inbound w' = inbound w \/ inbound w' = inbound w ++ [p]).
Proof.
  intros Hp. revert w. induction retries as [|n IH]; intros w; cbn [send_loop]; [eauto|].
  destruct (sendto_appends (me := me) (inbound := inbound) w p Hp) as (w' & r & -> & [[-> Hw]|[Hr Hw]]); rewrite Hp.
  - change (MaxWireSize =? _) with true. eauto.
  - unfold MaxWireSize. rewrite (proj2 (Z.eqb_neq r _)) by lia. rewrite (proj2 (Z.ltb_lt r 0)) by lia. cbn [ASSERT mbind outcome_bind].
    destruct (IH w') as (w2 & -> & Hw2). exists w2. rewrite Hw in Hw2. eauto.
Qed.

(** Sending: the packet arrives behind those that wait already, or is lost. *)
Lemma NetworkSend_ok random buffer0 hostName n w k hdr data :
  sendBusy n = false -> clock_ok k -> p_to hdr = me -> p_from hdr = hostName -> 0 < p_length hdr <= MaxPacketSize ->
  p_length hdr <= Z.of_nat (length data) -> length buffer0 = Z.to_nat MaxWireSize ->
  exists w' k', NetworkSend times100 hostName random buffer0 n w k hdr data = Ok (n, w', k') /\ clock_ok k' /\
    (inbound w' = inbound w \/ lost times100 n random = false /\ inbound w' = inbound w ++ [wire buffer0 hdr data]).
Proof.
  intros Hb Hk Hto Hfrom Hl Hd Hbuf. unfold NetworkSend. rewrite Hb, Hfrom.
  rewrite (proj2 (Z.ltb_lt _ _)), (proj2 (Z.leb_le _ _)), Z.eqb_refl by lia. cbn [negb andb ASSERT mbind outcome_bind].
  destruct (Schedule_keeps NetworkOutputObj NetworkSendInt k Hk) as (k1 & -> & Hk1). cbn [mbind outcome_bind].
  destruct (lost times100 n random) eqn:El; [eauto 10|].
  pose proof (length_wire buffer0 hdr data Hbuf ltac:(lia) Hd) as Hw. unfold MaxPacketSize, MaxWireSize, sizeof_header in *.
  rewrite buf_put_ok by (unfold packet_bytes; rewrite ?length_header_words; lia). cbn [mbind outcome_bind].
  rewrite buf_get_ok by lia. cbn [mbind outcome_bind]. change (Z.to_nat 0) with 0%nat. rewrite drop_0.
  assert (length (splice buffer0 0 (packet_bytes hdr)) = 64%nat) as Hsp.
  { rewrite length_splice by (unfold packet_bytes; rewrite length_header_words; lia). lia. }
  rewrite buf_put_ok by (rewrite ?length_take, ?Hsp; lia). cbn [mbind outcome_bind].
  replace (splice (splice buffer0 0 (packet_bytes hdr)) (Z.to_nat 12) _) with (wire buffer0 hdr data).
  - unfold SendToSocket. rewrite Hto. destruct (send_loop_ok 10 (wire buffer0 hdr data) w) as (w' & -> & Hw'); [done|].
    cbn [mbind outcome_bind]. exists w', k1. naive_solver.
  - unfold wire, splice. change (Z.to_nat 12) with 12%nat. rewrite take_0. cbn [app].
    assert (length (packet_bytes hdr) = 12%nat) as Hp by apply length_header_words.
    rewrite length_take, Nat.min_l, (drop_app_ge (packet_bytes hdr)) by lia.
    rewrite take_app_le, (take_ge (packet_bytes hdr)) by lia. rewrite Hp, drop_drop. do 3 f_equal. lia.
Qed.

(** Polling: nothing happens without a packet or with a full inbox; otherwise the
    oldest packet is taken apart into header and data. *)
Lemma NetworkInput_nothing callWhenAvail n w k :
  clock_ok k -> p_length (inHdr n) <> 0 \/ inbound w = [] ->
  exists k', NetworkInputCallBack me callWhenAvail n w k = Ok (n, w, k') /\ clock_ok k'.
Proof.
  intros Hk Hno. unfold NetworkInputCallBack. destruct (Schedule_keeps NetworkInputObj NetworkRecvInt k Hk) as (k1 & -> & Hk1).
  cbn [mbind outcome_bind]. destruct (Z.eqb_spec (p_length (inHdr n)) 0) as [E|]; [|eauto]. cbn [negb].
  destruct Hno as [?|Hw]; [done|]. unfold PollSocket. rewrite (select_ready (me := me) (inbound := inbound)), decide_True by done.
  cbn. eauto.
Qed.

Lemma NetworkInput_packet callWhenAvail n w k buffer0 hdr data q :
  keeps callWhenAvail -> clock_ok k -> p_length (inHdr n) = 0 -> length (inbox n) = Z.to_nat MaxPacketSize ->
  inbound w = wire buffer0 hdr data :: q -> length buffer0 = Z.to_nat MaxWireSize ->
  packet_ok hdr -> p_to hdr = me -> p_length hdr <= MaxPacketSize -> p_length hdr <= Z.of_nat (length data) ->
  exists w' k', NetworkInputCallBack me callWhenAvail n w k =
      Ok (mkNetIn (packetAvail n) hdr (splice (inbox n) 0 (take (Z.to_nat (p_length hdr)) data)), w', k') /\
    inbound w' = q /\ clock_ok k'.
Proof.
  intros Hcall Hk Hidle Hbox Hw Hbuf Hok Hto Hl Hd. pose proof Hok as (_ & _ & [Hl0 _]).
  pose proof (length_wire buffer0 hdr data Hbuf ltac:(lia) Hd) as Hlen.
  unfold NetworkInputCallBack. destruct (Schedule_keeps NetworkInputObj NetworkRecvInt k Hk) as (k1 & -> & Hk1).
  cbn [mbind outcome_bind]. rewrite Hidle. cbn [Z.eqb negb]. unfold PollSocket.
  rewrite (select_ready (me := me) (inbound := inbound)), decide_False by (by rewrite Hw). cbn [Z.eqb orb ASSERT mbind outcome_bind negb].
  unfold ReadFromSocket. destruct (recvfrom_first (me := me) (inbound := inbound) w _ q Hw Hlen) as (w' & -> & Hw').
  rewrite Z.eqb_refl. cbn [ASSERT mbind outcome_bind]. rewrite packet_wire by done. cbn [mbind outcome_bind].
  rewrite Hto, Z.eqb_refl, (proj2 (Z.leb_le _ _)) by lia. cbn [andb ASSERT mbind outcome_bind].
  unfold MaxPacketSize, MaxWireSize, sizeof_header in *. rewrite buf_get_ok by lia. cbn [mbind outcome_bind].
  replace (take _ (drop _ (wire buffer0 hdr data))) with (take (Z.to_nat (p_length hdr)) data).
  - rewrite buf_put_ok by (rewrite ?length_take; lia). cbn [mbind outcome_bind].
    destruct (Hcall (count_packets 0 1 k1)) as (k2 & -> & Hk2); [by apply count_packets_clock|]. cbn [mbind outcome_bind]. eauto 10.
  - unfold wire. change (Z.to_nat 12) with (length (packet_bytes hdr)). rewrite drop_app_length.
    rewrite take_app_le by (rewrite length_take; lia). rewrite take_take. f_equal. lia.
Qed.
End to_me.
End device_lemmas.
