(* ===== verification/Post.v ===== *)
(** * The post office (src/code/network/post.h, post.cc)

    Mail is a packet whose data starts with a second header, which names the
    mailbox.  The postal worker takes arrived packets from the network and puts
    them into the mailboxes, which are synchronized lists; here a mailbox is the
    list of the messages in it, and a call that waits is one that is not made
    yet.  (The messages are freshly allocated, so the lists' assertion that an
    item is not in the list yet holds.)  The lock and the semaphores of the
    sending side are arguments of [PostSend]. *)

From S2P Require Import Prelude Lists Interrupt Network.
#[local] Open Scope Z_scope.

Record MailHeader := mkMailHdr { h_to : Z; h_from : Z; h_length : Z }.

#[export] Instance PacketHeader_eq_dec : EqDecision PacketHeader.
Proof. solve_decision. Defined.
#[export] Instance MailHeader_eq_dec : EqDecision MailHeader.
Proof. solve_decision. Defined.

Definition sizeof_mail_header : Z := 12.
Definition MaxMailSize : Z := MaxPacketSize - sizeof_mail_header.

Definition mail_bytes (h : MailHeader) : list Z := header_words (h_to h) (h_from h) (h_length h).
Definition mail_of (bs : list Z) : outcome MailHeader :=
  bs ← buf_get bs 0 sizeof_mail_header;
  Ok (mkMailHdr (to_int (word_of 0 bs)) (to_int (word_of 1 bs)) (word_of 2 bs)).

Record Mail := mkMail { pktHdr : PacketHeader; mailHdr : MailHeader; mail_data : list Z }.

(** [Mail::Mail]; [data0] is the uninitialised array of the new object. *)
Definition newMail (data0 : list Z) (pktH : PacketHeader) (mailH : MailHeader) (msgData : list Z) : outcome Mail :=
  _ ← ASSERT (h_length mailH <=? MaxMailSize);
  bs ← buf_get msgData 0 (h_length mailH);
  d ← buf_put data0 0 bs;
  Ok (mkMail pktH mailH d).

(** [MailBox::Put] *)
Definition Put (data0 : list Z) (messages : list Mail) (pkt : PacketHeader) (hdr : MailHeader) (data : list Z) : outcome (list Mail) :=
  mail ← newMail data0 pkt hdr data;
  Ok (messages ++ [mail]).

(** [MailBox::Get]; [None] if the calling thread has to wait. *)
Definition Get (messages : list Mail) (data : list Z) : outcome (option (list Mail * PacketHeader * MailHeader * list Z)) :=
  match messages with
  | [] => Ok None
  | mail :: messages =>
      bs ← buf_get (mail_data mail) 0 (h_length (mailHdr mail));
      data ← buf_put data 0 bs;
      Ok (Some (messages, pktHdr mail, mailHdr mail, data))
  end.

Record PostOfficeInput := mkOffice { network : NetworkInput; boxes : list (list Mail); numBoxes : Z }.

(** The mailboxes of [PostOfficeInput::PostOfficeInput]. *)
Definition newOffice (n : NetworkInput) (nBoxes : Z) : PostOfficeInput :=
  mkOffice n (replicate (Z.to_nat nBoxes) []) nBoxes.

(** One round of [PostOfficeInput::PostalDelivery], after [messageAvailable->P()]
    has returned; [buffer] is the worker's packet buffer. *)
Definition PostalDelivery (data0 buffer : list Z) (po : PostOfficeInput) : outcome (PostOfficeInput * list Z) :=
  '(n, pkt, buffer) ← NetworkReceive (network po) buffer;
  hdr ← mail_of buffer;
  _ ← ASSERT ((0 <=? h_to hdr) && (h_to hdr <? numBoxes po));
  _ ← ASSERT (h_length hdr <=? MaxMailSize);
  box ← arr_get (boxes po) (h_to hdr);
  box ← Put data0 box pkt hdr (drop (Z.to_nat sizeof_mail_header) buffer);
  bs ← arr_set (boxes po) (h_to hdr) box;
  Ok (mkOffice n bs (numBoxes po), buffer).

(** [PostOfficeInput::Receive] *)
Definition PostReceive (box : Z) (data : list Z) (po : PostOfficeInput)
  : outcome (option (PostOfficeInput * PacketHeader * MailHeader * list Z)) :=
  _ ← ASSERT ((0 <=? box) && (box <? numBoxes po));
  messages ← arr_get (boxes po) box;
  got ← Get messages data;
  match got with
  | None => Ok None
  | Some (messages, pkt, hdr, data) =>
      _ ← ASSERT (h_length hdr <=? MaxMailSize);
      bs ← arr_set (boxes po) box messages;
      Ok (Some (mkOffice (network po) bs (numBoxes po), pkt, hdr, data))
  end.

(** [PostOfficeOutput::Send].  [acquire], [wait] and [release] are
    [sendLock->Acquire()], [messageSent->P()] and [sendLock->Release()]; the
    device's [CallBack] runs while the thread waits.  [packet0] and [wire0] are
    the uninitialised buffers. *)
Section sending.
Context {W K : Type} `{HostSockets W} `{InterruptState K} (times100 : Q -> Q) (hostName : Z).
Context (acquire release : K -> outcome K) (wait : NetworkOutput -> K -> outcome (NetworkOutput * K)).

Definition PostSend (random : Z) (packet0 wire0 : list Z) (pkt : PacketHeader) (hdr : MailHeader) (data : list Z)
    (n : NetworkOutput) (w : W) (k : K) : outcome (NetworkOutput * W * K) :=
  _ ← ASSERT (h_length hdr <=? MaxMailSize);
  _ ← ASSERT (0 <=? h_to hdr);
  let pkt := mkPacket (p_to pkt) hostName (to_uint (h_length hdr + sizeof_mail_header)) in
  buffer ← buf_put packet0 0 (mail_bytes hdr);
  bs ← buf_get data 0 (h_length hdr);
  buffer ← buf_put buffer sizeof_mail_header bs;
  k ← acquire k;
  '(n, w, k) ← NetworkSend times100 hostName random wire0 n w k pkt buffer;
  '(n, k) ← wait n k;
  k ← release k;
  Ok (n, w, k).
End sending.

(** ** Letters: what a message means *)
Record letter := mkLetter { l_pkt : PacketHeader; l_hdr : MailHeader; l_body : list Z }.

(** The bytes that travel as the data of the packet. *)
Definition letter_bytes (l : letter) : list Z := mail_bytes (l_hdr l) ++ l_body l.

Record letter_ok (me nBoxes : Z) (l : letter) : Prop := {
  lo_pkt : packet_ok (l_pkt l);
  lo_me : p_to (l_pkt l) = me;
  lo_size : 0 <= h_length (l_hdr l) <= MaxMailSize;
  lo_length : p_length (l_pkt l) = h_length (l_hdr l) + sizeof_mail_header;
  lo_body : Z.of_nat (length (l_body l)) = h_length (l_hdr l);
  lo_from : is_int (h_from (l_hdr l));
  lo_box : 0 <= h_to (l_hdr l) < nBoxes;
  lo_boxes : nBoxes < 2 ^ 31;
}.

(** The message in a mailbox, without the bytes that its array does not use. *)
Definition mail_letter (m : Mail) : letter :=
  mkLetter (pktHdr m) (mailHdr m) (take (Z.to_nat (h_length (mailHdr m))) (mail_data m)).

Lemma length_letter_bytes me nb l : letter_ok me nb l -> Z.of_nat (length (letter_bytes l)) = p_length (l_pkt l).
Proof.
  intros Hl. unfold letter_bytes, mail_bytes. rewrite length_app, length_header_words.
  pose proof (lo_length _ _ _ Hl). pose proof (lo_body _ _ _ Hl). unfold sizeof_mail_header in *. lia.
Qed.

Lemma mail_roundtrip me nb l rest : letter_ok me nb l -> mail_of (letter_bytes l ++ rest) = Ok (l_hdr l).
Proof.
  intros Hl. pose proof (lo_box _ _ _ Hl). pose proof (lo_boxes _ _ _ Hl). pose proof (lo_size _ _ _ Hl).
  unfold mail_of, sizeof_mail_header, letter_bytes, mail_bytes. rewrite <- app_assoc.
  rewrite buf_get_ok by (rewrite ?length_app, ?length_header_words; lia). cbn [mbind outcome_bind].
  change (Z.to_nat 0) with 0%nat. rewrite drop_0. change (Z.to_nat 12) with 12%nat.
  rewrite take_app_le, take_ge by (by rewrite length_header_words). rewrite <- (app_nil_r (header_words _ _ _)).
  destruct (word_of_header (h_to (l_hdr l)) (h_from (l_hdr l)) (h_length (l_hdr l)) []) as (-> & -> & ->).
  unfold MaxMailSize, MaxPacketSize, MaxWireSize, sizeof_header, sizeof_mail_header in *.
  rewrite !to_int_to_uint, !to_int_id, to_uint_id by (apply Hl || unfold is_int, is_uint; lia). by destruct (l_hdr l).
Qed.

(** A packet on the wire that carries a letter. *)
Definition carries (p : list Z) (l : letter) : Prop :=
  exists wire0 data, p = wire wire0 (l_pkt l) data /\ length wire0 = Z.to_nat MaxWireSize /\
    p_length (l_pkt l) <= Z.of_nat (length data) /\ take (Z.to_nat (p_length (l_pkt l))) data = letter_bytes l.

(** The letter that waits in the network device. *)
Definition buffered (n : NetworkInput) (l : list letter) : Prop :=
  match l with
  | [] => p_length (inHdr n) = 0
  | [l] => inHdr n = l_pkt l /\ take (Z.to_nat (p_length (l_pkt l))) (inbox n) = letter_bytes l
  | _ => False
  end.

(** ** The operations *)
Lemma take_splice_0 {A} (l bs : list A) : (length bs <= length l)%nat -> take (length bs) (splice l 0 bs) = bs.
Proof. intros. unfold splice. rewrite take_0. cbn [app]. apply take_app_length. Qed.

(** The letter that a call of [PostSend] sends. *)
Definition letter_of (hostName : Z) (pkt : PacketHeader) (hdr : MailHeader) (data : list Z) : letter :=
  mkLetter (mkPacket (p_to pkt) hostName (h_length hdr + sizeof_mail_header)) hdr (take (Z.to_nat (h_length hdr)) data).

Section sending_lemmas.
Context {W K : Type} `{HostSockets W} `{InterruptState K} `{!InterruptStateLaws K} (times100 : Q -> Q) (hostName : Z).
Context (acquire release : K -> outcome K) (wait : NetworkOutput -> K -> outcome (NetworkOutput * K)).
Context (me : Z) (inbound : W -> list (list Z)) `{!SocketLaws W me inbound}.

(** Waiting for the completion interrupt leaves the device free. *)
Definition wait_ok : Prop :=
  forall n k, clock_ok k -> exists k', wait n k = Ok (mkNetOut (chanceToWork n) false, k') /\ clock_ok k'.

Lemma PostSend_ok nb random packet0 wire0 pkt hdr data n w k :
  keeps acquire -> keeps release -> wait_ok -> letter_ok me nb (letter_of hostName pkt hdr data) ->
  length packet0 = Z.to_nat MaxPacketSize -> length wire0 = Z.to_nat MaxWireSize ->
  h_length hdr <= Z.of_nat (length data) -> sendBusy n = false -> clock_ok k ->
  exists w' k', PostSend times100 hostName acquire release wait random packet0 wire0 pkt hdr data n w k =
      Ok (mkNetOut (chanceToWork n) false, w', k') /\ clock_ok k' /\
    (inbound w' = inbound w \/ lost times100 n random = false /\
       exists p, carries p (letter_of hostName pkt hdr data) /\ inbound w' = inbound w ++ [p]).
Proof.
  intros Hacq Hrel Hwait Hl Hp0 Hw0 Hd Hb Hk. set (l := letter_of hostName pkt hdr data) in *.
  pose proof (lo_size _ _ _ Hl) as Hsz. pose proof (lo_box _ _ _ Hl) as Hbox. pose proof (length_letter_bytes _ _ _ Hl) as Hlb.
  unfold PostSend, MaxMailSize, MaxPacketSize, MaxWireSize, sizeof_header, sizeof_mail_header in *. cbn [l letter_of l_hdr l_pkt p_length] in *.
  rewrite !(proj2 (Z.leb_le _ _)) by lia. cbn [ASSERT mbind outcome_bind].
  rewrite buf_put_ok by (unfold mail_bytes; rewrite ?length_header_words; lia). cbn [mbind outcome_bind].
  rewrite buf_get_ok by lia. cbn [mbind outcome_bind]. change (Z.to_nat 0) with 0%nat. rewrite drop_0.
  assert (length (mail_bytes hdr) = 12%nat) as Hm by apply length_header_words.
  assert (length (splice packet0 0 (mail_bytes hdr)) = 52%nat) as Hsp by (rewrite length_splice by lia; lia).
  rewrite buf_put_ok by (rewrite ?length_take, ?Hsp; lia). cbn [mbind outcome_bind].
  destruct (Hacq k Hk) as (k1 & -> & Hk1). cbn [mbind outcome_bind]. rewrite to_uint_id by (unfold is_uint; lia).
  set (buffer := splice _ (Z.to_nat 12) _).
  assert (length buffer = 52%nat) as Hbl by (unfold buffer; rewrite length_splice; rewrite ?length_take, ?Hsp; lia).
  assert (take (Z.to_nat (h_length hdr + 12)) buffer = letter_bytes l) as Htake.
  { unfold buffer, letter_bytes, l, letter_of. cbn [l_hdr l_body]. unfold splice. change (Z.to_nat 12) with 12%nat. rewrite take_0. cbn [app].
    replace (take 12 (mail_bytes hdr ++ _)) with (mail_bytes hdr) by (symmetry; by apply take_app_length'). rewrite app_assoc. apply take_app_length'.
    rewrite length_app, length_take. lia. }
  destruct (NetworkSend_ok times100 me inbound random wire0 hostName n w k1
    (mkPacket (p_to pkt) hostName (h_length hdr + 12)) buffer) as (w' & k2 & -> & Hk2 & Hin);
    [done|done|exact (lo_me _ _ _ Hl)|done|cbn; unfold MaxPacketSize, MaxWireSize, sizeof_header; lia|cbn; lia|done|].
  cbn [mbind outcome_bind]. destruct (Hwait n k2 Hk2) as (k3 & -> & Hk3). cbn [mbind outcome_bind].
  destruct (Hrel k3 Hk3) as (k4 & -> & Hk4). cbn [mbind outcome_bind]. exists w', k4. split; [done|]. split; [done|].
  destruct Hin as [?|[? Hin]]; [by left|]. right. split; [done|]. eexists. split; [|exact Hin].
  exists wire0, buffer. split_and!; [done|done|unfold l, letter_of, sizeof_mail_header; cbn [l_pkt p_length]; lia|exact Htake].
Qed.
End sending_lemmas.

Lemma buffered_length me nb n l : buffered n [l] -> letter_ok me nb l -> p_length (inHdr n) <> 0.
Proof.
  intros [-> _] Hl. pose proof (lo_length _ _ _ Hl). pose proof (lo_size _ _ _ Hl). unfold sizeof_mail_header in *. lia.
Qed.

Lemma PostalDelivery_ok me data0 buffer po l :
  buffered (network po) [l] -> letter_ok me (numBoxes po) l -> length (inbox (network po)) = Z.to_nat MaxPacketSize ->
  length buffer = Z.to_nat MaxPacketSize -> length data0 = Z.to_nat MaxMailSize -> numBoxes po = Z.of_nat (length (boxes po)) ->
  exists n' bs' buffer' box m, PostalDelivery data0 buffer po = Ok (mkOffice n' bs' (numBoxes po), buffer') /\
    buffered n' [] /\ inbox n' = inbox (network po) /\ length buffer' = Z.to_nat MaxPacketSize /\
    boxes po !! Z.to_nat (h_to (l_hdr l)) = Some box /\ bs' = <[Z.to_nat (h_to (l_hdr l)) := box ++ [m]]> (boxes po) /\
    mail_letter m = l /\ length (mail_data m) = Z.to_nat MaxMailSize.
Proof.
  intros Hbuf Hl Hin Hb Hd0 Hnb. pose proof (buffered_length _ _ _ _ Hbuf Hl) as Hne. destruct Hbuf as [Ehdr Htake].
  pose proof (lo_size _ _ _ Hl) as Hsz. pose proof (lo_box _ _ _ Hl) as Hbox. pose proof (length_letter_bytes _ _ _ Hl) as Hlb.
  pose proof (lo_length _ _ _ Hl) as Hpl. pose proof (lo_body _ _ _ Hl) as Hbody.
  unfold PostalDelivery, NetworkReceive, MaxMailSize, MaxPacketSize, MaxWireSize, sizeof_header, sizeof_mail_header in *. rewrite Ehdr in *.
  rewrite (proj2 (Z.eqb_neq _ _)) by done. cbn [negb inbox]. rewrite buf_get_ok by lia. cbn [mbind outcome_bind].
  change (Z.to_nat 0) with 0%nat. rewrite drop_0, Htake. rewrite buf_put_ok by lia. cbn [mbind outcome_bind]. change (Z.to_nat 0) with 0%nat.
  assert (splice buffer 0 (letter_bytes l) = letter_bytes l ++ drop (length (letter_bytes l)) buffer) as Esp by done.
  assert (mail_of (splice buffer 0 (letter_bytes l)) = Ok (l_hdr l)) as -> by (rewrite Esp; by eapply mail_roundtrip). cbn [mbind outcome_bind].
  rewrite (proj2 (Z.leb_le 0 _)), (proj2 (Z.ltb_lt _ _)), (proj2 (Z.leb_le _ (64 - 12 - 12))) by lia. cbn [andb ASSERT mbind outcome_bind].
  destruct (arr_get_lt (boxes po) (h_to (l_hdr l))) as (box & Hbx & ->); [lia|]. cbn [mbind outcome_bind].
  set (rest := drop (length (letter_bytes l)) buffer) in *.
  replace (drop (Z.to_nat 12) (splice buffer 0 (letter_bytes l))) with (l_body l ++ rest).
  2: { rewrite Esp. unfold letter_bytes. rewrite <- app_assoc. symmetry. apply drop_app_length'. unfold mail_bytes. by rewrite length_header_words. }
  unfold Put, newMail, MaxMailSize, MaxPacketSize, MaxWireSize, sizeof_header, sizeof_mail_header.
  rewrite (proj2 (Z.leb_le _ (64 - 12 - 12))) by lia. cbn [ASSERT mbind outcome_bind].
  rewrite buf_get_ok by (rewrite ?length_app; lia). cbn [mbind outcome_bind]. change (Z.to_nat 0) with 0%nat. rewrite drop_0.
  rewrite take_app_length' by lia. rewrite buf_put_ok by lia. cbn [mbind outcome_bind]. change (Z.to_nat 0) with 0%nat. rewrite arr_set_lt by lia.
  cbn [mbind outcome_bind]. eexists _, _, _, box, _. split_and!; [reflexivity|done|done| |done|reflexivity| |].
  - rewrite length_splice; lia.
  - unfold mail_letter. cbn [pktHdr mailHdr mail_data]. rewrite <- Hbody, Nat2Z.id, take_splice_0 by lia. by destruct l.
  - cbn [mail_data]. rewrite length_splice; lia.
Qed.

Lemma PostReceive_ok box data po messages :
  0 <= box < numBoxes po -> boxes po !! Z.to_nat box = Some messages -> numBoxes po = Z.of_nat (length (boxes po)) ->
  (forall m, m ∈ messages -> length (mail_data m) = Z.to_nat MaxMailSize /\ 0 <= h_length (mailHdr m) <= MaxMailSize) ->
  length data = Z.to_nat MaxMailSize ->
  PostReceive box data po = match messages with
    | [] => Ok None
    | m :: rest => Ok (Some (mkOffice (network po) (<[Z.to_nat box := rest]> (boxes po)) (numBoxes po), pktHdr m, mailHdr m,
        splice data 0 (l_body (mail_letter m))))
    end.
Proof.
  intros Hb Hm Hnb Hms Hd. unfold PostReceive. rewrite (proj2 (Z.leb_le _ _)), (proj2 (Z.ltb_lt _ _)) by lia.
  cbn [andb ASSERT mbind outcome_bind]. rewrite (arr_get_Some _ _ messages) by (done || lia). cbn [mbind outcome_bind].
  destruct messages as [|m rest]; [done|]. destruct (Hms m) as [Hml Hmh]; [left|]. cbn [Get].
  unfold MaxMailSize, MaxPacketSize, MaxWireSize, sizeof_header, sizeof_mail_header in *.
  rewrite buf_get_ok by lia. cbn [mbind outcome_bind]. change (Z.to_nat 0) with 0%nat. rewrite drop_0.
  rewrite buf_put_ok by (rewrite ?length_take; lia). cbn [mbind outcome_bind]. rewrite (proj2 (Z.leb_le _ _)) by lia.
  cbn [ASSERT mbind outcome_bind]. by rewrite arr_set_lt by lia.
Qed.

(** ** Two machines

    A sending machine and the machine [me] it sends to, in every order in which
    the senders, the receiver's polling, its postal worker and the readers of
    the mailboxes can run.  [s_sent] and [s_got] record the letters sent and
    read so far. *)
Record mail_state (W KA KB : Type) := mkMailState {
  s_out : NetworkOutput;
  s_world : W;
  s_ka : KA;
  s_office : PostOfficeInput;
  s_buffer : list Z;
  s_kb : KB;
  s_sent : list letter;
  s_got : list letter;
}.
Arguments mkMailState {W KA KB} _ _ _ _ _ _ _ _.
Arguments s_out {W KA KB} _.
Arguments s_world {W KA KB} _.
Arguments s_ka {W KA KB} _.
Arguments s_office {W KA KB} _.
Arguments s_buffer {W KA KB} _.
Arguments s_kb {W KA KB} _.
Arguments s_sent {W KA KB} _.
Arguments s_got {W KA KB} _.

Section system.
Context {W KA KB : Type} `{HostSockets W} `{InterruptState KA} `{!InterruptStateLaws KA} `{InterruptState KB} `{!InterruptStateLaws KB}.
Context (times100 : Q -> Q) (hostName me : Z) (inbound : W -> list (list Z)) `{!SocketLaws W me inbound}.
Context (acquire release : KA -> outcome KA) (wait : NetworkOutput -> KA -> outcome (NetworkOutput * KA)) (available : KB -> outcome KB).
Context (Hacquire : keeps acquire) (Hrelease : keeps release) (Hwait : wait_ok wait) (Havailable : keeps available).
Implicit Types s : mail_state W KA KB.

(** A call of [PostSend] that its assertions and buffers allow. *)
Record sendable (nBoxes : Z) (packet0 wire0 : list Z) (pkt : PacketHeader) (hdr : MailHeader) (data : list Z) : Prop := {
  sd_letter : letter_ok me nBoxes (letter_of hostName pkt hdr data);
  sd_packet : length packet0 = Z.to_nat MaxPacketSize;
  sd_wire : length wire0 = Z.to_nat MaxWireSize;
  sd_data : h_length hdr <= Z.of_nat (length data);
}.

Inductive mail_step : mail_state W KA KB -> mail_state W KA KB -> Prop :=
  | mail_send s random packet0 wire0 pkt hdr data n w k :
      sendable (numBoxes (s_office s)) packet0 wire0 pkt hdr data ->
      PostSend times100 hostName acquire release wait random packet0 wire0 pkt hdr data (s_out s) (s_world s) (s_ka s) = Ok (n, w, k) ->
      mail_step s (mkMailState n w k (s_office s) (s_buffer s) (s_kb s) (s_sent s ++ [letter_of hostName pkt hdr data]) (s_got s))
  | mail_poll s n w k :
      NetworkInputCallBack me available (network (s_office s)) (s_world s) (s_kb s) = Ok (n, w, k) ->
      mail_step s (mkMailState (s_out s) w (s_ka s) (mkOffice n (boxes (s_office s)) (numBoxes (s_office s))) (s_buffer s) k (s_sent s) (s_got s))
  | mail_deliver s data0 po buffer :
      p_length (inHdr (network (s_office s))) <> 0 -> length data0 = Z.to_nat MaxMailSize ->
      PostalDelivery data0 (s_buffer s) (s_office s) = Ok (po, buffer) ->
      mail_step s (mkMailState (s_out s) (s_world s) (s_ka s) po buffer (s_kb s) (s_sent s) (s_got s))
  | mail_receive s box data po pkt hdr data' :
      0 <= box < numBoxes (s_office s) -> length data = Z.to_nat MaxMailSize ->
      PostReceive box data (s_office s) = Ok (Some (po, pkt, hdr, data')) ->
      mail_step s (mkMailState (s_out s) (s_world s) (s_ka s) po (s_buffer s) (s_kb s) (s_sent s)
        (s_got s ++ [mkLetter pkt hdr (take (Z.to_nat (h_length hdr)) data')])).

Definition for_box (b : Z) (ls : list letter) : list letter := filter (fun l => h_to (l_hdr l) = b) ls.

(** The letters that have not been lost are those that were delivered, the one
    in the device and those in the socket, in the order of sending. *)
Record mail_inv s : Prop := {
  mi_idle : sendBusy (s_out s) = false;
  mi_ka : clock_ok (s_ka s);
  mi_kb : clock_ok (s_kb s);
  mi_buffer : length (s_buffer s) = Z.to_nat MaxPacketSize;
  mi_inbox : length (inbox (network (s_office s))) = Z.to_nat MaxPacketSize;
  mi_boxes : numBoxes (s_office s) = Z.of_nat (length (boxes (s_office s)));
  mi_letters : exists delivered device socket,
    (delivered ++ device ++ socket) `sublist_of` s_sent s /\ buffered (network (s_office s)) device /\
    Forall2 carries (inbound (s_world s)) socket /\
    Forall (letter_ok me (numBoxes (s_office s))) (delivered ++ device ++ socket) /\
    forall b box, boxes (s_office s) !! b = Some box ->
      for_box (Z.of_nat b) (s_got s) ++ (mail_letter <$> box) = for_box (Z.of_nat b) delivered;
  mi_mail : forall b box m, boxes (s_office s) !! b = Some box -> m ∈ box -> length (mail_data m) = Z.to_nat MaxMailSize;
}.

(** The office has just been opened. *)
Record mail_start s : Prop := {
  ms_idle : sendBusy (s_out s) = false;
  ms_ka : clock_ok (s_ka s);
  ms_kb : clock_ok (s_kb s);
  ms_buffer : length (s_buffer s) = Z.to_nat MaxPacketSize;
  ms_inbox : length (inbox (network (s_office s))) = Z.to_nat MaxPacketSize;
  ms_empty : p_length (inHdr (network (s_office s))) = 0;
  ms_world : inbound (s_world s) = [];
  ms_office : 0 <= numBoxes (s_office s) /\ boxes (s_office s) = replicate (Z.to_nat (numBoxes (s_office s))) [];
  ms_log : s_sent s = [] /\ s_got s = [];
}.

Lemma start_inv s : mail_start s -> mail_inv s.
Proof.
  intros [Hi Ha Hb Hbuf Hin He Hw [Hn Hbs] [Hs Hg]]. split; try done.
  - rewrite Hbs, length_replicate. lia.
  - exists [], [], []. rewrite Hs, Hg, Hw, Hbs. split_and!; [constructor|done|constructor|constructor|].
    intros b box Hbox. apply lookup_replicate in Hbox as [-> _]. done.
  - rewrite Hbs. intros b box m Hbox Hm. apply lookup_replicate in Hbox as [-> _]. set_solver.
Qed.

(** Mail in a box comes from a letter that was delivered to it. *)
Lemma box_letters s b box m : mail_inv s -> boxes (s_office s) !! b = Some box -> m ∈ box ->
  letter_ok me (numBoxes (s_office s)) (mail_letter m) /\ h_to (mailHdr m) = Z.of_nat b.
Proof.
  intros Hi Hb Hm. destruct (mi_letters _ Hi) as (del & dev & soc & _ & _ & _ & Hok & Hboxes).
  assert (mail_letter m ∈ for_box (Z.of_nat b) del) as Hin.
  { rewrite <- (Hboxes b box Hb). apply elem_of_app. right. by apply list_elem_of_fmap_2. }
  apply list_elem_of_filter in Hin as [Hto Hin]. split; [|exact Hto].
  rewrite Forall_forall in Hok. apply Hok. set_solver.
Qed.

Lemma send_inv s random packet0 wire0 pkt hdr data :
  mail_inv s -> sendable (numBoxes (s_office s)) packet0 wire0 pkt hdr data ->
  exists n w k,
    PostSend times100 hostName acquire release wait random packet0 wire0 pkt hdr data (s_out s) (s_world s) (s_ka s) = Ok (n, w, k) /\
    mail_inv (mkMailState n w k (s_office s) (s_buffer s) (s_kb s) (s_sent s ++ [letter_of hostName pkt hdr data]) (s_got s)).
Proof.
  intros Hi [Hl Hp Hw Hd].
  destruct (PostSend_ok times100 hostName acquire release wait me inbound (numBoxes (s_office s)) random packet0 wire0 pkt hdr data
    (s_out s) (s_world s) (s_ka s)) as (w' & k' & -> & Hk' & Hin); [done..|apply Hi|apply Hi|].
  eexists _, w', k'. split; [reflexivity|]. destruct Hi as [_ _ Hkb Hbuf Hbox Hnb (del & dev & soc & Hsub & Hdev & Hsoc & Hok & Hboxes) Hmail].
  set (l := letter_of hostName pkt hdr data) in *. split; try done. cbn [s_world s_sent s_office s_got] in *.
  destruct Hin as [->|(_ & p & Hcar & ->)].
  - exists del, dev, soc. split_and!; try done. by apply sublist_inserts_r.
  - exists del, dev, (soc ++ [l]). replace (del ++ dev ++ soc ++ [l]) with ((del ++ dev ++ soc) ++ [l]) by (by rewrite <- !app_assoc).
    split_and!; [|done| | |done].
    + apply sublist_app; [done|done].
    + apply Forall2_app; [done|]. by constructor; [|constructor].
    + apply Forall_app. split; [done|]. by apply Forall_singleton.
Qed.

Lemma poll_inv s : mail_inv s ->
  exists n w k, NetworkInputCallBack me available (network (s_office s)) (s_world s) (s_kb s) = Ok (n, w, k) /\
    mail_inv (mkMailState (s_out s) w (s_ka s) (mkOffice n (boxes (s_office s)) (numBoxes (s_office s))) (s_buffer s) k (s_sent s) (s_got s)).
Proof.
  intros [Hidle Hka Hkb Hbuf Hbox Hnb (del & dev & soc & Hsub & Hdev & Hsoc & Hok & Hboxes) Hmail].
  destruct (decide (p_length (inHdr (network (s_office s))) <> 0 \/ inbound (s_world s) = [])) as [Hno|Hyes].
  - destruct (NetworkInput_nothing me inbound available (network (s_office s)) (s_world s) (s_kb s) Hkb Hno) as (k' & -> & Hk').
    eexists _, _, _. split; [reflexivity|]. split; try done. by exists del, dev, soc.
  - apply Decidable.not_or in Hyes as [He Hne]. assert (p_length (inHdr (network (s_office s))) = 0) as He' by lia.
    assert (dev = []) as ->.
    { destruct dev as [|l [|]]; [done| |done]. exfalso. apply He. eapply buffered_length; [done|].
      rewrite Forall_forall in Hok. apply Hok. set_solver. }
    destruct (inbound (s_world s)) as [|p q] eqn:Ew; [done|].
    apply Forall2_cons_inv_l in Hsoc as (l & soc' & (wire0 & data & -> & Hw0 & Hd & Htake) & Hsoc & ->).
    assert (letter_ok me (numBoxes (s_office s)) l) as Hl. { rewrite Forall_forall in Hok. apply Hok. set_solver. }
    destruct (NetworkInput_packet me inbound available (network (s_office s)) (s_world s) (s_kb s) wire0 (l_pkt l) data q)
      as (w' & k' & -> & Hw' & Hk'); [done..|apply Hl|apply Hl| |done|].
    { pose proof (lo_size _ _ _ Hl). rewrite (lo_length _ _ _ Hl).
      unfold MaxMailSize, MaxPacketSize, MaxWireSize, sizeof_header, sizeof_mail_header in *. lia. }
    eexists _, _, _. split; [reflexivity|]. pose proof (length_letter_bytes _ _ _ Hl) as Hlb. pose proof (lo_length _ _ _ Hl) as Hpl.
    pose proof (lo_size _ _ _ Hl) as Hsz. rewrite Htake.
    unfold MaxMailSize, MaxPacketSize, MaxWireSize, sizeof_header, sizeof_mail_header in *.
    split; cbn [s_office s_world network boxes numBoxes inbox s_sent s_got]; try done.
    + rewrite length_splice; unfold MaxPacketSize, MaxWireSize, sizeof_header; lia.
    + exists del, [l], soc'. rewrite Hw'. split_and!; try done. cbn [buffered inHdr inbox]. split; [done|].
      rewrite <- Hlb, Nat2Z.id. apply take_splice_0. lia.
Qed.

Lemma deliver_inv s data0 :
  mail_inv s -> p_length (inHdr (network (s_office s))) <> 0 -> length data0 = Z.to_nat MaxMailSize ->
  exists po buffer, PostalDelivery data0 (s_buffer s) (s_office s) = Ok (po, buffer) /\
    mail_inv (mkMailState (s_out s) (s_world s) (s_ka s) po buffer (s_kb s) (s_sent s) (s_got s)).
Proof.
  intros [Hidle Hka Hkb Hbuf Hbox Hnb (del & dev & soc & Hsub & Hdev & Hsoc & Hok & Hboxes) Hmail] Hne Hd0.
  destruct dev as [|l [|]]; [done| |done].
  assert (letter_ok me (numBoxes (s_office s)) l) as Hl. { rewrite Forall_forall in Hok. apply Hok. set_solver. }
  destruct (PostalDelivery_ok me data0 (s_buffer s) (s_office s) l) as (n' & bs' & buf' & box & m & -> & Hn' & Ein & Hb' & Hbx & -> & Hm & Hml); [done..|].
  eexists _, _. split; [reflexivity|]. pose proof (lo_box _ _ _ Hl) as Hto.
  split; cbn [s_office s_world network boxes numBoxes inbox s_sent s_got s_buffer s_out s_ka s_kb]; try done.
  - by rewrite Ein.
  - by rewrite length_insert.
  - exists (del ++ [l]), [], soc. rewrite <- app_assoc. split_and!; try done. intros b bx Hb.
    unfold for_box. rewrite filter_app, (filter_cons _ l), filter_nil. fold (for_box (Z.of_nat b) del) (for_box (Z.of_nat b) (s_got s)).
    destruct (decide (b = Z.to_nat (h_to (l_hdr l)))) as [->|Hbne].
    + rewrite list_lookup_insert_eq in Hb by (by eapply lookup_lt_Some). injection Hb as <-.
      rewrite decide_True by lia. rewrite fmap_app, app_assoc, (Hboxes _ _ Hbx). cbn. by rewrite Hm.
    + rewrite list_lookup_insert_ne in Hb by done. rewrite decide_False by lia. rewrite app_nil_r. by apply Hboxes.
  - intros b bx m' Hb Hm'. destruct (decide (b = Z.to_nat (h_to (l_hdr l)))) as [->|Hbne].
    + rewrite list_lookup_insert_eq in Hb by (by eapply lookup_lt_Some). injection Hb as <-.
      apply elem_of_app in Hm' as [Hm'|Hm']; [by eapply Hmail|]. by apply list_elem_of_singleton in Hm' as ->.
    + rewrite list_lookup_insert_ne in Hb by done. by eapply Hmail.
Qed.

Lemma receive_inv s box data :
  mail_inv s -> 0 <= box < numBoxes (s_office s) -> length data = Z.to_nat MaxMailSize ->
  exists r, PostReceive box data (s_office s) = Ok r /\
    match r with
    | None => True
    | Some (po, pkt, hdr, data') => mail_inv (mkMailState (s_out s) (s_world s) (s_ka s) po (s_buffer s) (s_kb s) (s_sent s)
        (s_got s ++ [mkLetter pkt hdr (take (Z.to_nat (h_length hdr)) data')]))
    end.
Proof.
  intros Hi Hb Hd. pose proof (mi_boxes _ Hi) as Hnb.
  destruct (lookup_lt_is_Some_2 (boxes (s_office s)) (Z.to_nat box)) as [messages Hm]; [lia|].
  pose proof (fun m => box_letters s (Z.to_nat box) messages m Hi Hm) as Hlet.
  rewrite (PostReceive_ok box data (s_office s) messages); [|done..| |done].
  2: { intros m Hmm. split; [by eapply mi_mail|]. destruct (Hlet m Hmm) as [Hl _]. apply (lo_size _ _ _ Hl). }
  destruct messages as [|m rest]; [by eexists|]. eexists. split; [reflexivity|].
  destruct (Hlet m) as [Hl Hto]; [left|]. destruct Hi as [Hidle Hka Hkb Hbuf Hbox Hnb' (del & dev & soc & Hsub & Hdev & Hsoc & Hok & Hboxes) Hmail].
  assert (mkLetter (pktHdr m) (mailHdr m) (take (Z.to_nat (h_length (mailHdr m))) (splice data 0 (l_body (mail_letter m)))) = mail_letter m) as ->.
  { pose proof (lo_body _ _ _ Hl) as Hbody. pose proof (lo_size _ _ _ Hl) as Hsz. cbn [mail_letter l_hdr] in Hbody, Hsz.
    rewrite <- Hbody, Nat2Z.id, take_splice_0 by (unfold MaxMailSize, MaxPacketSize, MaxWireSize, sizeof_header, sizeof_mail_header in *; lia). done. }
  split; cbn [s_office s_world network boxes numBoxes inbox s_sent s_got s_buffer s_out s_ka s_kb]; try done.
  - by rewrite length_insert.
  - exists del, dev, soc. split_and!; try done. intros b bx Hbx. unfold for_box. rewrite filter_app, (filter_cons _ (mail_letter m)), filter_nil.
    fold (for_box (Z.of_nat b) del) (for_box (Z.of_nat b) (s_got s)). cbn [mail_letter l_hdr].
    destruct (decide (b = Z.to_nat box)) as [->|Hbne].
    + rewrite list_lookup_insert_eq in Hbx by lia. injection Hbx as <-. rewrite decide_True by done.
      rewrite <- (Hboxes _ _ Hm), <- app_assoc. done.
    + rewrite list_lookup_insert_ne in Hbx by done. rewrite decide_False by lia. rewrite app_nil_r. by apply Hboxes.
  - intros b bx m' Hbx Hm'. destruct (decide (b = Z.to_nat box)) as [->|Hbne].
    + rewrite list_lookup_insert_eq in Hbx by lia. injection Hbx as <-. eapply Hmail; [done|by right].
    + rewrite list_lookup_insert_ne in Hbx by done. by eapply Hmail.
Qed.

Lemma mail_step_inv s s' : mail_inv s -> mail_step s s' -> mail_inv s'.
Proof.
  intros Hi Hstep. destruct Hstep as [s random packet0 wire0 pkt hdr data n w k Hs E|s n w k E|s data0 po buffer Hne Hd E|s box data po pkt hdr data' Hb Hd E].
  - destruct (send_inv s random packet0 wire0 pkt hdr data Hi Hs) as (n' & w' & k' & E' & H'). rewrite E in E'. by injection E' as <- <- <-.
  - destruct (poll_inv s Hi) as (n' & w' & k' & E' & H'). rewrite E in E'. by injection E' as <- <- <-.
  - destruct (deliver_inv s data0 Hi Hne Hd) as (po' & buffer' & E' & H'). rewrite E in E'. by injection E' as <- <-.
  - destruct (receive_inv s box data Hi Hb Hd) as (r & E' & H'). rewrite E in E'. by injection E' as <-.
Qed.

Lemma mail_reach_inv s s' : mail_inv s -> rtc mail_step s s' -> mail_inv s'.
Proof. intros Hi Hr. induction Hr; eauto using mail_step_inv. Qed.

Lemma for_box_sublist b l k : l `sublist_of` k -> for_box b l `sublist_of` for_box b k.
Proof.
  unfold for_box. induction 1 as [|x l k Hs IH|x l k Hs IH]; [done| |]; rewrite !(filter_cons _ x); destruct (decide (h_to (l_hdr x) = b));
    try done; by constructor.
Qed.

(** C28: mail arrives in order and unchanged, or not at all.  Whatever the order
    in which senders, polling, the postal worker and the readers run, and
    whichever packets the network loses: no operation fails one of its
    assertions or runs past one of its buffers, and what has been read from a
    mailbox, followed by what is in it, is a subsequence of what was sent to it,
    with the headers and the bytes of the messages. *)
Theorem mail_in_order s0 s :
  mail_start s0 -> rtc mail_step s0 s ->
  (forall random packet0 wire0 pkt hdr data, sendable (numBoxes (s_office s)) packet0 wire0 pkt hdr data ->
     exists r, PostSend times100 hostName acquire release wait random packet0 wire0 pkt hdr data (s_out s) (s_world s) (s_ka s) = Ok r) /\
  (exists r, NetworkInputCallBack me available (network (s_office s)) (s_world s) (s_kb s) = Ok r) /\
  (forall data0, p_length (inHdr (network (s_office s))) <> 0 -> length data0 = Z.to_nat MaxMailSize ->
     exists r, PostalDelivery data0 (s_buffer s) (s_office s) = Ok r) /\
  (forall box data, 0 <= box < numBoxes (s_office s) -> length data = Z.to_nat MaxMailSize ->
     exists r, PostReceive box data (s_office s) = Ok r) /\
  forall b box, boxes (s_office s) !! b = Some box ->
    (for_box (Z.of_nat b) (s_got s) ++ (mail_letter <$> box)) `sublist_of` for_box (Z.of_nat b) (s_sent s).
Proof.
  intros Hst Hr. pose proof (mail_reach_inv _ _ (start_inv _ Hst) Hr) as Hi. split_and!.
  - intros random packet0 wire0 pkt hdr data Hs. destruct (send_inv s random packet0 wire0 pkt hdr data Hi Hs) as (n & w & k & -> & _). eauto.
  - destruct (poll_inv s Hi) as (n & w & k & -> & _). eauto.
  - intros data0 Hne Hd. destruct (deliver_inv s data0 Hi Hne Hd) as (po & buffer & -> & _). eauto.
  - intros box data Hb Hd. destruct (receive_inv s box data Hi Hb Hd) as (r & -> & _). eauto.
  - destruct (mi_letters _ Hi) as (del & dev & soc & Hsub & _ & _ & _ & Hboxes). intros b box Hb. rewrite (Hboxes b box Hb).
    apply for_box_sublist. etrans; [|done]. by apply sublist_inserts_r.
Qed.
End system.

(** ** A run

    Sockets that keep their datagrams in a list, and two machines on them. *)
Module MailSim.
#[global] Instance queue_sockets : HostSockets (list (list Z)) := {
  host_select w := match w with [] => 0 | _ => 1 end;
  host_recvfrom w := match w with [] => ([], -1, []) | p :: q => (q, Z.of_nat (length p), p) end;
  host_sendto to p w := if to =? 1 then (w ++ [p], Z.of_nat (length p)) else (w, -1) }.

#[global] Instance queue_laws : SocketLaws (list (list Z)) 1 id.
Proof.
  split; unfold id; cbn.
  - by intros [].
  - intros w p q -> Hp. eexists. split; [|done]. by rewrite Hp.
  - intros w p Hp. eexists _, _. split; [done|]. left. split; [by rewrite Hp|done].
Qed.

Definition keep (k : Sim.K) : outcome Sim.K := Ok k.
Definition waits (n : NetworkOutput) (k : Sim.K) : outcome (NetworkOutput * Sim.K) := NetworkOutputCallBack keep n k.

Lemma keep_ok : keeps keep.
Proof. intros k Hk. by exists k. Qed.

Lemma waits_ok : wait_ok waits.
Proof. intros n k Hk. eexists. split; [reflexivity|]. by apply count_packets_clock. Qed.

Definition times (q : Q) : Q := q * 100.
Definition s0 : mail_state (list (list Z)) Sim.K Sim.K :=
  mkMailState (newNetworkOutput 1) [] Sim.k0 (newOffice (mkNetIn false (mkPacket 0 0 0) (replicate 52 0)) 10) (replicate 52 0) Sim.k0 [] [].

Lemma clock : clock_ok Sim.k0.
Proof. split; [by vm_compute|apply Sim.k0_sorted]. Qed.

Lemma start : mail_start id s0.
Proof. split; try done; apply clock. Qed.

Lemma can_send data : length data = 3%nat ->
  sendable 0 1 10 (replicate 52 0) (replicate 64 0) (mkPacket 1 0 0) (mkMailHdr 4 2 3) data.
Proof.
  intros Hd. split; [split|done|done|cbn; lia]; cbn [letter_of l_pkt l_hdr l_body p_to h_to h_from h_length p_from p_length].
  all: try done. rewrite length_take. cbn. lia.
Qed.
End MailSim.

(** One message is sent, polled, delivered and read. *)
Lemma mail_in_order_witness :
  exists s, rtc (mail_step MailSim.times 0 1 MailSim.keep MailSim.keep MailSim.waits MailSim.keep) MailSim.s0 s /\
    s_got s = [letter_of 0 (mkPacket 1 0 0) (mkMailHdr 4 2 3) [7; 8; 9]] /\
    exists r, NetworkInputCallBack 1 MailSim.keep (network (s_office s)) (s_world s) (s_kb s) = Ok r.
Proof.
  eexists. assert (forall (A B C : Prop), A -> B -> (A -> C) -> A /\ B /\ C) as Hand by tauto. apply Hand.
  - eapply rtc_l. { eapply (mail_send _ _ _ _ _ _ _ _ 5); [exact (MailSim.can_send [7; 8; 9] eq_refl)|by vm_compute]. }
    eapply rtc_l. { eapply mail_poll. by vm_compute. }
    eapply rtc_l. { eapply (mail_deliver _ _ _ _ _ _ _ _ (replicate 40 0)); [by vm_compute|done|by vm_compute]. }
    eapply rtc_l. { eapply (mail_receive _ _ _ _ _ _ _ _ 4 (replicate 40 0)); [by vm_compute|done|by vm_compute]. }
    apply rtc_refl.
  - by vm_compute.
  - intros Hr. exact (proj1 (proj2 (mail_in_order MailSim.times 0 1 id MailSim.keep MailSim.keep MailSim.waits MailSim.keep
      MailSim.keep_ok MailSim.keep_ok MailSim.waits_ok MailSim.keep_ok _ _ MailSim.start Hr))).
Defined.
