(* ===== verification/Disk.v ===== *)
(** * The simulated disk (src/code/machine/disk.h, disk.cc)

    The disk is a UNIX file: a magic number followed by the sectors.  A request
    transfers one sector at once, marks the device active and schedules the
    completion interrupt after a latency computed from the head position, the
    rotation and the track buffer.  [BlockStore] is the interface the file
    system is proved against; the UNIX file image implements it. *)

From S2P Require Import Prelude Lists Interrupt.

(** ** Geometry (disk.h) *)
Definition SectorSize : Z := 128.
Definition SectorsPerTrack : Z := 32.
Definition NumTracks : Z := 32.
Definition NumSectors : Z := SectorsPerTrack * NumTracks.
Definition MagicNumber : Z := 0x456789ab.
Definition MagicSize : Z := 4.
Definition DiskSize : Z := MagicSize + NumSectors * SectorSize.

(** ** The UNIX file behind the disk (lib/sysdep.cc: Lseek, Read, WriteFile) *)

(** [Lseek(fd, off, 0); Read(fd, buffer, n)]: [Read] asserts a full read. *)
Definition file_read (f : list Z) (off n : Z) : outcome (list Z) :=
  _ ← ASSERT (0 <=? off);
  let bs := take (Z.to_nat n) (drop (Z.to_nat off) f) in
  _ ← ASSERT (Z.of_nat (length bs) =? n);
  Ok bs.

(** [Lseek(fd, off, 0); WriteFile(fd, buffer, n)]: a write past the end leaves
    a hole of zero bytes. *)
Definition file_write (f : list Z) (off : Z) (bs : list Z) : outcome (list Z) :=
  _ ← ASSERT (0 <=? off);
  let o := Z.to_nat off in
  Ok (take o f ++ replicate (o - length f) 0 ++ bs ++ drop (o + length bs) f).

Record Disk := mkDisk {
  image : list Z;
  active : bool;
  lastSector : Z;
  bufferInit : Z;
}.

(** [Disk::Disk]: check the magic number of an existing file, or create one. *)
Definition newDisk (existing : option (list Z)) : outcome Disk :=
  match existing with
  | Some f =>
      bs ← file_read f 0 MagicSize;
      _ ← ASSERT (to_int (le_value bs) =? to_int MagicNumber);
      Ok (mkDisk f false 0 0)
  | None =>
      f ← file_write [] 0 (le_bytes 4 MagicNumber);
      f ← file_write f (DiskSize - 4) (le_bytes 4 0);
      Ok (mkDisk f false 0 0)
  end.

(** ** Timing *)

(** [Disk::TimeToSeek]: the seek time and, through the pointer, the rotation. *)
Definition TimeToSeek (d : Disk) (totalTicks newSector : Z) : Z * Z :=
  let newTrack := Z.quot newSector SectorsPerTrack in
  let oldTrack := Z.quot (lastSector d) SectorsPerTrack in
  let seek := Z.abs (newTrack - oldTrack) * SeekTime in
  let over := Z.rem (totalTicks + seek) RotationTime in
  (seek, if 0 <? over then RotationTime - over else 0).

(** [Disk::ModuloDiff] *)
Definition ModuloDiff (to from : Z) : Z :=
  Z.rem (Z.rem to SectorsPerTrack - Z.rem from SectorsPerTrack + SectorsPerTrack) SectorsPerTrack.

(** [Disk::ComputeLatency] (with the track buffer) *)
Definition ComputeLatency (d : Disk) (totalTicks newSector : Z) (writing : bool) : Z :=
  let '(seek, rotation) := TimeToSeek d totalTicks newSector in
  let timeAfter := totalTicks + seek + rotation in
  if negb writing && (seek =? 0) &&
     (ModuloDiff newSector (Z.quot (bufferInit d) RotationTime) <?
        Z.quot (timeAfter - bufferInit d) RotationTime)
  then RotationTime
  else
    let rotation := rotation + ModuloDiff newSector (Z.quot timeAfter RotationTime) * RotationTime in
    seek + rotation + RotationTime.

(** [Disk::UpdateLast] *)
Definition UpdateLast (d : Disk) (totalTicks newSector : Z) : Disk :=
  let '(seek, rotate) := TimeToSeek d totalTicks newSector in
  mkDisk (image d) (active d) newSector
    (if seek =? 0 then bufferInit d else totalTicks + seek + rotate).

(** ** Requests *)
Definition in_disk (s : Z) : bool := (0 <=? s) && (s <? NumSectors).

Section requests.
Context {K : Type} `{InterruptState K}.

Definition count_io (reads writes : Z) (k : K) : K :=
  let s := k_stats k in
  set_stats (mkStatistics (totalTicks s) (idleTicks s) (systemTicks s) (userTicks s)
    (numDiskReads s + reads) (numDiskWrites s + writes) (numConsoleCharsRead s)
    (numConsoleCharsWritten s) (numPageFaults s) (numPacketsSent s) (numPacketsRecvd s)) k.

(** [Disk::ReadRequest] *)
Definition ReadRequest (d : Disk) (k : K) (sectorNumber : Z) : outcome (Disk * K * list Z) :=
  let now := totalTicks (k_stats k) in
  let ticks := ComputeLatency d now sectorNumber false in
  _ ← ASSERT (negb (active d));
  _ ← ASSERT (in_disk sectorNumber);
  data ← file_read (image d) (SectorSize * sectorNumber + MagicSize) SectorSize;
  let d := UpdateLast (mkDisk (image d) true (lastSector d) (bufferInit d)) now sectorNumber in
  k ← Schedule DiskObj ticks DiskInt (count_io 1 0 k);
  Ok (d, k, data).

(** [Disk::WriteRequest]; [data] is the caller's [SectorSize]-byte buffer. *)
Definition WriteRequest (d : Disk) (k : K) (sectorNumber : Z) (data : list Z)
  : outcome (Disk * K) :=
  let now := totalTicks (k_stats k) in
  let ticks := ComputeLatency d now sectorNumber true in
  _ ← ASSERT (negb (active d));
  _ ← ASSERT (in_disk sectorNumber);
  f ← file_write (image d) (SectorSize * sectorNumber + MagicSize) data;
  let d := UpdateLast (mkDisk f true (lastSector d) (bufferInit d)) now sectorNumber in
  k ← Schedule DiskObj ticks DiskInt (count_io 0 1 k);
  Ok (d, k).

(** [Disk::CallBack]: the device is free again; the client is told. *)
Definition DiskCallBack (callWhenDone : K -> outcome K) (d : Disk) (k : K) : outcome (Disk * K) :=
  let d := mkDisk (image d) false (lastSector d) (bufferInit d) in
  k ← callWhenDone k;
  Ok (d, k).
End requests.

(** ** The interface offered to the file system *)
Class BlockStore (D : Type) := {
  bs_read : D -> Z -> outcome (list Z);
  bs_write : D -> Z -> list Z -> outcome D;
  bs_ok : D -> Prop;
  bs_sector : D -> Z -> list Z;
}.

(** Sectors are [SectorSize] bytes; a read returns the sector, a write
    replaces it and no other; a sector number outside the disk stops in an
    assertion. *)
Class BlockStoreLaws (D : Type) `{BlockStore D} : Prop := {
  bs_read_ok d s : bs_ok d -> in_disk s = true -> bs_read d s = Ok (bs_sector d s);
  bs_read_out d s : in_disk s = false -> bs_read d s = Err AssertFailed;
  bs_write_ok d s bs : bs_ok d -> in_disk s = true -> length bs = Z.to_nat SectorSize ->
    Forall is_byte bs ->
    exists d', bs_write d s bs = Ok d' /\ bs_ok d' /\ bs_sector d' s = bs /\
      forall s', in_disk s' = true -> s' <> s -> bs_sector d' s' = bs_sector d s';
  bs_write_out d s bs : in_disk s = false -> bs_write d s bs = Err AssertFailed;
  bs_sector_length d s : bs_ok d -> in_disk s = true ->
    length (bs_sector d s) = Z.to_nat SectorSize;
  bs_sector_bytes d s : bs_ok d -> in_disk s = true -> Forall is_byte (bs_sector d s);
}.

(** The UNIX file image as a block store: what a completed request does. *)
Definition image_read (f : list Z) (s : Z) : outcome (list Z) :=
  _ ← ASSERT (in_disk s); file_read f (SectorSize * s + MagicSize) SectorSize.
Definition image_write (f : list Z) (s : Z) (bs : list Z) : outcome (list Z) :=
  _ ← ASSERT (in_disk s); file_write f (SectorSize * s + MagicSize) bs.
Definition image_ok (f : list Z) : Prop :=
  length f = Z.to_nat DiskSize /\ Forall is_byte f.
Definition image_sector (f : list Z) (s : Z) : list Z :=
  take (Z.to_nat SectorSize) (drop (Z.to_nat (SectorSize * s + MagicSize)) f).

#[export] Instance image_store : BlockStore (list Z) := {
  bs_read := image_read; bs_write := image_write; bs_ok := image_ok; bs_sector := image_sector }.

(** ** The image implements the interface *)
Lemma in_disk_iff s : in_disk s = true <-> 0 <= s < 1024.
Proof. unfold in_disk. change NumSectors with 1024. lia. Qed.

Lemma sector_fits f s :
  image_ok f -> in_disk s = true ->
  (Z.to_nat (SectorSize * s + MagicSize) + Z.to_nat SectorSize <= length f)%nat.
Proof.
  intros [Hlen _] Hs%in_disk_iff. rewrite Hlen.
  change DiskSize with 131076. unfold SectorSize, MagicSize. lia.
Qed.

Lemma length_image_sector f s :
  image_ok f -> in_disk s = true -> length (image_sector f s) = Z.to_nat SectorSize.
Proof.
  intros Hok Hs. pose proof (sector_fits f s Hok Hs). unfold image_sector.
  rewrite length_take, length_drop. lia.
Qed.

Lemma file_read_sector f s :
  image_ok f -> in_disk s = true ->
  file_read f (SectorSize * s + MagicSize) SectorSize = Ok (image_sector f s).
Proof.
  intros Hok Hs. unfold file_read. pose proof Hs as Hs'%in_disk_iff.
  replace (0 <=? _) with true by (unfold SectorSize, MagicSize; lia). cbn [ASSERT mbind outcome_bind].
  fold (image_sector f s). rewrite (length_image_sector f s Hok Hs). done.
Qed.

Lemma file_write_splice f s bs :
  image_ok f -> in_disk s = true -> length bs = Z.to_nat SectorSize ->
  file_write f (SectorSize * s + MagicSize) bs =
    Ok (splice f (Z.to_nat (SectorSize * s + MagicSize)) bs).
Proof.
  intros Hok Hs Hbs. pose proof (sector_fits f s Hok Hs). unfold file_write.
  pose proof Hs as Hs'%in_disk_iff.
  replace (0 <=? _) with true by (unfold SectorSize, MagicSize; lia). cbn [ASSERT mbind outcome_bind].
  replace (_ - length f)%nat with O by lia. done.
Qed.

Lemma image_sector_lookup f s i :
  (i < Z.to_nat SectorSize)%nat ->
  image_sector f s !! i = f !! (Z.to_nat (SectorSize * s + MagicSize) + i)%nat.
Proof. intros. unfold image_sector. rewrite lookup_take_lt by lia. apply lookup_drop. Qed.

Lemma image_splice_sector f s s' bs :
  image_ok f -> in_disk s = true -> in_disk s' = true -> length bs = Z.to_nat SectorSize ->
  image_sector (splice f (Z.to_nat (SectorSize * s + MagicSize)) bs) s' =
    if decide (s' = s) then bs else image_sector f s'.
Proof.
  intros Hok Hs Hs' Hbs. pose proof (sector_fits f s Hok Hs). pose proof (sector_fits f s' Hok Hs').
  apply in_disk_iff in Hs, Hs'. set (f' := splice _ _ _).
  assert (length f' = length f) as Hl' by (apply length_splice; lia).
  apply list_eq. intros i. destruct (decide (i < Z.to_nat SectorSize)%nat) as [Hi|Hi].
  - rewrite image_sector_lookup by done. unfold f'. rewrite lookup_splice by lia.
    unfold SectorSize, MagicSize in *. case_decide; case_decide; subst.
    + f_equal. lia.
    + lia.
    + lia.
    + by rewrite image_sector_lookup by (unfold SectorSize; lia).
  - rewrite !lookup_ge_None_2; [done| |].
    + case_decide; [lia|]. unfold image_sector. rewrite length_take. lia.
    + unfold image_sector. rewrite length_take. lia.
Qed.

Lemma splice_bytes (f bs : list Z) n : Forall is_byte f -> Forall is_byte bs -> Forall is_byte (splice f n bs).
Proof.
  intros Hf Hb. unfold splice. apply Forall_app. split; [by apply Forall_take|].
  apply Forall_app. split; [done|by apply Forall_drop].
Qed.

#[export] Instance image_laws : BlockStoreLaws (list Z).
Proof.
  split; simpl.
  - intros f s Hok Hs. unfold image_read. rewrite Hs. by apply file_read_sector.
  - intros f s Hs. unfold image_read. by rewrite Hs.
  - intros f s bs Hok Hs Hbs Hb. unfold image_write. rewrite Hs. cbn [ASSERT mbind outcome_bind].
    rewrite file_write_splice by done. eexists. split; [done|]. pose proof (sector_fits f s Hok Hs).
    split; [split|].
    + rewrite length_splice by lia. apply Hok.
    + apply splice_bytes; [apply Hok|done].
    + split.
      * by rewrite image_splice_sector, decide_True.
      * intros s' Hs' Hne. by rewrite image_splice_sector, decide_False.
  - intros f s bs Hs. unfold image_write. by rewrite Hs.
  - by apply length_image_sector.
  - intros f s Hok Hs. apply Forall_take, Forall_drop, Hok.
Qed.

(** ** Timing lemmas *)
Lemma TimeToSeek_ok d now s :
  0 <= now -> 0 <= s < NumSectors -> 0 <= lastSector d < NumSectors ->
  let '(seek, rot) := TimeToSeek d now s in
  0 <= seek <= 31 * SeekTime /\ 0 <= rot < RotationTime /\ (now + seek + rot) mod RotationTime = 0.
Proof.
  intros Hn Hs Hl. unfold TimeToSeek. change NumSectors with 1024 in *.
  unfold SectorsPerTrack, SeekTime, RotationTime.
  rewrite !Z.quot_div_nonneg by lia. set (seek := Z.abs _ * 500).
  assert (0 <= seek <= 31 * 500) as Hseek.
  { unfold seek. pose proof (Z.div_pos s 32). pose proof (Z.div_lt_upper_bound s 32 32).
    pose proof (Z.div_pos (lastSector d) 32). pose proof (Z.div_lt_upper_bound (lastSector d) 32 32). lia. }
  rewrite Z.rem_mod_nonneg by lia. pose proof (Z.mod_pos_bound (now + seek) 500 ltac:(lia)) as Hm.
  pose proof (Z.div_mod (now + seek) 500 ltac:(lia)) as Hdm.
  destruct (Z.ltb_spec 0 ((now + seek) mod 500)); split_and!; try lia.
  - replace (now + seek + (500 - (now + seek) mod 500)) with (((now + seek) / 500 + 1) * 500) by lia.
    apply Z.mod_mul. lia.
  - rewrite Z.add_0_r. lia.
Qed.

Lemma ModuloDiff_ok a b :
  0 <= a -> 0 <= b -> 0 <= ModuloDiff a b < SectorsPerTrack /\
    (b + ModuloDiff a b) mod SectorsPerTrack = a mod SectorsPerTrack.
Proof.
  intros Ha Hb. unfold ModuloDiff, SectorsPerTrack. rewrite (Z.rem_mod_nonneg a), (Z.rem_mod_nonneg b) by lia.
  pose proof (Z.mod_pos_bound a 32 ltac:(lia)). pose proof (Z.mod_pos_bound b 32 ltac:(lia)).
  rewrite Z.rem_mod_nonneg by lia. split; [apply Z.mod_pos_bound; lia|].
  rewrite Zplus_mod_idemp_r. pose proof (Z.div_mod a 32 ltac:(lia)). pose proof (Z.div_mod b 32 ltac:(lia)).
  replace (b + (a mod 32 - b mod 32 + 32)) with (a + (b / 32 - a / 32 + 1) * 32) by lia.
  apply Z_mod_plus_full.
Qed.

Lemma ComputeLatency_ok d now s w :
  0 <= now -> 0 <= s < NumSectors -> 0 <= lastSector d < NumSectors ->
  RotationTime <= ComputeLatency d now s w <= 65 * RotationTime /\
  (ComputeLatency d now s w = RotationTime /\ w = false \/
   (now + ComputeLatency d now s w) mod RotationTime = 0 /\
   ((now + ComputeLatency d now s w - RotationTime) / RotationTime) mod SectorsPerTrack =
     s mod SectorsPerTrack).
Proof.
  intros Hn Hs Hl. unfold ComputeLatency. pose proof (TimeToSeek_ok d now s Hn Hs Hl) as HT.
  destruct (TimeToSeek d now s) as [seek rot]. destruct HT as (Hseek & Hrot & Hal).
  destruct (_ && _)%bool eqn:E.
  { unfold RotationTime. split; [lia|]. left. split; [done|]. by destruct w. }
  set (ta := now + seek + rot) in *.
  assert (Z.quot ta RotationTime = ta / RotationTime) as -> by (apply Z.quot_div_nonneg; unfold RotationTime; lia).
  destruct (ModuloDiff_ok s (ta / RotationTime)) as [Hm Hmm]; [lia|apply Z.div_pos; unfold RotationTime; lia|].
  clear E. set (m := ModuloDiff _ _) in *. unfold SeekTime, RotationTime, SectorsPerTrack in *.
  split; [lia|]. right. pose proof (Z.div_mod ta 500 ltac:(lia)) as Hdm.
  replace (now + (seek + (rot + m * 500) + 500)) with ((ta / 500 + m + 1) * 500) by lia.
  split; [apply Z.mod_mul; lia|].
  replace ((ta / 500 + m + 1) * 500 - 500) with ((ta / 500 + m) * 500) by lia.
  by rewrite Z.div_mul by lia.
Qed.

(** ** Properties of the component *)

(** The disk state between requests. *)
Record disk_ok (d : Disk) : Prop := {
  dk_image : image_ok (image d);
  dk_last : in_disk (lastSector d) = true;
}.

Section properties.
Context {K : Type} `{InterruptState K} `{!InterruptStateLaws K}.

Lemma UpdateLast_fields d now s :
  image (UpdateLast d now s) = image d /\ active (UpdateLast d now s) = active d /\
  lastSector (UpdateLast d now s) = s.
Proof. unfold UpdateLast. by destruct (TimeToSeek d now s). Qed.

Lemma disk_request_ok (d : Disk) (k : K) s data :
  disk_ok d -> active d = false ->
  0 <= totalTicks (k_stats k) < 2 ^ 30 -> pending_sorted (pending (k_int k)) ->
  length data = Z.to_nat SectorSize -> Forall is_byte data ->
  if in_disk s then
    (exists d' k', ReadRequest d k s = Ok (d', k', image_sector (image d) s) /\
       image d' = image d /\ active d' = true /\ disk_ok d' /\
       (forall s', in_disk s' = true -> ReadRequest d' k' s' = Err AssertFailed) /\
       exists t, mkPending DiskObj t DiskInt ∈ pending (k_int k') /\
         totalTicks (k_stats k) + RotationTime <= t <= totalTicks (k_stats k) + 65 * RotationTime) /\
    (exists d' k', WriteRequest d k s data = Ok (d', k') /\ disk_ok d' /\ active d' = true /\
       image_sector (image d') s = data /\
       (forall s', in_disk s' = true -> s' <> s -> image_sector (image d') s' = image_sector (image d) s') /\
       forall k1 : K, DiskCallBack (fun k => Ok k) d' k1 =
         Ok (mkDisk (image d') false (lastSector d') (bufferInit d'), k1))
  else ReadRequest d k s = Err AssertFailed /\ WriteRequest d k s data = Err AssertFailed.
Proof.
  intros [Himg Hlast] Hact Ht Hs Hlen Hbytes. unfold ReadRequest, WriteRequest. rewrite Hact.
  cbn [negb ASSERT mbind outcome_bind]. destruct (in_disk s) eqn:Hin; [|done].
  cbn [ASSERT mbind outcome_bind]. rewrite file_read_sector, file_write_splice by done.
  cbn [mbind outcome_bind].
  assert (forall w r c, exists k', Schedule DiskObj (ComputeLatency d (totalTicks (k_stats k)) s w) DiskInt
      (count_io r c k) = Ok k' /\
    exists t, mkPending DiskObj t DiskInt ∈ pending (k_int k') /\
      totalTicks (k_stats k) + RotationTime <= t <= totalTicks (k_stats k) + 65 * RotationTime) as Hsched.
  { intros w r c. apply in_disk_iff in Hin, Hlast.
    destruct (ComputeLatency_ok d (totalTicks (k_stats k)) s w) as [Hlat _];
      [lia|change NumSectors with 1024; lia..|].
    unfold RotationTime in *.
    destruct (Schedule_ok DiskObj (ComputeLatency d (totalTicks (k_stats k)) s w) DiskInt (count_io r c k))
      as (k' & HS & _ & _ & _ & _ & Hel & _); unfold count_io; rewrite ?stats_set_stats, ?int_set_stats;
      simpl; [lia|unfold is_int; lia|done|].
    exists k'. split; [done|]. unfold count_io in Hel. rewrite stats_set_stats in Hel. simpl in Hel.
    eexists. split; [exact Hel|lia]. }
  split.
  - destruct (Hsched false 1 0) as (k' & -> & Hp). cbn [mbind outcome_bind]. eexists _, _. split; [done|].
    match goal with |- context [UpdateLast ?d0 ?n s] =>
      destruct (UpdateLast_fields d0 n s) as (Hi & Ha & Hl) end.
    rewrite Hi, Ha. split_and!; [done|done|split; by rewrite ?Hi, ?Hl| |done].
    intros s' _. done.
  - destruct (Hsched true 0 1) as (k' & -> & _). cbn [mbind outcome_bind]. eexists _, _. split; [done|].
    match goal with |- context [UpdateLast ?d0 ?n s] =>
      destruct (UpdateLast_fields d0 n s) as (Hi & Ha & Hl) end.
    pose proof (sector_fits _ s Himg Hin). rewrite Hi, Ha. split_and!; [|done| | |done].
    + split; rewrite ?Hi, ?Hl; [|done]. split; [simpl; rewrite length_splice by lia; apply Himg|].
      apply splice_bytes; [apply Himg|done].
    + simpl. by rewrite image_splice_sector, decide_True.
    + intros s' Hs' Hne. simpl. by rewrite image_splice_sector, decide_False.
Qed.

(** A request to an idle, well-formed disk for a sector on it transfers
    exactly that sector (a read returns what the last write stored, a write
    changes no other sector), makes the disk active so that a second request
    fails, and schedules its completion between one and 65 rotation times
    ahead; the completion makes the disk idle again.  A sector number outside
    the disk stops in the assertion. *)
Theorem disk_request_correct (d : Disk) (k : K) s data :
  disk_ok d -> active d = false ->
  0 <= totalTicks (k_stats k) < 2 ^ 30 -> pending_sorted (pending (k_int k)) ->
  length data = Z.to_nat SectorSize -> Forall is_byte data ->
  if in_disk s then
    (exists d' k', ReadRequest d k s = Ok (d', k', image_sector (image d) s) /\
       image d' = image d /\ active d' = true /\ disk_ok d' /\
       (forall s', in_disk s' = true -> ReadRequest d' k' s' = Err AssertFailed) /\
       exists t, mkPending DiskObj t DiskInt ∈ pending (k_int k') /\
         totalTicks (k_stats k) + RotationTime <= t <= totalTicks (k_stats k) + 65 * RotationTime) /\
    (exists d' k', WriteRequest d k s data = Ok (d', k') /\ disk_ok d' /\ active d' = true /\
       image_sector (image d') s = data /\
       (forall s', in_disk s' = true -> s' <> s -> image_sector (image d') s' = image_sector (image d) s') /\
       forall k1 : K, DiskCallBack (fun k => Ok k) d' k1 =
         Ok (mkDisk (image d') false (lastSector d') (bufferInit d'), k1))
  else ReadRequest d k s = Err AssertFailed /\ WriteRequest d k s data = Err AssertFailed.
Proof. apply disk_request_ok. Qed.
End properties.

(** The latency of a request is at least the transfer time and at most a
    full seek plus a full rotation; unless the track buffer supplies the sector,
    the transfer starts at a sector boundary with the wanted sector under the
    head. *)
Theorem disk_latency_bounds d now s w :
  0 <= now -> in_disk s = true -> in_disk (lastSector d) = true ->
  RotationTime <= ComputeLatency d now s w <= 65 * RotationTime /\
  (ComputeLatency d now s w = RotationTime /\ w = false \/
   (now + ComputeLatency d now s w) mod RotationTime = 0 /\
   ((now + ComputeLatency d now s w - RotationTime) / RotationTime) mod SectorsPerTrack =
     s mod SectorsPerTrack).
Proof. intros Hn Hs%in_disk_iff Hl%in_disk_iff. by apply ComputeLatency_ok. Qed.

Lemma disk_latency_bounds_witness :
  ComputeLatency (mkDisk [] false 40 0) 1234 1000 true = 19266 /\
  RotationTime <= ComputeLatency (mkDisk [] false 40 0) 1234 1000 true <= 65 * RotationTime.
Proof.
  split; [vm_compute; reflexivity|].
  exact (proj1 (disk_latency_bounds (mkDisk [] false 40 0) 1234 1000 true ltac:(lia) eq_refl eq_refl)).
Defined.

Definition blank_image : list Z := le_bytes 4 MagicNumber ++ replicate (Z.to_nat (DiskSize - 4)) 0.

Lemma blank_image_ok : image_ok blank_image.
Proof.
  split.
  - unfold blank_image. rewrite length_app, length_replicate. change DiskSize with 131076. simpl. lia.
  - apply Forall_app. split; [apply le_bytes_byte|]. apply Forall_replicate. unfold is_byte. lia.
Qed.

Lemma disk_request_correct_witness :
  exists d' k', WriteRequest (mkDisk blank_image false 0 0) Sim.k0 5 (replicate 128 7) = Ok (d', k') /\
    image_sector (image d') 5 = replicate 128 7.
Proof.
  assert (disk_ok (mkDisk blank_image false 0 0)) as Hd by (split; [apply blank_image_ok|reflexivity]).
  assert (Forall is_byte (replicate 128 7)) as Hb by (apply Forall_replicate; unfold is_byte; lia).
  assert (0 <= totalTicks (k_stats Sim.k0) < 2 ^ 30) as Ht by (vm_compute; split; [discriminate|reflexivity]).
  pose proof (disk_request_correct (mkDisk blank_image false 0 0) Sim.k0 5 (replicate 128 7) Hd eq_refl
    Ht Sim.k0_sorted ltac:(reflexivity) Hb) as Hr.
  change (in_disk 5) with true in Hr. destruct Hr as [_ (d' & k' & HW & _ & _ & Hsec & _)].
  exists d', k'. split; [exact HW|exact Hsec].
Defined.
