(* ===== verification/FileHdr.v ===== *)
(** * File headers (src/code/filesys/filehdr.h, filehdr.cc)

    A header holds the file's length and the table of its data sectors; it
    occupies exactly one disk sector.  [Allocate] takes free sectors from the
    free map, [Deallocate] returns them, [FetchFrom] and [WriteBack] convert to
    and from the sector's bytes. *)

From S2P Require Import Prelude Bitmap Lists Interrupt Disk.

(** [NumDirect] and [MaxFileSize] of filehdr.h ([sizeof(int)] is 4). *)
Definition NumDirect : Z := Z.quot (SectorSize - 2 * 4) 4.
Definition MaxFileSize : Z := NumDirect * SectorSize.

Record FileHeader := mkHeader {
  numBytes : Z;
  numSectors : Z;
  dataSectors : list Z;
}.

(** [FileHeader::Allocate].  The header's fields are set even when the space
    does not suffice; a store beyond [dataSectors] is out of bounds. *)
Definition Allocate (h : FileHeader) (freeMap : Bitmap) (fileSize : Z)
  : outcome (FileHeader * Bitmap * bool) :=
  let h := mkHeader fileSize (divRoundUp fileSize SectorSize) (dataSectors h) in
  nc ← NumClear freeMap;
  if nc <? numSectors h then Ok (h, freeMap, false)
  else
    '(h, freeMap) ← for_range 0 (numSectors h) (fun i '(h, freeMap) =>
        '(freeMap, s) ← FindAndSet freeMap;
        ds ← arr_set (dataSectors h) i s;
        _ ← ASSERT (0 <=? s);
        Ok (mkHeader (numBytes h) (numSectors h) ds, freeMap)) (h, freeMap);
    Ok (h, freeMap, true).

(** [FileHeader::Deallocate] *)
Definition Deallocate (h : FileHeader) (freeMap : Bitmap) : outcome Bitmap :=
  for_range 0 (numSectors h) (fun i freeMap =>
    s ← arr_get (dataSectors h) i;
    t ← Test freeMap s;
    _ ← ASSERT t;
    Clear freeMap s) freeMap.

(** [(char * ) this]: the bytes of the object, and back. *)
Definition header_bytes (h : FileHeader) : list Z :=
  le_bytes 4 (numBytes h) ++ le_bytes 4 (numSectors h) ++ concat (le_bytes 4 <$> dataSectors h).

Fixpoint ints_of (n : nat) (bs : list Z) : list Z :=
  match n with
  | O => []
  | S n' => to_int (le_value (take 4 bs)) :: ints_of n' (drop 4 bs)
  end.

Definition header_of (bs : list Z) : FileHeader :=
  mkHeader (to_int (le_value (take 4 bs))) (to_int (le_value (take 4 (drop 4 bs))))
    (ints_of (Z.to_nat NumDirect) (drop 8 bs)).

Section io.
Context {D : Type} `{BlockStore D}.

(** [FileHeader::FetchFrom] *)
Definition FetchFrom (d : D) (sector : Z) : outcome FileHeader :=
  bs ← bs_read d sector; Ok (header_of bs).

(** [FileHeader::WriteBack] *)
Definition WriteBack (d : D) (sector : Z) (h : FileHeader) : outcome D :=
  bs_write d sector (header_bytes h).
End io.

(** [FileHeader::ByteToSector], [FileHeader::FileLength] *)
Definition ByteToSector (h : FileHeader) (offset : Z) : outcome Z :=
  arr_get (dataSectors h) (Z.quot offset SectorSize).
Definition FileLength (h : FileHeader) : Z := numBytes h.

(** ** Well-formed headers *)

(** The sectors in use. *)
Definition used_sectors (h : FileHeader) : list Z := take (Z.to_nat (numSectors h)) (dataSectors h).

Record header_wf (h : FileHeader) : Prop := {
  hw_bytes : 0 <= numBytes h <= MaxFileSize;
  hw_sectors : numSectors h = divRoundUp (numBytes h) SectorSize;
  hw_length : length (dataSectors h) = Z.to_nat NumDirect;
  hw_ints : Forall is_int (dataSectors h);
  hw_disk : Forall (fun s => in_disk s = true) (used_sectors h);
  hw_nodup : NoDup (used_sectors h);
}.

(** ** Layout *)
Lemma length_concat_words (l : list Z) : length (concat (le_bytes 4 <$> l)) = (4 * length l)%nat.
Proof.
  induction l as [|x l IH]; [done|]. rewrite fmap_cons. cbn [concat].
  rewrite length_app, IH, length_le_bytes. simpl. lia.
Qed.

Lemma length_header_bytes h :
  length (dataSectors h) = Z.to_nat NumDirect -> length (header_bytes h) = Z.to_nat SectorSize.
Proof.
  intros Hl. unfold header_bytes.
  rewrite !length_app, !length_le_bytes, length_concat_words, Hl. done.
Qed.

Lemma concat_words_bytes (l : list Z) : Forall is_byte (concat (le_bytes 4 <$> l)).
Proof.
  induction l as [|x l IH]; [constructor|]. rewrite fmap_cons. cbn [concat].
  apply Forall_app. split; [apply le_bytes_byte|done].
Qed.

Lemma header_bytes_byte h : Forall is_byte (header_bytes h).
Proof.
  unfold header_bytes. apply Forall_app. split; [apply le_bytes_byte|].
  apply Forall_app. split; [apply le_bytes_byte|apply concat_words_bytes].
Qed.

Lemma ints_of_words (l rest : list Z) :
  Forall is_int l -> ints_of (length l) (concat (le_bytes 4 <$> l) ++ rest) = l.
Proof.
  induction 1 as [|x l Hx _ IH]; [done|]. rewrite fmap_cons. cbn [concat length ints_of].
  rewrite <- app_assoc. rewrite take_app_length', drop_app_length' by by rewrite length_le_bytes.
  by rewrite le_int_roundtrip, IH.
Qed.

Lemma header_roundtrip h :
  is_int (numBytes h) -> is_int (numSectors h) -> Forall is_int (dataSectors h) ->
  length (dataSectors h) = Z.to_nat NumDirect -> header_of (header_bytes h) = h.
Proof.
  intros Hb Hs Hi Hl. destruct h as [b n ds]. unfold header_of, header_bytes. cbn [numBytes numSectors dataSectors] in *.
  rewrite take_app_length' by by rewrite length_le_bytes.
  rewrite drop_app_length' by by rewrite length_le_bytes.
  rewrite take_app_length' by by rewrite length_le_bytes.
  replace 8%nat with (4 + 4)%nat by lia. rewrite <- drop_drop.
  rewrite !drop_app_length' by by rewrite length_le_bytes.
  rewrite !le_int_roundtrip by done. f_equal. rewrite <- Hl.
  rewrite <- (app_nil_r (concat _)). by apply ints_of_words.
Qed.

Lemma ints_of_ints n bs : Forall is_int (ints_of n bs).
Proof. revert bs. induction n; intros; simpl; constructor; auto using to_int_range. Qed.

Lemma length_ints_of n bs : length (ints_of n bs) = n.
Proof. revert bs. induction n; intros; simpl; auto. Qed.

(** ** Header lemmas *)
Lemma header_wf_sectors h : header_wf h -> 0 <= numSectors h <= NumDirect.
Proof.
  intros Hw. destruct Hw as [Hb Hs _ _ _ _]. rewrite Hs. split.
  - apply divRoundUp_nonneg; [lia|done].
  - pose proof (divRoundUp_bounds (numBytes h) SectorSize ltac:(lia) ltac:(done)) as Hbd.
    unfold MaxFileSize in Hb. change NumDirect with 30 in *. change SectorSize with 128 in *. lia.
Qed.

Lemma header_wf_roundtrip h : header_wf h -> header_of (header_bytes h) = h.
Proof.
  intros Hw. pose proof (header_wf_sectors h Hw) as Hn. destruct Hw as [Hb _ Hl Hi _ _].
  change MaxFileSize with 3840 in Hb. change NumDirect with 30 in Hn.
  apply header_roundtrip; [unfold is_int; lia..|done|done].
Qed.

Lemma length_used h : header_wf h -> length (used_sectors h) = Z.to_nat (numSectors h).
Proof.
  intros Hw. pose proof (header_wf_sectors h Hw). unfold used_sectors.
  rewrite length_take, (hw_length _ Hw). lia.
Qed.

Lemma WriteBack_ok {D} `{BlockStore D} `{!BlockStoreLaws D} (d : D) sector h :
  bs_ok d -> header_wf h -> in_disk sector = true ->
  exists d', WriteBack d sector h = Ok d' /\ bs_ok d' /\ bs_sector d' sector = header_bytes h /\
    forall s, in_disk s = true -> s <> sector -> bs_sector d' s = bs_sector d s.
Proof.
  intros Hd Hw Hs. unfold WriteBack. apply bs_write_ok; [done..| |apply header_bytes_byte].
  apply length_header_bytes, Hw.
Qed.

(** ** Allocation *)

(** What the loop of [Allocate] has done after [i] rounds. *)
Record alloc_state (fm : Bitmap) (h0 : FileHeader) (i : Z) (h : FileHeader) (fm' : Bitmap) : Prop := {
  as_wf : bitmap_wf fm';
  as_bits : numBits fm' = numBits fm;
  as_clear : clear_bits fm' = drop (Z.to_nat i) (clear_bits fm);
  as_set : forall j, 0 <= j -> bit fm' j = bit fm j || bool_decide (j ∈ take (Z.to_nat i) (clear_bits fm));
  as_bytes : numBytes h = numBytes h0 /\ numSectors h = numSectors h0;
  as_data : dataSectors h = take (Z.to_nat i) (clear_bits fm) ++ drop (Z.to_nat i) (dataSectors h0);
}.

Lemma alloc_step fm h0 i h fm' :
  alloc_state fm h0 i h fm' -> 0 <= i < Z.of_nat (length (clear_bits fm)) ->
  i < Z.of_nat (length (dataSectors h0)) ->
  exists fm'' s ds, FindAndSet fm' = Ok (fm'', s) /\ 0 <= s /\ arr_set (dataSectors h) i s = Ok ds /\
    alloc_state fm h0 (i + 1) (mkHeader (numBytes h) (numSectors h) ds) fm''.
Proof.
  intros [Hwf Hn Hcl Hset Hb Hd] Hi Hids.
  destruct (lookup_lt_is_Some_2 (clear_bits fm) (Z.to_nat i)) as [x Hx]; [lia|].
  pose proof (drop_S _ _ _ Hx) as Hdrop. rewrite Hdrop in Hcl.
  pose proof (FindAndSet_ok fm' Hwf) as HF. rewrite Hcl in HF.
  destruct HF as (fm'' & HF & Hwf' & Hn' & Hcl' & Hbit').
  assert (0 <= x) as Hx0.
  { assert (x ∈ clear_bits fm) as Hin by by eapply list_elem_of_lookup_2.
    apply elem_of_clear_bits in Hin. lia. }
  assert (Z.to_nat (i + 1) = S (Z.to_nat i)) as Hi1 by lia.
  exists fm'', x, (<[Z.to_nat i := x]> (dataSectors h)). split_and!; [done|done| |].
  - apply arr_set_lt. rewrite Hd, length_app, length_take, length_drop. lia.
  - split; simpl; [done|congruence| | |done|].
    + by rewrite Hi1.
    + intros j Hj. rewrite Hbit', Hset by done. rewrite Hi1, (take_S_r _ _ x) by done.
      destruct (Z.eqb_spec j x) as [->|Hne].
      * rewrite (bool_decide_eq_true_2 (x ∈ _ ++ [x])) by set_solver. by rewrite orb_true_r.
      * f_equal. apply bool_decide_ext. set_solver.
    + rewrite Hd, Hi1, (take_S_r _ _ x) by done.
      rewrite insert_app_r_alt by (rewrite length_take; lia).
      rewrite length_take, Nat.min_l by lia. rewrite Nat.sub_diag, <- app_assoc. f_equal.
      destruct (lookup_lt_is_Some_2 (dataSectors h0) (Z.to_nat i)) as [y Hy]; [lia|].
      by rewrite (drop_S _ _ _ Hy).
Qed.

Lemma Allocate_ok h0 fm size :
  bitmap_wf fm -> 0 <= size -> length (dataSectors h0) = Z.to_nat NumDirect ->
  let ns := divRoundUp size SectorSize in
  if Z.of_nat (length (clear_bits fm)) <? ns then
    Allocate h0 fm size = Ok (mkHeader size ns (dataSectors h0), fm, false)
  else if ns <=? NumDirect then
    exists h fm', Allocate h0 fm size = Ok (h, fm', true) /\
      alloc_state fm (mkHeader size ns (dataSectors h0)) ns h fm'
  else Allocate h0 fm size = Err Undefined.
Proof.
  intros Hwf Hsz Hl. cbn zeta. pose proof (divRoundUp_nonneg size SectorSize Hsz ltac:(done)) as Hns0.
  unfold Allocate. rewrite NumClear_ok by done. cbn [mbind outcome_bind numSectors].
  generalize dependent (divRoundUp size SectorSize). intros ns Hns0.
  destruct (Z.ltb_spec (Z.of_nat (length (clear_bits fm))) ns) as [|Hge]; [done|].
  set (h1 := mkHeader size ns (dataSectors h0)). set (body := fun i '(h, freeMap) => _).
  assert (forall i h fm', 0 <= i < ns -> i < NumDirect -> alloc_state fm h1 i h fm' ->
    exists h' fm'', body i (h, fm') = Ok (h', fm'') /\ alloc_state fm h1 (i + 1) h' fm'') as Hstep.
  { intros i h fm' Hi Hid Hst.
    destruct (alloc_step fm h1 i h fm' Hst) as (fm'' & s & ds & HF & Hs & Hset & Hst'); [lia|simpl; lia|].
    eexists _, fm''. split; [|exact Hst']. unfold body. rewrite HF. cbn [mbind outcome_bind].
    rewrite Hset. cbn [mbind outcome_bind]. by replace (0 <=? s) with true by lia. }
  assert (alloc_state fm h1 0 h1 fm) as H0.
  { split; [done..| |done|done]. intros j Hj. by rewrite orb_false_r. }
  destruct (Z.leb_spec ns NumDirect) as [Hle|Hgt].
  - destruct (for_range_ind (fun i '(h, fm') => alloc_state fm h1 i h fm') body 0 ns (h1, fm))
      as ([h fm'] & -> & Hst); [lia|done| |].
    + intros i [h fm'] Hi Hst. destruct (Hstep i h fm') as (h' & fm'' & ? & ?); [lia|lia|done|].
      by exists (h', fm'').
    + exists h, fm'. done.
  - assert (forall n (i : Z) h fm', i = NumDirect - Z.of_nat n -> 0 <= i -> alloc_state fm h1 i h fm' ->
      for_range i ns body (h, fm') = Err Undefined) as Hover.
    { induction n as [|n IH]; intros i h fm' -> Hi Hst; rewrite for_range_S by lia.
      - cbn [Z.of_nat] in *. rewrite Z.sub_0_r in *.
        assert (body NumDirect (h, fm') = Err Undefined) as ->; [|done].
        pose proof (as_clear _ _ _ _ _ Hst) as Hcl. pose proof (as_wf _ _ _ _ _ Hst) as Hw.
        pose proof (FindAndSet_ok fm' Hw) as HF. rewrite Hcl in HF.
        destruct (drop (Z.to_nat NumDirect) (clear_bits fm)) as [|x rest] eqn:Ed.
        { apply (f_equal length) in Ed. rewrite length_drop in Ed. simpl in Ed. lia. }
        destruct HF as (fm'' & HF & _). unfold body. rewrite HF. cbn [mbind outcome_bind].
        rewrite arr_set_ge; [done|]. right. rewrite (as_data _ _ _ _ _ Hst).
        simpl. rewrite length_app, length_take, length_drop, Hl. lia.
      - destruct (Hstep (NumDirect - Z.of_nat (S n)) h fm') as (h' & fm'' & -> & Hst'); [lia|lia|done|].
        cbn [mbind outcome_bind]. apply IH; [lia|lia|done]. }
    rewrite (Hover (Z.to_nat NumDirect) 0 h1 fm); [done|by rewrite Z2Nat.id|lia|done].
Qed.

Lemma Deallocate_ok h fm :
  bitmap_wf fm -> 0 <= numSectors h <= Z.of_nat (length (dataSectors h)) ->
  NoDup (used_sectors h) ->
  Forall (fun s => 0 <= s < numBits fm /\ bit fm s = true) (used_sectors h) ->
  exists fm', Deallocate h fm = Ok fm' /\ bitmap_wf fm' /\ numBits fm' = numBits fm /\
    forall j, 0 <= j -> bit fm' j = bit fm j && negb (bool_decide (j ∈ used_sectors h)).
Proof.
  intros Hwf Hns Hnd Hall. unfold Deallocate.
  destruct (for_range_ind (fun i fm' => bitmap_wf fm' /\ numBits fm' = numBits fm /\
      forall j, 0 <= j -> bit fm' j =
        bit fm j && negb (bool_decide (j ∈ take (Z.to_nat i) (dataSectors h))))
    (fun i freeMap => s ← arr_get (dataSectors h) i; t ← Test freeMap s; _ ← ASSERT t; Clear freeMap s)
    0 (numSectors h) fm) as (fm' & -> & Hfm'); [lia| | |by exists fm'].
  { split_and!; [done..|]. intros j Hj. by rewrite andb_true_r. }
  intros i fm1 Hi (Hwf1 & Hn1 & Hb1).
  destruct (arr_get_lt (dataSectors h) i) as (s & Hs & ->); [lia|]. cbn [mbind outcome_bind].
  assert (used_sectors h !! Z.to_nat i = Some s) as Hus.
  { unfold used_sectors. by rewrite lookup_take_lt by lia. }
  pose proof (Forall_lookup_1 _ _ _ _ Hall Hus) as [Hrange Hset].
  assert (s ∉ take (Z.to_nat i) (dataSectors h)) as Hnin.
  { intros (j & Hj & Hlt)%elem_of_take.
    assert (used_sectors h !! j = Some s) as Huj by (unfold used_sectors; by rewrite lookup_take_lt by lia).
    pose proof (NoDup_lookup _ _ _ _ Hnd Huj Hus). lia. }
  rewrite (Test_spec fm1 Hwf1) by lia. cbn [mbind outcome_bind].
  rewrite Hb1, Hset, bool_decide_eq_false_2 by (done || lia). cbn [andb negb ASSERT mbind outcome_bind].
  destruct (Clear_ok fm1 s Hwf1 ltac:(lia)) as (fm2 & -> & Hwf2 & Hn2 & Hb2).
  exists fm2. split_and!; [done|done|lia|]. intros j Hj. rewrite Hb2, Hb1 by done.
  replace (Z.to_nat (i + 1)) with (S (Z.to_nat i)) by lia. rewrite (take_S_r _ _ s) by done.
  destruct (Z.eqb_spec j s) as [->|Hne].
  - rewrite (bool_decide_eq_true_2 (s ∈ _ ++ [s])) by set_solver. by rewrite andb_false_r.
  - f_equal. f_equal. apply bool_decide_ext. set_solver.
Qed.

Lemma alloc_state_used fm h0 h fm' ns :
  alloc_state fm h0 ns h fm' -> numSectors h0 = ns -> 0 <= ns <= Z.of_nat (length (clear_bits fm)) ->
  used_sectors h = take (Z.to_nat ns) (clear_bits fm).
Proof.
  intros Hst Hns Hle. unfold used_sectors. rewrite (proj2 (as_bytes _ _ _ _ _ Hst)), Hns.
  rewrite (as_data _ _ _ _ _ Hst). apply take_app_length'. rewrite length_take. lia.
Qed.

(** An allocated header is well formed when the map covers the disk. *)
Lemma alloc_state_wf fm h0 h fm' size :
  alloc_state fm h0 (divRoundUp size SectorSize) h fm' ->
  h0 = mkHeader size (divRoundUp size SectorSize) (dataSectors h0) ->
  length (dataSectors h0) = Z.to_nat NumDirect -> Forall is_int (dataSectors h0) ->
  numBits fm = NumSectors -> 0 <= size <= MaxFileSize ->
  divRoundUp size SectorSize <= Z.of_nat (length (clear_bits fm)) ->
  header_wf h /\ numBytes h = size.
Proof.
  intros Hst Hh0 Hl Hi Hn Hsz Hfree.
  pose proof (divRoundUp_bounds size SectorSize ltac:(lia) ltac:(done)) as Hbd.
  pose proof (divRoundUp_nonneg size SectorSize ltac:(lia) ltac:(done)) as H0.
  change MaxFileSize with 3840 in Hsz. change SectorSize with 128 in Hbd.
  assert (used_sectors h = take (Z.to_nat (divRoundUp size SectorSize)) (clear_bits fm)) as Hus.
  { eapply alloc_state_used; [done| |lia]. by rewrite Hh0. }
  destruct (as_bytes _ _ _ _ _ Hst) as [Hb Hs]. rewrite Hh0 in Hb, Hs. simpl in Hb, Hs.
  assert (Forall (fun s => in_disk s = true) (clear_bits fm)) as Hdisk.
  { apply Forall_forall. intros s Hs'%elem_of_clear_bits. apply in_disk_iff.
    rewrite Hn in Hs'. change NumSectors with 1024 in Hs'. lia. }
  split; [|done]. split.
  - rewrite Hb. change MaxFileSize with 3840. lia.
  - by rewrite Hb, Hs.
  - rewrite (as_data _ _ _ _ _ Hst), length_app, length_take, length_drop, Hl.
    change NumDirect with 30. change SectorSize with 128 in *. lia.
  - rewrite (as_data _ _ _ _ _ Hst). apply Forall_app. split; [|by apply Forall_drop].
    apply Forall_take. eapply Forall_impl; [exact Hdisk|]. intros s Hs'%in_disk_iff.
    unfold is_int. lia.
  - rewrite Hus. by apply Forall_take.
  - rewrite Hus. pose proof (NoDup_clear_bits fm) as Hnd.
    rewrite <- (take_drop (Z.to_nat (divRoundUp size SectorSize)) (clear_bits fm)) in Hnd.
    by apply NoDup_app in Hnd as [? _].
Qed.

(** [Allocate] on the set of sectors in use. *)
Lemma Allocate_cases h0 fm size :
  bitmap_wf fm -> numBits fm = NumSectors -> 0 <= size ->
  length (dataSectors h0) = Z.to_nat NumDirect -> Forall is_int (dataSectors h0) ->
  if Z.of_nat (length (clear_bits fm)) <? divRoundUp size SectorSize then
    exists h, Allocate h0 fm size = Ok (h, fm, false)
  else if size <=? MaxFileSize then
    exists h fm', Allocate h0 fm size = Ok (h, fm', true) /\ header_wf h /\ FileLength h = size /\
      bitmap_wf fm' /\ numBits fm' = NumSectors /\ set_bits fm' = set_bits fm ∪ list_to_set (used_sectors h) /\
      set_bits fm ## list_to_set (used_sectors h) /\
      Z.of_nat (length (used_sectors h)) = divRoundUp size SectorSize
  else Allocate h0 fm size = Err Undefined.
Proof.
  intros Hwf Hn Hsz Hl Hi. pose proof (Allocate_ok h0 fm size Hwf Hsz Hl) as HA. cbn zeta in HA.
  pose proof (divRoundUp_bounds size SectorSize Hsz ltac:(done)) as Hbd.
  pose proof (divRoundUp_nonneg size SectorSize Hsz ltac:(done)) as H0.
  change SectorSize with 128 in Hbd. change NumDirect with 30 in HA. change MaxFileSize with 3840.
  destruct (Z.ltb_spec (Z.of_nat (length (clear_bits fm))) (divRoundUp size SectorSize)) as [|Hge]; [eauto|].
  change SectorSize with 128 in *.
  destruct (Z.leb_spec size 3840), (Z.leb_spec (divRoundUp size 128) 30); try lia; [|done].
  destruct HA as (h & fm' & HA & Hst). exists h, fm'.
  destruct (alloc_state_wf fm _ h fm' size Hst) as [Hhw Hnb]; [done..|change MaxFileSize with 3840; lia|done|].
  pose proof (alloc_state_used _ _ _ _ _ Hst eq_refl ltac:(lia)) as Hus.
  split_and!; [done..|apply Hst|by rewrite (as_bits _ _ _ _ _ Hst)| | |].
  - apply set_eq. intros j. rewrite elem_of_union, elem_of_list_to_set, !elem_of_set_bits.
    rewrite (as_bits _ _ _ _ _ Hst), Hus.
    destruct (decide (0 <= j < numBits fm)) as [Hj|Hj].
    + rewrite (as_set _ _ _ _ _ Hst) by lia. rewrite orb_true_iff, bool_decide_eq_true. intuition.
    + split; [intuition|]. intros [?|Hin]; [intuition|]. exfalso.
      apply elem_of_take in Hin as (k & Hk & _). apply list_elem_of_lookup_2 in Hk.
      apply elem_of_clear_bits in Hk. lia.
  - apply elem_of_disjoint. intros j Hj1 Hj2. rewrite elem_of_list_to_set, Hus in Hj2.
    apply elem_of_take in Hj2 as (k & Hk & _). apply list_elem_of_lookup_2 in Hk.
    apply elem_of_clear_bits in Hk as [_ Hk]. apply elem_of_set_bits in Hj1 as [_ Hj1]. congruence.
  - rewrite length_used by done. destruct (as_bytes _ _ _ _ _ Hst) as [_ ->]. simpl. lia.
Qed.

Lemma Deallocate_sets h fm :
  bitmap_wf fm -> numBits fm = NumSectors -> header_wf h -> list_to_set (used_sectors h) ⊆ set_bits fm ->
  exists fm', Deallocate h fm = Ok fm' /\ bitmap_wf fm' /\ numBits fm' = numBits fm /\
    set_bits fm' = set_bits fm ∖ list_to_set (used_sectors h).
Proof.
  intros Hwf Hn Hw Hsub. destruct (Deallocate_ok h fm Hwf) as (fm' & HD & Hwf' & Hn' & Hb).
  - pose proof (header_wf_sectors h Hw). rewrite (hw_length _ Hw). lia.
  - apply Hw.
  - apply Forall_forall. intros s Hs. apply elem_of_set_bits, Hsub. by apply elem_of_list_to_set.
  - exists fm'. split_and!; [done..|]. apply set_eq. intros j.
    rewrite elem_of_difference, elem_of_list_to_set, !elem_of_set_bits, Hn'.
    destruct (decide (0 <= j < numBits fm)); [|intuition]. rewrite Hb by lia.
    rewrite andb_true_iff, negb_true_iff, bool_decide_eq_false. intuition.
Qed.

(** ** Properties of the component *)

(** [Allocate] on a free map of the disk.  With too little space it
    reports failure and the map is untouched; otherwise, for a size up to
    [MaxFileSize], it succeeds with a well-formed header whose data sectors are
    distinct, were all free, and are exactly the sectors newly marked; a larger
    size that fits on the disk runs past the header's sector table. *)
Theorem allocate_correct h0 fm size :
  bitmap_wf fm -> numBits fm = NumSectors -> 0 <= size ->
  length (dataSectors h0) = Z.to_nat NumDirect -> Forall is_int (dataSectors h0) ->
  if Z.of_nat (length (clear_bits fm)) <? divRoundUp size SectorSize then
    exists h, Allocate h0 fm size = Ok (h, fm, false)
  else if size <=? MaxFileSize then
    exists h fm', Allocate h0 fm size = Ok (h, fm', true) /\ header_wf h /\ FileLength h = size /\
      bitmap_wf fm' /\ numBits fm' = NumSectors /\ set_bits fm' = set_bits fm ∪ list_to_set (used_sectors h) /\
      set_bits fm ## list_to_set (used_sectors h) /\
      Z.of_nat (length (used_sectors h)) = divRoundUp size SectorSize
  else Allocate h0 fm size = Err Undefined.
Proof. apply Allocate_cases. Qed.

(** Allocating and then deallocating a file gives back the same set of
    free sectors. *)
Theorem allocate_deallocate_roundtrip h0 fm size h fm' :
  bitmap_wf fm -> 0 <= size -> length (dataSectors h0) = Z.to_nat NumDirect ->
  Allocate h0 fm size = Ok (h, fm', true) ->
  exists fm'', Deallocate h fm' = Ok fm'' /\ bitmap_wf fm'' /\ set_bits fm'' = set_bits fm.
Proof.
  intros Hwf Hsz Hl HA. pose proof (Allocate_ok h0 fm size Hwf Hsz Hl) as HA'. cbn zeta in HA'.
  pose proof (divRoundUp_nonneg size SectorSize Hsz ltac:(done)) as H0.
  destruct (Z.ltb_spec (Z.of_nat (length (clear_bits fm))) (divRoundUp size SectorSize)) as [|Hge]; [congruence|].
  destruct (Z.leb_spec (divRoundUp size SectorSize) NumDirect) as [Hle|]; [|congruence].
  destruct HA' as (h' & fm2 & HA' & Hst). rewrite HA in HA'. injection HA' as <- <-.
  pose proof (alloc_state_used _ _ _ _ _ Hst eq_refl ltac:(lia)) as Hus.
  destruct (Deallocate_ok h fm') as (fm'' & HD & Hwf'' & Hn'' & Hb'').
  - apply Hst.
  - destruct (as_bytes _ _ _ _ _ Hst) as [_ ->]. rewrite (as_data _ _ _ _ _ Hst).
    simpl. rewrite length_app, length_take, length_drop, Hl. lia.
  - rewrite Hus. pose proof (NoDup_clear_bits fm) as Hnd.
    rewrite <- (take_drop (Z.to_nat (divRoundUp size SectorSize)) (clear_bits fm)) in Hnd.
    by apply NoDup_app in Hnd as [? _].
  - rewrite Hus. apply Forall_forall. intros s Hs. pose proof Hs as (k & Hk & _)%elem_of_take.
    apply list_elem_of_lookup_2, elem_of_clear_bits in Hk. rewrite (as_bits _ _ _ _ _ Hst).
    split; [lia|]. rewrite (as_set _ _ _ _ _ Hst) by lia. by rewrite bool_decide_eq_true_2, orb_true_r.
  - exists fm''. split_and!; [done..|]. apply set_eq. intros j. rewrite !elem_of_set_bits, Hn''.
    rewrite (as_bits _ _ _ _ _ Hst). destruct (decide (0 <= j < numBits fm)) as [Hj|Hj]; [|intuition].
    rewrite Hb'', (as_set _ _ _ _ _ Hst), Hus by lia.
    destruct (decide (j ∈ take (Z.to_nat (divRoundUp size SectorSize)) (clear_bits fm))) as [Hin|Hin].
    + rewrite bool_decide_eq_true_2 by done. rewrite andb_false_r.
      pose proof Hin as (k & Hk & _)%elem_of_take. apply list_elem_of_lookup_2, elem_of_clear_bits in Hk.
      intuition congruence.
    + rewrite bool_decide_eq_false_2 by done. by rewrite orb_false_r, andb_true_r.
Qed.

(** A fresh header and a free map with sectors 0 and 2 in use. *)
Definition blank_header : FileHeader := mkHeader 0 0 (replicate (Z.to_nat NumDirect) 0).
Definition sample_map : Bitmap :=
  mkBitmap NumSectors 32 (5 :: replicate 31 0).

Lemma sample_map_wf : bitmap_wf sample_map.
Proof.
  split; simpl; [done..|]. repeat constructor; unfold is_uint; simpl; lia.
Qed.

Lemma allocate_correct_witness :
  exists h fm', Allocate blank_header sample_map 300 = Ok (h, fm', true) /\ header_wf h /\
    take 3 (dataSectors h) = [1; 3; 4].
Proof.
  pose proof (allocate_correct blank_header sample_map 300 sample_map_wf eq_refl ltac:(lia) eq_refl
    ltac:(apply Forall_replicate; unfold is_int; lia)) as HA.
  assert (Z.of_nat (length (clear_bits sample_map)) <? divRoundUp 300 SectorSize = false) as E
    by (vm_compute; reflexivity).
  rewrite E in HA. change (300 <=? MaxFileSize) with true in HA.
  destruct HA as (h & fm' & HA & Hw & _). exists h, fm'. split_and!; [done|done|].
  assert (take 3 <$> (dataSectors ∘ fst ∘ fst <$> Allocate blank_header sample_map 300) = Ok [1; 3; 4]) as Ht
    by (vm_compute; reflexivity).
  rewrite HA in Ht. by injection Ht.
Defined.

Lemma allocate_deallocate_roundtrip_witness :
  exists h fm' fm'', Allocate blank_header sample_map 300 = Ok (h, fm', true) /\
    Deallocate h fm' = Ok fm'' /\ set_bits fm'' = set_bits sample_map.
Proof.
  destruct (Allocate blank_header sample_map 300) as [[[h fm'] b]|] eqn:E; vm_compute in E; [|discriminate].
  injection E as <- <- <-. eexists _, _.
  edestruct (allocate_deallocate_roundtrip blank_header sample_map 300) as (fm'' & HD & _ & Hs);
    [exact sample_map_wf|lia|reflexivity|vm_compute; reflexivity|].
  exists fm''. split; [reflexivity|]. split; [exact HD|exact Hs].
Defined.

(** A well-formed header written to a sector of the disk is read back
    unchanged and no other sector changes; for a sector number outside the disk
    both operations stop in the disk's assertion. *)
Theorem header_disk_roundtrip {D} `{BlockStore D} `{!BlockStoreLaws D} (d : D) sector h :
  bs_ok d -> header_wf h ->
  if in_disk sector then
    exists d', WriteBack d sector h = Ok d' /\ bs_ok d' /\ FetchFrom d' sector = Ok h /\
      forall s, in_disk s = true -> s <> sector -> bs_sector d' s = bs_sector d s
  else WriteBack d sector h = Err AssertFailed /\ FetchFrom d sector = Err AssertFailed.
Proof.
  intros Hd Hw. pose proof (WriteBack_ok d sector h Hd Hw) as HW. unfold FetchFrom.
  destruct (in_disk sector) eqn:Hs.
  - destruct HW as (d' & HW & Hd' & Hsec & Hoth); [done|]. exists d'. split_and!; [done|done| |done].
    rewrite bs_read_ok by done. cbn [mbind outcome_bind]. by rewrite Hsec, header_wf_roundtrip.
  - unfold WriteBack. by rewrite bs_write_out, bs_read_out.
Qed.

Lemma blank_header_wf : header_wf blank_header.
Proof.
  split; simpl; [unfold MaxFileSize; change NumDirect with 30; change SectorSize with 128; lia|done|done| | |].
  - repeat constructor; unfold is_int; simpl; lia.
  - constructor.
  - constructor.
Qed.

Lemma header_disk_roundtrip_witness :
  exists d', WriteBack blank_image 3 blank_header = Ok d' /\ FetchFrom d' 3 = Ok blank_header.
Proof.
  destruct (header_disk_roundtrip (H := image_store) blank_image 3 blank_header blank_image_ok blank_header_wf)
    as (d' & HW & _ & HF & _). exists d'. split; [exact HW|exact HF].
Defined.
