(* ===== verification/OpenFile.v ===== *)
(** * Open files (src/code/filesys/openfile.h, openfile.cc)

    An open file keeps its header in memory and a seek position.  [ReadAt] and
    [WriteAt] translate a byte range to the sectors that hold it, reading the
    partially overwritten sectors first.  The abstract content of a file is the
    concatenation of its data sectors cut to the file's length; the theorems
    say that the two operations read and overwrite a stretch of it. *)

From S2P Require Import Prelude Bitmap Lists Interrupt Disk FileHdr.

Record OpenFile := mkOpenFile {
  hdr : FileHeader;
  seekPosition : Z;
}.

(** [uninit n] is the content [new char\[n\]] happens to have. *)
Class Uninit (uninit : nat -> list Z) : Prop := {
  uninit_length n : length (uninit n) = n;
  uninit_byte n : Forall is_byte (uninit n);
}.

Section openfile.
Context {D : Type} `{BlockStore D} (uninit : nat -> list Z).

(** [OpenFile::OpenFile] *)
Definition newOpenFile (d : D) (sector : Z) : outcome OpenFile :=
  h ← FetchFrom d sector; Ok (mkOpenFile h 0).

(** [OpenFile::Seek], [OpenFile::Length] *)
Definition Seek (f : OpenFile) (position : Z) : OpenFile := mkOpenFile (hdr f) position.
Definition Length (f : OpenFile) : Z := FileLength (hdr f).

(** The number of bytes a request transfers: the test of its arguments and
    the cut at the end of the file that open [ReadAt] and [WriteAt]. *)
Definition request_size (fileLength numBytes position : Z) : outcome Z :=
  if (numBytes <=? 0) || (fileLength <=? position) then Ok 0
  else
    last ← int_add position numBytes;
    Ok (if fileLength <? last then fileLength - position else numBytes).

(** [OpenFile::ReadAt]; the bytes copied to [into], whose number is the
    returned value. *)
Definition ReadAt (d : D) (f : OpenFile) (numBytes position : Z) : outcome (list Z) :=
  numBytes ← request_size (FileLength (hdr f)) numBytes position;
  if numBytes =? 0 then Ok [] else
  let firstSector := divRoundDown position SectorSize in
  let lastSector := divRoundDown (position + numBytes - 1) SectorSize in
  let numSectors := 1 + lastSector - firstSector in
  buf ← for_range firstSector (lastSector + 1) (fun i buf =>
      s ← ByteToSector (hdr f) (i * SectorSize);
      bs ← bs_read d s;
      buf_put buf ((i - firstSector) * SectorSize) bs)
    (uninit (Z.to_nat (numSectors * SectorSize)));
  buf_get buf (position - firstSector * SectorSize) numBytes.

(** The part of [OpenFile::WriteAt] that reads in the first and last sector, if
    they are to be partially modified. *)
Definition read_partial (d : D) (f : OpenFile) (numBytes position firstSector lastSector : Z)
    (buf : list Z) : outcome (list Z) :=
  let firstAligned := position =? firstSector * SectorSize in
  let lastAligned := position + numBytes =? (lastSector + 1) * SectorSize in
  buf ← (if negb firstAligned then
           bs ← ReadAt d f SectorSize (firstSector * SectorSize);
           buf_put buf 0 bs
         else Ok buf);
  if negb lastAligned && (negb (firstSector =? lastSector) || firstAligned) then
    bs ← ReadAt d f SectorSize (lastSector * SectorSize);
    buf_put buf ((lastSector - firstSector) * SectorSize) bs
  else Ok buf.

(** [OpenFile::WriteAt] *)
Definition WriteAt (d : D) (f : OpenFile) (from : list Z) (numBytes position : Z)
  : outcome (D * Z) :=
  numBytes ← request_size (FileLength (hdr f)) numBytes position;
  if numBytes =? 0 then Ok (d, 0) else
  let firstSector := divRoundDown position SectorSize in
  let lastSector := divRoundDown (position + numBytes - 1) SectorSize in
  let numSectors := 1 + lastSector - firstSector in
  buf ← read_partial d f numBytes position firstSector lastSector
          (uninit (Z.to_nat (numSectors * SectorSize)));
  data ← buf_get from 0 numBytes;
  buf ← buf_put buf (position - firstSector * SectorSize) data;
  d ← for_range firstSector (lastSector + 1) (fun i d =>
      s ← ByteToSector (hdr f) (i * SectorSize);
      bs ← buf_get buf ((i - firstSector) * SectorSize) SectorSize;
      bs_write d s bs) d;
  Ok (d, numBytes).

(** [OpenFile::Read], [OpenFile::Write] *)
Definition Read (d : D) (f : OpenFile) (numBytes : Z) : outcome (OpenFile * list Z) :=
  bs ← ReadAt d f numBytes (seekPosition f);
  pos ← int_add (seekPosition f) (Z.of_nat (length bs));
  Ok (mkOpenFile (hdr f) pos, bs).
Definition Write (d : D) (f : OpenFile) (from : list Z) (numBytes : Z) : outcome (D * OpenFile * Z) :=
  '(d, result) ← WriteAt d f from numBytes (seekPosition f);
  pos ← int_add (seekPosition f) result;
  Ok (d, mkOpenFile (hdr f) pos, result).

(** ** The content of a file *)
Definition file_data (d : D) (h : FileHeader) : list Z :=
  take (Z.to_nat (numBytes h)) (concat (bs_sector d <$> used_sectors h)).
End openfile.

(** ** Requests *)
Lemma request_size_ok len n pos :
  0 <= pos -> is_int (pos + n) -> 0 <= len -> request_size len n pos = Ok (Z.max 0 (Z.min n (len - pos))).
Proof.
  intros Hp Hi Hl. unfold request_size, int_add. unfold is_int in Hi.
  destruct (Z.leb_spec n 0), (Z.leb_spec len pos); cbn [orb]; try (f_equal; lia).
  replace (_ && _) with true by lia. cbn [mbind outcome_bind].
  destruct (Z.ltb_spec len (pos + n)); f_equal; lia.
Qed.

(** The sectors that a byte range touches. *)
Lemma sector_range pos n :
  0 <= pos -> 0 < n -> let first := divRoundDown pos SectorSize in
  let last := divRoundDown (pos + n - 1) SectorSize in
  0 <= first <= last /\ 128 * first <= pos < 128 * first + 128 /\ 128 * last <= pos + n - 1 < 128 * last + 128.
Proof.
  intros Hp Hn. cbn zeta. unfold divRoundDown. change SectorSize with 128.
  rewrite !Z.quot_div_nonneg by lia.
  pose proof (Z.div_mod pos 128 ltac:(lia)). pose proof (Z.mod_pos_bound pos 128 ltac:(lia)).
  pose proof (Z.div_mod (pos + n - 1) 128 ltac:(lia)). pose proof (Z.mod_pos_bound (pos + n - 1) 128 ltac:(lia)).
  pose proof (Z.div_pos pos 128 ltac:(lia) ltac:(lia)). lia.
Qed.

Section openfile_lemmas.
Context {D : Type} `{BlockStore D} `{!BlockStoreLaws D} (uninit : nat -> list Z) `{!Uninit uninit}.
Implicit Types (d : D) (h : FileHeader) (f : OpenFile).

Lemma used_lookup h i :
  header_wf h -> 0 <= i < numSectors h ->
  exists s, used_sectors h !! Z.to_nat i = Some s /\ in_disk s = true /\
    ByteToSector h (i * SectorSize) = Ok s.
Proof.
  intros Hw Hi. pose proof (length_used h Hw) as Hl.
  destruct (lookup_lt_is_Some_2 (used_sectors h) (Z.to_nat i)) as [s Hs]; [lia|].
  exists s. split; [done|]. split; [by apply (Forall_lookup_1 _ _ _ _ (hw_disk _ Hw) Hs)|].
  unfold ByteToSector. rewrite Z.quot_mul by done. apply arr_get_Some; [lia|].
  unfold used_sectors in Hs. by apply lookup_take_Some in Hs as [? _].
Qed.

Lemma sectors_blocks d h :
  bs_ok d -> header_wf h -> Forall (fun b => length b = 128%nat) (bs_sector d <$> used_sectors h).
Proof.
  intros Hd Hw. apply Forall_fmap, (Forall_impl _ _ _ (hw_disk _ Hw)). intros s Hs. simpl.
  by rewrite bs_sector_length.
Qed.

(** Where the file's length falls in its last sector. *)
Lemma header_length h :
  header_wf h -> 0 <= numBytes h <= 128 * numSectors h /\ 128 * numSectors h < numBytes h + 128.
Proof.
  intros Hw. rewrite (hw_sectors _ Hw). pose proof (hw_bytes _ Hw) as Hb.
  pose proof (divRoundUp_bounds (numBytes h) SectorSize ltac:(lia) ltac:(done)) as Hbd.
  change SectorSize with 128 in *. lia.
Qed.

Lemma length_file_data d h :
  bs_ok d -> header_wf h -> length (file_data d h) = Z.to_nat (numBytes h).
Proof.
  intros Hd Hw. unfold file_data. rewrite length_take, (length_concat_blocks _ _ (sectors_blocks d h Hd Hw)).
  rewrite length_fmap, (length_used h Hw). pose proof (header_length h Hw). lia.
Qed.

Lemma lookup_file_data d h i j s :
  bs_ok d -> header_wf h -> used_sectors h !! i = Some s -> (j < 128)%nat ->
  (128 * i + j < Z.to_nat (numBytes h))%nat ->
  file_data d h !! (128 * i + j)%nat = bs_sector d s !! j.
Proof.
  intros Hd Hw Hs Hj Hlt. unfold file_data. rewrite lookup_take_lt by done.
  rewrite (lookup_concat_blocks _ _ _ _ (sectors_blocks d h Hd Hw)) by done.
  by rewrite list_lookup_fmap, Hs.
Qed.

(** The loop of [ReadAt] fills the buffer with whole sectors. *)
Lemma read_loop_ok d h first last buf :
  bs_ok d -> header_wf h -> 0 <= first <= last -> last < numSectors h ->
  Z.of_nat (length buf) = 128 * (1 + last - first) ->
  exists buf', for_range first (last + 1) (fun i buf =>
      s ← ByteToSector h (i * SectorSize);
      bs ← bs_read d s;
      buf_put buf ((i - first) * SectorSize) bs) buf = Ok buf' /\ length buf' = length buf /\
    forall i j s, first <= i <= last -> used_sectors h !! Z.to_nat i = Some s -> (j < 128)%nat ->
      buf' !! (Z.to_nat (128 * (i - first)) + j)%nat = bs_sector d s !! j.
Proof.
  intros Hd Hw Hf Hl Hbuf.
  destruct (for_range_ind (fun k b => length b = length buf /\
      forall i j s, first <= i < k -> used_sectors h !! Z.to_nat i = Some s -> (j < 128)%nat ->
        b !! (Z.to_nat (128 * (i - first)) + j)%nat = bs_sector d s !! j)
    (fun i buf => s ← ByteToSector h (i * SectorSize); bs ← bs_read d s;
       buf_put buf ((i - first) * SectorSize) bs) first (last + 1) buf) as (buf' & -> & Hl' & Hb');
    [lia|split; [done|lia]| |].
  - intros k b Hk (Hlb & Hb). destruct (used_lookup h k Hw ltac:(lia)) as (s & Hs & Hin & ->).
    cbn [mbind outcome_bind]. rewrite bs_read_ok by done. cbn [mbind outcome_bind].
    pose proof (bs_sector_length d s Hd Hin) as Hsl. change (Z.to_nat SectorSize) with 128%nat in Hsl.
    change SectorSize with 128. rewrite buf_put_ok by lia. eexists. split; [done|].
    split; [by rewrite length_splice by lia|].
    intros i j s' Hi Hs' Hj. rewrite lookup_splice by lia. destruct (decide (i = k)) as [->|Hne].
    + simplify_eq. rewrite decide_True by lia. f_equal. lia.
    + rewrite decide_False by lia. apply Hb; [lia|done|done].
  - exists buf'. split_and!; [done|done|]. intros i j s Hi. apply Hb'. lia.
Qed.

Lemma ReadAt_ok d f n pos :
  bs_ok d -> header_wf (hdr f) -> 0 <= pos -> is_int (pos + n) ->
  ReadAt uninit d f n pos = Ok (take (Z.to_nat n) (drop (Z.to_nat pos) (file_data d (hdr f)))).
Proof.
  intros Hd Hw Hp Hi. destruct f as [h sp]. cbn [hdr] in *. pose proof (length_file_data d h Hd Hw) as Hfl.
  pose proof (header_length h Hw) as Hhl. unfold ReadAt. cbn [hdr]. unfold FileLength.
  rewrite request_size_ok by (done || lia). cbn [mbind outcome_bind].
  destruct (Z.eqb_spec (Z.max 0 (Z.min n (numBytes h - pos))) 0) as [E|E].
  { f_equal. symmetry. apply nil_length_inv. rewrite length_take, length_drop. lia. }
  remember (Z.max 0 (Z.min n (numBytes h - pos))) as m eqn:Hm.
  destruct (sector_range pos m) as (Hfl' & Hfirst & Hlast); [lia..|].
  set (first := divRoundDown pos SectorSize) in *.
  set (last := divRoundDown (pos + m - 1) SectorSize) in *.
  change (Z.to_nat ((1 + last - first) * SectorSize)) with (Z.to_nat ((1 + last - first) * 128)).
  set (buf := uninit (Z.to_nat ((1 + last - first) * 128))).
  assert (Z.of_nat (length buf) = 128 * (1 + last - first)) as Hbuf.
  { unfold buf. rewrite uninit_length. lia. }
  destruct (read_loop_ok d h first last buf Hd Hw) as (buf' & -> & Hlb & Hb); [lia|lia|done|].
  cbn [mbind outcome_bind]. change SectorSize with 128. rewrite buf_get_ok by lia. f_equal.
  apply list_eq. intros k. destruct (decide (k < Z.to_nat m)%nat) as [Hk|Hk].
  - rewrite !lookup_take_lt by lia. rewrite !lookup_drop.
    pose proof (Z.div_mod (pos + Z.of_nat k) 128 ltac:(lia)) as Hdm.
    pose proof (Z.mod_pos_bound (pos + Z.of_nat k) 128 ltac:(lia)) as Hmb.
    set (i := (pos + Z.of_nat k) / 128) in *. set (j := (pos + Z.of_nat k) mod 128) in *.
    destruct (used_lookup h i Hw) as (s & Hs & _); [lia|].
    replace (Z.to_nat (pos - first * 128) + k)%nat with (Z.to_nat (128 * (i - first)) + Z.to_nat j)%nat by lia.
    replace (Z.to_nat pos + k)%nat with (128 * Z.to_nat i + Z.to_nat j)%nat by lia.
    rewrite (Hb i _ s), (lookup_file_data d h _ _ s); try done; lia.
  - rewrite !lookup_ge_None_2; [done| |]; rewrite length_take, length_drop; lia.
Qed.

(** The loop of [WriteAt] stores the buffer sector by sector. *)
Lemma write_loop_ok d h first last buf :
  bs_ok d -> header_wf h -> 0 <= first <= last -> last < numSectors h ->
  Z.of_nat (length buf) = 128 * (1 + last - first) -> Forall is_byte buf ->
  exists d', for_range first (last + 1) (fun i d =>
      s ← ByteToSector h (i * SectorSize);
      bs ← buf_get buf ((i - first) * SectorSize) SectorSize;
      bs_write d s bs) d = Ok d' /\ bs_ok d' /\
    forall s, in_disk s = true -> bs_sector d' s =
      match list_find (fun s' => s' = s) (used_sectors h) with
      | Some (i, _) => if decide (first <= Z.of_nat i <= last)
          then take 128 (drop (Z.to_nat (128 * (Z.of_nat i - first))) buf) else bs_sector d s
      | None => bs_sector d s
      end.
Proof.
  intros Hd Hw Hf Hl Hbuf Hby.
  destruct (for_range_ind (fun k d' => bs_ok d' /\ forall s, in_disk s = true -> bs_sector d' s =
      match list_find (fun s' => s' = s) (used_sectors h) with
      | Some (i, _) => if decide (first <= Z.of_nat i < k)
          then take 128 (drop (Z.to_nat (128 * (Z.of_nat i - first))) buf) else bs_sector d s
      | None => bs_sector d s
      end) (fun i d => s ← ByteToSector h (i * SectorSize);
      bs ← buf_get buf ((i - first) * SectorSize) SectorSize; bs_write d s bs) first (last + 1) d)
    as (d' & -> & Hd' & Hs'); [lia| | |].
  - split; [done|]. intros s _. destruct (list_find _ _) as [[i ?]|]; [|done]. by rewrite decide_False by lia.
  - intros k d1 Hk (Hd1 & Hs1). destruct (used_lookup h k Hw ltac:(lia)) as (s & Hs & Hin & ->).
    cbn [mbind outcome_bind]. change SectorSize with 128. rewrite buf_get_ok by lia. cbn [mbind outcome_bind].
    destruct (bs_write_ok d1 s (take (Z.to_nat 128) (drop (Z.to_nat ((k - first) * 128)) buf)))
      as (d2 & -> & Hd2 & Heq & Hoth); [done|done| |by apply Forall_take, Forall_drop|].
    { rewrite length_take, length_drop. change (Z.to_nat SectorSize) with 128%nat. lia. }
    exists d2. split_and!; [done|done|]. intros s' Hin'. destruct (decide (s' = s)) as [->|Hne].
    + rewrite Heq.
      assert (list_find (fun s' => s' = s) (used_sectors h) = Some (Z.to_nat k, s)) as ->.
      { apply list_find_Some. split_and!; [done|done|]. intros j y Hj Hlt ->.
        pose proof (NoDup_lookup _ _ _ _ (hw_nodup _ Hw) Hj Hs). lia. }
      rewrite decide_True by lia. do 2 f_equal. lia.
    + rewrite Hoth, Hs1 by done. destruct (list_find _ _) as [[i s1]|] eqn:E; [|done].
      apply list_find_Some in E as (Hi & -> & _).
      assert (Z.of_nat i <> k) as Hik by (intros <-; rewrite Nat2Z.id in Hs; congruence).
      repeat case_decide; try done; lia.
  - exists d'. split_and!; [done|done|]. intros s Hs. rewrite Hs' by done.
    destruct (list_find _ _) as [[i s1]|]; [|done]. repeat case_decide; try done; lia.
Qed.

(** What the partial reads of [WriteAt] leave in the buffer: wherever the new
    data will not go, the file's present content. *)
Lemma read_partial_ok d h sp m pos first last buf :
  bs_ok d -> header_wf h -> 0 <= pos -> 0 < m -> pos + m <= numBytes h ->
  0 <= first <= last -> 128 * first <= pos < 128 * first + 128 ->
  128 * last <= pos + m - 1 < 128 * last + 128 ->
  Z.of_nat (length buf) = 128 * (1 + last - first) -> Forall is_byte buf ->
  exists buf', read_partial uninit d (mkOpenFile h sp) m pos first last buf = Ok buf' /\
    length buf' = length buf /\ Forall is_byte buf' /\
    forall p, 128 * first <= Z.of_nat p < 128 * last + 128 -> Z.of_nat p < numBytes h ->
      Z.of_nat p < pos \/ pos + m <= Z.of_nat p ->
      buf' !! (p - Z.to_nat (128 * first))%nat = file_data d h !! p.
Proof.
  intros Hd Hw Hp Hm Hend Hfl Hf Hl Hbuf Hby. unfold read_partial. change SectorSize with 128.
  pose proof (hw_bytes _ Hw) as Hnb. change MaxFileSize with 3840 in Hnb.
  assert (forall b i, length b = length buf -> Forall is_byte b -> first <= i <= last ->
    exists b', (bs ← ReadAt uninit d (mkOpenFile h sp) 128 (i * 128); buf_put b ((i - first) * 128) bs) = Ok b' /\
      length b' = length b /\ Forall is_byte b' /\
      forall p, 128 * first <= Z.of_nat p -> Z.of_nat p < numBytes h ->
        b' !! (p - Z.to_nat (128 * first))%nat =
          if decide (128 * i <= Z.of_nat p < 128 * i + 128) then file_data d h !! p
          else b !! (p - Z.to_nat (128 * first))%nat) as Hread.
  { intros b i Hlb Hbb Hi. rewrite ReadAt_ok by (simpl; unfold is_int; (done || lia)). cbn [mbind outcome_bind hdr].
    pose proof (length_file_data d h Hd Hw) as Hfd.
    set (bs := take _ _). assert (length bs = Nat.min 128 (Z.to_nat (numBytes h) - Z.to_nat (i * 128))) as Hlbs.
    { unfold bs. rewrite length_take, length_drop. lia. }
    rewrite buf_put_ok by lia. eexists. split; [done|]. split; [by rewrite length_splice by lia|]. split.
    - apply splice_bytes; [done|]. unfold bs. apply Forall_take, Forall_drop. unfold file_data.
      apply Forall_take, Forall_concat, Forall_fmap. eapply Forall_impl; [apply (hw_disk _ Hw)|].
      intros s Hs. simpl. by apply bs_sector_bytes.
    - intros p Hp1 Hp2. rewrite lookup_splice by lia. repeat case_decide; try done; try lia.
      unfold bs. rewrite lookup_take_lt by lia. rewrite lookup_drop. f_equal. lia. }
  assert (exists b1, (if negb (pos =? first * 128)
        then bs ← ReadAt uninit d (mkOpenFile h sp) 128 (first * 128); buf_put buf 0 bs else Ok buf) = Ok b1 /\
      length b1 = length buf /\ Forall is_byte b1 /\
      forall p, 128 * first <= Z.of_nat p < 128 * first + 128 -> Z.of_nat p < numBytes h ->
        pos <> first * 128 -> b1 !! (p - Z.to_nat (128 * first))%nat = file_data d h !! p)
    as (b1 & -> & Hl1 & Hby1 & Hb1).
  { destruct (Z.eqb_spec pos (first * 128)); cbn [negb]; [by exists buf|].
    destruct (Hread buf first) as (b1 & Hr & Hl1 & Hby1 & Hb1); [done|done|lia|].
    rewrite Z.sub_diag in Hr. exists b1. split_and!; [done|done|done|]. intros p Hp1 Hp2 _.
    rewrite Hb1 by lia. by rewrite decide_True by lia. }
  cbn [mbind outcome_bind].
  destruct (negb (pos + m =? (last + 1) * 128) && _) eqn:E.
  - destruct (Hread b1 last) as (b2 & -> & Hl2 & Hby2 & Hb2); [done|done|lia|]. exists b2.
    split_and!; [done|lia|done|]. intros p Hp1 Hp2 Hp3. rewrite Hb2 by lia.
    case_decide; [done|]. apply Hb1; lia.
  - exists b1. split_and!; [done|done|done|]. intros p Hp1 Hp2 Hp3.
    apply andb_false_iff in E. apply Hb1; [lia|lia|].
    destruct E as [E|E]; lia.
Qed.

(** The content of a file whose sectors were stored from a buffer. *)
Lemma file_data_stored d d' h m pos first last buf data :
  bs_ok d -> bs_ok d' -> header_wf h -> 0 <= pos -> pos + m <= numBytes h ->
  Z.of_nat (length data) = m -> 0 <= first <= last -> 128 * first <= pos ->
  pos + m <= 128 * last + 128 -> Z.of_nat (length buf) = 128 * (1 + last - first) ->
  (forall p, 128 * first <= Z.of_nat p < 128 * last + 128 -> Z.of_nat p < numBytes h ->
     buf !! (p - Z.to_nat (128 * first))%nat = splice (file_data d h) (Z.to_nat pos) data !! p) ->
  (forall s, in_disk s = true -> bs_sector d' s =
     match list_find (fun s' => s' = s) (used_sectors h) with
     | Some (i, _) => if decide (first <= Z.of_nat i <= last)
         then take 128 (drop (Z.to_nat (128 * (Z.of_nat i - first))) buf) else bs_sector d s
     | None => bs_sector d s
     end) ->
  file_data d' h = splice (file_data d h) (Z.to_nat pos) data.
Proof.
  intros Hd Hd' Hw Hp Hend Hdata Hfl Hf Hl Hbuf Hb Hs.
  pose proof (length_file_data d h Hd Hw) as Hlen. pose proof (length_file_data d' h Hd' Hw) as Hlen'.
  apply list_eq. intros p. destruct (decide (Z.of_nat p < numBytes h)) as [Hlt|Hge]; cycle 1.
  { rewrite !lookup_ge_None_2; [done| |]; rewrite ?length_splice; lia. }
  pose proof (header_length h Hw) as Hhl.
  pose proof (Z.div_mod (Z.of_nat p) 128 ltac:(lia)) as Hdm.
  pose proof (Z.mod_pos_bound (Z.of_nat p) 128 ltac:(lia)) as Hmb.
  set (i := Z.of_nat p / 128) in *. set (j := Z.of_nat p mod 128) in *.
  destruct (used_lookup h i Hw) as (s & Hus & Hin & _); [lia|].
  assert (p = 128 * Z.to_nat i + Z.to_nat j)%nat as Hpij by lia.
  rewrite Hpij at 1. rewrite (lookup_file_data d' h _ _ s) by (done || lia). rewrite Hs by done.
  assert (list_find (fun s' => s' = s) (used_sectors h) = Some (Z.to_nat i, s)) as ->.
  { apply list_find_Some. split_and!; [done|done|]. intros k y Hk Hlt' ->.
    pose proof (NoDup_lookup _ _ _ _ (hw_nodup _ Hw) Hk Hus). lia. }
  case_decide.
  - rewrite <- Hb by lia. rewrite lookup_take_lt by lia. rewrite lookup_drop. f_equal. lia.
  - rewrite lookup_splice by lia. rewrite decide_False by lia.
    rewrite Hpij. by rewrite (lookup_file_data d h _ _ s) by (done || lia).
Qed.

Lemma WriteAt_ok d f from n pos :
  bs_ok d -> header_wf (hdr f) -> 0 <= pos -> is_int (pos + n) ->
  Forall is_byte from -> n <= Z.of_nat (length from) ->
  let m := Z.max 0 (Z.min n (numBytes (hdr f) - pos)) in
  exists d', WriteAt uninit d f from n pos = Ok (d', m) /\ bs_ok d' /\
    file_data d' (hdr f) = (if 0 <? m then splice (file_data d (hdr f)) (Z.to_nat pos) (take (Z.to_nat m) from)
      else file_data d (hdr f)) /\
    forall s, in_disk s = true -> s ∉ used_sectors (hdr f) -> bs_sector d' s = bs_sector d s.
Proof.
  intros Hd Hw Hp Hi Hfb Hfl m. destruct f as [h sp]. cbn [hdr] in *.
  pose proof (length_file_data d h Hd Hw) as Hlen. pose proof (header_length h Hw) as Hhl.
  unfold WriteAt. cbn [hdr]. unfold FileLength. rewrite request_size_ok by (done || lia).
  cbn [mbind outcome_bind]. fold m. destruct (Z.eqb_spec m 0) as [E|E].
  { exists d. rewrite E. by replace (0 <? 0) with false by lia. }
  replace (0 <? m) with true by lia.
  destruct (sector_range pos m) as (Hfl' & Hfirst & Hlast); [lia..|].
  set (first := divRoundDown pos SectorSize) in *.
  set (last := divRoundDown (pos + m - 1) SectorSize) in *.
  set (buf := uninit _). assert (Z.of_nat (length buf) = 128 * (1 + last - first)) as Hbuf.
  { unfold buf. rewrite uninit_length. change SectorSize with 128. lia. }
  destruct (read_partial_ok d h sp m pos first last buf) as (b1 & -> & Hl1 & Hby1 & Hb1);
    [done|done|lia..|apply uninit_byte|].
  cbn [mbind outcome_bind]. rewrite buf_get_ok by lia. cbn [mbind outcome_bind]. rewrite drop_0.
  set (data := take (Z.to_nat m) from).
  assert (Z.of_nat (length data) = m) as Hdata by (unfold data; rewrite length_take; lia).
  change SectorSize with 128. rewrite buf_put_ok by lia. cbn [mbind outcome_bind].
  destruct (write_loop_ok d h first last (splice b1 (Z.to_nat (pos - first * 128)) data) Hd Hw)
    as (d' & HL & Hd' & Hs'); [lia|lia|rewrite length_splice; lia| |].
  { apply splice_bytes; [done|]. by apply Forall_take. }
  change SectorSize with 128 in HL. rewrite HL. cbn [mbind outcome_bind]. exists d'. split_and!; [done|done| |].
  - eapply (file_data_stored d d' h m pos first last); [done|done|done|lia..| | |exact Hs'].
    { rewrite length_splice; lia. }
    intros p Hp1 Hp2. rewrite !lookup_splice by lia. repeat case_decide; try lia.
    + f_equal. lia.
    + apply Hb1; lia.
  - intros s Hin Hni. rewrite Hs' by done. destruct (list_find _ _) as [[i s1]|] eqn:E'; [|done].
    apply list_find_Some in E' as (Hi' & -> & _). by apply list_elem_of_lookup_2 in Hi'.
Qed.

(** Whole-file transfers, which the directory and the free map use. *)
Lemma ReadAt_all d f :
  bs_ok d -> header_wf (hdr f) ->
  ReadAt uninit d f (numBytes (hdr f)) 0 = Ok (file_data d (hdr f)).
Proof.
  intros Hd Hw. pose proof (hw_bytes _ Hw) as Hb. change MaxFileSize with 3840 in Hb.
  rewrite ReadAt_ok by (done || unfold is_int; lia). rewrite drop_0. f_equal. apply take_ge.
  by rewrite length_file_data.
Qed.

Lemma WriteAt_all d f bs :
  bs_ok d -> header_wf (hdr f) -> Z.of_nat (length bs) = numBytes (hdr f) -> Forall is_byte bs ->
  exists d', WriteAt uninit d f bs (numBytes (hdr f)) 0 = Ok (d', numBytes (hdr f)) /\ bs_ok d' /\
    file_data d' (hdr f) = bs /\
    forall s, in_disk s = true -> s ∉ used_sectors (hdr f) -> bs_sector d' s = bs_sector d s.
Proof.
  intros Hd Hw Hl Hby. pose proof (hw_bytes _ Hw) as Hb. change MaxFileSize with 3840 in Hb.
  destruct (WriteAt_ok d f bs (numBytes (hdr f)) 0 Hd Hw) as (d' & HW & Hd' & Hdata & Hoth);
    [lia|unfold is_int; lia|done|lia|].
  rewrite Z.sub_0_r, Z.min_id, Z.max_r in HW, Hdata by lia.
  exists d'. split_and!; [done|done| |done]. pose proof (length_file_data d _ Hd Hw) as Hfl.
  rewrite Hdata. destruct (Z.ltb_spec 0 (numBytes (hdr f))).
  - unfold splice. rewrite take_0, take_ge, drop_ge by (rewrite ?length_take; lia). by rewrite app_nil_r.
  - destruct bs; [|simpl in Hl; lia]. apply nil_length_inv. lia.
Qed.
End openfile_lemmas.

(** ** Properties of the component *)
Section openfile_properties.
Context {D : Type} `{BlockStore D} `{!BlockStoreLaws D} (uninit : nat -> list Z) `{!Uninit uninit}.

(** C22: [ReadAt] returns exactly the requested stretch of the file's content,
    cut at the end of the file, wherever the request starts and ends within
    the sectors; [Read] does the same at the seek position and advances it by
    what was read. *)
Theorem read_correct (d : D) f n pos :
  bs_ok d -> header_wf (hdr f) -> 0 <= pos -> is_int pos -> is_int (pos + n) ->
  let data := take (Z.to_nat n) (drop (Z.to_nat pos) (file_data d (hdr f))) in
  ReadAt uninit d f n pos = Ok data /\
  Read uninit d (Seek f pos) n = Ok (Seek f (pos + Z.of_nat (length data)), data).
Proof.
  intros Hd Hw Hp Hpi Hi data. assert (forall sp, ReadAt uninit d (mkOpenFile (hdr f) sp) n pos = Ok data) as HR.
  { intros sp. by rewrite ReadAt_ok. }
  split; [by destruct f; apply HR|]. unfold Read, Seek. cbn [seekPosition hdr]. rewrite HR.
  cbn [mbind outcome_bind].
  assert (Z.of_nat (length data) <= Z.max 0 n /\ Z.of_nat (length data) <= Z.max 0 (3840 - pos)) as Hl.
  { pose proof (hw_bytes _ Hw) as Hb. change MaxFileSize with 3840 in Hb. unfold data.
    rewrite length_take, length_drop, (length_file_data d _ Hd Hw). lia. }
  unfold int_add. unfold is_int in Hi, Hpi. by replace (_ && _) with true by lia.
Qed.

(** C7: [WriteAt] replaces exactly the requested stretch of the file's content,
    cut at the end of the file (a file never grows), keeps the rest of the
    partially written sectors and every sector of other files, whatever the
    fresh buffer held; [Write] does the same at the seek position and advances
    it; reading the stretch afterwards gives back what was written. *)
Theorem write_correct (d : D) f from n pos :
  bs_ok d -> header_wf (hdr f) -> 0 <= pos -> is_int pos -> is_int (pos + n) ->
  Forall is_byte from -> n <= Z.of_nat (length from) ->
  let m := Z.max 0 (Z.min n (Length f - pos)) in
  exists d', WriteAt uninit d f from n pos = Ok (d', m) /\
    Write uninit d (Seek f pos) from n = Ok (d', Seek f (pos + m), m) /\ bs_ok d' /\
    (0 < m -> file_data d' (hdr f) =
       splice (file_data d (hdr f)) (Z.to_nat pos) (take (Z.to_nat m) from)) /\
    (m = 0 -> file_data d' (hdr f) = file_data d (hdr f)) /\
    (forall s, in_disk s = true -> s ∉ used_sectors (hdr f) -> bs_sector d' s = bs_sector d s) /\
    ReadAt uninit d' f n pos = Ok (take (Z.to_nat m) from).
Proof.
  intros Hd Hw Hp Hpi Hi Hfb Hfl m. unfold Length, FileLength in m.
  destruct (WriteAt_ok uninit d f from n pos Hd Hw Hp Hi Hfb Hfl) as (d' & HW & Hd' & Hdata & Hoth).
  fold m in HW, Hdata. exists d'. split; [done|]. split.
  { destruct f as [h sp]. unfold Write, Seek. cbn [seekPosition hdr] in *.
    assert (WriteAt uninit d (mkOpenFile h pos) from n pos = WriteAt uninit d (mkOpenFile h sp) from n pos) as -> by done.
    rewrite HW. cbn [mbind outcome_bind].
    pose proof (hw_bytes _ Hw) as Hb. change MaxFileSize with 3840 in Hb.
    unfold int_add. unfold is_int in Hpi, Hi. by replace (_ && _) with true by lia. }
  split_and!; [done| | |done|].
  - intros Hm. by replace (0 <? m) with true in Hdata by lia.
  - intros Hm. by replace (0 <? m) with false in Hdata by lia.
  - rewrite ReadAt_ok by done. f_equal.
    pose proof (length_file_data d _ Hd Hw) as Hlen. pose proof (length_file_data d' _ Hd' Hw) as Hlen'.
    apply list_eq. intros k. destruct (decide (k < Z.to_nat m)%nat) as [Hk|Hk].
    + rewrite !lookup_take_lt, lookup_drop by lia. replace (0 <? m) with true in Hdata by lia.
      rewrite Hdata, lookup_splice by (rewrite length_take; lia). rewrite length_take, decide_True by lia.
      rewrite lookup_take_lt by lia. f_equal. lia.
    + rewrite !lookup_ge_None_2; [done| |]; rewrite ?length_take, ?length_drop; lia.
Qed.
End openfile_properties.

(** A file of 300 bytes on the blank disk. *)
Definition sample_header : FileHeader := mkHeader 300 3 ([9; 5; 7] ++ replicate 27 0).
Definition garbage (n : nat) : list Z := replicate n 0xa5.

#[export] Instance garbage_uninit : Uninit garbage.
Proof.
  split; intros n; unfold garbage; [apply length_replicate|apply Forall_replicate; unfold is_byte; lia].
Qed.

Lemma sample_header_wf : header_wf sample_header.
Proof.
  split; simpl; [unfold MaxFileSize; change NumDirect with 30; change SectorSize with 128; lia|done|done| | |].
  - repeat constructor; unfold is_int; simpl; lia.
  - repeat constructor.
  - unfold used_sectors. simpl. repeat (constructor; [set_solver|]). constructor.
Qed.

Lemma read_correct_witness :
  ReadAt garbage blank_image (mkOpenFile sample_header 0) 200 150 = Ok (replicate 150 0).
Proof.
  assert (is_int 150 /\ is_int (150 + 200)) as [H1 H2] by (unfold is_int; lia).
  destruct (read_correct (H := image_store) garbage blank_image (mkOpenFile sample_header 0) 200 150
    blank_image_ok sample_header_wf ltac:(lia) H1 H2) as [HR _].
  rewrite HR. vm_compute. reflexivity.
Defined.

Lemma write_correct_witness :
  exists d', WriteAt garbage blank_image (mkOpenFile sample_header 0) (replicate 200 7) 200 150 = Ok (d', 150) /\
    file_data d' sample_header = replicate 150 0 ++ replicate 150 7.
Proof.
  assert (is_int 150 /\ is_int (150 + 200)) as [H1 H2] by (unfold is_int; lia).
  assert (Forall is_byte (replicate 200 7)) as Hb by (apply Forall_replicate; unfold is_byte; lia).
  destruct (write_correct (H := image_store) garbage blank_image (mkOpenFile sample_header 0) (replicate 200 7) 200 150
    blank_image_ok sample_header_wf ltac:(lia) H1 H2 Hb ltac:(rewrite length_replicate; lia))
    as (d' & HW & _ & _ & Hd & _).
  exists d'. split; [exact HW|]. cbn [hdr] in Hd. rewrite Hd by (vm_compute; reflexivity). vm_compute. reflexivity.
Defined.
