(* ===== verification/PBitmap.v ===== *)
(** * Persistent bitmaps (src/code/filesys/pbitmap.h, pbitmap.cc)

    A bitmap whose words are stored as the content of a Nachos file.  The free
    map of the disk is one. *)

From S2P Require Import Prelude Bitmap Lists Interrupt Disk FileHdr OpenFile.

(** [(char * ) map] and back. *)
Definition map_bytes (m : list Z) : list Z := concat (le_bytes 4 <$> m).

Fixpoint words_of (n : nat) (bs : list Z) : list Z :=
  match n with
  | O => []
  | S n' => le_value (take 4 bs) :: words_of n' (drop 4 bs)
  end.

Section pbitmap.
Context {D : Type} `{BlockStore D} (uninit : nat -> list Z).

(** [PersistentBitmap::FetchFrom] *)
Definition FetchFrom (d : D) (file : OpenFile) (b : Bitmap) : outcome Bitmap :=
  bs ← ReadAt uninit d file (numWords b * 4) 0;
  m ← buf_put (map_bytes (map b)) 0 bs;
  Ok (mkBitmap (numBits b) (numWords b) (words_of (length (map b)) m)).

(** [PersistentBitmap::PersistentBitmap(int)] is the constructor of its base;
    [PersistentBitmap::PersistentBitmap(OpenFile *, int)] then reads the file. *)
Definition newPersistentBitmap (numItems : Z) : outcome Bitmap := newBitmap numItems.
Definition openPersistentBitmap (d : D) (file : OpenFile) (numItems : Z) : outcome Bitmap :=
  b ← newBitmap numItems; FetchFrom d file b.

(** [PersistentBitmap::WriteBack] *)
Definition WriteBack (d : D) (file : OpenFile) (b : Bitmap) : outcome D :=
  '(d, _) ← WriteAt uninit d file (map_bytes (map b)) (numWords b * 4) 0;
  Ok d.
End pbitmap.

(** ** Lemmas *)
Lemma words_of_bytes m : Forall is_uint m -> words_of (length m) (map_bytes m) = m.
Proof.
  unfold map_bytes. induction 1 as [|x m Hx _ IH]; [done|]. rewrite fmap_cons. cbn [concat length words_of].
  rewrite take_app_length', drop_app_length' by by rewrite length_le_bytes.
  by rewrite le_word_roundtrip, IH.
Qed.

Section pbitmap_lemmas.
Context {D : Type} `{BlockStore D} `{!BlockStoreLaws D} (uninit : nat -> list Z) `{!Uninit uninit}.

Lemma open_ok (d : D) f b :
  bs_ok d -> header_wf (hdr f) -> bitmap_wf b -> numBytes (hdr f) = numWords b * 4 ->
  file_data d (hdr f) = map_bytes (map b) -> openPersistentBitmap uninit d f (numBits b) = Ok b.
Proof.
  intros Hd Hw Hb Hn Hdata. unfold openPersistentBitmap.
  destruct (newBitmap_ok (numBits b)) as (b0 & -> & Hb0 & Hn0 & _); [apply Hb|].
  cbn [mbind outcome_bind]. unfold FetchFrom.
  assert (numWords b0 = numWords b) as Hnw by by rewrite (wf_words _ Hb0), (wf_words _ Hb), Hn0.
  assert (length (map b0) = length (map b)) as Hlm.
  { pose proof (wf_length _ Hb0). pose proof (wf_length _ Hb). lia. }
  rewrite Hnw, <- Hn, ReadAt_all by done. cbn [mbind outcome_bind]. rewrite Hdata.
  assert (length (map_bytes (map b0)) = length (map_bytes (map b))) as Hlb.
  { unfold map_bytes. rewrite !length_concat_words. lia. }
  rewrite buf_put_ok by lia. cbn [mbind outcome_bind]. unfold splice.
  rewrite take_0, drop_ge, app_nil_r by (simpl; lia). cbn [app].
  rewrite Hlm, words_of_bytes by apply Hb. rewrite Hn0. by destruct b.
Qed.

Lemma PWriteBack_ok (d : D) f b :
  bs_ok d -> header_wf (hdr f) -> bitmap_wf b -> numBytes (hdr f) = numWords b * 4 ->
  exists d', WriteBack uninit d f b = Ok d' /\ bs_ok d' /\ file_data d' (hdr f) = map_bytes (map b) /\
    forall s, in_disk s = true -> s ∉ used_sectors (hdr f) -> bs_sector d' s = bs_sector d s.
Proof.
  intros Hd Hw Hb Hn. unfold WriteBack. rewrite <- Hn. pose proof (wf_length _ Hb).
  destruct (WriteAt_all uninit d f (map_bytes (map b)) Hd Hw) as (d' & -> & Hd' & ? & ?).
  - unfold map_bytes. rewrite length_concat_words. lia.
  - apply concat_words_bytes.
  - by exists d'.
Qed.
End pbitmap_lemmas.

(** ** Properties of the component *)

(** A bitmap written back to a file of the right size is reproduced by
    opening a persistent bitmap on that file, and the sectors outside the file
    are unchanged. *)
Theorem pbitmap_roundtrip {D} `{BlockStore D} `{!BlockStoreLaws D} uninit `{!Uninit uninit} (d : D) f b :
  bs_ok d -> header_wf (hdr f) -> bitmap_wf b -> numBytes (hdr f) = numWords b * 4 ->
  exists d', WriteBack uninit d f b = Ok d' /\ bs_ok d' /\
    openPersistentBitmap uninit d' f (numBits b) = Ok b /\
    forall s, in_disk s = true -> s ∉ used_sectors (hdr f) -> bs_sector d' s = bs_sector d s.
Proof.
  intros Hd Hw Hb Hn. destruct (PWriteBack_ok uninit d f b Hd Hw Hb Hn) as (d' & -> & Hd' & Hdata & Hoth).
  exists d'. split_and!; [done|done|by apply open_ok|done].
Qed.

Lemma pbitmap_roundtrip_witness :
  exists d', WriteBack garbage blank_image (mkOpenFile (mkHeader 128 1 (6 :: replicate 29 0)) 0) sample_map = Ok d' /\
    openPersistentBitmap garbage d' (mkOpenFile (mkHeader 128 1 (6 :: replicate 29 0)) 0) 1024 = Ok sample_map.
Proof.
  assert (header_wf (mkHeader 128 1 (6 :: replicate 29 0))) as Hw.
  { split; simpl; [unfold MaxFileSize; change NumDirect with 30; change SectorSize with 128; lia|done|done| | |].
    - repeat constructor; unfold is_int; simpl; lia.
    - repeat constructor.
    - unfold used_sectors. simpl. repeat (constructor; [set_solver|]). constructor. }
  destruct (pbitmap_roundtrip (H := image_store) garbage blank_image
    (mkOpenFile (mkHeader 128 1 (6 :: replicate 29 0)) 0) sample_map blank_image_ok Hw sample_map_wf eq_refl)
    as (d' & HW & _ & HF & _).
  exists d'. split; [exact HW|exact HF].
Defined.
