(* ===== verification/Directory.v ===== *)
(** * Directories (src/code/filesys/directory.h, directory.cc)

    A table of fixed-size entries that maps file names to header sectors.
    Names are C strings of which only the first [FileNameMaxLen] bytes count.
    The abstract state of a directory is the finite map [dir_map] from the
    significant part of the name to the sector. *)

From S2P Require Import Prelude Bitmap Lists Interrupt Disk FileHdr OpenFile.

Definition FileNameMaxLen : Z := 9.

(** The entry's bytes in memory: [bool], 3 bytes of padding, [int], the name
    with its terminator, 2 bytes of padding. *)
Record DirectoryEntry := mkEntry {
  inUse : bool;
  pad0 : list Z;
  sector : Z;
  name : list Z;
  pad1 : list Z;
}.

#[export] Instance DirectoryEntry_eq_dec : EqDecision DirectoryEntry.
Proof. solve_decision. Defined.

Definition sizeof_DirectoryEntry : Z := 20.

Record Directory := mkDirectory {
  tableSize : Z;
  table : list DirectoryEntry;
}.

(** [strncmp] and [strncpy] of the C library; a string's terminating NUL is
    implicit at the end of its list. *)
Fixpoint strncmp (a b : list Z) (n : nat) : Z :=
  match n with
  | O => 0
  | S n' =>
      let x := hd 0 a in
      let y := hd 0 b in
      if x =? y then if x =? 0 then 0 else strncmp (tl a) (tl b) n' else x - y
  end.

Fixpoint strncpy (src : list Z) (n : nat) : list Z :=
  match n with
  | O => []
  | S n' => if hd 0 src =? 0 then replicate (S n') 0 else hd 0 src :: strncpy (tl src) n'
  end.

Definition set_inUse (u : bool) (e : DirectoryEntry) : DirectoryEntry :=
  mkEntry u (pad0 e) (sector e) (name e) (pad1 e).

(** The bytes of a table, and back. *)
Definition entry_bytes (e : DirectoryEntry) : list Z :=
  [Z.b2z (inUse e)] ++ pad0 e ++ le_bytes 4 (sector e) ++ name e ++ pad1 e.
Definition entry_of (bs : list Z) : DirectoryEntry :=
  mkEntry (negb (hd 0 bs =? 0)) (take 3 (drop 1 bs)) (to_int (le_value (take 4 (drop 4 bs))))
    (take 10 (drop 8 bs)) (take 2 (drop 18 bs)).
Definition table_bytes (t : list DirectoryEntry) : list Z := concat (entry_bytes <$> t).
Fixpoint table_of (n : nat) (bs : list Z) : list DirectoryEntry :=
  match n with
  | O => []
  | S n' => entry_of (take 20 bs) :: table_of n' (drop 20 bs)
  end.

(** [Directory::Directory]: the entries are uninitialised but for [inUse]. *)
Definition newDirectory (uninit : nat -> list Z) (size : Z) : outcome Directory :=
  let t := table_of (Z.to_nat size) (uninit (Z.to_nat (size * sizeof_DirectoryEntry))) in
  t ← for_range 0 size (fun i t => e ← arr_get t i; arr_set t i (set_inUse false e)) t;
  Ok (mkDirectory size t).

(** [Directory::FindIndex] *)
Definition FindIndex (dir : Directory) (nm : list Z) : outcome Z :=
  r ← for_until 0 (tableSize dir) (fun i (_ : unit) =>
        e ← arr_get (table dir) i;
        Ok (if inUse e && (strncmp (name e) nm (Z.to_nat FileNameMaxLen) =? 0)
            then inr i else inl tt)) tt;
  Ok (match r with inl _ => -1 | inr i => i end).

(** [Directory::Find] *)
Definition Find (dir : Directory) (nm : list Z) : outcome Z :=
  i ← FindIndex dir nm;
  if negb (i =? -1) then e ← arr_get (table dir) i; Ok (sector e) else Ok (-1).

(** [Directory::Add] *)
Definition Add (dir : Directory) (nm : list Z) (newSector : Z) : outcome (Directory * bool) :=
  i ← FindIndex dir nm;
  if negb (i =? -1) then Ok (dir, false)
  else
    r ← for_until 0 (tableSize dir) (fun i (_ : unit) =>
          e ← arr_get (table dir) i;
          if negb (inUse e) then
            t ← arr_set (table dir) i (mkEntry true (pad0 e) newSector
                  (splice (name e) 0 (strncpy nm (Z.to_nat FileNameMaxLen))) (pad1 e));
            Ok (inr (mkDirectory (tableSize dir) t))
          else Ok (inl tt)) tt;
    Ok (match r with inl _ => (dir, false) | inr dir' => (dir', true) end).

(** [Directory::Remove] *)
Definition Remove (dir : Directory) (nm : list Z) : outcome (Directory * bool) :=
  i ← FindIndex dir nm;
  if i =? -1 then Ok (dir, false)
  else
    e ← arr_get (table dir) i;
    t ← arr_set (table dir) i (set_inUse false e);
    Ok (mkDirectory (tableSize dir) t, true).

(** [printf("%s", s)] of a [char] array: the bytes before its NUL; without one
    the call reads past the array. *)
Fixpoint print_string (s : list Z) : outcome (list Z) :=
  match s with
  | [] => Err Undefined
  | x :: s' => if x =? 0 then Ok [] else out ← print_string s'; Ok (x :: out)
  end.

(** [Directory::List]: the lines printed. *)
Definition List (dir : Directory) : outcome (list (list Z)) :=
  for_range 0 (tableSize dir) (fun i out =>
    e ← arr_get (table dir) i;
    if inUse e then line ← print_string (name e); Ok (out ++ [line]) else Ok out) [].

Section directory_io.
Context {D : Type} `{BlockStore D} (uninit : nat -> list Z).

(** [Directory::FetchFrom] *)
Definition FetchFrom (d : D) (file : OpenFile) (dir : Directory) : outcome Directory :=
  bs ← ReadAt uninit d file (tableSize dir * sizeof_DirectoryEntry) 0;
  m ← buf_put (table_bytes (table dir)) 0 bs;
  Ok (mkDirectory (tableSize dir) (table_of (length (table dir)) m)).

(** [Directory::WriteBack] *)
Definition WriteBack (d : D) (file : OpenFile) (dir : Directory) : outcome D :=
  '(d, _) ← WriteAt uninit d file (table_bytes (table dir)) (tableSize dir * sizeof_DirectoryEntry) 0;
  Ok d.
End directory_io.

(** ** Abstract state *)

(** The part of a name that the directory distinguishes: its first [n] bytes up
    to the terminator. *)
Fixpoint cstr (s : list Z) (n : nat) : list Z :=
  match n with
  | O => []
  | S n' => if hd 0 s =? 0 then [] else hd 0 s :: cstr (tl s) n'
  end.
Definition key (nm : list Z) : list Z := cstr nm (Z.to_nat FileNameMaxLen).

Record entry_wf (e : DirectoryEntry) : Prop := {
  ew_pad0 : length (pad0 e) = 3%nat /\ Forall is_byte (pad0 e);
  ew_sector : is_int (sector e);
  ew_name : length (name e) = 10%nat /\ Forall is_byte (name e);
  ew_pad1 : length (pad1 e) = 2%nat /\ Forall is_byte (pad1 e);
}.

Definition in_use (t : list DirectoryEntry) : list DirectoryEntry := filter (fun e => inUse e = true) t.
Definition entry_pair (e : DirectoryEntry) : list Z * Z := (key (name e), sector e).
Definition dir_map (dir : Directory) : gmap (list Z) Z := list_to_map (entry_pair <$> in_use (table dir)).

Record dir_wf (dir : Directory) : Prop := {
  dw_size : Z.of_nat (length (table dir)) = tableSize dir;
  dw_entries : Forall entry_wf (table dir);
  dw_keys : NoDup ((entry_pair <$> in_use (table dir)).*1);
}.

(** ** Strings *)
Lemma strncmp_cstr a b n : strncmp a b n = 0 <-> cstr a n = cstr b n.
Proof.
  revert a b. induction n as [|n IH]; intros a b; simpl; [done|].
  destruct (Z.eqb_spec (hd 0 a) (hd 0 b)) as [E|E].
  - rewrite <- E. destruct (Z.eqb_spec (hd 0 a) 0); [done|]. rewrite IH. split; [by intros ->|by intros [= ->]].
  - split; [lia|]. destruct (Z.eqb_spec (hd 0 a) 0), (Z.eqb_spec (hd 0 b) 0); intros; congruence.
Qed.

Lemma cstr_strncpy src rest n : cstr (strncpy src n ++ rest) n = cstr src n.
Proof.
  revert src. induction n as [|n IH]; intros src; [done|]. cbn [strncpy cstr].
  destruct (Z.eqb_spec (hd 0 src) 0) as [E|E]; cbn [replicate app hd tl].
  - by rewrite Z.eqb_refl.
  - destruct (Z.eqb_spec (hd 0 src) 0); [done|]. by rewrite IH.
Qed.

Lemma length_strncpy src n : length (strncpy src n) = n.
Proof.
  revert src. induction n as [|n IH]; intros src; [done|]. cbn [strncpy].
  destruct (_ =? _); cbn [length replicate]; [by rewrite length_replicate|by rewrite IH].
Qed.

Lemma strncpy_bytes src n : Forall is_byte src -> Forall is_byte (strncpy src n).
Proof.
  revert src. induction n as [|n IH]; intros src Hs; [constructor|]. cbn [strncpy].
  destruct (Z.eqb_spec (hd 0 src) 0).
  - apply Forall_replicate. unfold is_byte. lia.
  - destruct Hs as [|x src Hx Hs]; [done|]. constructor; [done|by apply IH].
Qed.

Lemma key_strncpy nm old :
  length old = 10%nat -> key (splice old 0 (strncpy nm (Z.to_nat FileNameMaxLen))) = key nm.
Proof. intros Hl. unfold key, splice. rewrite take_0. cbn [app]. apply cstr_strncpy. Qed.

(** ** Layout *)
Lemma length_entry_bytes e : entry_wf e -> length (entry_bytes e) = 20%nat.
Proof.
  intros [[H0 _] _ [Hn _] [H1 _]]. unfold entry_bytes. rewrite !length_app, H0, length_le_bytes, Hn, H1. done.
Qed.

Lemma entry_bytes_byte e : entry_wf e -> Forall is_byte (entry_bytes e).
Proof.
  intros [[_ H0] _ [_ Hn] [_ H1]]. unfold entry_bytes. repeat (apply Forall_app; split); auto using le_bytes_byte.
  constructor; [|done]. destruct (inUse e); unfold is_byte; simpl; lia.
Qed.

Lemma entry_roundtrip e : entry_wf e -> entry_of (entry_bytes e) = e.
Proof.
  intros [[H0 _] Hs [Hn _] [H1 _]]. destruct e as [u p0 s nm p1]. cbn [inUse pad0 sector name pad1] in *.
  destruct p0 as [|a0 [|a1 [|a2 [|]]]]; try discriminate H0.
  destruct p1 as [|b0 [|b1 [|]]]; try discriminate H1.
  pose proof (le_int_roundtrip s Hs) as Hr. pose proof (length_le_bytes 4 s) as Hl4.
  unfold entry_of, entry_bytes. cbn [inUse pad0 sector name pad1].
  destruct (le_bytes 4 s) as [|c0 [|c1 [|c2 [|c3 [|]]]]]; try discriminate Hl4.
  do 10 (destruct nm as [|? nm]; [discriminate Hn|]). destruct nm; [|discriminate Hn].
  cbn [app hd take drop]. rewrite Hr. by destruct u.
Qed.

Lemma table_roundtrip t : Forall entry_wf t -> table_of (length t) (table_bytes t) = t.
Proof.
  unfold table_bytes. induction 1 as [|e t He _ IH]; [done|]. rewrite fmap_cons. cbn [concat length table_of].
  rewrite take_app_length', drop_app_length' by by rewrite length_entry_bytes.
  by rewrite entry_roundtrip, IH.
Qed.

Lemma length_table_bytes t : Forall entry_wf t -> length (table_bytes t) = (20 * length t)%nat.
Proof.
  intros Ht. unfold table_bytes. rewrite (length_concat_blocks _ 20).
  - by rewrite length_fmap.
  - apply Forall_fmap. eapply Forall_impl; [exact Ht|]. apply length_entry_bytes.
Qed.

Lemma table_bytes_byte t : Forall entry_wf t -> Forall is_byte (table_bytes t).
Proof.
  intros Ht. unfold table_bytes. apply Forall_concat, Forall_fmap. eapply Forall_impl; [exact Ht|].
  apply entry_bytes_byte.
Qed.

Lemma length_table_of n bs : length (table_of n bs) = n.
Proof. revert bs. induction n; intros; simpl; auto. Qed.

Lemma entry_of_wf bs : length bs = 20%nat -> Forall is_byte bs -> entry_wf (entry_of bs).
Proof.
  intros Hl Hb. unfold entry_of. split; cbn [pad0 sector name pad1].
  - rewrite length_take, length_drop, Hl. split; [done|by apply Forall_take, Forall_drop].
  - apply to_int_range.
  - rewrite length_take, length_drop, Hl. split; [done|by apply Forall_take, Forall_drop].
  - rewrite length_take, length_drop, Hl. split; [done|by apply Forall_take, Forall_drop].
Qed.

Lemma table_of_wf n bs : length bs = (20 * n)%nat -> Forall is_byte bs -> Forall entry_wf (table_of n bs).
Proof.
  revert bs. induction n as [|n IH]; intros bs Hl Hb; [constructor|]. cbn [table_of]. constructor.
  - apply entry_of_wf; [rewrite length_take; lia|by apply Forall_take].
  - apply IH; [rewrite length_drop; lia|by apply Forall_drop].
Qed.

(** ** Lookup *)
Section lookup.
Context (dir : Directory) (Hwf : dir_wf dir) (nm : list Z).

Lemma dir_slot i : 0 <= i < tableSize dir ->
  exists e, table dir !! Z.to_nat i = Some e /\ arr_get (table dir) i = Ok e.
Proof. intros Hi. apply arr_get_lt. rewrite (dw_size _ Hwf). lia. Qed.

(** Either no entry in use has the name, or exactly one has. *)
Lemma FindIndex_ok :
  (FindIndex dir nm = Ok (-1) /\ forall e, e ∈ in_use (table dir) -> key (name e) <> key nm) \/
  exists i e, FindIndex dir nm = Ok (Z.of_nat i) /\ table dir !! i = Some e /\ inUse e = true /\
    key (name e) = key nm.
Proof.
  unfold FindIndex. pose proof (dw_size _ Hwf) as Hsz.
  destruct (for_until_ind (fun k (_ : unit) => forall j e, Z.of_nat j < k -> table dir !! j = Some e ->
      inUse e = true -> key (name e) <> key nm)
    (fun i => exists e, 0 <= i /\ table dir !! Z.to_nat i = Some e /\ inUse e = true /\ key (name e) = key nm)
    (fun i (_ : unit) => e ← arr_get (table dir) i;
       Ok (if inUse e && (strncmp (name e) nm (Z.to_nat FileNameMaxLen) =? 0) then inr i else inl tt))
    0 (tableSize dir) tt) as ([u|i] & -> & Hr).
  - lia.
  - intros j e Hj. lia.
  - intros i u Hi Hprev. destruct (dir_slot i Hi) as (e & He & ->). cbn [mbind outcome_bind]. eexists. split; [done|].
    destruct (inUse e) eqn:Hu; cbn [andb].
    + destruct (Z.eqb_spec (strncmp (name e) nm (Z.to_nat FileNameMaxLen)) 0) as [E|E].
      * apply strncmp_cstr in E. exists e. split_and!; [lia|done|done|done].
      * intros j e' Hj He' Hu'. destruct (decide (Z.of_nat j < i)) as [Hlt|Hge]; [by eapply Hprev|].
        replace j with (Z.to_nat i) in He' by lia. simplify_eq. intros Hk. apply E. by apply strncmp_cstr.
    + intros j e' Hj He' Hu'. destruct (decide (Z.of_nat j < i)) as [Hlt|Hge]; [by eapply Hprev|].
      replace j with (Z.to_nat i) in He' by lia. simplify_eq. congruence.
  - left. split; [done|]. intros e He. apply list_elem_of_filter in He as [Hu (j & Hj)%list_elem_of_lookup].
    eapply Hr; [|done|done]. apply lookup_lt_Some in Hj. lia.
  - right. destruct Hr as (e & Hi & He & Hu & Hk). exists (Z.to_nat i), e.
    cbn [mbind outcome_bind]. by rewrite Z2Nat.id.
Qed.

Lemma dir_map_lookup e : e ∈ in_use (table dir) -> dir_map dir !! key (name e) = Some (sector e).
Proof.
  intros He. apply elem_of_list_to_map; [apply Hwf|]. apply list_elem_of_fmap. by exists e.
Qed.

Lemma dir_map_None : (forall e, e ∈ in_use (table dir) -> key (name e) <> key nm) -> dir_map dir !! key nm = None.
Proof.
  intros Hno. apply not_elem_of_list_to_map. intros Hin. rewrite <- list_fmap_compose in Hin.
  apply list_elem_of_fmap in Hin as (e & Heq & He). by destruct (Hno e He).
Qed.

Lemma Find_ok : Find dir nm = Ok (default (-1) (dir_map dir !! key nm)).
Proof.
  unfold Find. destruct FindIndex_ok as [[-> Hno]|(i & e & -> & He & Hu & Hk)]; cbn [mbind outcome_bind].
  - by rewrite dir_map_None.
  - rewrite of_nat_not_minus1. cbn [negb].
    rewrite (arr_get_Some _ _ e) by (rewrite ?Nat2Z.id; (done || lia)). cbn [mbind outcome_bind].
    rewrite <- Hk, dir_map_lookup; [done|]. apply list_elem_of_filter. split; [done|].
    by eapply list_elem_of_lookup_2.
Qed.
End lookup.

(** ** Updates *)
Lemma insert_Permutation_delete {A} (l : list A) i x y :
  l !! i = Some x -> <[i := y]> l ≡ₚ y :: delete i l.
Proof.
  intros Hx. rewrite insert_take_drop by by eapply lookup_lt_Some.
  rewrite delete_take_drop. by rewrite Permutation_middle.
Qed.

Lemma in_use_Permutation t t' : t ≡ₚ t' -> in_use t ≡ₚ in_use t'.
Proof. intros Hp. unfold in_use. by rewrite Hp. Qed.

(** A directory that differs from [dir] in slot [i]. *)
Section update.
Context (dir : Directory) (Hwf : dir_wf dir) (i : nat) (e e' : DirectoryEntry).
Context (Hi : table dir !! i = Some e) (He' : entry_wf e').

Let dir' := mkDirectory (tableSize dir) (<[i := e']> (table dir)).

Lemma dir_use :
  inUse e = false -> inUse e' = true -> dir_map dir !! key (name e') = None ->
  dir_wf dir' /\ dir_map dir' = <[key (name e') := sector e']> (dir_map dir) /\
  in_use (table dir') ≡ₚ e' :: in_use (table dir).
Proof.
  intros Hu Hu' Hnone.
  assert (in_use (table dir) ≡ₚ in_use (delete i (table dir))) as Hp.
  { rewrite (in_use_Permutation _ _ (delete_Permutation _ _ _ Hi)). unfold in_use.
    by rewrite filter_cons_False by congruence. }
  assert (in_use (table dir') ≡ₚ e' :: in_use (table dir)) as Hp'.
  { rewrite Hp. unfold dir', in_use. cbn [table].
    rewrite (insert_Permutation_delete _ _ _ e' Hi). by rewrite filter_cons_True. }
  assert (NoDup ((entry_pair <$> in_use (table dir')).*1)) as Hnd.
  { rewrite Hp'. rewrite !fmap_cons. constructor; [|apply Hwf].
    cbn [fst entry_pair]. by apply not_elem_of_list_to_map_2 in Hnone. }
  split; [|split; [|done]].
  - split; cbn [table tableSize dir']; [rewrite length_insert; apply Hwf| |exact Hnd].
    apply Forall_insert; [apply Hwf|done].
  - unfold dir_map. rewrite (list_to_map_proper _ (entry_pair <$> e' :: in_use (table dir))); [|done|by rewrite Hp'].
    rewrite fmap_cons. done.
Qed.

Lemma dir_unuse :
  inUse e = true -> inUse e' = false ->
  dir_wf dir' /\ dir_map dir' = delete (key (name e)) (dir_map dir) /\
  in_use (table dir) ≡ₚ e :: in_use (table dir').
Proof.
  intros Hu Hu'.
  assert (in_use (table dir) ≡ₚ e :: in_use (table dir')) as Hp'.
  { rewrite (in_use_Permutation _ _ (delete_Permutation _ _ _ Hi)).
    unfold dir'. cbn [table]. rewrite (in_use_Permutation _ _ (insert_Permutation_delete _ _ _ e' Hi)).
    unfold in_use. rewrite filter_cons_True by done. by rewrite filter_cons_False by congruence. }
  assert (NoDup ((entry_pair <$> e :: in_use (table dir')).*1)) as Hnd by by (rewrite <- Hp'; apply Hwf).
  rewrite !fmap_cons in Hnd. apply NoDup_cons in Hnd as [Hni Hnd]. split; [|split; [|done]].
  - split; cbn [table tableSize dir']; [rewrite length_insert; apply Hwf| |exact Hnd].
    apply Forall_insert; [apply Hwf|done].
  - unfold dir_map. rewrite (list_to_map_proper (entry_pair <$> in_use (table dir)) (entry_pair <$> e :: in_use (table dir')));
      [|apply Hwf|by rewrite Hp'].
    rewrite fmap_cons. change (list_to_map (entry_pair e :: ?l)) with (<[key (name e) := sector e]> (list_to_map l : gmap (list Z) Z)).
    rewrite delete_insert_id; [done|].
    by apply not_elem_of_list_to_map_1.
Qed.
End update.

Lemma in_use_full t : (forall j e, t !! j = Some e -> inUse e = true) -> in_use t = t.
Proof. intros Hall. apply filter_all. intros e (j & Hj)%list_elem_of_lookup. by eapply Hall. Qed.

Lemma in_use_lt t i e : t !! i = Some e -> inUse e = false -> (length (in_use t) < length t)%nat.
Proof.
  intros Hi Hu. unfold in_use. apply (length_filter_lt _ t e); [by eapply list_elem_of_lookup_2|congruence].
Qed.

Lemma Add_ok dir nm s :
  dir_wf dir -> is_int s -> Forall is_byte nm ->
  match dir_map dir !! key nm with
  | Some _ => Add dir nm s = Ok (dir, false)
  | None =>
      if Z.of_nat (length (in_use (table dir))) =? tableSize dir then Add dir nm s = Ok (dir, false)
      else exists dir' e', Add dir nm s = Ok (dir', true) /\ dir_wf dir' /\ tableSize dir' = tableSize dir /\
        dir_map dir' = <[key nm := s]> (dir_map dir) /\
        in_use (table dir') ≡ₚ e' :: in_use (table dir) /\ sector e' = s /\ key (name e') = key nm
  end.
Proof.
  intros Hwf Hs Hnm. pose proof (dw_size _ Hwf) as Hsz. unfold Add.
  destruct (FindIndex_ok dir Hwf nm) as [[-> Hno]|(i & e & -> & He & Hu & Hk)]; cbn [mbind outcome_bind]; cycle 1.
  { rewrite <- Hk, dir_map_lookup, of_nat_not_minus1; [done|done|].
    apply list_elem_of_filter. split; [done|by eapply list_elem_of_lookup_2]. }
  pose proof (dir_map_None dir nm Hno) as Hnone. rewrite Hnone. cbn [negb Z.eqb].
  set (entry e := mkEntry true (pad0 e) s (splice (name e) 0 (strncpy nm (Z.to_nat FileNameMaxLen))) (pad1 e)).
  edestruct (for_until_ind (fun k (_ : unit) => forall j e, Z.of_nat j < k -> table dir !! j = Some e -> inUse e = true)
    (fun dir' => exists i e, table dir !! i = Some e /\ inUse e = false /\
       dir' = mkDirectory (tableSize dir) (<[i := entry e]> (table dir)))) as (r & HL & Hr);
    [| | |rewrite HL; clear HL]; [lia|intros; lia| |].
  { intros i u Hi Hprev. destruct (dir_slot dir Hwf i Hi) as (e & He & ->). cbn [mbind outcome_bind].
    destruct (inUse e) eqn:Hu; cbn [negb].
    - eexists. split; [done|]. cbn beta iota. intros j e' Hj He'. destruct (decide (Z.of_nat j < i)); [by eapply Hprev|].
      replace j with (Z.to_nat i) in He' by lia. by simplify_eq.
    - rewrite arr_set_lt by lia. cbn [mbind outcome_bind]. eexists. split; [done|]. by exists (Z.to_nat i), e. }
  cbn [mbind outcome_bind]. destruct r as [u|dir'].
  - rewrite in_use_full, Hsz, Z.eqb_refl; [done|]. intros j e He. eapply Hr; [|done].
    apply lookup_lt_Some in He. lia.
  - destruct Hr as (i & e & He & Hu & ->). pose proof (in_use_lt _ _ _ He Hu).
    destruct (Z.eqb_spec (Z.of_nat (length (in_use (table dir)))) (tableSize dir)); [lia|].
    pose proof (Forall_lookup_1 _ _ _ _ (dw_entries _ Hwf) He) as Hew.
    destruct Hew as [Hp0 _ [Hnl Hnb] Hp1].
    assert (key (name (entry e)) = key nm) as Hkey by by apply key_strncpy.
    assert (entry_wf (entry e)) as Hew'.
    { split; cbn [entry pad0 sector name pad1]; [done|done| |done]. split.
      - rewrite length_splice; [done|]. rewrite length_strncpy, Hnl. unfold FileNameMaxLen. lia.
      - by apply splice_bytes; [|apply strncpy_bytes]. }
    destruct (dir_use dir Hwf i e (entry e) He Hew' Hu eq_refl) as (Hwf' & Hmap & Hp); [by rewrite Hkey|].
    rewrite Hkey in Hmap. eexists _, (entry e). by split_and!.
Qed.

Lemma DRemove_ok dir nm :
  dir_wf dir ->
  match dir_map dir !! key nm with
  | None => Remove dir nm = Ok (dir, false)
  | Some s => exists dir' e, Remove dir nm = Ok (dir', true) /\ dir_wf dir' /\ tableSize dir' = tableSize dir /\
      dir_map dir' = delete (key nm) (dir_map dir) /\
      in_use (table dir) ≡ₚ e :: in_use (table dir') /\ sector e = s /\ key (name e) = key nm
  end.
Proof.
  intros Hwf. pose proof (dw_size _ Hwf) as Hsz. unfold Remove.
  destruct (FindIndex_ok dir Hwf nm) as [[-> Hno]|(i & e & -> & He & Hu & Hk)]; cbn [mbind outcome_bind].
  { by rewrite dir_map_None. }
  rewrite <- Hk, dir_map_lookup, of_nat_not_minus1; [|done|]; cycle 1.
  { apply list_elem_of_filter. split; [done|by eapply list_elem_of_lookup_2]. }
  rewrite (arr_get_Some _ _ e) by (rewrite ?Nat2Z.id; (done || lia)). cbn [mbind outcome_bind].
  rewrite arr_set_lt, Nat2Z.id by (apply lookup_lt_Some in He; lia). cbn [mbind outcome_bind].
  pose proof (Forall_lookup_1 _ _ _ _ (dw_entries _ Hwf) He) as Hew.
  assert (entry_wf (set_inUse false e)) as Hew' by (destruct Hew; by split).
  destruct (dir_unuse dir Hwf i e (set_inUse false e) He Hew' Hu eq_refl) as (Hwf' & Hmap & Hp).
  eexists _, e. by split_and!.
Qed.

Lemma newDirectory_ok uninit `{!Uninit uninit} n :
  0 <= n -> exists dir, newDirectory uninit n = Ok dir /\ dir_wf dir /\ tableSize dir = n /\ in_use (table dir) = [].
Proof.
  intros Hn. unfold newDirectory. set (t0 := table_of _ _).
  assert (length t0 = Z.to_nat n) as Hl0 by apply length_table_of.
  assert (Forall entry_wf t0) as Hw0.
  { apply table_of_wf; [|apply uninit_byte]. rewrite uninit_length. unfold sizeof_DirectoryEntry. lia. }
  destruct (for_range_ind (fun k t => length t = Z.to_nat n /\ Forall entry_wf t /\
      forall j e, Z.of_nat j < k -> t !! j = Some e -> inUse e = false)
    (fun i t => e ← arr_get t i; arr_set t i (set_inUse false e)) 0 n t0) as (t & -> & Hl & Hw & Hu);
    [lia|split_and!; [done|done|intros; lia]| |].
  { intros i t Hi (Hl & Hw & Hu). destruct (arr_get_lt t i) as (e & He & ->); [lia|]. cbn [mbind outcome_bind].
    rewrite arr_set_lt by lia. eexists. split; [done|]. split_and!.
    - by rewrite length_insert.
    - apply Forall_insert; [done|]. destruct (Forall_lookup_1 _ _ _ _ Hw He). by split.
    - intros j e' Hj He'. destruct (decide (j = Z.to_nat i)) as [->|Hne].
      + rewrite list_lookup_insert_eq in He' by lia. by simplify_eq.
      + rewrite list_lookup_insert_ne in He' by done. eapply Hu; [|done]. lia. }
  cbn [mbind outcome_bind]. eexists. split; [done|].
  assert (in_use t = []) as Hnil.
  { destruct (in_use t) as [|e l] eqn:E; [done|]. assert (e ∈ in_use t) as He by (rewrite E; left).
    apply list_elem_of_filter in He as [Hue (j & Hj)%list_elem_of_lookup].
    rewrite (Hu j e) in Hue; [done| |done]. apply lookup_lt_Some in Hj. lia. }
  split_and!; [|done|done]. split; cbn [table tableSize]; [lia|done|]. rewrite Hnil. constructor.
Qed.

Section io_lemmas.
Context {D : Type} `{BlockStore D} `{!BlockStoreLaws D} (uninit : nat -> list Z) `{!Uninit uninit}.

Lemma DFetchFrom_ok (d : D) f dir0 dir :
  bs_ok d -> header_wf (hdr f) -> dir_wf dir0 -> dir_wf dir -> tableSize dir0 = tableSize dir ->
  numBytes (hdr f) = tableSize dir * sizeof_DirectoryEntry ->
  file_data d (hdr f) = table_bytes (table dir) -> FetchFrom uninit d f dir0 = Ok dir.
Proof.
  intros Hd Hw Hdir0 Hdir Hts Hn Hdata. unfold FetchFrom. rewrite Hts, <- Hn, ReadAt_all by done.
  cbn [mbind outcome_bind]. rewrite Hdata.
  pose proof (dw_size _ Hdir0) as Hs0. pose proof (dw_size _ Hdir) as Hs.
  pose proof (length_table_bytes _ (dw_entries _ Hdir0)) as Hl0.
  pose proof (length_table_bytes _ (dw_entries _ Hdir)) as Hl.
  rewrite buf_put_ok by lia. cbn [mbind outcome_bind]. unfold splice.
  rewrite take_0, drop_ge, app_nil_r by (simpl; lia). cbn [app].
  replace (length (table dir0)) with (length (table dir)) by lia.
  rewrite table_roundtrip by apply Hdir. by destruct dir.
Qed.

Lemma DWriteBack_ok (d : D) f dir :
  bs_ok d -> header_wf (hdr f) -> dir_wf dir ->
  numBytes (hdr f) = tableSize dir * sizeof_DirectoryEntry ->
  exists d', WriteBack uninit d f dir = Ok d' /\ bs_ok d' /\ file_data d' (hdr f) = table_bytes (table dir) /\
    forall s, in_disk s = true -> s ∉ used_sectors (hdr f) -> bs_sector d' s = bs_sector d s.
Proof.
  intros Hd Hw Hdir Hn. unfold WriteBack. rewrite <- Hn. pose proof (dw_size _ Hdir).
  destruct (WriteAt_all uninit d f (table_bytes (table dir)) Hd Hw) as (d' & -> & Hd' & ? & ?).
  - rewrite length_table_bytes by apply Hdir. unfold sizeof_DirectoryEntry in Hn. lia.
  - apply table_bytes_byte, Hdir.
  - by exists d'.
Qed.
End io_lemmas.

(** ** Properties of the component *)

(** A directory implements a finite map from the first nine characters of a
    name to a sector.  [Find] looks the name up; [Add] refuses a name that is
    present and a full table, and otherwise inserts the pair; [Remove] deletes
    it and reports whether it was there; each keeps the table well formed. *)
Theorem directory_refines_map dir nm s :
  dir_wf dir -> is_int s -> Forall is_byte nm ->
  Find dir nm = Ok (default (-1) (dir_map dir !! key nm)) /\
  (if bool_decide (is_Some (dir_map dir !! key nm)) || (Z.of_nat (size (dir_map dir)) =? tableSize dir)
   then Add dir nm s = Ok (dir, false)
   else exists dir', Add dir nm s = Ok (dir', true) /\ dir_wf dir' /\ tableSize dir' = tableSize dir /\
     dir_map dir' = <[key nm := s]> (dir_map dir)) /\
  (exists dir', Remove dir nm = Ok (dir', bool_decide (is_Some (dir_map dir !! key nm))) /\ dir_wf dir' /\
     tableSize dir' = tableSize dir /\ dir_map dir' = delete (key nm) (dir_map dir)).
Proof.
  intros Hwf Hs Hnm. split; [by apply Find_ok|].
  assert (size (dir_map dir) = length (in_use (table dir))) as ->.
  { unfold dir_map. rewrite map_size_list_to_map by apply Hwf. by rewrite length_fmap. }
  pose proof (Add_ok dir nm s Hwf Hs Hnm) as HA. pose proof (DRemove_ok dir nm Hwf) as HR.
  destruct (dir_map dir !! key nm) as [x|] eqn:E.
  - rewrite bool_decide_eq_true_2 by eauto. cbn [orb]. split; [done|].
    destruct HR as (dir' & e & -> & ? & ? & ? & _). by exists dir'.
  - rewrite bool_decide_eq_false_2 by (intros [? ?]; discriminate). cbn [orb]. split.
    + destruct (_ =? _); [done|]. destruct HA as (dir' & e & -> & ? & ? & ? & _). by exists dir'.
    + exists dir. by rewrite delete_id.
Qed.

(** A directory written back to its file is read back unchanged into any
    table of the same size, and no sector outside the file changes. *)
Theorem directory_disk_roundtrip {D} `{BlockStore D} `{!BlockStoreLaws D} uninit `{!Uninit uninit}
    (d : D) f dir dir0 :
  bs_ok d -> header_wf (hdr f) -> dir_wf dir -> dir_wf dir0 -> tableSize dir0 = tableSize dir ->
  numBytes (hdr f) = tableSize dir * sizeof_DirectoryEntry ->
  exists d', WriteBack uninit d f dir = Ok d' /\ bs_ok d' /\ FetchFrom uninit d' f dir0 = Ok dir /\
    forall s, in_disk s = true -> s ∉ used_sectors (hdr f) -> bs_sector d' s = bs_sector d s.
Proof.
  intros Hd Hw Hdir Hdir0 Hts Hn. destruct (DWriteBack_ok uninit d f dir Hd Hw Hdir Hn) as (d' & -> & Hd' & Hdata & Hoth).
  exists d'. split_and!; [done|done|by apply DFetchFrom_ok|done].
Qed.

(** A directory with one file, "f1", in sector 7. *)
Definition sample_entry (u : bool) (nm : list Z) (s : Z) : DirectoryEntry :=
  mkEntry u [0; 0; 0] s (nm ++ replicate (10 - length nm) 0) [0; 0].
Definition sample_dir : Directory :=
  mkDirectory 3 [sample_entry false [] 0; sample_entry true [102; 49] 7; sample_entry false [] 0].

Lemma sample_dir_wf : dir_wf sample_dir.
Proof.
  split; [done| |].
  - repeat constructor; cbn; unfold is_byte, is_int; lia.
  - unfold sample_dir, in_use. cbn. apply NoDup_singleton.
Qed.

Lemma directory_refines_map_witness :
  Find sample_dir [102; 49] = Ok 7 /\
  exists dir', Add sample_dir [97] 20 = Ok (dir', true) /\ dir_map dir' !! [97] = Some 20.
Proof.
  assert (is_int 20) as Hs by (unfold is_int; lia).
  assert (Forall is_byte [102; 49] /\ Forall is_byte [97]) as [H1 H2]
    by (split; repeat constructor; unfold is_byte; lia).
  destruct (directory_refines_map sample_dir [102; 49] 20 sample_dir_wf Hs H1) as [HF _].
  destruct (directory_refines_map sample_dir [97] 20 sample_dir_wf Hs H2) as [_ [HA _]].
  split; [rewrite HF; vm_compute; reflexivity|].
  assert ((bool_decide (is_Some (dir_map sample_dir !! key [97])) || (Z.of_nat (size (dir_map sample_dir)) =? tableSize sample_dir)) = false)
    as E by (vm_compute; reflexivity).
  rewrite E in HA. destruct HA as (dir' & HA & _ & _ & Hm). exists dir'. split; [exact HA|].
  rewrite Hm. vm_compute. reflexivity.
Defined.

Lemma directory_disk_roundtrip_witness :
  let f := mkOpenFile (mkHeader 60 1 (6 :: replicate 29 0)) 0 in
  exists d', WriteBack garbage blank_image f sample_dir = Ok d' /\ FetchFrom garbage d' f sample_dir = Ok sample_dir.
Proof.
  intros f. assert (header_wf (hdr f)) as Hw.
  { split; simpl; [unfold MaxFileSize; change NumDirect with 30; change SectorSize with 128; lia|done|done| | |].
    - repeat constructor; unfold is_int; simpl; lia.
    - repeat constructor.
    - unfold used_sectors. simpl. repeat (constructor; [set_solver|]). constructor. }
  destruct (directory_disk_roundtrip (H := image_store) garbage blank_image f sample_dir sample_dir
    blank_image_ok Hw sample_dir_wf sample_dir_wf eq_refl eq_refl) as (d' & HW & _ & HF & _).
  exists d'. split; [exact HW|exact HF].
Defined.

Lemma List_single e :
  inUse e = true -> List (mkDirectory 1 [e]) = line ← print_string (name e); Ok [line].
Proof.
  intros Hu. unfold List, for_range.
  change (Z.to_nat (tableSize (mkDirectory 1 [e]) - 0)) with 1%nat. cbn [for_from table].
  change (arr_get [e] 0) with (Ok e). cbn [mbind outcome_bind]. rewrite Hu.
  by destruct (print_string (name e)).
Qed.

Lemma Add_single e nm s :
  inUse e = false ->
  Add (mkDirectory 1 [e]) nm s = Ok (mkDirectory 1 [mkEntry true (pad0 e) s
    (splice (name e) 0 (strncpy nm (Z.to_nat FileNameMaxLen))) (pad1 e)], true).
Proof.
  intros Hu. unfold Add, FindIndex, for_until.
  change (Z.to_nat (tableSize (mkDirectory 1 [e]) - 0)) with 1%nat. cbn [until_from table].
  change (arr_get [e] 0) with (Ok e). cbn [mbind outcome_bind]. by rewrite Hu.
Qed.

(** Listing needs a terminator that [Add] does not write.  A name shorter
    than nine characters is listed as it was added; for a name of nine or more
    characters what [List] reads next is the byte of the entry that was never
    initialised: unless it happens to be NUL, [List] runs past the array. *)
Theorem directory_list_terminator e nm s :
  entry_wf e -> inUse e = false -> Forall (fun c => c <> 0) nm ->
  exists dir', Add (mkDirectory 1 [e]) nm s = Ok (dir', true) /\
    List dir' =
      if decide (Z.of_nat (length nm) < FileNameMaxLen \/ name e !! 9%nat = Some 0)
      then Ok [key nm] else Err Undefined.
Proof.
  destruct e as [u p0 s0 old p1]. intros [_ _ [Hnl _] _] Hfree Hnz. cbn [name inUse] in *. subst u.
  rewrite Add_single by done. eexists. split; [reflexivity|]. cbn [pad0 name pad1].
  rewrite List_single by done. set (e' := mkEntry _ _ _ _ _).
  destruct old as [|? [|? [|? [|? [|? [|? [|? [|? [|? [|x [|? ?]]]]]]]]]]]; try discriminate Hnl.
  assert (name e' = strncpy nm 9 ++ [x]) as -> by (unfold e'; cbn [name]; unfold splice; rewrite length_strncpy; done).
  assert (forall n, print_string (strncpy nm n ++ [x]) =
    if decide ((length nm < n)%nat \/ x = 0) then Ok (cstr nm n) else Err Undefined) as Hp.
  { intros n. clear -Hnz. revert nm Hnz. induction n as [|n IH]; intros nm Hnz.
    - cbn. destruct (Z.eqb_spec x 0); case_decide; [done|lia|lia|done].
    - destruct Hnz as [|c nm Hc Hnz]; [done|]. cbn [strncpy hd tl].
      destruct (Z.eqb_spec c 0); [done|]. cbn [app print_string cstr hd tl]. destruct (Z.eqb_spec c 0); [done|].
      rewrite IH by done. cbn [length]. repeat case_decide; (done || lia). }
  rewrite Hp. unfold key. unfold FileNameMaxLen. cbn [lookup list_lookup].
  repeat case_decide; try done; exfalso; naive_solver lia.
Qed.

Lemma directory_list_terminator_witness :
  exists dir', Add (mkDirectory 1 [mkEntry false [0; 0; 0] 0 (replicate 10 0xa5) [0; 0]]) (replicate 9 97) 5 = Ok (dir', true) /\
    List dir' = Err Undefined.
Proof.
  assert (entry_wf (mkEntry false [0; 0; 0] 0 (replicate 10 0xa5) [0; 0])) as Hw
    by (repeat constructor; cbn; unfold is_byte, is_int; lia).
  exact (directory_list_terminator _ (replicate 9 97) 5 Hw eq_refl ltac:(repeat constructor; lia)).
Defined.
