(* ===== verification/FileSys.v ===== *)
(** * The file system (src/code/filesys/filesys.h, filesys.cc; Copy and Print of
    src/code/threads/main.cc)

    The disk holds, in two well-known sectors, the headers of the free-map file
    and of the directory file; every other file has a header sector named by
    the directory and data sectors named by its header.  Every operation reads
    the directory and the free map from the disk, works on the copies, and
    writes them back only if it succeeds.

    [fs_inv] is the invariant of the whole disk; [fs_files] is the abstract
    state, a finite map from names to contents. *)

From S2P Require Import Prelude Bitmap Lists Interrupt Disk FileHdr OpenFile PBitmap Directory.

Definition FreeMapSector : Z := 0.
Definition DirectorySector : Z := 1.
Definition FreeMapFileSize : Z := Z.quot NumSectors BitsInByte.
Definition NumDirEntries : Z := 10.
Definition DirectoryFileSize : Z := sizeof_DirectoryEntry * NumDirEntries.

Record FileSystem := mkFileSystem {
  freeMapFile : OpenFile;
  directoryFile : OpenFile;
}.

Section filesys.
Context {D : Type} `{BlockStore D} (uninit : nat -> list Z).

(** [new FileHeader]: its fields are not initialised. *)
Definition newFileHeader : FileHeader := header_of (uninit (Z.to_nat SectorSize)).

(** [FileSystem::FileSystem] *)
Definition newFileSystem (d : D) (format : bool) : outcome (D * FileSystem) :=
  if format then
    freeMap ← newPersistentBitmap NumSectors;
    directory ← newDirectory uninit NumDirEntries;
    freeMap ← Mark freeMap FreeMapSector;
    freeMap ← Mark freeMap DirectorySector;
    '(mapHdr, freeMap, ok) ← Allocate newFileHeader freeMap FreeMapFileSize;
    _ ← ASSERT ok;
    '(dirHdr, freeMap, ok) ← Allocate newFileHeader freeMap DirectoryFileSize;
    _ ← ASSERT ok;
    d ← FileHdr.WriteBack d FreeMapSector mapHdr;
    d ← FileHdr.WriteBack d DirectorySector dirHdr;
    freeMapFile ← newOpenFile d FreeMapSector;
    directoryFile ← newOpenFile d DirectorySector;
    d ← PBitmap.WriteBack uninit d freeMapFile freeMap;
    d ← Directory.WriteBack uninit d directoryFile directory;
    Ok (d, mkFileSystem freeMapFile directoryFile)
  else
    freeMapFile ← newOpenFile d FreeMapSector;
    directoryFile ← newOpenFile d DirectorySector;
    Ok (d, mkFileSystem freeMapFile directoryFile).

(** The directory as every operation first reads it. *)
Definition fetch_directory (d : D) (fs : FileSystem) : outcome Directory :=
  directory ← newDirectory uninit NumDirEntries;
  Directory.FetchFrom uninit d (directoryFile fs) directory.

(** [FileSystem::Create] *)
Definition Create (d : D) (fs : FileSystem) (nm : list Z) (initialSize : Z) : outcome (D * bool) :=
  directory ← fetch_directory d fs;
  found ← Find directory nm;
  if negb (found =? -1) then Ok (d, false)
  else
    freeMap ← openPersistentBitmap uninit d (freeMapFile fs) NumSectors;
    '(freeMap, sector) ← FindAndSet freeMap;
    if sector =? -1 then Ok (d, false)
    else
      '(directory, added) ← Add directory nm sector;
      if negb added then Ok (d, false)
      else
        '(hdr, freeMap, allocated) ← Allocate newFileHeader freeMap initialSize;
        if negb allocated then Ok (d, false)
        else
          d ← FileHdr.WriteBack d sector hdr;
          d ← Directory.WriteBack uninit d (directoryFile fs) directory;
          d ← PBitmap.WriteBack uninit d (freeMapFile fs) freeMap;
          Ok (d, true).

(** [FileSystem::Open] *)
Definition Open (d : D) (fs : FileSystem) (nm : list Z) : outcome (option OpenFile) :=
  directory ← fetch_directory d fs;
  sector ← Find directory nm;
  if 0 <=? sector then openFile ← newOpenFile d sector; Ok (Some openFile) else Ok None.

(** [FileSystem::Remove] *)
Definition Remove (d : D) (fs : FileSystem) (nm : list Z) : outcome (D * bool) :=
  directory ← fetch_directory d fs;
  sector ← Find directory nm;
  if sector =? -1 then Ok (d, false)
  else
    fileHdr ← FileHdr.FetchFrom d sector;
    freeMap ← openPersistentBitmap uninit d (freeMapFile fs) NumSectors;
    freeMap ← Deallocate fileHdr freeMap;
    freeMap ← Clear freeMap sector;
    '(directory, _) ← Directory.Remove directory nm;
    d ← PBitmap.WriteBack uninit d (freeMapFile fs) freeMap;
    d ← Directory.WriteBack uninit d (directoryFile fs) directory;
    Ok (d, true).

(** [FileSystem::List] *)
Definition List (d : D) (fs : FileSystem) : outcome (list (list Z)) :=
  directory ← fetch_directory d fs; Directory.List directory.

Definition TransferSize : Z := 128.

(** The loop of [Copy]: the UNIX file's remaining bytes go to the open Nachos
    file in chunks of [TransferSize]. *)
Fixpoint copy_loop (fuel : nat) (d : D) (openFile : OpenFile) (unix : list Z) : outcome D :=
  match fuel with
  | O => Err OutOfFuel
  | S fuel' =>
      let buffer := take (Z.to_nat TransferSize) unix in
      let amountRead := Z.of_nat (length buffer) in
      if 0 <? amountRead then
        '(d, openFile, _) ← Write uninit d openFile buffer amountRead;
        copy_loop fuel' d openFile (drop (Z.to_nat TransferSize) unix)
      else Ok d
  end.

(** [Copy] of main.cc; [unix] is the content of the UNIX file [from], or [None]
    if it cannot be opened. *)
Definition Copy (d : D) (fs : FileSystem) (unix : option (list Z)) (to : list Z) : outcome D :=
  match unix with
  | None => Ok d
  | Some unix =>
      '(d, created) ← Create d fs to (Z.of_nat (length unix));
      if negb created then Ok d
      else
        openFile ← Open d fs to;
        match openFile with
        | None => Err AssertFailed
        | Some openFile => copy_loop (S (length unix)) d openFile unix
        end
  end.

(** [Print] of main.cc: the bytes printed. *)
Fixpoint print_loop (fuel : nat) (d : D) (openFile : OpenFile) : outcome (list Z) :=
  match fuel with
  | O => Err OutOfFuel
  | S fuel' =>
      '(openFile, buffer) ← Read uninit d openFile TransferSize;
      if 0 <? Z.of_nat (length buffer) then
        rest ← print_loop fuel' d openFile; Ok (buffer ++ rest)
      else Ok []
  end.

Definition Print (d : D) (fs : FileSystem) (nm : list Z) : outcome (option (list Z)) :=
  openFile ← Open d fs nm;
  match openFile with
  | None => Ok None
  | Some openFile =>
      out ← print_loop (S (Z.to_nat (Length openFile))) d openFile; Ok (Some out)
  end.

(** ** The invariant of the disk *)
Definition hdr_at (d : D) (s : Z) : FileHeader := header_of (bs_sector d s).
Definition file_blocks (d : D) (e : DirectoryEntry) : list Z := sector e :: used_sectors (hdr_at d (sector e)).
Definition sys_blocks (fs : FileSystem) : list Z :=
  [FreeMapSector; DirectorySector] ++ used_sectors (hdr (freeMapFile fs)) ++ used_sectors (hdr (directoryFile fs)).
Definition blocks (d : D) (fs : FileSystem) (dir : Directory) : list Z :=
  sys_blocks fs ++ mjoin (file_blocks d <$> in_use (table dir)).

Record fs_inv (d : D) (fs : FileSystem) (dir : Directory) (fm : Bitmap) : Prop := {
  fi_disk : bs_ok d;
  fi_mapfile : header_wf (hdr (freeMapFile fs)) /\ numBytes (hdr (freeMapFile fs)) = FreeMapFileSize /\
    hdr_at d FreeMapSector = hdr (freeMapFile fs);
  fi_dirfile : header_wf (hdr (directoryFile fs)) /\ numBytes (hdr (directoryFile fs)) = DirectoryFileSize /\
    hdr_at d DirectorySector = hdr (directoryFile fs);
  fi_map : bitmap_wf fm /\ numBits fm = NumSectors /\ file_data d (hdr (freeMapFile fs)) = map_bytes (map fm);
  fi_dir : dir_wf dir /\ tableSize dir = NumDirEntries /\
    file_data d (hdr (directoryFile fs)) = table_bytes (table dir);
  fi_files : Forall (fun e => header_wf (hdr_at d (sector e))) (in_use (table dir));
  fi_nodup : NoDup (blocks d fs dir);
  fi_used : set_bits fm = list_to_set (blocks d fs dir);
}.

(** The abstract state: names and contents. *)
Definition fs_files (d : D) (dir : Directory) : gmap (list Z) (list Z) :=
  (fun s => file_data d (hdr_at d s)) <$> dir_map dir.

Definition fs_rep (d : D) (fs : FileSystem) (files : gmap (list Z) (list Z)) : Prop :=
  exists dir fm, fs_inv d fs dir fm /\ fs_files d dir = files.
End filesys.

(** ** Lemmas *)
Section filesys_lemmas.
Context {D : Type} `{BlockStore D} `{!BlockStoreLaws D} (uninit : nat -> list Z) `{!Uninit uninit}.
Implicit Types (d : D) (fs : FileSystem) (dir : Directory) (fm : Bitmap).

Lemma file_data_frame d d' h :
  (forall s, s ∈ used_sectors h -> bs_sector d' s = bs_sector d s) -> file_data d' h = file_data d h.
Proof.
  intros Hs. unfold file_data. do 2 f_equal. apply list_fmap_ext. intros i s Hi.
  apply Hs. by eapply list_elem_of_lookup_2.
Qed.

Lemma newFileHeader_ok :
  length (dataSectors (newFileHeader uninit)) = Z.to_nat NumDirect /\
  Forall is_int (dataSectors (newFileHeader uninit)).
Proof. split; [apply length_ints_of|apply ints_of_ints]. Qed.

Lemma newOpenFile_ok d s :
  bs_ok d -> in_disk s = true -> newOpenFile d s = Ok (mkOpenFile (hdr_at d s) 0).
Proof. intros Hd Hs. unfold newOpenFile, FileHdr.FetchFrom. by rewrite bs_read_ok. Qed.

Lemma dir_map_entry dir k s :
  dir_map dir !! k = Some s -> exists e, e ∈ in_use (table dir) /\ key (name e) = k /\ sector e = s.
Proof.
  intros Hk%elem_of_list_to_map_2. apply list_elem_of_fmap in Hk as (e & [= -> ->] & He). eauto.
Qed.

Lemma map_bytes_size fm : bitmap_wf fm -> numBits fm = NumSectors -> FreeMapFileSize = numWords fm * 4.
Proof. intros Hwf Hn. by rewrite (wf_words _ Hwf), Hn. Qed.

Lemma blocks_perm d fs dir dir' e :
  in_use (table dir') ≡ₚ e :: in_use (table dir) -> blocks d fs dir' ≡ₚ file_blocks d e ++ blocks d fs dir.
Proof.
  intros Hp. unfold blocks. rewrite Hp, fmap_cons. cbn [mjoin list_join].
  rewrite !app_assoc. by rewrite (Permutation_app_comm (sys_blocks fs)).
Qed.

(** ** Consequences of the invariant *)
Section inv.
Context d fs dir fm (Hinv : fs_inv d fs dir fm).

Lemma blocks_in_disk s : s ∈ blocks d fs dir -> in_disk s = true.
Proof.
  intros Hs. apply in_disk_iff. destruct (fi_map _ _ _ _ Hinv) as (_ & Hn & _).
  assert (s ∈ set_bits fm) as Hb by (rewrite (fi_used _ _ _ _ Hinv); by apply elem_of_list_to_set).
  apply elem_of_set_bits in Hb as [Hb _]. rewrite Hn in Hb. change NumSectors with 1024 in Hb. lia.
Qed.

Lemma file_blocks_in e s : e ∈ in_use (table dir) -> s ∈ file_blocks d e -> s ∈ blocks d fs dir.
Proof.
  intros He Hs. unfold blocks. apply elem_of_app. right. apply list_elem_of_join.
  exists (file_blocks d e). split; [done|]. by apply list_elem_of_fmap_2.
Qed.

Lemma file_blocks_sys e s : e ∈ in_use (table dir) -> s ∈ file_blocks d e -> s ∉ sys_blocks fs.
Proof.
  intros He Hs Hsys. pose proof (fi_nodup _ _ _ _ Hinv) as Hnd. unfold blocks in Hnd.
  apply NoDup_app in Hnd as (_ & Hdisj & _). apply (Hdisj s Hsys). apply list_elem_of_join.
  exists (file_blocks d e). split; [done|]. by apply list_elem_of_fmap_2.
Qed.

Lemma sys_disjoint :
  used_sectors (hdr (freeMapFile fs)) ## used_sectors (hdr (directoryFile fs)) /\
  (forall s, s ∈ [FreeMapSector; DirectorySector] ->
     s ∉ used_sectors (hdr (freeMapFile fs)) /\ s ∉ used_sectors (hdr (directoryFile fs))).
Proof.
  pose proof (fi_nodup _ _ _ _ Hinv) as Hnd. unfold blocks, sys_blocks in Hnd.
  apply NoDup_app in Hnd as (Hnd & _ & _). apply NoDup_app in Hnd as (_ & Hd1 & Hnd).
  apply NoDup_app in Hnd as (_ & Hd2 & _). split.
  - intros s H1 H2. by apply (Hd2 s).
  - intros s Hs. pose proof (Hd1 s Hs) as Hn. rewrite not_elem_of_app in Hn. done.
Qed.

Lemma fetch_directory_ok : fetch_directory uninit d fs = Ok dir.
Proof.
  unfold fetch_directory. destruct (newDirectory_ok uninit NumDirEntries) as (dir0 & -> & Hw0 & Hts0 & _); [done|].
  cbn [mbind outcome_bind]. destruct (fi_dirfile _ _ _ _ Hinv) as (Hw & Hnb & _).
  destruct (fi_dir _ _ _ _ Hinv) as (Hdw & Hts & Hdata).
  apply (DFetchFrom_ok uninit _ _ dir0); [apply Hinv|done|done|done|congruence|by rewrite Hnb, Hts|done].
Qed.

Lemma fetch_map_ok : openPersistentBitmap uninit d (freeMapFile fs) NumSectors = Ok fm.
Proof.
  destruct (fi_mapfile _ _ _ _ Hinv) as (Hw & Hnb & _). destruct (fi_map _ _ _ _ Hinv) as (Hfw & Hn & Hdata).
  rewrite <- Hn. apply (open_ok uninit); [apply Hinv|done|done| |done]. rewrite Hnb. by apply map_bytes_size.
Qed.

(** A new disk that keeps every sector in use outside the two system files
    keeps the headers and contents of all files. *)
Context d' (Hframe : forall s, in_disk s = true -> s ∈ blocks d fs dir ->
  s ∉ used_sectors (hdr (freeMapFile fs)) -> s ∉ used_sectors (hdr (directoryFile fs)) ->
  bs_sector d' s = bs_sector d s).

Lemma frame_sector e s : e ∈ in_use (table dir) -> s ∈ file_blocks d e -> bs_sector d' s = bs_sector d s.
Proof.
  intros He Hs. pose proof (file_blocks_sys e s He Hs) as Hns. unfold sys_blocks in Hns.
  rewrite !not_elem_of_app in Hns. pose proof (file_blocks_in e s He Hs) as Hb.
  apply Hframe; [by apply blocks_in_disk|done|tauto|tauto].
Qed.

Lemma frame_hdr e : e ∈ in_use (table dir) -> hdr_at d' (sector e) = hdr_at d (sector e).
Proof. intros He. unfold hdr_at. f_equal. apply (frame_sector e); [done|left]. Qed.

Lemma frame_data e :
  e ∈ in_use (table dir) -> file_data d' (hdr_at d' (sector e)) = file_data d (hdr_at d (sector e)).
Proof.
  intros He. rewrite frame_hdr by done. apply file_data_frame. intros s Hs.
  apply (frame_sector e); [done|by right].
Qed.

Lemma frame_files : fs_files d' dir = fs_files d dir.
Proof.
  unfold fs_files. apply map_fmap_ext. intros k s Hk.
  apply dir_map_entry in Hk as (e & He & _ & <-). by apply frame_data.
Qed.

Lemma frame_blocks : (file_blocks d' <$> in_use (table dir)) = (file_blocks d <$> in_use (table dir)).
Proof.
  apply list_fmap_ext. intros i e Hi. unfold file_blocks. rewrite frame_hdr; [done|by eapply list_elem_of_lookup_2].
Qed.

Lemma frame_sys s : s ∈ [FreeMapSector; DirectorySector] -> hdr_at d' s = hdr_at d s.
Proof.
  intros Hs. destruct sys_disjoint as [_ Hd]. destruct (Hd s Hs) as [H1 H2].
  assert (s ∈ blocks d fs dir) as Hb.
  { unfold blocks, sys_blocks. rewrite !elem_of_app. by left; left. }
  unfold hdr_at. f_equal. apply Hframe; [by apply blocks_in_disk|done..].
Qed.

Lemma frame_wf : Forall (fun e => header_wf (hdr_at d' (sector e))) (in_use (table dir)).
Proof.
  apply Forall_forall. intros e He. rewrite frame_hdr by done.
  by apply (proj1 (Forall_forall _ _) (fi_files _ _ _ _ Hinv)).
Qed.
End inv.

(** Writing the directory and the free map back, in either order. *)
Definition flushed d d' fs dir fm : Prop :=
  bs_ok d' /\ file_data d' (hdr (freeMapFile fs)) = map_bytes (map fm) /\
  file_data d' (hdr (directoryFile fs)) = table_bytes (table dir) /\
  forall s, in_disk s = true -> s ∉ used_sectors (hdr (freeMapFile fs)) ->
    s ∉ used_sectors (hdr (directoryFile fs)) -> bs_sector d' s = bs_sector d s.

Section flush.
Context d fs dir fm.
Context (Hd : bs_ok d) (Hmh : header_wf (hdr (freeMapFile fs))) (Hmn : numBytes (hdr (freeMapFile fs)) = FreeMapFileSize).
Context (Hdh : header_wf (hdr (directoryFile fs))) (Hdn : numBytes (hdr (directoryFile fs)) = DirectoryFileSize).
Context (Hdisj : used_sectors (hdr (freeMapFile fs)) ## used_sectors (hdr (directoryFile fs))).
Context (Hfm : bitmap_wf fm) (Hbits : numBits fm = NumSectors) (Hdir : dir_wf dir) (Hts : tableSize dir = NumDirEntries).

Let sizes : numBytes (hdr (freeMapFile fs)) = numWords fm * 4 /\
  numBytes (hdr (directoryFile fs)) = tableSize dir * sizeof_DirectoryEntry.
Proof. rewrite Hmn, Hdn, Hts. split; [by apply map_bytes_size|done]. Qed.

Lemma flush_dir_map :
  exists d1 d', Directory.WriteBack uninit d (directoryFile fs) dir = Ok d1 /\
    PBitmap.WriteBack uninit d1 (freeMapFile fs) fm = Ok d' /\ flushed d d' fs dir fm.
Proof.
  destruct sizes as [S1 S2].
  destruct (DWriteBack_ok uninit d (directoryFile fs) dir) as (d1 & H1 & Hd1 & Hdata1 & Hoth1); [done..|].
  destruct (PWriteBack_ok uninit d1 (freeMapFile fs) fm) as (d2 & H2 & Hd2 & Hdata2 & Hoth2); [done..|].
  exists d1, d2. unfold flushed. split_and!; [done|done|done|done| |].
  - rewrite <- Hdata1. apply file_data_frame. intros s Hs. apply Hoth2; [|by intros ?; apply (Hdisj s)].
    by apply (proj1 (Forall_forall _ _) (hw_disk _ Hdh)).
  - intros s Hs Hn1 Hn2. by rewrite Hoth2, Hoth1.
Qed.

Lemma flush_map_dir :
  exists d1 d', PBitmap.WriteBack uninit d (freeMapFile fs) fm = Ok d1 /\
    Directory.WriteBack uninit d1 (directoryFile fs) dir = Ok d' /\ flushed d d' fs dir fm.
Proof.
  destruct sizes as [S1 S2].
  destruct (PWriteBack_ok uninit d (freeMapFile fs) fm) as (d1 & H1 & Hd1 & Hdata1 & Hoth1); [done..|].
  destruct (DWriteBack_ok uninit d1 (directoryFile fs) dir) as (d2 & H2 & Hd2 & Hdata2 & Hoth2); [done..|].
  exists d1, d2. unfold flushed. split_and!; [done|done|done| |done|].
  - rewrite <- Hdata1. apply file_data_frame. intros s Hs. apply Hoth2; [|by intros ?; apply (Hdisj s)].
    by apply (proj1 (Forall_forall _ _) (hw_disk _ Hmh)).
  - intros s Hs Hn1 Hn2. by rewrite Hoth2, Hoth1.
Qed.
End flush.

Lemma used_map_blocks d fs dir s : s ∈ used_sectors (hdr (freeMapFile fs)) -> s ∈ blocks d fs dir.
Proof. intros Hs. unfold blocks, sys_blocks. set_solver. Qed.
Lemma used_dir_blocks d fs dir s : s ∈ used_sectors (hdr (directoryFile fs)) -> s ∈ blocks d fs dir.
Proof. intros Hs. unfold blocks, sys_blocks. set_solver. Qed.

(** The end of [Create]: a fresh header sector [s] and a header [h] of fresh
    data sectors are recorded on the disk. *)
Lemma create_commit d fs dir fm nm s e h dir1 fm1 :
  fs_inv d fs dir fm -> in_disk s = true -> s ∉ set_bits fm ->
  dir_wf dir1 -> tableSize dir1 = NumDirEntries -> dir_map dir1 = <[key nm := s]> (dir_map dir) ->
  in_use (table dir1) ≡ₚ e :: in_use (table dir) -> sector e = s ->
  header_wf h -> bitmap_wf fm1 -> numBits fm1 = NumSectors ->
  set_bits fm1 = ({[s]} ∪ set_bits fm) ∪ list_to_set (used_sectors h) ->
  {[s]} ∪ set_bits fm ## list_to_set (used_sectors h) ->
  exists d1 d2 d', FileHdr.WriteBack d s h = Ok d1 /\
    Directory.WriteBack uninit d1 (directoryFile fs) dir1 = Ok d2 /\
    PBitmap.WriteBack uninit d2 (freeMapFile fs) fm1 = Ok d' /\
    fs_inv d' fs dir1 fm1 /\ fs_files d' dir1 = <[key nm := file_data d' h]> (fs_files d dir).
Proof.
  intros Hinv Hs Hfresh Hdw1 Hts1 Hdm1 Hp He Hhw Hfw1 Hfn1 Hset Hdisj.
  pose proof (fi_disk _ _ _ _ Hinv) as Hd.
  destruct (fi_mapfile _ _ _ _ Hinv) as (Hmw & Hmn & Hm0). destruct (fi_dirfile _ _ _ _ Hinv) as (Hdw & Hdn & Hd0).
  destruct (sys_disjoint _ _ _ _ Hinv) as [Hmd _].
  rewrite (fi_used _ _ _ _ Hinv) in Hfresh, Hset, Hdisj. rewrite elem_of_list_to_set in Hfresh.
  destruct (WriteBack_ok d s h Hd Hhw Hs) as (d1 & H1 & Hd1 & Hs1 & Hoth1).
  destruct (flush_dir_map d1 fs dir1 fm1 Hd1 Hmw Hmn Hdw Hdn Hmd Hfw1 Hfn1 Hdw1 Hts1)
    as (d2 & d' & H2 & H3 & Hd' & Hmdata & Hddata & Hoth).
  assert (forall x, in_disk x = true -> x ∈ blocks d fs dir -> x ∉ used_sectors (hdr (freeMapFile fs)) ->
    x ∉ used_sectors (hdr (directoryFile fs)) -> bs_sector d' x = bs_sector d x) as Hframe.
  { intros x Hx Hb Hn1 Hn2. rewrite Hoth, Hoth1; [done|done| |done..]. by intros ->. }
  assert (hdr_at d' s = h) as Hh.
  { unfold hdr_at. rewrite Hoth, Hs1; [by apply header_wf_roundtrip|done| |];
      intros Hin; apply Hfresh; eauto using used_map_blocks, used_dir_blocks. }
  pose proof (frame_blocks _ _ _ _ Hinv d' Hframe) as Hfb.
  assert (blocks d' fs dir = blocks d fs dir) as Hbl by (unfold blocks; by rewrite Hfb).
  assert (blocks d' fs dir1 ≡ₚ (s :: used_sectors h) ++ blocks d fs dir) as Hbp.
  { rewrite (blocks_perm d' fs dir dir1 e Hp), Hbl. unfold file_blocks. by rewrite He, Hh. }
  exists d1, d2, d'. split_and!; [done..| |].
  - split; [done| | |done|done| | |].
    + split_and!; [done|done|]. rewrite <- Hm0. apply (frame_sys _ _ _ _ Hinv d' Hframe). left.
    + split_and!; [done|done|]. rewrite <- Hd0. apply (frame_sys _ _ _ _ Hinv d' Hframe). right. left.
    + rewrite Hp. constructor; [by rewrite He, Hh|]. exact (frame_wf _ _ _ _ Hinv d' Hframe).
    + rewrite Hbp. apply NoDup_app. split_and!; [| |apply Hinv].
      * constructor; [|apply Hhw]. intros Hin. apply (Hdisj s); [by apply elem_of_union_l, elem_of_singleton|].
        by apply elem_of_list_to_set.
      * intros x [->|Hx]%elem_of_cons Hb; [done|].
        apply (Hdisj x); [by apply elem_of_union_r, elem_of_list_to_set|by apply elem_of_list_to_set].
    + rewrite Hbp, Hset, list_to_set_app_L. cbn [list_to_set]. apply set_eq. intros x.
      rewrite !elem_of_union. tauto.
  - unfold fs_files at 1. rewrite Hdm1, fmap_insert, Hh. f_equal.
    exact (frame_files _ _ _ _ Hinv d' Hframe).
Qed.

(** How many sectors a file of [n] bytes needs besides its header. *)
Definition create_fits fm dir nm n : bool :=
  bool_decide (dir_map dir !! key nm = None) && (Z.of_nat (length (in_use (table dir))) <? NumDirEntries) &&
  (1 + divRoundUp n SectorSize <=? Z.of_nat (length (clear_bits fm))).

Lemma Create_ok d fs dir fm nm n :
  fs_inv d fs dir fm -> Forall is_byte nm -> 0 <= n ->
  if create_fits fm dir nm n then
    if n <=? MaxFileSize then
    exists d' dir' fm' h, Create uninit d fs nm n = Ok (d', true) /\ fs_inv d' fs dir' fm' /\
      header_wf h /\ numBytes h = n /\ fs_files d' dir' = <[key nm := file_data d' h]> (fs_files d dir)
    else Create uninit d fs nm n = Err Undefined
  else Create uninit d fs nm n = Ok (d, false).
Proof.
  intros Hinv Hnm Hn. unfold Create. rewrite (fetch_directory_ok d fs dir fm Hinv). cbn [mbind outcome_bind].
  destruct (fi_dir _ _ _ _ Hinv) as (Hdw & Hts & _). destruct (fi_map _ _ _ _ Hinv) as (Hfw & Hfn & _).
  rewrite Find_ok by done. cbn [mbind outcome_bind]. unfold create_fits.
  pose proof (divRoundUp_nonneg n SectorSize ltac:(lia) ltac:(done)) as Hdr.
  destruct (dir_map dir !! key nm) as [s0|] eqn:Ek.
  { rewrite bool_decide_eq_false_2 by done. cbn [andb from_option id].
    destruct (dir_map_entry _ _ _ Ek) as (e & He & _ & <-).
    assert (in_disk (sector e) = true) as Hin%in_disk_iff.
    { apply (blocks_in_disk d fs dir fm Hinv), (file_blocks_in d fs dir e); [done|left]. }
    by rewrite (proj2 (Z.eqb_neq (sector e) (-1))) by lia. }
  rewrite bool_decide_eq_true_2 by done. cbn [andb from_option id].
  change (-1 =? -1) with true. cbn [negb]. rewrite (fetch_map_ok d fs dir fm Hinv). cbn [mbind outcome_bind].
  pose proof (FindAndSet_ok fm Hfw) as HF. destruct (clear_bits fm) as [|s rest] eqn:Ec.
  { rewrite HF. cbn [mbind outcome_bind length]. rewrite (proj2 (Z.leb_gt _ _)) by lia. by rewrite andb_false_r. }
  destruct HF as (fm1 & -> & Hfw1 & Hfn1 & Hcl1 & Hb1). cbn [mbind outcome_bind length].
  assert (s ∈ clear_bits fm) as [Hs Hsc]%elem_of_clear_bits by (rewrite Ec; left).
  rewrite (proj2 (Z.eqb_neq s (-1))) by lia. rewrite Hfn in Hs. change NumSectors with 1024 in Hs.
  pose proof (Add_ok dir nm s Hdw ltac:(unfold is_int; lia) Hnm) as HA. rewrite Ek, Hts in HA.
  destruct (Z.eqb_spec (Z.of_nat (length (in_use (table dir)))) NumDirEntries) as [Ef|Ef].
  { rewrite HA. by rewrite (proj2 (Z.ltb_ge _ _)) by lia. }
  assert (length (in_use (table dir)) <= length (table dir))%nat as Hle by apply length_filter.
  pose proof (dw_size _ Hdw) as Hdsz. rewrite (proj2 (Z.ltb_lt _ NumDirEntries)) by lia. cbn [andb].
  destruct HA as (dir1 & e & -> & Hdw1 & Hts1 & Hdm1 & Hp & He & _). cbn [mbind outcome_bind negb].
  destruct newFileHeader_ok as [Hnl Hni].
  pose proof (Allocate_cases (newFileHeader uninit) fm1 n Hfw1 ltac:(congruence) ltac:(lia) Hnl Hni) as HAl.
  rewrite Hcl1 in HAl.
  destruct (Z.ltb_spec (Z.of_nat (length rest)) (divRoundUp n SectorSize)).
  { rewrite (proj2 (Z.leb_gt _ _)) by lia. by destruct HAl as [h ->]. }
  rewrite (proj2 (Z.leb_le (1 + _) _)) by lia. 
  destruct (n <=? MaxFileSize); [|by rewrite HAl].
  destruct HAl as (h & fm2 & -> & Hhw & Hhl & Hfw2 & Hfn2 & Hset & Hdisj & _). cbn [mbind outcome_bind negb].
  assert (set_bits fm1 = {[s]} ∪ set_bits fm) as Hset1.
  { apply (set_bits_update fm fm1 s true); [done| |done]. rewrite Hfn. change NumSectors with 1024. lia. }
  rewrite Hset1 in Hset, Hdisj.
  destruct (create_commit d fs dir fm nm s e h dir1 fm2) as (d1 & d2 & d' & -> & H2 & H3 & Hinv' & Hfiles');
    try done; [by apply in_disk_iff|rewrite elem_of_set_bits; intuition congruence|].
  cbn [mbind outcome_bind]. rewrite H2. cbn [mbind outcome_bind]. rewrite H3. cbn [mbind outcome_bind].
  by exists d', dir1, fm2, h.
Qed.

Lemma Open_ok d fs dir fm nm :
  fs_inv d fs dir fm ->
  Open uninit d fs nm = Ok ((fun s => mkOpenFile (hdr_at d s) 0) <$> dir_map dir !! key nm).
Proof.
  intros Hinv. unfold Open. rewrite (fetch_directory_ok d fs dir fm Hinv). cbn [mbind outcome_bind].
  destruct (fi_dir _ _ _ _ Hinv) as (Hdw & _). rewrite Find_ok by done. cbn [mbind outcome_bind].
  destruct (dir_map dir !! key nm) as [s|] eqn:Ek; [|done]. cbn [from_option id].
  destruct (dir_map_entry _ _ _ Ek) as (e & He & _ & <-).
  assert (in_disk (sector e) = true) as Hin.
  { apply (blocks_in_disk d fs dir fm Hinv), (file_blocks_in d fs dir e); [done|left]. }
  pose proof Hin as Hin'%in_disk_iff. replace (0 <=? sector e) with true by lia.
  rewrite newOpenFile_ok by (done || apply Hinv). done.
Qed.

(** The end of [Remove]: the entry [e] and its sectors are given back. *)
Lemma remove_commit d fs dir fm nm e dir1 fm1 :
  fs_inv d fs dir fm -> dir_wf dir1 -> tableSize dir1 = NumDirEntries ->
  dir_map dir1 = delete (key nm) (dir_map dir) -> in_use (table dir) ≡ₚ e :: in_use (table dir1) ->
  bitmap_wf fm1 -> numBits fm1 = NumSectors ->
  set_bits fm1 = set_bits fm ∖ list_to_set (file_blocks d e) ->
  exists d1 d', PBitmap.WriteBack uninit d (freeMapFile fs) fm1 = Ok d1 /\
    Directory.WriteBack uninit d1 (directoryFile fs) dir1 = Ok d' /\
    fs_inv d' fs dir1 fm1 /\ fs_files d' dir1 = delete (key nm) (fs_files d dir).
Proof.
  intros Hinv Hdw1 Hts1 Hdm1 Hp Hfw1 Hfn1 Hset. pose proof (fi_disk _ _ _ _ Hinv) as Hd.
  destruct (fi_mapfile _ _ _ _ Hinv) as (Hmw & Hmn & Hm0). destruct (fi_dirfile _ _ _ _ Hinv) as (Hdw & Hdn & Hd0).
  destruct (sys_disjoint _ _ _ _ Hinv) as [Hmd _].
  destruct (flush_map_dir d fs dir1 fm1 Hd Hmw Hmn Hdw Hdn Hmd Hfw1 Hfn1 Hdw1 Hts1)
    as (d1 & d' & H1 & H2 & Hd' & Hmdata & Hddata & Hoth).
  assert (forall x, in_disk x = true -> x ∈ blocks d fs dir -> x ∉ used_sectors (hdr (freeMapFile fs)) ->
    x ∉ used_sectors (hdr (directoryFile fs)) -> bs_sector d' x = bs_sector d x) as Hframe by auto.
  assert (forall e', e' ∈ in_use (table dir1) -> e' ∈ in_use (table dir)) as Hsub.
  { intros e' He'. rewrite Hp. by right. }
  assert (blocks d' fs dir1 = blocks d fs dir1) as Hbl.
  { unfold blocks. do 2 f_equal. apply list_fmap_ext. intros i e' Hi%list_elem_of_lookup_2. unfold file_blocks.
    by rewrite (frame_hdr _ _ _ _ Hinv d' Hframe e' (Hsub e' Hi)). }
  pose proof (blocks_perm d fs dir1 dir e Hp) as Hbp.
  pose proof (fi_nodup _ _ _ _ Hinv) as Hnd. rewrite Hbp in Hnd. apply NoDup_app in Hnd as (_ & Hdisj & Hnd).
  exists d1, d'. split_and!; [done..| |].
  - split; [done| | |done|done| | |].
    + split_and!; [done|done|]. rewrite <- Hm0. apply (frame_sys _ _ _ _ Hinv d' Hframe). left.
    + split_and!; [done|done|]. rewrite <- Hd0. apply (frame_sys _ _ _ _ Hinv d' Hframe). right. left.
    + apply Forall_forall. intros e' He'.
      apply (proj1 (Forall_forall _ _) (frame_wf _ _ _ _ Hinv d' Hframe)). auto.
    + by rewrite Hbl.
    + rewrite Hbl, Hset, (fi_used _ _ _ _ Hinv), Hbp, list_to_set_app_L. apply set_eq. intros x.
      rewrite elem_of_difference, elem_of_union, !elem_of_list_to_set. specialize (Hdisj x). tauto.
  - unfold fs_files at 1. rewrite Hdm1, fmap_delete. f_equal. exact (frame_files _ _ _ _ Hinv d' Hframe).
Qed.

Lemma FRemove_ok d fs dir fm nm :
  fs_inv d fs dir fm ->
  match dir_map dir !! key nm with
  | None => Remove uninit d fs nm = Ok (d, false)
  | Some s => exists d' dir' fm', Remove uninit d fs nm = Ok (d', true) /\ fs_inv d' fs dir' fm' /\
      fs_files d' dir' = delete (key nm) (fs_files d dir) /\
      set_bits fm' = set_bits fm ∖ list_to_set (s :: used_sectors (hdr_at d s))
  end.
Proof.
  intros Hinv. unfold Remove. rewrite (fetch_directory_ok d fs dir fm Hinv). cbn [mbind outcome_bind].
  destruct (fi_dir _ _ _ _ Hinv) as (Hdw & Hts & _). destruct (fi_map _ _ _ _ Hinv) as (Hfw & Hfn & _).
  rewrite Find_ok by done. cbn [mbind outcome_bind]. pose proof (DRemove_ok dir nm Hdw) as HR.
  destruct (dir_map dir !! key nm) as [s|] eqn:Ek; cbn [from_option id]; [|done].
  destruct HR as (dir1 & e & HR & Hdw1 & Hts1 & Hdm1 & Hp & <- & Hke).
  assert (e ∈ in_use (table dir)) as He by (rewrite Hp; left).
  assert (in_disk (sector e) = true) as Hin.
  { apply (blocks_in_disk d fs dir fm Hinv), (file_blocks_in d fs dir e); [done|left]. }
  pose proof Hin as Hin'%in_disk_iff. rewrite (proj2 (Z.eqb_neq (sector e) (-1))) by lia.
  unfold FileHdr.FetchFrom. rewrite bs_read_ok by (done || apply Hinv). cbn [mbind outcome_bind].
  fold (hdr_at d (sector e)). rewrite (fetch_map_ok d fs dir fm Hinv). cbn [mbind outcome_bind].
  assert (header_wf (hdr_at d (sector e))) as Hhw by by apply (proj1 (Forall_forall _ _) (fi_files _ _ _ _ Hinv)).
  destruct (Deallocate_sets (hdr_at d (sector e)) fm Hfw Hfn Hhw) as (fm1 & -> & Hfw1 & Hfn1 & Hset1).
  { intros x Hx%elem_of_list_to_set. rewrite (fi_used _ _ _ _ Hinv). apply elem_of_list_to_set.
    apply (file_blocks_in d fs dir e); [done|by right]. }
  cbn [mbind outcome_bind].
  assert (0 <= sector e < numBits fm1) as Hrange by (rewrite Hfn1, Hfn; exact Hin').
  destruct (Clear_ok fm1 (sector e) Hfw1 Hrange) as (fm2 & -> & Hfw2 & Hfn2 & Hb2). cbn [mbind outcome_bind].
  rewrite HR. cbn [mbind outcome_bind].
  assert (set_bits fm2 = set_bits fm ∖ list_to_set (file_blocks d e)) as Hset2.
  { rewrite (set_bits_update fm1 fm2 (sector e) false) by done. rewrite Hset1. unfold file_blocks.
    cbn [list_to_set]. apply set_eq. intros x. rewrite !elem_of_difference, elem_of_union. tauto. }
  destruct (remove_commit d fs dir fm nm e dir1 fm2) as (d1 & d' & -> & H2 & Hinv' & Hfiles'); try done; try congruence.
  cbn [mbind outcome_bind]. rewrite H2. cbn [mbind outcome_bind]. by exists d', dir1, fm2.
Qed.

(** Sectors of different files are different. *)
Lemma NoDup_join_disjoint {A B} (f : A -> list B) l e e' x :
  NoDup (mjoin (f <$> l)) -> e ∈ l -> e' ∈ l -> e <> e' -> x ∈ f e -> x ∈ f e' -> False.
Proof.
  induction l as [|a l IH]; [by intros _ ?%elem_of_nil|]. rewrite fmap_cons. cbn [mjoin list_join].
  intros (_ & Hdisj & Hnd)%NoDup_app He He' Hne Hx Hx'.
  assert (forall y, y ∈ l -> x ∈ f y -> x ∈ mjoin (f <$> l)) as Hin.
  { intros y Hy Hxy. apply list_elem_of_join. exists (f y). split; [done|by apply list_elem_of_fmap_2]. }
  apply elem_of_cons in He as [->|He], He' as [->|He'];
    [done|exact (Hdisj x Hx (Hin e' He' Hx'))|exact (Hdisj x Hx' (Hin e He Hx))|by apply IH].
Qed.

Lemma NoDup_blocks_used d fs dir e e' x :
  NoDup (blocks d fs dir) -> e ∈ in_use (table dir) -> e' ∈ in_use (table dir) -> e <> e' ->
  x ∈ used_sectors (hdr_at d (sector e)) -> x ∈ used_sectors (hdr_at d (sector e')) -> False.
Proof.
  unfold blocks. intros (_ & _ & Hnd)%NoDup_app He He' Hne Hx Hx'.
  eapply (NoDup_join_disjoint _ _ e e' x Hnd); [done|done|done|by right|by right].
Qed.

Lemma NoDup_blocks_sector d fs dir e e' :
  NoDup (blocks d fs dir) -> e ∈ in_use (table dir) -> e' ∈ in_use (table dir) ->
  sector e' ∉ used_sectors (hdr_at d (sector e)).
Proof.
  unfold blocks. intros (_ & _ & Hnd)%NoDup_app He He' Hx.
  destruct (list_elem_of_split _ _ He) as (l1 & l2 & Hl). rewrite Hl in Hnd.
  destruct (decide (e' ∈ l1 ++ l2)) as [Hin|Hnin].
  - rewrite <- Permutation_middle, fmap_cons in Hnd. cbn [mjoin list_join] in Hnd.
    apply NoDup_app in Hnd as (_ & Hdisj & _). apply (Hdisj (sector e')); [by right|].
    apply list_elem_of_join. exists (file_blocks d e'). split; [left|by apply list_elem_of_fmap_2].
  - rewrite Hl in He'. assert (e' = e) as -> by set_solver.
    rewrite <- Permutation_middle, fmap_cons in Hnd. cbn [mjoin list_join] in Hnd.
    apply NoDup_app in Hnd as (Hnd & _ & _). unfold file_blocks in Hnd. by apply NoDup_cons in Hnd as [? _].
Qed.

(** The invariant depends only on the system sectors and the headers. *)
Lemma fs_inv_sys d d' fs dir fm :
  fs_inv d fs dir fm -> bs_ok d' -> (forall x, x ∈ sys_blocks fs -> bs_sector d' x = bs_sector d x) ->
  (forall e, e ∈ in_use (table dir) -> hdr_at d' (sector e) = hdr_at d (sector e)) ->
  fs_inv d' fs dir fm.
Proof.
  intros Hinv Hd' Hsys Hhdr. destruct Hinv as [Hd (Hmw & Hmn & Hm0) (Hdw & Hdn & Hd0) (Hf1 & Hf2 & Hf3) (Hi1 & Hi2 & Hi3) Hwf Hnd Hu].
  assert (blocks d' fs dir = blocks d fs dir) as Hbl.
  { unfold blocks. do 2 f_equal. apply list_fmap_ext. intros i e' Hi%list_elem_of_lookup_2. unfold file_blocks.
    by rewrite Hhdr. }
  split; [done| | | | | |by rewrite Hbl|by rewrite Hbl].
  - split_and!; [done|done|]. rewrite <- Hm0. unfold hdr_at. rewrite Hsys; [done|left].
  - split_and!; [done|done|]. rewrite <- Hd0. unfold hdr_at. rewrite Hsys; [done|right; left].
  - split_and!; [done|done|]. rewrite <- Hf3. apply file_data_frame. intros x Hx. apply Hsys. unfold sys_blocks. set_solver.
  - split_and!; [done|done|]. rewrite <- Hi3. apply file_data_frame. intros x Hx. apply Hsys. unfold sys_blocks. set_solver.
  - apply Forall_forall. intros e He. rewrite Hhdr by done. by apply (proj1 (Forall_forall _ _) Hwf).
Qed.

(** Writing to an open file of the file system. *)
Lemma write_inv d fs dir fm s nm d' :
  fs_inv d fs dir fm -> dir_map dir !! key nm = Some s -> bs_ok d' ->
  (forall x, in_disk x = true -> x ∉ used_sectors (hdr_at d s) -> bs_sector d' x = bs_sector d x) ->
  fs_inv d' fs dir fm /\ hdr_at d' s = hdr_at d s /\
  fs_files d' dir = <[key nm := file_data d' (hdr_at d s)]> (fs_files d dir).
Proof.
  intros Hinv Ek Hd' Hoth. destruct (dir_map_entry _ _ _ Ek) as (e & He & Hke & <-).
  pose proof (fi_nodup _ _ _ _ Hinv) as Hnd. set (U := used_sectors (hdr_at d (sector e))) in *.
  assert (forall x, x ∈ sys_blocks fs -> bs_sector d' x = bs_sector d x) as Hsys.
  { intros x Hx. apply Hoth.
    - apply (blocks_in_disk d fs dir fm Hinv). unfold blocks. apply elem_of_app. by left.
    - intros Hu. apply (file_blocks_sys d fs dir fm Hinv e x He); [by right|done]. }
  assert (forall e', e' ∈ in_use (table dir) -> hdr_at d' (sector e') = hdr_at d (sector e')) as Hhdr.
  { intros e' He'. unfold hdr_at. f_equal. apply Hoth.
    - apply (blocks_in_disk d fs dir fm Hinv), (file_blocks_in d fs dir e'); [done|left].
    - intros Hu. apply (NoDup_blocks_sector d fs dir e e' Hnd He He' Hu). }
  assert (forall e', e' ∈ in_use (table dir) -> key (name e') <> key nm ->
    file_data d' (hdr_at d (sector e')) = file_data d (hdr_at d (sector e'))) as Hdata.
  { intros e' He' Hk'. apply file_data_frame. intros x Hx. apply Hoth.
    - apply (blocks_in_disk d fs dir fm Hinv), (file_blocks_in d fs dir e'); [done|by right].
    - intros Hu. apply (NoDup_blocks_used d fs dir e e' x Hnd He He'); [|done|done]. intros <-. by apply Hk'. }
  split; [|split; [by apply Hhdr|]].
  - apply (fs_inv_sys d d' fs dir fm Hinv Hd' Hsys Hhdr).
  - apply map_eq. intros k. unfold fs_files. rewrite lookup_fmap.
    destruct (decide (k = key nm)) as [->|Hne].
    + rewrite lookup_insert_eq, Ek. cbn [fmap option_fmap option_map]. by rewrite Hhdr.
    + rewrite lookup_insert_ne, lookup_fmap by done. destruct (dir_map dir !! k) as [s'|] eqn:Ek'; [|done].
      destruct (dir_map_entry _ _ _ Ek') as (e' & He' & Hk' & <-). cbn [fmap option_fmap option_map].
      rewrite Hhdr by done. rewrite Hdata; [done|done|congruence].
Qed.

(** ** Formatting *)

(** The free map that formatting starts from: only the two header sectors are
    in use. *)
Lemma initial_map :
  exists fm0 fm1 fm2, newPersistentBitmap NumSectors = Ok fm0 /\ Mark fm0 FreeMapSector = Ok fm1 /\
    Mark fm1 DirectorySector = Ok fm2 /\ bitmap_wf fm2 /\ numBits fm2 = NumSectors /\
    set_bits fm2 = list_to_set [FreeMapSector; DirectorySector].
Proof.
  destruct (newBitmap_ok NumSectors) as (fm0 & H0 & Hw0 & Hn0 & Hb0); [done|].
  enough (exists fm1 fm2, Mark fm0 FreeMapSector = Ok fm1 /\ Mark fm1 DirectorySector = Ok fm2 /\
    bitmap_wf fm2 /\ numBits fm2 = NumSectors /\
    set_bits fm2 = list_to_set [FreeMapSector; DirectorySector]) as (fm1 & fm2 & Hrest).
  { exists fm0, fm1, fm2. split; [exact H0|exact Hrest]. }
  clear H0.
  assert (set_bits fm0 = ∅) as Hs0.
  { apply set_eq. intros x. rewrite elem_of_set_bits, Hn0, elem_of_empty. split; [|done].
    intros [Hx Hb]. rewrite Hb0 in Hb by done. done. }
  destruct (Mark_ok fm0 FreeMapSector Hw0) as (fm1 & H1 & Hw1 & Hn1 & Hb1); [by rewrite Hn0|].
  destruct (Mark_ok fm1 DirectorySector Hw1) as (fm2 & H2 & Hw2 & Hn2 & Hb2); [by rewrite Hn1, Hn0|].
  exists fm1, fm2. split_and!; [done|done|done|congruence|].
  rewrite (set_bits_update fm1 fm2 DirectorySector true), (set_bits_update fm0 fm1 FreeMapSector true), Hs0;
    [|done|by rewrite Hn0|done|done|by rewrite Hn1, Hn0|done].
  apply set_eq. intros x. cbn [list_to_set]. rewrite !elem_of_union. tauto.
Qed.

Lemma alloc_fits fm size :
  bitmap_wf fm -> numBits fm = NumSectors -> 0 <= size <= MaxFileSize ->
  (Z.of_nat (base.size (set_bits fm)) <= 900) ->
  exists h fm', Allocate (newFileHeader uninit) fm size = Ok (h, fm', true) /\ header_wf h /\ numBytes h = size /\
    bitmap_wf fm' /\ numBits fm' = NumSectors /\ set_bits fm' = set_bits fm ∪ list_to_set (used_sectors h) /\
    set_bits fm ## list_to_set (used_sectors h).
Proof.
  intros Hw Hn Hs Hsz. destruct newFileHeader_ok as [Hnl Hni].
  pose proof (Allocate_cases (newFileHeader uninit) fm size Hw Hn ltac:(lia) Hnl Hni) as HA.
  pose proof (length_clear_bits fm Hw) as Hl. rewrite Hn in Hl. change NumSectors with 1024 in Hl.
  pose proof (divRoundUp_bounds size SectorSize ltac:(lia) ltac:(done)) as Hbd.
  change MaxFileSize with 3840 in *. change SectorSize with 128 in *.
  rewrite (proj2 (Z.ltb_ge _ (divRoundUp size 128))), (proj2 (Z.leb_le size 3840)) in HA by lia.
  destruct HA as (h & fm' & HA & Hhw & Hhl & Hw' & Hn' & Hset & Hdisj & _). exists h, fm'. by split_and!.
Qed.

Lemma size_list_to_set_le (l : list Z) : (base.size (list_to_set l : gset Z) <= length l)%nat.
Proof.
  induction l as [|x l IH]; [done|]. cbn [list_to_set length].
  pose proof (size_union_alt {[x]} (list_to_set l : gset Z)) as Hu. rewrite size_singleton in Hu.
  pose proof (subseteq_size ((list_to_set l : gset Z) ∖ {[x]}) (list_to_set l) ltac:(set_solver)). lia.
Qed.

Lemma format_ok d :
  bs_ok d -> exists d' fs dir fm, newFileSystem uninit d true = Ok (d', fs) /\ fs_inv d' fs dir fm /\
    fs_files d' dir = ∅.
Proof.
  intros Hd. unfold newFileSystem. destruct initial_map as (fm0 & fm1 & fm2 & -> & H1 & H2 & Hw2 & Hn2 & Hs2).
  cbn [mbind outcome_bind]. destruct (newDirectory_ok uninit NumDirEntries) as (dir & -> & Hdw & Hts & Huse); [done|].
  cbn [mbind outcome_bind]. rewrite H1. cbn [mbind outcome_bind]. rewrite H2. cbn [mbind outcome_bind].
  destruct (alloc_fits fm2 FreeMapFileSize Hw2 Hn2) as (mh & fm3 & -> & Hmw & Hmn & Hw3 & Hn3 & Hs3 & Hd3);
    [done|rewrite Hs2; pose proof (size_list_to_set_le [FreeMapSector; DirectorySector]); simpl in *; lia|].
  cbn [mbind outcome_bind ASSERT].
  assert (Z.of_nat (length (used_sectors mh)) <= 30) as Hml.
  { rewrite length_used by done. pose proof (header_wf_sectors mh Hmw) as Hns. change NumDirect with 30 in Hns. lia. }
  destruct (alloc_fits fm3 DirectoryFileSize Hw3 Hn3) as (dh & fm4 & -> & Hdhw & Hdhn & Hw4 & Hn4 & Hs4 & Hd4); [done| |].
  { rewrite Hs3, Hs2, <- list_to_set_app_L. pose proof (size_list_to_set_le ([FreeMapSector; DirectorySector] ++ used_sectors mh)) as Hle.
    rewrite length_app in Hle. simpl in *. lia. }
  cbn [mbind outcome_bind ASSERT]. rewrite Hs3 in Hs4, Hd4. rewrite Hs2 in Hd3, Hs4, Hd4.
  assert (NoDup ([FreeMapSector; DirectorySector] ++ used_sectors mh ++ used_sectors dh)) as Hnd.
  { apply NoDup_app. split_and!; [by apply (bool_decide_unpack _); vm_compute| |].
    - intros x Hx [Hm|Hm]%elem_of_app; [apply (Hd3 x)|apply (Hd4 x)];
        rewrite ?elem_of_union, ?elem_of_list_to_set; tauto.
    - apply NoDup_app. split_and!; [apply Hmw| |apply Hdhw]. intros x Hx Hx'.
      apply (Hd4 x); rewrite ?elem_of_union, ?elem_of_list_to_set; tauto. }
  destruct (WriteBack_ok d FreeMapSector mh Hd Hmw eq_refl) as (d1 & -> & Hd1 & Hs1 & _).
  cbn [mbind outcome_bind].
  destruct (WriteBack_ok d1 DirectorySector dh Hd1 Hdhw eq_refl) as (d2 & -> & Hdk2 & Hsec2 & Hoth2).
  cbn [mbind outcome_bind].
  assert (hdr_at d2 FreeMapSector = mh /\ hdr_at d2 DirectorySector = dh) as [Hh1 Hh2].
  { unfold hdr_at. rewrite Hsec2, (Hoth2 FreeMapSector), Hs1 by done. by rewrite !header_wf_roundtrip. }
  rewrite !newOpenFile_ok by done. cbn [mbind outcome_bind]. rewrite Hh1, Hh2.
  apply NoDup_app in Hnd as Hnd'. destruct Hnd' as (_ & Hsd & (_ & Hmd & _)%NoDup_app).
  destruct (flush_map_dir d2 (mkFileSystem (mkOpenFile mh 0) (mkOpenFile dh 0)) dir fm4)
    as (d3 & d' & F1 & F2 & Hd' & Hmdata & Hddata & Hoth); try done.
  cbn [freeMapFile directoryFile] in *. rewrite F1. cbn [mbind outcome_bind]. rewrite F2. cbn [mbind outcome_bind].
  eexists _, _, dir, fm4. split; [done|].
  assert (forall x, x ∈ [FreeMapSector; DirectorySector] -> hdr_at d' x = hdr_at d2 x) as Hsys.
  { intros x Hx. pose proof (Hsd x Hx) as Hn. rewrite not_elem_of_app in Hn. unfold hdr_at. f_equal.
    apply Hoth; [|tauto|tauto]. apply elem_of_cons in Hx as [->|Hx%list_elem_of_singleton]; [done|by subst]. }
  split.
  - split; cbn [freeMapFile directoryFile hdr]; [done| | |done|done| | |].
    + split_and!; [done|done|]. by rewrite Hsys by left.
    + split_and!; [done|done|]. by rewrite Hsys by (right; left).
    + rewrite Huse. constructor.
    + unfold blocks, sys_blocks. rewrite Huse. cbn [freeMapFile directoryFile hdr fmap list_fmap mjoin list_join].
      by rewrite app_nil_r.
    + unfold blocks, sys_blocks. rewrite Huse. cbn [freeMapFile directoryFile hdr fmap list_fmap mjoin list_join].
      rewrite app_nil_r, !list_to_set_app_L, Hs4. by rewrite (assoc_L (∪)).
  - unfold fs_files, dir_map. by rewrite Huse.
Qed.

(** ** Space: how many sectors the files leave free *)

(** The sectors that the files of an abstract state occupy: a header each, and
    the data. *)
Definition file_space (data : list Z) : nat := S (Z.to_nat (divRoundUp (Z.of_nat (length data)) SectorSize)).
Definition used_space (files : gmap (list Z) (list Z)) : nat :=
  sum_list_with (fun p => file_space p.2) (map_to_list files).

Lemma sum_list_with_fmap {A B} (f : B -> nat) (g : A -> B) l : sum_list_with f (g <$> l) = sum_list_with (f ∘ g) l.
Proof. induction l; [done|]. rewrite fmap_cons. cbn [sum_list_with]. by rewrite IHl. Qed.

Lemma sum_list_with_perm {A} (f : A -> nat) l l' : l ≡ₚ l' -> sum_list_with f l = sum_list_with f l'.
Proof. induction 1; cbn [sum_list_with]; lia. Qed.

Lemma length_mjoin {A} (l : list (list A)) : length (mjoin l) = sum_list_with length l.
Proof. induction l as [|x l IH]; [done|].
  change (mjoin (x :: l)) with (x ++ mjoin l). cbn [sum_list_with]. by rewrite length_app, IH.
Qed.

Lemma fs_files_list d dir :
  dir_wf dir -> map_to_list (fs_files d dir) ≡ₚ
    (fun e => (key (name e), file_data d (hdr_at d (sector e)))) <$> in_use (table dir).
Proof.
  intros Hw. unfold fs_files, dir_map. rewrite map_to_list_fmap.
  rewrite map_to_list_to_map by apply Hw. by rewrite <- list_fmap_compose.
Qed.

Lemma free_space d fs dir fm :
  fs_inv d fs dir fm -> Z.of_nat (length (clear_bits fm)) = 1019 - Z.of_nat (used_space (fs_files d dir)).
Proof.
  intros Hinv. destruct (fi_map _ _ _ _ Hinv) as (Hfw & Hfn & _). destruct (fi_dir _ _ _ _ Hinv) as (Hdw & _).
  destruct (fi_mapfile _ _ _ _ Hinv) as (Hmw & Hmn & _). destruct (fi_dirfile _ _ _ _ Hinv) as (Hdhw & Hdn & _).
  pose proof (length_clear_bits fm Hfw) as Hl. rewrite Hfn in Hl. change NumSectors with 1024 in Hl.
  rewrite (fi_used _ _ _ _ Hinv), size_list_to_set in Hl by apply Hinv.
  unfold blocks, sys_blocks in Hl. rewrite !length_app, !length_used in Hl by done.
  rewrite (hw_sectors _ Hmw), (hw_sectors _ Hdhw), Hmn, Hdn, length_mjoin, sum_list_with_fmap in Hl.
  change (Z.to_nat (divRoundUp FreeMapFileSize SectorSize)) with 1%nat in Hl.
  change (Z.to_nat (divRoundUp DirectoryFileSize SectorSize)) with 2%nat in Hl.
  assert (used_space (fs_files d dir) = sum_list_with (length ∘ file_blocks d) (in_use (table dir))) as ->;
    [clear Hl|simpl in Hl; lia].
  unfold used_space. rewrite (sum_list_with_perm _ _ _ (fs_files_list d dir Hdw)), sum_list_with_fmap.
  pose proof (fi_files _ _ _ _ Hinv) as Hf. induction Hf as [|e l He _ IH]; [done|].
  cbn [sum_list_with compose snd]. rewrite IH. f_equal. unfold file_space, file_blocks. cbn [length].
  rewrite (length_file_data d _ (fi_disk _ _ _ _ Hinv) He), length_used, (hw_sectors _ He) by done.
  by rewrite Z2Nat.id by apply (hw_bytes _ He).
Qed.

Lemma size_fs_files d dir : dir_wf dir -> base.size (fs_files d dir) = length (in_use (table dir)).
Proof.
  intros Hw. unfold fs_files. rewrite map_size_fmap. unfold dir_map.
  rewrite map_size_list_to_map by apply Hw. by rewrite length_fmap.
Qed.

Lemma fs_files_None d dir k : fs_files d dir !! k = None <-> dir_map dir !! k = None.
Proof. unfold fs_files. by rewrite lookup_fmap, fmap_None. Qed.

(** Whether [Create] has room, read off the abstract state. *)
Definition room_for (files : gmap (list Z) (list Z)) (nm : list Z) (n : Z) : bool :=
  bool_decide (files !! key nm = None) && (Z.of_nat (base.size files) <? NumDirEntries) &&
  (Z.of_nat (used_space files) + 1 + divRoundUp n SectorSize <=? 1019).

Lemma create_fits_room d fs dir fm nm n :
  fs_inv d fs dir fm -> create_fits fm dir nm n = room_for (fs_files d dir) nm n.
Proof.
  intros Hinv. destruct (fi_dir _ _ _ _ Hinv) as (Hdw & _). unfold create_fits, room_for.
  rewrite (free_space d fs dir fm Hinv), size_fs_files by done. f_equal; [f_equal|lia].
  apply bool_decide_ext. by rewrite fs_files_None.
Qed.

(** ** Copy and Print *)
Lemma take_min_length {A} n (l : list A) : take (Nat.min n (length l)) l = take n l.
Proof. destruct (decide (n <= length l)%nat); [by rewrite Nat.min_l by lia|]. rewrite !take_ge; (done || lia). Qed.

Lemma splice_prefix (l data : list Z) (p n : nat) :
  (p + n <= length data)%nat -> length l = length data -> take p l = take p data ->
  take (p + n) (splice l p (take n (drop p data))) = take (p + n) data.
Proof.
  intros Hle Hl Ht. unfold splice. rewrite Ht.
  rewrite app_assoc, take_take_drop. apply take_app_length'.
  rewrite length_take. lia.
Qed.

Lemma copy_loop_ok fuel d fs dir fm nm s p data unix :
  fs_inv d fs dir fm -> dir_map dir !! key nm = Some s ->
  numBytes (hdr_at d s) = Z.of_nat (length data) -> Forall is_byte data -> (p <= length data)%nat ->
  take p (file_data d (hdr_at d s)) = take p data -> unix = drop p data -> (length unix < fuel)%nat ->
  exists d', copy_loop uninit fuel d (mkOpenFile (hdr_at d s) (Z.of_nat p)) unix = Ok d' /\
    fs_inv d' fs dir fm /\ fs_files d' dir = <[key nm := data]> (fs_files d dir).
Proof.
  revert d p unix. induction fuel as [|fuel IH]; intros d p unix Hinv Ek Hnb Hby Hp Htake -> Hfuel; [lia|].
  destruct (dir_map_entry _ _ _ Ek) as (e & He & _ & Hes).
  assert (header_wf (hdr_at d s)) as Hhw.
  { rewrite <- Hes. by apply (proj1 (Forall_forall _ _) (fi_files _ _ _ _ Hinv)). }
  pose proof (fi_disk _ _ _ _ Hinv) as Hd. pose proof (length_file_data d _ Hd Hhw) as Hfl.
  rewrite length_drop in Hfuel. cbn [copy_loop]. change (Z.to_nat TransferSize) with 128%nat.
  set (buffer := take 128 (drop p data)). assert (length buffer = Nat.min 128 (length data - p)) as Hlb.
  { unfold buffer. by rewrite length_take, length_drop. }
  pose proof (hw_bytes _ Hhw) as Hmax. change MaxFileSize with 3840 in Hmax.
  destruct (Z.ltb_spec 0 (Z.of_nat (length buffer))) as [Hpos|Hz].
  - destruct (WriteAt_ok uninit d (mkOpenFile (hdr_at d s) (Z.of_nat p)) buffer (Z.of_nat (length buffer)) (Z.of_nat p))
      as (d1 & HW & Hd1 & Hdata & Hoth); cbn [hdr]; [done|done|lia|unfold is_int; lia|by apply Forall_take, Forall_drop|lia|].
    cbn [hdr] in *. rewrite Z.min_l, Z.max_r in HW, Hdata by lia. rewrite (proj2 (Z.ltb_lt _ _)) in Hdata by done.
    unfold Write. cbn [seekPosition hdr]. rewrite HW. cbn [mbind outcome_bind].
    unfold int_add. replace (_ && _) with true by lia. cbn [mbind outcome_bind].
    destruct (write_inv d fs dir fm s nm d1 Hinv Ek Hd1 Hoth) as (Hinv1 & Hh1 & Hfiles1).
    rewrite !Nat2Z.id in Hdata. rewrite firstn_all in Hdata.
    assert (buffer = take (length buffer) (drop p data)) as Hbuf.
    { rewrite Hlb, <- length_drop. symmetry. apply take_min_length. }
    destruct (IH d1 (p + length buffer)%nat (drop 128 (drop p data))) as (d' & HL & Hinv' & Hfiles'); try done.
    + by rewrite Hh1.
    + lia.
    + rewrite Hh1, Hdata. rewrite Hbuf at 2. apply splice_prefix; [lia..|done].
    + rewrite drop_drop. destruct (decide (128 <= length data - p)%nat).
      * f_equal. lia.
      * rewrite !drop_ge by lia. done.
    + rewrite !length_drop. lia.
    + rewrite Hh1 in HL. replace (Z.of_nat p + Z.of_nat (length buffer)) with (Z.of_nat (p + length buffer)) by lia.
      rewrite HL. exists d'. split_and!; [done|done|]. rewrite Hfiles', Hfiles1. by rewrite insert_insert_eq.
  - exists d. split_and!; [done|done|]. assert (p = length data) as -> by lia.
    rewrite !take_ge in Htake by lia. rewrite insert_id; [done|]. unfold fs_files. rewrite lookup_fmap, Ek.
    cbn [fmap option_fmap option_map]. by rewrite Htake.
Qed.

Lemma print_loop_ok fuel d h p :
  bs_ok d -> header_wf h -> (p <= Z.to_nat (numBytes h))%nat -> (Z.to_nat (numBytes h) - p < fuel)%nat ->
  print_loop uninit fuel d (mkOpenFile h (Z.of_nat p)) = Ok (drop p (file_data d h)).
Proof.
  intros Hd Hw. pose proof (hw_bytes _ Hw) as Hmax. change MaxFileSize with 3840 in Hmax.
  pose proof (length_file_data d h Hd Hw) as Hfl.
  revert p. induction fuel as [|fuel IH]; intros p Hp Hfuel; [lia|]. cbn [print_loop]. unfold Read.
  change TransferSize with 128. cbn [seekPosition hdr].
  rewrite ReadAt_ok by (done || (unfold is_int; lia)). cbn [hdr mbind outcome_bind]. rewrite Nat2Z.id.
  change (Z.to_nat 128) with 128%nat. set (bs := take 128 (drop p (file_data d h))).
  assert (length bs = Nat.min 128 (Z.to_nat (numBytes h) - p)) as Hlb.
  { unfold bs. by rewrite length_take, length_drop, Hfl. }
  unfold int_add. replace (_ && _) with true by lia. cbn [mbind outcome_bind].
  destruct (Z.ltb_spec 0 (Z.of_nat (length bs))).
  - replace (Z.of_nat p + Z.of_nat (length bs)) with (Z.of_nat (p + length bs)) by lia.
    rewrite IH by lia. cbn [mbind outcome_bind]. f_equal.
    rewrite <- drop_drop, Hlb, <- Hfl, <- length_drop. unfold bs.
    rewrite <- (take_min_length 128 (drop p (file_data d h))) at 1. apply take_drop.
  - rewrite drop_ge by lia. done.
Qed.
End filesys_lemmas.

(** ** Properties of the component *)
Section filesys_properties.
Context {D : Type} `{BlockStore D} `{!BlockStoreLaws D} (uninit : nat -> list Z) `{!Uninit uninit}.
Implicit Types (d : D) (fs : FileSystem) (files : gmap (list Z) (list Z)).

(** Formatting any disk succeeds and gives an empty file system in which
    exactly the sectors of the two system files are in use; opening an existing
    disk without formatting gives the files that are on it. *)
Theorem filesystem_format d :
  bs_ok d ->
  (exists d' fs, newFileSystem uninit d true = Ok (d', fs) /\ fs_rep d' fs ∅) /\
  forall fs files, fs_rep d fs files ->
    exists fs', newFileSystem uninit d false = Ok (d, fs') /\ fs_rep d fs' files.
Proof.
  intros Hd. split.
  - destruct (format_ok uninit d Hd) as (d' & fs & dir & fm & HF & Hinv & Hfiles).
    exists d', fs. split; [exact HF|]. exists dir, fm. split; [exact Hinv|exact Hfiles].
  - intros fs files (dir & fm & Hinv & <-). unfold newFileSystem. rewrite !newOpenFile_ok by done.
    cbn [mbind outcome_bind]. eexists. split; [done|]. exists dir, fm. split; [|done].
    destruct (fi_mapfile _ _ _ _ Hinv) as (Hm1 & Hm2 & Hm3). destruct (fi_dirfile _ _ _ _ Hinv) as (Hd1 & Hd2 & Hd3).
    rewrite Hm3, Hd3. destruct Hinv. by split.
Qed.

(** C2: [Create] refines insertion into the map of files.  It succeeds exactly
    when the name is new, the directory has a free entry and the disk has room
    for the header and the data; then the file appears with the requested
    length, every other file keeps its content and the disk invariant holds.
    When it fails the disk is unchanged.  A size beyond [MaxFileSize] that
    would otherwise fit runs past the header's table. *)
Theorem create_correct d fs files nm n :
  fs_rep d fs files -> Forall is_byte nm -> 0 <= n ->
  if room_for files nm n then
    if n <=? MaxFileSize then
      exists d' data, Create uninit d fs nm n = Ok (d', true) /\ Z.of_nat (length data) = n /\
        fs_rep d' fs (<[key nm := data]> files)
    else Create uninit d fs nm n = Err Undefined
  else Create uninit d fs nm n = Ok (d, false).
Proof.
  intros (dir & fm & Hinv & <-) Hnm Hn. pose proof (Create_ok uninit d fs dir fm nm n Hinv Hnm Hn) as HC.
  rewrite (create_fits_room d fs dir fm nm n Hinv) in HC.
  destruct (room_for _ _ _); [|done]. destruct (n <=? MaxFileSize); [|done].
  destruct HC as (d' & dir' & fm' & h & HC & Hinv' & Hhw & Hhn & Hfiles). exists d', (file_data d' h).
  split; [done|]. split; [|by exists dir', fm'].
  rewrite length_file_data; [|apply Hinv'|done]. rewrite Hhn. lia.
Qed.

(** C25: [Open] finds a file exactly when it is in the map, and what it opens
    has that file's content and length. *)
Theorem open_correct d fs files nm :
  fs_rep d fs files ->
  match files !! key nm with
  | None => Open uninit d fs nm = Ok None
  | Some data => exists f, Open uninit d fs nm = Ok (Some f) /\ header_wf (hdr f) /\ seekPosition f = 0 /\
      Length f = Z.of_nat (length data) /\ ReadAt uninit d f (Length f) 0 = Ok data
  end.
Proof.
  intros (dir & fm & Hinv & <-). rewrite (Open_ok uninit d fs dir fm nm Hinv). unfold fs_files. rewrite lookup_fmap.
  destruct (dir_map dir !! key nm) as [s|] eqn:Ek; [|done]. cbn [fmap option_fmap option_map].
  destruct (dir_map_entry _ _ _ Ek) as (e & He & _ & <-).
  assert (header_wf (hdr_at d (sector e))) as Hhw by by apply (proj1 (Forall_forall _ _) (fi_files _ _ _ _ Hinv)).
  pose proof (fi_disk _ _ _ _ Hinv) as Hd. pose proof (length_file_data d _ Hd Hhw) as Hl. pose proof (hw_bytes _ Hhw).
  eexists. split; [done|]. cbn [hdr seekPosition]. unfold Length, FileLength. cbn [hdr].
  split_and!; [done|done|lia|]. by apply ReadAt_all.
Qed.

(** C6: [Remove] deletes the named file and nothing else, returns all its
    sectors to the free map, and fails without touching the disk when there is
    no such file. *)
Theorem remove_correct d fs files nm :
  fs_rep d fs files ->
  match files !! key nm with
  | None => Remove uninit d fs nm = Ok (d, false)
  | Some data => exists d', Remove uninit d fs nm = Ok (d', true) /\ fs_rep d' fs (delete (key nm) files) /\
      (used_space (delete (key nm) files) + file_space data = used_space files)%nat
  end.
Proof.
  intros (dir & fm & Hinv & <-). pose proof (FRemove_ok uninit d fs dir fm nm Hinv) as HR.
  destruct (fs_files d dir !! key nm) as [data|] eqn:Ef.
  - assert (exists s, dir_map dir !! key nm = Some s) as [s Ek].
    { unfold fs_files in Ef. rewrite lookup_fmap in Ef. destruct (dir_map dir !! key nm); [eauto|done]. }
    rewrite Ek in HR. destruct HR as (d' & dir' & fm' & HR & Hinv' & Hfiles & _). exists d'. split; [done|].
    split; [by exists dir', fm'|]. unfold used_space.
    rewrite <- (insert_delete_id (fs_files d dir) (key nm) data) at 2 by done.
    rewrite (sum_list_with_perm _ _ _ (map_to_list_insert _ _ _ (lookup_delete_eq _ _))). cbn [sum_list_with snd]. lia.
  - apply fs_files_None in Ef. by rewrite Ef in HR.
Qed.

(** C23: a write to an open file changes that file's content as [WriteAt]
    specifies, leaves every other file's content alone and keeps the disk
    invariant. *)
Theorem file_write_isolated d fs files nm data f from n pos :
  fs_rep d fs files -> files !! key nm = Some data -> Open uninit d fs nm = Ok (Some f) ->
  0 <= pos -> is_int pos -> is_int (pos + n) -> Forall is_byte from -> n <= Z.of_nat (length from) ->
  let m := Z.max 0 (Z.min n (Z.of_nat (length data) - pos)) in
  exists d', WriteAt uninit d f from n pos = Ok (d', m) /\
    fs_rep d' fs (<[key nm := if 0 <? m then splice data (Z.to_nat pos) (take (Z.to_nat m) from) else data]> files).
Proof.
  intros (dir & fm & Hinv & <-) Hdata HO Hp Hpi Hi Hby Hl m.
  rewrite (Open_ok uninit d fs dir fm nm Hinv) in HO. unfold fs_files in Hdata. rewrite lookup_fmap in Hdata.
  destruct (dir_map dir !! key nm) as [s|] eqn:Ek; [|done]. cbn [fmap option_fmap option_map] in HO, Hdata.
  injection HO as <-. injection Hdata as Hdata. destruct (dir_map_entry _ _ _ Ek) as (e & He & _ & Hes).
  assert (header_wf (hdr_at d s)) as Hhw.
  { rewrite <- Hes. by apply (proj1 (Forall_forall _ _) (fi_files _ _ _ _ Hinv)). }
  pose proof (fi_disk _ _ _ _ Hinv) as Hd. pose proof (length_file_data d _ Hd Hhw) as Hfl. pose proof (hw_bytes _ Hhw).
  destruct (WriteAt_ok uninit d (mkOpenFile (hdr_at d s) 0) from n pos Hd Hhw Hp Hi Hby Hl)
    as (d' & HW & Hd' & Hdata' & Hoth). cbn [hdr] in *.
  assert (Z.of_nat (length data) = numBytes (hdr_at d s)) as Hld by (rewrite <- Hdata; lia).
  rewrite <- Hld in HW, Hdata'. fold m in HW, Hdata'. exists d'. split; [done|].
  destruct (write_inv uninit d fs dir fm s nm d' Hinv Ek Hd' Hoth) as (Hinv' & _ & Hfiles).
  exists dir, fm. split; [done|]. by rewrite Hfiles, Hdata', Hdata.
Qed.

(** C26: [Copy] of a UNIX file into the file system, when there is room for it,
    produces a Nachos file with exactly its bytes, and [Print] of that file
    then prints exactly them; both loops end. *)
Theorem copy_print_roundtrip d fs files nm data :
  fs_rep d fs files -> Forall is_byte nm -> Forall is_byte data -> Z.of_nat (length data) <= MaxFileSize ->
  room_for files nm (Z.of_nat (length data)) = true ->
  exists d', Copy uninit d fs (Some data) nm = Ok d' /\ fs_rep d' fs (<[key nm := data]> files) /\
    Print uninit d' fs nm = Ok (Some data).
Proof.
  intros (dir & fm & Hinv & <-) Hnm Hby Hle Hroom. unfold Copy.
  pose proof (Create_ok uninit d fs dir fm nm (Z.of_nat (length data)) Hinv Hnm ltac:(lia)) as HC.
  rewrite (create_fits_room d fs dir fm nm _ Hinv), Hroom, (proj2 (Z.leb_le _ _)) in HC by done.
  destruct HC as (d1 & dir1 & fm1 & h & -> & Hinv1 & Hhw & Hhn & Hfiles1). cbn [mbind outcome_bind negb].
  rewrite (Open_ok uninit d1 fs dir1 fm1 nm Hinv1).
  assert (exists s, dir_map dir1 !! key nm = Some s /\ file_data d1 (hdr_at d1 s) = file_data d1 h) as (s & Ek & Hsd).
  { pose proof (f_equal (.!! key nm) Hfiles1) as Hk. cbn in Hk. rewrite lookup_insert_eq in Hk.
    unfold fs_files in Hk. rewrite lookup_fmap in Hk.
    destruct (dir_map dir1 !! key nm) as [s|]; [|done]. exists s. split; [done|]. by injection Hk. }
  rewrite Ek. cbn [fmap option_fmap option_map mbind outcome_bind].
  destruct (dir_map_entry _ _ _ Ek) as (e & He & _ & Hes).
  assert (header_wf (hdr_at d1 s)) as Hhw1.
  { rewrite <- Hes. by apply (proj1 (Forall_forall _ _) (fi_files _ _ _ _ Hinv1)). }
  pose proof (fi_disk _ _ _ _ Hinv1) as Hd1.
  assert (numBytes (hdr_at d1 s) = Z.of_nat (length data)) as Hnb1.
  { pose proof (length_file_data d1 _ Hd1 Hhw1) as Hl1. rewrite Hsd, length_file_data in Hl1 by done.
    pose proof (hw_bytes _ Hhw1). lia. }
  destruct (copy_loop_ok uninit (S (length data)) d1 fs dir1 fm1 nm s 0 data data) as (d' & HL & Hinv' & Hfiles');
    [done..|lia|done|done|lia|]. change (Z.of_nat 0) with 0 in HL. rewrite HL. exists d'. split; [done|].
  assert (fs_files d' dir1 = <[key nm := data]> (fs_files d dir)) as Hfin.
  { rewrite Hfiles', Hfiles1. by rewrite insert_insert_eq. }
  split; [by exists dir1, fm1|]. unfold Print. rewrite (Open_ok uninit d' fs dir1 fm1 nm Hinv'), Ek.
  cbn [fmap option_fmap option_map mbind outcome_bind]. unfold Length, FileLength. cbn [hdr].
  assert (header_wf (hdr_at d' s)) as Hhw'.
  { rewrite <- Hes. by apply (proj1 (Forall_forall _ _) (fi_files _ _ _ _ Hinv')). }
  change 0 with (Z.of_nat 0) at 1. rewrite print_loop_ok by (done || lia || apply Hinv').
  cbn [mbind outcome_bind]. rewrite drop_0. do 2 f_equal.
  pose proof (f_equal (.!! key nm) Hfiles') as Hk. cbn in Hk. rewrite lookup_insert_eq in Hk.
  unfold fs_files in Hk. rewrite lookup_fmap, Ek in Hk. by injection Hk.
Qed.
End filesys_properties.

(** ** Examples: a freshly formatted disk, and one with the file "a" *)
Lemma sample_formatted : exists (d : list Z) fs, fs_rep d fs ∅.
Proof.
  destruct (format_ok (H := image_store) garbage blank_image blank_image_ok) as (d & fs & dir & fm & _ & Hinv & Hf).
  exists d, fs, dir, fm. split; [exact Hinv|exact Hf].
Qed.

Lemma sample_one_file : exists (d : list Z) fs data, length data = 200%nat /\ fs_rep d fs {[ [97] := data ]}.
Proof.
  destruct sample_formatted as (d & fs & dir & fm & Hinv & Hf).
  pose proof (Create_ok garbage d fs dir fm [97] 200 Hinv ltac:(repeat constructor; unfold is_byte; lia) ltac:(lia)) as HC.
  rewrite (create_fits_room d fs dir fm [97] 200 Hinv), Hf in HC.
  change (room_for ∅ [97] 200) with true in HC. change (200 <=? MaxFileSize) with true in HC.
  destruct HC as (d' & dir' & fm' & h & _ & Hinv' & Hhw & Hhn & Hfiles').
  exists d', fs, (file_data d' h). split.
  - rewrite length_file_data; [by rewrite Hhn|apply Hinv'|done].
  - exists dir', fm'. split; [exact Hinv'|]. rewrite Hfiles'. reflexivity.
Qed.

Lemma filesystem_format_witness :
  exists d' fs, newFileSystem garbage blank_image true = Ok (d', fs) /\ fs_rep d' fs ∅.
Proof. exact (proj1 (filesystem_format (H := image_store) garbage blank_image blank_image_ok)). Defined.

Lemma create_correct_witness :
  exists (d : list Z) fs d' data, Create garbage d fs [102; 49] 300 = Ok (d', true) /\
    length data = 300%nat /\ fs_rep d' fs {[ [102; 49] := data ]}.
Proof.
  destruct sample_formatted as (d & fs & Hrep).
  pose proof (create_correct garbage d fs ∅ [102; 49] 300 Hrep ltac:(repeat constructor; unfold is_byte; lia) ltac:(lia)) as HC.
  change (room_for ∅ [102; 49] 300) with true in HC. change (300 <=? MaxFileSize) with true in HC.
  destruct HC as (d' & data & HC & Hl & Hrep'). exists d, fs, d', data.
  split; [exact HC|]. split; [lia|exact Hrep'].
Defined.

Lemma open_correct_witness :
  exists (d : list Z) fs f, Open garbage d fs [97] = Ok (Some f) /\ Length f = 200 /\ Open garbage d fs [98] = Ok None.
Proof.
  destruct sample_one_file as (d & fs & data & Hl & Hrep).
  pose proof (open_correct garbage d fs _ [97] Hrep) as H1. pose proof (open_correct garbage d fs _ [98] Hrep) as H2.
  change (key [97]) with [97] in H1. change (key [98]) with [98] in H2.
  rewrite lookup_singleton_eq in H1. rewrite lookup_singleton_ne in H2 by discriminate.
  destruct H1 as (f & H1 & _ & _ & Hlen & _). exists d, fs, f. split; [exact H1|]. split; [lia|exact H2].
Defined.

Lemma remove_correct_witness :
  exists (d : list Z) fs d', Remove garbage d fs [97] = Ok (d', true) /\ fs_rep d' fs ∅.
Proof.
  destruct sample_one_file as (d & fs & data & Hl & Hrep).
  pose proof (remove_correct garbage d fs _ [97] Hrep) as H1. change (key [97]) with [97] in H1.
  rewrite lookup_singleton_eq in H1. destruct H1 as (d' & H1 & Hrep' & _).
  rewrite delete_singleton_eq in Hrep'. exists d, fs, d'. split; [exact H1|exact Hrep'].
Defined.

Lemma file_write_isolated_witness :
  exists (d : list Z) fs f d', Open garbage d fs [97] = Ok (Some f) /\
    WriteAt garbage d f (replicate 50 7) 50 190 = Ok (d', 10).
Proof.
  destruct sample_one_file as (d & fs & data & Hl & Hrep). pose proof Hrep as (dir & fm & Hinv & Hfiles).
  assert (exists f, Open garbage d fs [97] = Ok (Some f)) as [f HO].
  { rewrite (Open_ok garbage d fs dir fm [97] Hinv). change (key [97]) with [97].
    destruct (dir_map dir !! [97]) eqn:E; [eexists; reflexivity|]. exfalso.
    apply (fs_files_None d) in E. rewrite Hfiles, lookup_singleton_eq in E. discriminate. }
  assert (is_int 190 /\ is_int (190 + 50)) as [I1 I2] by (unfold is_int; lia).
  destruct (file_write_isolated garbage d fs _ [97] data f (replicate 50 7) 50 190 Hrep
    ltac:(change (key [97]) with [97]; apply lookup_singleton_eq) HO ltac:(lia) I1 I2
    ltac:(apply Forall_replicate; unfold is_byte; lia) ltac:(rewrite length_replicate; lia)) as (d' & HW & _).
  rewrite Hl in HW. exists d, fs, f, d'. split; [exact HO|exact HW].
Defined.

Lemma copy_print_roundtrip_witness :
  exists (d : list Z) fs d', Copy garbage d fs (Some (replicate 300 42)) [98] = Ok d' /\
    Print garbage d' fs [98] = Ok (Some (replicate 300 42)).
Proof.
  destruct sample_formatted as (d & fs & Hrep).
  destruct (copy_print_roundtrip garbage d fs ∅ [98] (replicate 300 42) Hrep
    ltac:(repeat constructor; unfold is_byte; lia) ltac:(apply Forall_replicate; unfold is_byte; lia)
    ltac:(vm_compute; discriminate) ltac:(vm_compute; reflexivity)) as (d' & HC & _ & HP).
  exists d, fs, d'. split; [exact HC|exact HP].
Defined.
