(* ===== verification/FsDump.v ===== *)
(** * The dump of the file system (Print of src/code/filesys/filehdr.cc,
    directory.cc, filesys.cc and of src/code/lib/bitmap.cc)

    What the option [-D] of the kernel prints: the headers and contents of the
    free map and of the directory, the numbers of the sectors in use, and every
    file with its name, its sectors and its bytes.  The text is stated from the
    abstract content of the files, in lines of one sector each. *)

From stdpp Require Import strings.
From S2P Require Import Prelude Text Bitmap Lists Interrupt Disk FileHdr OpenFile PBitmap Directory FileSys.

(** [printf("%x", c)] of an unsigned character *)
Definition hex_digit (n : Z) : Z := if n <? 10 then 48 + n else 87 + n.
Definition hex (c : Z) : list Z := if c <? 16 then [hex_digit c] else [hex_digit (c / 16); hex_digit (c mod 16)].

(** The two branches of the innermost loop of [FileHeader::Print]. *)
Definition print_char (c : Z) : list Z := if (32 <=? c) && (c <=? 126) then [c] else 92 :: hex c.

(** [Bitmap::Print] *)
Definition BitmapPrint (b : Bitmap) : outcome (list Z) :=
  out ← for_range 0 (numBits b) (fun i out =>
    t ← Test b i;
    Ok (if (t : bool) then out ++ number i ++ text ", " else out)) (text "Bitmap set:" ++ [newline]);
  Ok (out ++ [newline]).

Section print.
Context {D : Type} `{BlockStore D} (uninit : nat -> list Z).

(** The loop over [j] and [k]: it ends with the sector or with the file. *)
Definition print_sector (data : list Z) (fileSize k : Z) (out : list Z) : outcome (Z * list Z) :=
  r ← for_until 0 SectorSize (fun j '(k, out) =>
        if k <? fileSize then
          c ← arr_get data j;
          k' ← int_add k 1;
          Ok (inl (k', out ++ print_char c))
        else Ok (inr (k, out))) (k, out);
  match r with inl s | inr s => Ok s end.

(** [FileHeader::Print] *)
Definition FileHeaderPrint (d : D) (h : FileHeader) : outcome (list Z) :=
  let out := text "FileHeader contents.  File size: " ++ number (numBytes h) ++ text ".  File blocks:" ++ [newline] in
  out ← for_range 0 (numSectors h) (fun i out =>
    s ← arr_get (dataSectors h) i; Ok (out ++ number s ++ text " ")) out;
  let out := out ++ [newline] ++ text "File contents:" ++ [newline] in
  '(_, out) ← for_range 0 (numSectors h) (fun i '(k, out) =>
    s ← arr_get (dataSectors h) i;
    data ← bs_read d s;
    '(k, out) ← print_sector data (numBytes h) k out;
    Ok (k, out ++ [newline])) (0, out);
  Ok out.

(** [Directory::Print] *)
Definition DirectoryPrint (d : D) (dir : Directory) : outcome (list Z) :=
  out ← for_range 0 (tableSize dir) (fun i out =>
    e ← arr_get (table dir) i;
    if inUse e then
      nm ← Directory.print_string (name e);
      hdr ← FileHdr.FetchFrom d (sector e);
      dump ← FileHeaderPrint d hdr;
      Ok (out ++ text "Name: " ++ nm ++ text ", Sector: " ++ number (sector e) ++ [newline] ++ dump)
    else Ok out) (text "Directory contents:" ++ [newline]);
  Ok (out ++ [newline]).

(** [FileSystem::Print] *)
Definition FileSystemPrint (d : D) (fs : FileSystem) : outcome (list Z) :=
  freeMap ← openPersistentBitmap uninit d (freeMapFile fs) NumSectors;
  directory ← newDirectory uninit NumDirEntries;
  bitHdr ← FileHdr.FetchFrom d FreeMapSector;
  bits ← FileHeaderPrint d bitHdr;
  dirHdr ← FileHdr.FetchFrom d DirectorySector;
  dirs ← FileHeaderPrint d dirHdr;
  used ← BitmapPrint freeMap;
  directory ← Directory.FetchFrom uninit d (directoryFile fs) directory;
  files ← DirectoryPrint d directory;
  Ok (text "Bit map file header:" ++ [newline] ++ bits ++
      text "Directory file header:" ++ [newline] ++ dirs ++ used ++ files).

(** ** The text, from the abstract contents *)

(** The content of a file in lines of one sector. *)
Definition file_lines (n : nat) (data : list Z) : list Z :=
  concat ((fun i => concat (print_char <$> take 128 (drop (128 * i) data)) ++ [newline]) <$> seq 0 n).

Definition file_dump (sectors data : list Z) : list Z :=
  text "FileHeader contents.  File size: " ++ number (Z.of_nat (length data)) ++ text ".  File blocks:" ++ [newline] ++
  concat ((fun s => number s ++ text " ") <$> sectors) ++
  [newline] ++ text "File contents:" ++ [newline] ++ file_lines (length sectors) data.

Definition entry_dump (d : D) (e : DirectoryEntry) : list Z :=
  text "Name: " ++ c_string (name e) ++ text ", Sector: " ++ number (sector e) ++ [newline] ++
  file_dump (used_sectors (hdr_at d (sector e))) (file_data d (hdr_at d (sector e))).

Definition used_dump (fm : Bitmap) : list Z :=
  text "Bitmap set:" ++ [newline] ++
  concat ((fun i => number i ++ text ", ") <$> filter (fun i => bit fm i = true) (seqZ 0 (numBits fm))) ++ [newline].

Definition fs_dump (d : D) (fs : FileSystem) (dir : Directory) (fm : Bitmap) : list Z :=
  text "Bit map file header:" ++ [newline] ++ file_dump (used_sectors (hdr (freeMapFile fs))) (map_bytes (map fm)) ++
  text "Directory file header:" ++ [newline] ++ file_dump (used_sectors (hdr (directoryFile fs))) (table_bytes (table dir)) ++
  used_dump fm ++
  text "Directory contents:" ++ [newline] ++ concat (entry_dump d <$> in_use (table dir)) ++ [newline].

(** The names that [%s] can print. *)
Definition terminated (e : DirectoryEntry) : Prop := 0 ∈ name e.
#[export] Instance terminated_dec e : Decision (terminated e).
Proof. unfold terminated. apply _. Defined.
End print.

(** ** Lemmas *)

(** A loop over an index that appends, element by element, what [f] gives. *)
Section append_loop.
Context {A : Type} (f : A -> outcome (list Z)) (l : list A) (body : Z -> list Z -> outcome (list Z)).
Context (Hbody : forall i x out, l !! Z.to_nat i = Some x -> 0 <= i -> body i out = r ← f x; Ok (out ++ r)).

Lemma append_from post pre out :
  l = pre ++ post ->
  for_from (length post) (Z.of_nat (length pre)) body out = rs ← mapM f post; Ok (out ++ concat rs).
Proof.
  revert pre out. induction post as [|x post IH]; intros pre out Hl; cbn [length for_from mapM].
  { cbn. by rewrite app_nil_r. }
  rewrite (Hbody _ x); [|rewrite Hl, Nat2Z.id; by apply list_lookup_middle|lia].
  destruct (f x) as [r|e]; [|done]. cbn [mbind outcome_bind].
  replace (Z.of_nat (length pre) + 1) with (Z.of_nat (length (pre ++ [x]))) by (rewrite length_app; cbn; lia).
  rewrite IH by (by rewrite <- app_assoc). destruct (mapM f post) as [rs|e]; [|done].
  cbn. by rewrite <- app_assoc.
Qed.

Lemma append_loop out :
  for_range 0 (Z.of_nat (length l)) body out = rs ← mapM f l; Ok (out ++ concat rs).
Proof. unfold for_range. rewrite Z.sub_0_r, Nat2Z.id. by apply (append_from l []). Qed.

Lemma append_loop_ok g out :
  (forall x, x ∈ l -> f x = Ok (g x)) ->
  for_range 0 (Z.of_nat (length l)) body out = Ok (out ++ concat (g <$> l)).
Proof.
  intros Hf. rewrite append_loop. assert (mapM f l = Ok (g <$> l)) as ->; [|done].
  clear Hbody. induction l as [|x l' IH]; [done|]. cbn. rewrite Hf by left. cbn.
  rewrite IH; [done|]. intros y Hy. apply Hf. by right.
Qed.

Lemma append_loop_err e x out :
  x ∈ l -> f x = Err e -> (forall y, y ∈ l -> f y = Err e \/ exists r, f y = Ok r) ->
  for_range 0 (Z.of_nat (length l)) body out = Err e.
Proof.
  intros Hx Hf Hall. rewrite append_loop. assert (mapM f l = Err e) as ->; [|done].
  clear Hbody. induction l as [|y l' IH]; [by apply elem_of_nil in Hx|]. cbn.
  destruct (Hall y) as [-> | [r Hr]]; [left|done|]. rewrite Hr. cbn. rewrite IH; [done| |].
  - apply elem_of_cons in Hx as [-> |]; [congruence|done].
  - intros z Hz. apply Hall. by right.
Qed.
End append_loop.

Lemma print_name_ok s : 0 ∈ s -> Directory.print_string s = Ok (c_string s).
Proof.
  induction s as [|c s IH]; intros Hs; [by apply elem_of_nil in Hs|]. cbn. destruct (Z.eqb_spec c 0); [done|].
  rewrite IH; [done|]. apply elem_of_cons in Hs as [|]; [congruence|done].
Qed.

Lemma print_name_runs_past s : 0 ∉ s -> Directory.print_string s = Err Undefined.
Proof.
  induction s as [|c s IH]; intros Hs; [done|]. apply not_elem_of_cons in Hs as [Hc Hs]. cbn.
  destruct (Z.eqb_spec c 0); [done|]. by rewrite IH.
Qed.

Lemma BitmapPrint_ok b : bitmap_wf b -> BitmapPrint b = Ok (used_dump b).
Proof.
  intros Hwf. pose proof (wf_pos _ Hwf). unfold BitmapPrint.
  destruct (for_range_ind (fun i out => out = text "Bitmap set:" ++ [newline] ++
      concat ((fun i => number i ++ text ", ") <$> filter (fun j => bit b j = true) (seqZ 0 i)))
    (fun i out => t ← Test b i; Ok (if (t : bool) then out ++ number i ++ text ", " else out)) 0 (numBits b)
    (text "Bitmap set:" ++ [newline])) as (c & -> & ->); [lia|done| |].
  - intros i c Hi ->. rewrite (Test_spec b Hwf) by lia. cbn [mbind outcome_bind]. eexists. split; [done|].
    rewrite seqZ_snoc, filter_app, Z.add_0_l, fmap_app, concat_app by lia. destruct (bit b i) eqn:Hbi.
    + rewrite filter_cons_True, filter_nil by done. cbn [fmap list_fmap concat]. by rewrite app_nil_r, <- !app_assoc.
    + rewrite filter_cons_False, filter_nil by congruence. cbn [fmap list_fmap concat]. by rewrite app_nil_r.
  - cbn [mbind outcome_bind]. unfold used_dump. by rewrite <- !app_assoc.
Qed.

Section print_lemmas.
Context {D : Type} `{BlockStore D} `{!BlockStoreLaws D} (uninit : nat -> list Z) `{!Uninit uninit}.
Implicit Types (d : D) (h : FileHeader) (fs : FileSystem) (dir : Directory) (fm : Bitmap).

(** The inner loop prints the rest of the sector or of the file, what ends
    first. *)
Lemma sector_loop_ok data size n j k out :
  0 <= j -> 0 <= k -> is_int size -> length data = (Z.to_nat j + n)%nat ->
  let m := Z.to_nat (Z.max 0 (Z.min (Z.of_nat n) (size - k))) in
  let s := (k + Z.of_nat m, out ++ concat (print_char <$> take m (drop (Z.to_nat j) data))) in
  exists r, until_from n j (fun j '(k, out) =>
        if k <? size then
          c ← arr_get data j;
          k' ← int_add k 1;
          Ok (inl (k', out ++ print_char c))
        else Ok (inr (k, out))) (k, out) = Ok r /\ (r = inl s \/ r = inr s).
Proof.
  intros Hj Hk Hs. revert j k out Hj Hk. induction n as [|n IH]; intros j k out Hj Hk Hl m s.
  - eexists. split; [done|]. left. subst s m. replace (Z.to_nat _) with 0%nat by lia. cbn. rewrite app_nil_r.
    do 2 f_equal. lia.
  - cbn [until_from]. destruct (Z.ltb_spec k size) as [Hlt|Hge].
    + destruct (lookup_lt_is_Some_2 data (Z.to_nat j)) as [c Hc]; [lia|].
      rewrite (arr_get_Some data j c) by (done || lia). cbn [mbind outcome_bind].
      unfold int_add. replace (_ && _) with true by (unfold is_int in Hs; lia). cbn [mbind outcome_bind].
      destruct (IH (j + 1) (k + 1) (out ++ print_char c)) as (r & Hr & HR); [lia..|].
      exists r. split; [exact Hr|]. subst s m.
      set (m' := Z.to_nat (Z.max 0 (Z.min (Z.of_nat n) (size - (k + 1))))) in HR.
      replace (Z.to_nat (Z.max 0 (Z.min (Z.of_nat (S n)) (size - k)))) with (S m') by lia.
      rewrite (drop_S _ _ _ Hc). cbn [take fmap list_fmap concat].
      rewrite <- app_assoc in HR. replace (Z.to_nat (j + 1)) with (S (Z.to_nat j)) in HR by lia.
      replace (k + Z.of_nat (S m')) with (k + 1 + Z.of_nat m') by lia. exact HR.
    + eexists. split; [done|]. right. subst s m. replace (Z.to_nat _) with 0%nat by lia. cbn.
      rewrite app_nil_r. do 2 f_equal. lia.
Qed.

Lemma print_sector_ok data size k out :
  length data = 128%nat -> 0 <= k -> is_int size ->
  let m := Z.to_nat (Z.max 0 (Z.min 128 (size - k))) in
  print_sector data size k out = Ok (k + Z.of_nat m, out ++ concat (print_char <$> take m data)).
Proof.
  intros Hl Hk Hs m. unfold print_sector, for_until. change (Z.to_nat (SectorSize - 0)) with 128%nat.
  destruct (sector_loop_ok data size 128 0 k out) as (r & -> & HR); [lia|lia|done|done|].
  cbn [mbind outcome_bind]. change (Z.of_nat 128) with 128 in HR. by destruct HR as [-> | ->].
Qed.

(** What the sector holds of the file. *)
Lemma sector_of_file d h i s :
  bs_ok d -> header_wf h -> used_sectors h !! i = Some s ->
  let m := Z.to_nat (Z.max 0 (Z.min 128 (numBytes h - 128 * Z.of_nat i))) in
  take m (bs_sector d s) = take 128 (drop (128 * i) (file_data d h)).
Proof.
  intros Hd Hw Hs m. pose proof (length_file_data d h Hd Hw) as Hl.
  assert (length (bs_sector d s) = 128%nat) as Hls.
  { by rewrite bs_sector_length by (done || by apply (Forall_lookup_1 _ _ _ _ (hw_disk _ Hw) Hs)). }
  apply list_eq. intros j. destruct (decide (j < m)%nat) as [Hj|Hj].
  - rewrite !lookup_take_lt, lookup_drop by lia. by rewrite (lookup_file_data d h i j s) by (done || lia).
  - rewrite !lookup_ge_None_2; [done|rewrite length_take, length_drop; lia|rewrite length_take; lia].
Qed.

Lemma file_lines_S n data :
  file_lines (S n) data = file_lines n data ++ concat (print_char <$> take 128 (drop (128 * n) data)) ++ [newline].
Proof.
  unfold file_lines. rewrite seq_S, fmap_app, concat_app, Nat.add_0_l. cbn [fmap list_fmap concat].
  by rewrite app_nil_r.
Qed.

Lemma contents_loop_ok d h out :
  bs_ok d -> header_wf h ->
  exists k, for_range 0 (numSectors h) (fun i '(k, out) =>
    s ← arr_get (dataSectors h) i;
    data ← bs_read d s;
    '(k, out) ← print_sector data (numBytes h) k out;
    Ok (k, out ++ [newline])) (0, out) = Ok (k, out ++ file_lines (Z.to_nat (numSectors h)) (file_data d h)).
Proof.
  intros Hd Hw. pose proof (header_wf_sectors h Hw). pose proof (header_length h Hw) as Hlen.
  pose proof (hw_bytes _ Hw) as Hb. change MaxFileSize with 3840 in Hb.
  match goal with |- context [for_range _ _ ?b _] => set (body := b) end.
  destruct (for_range_ind (fun i '(k, o) => k = Z.min (128 * i) (numBytes h) /\
      o = out ++ file_lines (Z.to_nat i) (file_data d h)) body 0 (numSectors h) (0, out))
    as ([k o] & -> & _ & ->); [lia|split; [lia|by rewrite app_nil_r]| |by exists k].
  intros i [k o] Hi [-> ->]. unfold body. clear body.
  destruct (used_lookup h i Hw Hi) as (s & Hs & Hin & Hbs). unfold ByteToSector in Hbs.
  rewrite Z.quot_mul in Hbs by done. rewrite Hbs. cbn [mbind outcome_bind].
  rewrite (bs_read_ok d s Hd Hin). cbn [mbind outcome_bind].
  rewrite print_sector_ok; [|by rewrite bs_sector_length|lia|unfold is_int; lia]. cbn [mbind outcome_bind].
  eexists. split; [done|]. split; [lia|].
  replace (Z.to_nat (i + 1)) with (S (Z.to_nat i)) by lia.
  rewrite file_lines_S, <- (sector_of_file d h (Z.to_nat i) s Hd Hw Hs), <- !app_assoc.
  by replace (Z.min (128 * i) (numBytes h)) with (128 * Z.of_nat (Z.to_nat i)) by lia.
Qed.

(** A header prints as the dump of the file's bytes. *)
Lemma FileHeaderPrint_ok d h :
  bs_ok d -> header_wf h -> FileHeaderPrint d h = Ok (file_dump (used_sectors h) (file_data d h)).
Proof.
  intros Hd Hw. unfold FileHeaderPrint. pose proof (length_used h Hw) as Hu. pose proof (header_wf_sectors h Hw).
  match goal with |- context [for_range 0 (numSectors h) ?b ?o] =>
    assert (for_range 0 (numSectors h) b o = Ok (o ++ concat ((fun s => number s ++ text " ") <$> used_sectors h))) as -> end.
  { replace (numSectors h) with (Z.of_nat (length (used_sectors h))) by lia.
    apply (append_loop_ok (fun s => Ok (number s ++ text " "))); [|done]. intros i s out Hs Hi.
    rewrite (arr_get_Some _ _ s); [done|done|]. unfold used_sectors in Hs. by apply lookup_take_Some in Hs as [? _]. }
  cbn [mbind outcome_bind].
  match goal with |- context [for_range 0 _ _ (0, ?o)] =>
    destruct (contents_loop_ok d h o Hd Hw) as (k & ->) end.
  cbn [mbind outcome_bind]. unfold file_dump. rewrite (length_file_data d h Hd Hw), Hu.
  rewrite Z2Nat.id by (pose proof (hw_bytes _ Hw); lia). by rewrite <- !app_assoc.
Qed.

Lemma fetch_header d s : bs_ok d -> in_disk s = true -> FileHdr.FetchFrom d s = Ok (hdr_at d s).
Proof. intros Hd Hs. unfold FileHdr.FetchFrom. by rewrite bs_read_ok. Qed.

(** One entry of the directory, as the loop of [Directory::Print] prints it. *)
Definition print_entry d (e : DirectoryEntry) : outcome (list Z) :=
  if inUse e then
    nm ← Directory.print_string (name e);
    hdr ← FileHdr.FetchFrom d (sector e);
    dump ← FileHeaderPrint d hdr;
    Ok (text "Name: " ++ nm ++ text ", Sector: " ++ number (sector e) ++ [newline] ++ dump)
  else Ok [].

Lemma print_entry_ok d e :
  bs_ok d -> in_disk (sector e) = true -> header_wf (hdr_at d (sector e)) -> inUse e = true ->
  print_entry d e = if decide (terminated e) then Ok (entry_dump d e) else Err Undefined.
Proof.
  intros Hd Hs Hw Hu. unfold print_entry. rewrite Hu. case_decide as Ht; [|by rewrite print_name_runs_past].
  rewrite print_name_ok by done. cbn [mbind outcome_bind]. rewrite fetch_header by done.
  cbn [mbind outcome_bind]. by rewrite FileHeaderPrint_ok.
Qed.

Lemma concat_filter {A} (g : A -> list Z) (P : A -> bool) l :
  concat ((fun x => if P x then g x else []) <$> l) = concat (g <$> filter (fun x => P x = true) l).
Proof.
  induction l as [|x l IH]; [done|]. rewrite filter_cons. cbn. rewrite IH.
  destruct (P x), (decide _); congruence || done.
Qed.

Lemma elem_of_in_use t e : e ∈ t -> inUse e = true -> e ∈ in_use t.
Proof. intros He Hu. by apply list_elem_of_filter. Qed.

Lemma DirectoryPrint_ok d dir :
  bs_ok d -> dir_wf dir ->
  (forall e, e ∈ in_use (table dir) -> in_disk (sector e) = true /\ header_wf (hdr_at d (sector e))) ->
  DirectoryPrint d dir =
    if decide (Forall terminated (in_use (table dir)))
    then Ok (text "Directory contents:" ++ [newline] ++ concat (entry_dump d <$> in_use (table dir)) ++ [newline])
    else Err Undefined.
Proof.
  intros Hd Hw Hf. unfold DirectoryPrint. rewrite <- (dw_size _ Hw).
  match goal with |- context [for_range 0 _ ?b _] => set (body := b) end.
  assert (forall i e out, table dir !! Z.to_nat i = Some e -> 0 <= i ->
    body i out = r ← print_entry d e; Ok (out ++ r)) as Hb.
  { intros i e out He Hi. unfold body, print_entry. rewrite (arr_get_Some _ _ e) by done. cbn [mbind outcome_bind].
    destruct (inUse e); [|cbn; by rewrite app_nil_r]. destruct (Directory.print_string _); [|done].
    destruct (FileHdr.FetchFrom _ _); [|done]. cbn [mbind outcome_bind]. by destruct (FileHeaderPrint _ _). }
  assert (forall e, e ∈ table dir -> print_entry d e =
    if inUse e then if decide (terminated e) then Ok (entry_dump d e) else Err Undefined else Ok []) as He.
  { intros e He. destruct (inUse e) eqn:Hu; [|unfold print_entry; by rewrite Hu].
    destruct (Hf e) as [??]; [by apply elem_of_in_use|]. by apply print_entry_ok. }
  case_decide as Ht.
  - rewrite (append_loop_ok (print_entry d) _ _ Hb (fun e => if inUse e then entry_dump d e else [])).
    { cbn [mbind outcome_bind]. rewrite concat_filter, <- !app_assoc. done. }
    intros e Hin. rewrite He by done. destruct (inUse e) eqn:Hu; [|done].
    rewrite Forall_forall in Ht. by rewrite decide_True by (by apply Ht, elem_of_in_use).
  - apply not_Forall_Exists, Exists_exists in Ht as (e & Hin & Hn); [|apply _].
    apply list_elem_of_filter in Hin as [Hu Hin].
    rewrite (append_loop_err (print_entry d) _ _ Hb Undefined e); [done|done| |].
    + rewrite He, Hu by done. by rewrite decide_False.
    + intros y Hy. rewrite He by done. destruct (inUse y); [|eauto]. case_decide; eauto.
Qed.

Lemma FileSystemPrint_ok d fs dir fm :
  fs_inv d fs dir fm ->
  FileSystemPrint uninit d fs =
    if decide (Forall terminated (in_use (table dir))) then Ok (fs_dump d fs dir fm) else Err Undefined.
Proof.
  intros Hinv. unfold FileSystemPrint. rewrite (fetch_map_ok uninit _ _ _ _ Hinv). cbn [mbind outcome_bind].
  pose proof (fetch_directory_ok uninit _ _ _ _ Hinv) as Hfd. unfold fetch_directory in Hfd.
  destruct (newDirectory uninit NumDirEntries) as [dir0|]; [|done]. cbn [mbind outcome_bind] in Hfd |- *.
  pose proof (fi_disk _ _ _ _ Hinv) as Hd. destruct (fi_mapfile _ _ _ _ Hinv) as (Hmw & _ & Hmh).
  destruct (fi_dirfile _ _ _ _ Hinv) as (Hdw & _ & Hdh). destruct (fi_map _ _ _ _ Hinv) as (Hfw & _ & Hfd').
  destruct (fi_dir _ _ _ _ Hinv) as (Hww & _ & Hdd).
  rewrite (fetch_header d FreeMapSector) by done. cbn [mbind outcome_bind]. rewrite Hmh, FileHeaderPrint_ok, Hfd' by done. cbn [mbind outcome_bind].
  rewrite (fetch_header d DirectorySector) by done. cbn [mbind outcome_bind]. rewrite Hdh, FileHeaderPrint_ok, Hdd by done. cbn [mbind outcome_bind].
  rewrite BitmapPrint_ok by done. cbn [mbind outcome_bind]. rewrite Hfd. cbn [mbind outcome_bind].
  rewrite DirectoryPrint_ok; [|done|done|].
  - case_decide; [|done]. cbn [mbind outcome_bind]. done.
  - intros e He. split; [apply (blocks_in_disk _ _ _ _ Hinv), (file_blocks_in _ _ _ e _ He); left|].
    pose proof (fi_files _ _ _ _ Hinv) as Hfi. rewrite Forall_forall in Hfi. by apply Hfi.
Qed.
End print_lemmas.

(** ** Properties *)

(** The dump of a file system in order ends; it shows the
    sectors in use and, for every file, its name, its sectors and its bytes in
    lines of one sector.  A file whose name has no terminator makes the dump run
    past the array. *)
Theorem dump_correct {D} `{BlockStore D} `{!BlockStoreLaws D} (uninit : nat -> list Z) `{!Uninit uninit}
    (d : D) fs dir fm :
  fs_inv d fs dir fm ->
  FileSystemPrint uninit d fs =
    if decide (Forall terminated (in_use (table dir))) then Ok (fs_dump d fs dir fm) else Err Undefined.
Proof. apply FileSystemPrint_ok, _. Qed.

(** The text does not determine the file: a byte below 32 followed by a digit
    prints like one byte with two hexadecimal digits. *)
Lemma dump_ambiguous : file_lines 1 [1; 50] = file_lines 1 [18].
Proof. reflexivity. Qed.

(** A freshly formatted disk has no file to trip over. *)
Lemma dump_correct_witness :
  exists (d : list Z) fs out, FileSystemPrint garbage d fs = Ok out.
Proof.
  destruct (format_ok (H := image_store) garbage blank_image blank_image_ok) as (d & fs & dir & fm & _ & Hinv & Hf).
  exists d, fs. pose proof (dump_correct garbage d fs dir fm Hinv) as Hp.
  rewrite decide_True in Hp; [by eexists|]. apply Forall_forall. intros e He. exfalso.
  pose proof (size_fs_files d dir (proj1 (fi_dir _ _ _ _ Hinv))) as Hs. rewrite Hf, map_size_empty in Hs.
  by destruct (in_use (table dir)); [apply elem_of_nil in He|].
Defined.
