(* ===== verification/Machine.v ===== *)
(** * The simulated machine (src/code/machine/machine.h, machine.cc,
    translate.h, translate.cc)

    Registers, physical memory, address translation and the global table of
    physical frames.  Page tables are shared between address spaces, the
    machine and the frame table by pointers; [tables] is the heap that holds
    them.  The kernel's reaction to an exception is the parameter
    [ExceptionHandler]. *)

From S2P Require Import Prelude Lists Interrupt.

Definition PageSize : Z := 128.
Definition NumPhysPages : Z := 128.
Definition MemorySize : Z := NumPhysPages * PageSize.
Definition TLBSize : Z := 4.

Inductive ExceptionType :=
  | NoException | SyscallException | PageFaultException | ReadOnlyException
  | BusErrorException | AddressErrorException | OverflowException | IllegalInstrException.

#[export] Instance ExceptionType_eq_dec : EqDecision ExceptionType.
Proof. solve_decision. Defined.

(** Register numbers of machine.h. *)
Definition StackReg : Z := 29.
Definition RetAddrReg : Z := 31.
Definition NumGPRegs : Z := 32.
Definition HiReg : Z := 32.
Definition LoReg : Z := 33.
Definition PCReg : Z := 34.
Definition NextPCReg : Z := 35.
Definition PrevPCReg : Z := 36.
Definition LoadReg : Z := 37.
Definition LoadValueReg : Z := 38.
Definition BadVAddrReg : Z := 39.
Definition NumTotalRegs : Z := 40.

Record TranslationEntry := mkTE {
  virtualPage : Z;
  physicalPage : Z;
  valid : bool;
  readOnly : bool;
  use : bool;
  dirty : bool;
  DiskFile : list Z;
}.

Record GlobalEntry := mkGlobal {
  VirNum : Z;
  useStamp : Z;
  RefPageTable : option positive;
}.

Record Machine := mkMachine {
  registers : list Z;
  mainMemory : list Z;
  GlobalPageTable : list GlobalEntry;
  tables : gmap positive (list TranslationEntry);
  tlb : option (list TranslationEntry);
  pageTable : option positive;
  pageTableSize : Z;
  FileAddr : list Z;
}.

(** Stores to one field of the machine. *)
Definition with_registers (r : list Z) (m : Machine) : Machine :=
  mkMachine r (mainMemory m) (GlobalPageTable m) (tables m) (tlb m) (pageTable m) (pageTableSize m) (FileAddr m).
Definition with_memory (mem : list Z) (m : Machine) : Machine :=
  mkMachine (registers m) mem (GlobalPageTable m) (tables m) (tlb m) (pageTable m) (pageTableSize m) (FileAddr m).
Definition with_global (g : list GlobalEntry) (m : Machine) : Machine :=
  mkMachine (registers m) (mainMemory m) g (tables m) (tlb m) (pageTable m) (pageTableSize m) (FileAddr m).
Definition with_tables (t : gmap positive (list TranslationEntry)) (m : Machine) : Machine :=
  mkMachine (registers m) (mainMemory m) (GlobalPageTable m) t (tlb m) (pageTable m) (pageTableSize m) (FileAddr m).
Definition with_tlb (t : list TranslationEntry) (m : Machine) : Machine :=
  mkMachine (registers m) (mainMemory m) (GlobalPageTable m) (tables m) (Some t) (pageTable m) (pageTableSize m) (FileAddr m).
Definition with_space (pt : option positive) (size : Z) (fa : list Z) (m : Machine) : Machine :=
  mkMachine (registers m) (mainMemory m) (GlobalPageTable m) (tables m) (tlb m) pt size fa.

(** [Machine::Machine], built without USE_TLB. *)
Definition newMachine : Machine :=
  mkMachine (replicate (Z.to_nat NumTotalRegs) 0) (replicate (Z.to_nat MemorySize) 0)
    (replicate (Z.to_nat NumPhysPages) (mkGlobal (-1) 0 None)) ∅ None None 0 [].

(** [Machine::ReadRegister], [Machine::WriteRegister] *)
Definition ReadRegister (m : Machine) (num : Z) : outcome Z :=
  _ ← ASSERT ((0 <=? num) && (num <? NumTotalRegs)); arr_get (registers m) num.
Definition WriteRegister (m : Machine) (num value : Z) : outcome Machine :=
  _ ← ASSERT ((0 <=? num) && (num <? NumTotalRegs));
  r ← arr_set (registers m) num value;
  Ok (with_registers r m).

(** [registers\[i\]] for the fixed and five-bit indices of the simulator, which
    are always in range. *)
Definition reg (m : Machine) (i : Z) : Z := default 0 (registers m !! Z.to_nat i).
Definition set_reg (i v : Z) (m : Machine) : Machine := with_registers (<[Z.to_nat i := v]> (registers m)) m.

(** [Machine::DelayedLoad] *)
Definition DelayedLoad (nextReg nextValue : Z) (m : Machine) : outcome Machine :=
  r ← arr_set (registers m) (reg m LoadReg) (reg m LoadValueReg);
  Ok (set_reg 0 0 (set_reg LoadValueReg nextValue (set_reg LoadReg nextReg (with_registers r m)))).

(** [WordToHost] and its companions on a little-endian host. *)
Definition WordToHost (word : Z) : Z := word.
Definition ShortToHost (shortword : Z) : Z := shortword.
Definition WordToMachine (word : Z) : Z := WordToHost word.
Definition ShortToMachine (shortword : Z) : Z := ShortToHost shortword.

(** A page table through its pointer. *)
Definition get_table (m : Machine) (p : option positive) : outcome (list TranslationEntry) :=
  match p with
  | None => Err Undefined
  | Some a => match tables m !! a with Some t => Ok t | None => Err Undefined end
  end.

Definition set_table (p : option positive) (t : list TranslationEntry) (m : Machine) : Machine :=
  match p with
  | None => m
  | Some a => with_tables (<[a := t]> (tables m)) m
  end.

(** [entry->use = TRUE; if (writing) entry->dirty = TRUE] *)
Definition touch (writing : bool) (e : TranslationEntry) : TranslationEntry :=
  mkTE (virtualPage e) (physicalPage e) (valid e) (readOnly e) true (if writing then true else dirty e) (DiskFile e).

(** [GlobalPageTable\[i\].useStamp += 1] *)
Definition stamp (i : Z) (m : Machine) : outcome Machine :=
  g ← arr_get (GlobalPageTable m) i;
  gt ← arr_set (GlobalPageTable m) i (mkGlobal (VirNum g) (useStamp g + 1) (RefPageTable g));
  Ok (with_global gt m).

(** The second half of [Machine::Translate], once the entry is found; [store]
    puts the touched entry back. *)
Definition use_entry (entry : TranslationEntry) (store : TranslationEntry -> outcome Machine) (m : Machine)
    (offset size : Z) (writing : bool) : outcome (Machine * (ExceptionType + Z)) :=
  if readOnly entry && writing then Ok (m, inl ReadOnlyException)
  else
    let pageFrame := to_uint (physicalPage entry) in
    if NumPhysPages <=? pageFrame then Ok (m, inl BusErrorException)
    else
      m ← store (touch writing entry);
      let physAddr := to_int (to_uint (pageFrame * PageSize + offset)) in
      m ← stamp (Z.quot physAddr PageSize) m;
      _ ← ASSERT ((0 <=? physAddr) && (physAddr + size <=? MemorySize));
      Ok (m, inr physAddr).

(** The search of the TLB. *)
Definition tlb_find (t : list TranslationEntry) (vpn : Z) : outcome (option (Z * TranslationEntry)) :=
  r ← for_until 0 TLBSize (fun i (_ : unit) =>
        e ← arr_get t i;
        Ok (if valid e && (virtualPage e =? to_int vpn) then inr (i, e) else inl tt)) tt;
  Ok (match r with inl _ => None | inr p => Some p end).

(** [Machine::Translate]: the exception, or the physical address. *)
Definition Translate (m : Machine) (virtAddr size : Z) (writing : bool)
  : outcome (Machine * (ExceptionType + Z)) :=
  if ((size =? 4) && negb (Z.land virtAddr 3 =? 0)) || ((size =? 2) && negb (Z.land virtAddr 1 =? 0))
  then Ok (m, inl AddressErrorException)
  else
    _ ← ASSERT (match tlb m, pageTable m with Some _, Some _ => false | _, _ => true end);
    _ ← ASSERT (match tlb m, pageTable m with None, None => false | _, _ => true end);
    let vpn := Z.quot (to_uint virtAddr) PageSize in
    let offset := Z.rem (to_uint virtAddr) PageSize in
    match tlb m with
    | None =>
        if pageTableSize m <=? vpn then Ok (m, inl AddressErrorException)
        else
          t ← get_table m (pageTable m);
          entry ← arr_get t vpn;
          if negb (valid entry) || (physicalPage entry =? -1) then Ok (m, inl PageFaultException)
          else use_entry entry (fun e => t' ← arr_set t vpn e; Ok (set_table (pageTable m) t' m))
                 m offset size writing
    | Some t =>
        found ← tlb_find t vpn;
        match found with
        | None => Ok (m, inl PageFaultException)
        | Some (i, entry) =>
            use_entry entry (fun e => t' ← arr_set t i e; Ok (with_tlb t' m)) m offset size writing
        end
    end.

(** [(int) c] of a [char] of the host. *)
Definition signed_char (b : Z) : Z := if b <? 128 then b else b - 256.

(** The access of [ReadMem] and [WriteMem] once the address is translated. *)
Definition read_phys (m : Machine) (physicalAddress size : Z) : outcome Z :=
  if size =? 1 then b ← buf_get (mainMemory m) physicalAddress 1; Ok (signed_char (le_value b))
  else if size =? 2 then b ← buf_get (mainMemory m) physicalAddress 2; Ok (ShortToHost (le_value b))
  else if size =? 4 then b ← buf_get (mainMemory m) physicalAddress 4; Ok (to_int (WordToHost (le_value b)))
  else Err AssertFailed.

Definition write_phys (m : Machine) (physicalAddress size value : Z) : outcome Machine :=
  if size =? 1 then
    mem ← buf_put (mainMemory m) physicalAddress (le_bytes 1 (Z.land value 0xff)); Ok (with_memory mem m)
  else if size =? 2 then
    mem ← buf_put (mainMemory m) physicalAddress (le_bytes 2 (ShortToMachine (Z.land value 0xffff)));
    Ok (with_memory mem m)
  else if size =? 4 then
    mem ← buf_put (mainMemory m) physicalAddress (le_bytes 4 (WordToMachine (to_uint value))); Ok (with_memory mem m)
  else Err AssertFailed.

(** [Machine::findFreeByLRU] *)
Definition findFreeByLRU (m : Machine) : outcome Z :=
  for_range 0 NumPhysPages (fun i mi =>
    g ← arr_get (GlobalPageTable m) i;
    _ ← ASSERT (match RefPageTable g with Some _ => true | None => false end);
    g' ← arr_get (GlobalPageTable m) mi;
    Ok (if useStamp g <? useStamp g' then i else mi)) 0.

(** [Machine::findFreeFrame] *)
Definition findFreeFrame (m : Machine) (virAddr : Z) (ref : option positive) : outcome (Machine * Z) :=
  r ← for_until 0 NumPhysPages (fun i (_ : unit) =>
        g ← arr_get (GlobalPageTable m) i;
        match RefPageTable g with
        | None =>
            gt ← arr_set (GlobalPageTable m) i (mkGlobal virAddr 0 ref);
            Ok (inr (with_global gt m, i))
        | Some _ => Ok (inl tt)
        end) tt;
  Ok (match r with inl _ => (m, -1) | inr p => p end).

(** ** The machine inside the kernel *)
Class MachineState (K : Type) := {
  k_machine : K -> Machine;
  set_machine : Machine -> K -> K;
}.

Section kernel.
Context {K : Type} `{InterruptState K} `{MachineState K}.
Context (ExceptionHandler : ExceptionType -> K -> outcome K).

(** [kernel->interrupt->setStatus(st)] *)
Definition setStatus (st : MachineStatus) (k : K) : K := set_int (with_status st (k_int k)) k.

(** [Machine::RaiseException] *)
Definition RaiseException (which : ExceptionType) (badVAddr : Z) (k : K) : outcome K :=
  m ← DelayedLoad 0 0 (set_reg BadVAddrReg badVAddr (k_machine k));
  k ← ExceptionHandler which (setStatus SystemMode (set_machine m k));
  Ok (setStatus UserMode k).

(** [Machine::ReadMem]: [None] is the result FALSE.  After a page fault the
    address is translated again and that result is not looked at: if it failed,
    the physical address used is uninitialised. *)
Definition ReadMem (addr size : Z) (k : K) : outcome (K * option Z) :=
  '(m, t) ← Translate (k_machine k) addr size false;
  let k := set_machine m k in
  match t with
  | inr p => v ← read_phys (k_machine k) p size; Ok (k, Some v)
  | inl e =>
      k ← RaiseException e addr k;
      if bool_decide (e = PageFaultException) then
        '(m, t) ← Translate (k_machine k) addr size false;
        match t with
        | inr p => v ← read_phys m p size; Ok (set_machine m k, Some v)
        | inl _ => Err Undefined
        end
      else Ok (k, None)
  end.

(** [Machine::WriteMem] *)
Definition WriteMem (addr size value : Z) (k : K) : outcome (K * bool) :=
  '(m, t) ← Translate (k_machine k) addr size true;
  let k := set_machine m k in
  match t with
  | inr p => m ← write_phys (k_machine k) p size value; Ok (set_machine m k, true)
  | inl e =>
      k ← RaiseException e addr k;
      if bool_decide (e = PageFaultException) then
        '(m, t) ← Translate (k_machine k) addr size true;
        match t with
        | inr p => m ← write_phys m p size value; Ok (set_machine m k, true)
        | inl _ => Err Undefined
        end
      else Ok (k, false)
  end.
End kernel.

(** ** What translation means *)

(** The page of a virtual address and the offset in it. *)
Definition vpn_of (virtAddr : Z) : Z := to_uint virtAddr / 128.
Definition offset_of (virtAddr : Z) : Z := to_uint virtAddr mod 128.
Definition misaligned (virtAddr size : Z) : bool :=
  ((size =? 4) && negb (virtAddr mod 4 =? 0)) || ((size =? 2) && negb (virtAddr mod 2 =? 0)).

(** The specification of [Translate] on a page table [t] of [n] pages. *)
Definition lookup_page (t : list TranslationEntry) (n virtAddr size : Z) (writing : bool) : ExceptionType + Z :=
  if misaligned virtAddr size then inl AddressErrorException
  else if n <=? vpn_of virtAddr then inl AddressErrorException
  else match t !! Z.to_nat (vpn_of virtAddr) with
  | None => inl AddressErrorException
  | Some e =>
      if negb (valid e) || (physicalPage e =? -1) then inl PageFaultException
      else if readOnly e && writing then inl ReadOnlyException
      else if (0 <=? physicalPage e) && (physicalPage e <? NumPhysPages)
      then inr (physicalPage e * PageSize + offset_of virtAddr)
      else inl BusErrorException
  end.

(** The machine of a running user program, built without a TLB. *)
Record space_wf (m : Machine) (t : list TranslationEntry) : Prop := {
  sw_tlb : tlb m = None;
  sw_table : exists a, pageTable m = Some a /\ tables m !! a = Some t;
  sw_size : 0 <= pageTableSize m <= Z.of_nat (length t);
  sw_entries : Forall (fun e => is_int (physicalPage e)) t;
  sw_global : length (GlobalPageTable m) = Z.to_nat NumPhysPages;
}.

Lemma land_mod x k : 0 <= k -> Z.land x (2 ^ k - 1) = x mod 2 ^ k.
Proof. intros. rewrite <- Z.land_ones by done. f_equal. rewrite Z.ones_equiv. lia. Qed.

Lemma to_uint_mod v n : 0 < n -> (2 ^ 32) mod n = 0 -> to_uint v mod n = v mod n.
Proof.
  intros Hn Hd. unfold to_uint. apply Z.mod_mod_divide.
  exists (2 ^ 32 / n). pose proof (Z.div_mod (2 ^ 32) n ltac:(lia)). lia.
Qed.

Lemma misaligned_land v size :
  ((size =? 4) && negb (Z.land v 3 =? 0)) || ((size =? 2) && negb (Z.land v 1 =? 0)) = misaligned v size.
Proof.
  unfold misaligned.
  change 3 with (2 ^ 2 - 1). change (Z.land v 1) with (Z.land v (2 ^ 1 - 1)). by rewrite !land_mod.
Qed.

(** An aligned access of 1, 2 or 4 bytes stays in its page. *)
Lemma aligned_fits v size :
  misaligned v size = false -> size = 1 \/ size = 2 \/ size = 4 -> 0 <= offset_of v /\ offset_of v + size <= 128.
Proof.
  intros Hm Hs. unfold offset_of. pose proof (Z.mod_pos_bound (to_uint v) 128 ltac:(lia)) as Hb.
  split; [lia|]. destruct Hs as [->|[->| ->]]; [lia| |]; unfold misaligned in Hm; cbn in Hm.
  - assert (v mod 2 = 0) as Hv by (destruct (Z.eqb_spec (v mod 2) 0); [done|discriminate]).
    assert ((to_uint v mod 128) mod 2 = 0).
    { rewrite <- Hv, <- (to_uint_mod v 2) by done. apply Z.mod_mod_divide. by exists 64. }
    pose proof (Z.div_mod (to_uint v mod 128) 2 ltac:(lia)). lia.
  - assert (v mod 4 = 0) as Hv by (destruct (Z.eqb_spec (v mod 4) 0); [done|discriminate]).
    assert ((to_uint v mod 128) mod 4 = 0).
    { rewrite <- Hv, <- (to_uint_mod v 4) by done. apply Z.mod_mod_divide. by exists 32. }
    pose proof (Z.div_mod (to_uint v mod 128) 4 ltac:(lia)). lia.
Qed.

(** What a successful or failed translation may change: the use and dirty bits
    and the use counts, nothing that affects later translations. *)
Record translated (m : Machine) (t : list TranslationEntry) (m' : Machine) (t' : list TranslationEntry) : Prop := {
  tr_regs : registers m' = registers m;
  tr_mem : mainMemory m' = mainMemory m;
  tr_size : pageTableSize m' = pageTableSize m;
  tr_file : FileAddr m' = FileAddr m;
  tr_space : space_wf m' t';
  tr_lookup v size w : lookup_page t' (pageTableSize m') v size w = lookup_page t (pageTableSize m) v size w;
}.

Lemma translated_refl m t : space_wf m t -> translated m t m t.
Proof. intros. by split. Qed.

Lemma lookup_page_touch t n i e w v size w' :
  t !! i = Some e -> lookup_page (<[i := touch w e]> t) n v size w' = lookup_page t n v size w'.
Proof.
  intros Hi. unfold lookup_page. do 2 (destruct (_ : bool); [done|]).
  destruct (decide (Z.to_nat (vpn_of v) = i)) as [<-|Hne].
  - rewrite list_lookup_insert_eq by by eapply lookup_lt_Some. by rewrite Hi.
  - by rewrite list_lookup_insert_ne.
Qed.

Lemma stamp_ok i m :
  0 <= i < Z.of_nat (length (GlobalPageTable m)) ->
  exists g, stamp i m = Ok (with_global g m) /\ length g = length (GlobalPageTable m).
Proof.
  intros Hi. unfold stamp. destruct (arr_get_lt (GlobalPageTable m) i Hi) as (g & _ & ->). cbn [mbind outcome_bind].
  rewrite arr_set_lt by done. cbn [mbind outcome_bind]. eexists. split; [done|]. by rewrite length_insert.
Qed.

Lemma Translate_ok m t v size w :
  space_wf m t -> size = 1 \/ size = 2 \/ size = 4 ->
  exists m' t', Translate m v size w = Ok (m', lookup_page t (pageTableSize m) v size w) /\ translated m t m' t' /\
    match lookup_page t (pageTableSize m) v size w with
    | inl _ => m' = m
    | inr p => 0 <= p /\ p + size <= MemorySize
    end.
Proof.
  intros Hsp Hs. pose proof Hsp as [Htlb (a & Hpt & Ha) Hsz Hent Hgl].
  unfold Translate, lookup_page. rewrite misaligned_land.
  destruct (misaligned v size) eqn:Hm; [exists m, t; split; [done|split; [by apply translated_refl|done]]|].
  rewrite Htlb, Hpt. cbn [ASSERT mbind outcome_bind].
  pose proof (to_uint_range v) as Hu. unfold is_uint in Hu.
  rewrite Z.quot_div_nonneg, Z.rem_mod_nonneg by (unfold PageSize; lia).
  change PageSize with 128. fold (vpn_of v) (offset_of v).
  destruct (Z.leb_spec (pageTableSize m) (vpn_of v)) as [Hle|Hlt]; [exists m, t; split; [done|split; [by apply translated_refl|done]]|].
  unfold get_table. rewrite Ha. cbn [mbind outcome_bind].
  assert (0 <= vpn_of v) as Hv0 by (unfold vpn_of; apply Z.div_pos; lia).
  destruct (arr_get_lt t (vpn_of v)) as (e & He & ->); [lia|]. cbn [mbind outcome_bind]. rewrite He.
  destruct (negb (valid e) || (physicalPage e =? -1)); [exists m, t; split; [done|split; [by apply translated_refl|done]]|].
  unfold use_entry. destruct (readOnly e && w); [exists m, t; split; [done|split; [by apply translated_refl|done]]|].
  pose proof (Forall_lookup_1 _ _ _ _ Hent He) as Hpi. cbn beta in Hpi. rewrite to_uint_cases by done.
  unfold is_int in Hpi. change NumPhysPages with 128. change PageSize with 128.
  destruct (Z.ltb_spec (physicalPage e) 0) as [Hneg|Hpos].
  { rewrite (proj2 (Z.leb_le 128 _)), (proj2 (Z.leb_gt 0 _)) by lia.
    exists m, t. split; [done|split; [by apply translated_refl|done]]. }
  rewrite (proj2 (Z.leb_le 0 (physicalPage e))) by lia. cbn [andb].
  destruct (Z.leb_spec 128 (physicalPage e)) as [Hbig|Hsmall].
  { rewrite (proj2 (Z.ltb_ge _ 128)) by lia. exists m, t. split; [done|split; [by apply translated_refl|done]]. }
  rewrite (proj2 (Z.ltb_lt _ 128)) by lia. rewrite arr_set_lt by lia. cbn [mbind outcome_bind set_table].
  destruct (aligned_fits v size Hm Hs) as [Ho1 Ho2].
  set (p := physicalPage e * 128 + offset_of v). assert (0 <= p < 16384) as Hp by lia.
  rewrite to_uint_id, to_int_id by (unfold is_uint, is_int; lia).
  rewrite Z.quot_div_nonneg by lia.
  replace (p / 128) with (physicalPage e) by (unfold p; rewrite Z.div_add_l, Z.div_small by lia; lia).
  set (m1 := with_tables _ m).
  destruct (stamp_ok (physicalPage e) m1) as (g & -> & Hg); [cbn; rewrite Hgl; change (Z.to_nat NumPhysPages) with 128%nat; lia|].
  cbn [mbind outcome_bind]. rewrite (proj2 (Z.leb_le 0 p)) by lia.
  rewrite (proj2 (Z.leb_le (p + size) MemorySize)) by (change MemorySize with 16384; lia).
  cbn [andb ASSERT mbind outcome_bind].
  exists (with_global g m1), (<[Z.to_nat (vpn_of v) := touch w e]> t). split; [done|].
  split; [|change MemorySize with 16384; lia].
  split; [done..| |].
  - split; cbn; [done| |by rewrite length_insert| |by rewrite Hg].
    + exists a. split; [done|]. apply lookup_insert_eq.
    + apply Forall_insert; [done|]. unfold is_int. cbn. lia.
  - intros v' size' w'. cbn. by apply lookup_page_touch.
Qed.

(** ** Registers *)
Lemma reg_set_reg m i j v :
  length (registers m) = Z.to_nat NumTotalRegs -> 0 <= i < NumTotalRegs -> 0 <= j ->
  reg (set_reg i v m) j = if i =? j then v else reg m j.
Proof.
  intros Hl Hi Hj. unfold reg, set_reg. cbn [registers with_registers].
  change NumTotalRegs with 40 in *. destruct (Z.eqb_spec i j) as [->|Hne].
  - by rewrite list_lookup_insert_eq by lia.
  - by rewrite list_lookup_insert_ne by lia.
Qed.

(** ** Physical memory *)
Record memory_wf (m : Machine) : Prop := {
  mw_length : length (mainMemory m) = Z.to_nat MemorySize;
  mw_bytes : Forall is_byte (mainMemory m);
}.

Definition trunc_value (size value : Z) : Z :=
  if size =? 1 then signed_char (Z.land value 0xff)
  else if size =? 2 then Z.land value 0xffff else to_int value.

(** The bytes that a store of [value] puts in memory. *)
Definition stored_bytes (size value : Z) : list Z := le_bytes (Z.to_nat size) value.

Lemma le_bytes_mod n z : le_bytes n (z mod 256 ^ Z.of_nat n) = le_bytes n z.
Proof.
  pose proof (le_bytes_value (le_bytes n z) (le_bytes_byte n z)) as Hb.
  rewrite length_le_bytes, le_value_bytes in Hb. done.
Qed.

Lemma write_phys_ok m p size value :
  memory_wf m -> size = 1 \/ size = 2 \/ size = 4 -> 0 <= p -> p + size <= MemorySize ->
  let m' := with_memory (splice (mainMemory m) (Z.to_nat p) (stored_bytes size value)) m in
  write_phys m p size value = Ok m' /\ memory_wf m' /\ read_phys m' p size = Ok (trunc_value size value).
Proof.
  intros [Hl Hb] Hs Hp Hps m'.
  assert (length (stored_bytes size value) = Z.to_nat size) as Hsl by apply length_le_bytes.
  assert (write_phys m p size value = Ok m') as HW.
  { unfold write_phys, ShortToMachine, WordToMachine, ShortToHost, WordToHost, m', stored_bytes.
    destruct Hs as [->|[->| ->]]; cbn [Z.eqb Pos.eqb].
    - change 255 with (2 ^ 8 - 1). rewrite land_mod by lia. change (2 ^ 8) with (256 ^ Z.of_nat 1). rewrite le_bytes_mod.
      rewrite buf_put_ok by (rewrite ?length_le_bytes; change MemorySize with 16384 in *; lia). done.
    - change 65535 with (2 ^ 16 - 1). rewrite land_mod by lia. change (2 ^ 16) with (256 ^ Z.of_nat 2). rewrite le_bytes_mod.
      rewrite buf_put_ok by (rewrite ?length_le_bytes; change MemorySize with 16384 in *; lia). done.
    - unfold to_uint. change (2 ^ 32) with (256 ^ Z.of_nat 4). rewrite le_bytes_mod.
      rewrite buf_put_ok by (rewrite ?length_le_bytes; change MemorySize with 16384 in *; lia). done. }
  split; [done|]. change MemorySize with 16384 in *.
  assert (length (splice (mainMemory m) (Z.to_nat p) (stored_bytes size value)) = length (mainMemory m)) as Hsp.
  { apply length_splice. lia. }
  split.
  - split; cbn; [by rewrite Hsp|]. unfold splice. apply Forall_app. split; [by apply Forall_take|].
    apply Forall_app. split; [apply le_bytes_byte|by apply Forall_drop].
  - assert (take (Z.to_nat size) (drop (Z.to_nat p) (mainMemory m')) = stored_bytes size value) as Htd.
    { unfold m', splice. cbn [mainMemory with_memory]. rewrite drop_app_length' by (rewrite length_take; lia).
      apply take_app_length'. lia. }
    unfold read_phys, trunc_value, ShortToHost, WordToHost.
    destruct Hs as [->|[->| ->]]; cbn [Z.eqb Pos.eqb]; rewrite buf_get_ok by (cbn [mainMemory m' with_memory]; lia);
      rewrite Htd; cbn [mbind outcome_bind]; unfold stored_bytes; rewrite le_value_bytes.
    + change 255 with (2 ^ 8 - 1). by rewrite land_mod by lia.
    + change 65535 with (2 ^ 16 - 1). by rewrite land_mod by lia.
    + f_equal. change (256 ^ Z.of_nat (Z.to_nat 4)) with (2 ^ 32). fold (to_uint value). apply to_int_to_uint.
Qed.

(** ** Frames *)

(** The first free frame, if any. *)
Lemma findFreeFrame_ok m virAddr ref :
  length (GlobalPageTable m) = Z.to_nat NumPhysPages ->
  (Forall (fun g => RefPageTable g <> None) (GlobalPageTable m) /\ findFreeFrame m virAddr ref = Ok (m, -1)) \/
  exists i g, GlobalPageTable m !! i = Some g /\ RefPageTable g = None /\
    (forall j g', (j < i)%nat -> GlobalPageTable m !! j = Some g' -> RefPageTable g' <> None) /\
    findFreeFrame m virAddr ref =
      Ok (with_global (<[i := mkGlobal virAddr 0 ref]> (GlobalPageTable m)) m, Z.of_nat i).
Proof.
  intros Hl. change (Z.to_nat NumPhysPages) with 128%nat in Hl. unfold findFreeFrame.
  edestruct (for_until_ind (fun k (_ : unit) => forall j g', Z.of_nat j < k -> GlobalPageTable m !! j = Some g' -> RefPageTable g' <> None)
    (fun r => exists i g, GlobalPageTable m !! i = Some g /\ RefPageTable g = None /\
       (forall j g', (j < i)%nat -> GlobalPageTable m !! j = Some g' -> RefPageTable g' <> None) /\
       r = (with_global (<[i := mkGlobal virAddr 0 ref]> (GlobalPageTable m)) m, Z.of_nat i))) as (r & HL & Hr);
    [| | |rewrite HL; clear HL]; [done|intros; lia| |].
  - intros i u Hi Hprev. change NumPhysPages with 128 in Hi.
    destruct (arr_get_lt (GlobalPageTable m) i) as (g & Hg & ->); [lia|]. cbn [mbind outcome_bind].
    destruct (RefPageTable g) eqn:Er.
    + eexists. split; [done|]. cbn beta iota. intros j g' Hj Hg'. destruct (decide (Z.of_nat j < i)); [by eapply Hprev|].
      replace j with (Z.to_nat i) in Hg' by lia. simplify_eq. congruence.
    + rewrite arr_set_lt by lia. cbn [mbind outcome_bind]. eexists. split; [done|]. exists (Z.to_nat i), g.
      split_and!; [done|done| |by rewrite Z2Nat.id by lia]. intros j g' Hj. apply Hprev. lia.
  - cbn [mbind outcome_bind]. destruct r as [u|p].
    + left. split; [|done]. apply Forall_lookup. intros j g Hj. eapply Hr; [|done].
      apply lookup_lt_Some in Hj. change NumPhysPages with 128. lia.
    + right. destruct Hr as (i & g & Hg & Hn & Hmin & ->). exists i, g. by split_and!.
Qed.

(** The least-used frame, the first of them if there are several. *)
Lemma findFreeByLRU_ok m :
  length (GlobalPageTable m) = Z.to_nat NumPhysPages -> Forall (fun g => RefPageTable g <> None) (GlobalPageTable m) ->
  exists i g, findFreeByLRU m = Ok (Z.of_nat i) /\ GlobalPageTable m !! i = Some g /\
    forall j g', GlobalPageTable m !! j = Some g' -> useStamp g <= useStamp g' /\ ((j < i)%nat -> useStamp g < useStamp g').
Proof.
  intros Hl Hall. change (Z.to_nat NumPhysPages) with 128%nat in Hl. unfold findFreeByLRU.
  edestruct (for_range_ind (fun k mi => 0 <= mi < 128 /\ mi <= Z.max 0 (k - 1) /\ forall g, GlobalPageTable m !! Z.to_nat mi = Some g ->
     forall j g', Z.of_nat j < k -> GlobalPageTable m !! j = Some g' ->
       useStamp g <= useStamp g' /\ (Z.of_nat j < mi -> useStamp g < useStamp g'))) as (mi & HL & Hmi & _ & Hr);
    [| | |rewrite HL; clear HL]; [done|split_and!; [lia|lia|lia|intros; lia]| |].
  - intros i mi Hi (Hmi & Hmk & Hprev). change NumPhysPages with 128 in Hi.
    destruct (arr_get_lt (GlobalPageTable m) i) as (g & Hg & ->); [lia|]. cbn [mbind outcome_bind].
    pose proof (Forall_lookup_1 _ _ _ _ Hall Hg) as Hne. cbn beta in Hne.
    destruct (RefPageTable g) as [r|] eqn:Er; [|done]. cbn [ASSERT mbind outcome_bind].
    destruct (arr_get_lt (GlobalPageTable m) mi) as (g1 & Hg1 & ->); [lia|]. cbn [mbind outcome_bind].
    eexists. split; [done|]. specialize (Hprev g1 Hg1).
    destruct (Z.ltb_spec (useStamp g) (useStamp g1)).
    + split; [lia|]. split; [lia|]. intros g0 Hg0 j g' Hj Hg'. assert (g0 = g) as -> by congruence.
      destruct (decide (Z.of_nat j < i)) as [Hlt|Hge].
      * destruct (Hprev j g' Hlt Hg'). lia.
      * replace j with (Z.to_nat i) in Hg' by lia. assert (g' = g) as -> by congruence. lia.
    + split; [lia|]. split; [lia|]. intros g0 Hg0 j g' Hj Hg'. assert (g0 = g1) as -> by congruence.
      destruct (decide (Z.of_nat j < i)) as [Hlt|Hge]; [by apply Hprev|].
      replace j with (Z.to_nat i) in Hg' by lia. assert (g' = g) as -> by congruence. lia.
  - destruct (lookup_lt_is_Some_2 (GlobalPageTable m) (Z.to_nat mi)) as [g Hg]; [lia|].
    exists (Z.to_nat mi), g. split_and!; [by rewrite Z2Nat.id by lia|done|]. intros j g' Hj.
    destruct (Hr g Hg j g') as [H1 H2]; [|done|].
    + apply lookup_lt_Some in Hj. change NumPhysPages with 128. lia.
    + split; [done|]. intros Hlt. apply H2. lia.
Qed.

Class MachineStateLaws (K : Type) `{InterruptState K} `{MachineState K} : Prop := {
  machine_set_machine m k : k_machine (set_machine m k) = m;
  set_machine_id k : set_machine (k_machine k) k = k;
  machine_set_int i k : k_machine (set_int i k) = k_machine k;
  int_set_machine m k : k_int (set_machine m k) = k_int k;
}.

Lemma lookup_page_read t n v size p : lookup_page t n v size true = inr p -> lookup_page t n v size false = inr p.
Proof.
  unfold lookup_page. do 2 (destruct (_ : bool); [done|]). destruct (t !! _) as [e|]; [|done].
  destruct (negb (valid e) || _); [done|]. destruct (readOnly e); cbn [andb]; [done|]. done.
Qed.

Section access.
Context {K : Type} `{InterruptState K} `{MachineState K} `{!MachineStateLaws K}.
Context (ExceptionHandler : ExceptionType -> K -> outcome K).
Implicit Types k : K.

Lemma translated_memory m t m' t' : translated m t m' t' -> memory_wf m -> memory_wf m'.
Proof. intros Ht [H1 H2]. split; by rewrite (tr_mem _ _ _ _ Ht). Qed.

(** Access to a page that is present. *)
Lemma ReadMem_ok k t addr size p :
  space_wf (k_machine k) t -> size = 1 \/ size = 2 \/ size = 4 ->
  lookup_page t (pageTableSize (k_machine k)) addr size false = inr p ->
  exists m' t', translated (k_machine k) t m' t' /\
    forall v, read_phys (k_machine k) p size = Ok v ->
      ReadMem ExceptionHandler addr size k = Ok (set_machine m' k, Some v).
Proof.
  intros Hsp Hs Hlk. destruct (Translate_ok _ _ addr size false Hsp Hs) as (m' & t' & HT & Htr & _).
  exists m', t'. split; [done|]. intros v Hv. unfold ReadMem. rewrite HT. cbn [mbind outcome_bind].
  rewrite Hlk, machine_set_machine. unfold read_phys in *. rewrite (tr_mem _ _ _ _ Htr), Hv. done.
Qed.

Lemma WriteMem_ok k t addr size value p :
  space_wf (k_machine k) t -> memory_wf (k_machine k) -> size = 1 \/ size = 2 \/ size = 4 ->
  lookup_page t (pageTableSize (k_machine k)) addr size true = inr p ->
  exists m' t', translated (k_machine k) t m' t' /\ 0 <= p /\ p + size <= MemorySize /\
    let m'' := with_memory (splice (mainMemory m') (Z.to_nat p) (stored_bytes size value)) m' in
    WriteMem ExceptionHandler addr size value k = Ok (set_machine m'' (set_machine m' k), true).
Proof.
  intros Hsp Hmw Hs Hlk. destruct (Translate_ok _ _ addr size true Hsp Hs) as (m' & t' & HT & Htr & Hp).
  rewrite Hlk in Hp. exists m', t'. split; [done|]. split; [lia|]. split; [lia|]. cbn zeta.
  pose proof (translated_memory _ _ _ _ Htr Hmw) as Hmw'.
  destruct (write_phys_ok m' p size value Hmw' Hs) as (HW & _); [lia|lia|].
  unfold WriteMem. rewrite HT. cbn [mbind outcome_bind]. rewrite Hlk, machine_set_machine, HW. done.
Qed.

(** An access that fails, other than by a page fault. *)
Lemma access_fault k t addr size value e :
  space_wf (k_machine k) t -> size = 1 \/ size = 2 \/ size = 4 -> e <> PageFaultException ->
  (lookup_page t (pageTableSize (k_machine k)) addr size false = inl e ->
   ReadMem ExceptionHandler addr size k = k' ← RaiseException ExceptionHandler e addr k; Ok (k', None)) /\
  (lookup_page t (pageTableSize (k_machine k)) addr size true = inl e ->
   WriteMem ExceptionHandler addr size value k = k' ← RaiseException ExceptionHandler e addr k; Ok (k', false)).
Proof.
  intros Hsp Hs Hne. split; intros Hlk.
  - destruct (Translate_ok _ _ addr size false Hsp Hs) as (m' & t' & HT & _ & Hm).
    rewrite Hlk in Hm. subst m'. unfold ReadMem. rewrite HT. cbn [mbind outcome_bind].
    rewrite Hlk, set_machine_id. by rewrite bool_decide_eq_false_2.
  - destruct (Translate_ok _ _ addr size true Hsp Hs) as (m' & t' & HT & _ & Hm).
    rewrite Hlk in Hm. subst m'. unfold WriteMem. rewrite HT. cbn [mbind outcome_bind].
    rewrite Hlk, set_machine_id. by rewrite bool_decide_eq_false_2.
Qed.

(** ** Properties of the component *)

(** C35: a word, halfword or byte stored at a writable mapped virtual address is
    read back from it (cut to its size), and the store changes no other byte
    of physical memory and no register; a store that is not allowed raises the
    exception that the page table calls for and stores nothing. *)
Theorem memory_roundtrip k t addr size value :
  space_wf (k_machine k) t -> memory_wf (k_machine k) -> size = 1 \/ size = 2 \/ size = 4 ->
  match lookup_page t (pageTableSize (k_machine k)) addr size true with
  | inr p => exists k' k'', WriteMem ExceptionHandler addr size value k = Ok (k', true) /\
      ReadMem ExceptionHandler addr size k' = Ok (k'', Some (trunc_value size value)) /\
      memory_wf (k_machine k') /\ registers (k_machine k') = registers (k_machine k) /\
      forall q, (Z.of_nat q < p \/ p + size <= Z.of_nat q) ->
        mainMemory (k_machine k') !! q = mainMemory (k_machine k) !! q
  | inl e => e <> PageFaultException ->
      WriteMem ExceptionHandler addr size value k = k' ← RaiseException ExceptionHandler e addr k; Ok (k', false)
  end.
Proof.
  intros Hsp Hmw Hs. destruct (lookup_page _ _ _ _ true) as [e|p] eqn:Hlk.
  { intros Hne. by apply (access_fault k t addr size value e). }
  destruct (WriteMem_ok k t addr size value p Hsp Hmw Hs Hlk) as (m1 & t1 & Htr & Hp0 & Hp1 & HW).
  pose proof (translated_memory _ _ _ _ Htr Hmw) as Hmw1.
  destruct (write_phys_ok m1 p size value Hmw1 Hs Hp0 Hp1) as (_ & Hmw2 & HR).
  set (m2 := with_memory _ m1) in *. set (k' := set_machine m2 (set_machine m1 k)) in *.
  assert (k_machine k' = m2) as Hk' by apply machine_set_machine.
  destruct (ReadMem_ok k' t1 addr size p) as (m3 & t3 & _ & HRd).
  - rewrite Hk'. destruct (tr_space _ _ _ _ Htr). by split.
  - done.
  - rewrite Hk'. change (pageTableSize m2) with (pageTableSize m1). rewrite (tr_lookup _ _ _ _ Htr).
    by apply lookup_page_read.
  - exists k', (set_machine m3 k'). rewrite Hk'. split_and!; [done| |done|by apply (tr_regs _ _ _ _ Htr)|].
    + apply HRd. by rewrite Hk'.
    + intros q Hq. cbn [m2 mainMemory with_memory]. pose proof (mw_length _ Hmw1) as Hl.
      change MemorySize with 16384 in Hl, Hp1.
      assert (length (stored_bytes size value) = Z.to_nat size) as Hsl by apply length_le_bytes.
      rewrite lookup_splice by lia. rewrite decide_False by lia. by rewrite (tr_mem _ _ _ _ Htr).
Qed.
End access.

(** C24: [Translate] computes exactly the page-table lookup: misaligned or out of
    range addresses, missing pages, writes to read-only pages and bad frame
    numbers give their exceptions and leave the machine alone; otherwise the
    whole access lies inside physical memory, in the frame the entry names,
    only use and dirty bits and use counts change, and the next translations
    give the same results. *)
Theorem translate_correct m t v size w :
  space_wf m t -> size = 1 \/ size = 2 \/ size = 4 ->
  exists m' t', Translate m v size w = Ok (m', lookup_page t (pageTableSize m) v size w) /\ translated m t m' t' /\
    match lookup_page t (pageTableSize m) v size w with
    | inl _ => m' = m
    | inr p => 0 <= p /\ p + size <= MemorySize /\
        exists e, t !! Z.to_nat (vpn_of v) = Some e /\ valid e = true /\ (readOnly e = true -> w = false) /\
          p / PageSize = physicalPage e /\ p mod PageSize = offset_of v
    end.
Proof.
  intros Hsp Hs. destruct (Translate_ok m t v size w Hsp Hs) as (m' & t' & HT & Htr & Hp).
  exists m', t'. split; [done|]. split; [done|]. destruct (lookup_page _ _ _ _ _) as [e|p] eqn:Hlk; [done|].
  split; [lia|]. split; [lia|]. unfold lookup_page in Hlk.
  destruct (misaligned v size); [done|]. destruct (_ <=? _); [done|]. destruct (t !! _) as [e|] eqn:He; [|done].
  destruct (valid e) eqn:Hv; [|done]. cbn [negb orb] in Hlk. destruct (_ =? -1); [done|].
  exists e. split_and!; [done|done| | |].
  - intros Hr. rewrite Hr in Hlk. by destruct w.
  - destruct (readOnly e && w); [done|]. destruct (_ && _); [|done]. injection Hlk as <-.
    unfold offset_of. change PageSize with 128. pose proof (Z.mod_pos_bound (to_uint v) 128 ltac:(lia)).
    rewrite Z.div_add_l, Z.div_small by lia. lia.
  - destruct (readOnly e && w); [done|]. destruct (_ && _); [|done]. injection Hlk as <-.
    unfold offset_of. change PageSize with 128.
    rewrite (Z.add_comm (_ * 128)), Z_mod_plus_full. apply Z.mod_mod. lia.
Qed.

(** [findFreeFrame] takes the lowest free frame and records its new owner,
    or reports -1 and changes nothing when every frame is owned, exactly when
    [findFreeByLRU] passes its assertion; that one then picks the first frame
    of least use count. *)
Theorem frame_choice m virAddr ref :
  length (GlobalPageTable m) = Z.to_nat NumPhysPages ->
  (findFreeFrame m virAddr ref = Ok (m, -1) /\
   exists i g, findFreeByLRU m = Ok (Z.of_nat i) /\ GlobalPageTable m !! i = Some g /\
     forall j g', GlobalPageTable m !! j = Some g' ->
       useStamp g <= useStamp g' /\ ((j < i)%nat -> useStamp g < useStamp g')) \/
  exists i g, GlobalPageTable m !! i = Some g /\ RefPageTable g = None /\
    (forall j g', (j < i)%nat -> GlobalPageTable m !! j = Some g' -> RefPageTable g' <> None) /\
    findFreeFrame m virAddr ref =
      Ok (with_global (<[i := mkGlobal virAddr 0 ref]> (GlobalPageTable m)) m, Z.of_nat i).
Proof.
  intros Hl. destruct (findFreeFrame_ok m virAddr ref Hl) as [[Hall HF]|HF]; [left|by right].
  split; [done|]. by apply findFreeByLRU_ok.
Qed.

(** ** Example: page 0 in frame 3 *)
Module MachSim.
Definition K : Type := Machine * Interrupt * Statistics.
#[global] Instance msim_int : InterruptState K := {
  k_int k := k.1.2; k_stats k := k.2; set_int i k := (k.1.1, i, k.2); set_stats s k := (k.1, s) }.
#[global] Instance msim_int_laws : InterruptStateLaws K.
Proof. by split; intros; destruct k as [[? ?] ?]. Qed.
#[global] Instance msim_machine : MachineState K := { k_machine k := k.1.1; set_machine m k := (m, k.1.2, k.2) }.
#[global] Instance msim_machine_laws : MachineStateLaws K.
Proof. by split; intros; destruct k as [[? ?] ?]. Qed.

Definition table : list TranslationEntry := [mkTE 0 3 true false false false []].
Definition m0 : Machine :=
  with_space (Some 1%positive) 1 [] (with_tables {[ 1%positive := table ]} newMachine).
Definition k0 : K := (m0, newInterrupt, newStatistics).

Lemma m0_space : space_wf m0 table.
Proof.
  split; [done| | | |done].
  - by exists 1%positive.
  - cbn. lia.
  - repeat constructor; cbn; lia.
Qed.
Lemma m0_memory : memory_wf m0.
Proof. split; [reflexivity|]. apply Forall_replicate. unfold is_byte. lia. Qed.
End MachSim.

Lemma memory_roundtrip_witness :
  exists k' k'', WriteMem (fun _ k => Ok k) 8 4 (-2) MachSim.k0 = Ok (k', true) /\
    ReadMem (fun _ k => Ok k) 8 4 k' = Ok (k'', Some (-2)).
Proof.
  destruct (memory_roundtrip (H := MachSim.msim_int) (H0 := MachSim.msim_machine) (fun _ k => Ok k) MachSim.k0 MachSim.table 8 4 (-2) MachSim.m0_space MachSim.m0_memory
    ltac:(lia)) as (k' & k'' & HW & HR & _).
  exists k', k''. split; [exact HW|exact HR].
Defined.

Lemma translate_correct_witness :
  exists m', Translate MachSim.m0 8 4 false = Ok (m', inr 392).
Proof.
  destruct (translate_correct MachSim.m0 MachSim.table 8 4 false MachSim.m0_space ltac:(lia)) as (m' & _ & HT & _).
  exists m'. exact HT.
Defined.

Lemma frame_choice_witness : exists m', findFreeFrame MachSim.m0 7 (Some 1%positive) = Ok (m', 0).
Proof.
  destruct (frame_choice MachSim.m0 7 (Some 1%positive) eq_refl) as [[HF _]|(i & g & Hg & _ & Hmin & HF)].
  - exfalso. vm_compute in HF. discriminate HF.
  - destruct i as [|i]; [eexists; exact HF|]. exfalso.
    apply (Hmin 0%nat (mkGlobal (-1) 0 None)); [lia|reflexivity|reflexivity].
Defined.
