(* ===== verification/Console.v ===== *)
(** * The console (src/code/machine/console.h, console.cc; the device side of
    src/code/userprog/synchconsole.cc)

    A keyboard and a display behind UNIX files.  The keyboard is polled by an
    interrupt that is armed again only when nothing was typed or when the
    character has been fetched.  The host's [select], [read] and [write] on the
    two files are the operations of [HostTerminal].  [SynchConsoleInput::GetChar]
    waits on a semaphore that the interrupt handler posts; the waiting is
    represented by the semaphore's value, and a call that waits is one that is
    not made yet.  A [char] is signed. *)

From S2P Require Import Prelude Lists Interrupt Machine Network.
#[local] Open Scope Z_scope.

Definition EOF : Z := -1.

Class HostTerminal (T : Type) := {
  tty_select : T -> Z;
  tty_read : T -> T * Z * Z;
  tty_write : T -> Z -> T * Z;
}.

Section console.
Context {T K : Type} `{HostTerminal T} `{InterruptState K}.

(** [PollFile] *)
Definition PollFile (t : T) : outcome bool :=
  let retVal := tty_select t in
  _ ← ASSERT ((retVal =? 0) || (retVal =? 1));
  Ok (negb (retVal =? 0)).

(** [ReadPartial(fd, &c, 1)]: the count and the character. *)
Definition ReadPartial (t : T) : T * Z * Z := tty_read t.

(** [WriteFile(fd, &ch, 1)] *)
Definition WriteFile (t : T) (ch : Z) : outcome T :=
  let '(t, retVal) := tty_write t ch in
  _ ← ASSERT (retVal =? 1);
  Ok t.

Definition count_chars (read written : Z) (k : K) : K :=
  let s := k_stats k in
  set_stats (mkStatistics (totalTicks s) (idleTicks s) (systemTicks s) (userTicks s)
    (numDiskReads s) (numDiskWrites s) (numConsoleCharsRead s + read) (numConsoleCharsWritten s + written) (numPageFaults s)
    (numPacketsSent s) (numPacketsRecvd s)) k.

(** [ConsoleInput::ConsoleInput]; the device's only state is [incoming]. *)
Definition newConsoleInput (k : K) : outcome (Z * K) :=
  k ← Schedule ConsoleInputObj ConsoleTime ConsoleReadInt k;
  Ok (EOF, k).

(** [ConsoleInput::CallBack] *)
Definition ConsoleInputCallBack (callWhenAvail : K -> outcome K) (incoming : Z) (t : T) (k : K) : outcome (Z * T * K) :=
  _ ← ASSERT (incoming =? EOF);
  ready ← PollFile t;
  if negb ready then
    k ← Schedule ConsoleInputObj ConsoleTime ConsoleReadInt k;
    Ok (incoming, t, k)
  else
    let '(t, readCount, c) := ReadPartial t in
    '(incoming, k) ← (if readCount =? 0 then Ok (incoming, k)
                      else _ ← ASSERT (readCount =? 1); Ok (signed_char c, count_chars 1 0 k));
    k ← callWhenAvail k;
    Ok (incoming, t, k).

(** [ConsoleInput::GetChar] *)
Definition GetChar (incoming : Z) (k : K) : outcome (Z * K * Z) :=
  let ch := incoming in
  k ← (if negb (incoming =? EOF) then Schedule ConsoleInputObj ConsoleTime ConsoleReadInt k else Ok k);
  Ok (EOF, k, ch).

(** [ConsoleOutput::PutChar] and [CallBack]; the state is [putBusy]. *)
Definition PutChar (ch : Z) (putBusy : bool) (t : T) (k : K) : outcome (bool * T * K) :=
  _ ← ASSERT (negb putBusy);
  t ← WriteFile t ch;
  k ← Schedule ConsoleOutputObj ConsoleTime ConsoleWriteInt k;
  Ok (true, t, k).
Definition ConsoleOutputCallBack (callWhenDone : K -> outcome K) (putBusy : bool) (k : K) : outcome (bool * K) :=
  k ← callWhenDone (count_chars 0 1 k);
  Ok (false, k).
End console.

(** ** The keyboard in use

    The kernel state as far as the console sees it, with the semaphore
    [waitFor] of the synchronous console. *)
Record ConsoleKernel := mkCK { ck_int : Interrupt; ck_stats : Statistics; waitFor : Z }.
#[export] Instance ck_state : InterruptState ConsoleKernel := {
  k_int := ck_int; k_stats := ck_stats;
  set_int i k := mkCK i (ck_stats k) (waitFor k); set_stats s k := mkCK (ck_int k) s (waitFor k) }.
#[export] Instance ck_laws : InterruptStateLaws ConsoleKernel.
Proof. by split; intros; destruct k. Qed.

(** [SynchConsoleInput::CallBack]: [waitFor->V()] *)
Definition SynchInputCallBack (k : ConsoleKernel) : outcome ConsoleKernel :=
  v ← int_add (waitFor k) 1; Ok (mkCK (ck_int k) (ck_stats k) v).

(** The end of [SynchConsoleInput::GetChar]: [waitFor->P()] returns and the
    character is fetched. *)
Definition SynchGetChar (incoming : Z) (k : ConsoleKernel) : outcome (Z * ConsoleKernel * Z) :=
  v ← int_add (waitFor k) (-1);
  GetChar incoming (mkCK (ck_int k) (ck_stats k) v).

Definition is_read_int (p : PendingInterrupt) : bool := bool_decide (callOnInterrupt p = ConsoleInputObj).

(** The keyboard interrupts that are armed. *)
Definition armed (k : ConsoleKernel) : nat := length (filter is_read_int (pending (ck_int k))).

Class TerminalLaws (T : Type) `{HostTerminal T} (left : T -> list Z) : Prop := {
  tty_select_bit t : tty_select t = 0 \/ tty_select t = 1;
  tty_read_next t : tty_select t = 1 ->
    exists t' c, match left t with
      | [] => tty_read t = (t', 0, c) /\ left t' = []
      | x :: l => tty_read t = (t', 1, x) /\ left t' = l
      end;
}.

Record keyboard (T : Type) := mkKeyboard { kb_in : Z; kb_tty : T; kb_k : ConsoleKernel; kb_got : list Z }.
Arguments mkKeyboard {T} _ _ _ _.
Arguments kb_in {T} _.
Arguments kb_tty {T} _.
Arguments kb_k {T} _.
Arguments kb_got {T} _.

Section keyboard.
Context {T : Type} `{HostTerminal T} (left : T -> list Z) `{!TerminalLaws T left}.
Implicit Types s : keyboard T.

Definition without (p : list PendingInterrupt) (k : ConsoleKernel) : ConsoleKernel :=
  mkCK (with_pending p (ck_int k)) (ck_stats k) (waitFor k).

(** The armed interrupt is delivered; a thread fetches a character; time passes,
    keys are typed and other devices run. *)
Inductive key_step : keyboard T -> keyboard T -> Prop :=
  | key_interrupt s p1 x p2 c t k :
      pending (ck_int (kb_k s)) = p1 ++ x :: p2 -> is_read_int x = true ->
      ConsoleInputCallBack SynchInputCallBack (kb_in s) (kb_tty s) (without (p1 ++ p2) (kb_k s)) = Ok (c, t, k) ->
      key_step s (mkKeyboard c t k (kb_got s))
  | key_get s c k ch :
      0 < waitFor (kb_k s) -> SynchGetChar (kb_in s) (kb_k s) = Ok (c, k, ch) ->
      key_step s (mkKeyboard c (kb_tty s) k (kb_got s ++ [ch]))
  | key_world s t k :
      left t = left (kb_tty s) -> waitFor k = waitFor (kb_k s) -> armed k = armed (kb_k s) -> clock_ok k ->
      key_step s (mkKeyboard (kb_in s) t k (kb_got s)).

(** Where the device is: waiting for a key, with a key to be fetched, at the end
    with the end not seen yet, or at the end. *)
Inductive key_phase (keys : list Z) : list Z -> Z -> nat -> Z -> list Z -> Prop :=
  | phase_armed rest : EOF ∉ keys -> key_phase keys rest EOF 1 0 keys
  | phase_ready rest c got : keys = got ++ [c] -> EOF ∉ keys -> key_phase keys rest c 0 1 got
  | phase_end rest got : got ++ [EOF] `prefix_of` (keys ++ rest) ++ [EOF] -> EOF ∉ got -> key_phase keys rest EOF 0 1 got
  | phase_dead rest got : got ++ [EOF] `prefix_of` (keys ++ rest) ++ [EOF] -> EOF ∉ got -> key_phase keys rest EOF 0 0 (got ++ [EOF]).

Definition key_inv (typed : list Z) s : Prop :=
  clock_ok (kb_k s) /\ exists read, typed = read ++ left (kb_tty s) /\
    key_phase (signed_char <$> read) (signed_char <$> left (kb_tty s)) (kb_in s) (armed (kb_k s)) (waitFor (kb_k s)) (kb_got s).

Lemma armed_schedule k : clock_ok k -> exists k', Schedule ConsoleInputObj ConsoleTime ConsoleReadInt k = Ok k' /\
  clock_ok k' /\ armed k' = S (armed k) /\ waitFor k' = waitFor k.
Proof.
  intros [Ht Hs]. unfold Schedule. rewrite int_add_Ok by (unfold is_int, ConsoleTime; cbn in *; lia). cbn [mbind outcome_bind].
  change (0 <? ConsoleTime) with true. cbn [ASSERT mbind outcome_bind]. eexists. split; [reflexivity|]. split_and!.
  - split; [done|]. cbn. by apply place_Sorted; [apply _|].
  - unfold armed. cbn [ck_int set_int ck_state with_pending pending k_int]. by rewrite place_Permutation, filter_cons, decide_True by done.
  - done.
Qed.

Lemma armed_without p1 x p2 k : pending (ck_int k) = p1 ++ x :: p2 -> is_read_int x = true -> clock_ok k ->
  armed k = S (armed (without (p1 ++ p2) k)) /\ clock_ok (without (p1 ++ p2) k).
Proof.
  intros Hp Hx [Ht Hs]. unfold armed. cbn [without ck_int with_pending pending]. rewrite Hp. split.
  - rewrite <- Permutation_middle, filter_cons, decide_True by (by rewrite Hx). done.
  - split; [done|]. cbn in *. rewrite Hp in Hs. apply (Sorted_StronglySorted) in Hs; [|intros a b c; apply compare_trans].
    apply StronglySorted_Sorted. clear -Hs. induction p1 as [|y p1 IH]; cbn in *; [by apply StronglySorted_inv in Hs as [? _]|].
    apply StronglySorted_inv in Hs as [Hs Hall]. constructor; [by apply IH|].
    apply Forall_app in Hall as [? [_ ?]%Forall_cons]. by apply Forall_app.
Qed.

Lemma phase_of_armed keys rest c a w got : key_phase keys rest c (S a) w got -> a = 0%nat /\ c = EOF /\ w = 0 /\ got = keys /\ EOF ∉ keys.
Proof. by inversion 1. Qed.

Lemma phase_of_waiting keys rest c a w got : key_phase keys rest c a w got -> 0 < w -> a = 0%nat /\ w = 1 /\
  (keys = got ++ [c] /\ EOF ∉ keys \/ c = EOF /\ got ++ [EOF] `prefix_of` (keys ++ rest) ++ [EOF] /\ EOF ∉ got).
Proof. intros Hp Hw. inversion Hp; subst; try lia; auto 10. Qed.

Lemma phase_prefix keys rest c a w got : key_phase keys rest c a w got -> got `prefix_of` (keys ++ rest) ++ [EOF].
Proof.
  destruct 1 as [rest Hno|rest c got -> Hno|rest got Hpre Hno|rest got Hpre Hno]; [| | |done].
  - eexists. by rewrite <- app_assoc.
  - eexists. by rewrite <- !app_assoc.
  - etrans; [|exact Hpre]. by eexists.
Qed.

Lemma phase_alive keys rest c a w got : key_phase keys rest c a w got ->
  if decide (EOF ∈ got) then a = 0%nat /\ w = 0 else (a = 1%nat /\ w = 0) \/ (a = 0%nat /\ w = 1).
Proof.
  destruct 1 as [rest Hno|rest c got -> Hno|rest got Hpre Hno|rest got Hpre Hno].
  - rewrite decide_False by done. auto.
  - rewrite decide_False by (intros ?; apply Hno, elem_of_app; auto). auto.
  - rewrite decide_False by done. auto.
  - rewrite decide_True; [done|]. apply elem_of_app. right. by apply list_elem_of_singleton.
Qed.

Lemma key_interrupt_ok typed s p1 x p2 :
  key_inv typed s -> pending (ck_int (kb_k s)) = p1 ++ x :: p2 -> is_read_int x = true ->
  exists c t k, ConsoleInputCallBack SynchInputCallBack (kb_in s) (kb_tty s) (without (p1 ++ p2) (kb_k s)) = Ok (c, t, k) /\
    key_inv typed (mkKeyboard c t k (kb_got s)).
Proof.
  intros [Hk (read & Htyped & Hphase)] Hp Hx. destruct (armed_without _ _ _ _ Hp Hx Hk) as [Ha Hk0].
  set (k0 := without (p1 ++ p2) (kb_k s)) in *. change (waitFor (kb_k s)) with (waitFor k0) in Hphase.
  rewrite Ha in Hphase. apply phase_of_armed in Hphase as (Ha0 & Hin & Hw & Hgot & Hno). rewrite Hin, Hgot.
  unfold ConsoleInputCallBack. change (EOF =? EOF) with true. cbn [ASSERT mbind outcome_bind]. unfold PollFile.
  destruct (tty_select_bit (kb_tty s)) as [Et|Et]; rewrite Et; cbn [Z.eqb orb ASSERT mbind outcome_bind negb].
  - destruct (armed_schedule k0 Hk0) as (k1 & -> & Hk1 & Ha1 & Hw1). cbn [mbind outcome_bind]. eexists _, _, _. split; [reflexivity|].
    split; [done|]. exists read. split; [done|]. cbn [kb_in kb_tty kb_k kb_got]. rewrite Ha1, Hw1, Hw, Ha0. by constructor.
  - destruct (tty_read_next (left := left) (kb_tty s) Et) as (t' & c & Hr). unfold ReadPartial, SynchInputCallBack.
    destruct (left (kb_tty s)) as [|y l] eqn:El; destruct Hr as [-> Hl']; cbn [Z.eqb Pos.eqb ASSERT mbind outcome_bind waitFor].
    + rewrite Hw. cbn [int_add mbind outcome_bind]. eexists _, _, _. split; [reflexivity|]. split; [done|]. exists read.
      cbn [kb_in kb_tty kb_k kb_got waitFor]. rewrite Hl'. split; [done|]. change (armed _) with (armed k0). rewrite Ha0.
      change (0 + 1) with 1. apply phase_end; [|done]. cbn [fmap list_fmap]. by rewrite app_nil_r.
    + change (waitFor (count_chars 1 0 k0)) with (waitFor k0). rewrite Hw. cbn [int_add mbind outcome_bind].
      eexists _, _, _. split; [reflexivity|]. split; [done|]. exists (read ++ [y]).
      cbn [kb_in kb_tty kb_k kb_got waitFor]. rewrite Hl'. split; [by rewrite <- app_assoc|]. change (armed _) with (armed k0). rewrite Ha0.
      change (0 + 1) with 1. rewrite fmap_app. cbn [fmap list_fmap]. destruct (decide (signed_char y = EOF)) as [Ey|Ey].
      * rewrite Ey. apply phase_end; [|done]. eexists. symmetry. apply app_assoc.
      * apply (phase_ready _ _ (signed_char y)); [done|]. set_solver.
Qed.

Lemma key_get_ok typed s : key_inv typed s -> 0 < waitFor (kb_k s) ->
  exists c k ch, SynchGetChar (kb_in s) (kb_k s) = Ok (c, k, ch) /\ key_inv typed (mkKeyboard c (kb_tty s) k (kb_got s ++ [ch])).
Proof.
  intros [Hk (read & Htyped & Hphase)] Hw. unfold SynchGetChar, GetChar.
  apply phase_of_waiting in Hphase as (Harm & Hw1 & Hcase); [|done]. rewrite Hw1. change (int_add 1 (-1)) with (Ok 0). cbn [mbind outcome_bind].
  destruct Hcase as [[Hgot Hno]|(Hin & Hpre & Hno)].
  - assert (kb_in s <> EOF) as Hc by (intros E; apply Hno; rewrite Hgot, E; set_solver).
    rewrite (proj2 (Z.eqb_neq _ _)) by done. cbn [negb].
    destruct (armed_schedule (mkCK (ck_int (kb_k s)) (ck_stats (kb_k s)) 0) Hk) as (k1 & E1 & Hk1 & Ha1 & Hw1').
    rewrite E1. cbn [mbind outcome_bind]. eexists _, _, _. split; [reflexivity|]. split; [done|]. exists read. split; [done|].
    cbn [kb_in kb_tty kb_k kb_got]. rewrite Ha1, Hw1'. change (armed _) with (armed (kb_k s)). rewrite Harm. cbn [waitFor].
    rewrite <- Hgot. by constructor.
  - rewrite Hin. change (EOF =? EOF) with true. cbn [negb mbind outcome_bind]. eexists _, _, _. split; [reflexivity|]. split; [done|]. exists read. split; [done|].
    cbn [kb_in kb_tty kb_k kb_got waitFor]. change (armed _) with (armed (kb_k s)). rewrite Harm. by constructor.
Qed.

Lemma key_step_inv typed s s' : key_inv typed s -> key_step s s' -> key_inv typed s'.
Proof.
  intros Hi Hstep. destruct Hstep as [s p1 x p2 c t k Hp Hx E|s c k ch Hw E|s t k Hl Hw Ha Hk].
  - destruct (key_interrupt_ok typed s p1 x p2 Hi Hp Hx) as (c' & t' & k' & E' & Hi'). rewrite E in E'. by injection E' as <- <- <-.
  - destruct (key_get_ok typed s Hi Hw) as (c' & k' & ch' & E' & Hi'). rewrite E in E'. by injection E' as <- <- <-.
  - destruct Hi as [_ (read & Htyped & Hphase)]. split; [done|]. exists read. cbn [kb_in kb_tty kb_k kb_got]. by rewrite Hl, Hw, Ha.
Qed.

(** The console has been set up and nothing has been read. *)
Definition key_start (typed : list Z) s : Prop :=
  kb_in s = EOF /\ left (kb_tty s) = typed /\ clock_ok (kb_k s) /\ armed (kb_k s) = 1%nat /\ waitFor (kb_k s) = 0 /\ kb_got s = [].

(** C29: the keyboard delivers what is typed, once and in order, until it sees an
    end of file.  Whatever the order of typing, interrupts and readers: the
    handler never overwrites a character that has not been fetched (its
    assertion holds); the characters fetched are a prefix of those typed,
    followed at the end by [EOF]; and as long as no [EOF] was fetched, either
    the next interrupt is armed or a character can be fetched.  The character
    0xFF, a signed [char] equal to [EOF], also ends the input: afterwards no
    interrupt is armed and every reader waits for ever, whatever is still to be
    read. *)
Theorem console_input_order typed s0 s :
  key_start typed s0 -> rtc key_step s0 s ->
  (forall p1 x p2, pending (ck_int (kb_k s)) = p1 ++ x :: p2 -> is_read_int x = true ->
     exists r, ConsoleInputCallBack SynchInputCallBack (kb_in s) (kb_tty s) (without (p1 ++ p2) (kb_k s)) = Ok r) /\
  (0 < waitFor (kb_k s) -> exists r, SynchGetChar (kb_in s) (kb_k s) = Ok r) /\
  kb_got s `prefix_of` (signed_char <$> typed) ++ [EOF] /\
  if decide (EOF ∈ kb_got s) then armed (kb_k s) = 0%nat /\ waitFor (kb_k s) = 0
  else (armed (kb_k s) = 1%nat /\ waitFor (kb_k s) = 0) \/ (armed (kb_k s) = 0%nat /\ waitFor (kb_k s) = 1).
Proof.
  intros (Hin & Hleft & Hk & Ha & Hw & Hgot) Hr.
  assert (key_inv typed s) as Hi.
  { assert (key_inv typed s0) as Hi0.
    { split; [done|]. exists []. rewrite Hin, Hleft, Ha, Hw, Hgot. split; [done|]. constructor. set_solver. }
    clear -Hr Hi0 TerminalLaws0. induction Hr; eauto using key_step_inv. }
  split_and!.
  - intros p1 x p2 Hp Hx. destruct (key_interrupt_ok typed s p1 x p2 Hi Hp Hx) as (c & t & k & -> & _). eauto.
  - intros Hw'. destruct (key_get_ok typed s Hi Hw') as (c & k & ch & -> & _). eauto.
  - destruct Hi as [_ (read & -> & Hphase)]. rewrite fmap_app. by eapply phase_prefix.
  - destruct Hi as [_ (read & -> & Hphase)]. by eapply phase_alive.
Qed.
End keyboard.

(** ** A run: the keys a, 0xFF, b on a terminal that is always ready. *)
Module KeySim.
#[global] Instance ready_terminal : HostTerminal (list Z) := {
  tty_select t := 1;
  tty_read t := match t with [] => ([], 0, 0) | c :: l => (l, 1, c) end;
  tty_write t c := (t, 1) }.
#[global] Instance ready_laws : TerminalLaws (list Z) id.
Proof. split; [by right|]. intros [|c l] _; by eexists _, 0. Qed.

Definition k0 : ConsoleKernel := mkCK (mkInterrupt IntOn [mkPending ConsoleInputObj 100 ConsoleReadInt] false false SystemMode) newStatistics 0.
Definition s0 : keyboard (list Z) := mkKeyboard EOF [97; 255; 98] k0 [].

Lemma start_ok : key_start id [97; 255; 98] s0.
Proof. split_and!; try done. split; [done|]. by repeat constructor. Qed.

Lemma sample_run : exists s, rtc (key_step id) s0 s /\ kb_got s = [97; -1] /\ kb_tty s = [98].
Proof.
  eexists. split; [|split].
  - eapply rtc_l. { eapply (key_interrupt _ _ [] _ []); [reflexivity|done|by vm_compute]. }
    eapply rtc_l. { eapply key_get; [done|by vm_compute]. }
    eapply rtc_l. { eapply (key_interrupt _ _ [] _ []); [reflexivity|done|by vm_compute]. }
    eapply rtc_l. { eapply key_get; [done|by vm_compute]. }
    apply rtc_refl.
  - done.
  - done.
Qed.
End KeySim.

(** The b is never read. *)
Lemma console_input_order_witness :
  exists s, rtc (key_step id) KeySim.s0 s /\ kb_got s = [97; -1] /\ kb_tty s = [98] /\ armed (kb_k s) = 0%nat /\ waitFor (kb_k s) = 0.
Proof.
  destruct KeySim.sample_run as (s & Hr & Hg & Ht). exists s. split; [done|]. split; [done|]. split; [done|].
  pose proof (proj2 (proj2 (proj2 (console_input_order id [97; 255; 98] KeySim.s0 s KeySim.start_ok Hr)))) as Hd.
  rewrite Hg in Hd. exact Hd.
Defined.
