(* ===== verification/KernelTests.v ===== *)
(** * The tests of the network and the console (src/code/threads/kernel.cc:
    [NetworkTest], [ConsoleTest]; network/post.cc: the constructor of
    [PostOfficeInput], its [CallBack] and the wait of [PostalDelivery])

    [NetworkTest] runs on two machines that send each other mail; here both run
    at once, with their post offices, postal workers and devices, over one host
    network.  Each machine is a node; the mail between them is, in each
    direction, the transition system of Post.v, so the invariant of one
    direction is used twice.  The semaphore [messageAvailable], on which the
    postal worker waits, is part of the node.  Only the thread of the test sends,
    so [sendLock] is free, and the wait for [messageSent] ends with the
    completion interrupt of the packet.  [ConsoleTest] runs on the keyboard of
    Console.v and the display. *)

From stdpp Require Import strings.
From S2P Require Import Prelude Text Lists Interrupt Machine Network Post Console.
#[local] Open Scope Z_scope.

(** ** The host's network between two machines *)

(** Machine [false] is number 0, machine [true] is number 1. *)
Definition name (b : bool) : Z := if b then 1 else 0.

Class HostNetwork (W : Type) := {
  net_select : bool -> W -> Z;
  net_recvfrom : bool -> W -> W * Z * list Z;
  net_sendto : Z -> list Z -> W -> W * Z;
}.

(** The network as machine [b] sees it. *)
Definition view {W} `{HostNetwork W} (b : bool) : HostSockets W :=
  Build_HostSockets W (net_select b) (net_recvfrom b) net_sendto.

(** Each socket is a datagram socket, and what goes to or is taken from one does
    not touch the other. *)
Class NetworkLaws (W : Type) `{HostNetwork W} (inbound : bool -> W -> list (list Z)) : Prop := {
  nl_socket b :: @SocketLaws W (view b) (name b) (inbound b);
  nl_sendto b p w w' r : net_sendto (name b) p w = (w', r) -> inbound (negb b) w' = inbound (negb b) w;
  nl_recvfrom b w w' r p : net_recvfrom b w = (w', r, p) -> inbound (negb b) w' = inbound (negb b) w;
}.

(** ** The kernel as the post office sees it *)
Record NetKernel := mkNK { nk_int : Interrupt; nk_stats : Statistics; messageAvailable : Z }.
#[export] Instance nk_state : InterruptState NetKernel := {
  k_int := nk_int; k_stats := nk_stats;
  set_int i k := mkNK i (nk_stats k) (messageAvailable k); set_stats s k := mkNK (nk_int k) s (messageAvailable k) }.
#[export] Instance nk_laws : InterruptStateLaws NetKernel.
Proof. by split; intros; destruct k. Qed.

(** [PostOfficeInput::CallBack]: [messageAvailable->V()].  The value stays below
    2 ([network_test_inv]), so the sum does not overflow. *)
Definition PostCallBack (k : NetKernel) : outcome NetKernel := Ok (mkNK (nk_int k) (nk_stats k) (messageAvailable k + 1)).

(** [PostOfficeInput::PostOfficeInput]: the semaphore, the boxes and the device. *)
Definition newPostOfficeInput (hdr0 : PacketHeader) (inbox0 : list Z) (nBoxes : Z) (k : NetKernel)
    : outcome (PostOfficeInput * NetKernel) :=
  let k := mkNK (nk_int k) (nk_stats k) 0 in
  '(n, k) ← newNetworkInput hdr0 inbox0 k;
  Ok (newOffice n nBoxes, k).

(** [sendLock->Acquire()] and [Release()] of a free lock, and [messageSent->P()],
    which returns when the device has called back. *)
Definition free_lock (k : NetKernel) : outcome NetKernel := Ok k.
Definition wait_sent (n : NetworkOutput) (k : NetKernel) : outcome (NetworkOutput * NetKernel) :=
  NetworkOutputCallBack free_lock n k.

(** ** [Kernel::NetworkTest] *)

(** Where the test is, and its local variables; [shown] are the lines it has
    printed: the text, the machine and the box. *)
Inductive test_pc := SendHello | WaitHello | SendAck | WaitAck | TestDone.
Record Test := mkTest { pc : test_pc; inPkt : PacketHeader; inMail : MailHeader; t_buffer : list Z; shown : list (list Z * Z * Z) }.

(** A machine; [n_sent] and [n_got] record the letters sent and read. *)
Record Node := mkNode {
  n_out : NetworkOutput; n_office : PostOfficeInput; n_buffer : list Z; n_k : NetKernel; n_test : Test;
  n_sent : list letter; n_got : list letter }.

Definition hello : list Z := text "Hello there!" ++ [0].
Definition got_it : list Z := text "Got it!" ++ [0].

Section test.
Context {W : Type} `{HostNetwork W} (times100 : Q -> Q).

(** [postOfficeOut->Send]; the other fields of [outPktHdr] are not used. *)
Definition send_mail (b : bool) (random : Z) (packet0 wire0 : list Z) (out0 : PacketHeader) (to box : Z) (data : list Z)
    (next : test_pc) (nd : Node) (w : W) : outcome (Node * W) :=
  let pkt := mkPacket to (p_from out0) (p_length out0) in
  let hdr := mkMailHdr box 1 (Z.of_nat (length data)) in
  '(n, w, k) ← PostSend (H := view b) times100 (name b) free_lock free_lock wait_sent random packet0 wire0 pkt hdr data
                 (n_out nd) w (n_k nd);
  let t := n_test nd in
  Ok (mkNode n (n_office nd) (n_buffer nd) k (mkTest next (inPkt t) (inMail t) (t_buffer t) (shown t))
        (n_sent nd ++ [letter_of (name b) pkt hdr data]) (n_got nd), w).

(** [postOfficeIn->Receive(box, ...)] and the line that is printed; [None] if the
    thread waits. *)
Definition receive_mail (box : Z) (next : test_pc) (nd : Node) : outcome (option Node) :=
  let t := n_test nd in
  r ← PostReceive box (t_buffer t) (n_office nd);
  match r with
  | None => Ok None
  | Some (po, pkt, hdr, buffer) =>
      line ← print_string buffer;
      Ok (Some (mkNode (n_out nd) po (n_buffer nd) (n_k nd)
        (mkTest next pkt hdr buffer (shown t ++ [(line, p_from pkt, h_from hdr)]))
        (n_sent nd) (n_got nd ++ [mkLetter pkt hdr (take (Z.to_nat (h_length hdr)) buffer)])))
  end.

(** The test up to its next call that sends or receives. *)
Definition NetworkTest (b : bool) (random : Z) (packet0 wire0 : list Z) (out0 : PacketHeader) (nd : Node) (w : W)
    : outcome (option (Node * W)) :=
  let t := n_test nd in
  match pc t with
  | SendHello => nw ← send_mail b random packet0 wire0 out0 (name (negb b)) 0 hello WaitHello nd w; Ok (Some nw)
  | WaitHello => r ← receive_mail 0 SendAck nd; Ok (nd ← r; Some (nd, w))
  | SendAck => nw ← send_mail b random packet0 wire0 out0 (p_from (inPkt t)) (h_from (inMail t)) got_it WaitAck nd w; Ok (Some nw)
  | WaitAck => r ← receive_mail 1 TestDone nd; Ok (nd ← r; Some (nd, w))
  | TestDone => Ok None
  end.

(** The interrupt of the input device, and one round of the postal worker. *)
Definition poll (b : bool) (nd : Node) (w : W) : outcome (Node * W) :=
  '(n, w, k) ← NetworkInputCallBack (H := view b) (name b) PostCallBack (network (n_office nd)) w (n_k nd);
  Ok (mkNode (n_out nd) (mkOffice n (boxes (n_office nd)) (numBoxes (n_office nd))) (n_buffer nd) k (n_test nd) (n_sent nd) (n_got nd), w).
Definition deliver (data0 : list Z) (nd : Node) : outcome Node :=
  '(po, buffer) ← PostalDelivery data0 (n_buffer nd) (n_office nd);
  let k := n_k nd in
  Ok (mkNode (n_out nd) po buffer (mkNK (nk_int k) (nk_stats k) (messageAvailable k - 1)) (n_test nd) (n_sent nd) (n_got nd)).
End test.

Record Net (W : Type) := mkNet { world : W; node : bool -> Node }.
Arguments mkNet {W} _ _.
Arguments world {W} _.
Arguments node {W} _ _.

Definition upd (b : bool) (nd : Node) (f : bool -> Node) : bool -> Node := fun c => if Bool.eqb c b then nd else f c.

(** The buffers of a step are uninitialised memory of the right size. *)
Definition buffers (packet0 wire0 : list Z) : Prop :=
  length packet0 = Z.to_nat MaxPacketSize /\ length wire0 = Z.to_nat MaxWireSize.

Section system.
Context {W : Type} `{HostNetwork W} (inbound : bool -> W -> list (list Z)) `{!NetworkLaws W inbound} (times100 : Q -> Q).
Implicit Types s : Net W.

(** A machine's test goes on; its device is polled; its postal worker, whose
    [P] has returned, takes a packet; time passes. *)
Inductive net_step : Net W -> Net W -> Prop :=
  | net_test s b random packet0 wire0 out0 nd w :
      buffers packet0 wire0 ->
      NetworkTest times100 b random packet0 wire0 out0 (node s b) (world s) = Ok (Some (nd, w)) ->
      net_step s (mkNet w (upd b nd (node s)))
  | net_poll s b nd w :
      poll b (node s b) (world s) = Ok (nd, w) -> net_step s (mkNet w (upd b nd (node s)))
  | net_deliver s b data0 nd :
      0 < messageAvailable (n_k (node s b)) -> length data0 = Z.to_nat MaxMailSize ->
      deliver data0 (node s b) = Ok nd -> net_step s (mkNet (world s) (upd b nd (node s)))
  | net_time s b k :
      clock_ok k -> messageAvailable k = messageAvailable (n_k (node s b)) ->
      net_step s (mkNet (world s) (upd b (mkNode (n_out (node s b)) (n_office (node s b)) (n_buffer (node s b)) k
        (n_test (node s b)) (n_sent (node s b)) (n_got (node s b))) (node s))).

(** ** The invariant *)

(** The mail from node [x] to node [y], as a state of Post.v. *)
Definition dir_of (x y : Node) (w : W) : mail_state W NetKernel NetKernel :=
  mkMailState (n_out x) w (n_k x) (n_office y) (n_buffer y) (n_k y) (n_sent x) (n_got y).

(** The two letters of a machine. *)
Definition hello_letter (b : bool) : letter := letter_of (name b) (mkPacket (name (negb b)) 0 0) (mkMailHdr 0 1 13) hello.
Definition ack_letter (b : bool) : letter := letter_of (name b) (mkPacket (name (negb b)) 0 0) (mkMailHdr 1 1 8) got_it.

Definition sent_at (b : bool) (p : test_pc) : list letter :=
  match p with
  | SendHello => [] | WaitHello | SendAck => [hello_letter b] | WaitAck | TestDone => [hello_letter b; ack_letter b]
  end.
Definition got_at (b : bool) (p : test_pc) : list letter :=
  match p with
  | SendHello | WaitHello => []
  | SendAck | WaitAck => [hello_letter (negb b)]
  | TestDone => [hello_letter (negb b); ack_letter (negb b)]
  end.
Definition shown_at (b : bool) (p : test_pc) : list (list Z * Z * Z) :=
  match p with
  | SendHello | WaitHello => []
  | SendAck | WaitAck => [(text "Hello there!", name (negb b), 1)]
  | TestDone => [(text "Hello there!", name (negb b), 1); (text "Got it!", name (negb b), 1)]
  end.

Record test_inv (b : bool) (nd : Node) : Prop := {
  ti_sent : n_sent nd = sent_at b (pc (n_test nd));
  ti_got : n_got nd = got_at b (pc (n_test nd));
  ti_shown : shown (n_test nd) = shown_at b (pc (n_test nd));
  ti_buffer : length (t_buffer (n_test nd)) = Z.to_nat MaxMailSize;
  ti_reply : pc (n_test nd) = SendAck -> p_from (inPkt (n_test nd)) = name (negb b) /\ h_from (inMail (n_test nd)) = 1;
}.

Definition avail_inv (nd : Node) : Prop :=
  messageAvailable (n_k nd) = if p_length (inHdr (network (n_office nd))) =? 0 then 0 else 1.

Context (nb : Z) (Hnb : 2 <= nb < 2 ^ 31).

Record net_inv s : Prop := {
  ni_dir b : mail_inv (name (negb b)) (inbound (negb b)) (dir_of (node s b) (node s (negb b)) (world s));
  ni_nb b : numBoxes (n_office (node s b)) = nb;
  ni_avail b : avail_inv (node s b);
  ni_test b : test_inv b (node s b);
}.

Lemma net_inv_upd s b nd w :
  net_inv s ->
  mail_inv (name (negb b)) (inbound (negb b)) (dir_of nd (node s (negb b)) w) ->
  mail_inv (name b) (inbound b) (dir_of (node s (negb b)) nd w) ->
  numBoxes (n_office nd) = nb -> avail_inv nd -> test_inv b nd -> net_inv (mkNet w (upd b nd (node s))).
Proof.
  intros [Hd Hn Ha Ht] D1 D2 N1 A1 T1. split; intros c; cbn [world node]; unfold upd; destruct b, c; cbn [Bool.eqb negb] in *; done.
Qed.

(** The other direction does not see what happens to the kernels and to the
    other socket. *)
Lemma mail_inv_world (me : Z) (inb : W -> list (list Z)) (ms : mail_state W NetKernel NetKernel) w ka kb :
  mail_inv me inb ms -> clock_ok ka -> clock_ok kb -> inb w = inb (s_world ms) ->
  mail_inv me inb (mkMailState (s_out ms) w ka (s_office ms) (s_buffer ms) kb (s_sent ms) (s_got ms)).
Proof. intros [] Ha Hb Hw. split; try done. cbn [s_world s_sent s_office s_got]. by rewrite Hw. Qed.

Lemma keeps_free : keeps free_lock.
Proof. intros k Hk. by exists k. Qed.
Lemma keeps_callback : keeps PostCallBack.
Proof. intros k Hk. by eexists. Qed.
Lemma wait_sent_ok : wait_ok wait_sent.
Proof. intros n k Hk. eexists. split; [reflexivity|]. by apply count_packets_clock. Qed.

Lemma send_loop_other b p n w w' :
  send_loop (H := view b) n (name (negb b)) p w = Ok w' -> inbound b w' = inbound b w.
Proof.
  revert w. induction n as [|n IH]; intros w; cbn [send_loop]; [by intros [= <-]|].
  destruct (host_sendto (HostSockets := view b) (name (negb b)) p w) as [w1 r] eqn:E. cbn in E. apply nl_sendto in E. rewrite negb_involutive in E.
  destruct (r =? Z.of_nat (length p)); [by intros [= <-]|]. destruct (r <? 0); cbn [ASSERT mbind outcome_bind]; [|done].
  intros HE. rewrite (IH w1 HE). done.
Qed.

#[local] Arguments SendToSocket : simpl never.
Lemma Schedule_avail o t ty k k' : Schedule o t ty k = Ok k' -> messageAvailable k' = messageAvailable k.
Proof. unfold Schedule. intros HS. inv_ok. done. Qed.

Lemma PostSend_other b random packet0 wire0 pkt hdr data n w k n' w' k' :
  p_to pkt = name (negb b) ->
  PostSend (H := view b) times100 (name b) free_lock free_lock wait_sent random packet0 wire0 pkt hdr data n w k = Ok (n', w', k') ->
  inbound b w' = inbound b w /\ messageAvailable k' = messageAvailable k.
Proof.
  intros Hto. unfold PostSend, NetworkSend, free_lock, wait_sent, NetworkOutputCallBack. intros HE. inv_ok.
  cbn [p_to] in *. rewrite Hto in *.
  repeat match goal with
  | H : Schedule _ _ _ _ = Ok _ |- _ => apply Schedule_avail in H
  | H : (if ?c then _ else _) = Ok _ |- _ => destruct c
  | _ => progress inv_ok
  | H : SendToSocket _ _ _ = Ok _ |- _ => apply send_loop_other in H
  end; split; cbn [messageAvailable count_packets set_stats nk_state k_stats nk_int nk_stats]; congruence.
Qed.

Lemma poll_other b avail n w k n' w' k' :
  NetworkInputCallBack (H := view b) (name b) avail n w k = Ok (n', w', k') -> inbound (negb b) w' = inbound (negb b) w.
Proof.
  unfold NetworkInputCallBack, ReadFromSocket, PollSocket.
  destruct (host_recvfrom (HostSockets := view b) w) as [[w1 r] p] eqn:Er. cbn in Er. apply nl_recvfrom in Er.
  intros HE. inv_ok.
  repeat match goal with
  | H : (if ?c then _ else _) = Ok _ |- _ => destruct c
  | _ => progress inv_ok
  end; done.
Qed.

(** Both letters can be sent. *)
Lemma sendable_letter b packet0 wire0 out0 box data :
  buffers packet0 wire0 -> 0 <= box < nb -> (length data <= 40)%nat ->
  sendable (name b) (name (negb b)) nb packet0 wire0 (mkPacket (name (negb b)) (p_from out0) (p_length out0))
    (mkMailHdr box 1 (Z.of_nat (length data))) data.
Proof.
  intros [Hp Hw] Hbox Hl. split; try done.
  split; cbn [letter_of l_pkt l_hdr l_body p_to p_from p_length h_to h_from h_length]; try done.
  - split_and!; [destruct b; by unfold is_int|destruct b; by unfold is_int|].
    unfold is_uint, sizeof_mail_header; cbn [p_length]; lia.
  - unfold MaxMailSize, MaxPacketSize, MaxWireSize, sizeof_header, sizeof_mail_header. lia.
  - rewrite length_take. lia.
  - apply Hnb.
Qed.

Lemma send_mail_inv s b random packet0 wire0 out0 box data next :
  net_inv s -> buffers packet0 wire0 -> 0 <= box < nb -> (length data <= 40)%nat ->
  sent_at b next = sent_at b (pc (n_test (node s b)))
    ++ [letter_of (name b) (mkPacket (name (negb b)) 0 0) (mkMailHdr box 1 (Z.of_nat (length data))) data] ->
  got_at b next = got_at b (pc (n_test (node s b))) -> shown_at b next = shown_at b (pc (n_test (node s b))) -> next <> SendAck ->
  exists nd w, send_mail times100 b random packet0 wire0 out0 (name (negb b)) box data next (node s b) (world s) = Ok (nd, w) /\
    net_inv (mkNet w (upd b nd (node s))).
Proof.
  intros Hi Hbuf Hbox Hlen Hs Hg Hsh Hne. pose proof (ni_dir _ Hi b) as D1. pose proof (ni_dir _ Hi (negb b)) as D2.
  rewrite negb_involutive in D2.
  pose proof (sendable_letter b packet0 wire0 out0 box data Hbuf Hbox Hlen) as Hsd.
  destruct (send_inv (H := view (negb b)) times100 (name b) (name (negb b)) (inbound (negb b)) free_lock free_lock wait_sent
    keeps_free keeps_free wait_sent_ok (dir_of (node s b) (node s (negb b)) (world s)) random packet0 wire0
    (mkPacket (name (negb b)) (p_from out0) (p_length out0)) (mkMailHdr box 1 (Z.of_nat (length data))) data D1)
    as (n & w & k & E & D1'); [cbn [dir_of s_office]; by rewrite (ni_nb _ Hi)|].
  cbn [dir_of s_out s_world s_ka s_office s_buffer s_kb s_sent s_got] in E, D1'.
  change (PostSend (H := view b) times100 (name b) free_lock free_lock wait_sent random packet0 wire0
    (mkPacket (name (negb b)) (p_from out0) (p_length out0)) (mkMailHdr box 1 (Z.of_nat (length data))) data
    (n_out (node s b)) (world s) (n_k (node s b)) = Ok (n, w, k)) in E.
  unfold send_mail. rewrite E. cbn [mbind outcome_bind]. eexists _, w. split; [reflexivity|].
  pose proof (fun H => PostSend_other b _ _ _ _ _ _ _ _ _ _ _ _ H E) as Hother. destruct (Hother eq_refl) as [Hw Hav]. destruct (ni_test _ Hi b) as [Ts Tg Tsh Tb Tr].
  apply net_inv_upd; [done|exact D1'| |exact (ni_nb _ Hi b)| |].
  - apply (mail_inv_world _ _ _ w (n_k (node s (negb b))) k D2); [apply (mi_kb _ _ _ D1)|exact (mi_ka _ _ _ D1')|done].
  - unfold avail_inv. cbn [n_k n_office]. rewrite Hav. exact (ni_avail _ Hi b).
  - split; cbn [n_sent n_got n_test pc shown t_buffer]; [by rewrite Ts, Hs|by rewrite Hg|by rewrite Hsh|done|done].
Qed.

(** What is in a box of machine [b] is a part of what the other one has sent to
    it and not read yet. *)
Lemma box_sublist s b box messages :
  net_inv s -> 0 <= box < nb -> boxes (n_office (node s b)) !! Z.to_nat box = Some messages ->
  (for_box box (n_got (node s b)) ++ (mail_letter <$> messages)) `sublist_of` for_box box (n_sent (node s (negb b))) /\
  forall m, m ∈ messages -> length (mail_data m) = Z.to_nat MaxMailSize /\ 0 <= h_length (mailHdr m) <= MaxMailSize.
Proof.
  intros Hi Hb Hm. pose proof (ni_dir _ Hi (negb b)) as D. rewrite negb_involutive in D.
  destruct (mi_letters _ _ _ D) as (del & dev & soc & Hsub & _ & _ & Hok & Hboxes). specialize (Hboxes _ _ Hm).
  cbn [dir_of s_got s_office s_sent] in *. rewrite Z2Nat.id in Hboxes by lia. split.
  - rewrite Hboxes. apply for_box_sublist. etrans; [|exact Hsub]. by apply sublist_inserts_r.
  - intros m Hin. split; [exact (mi_mail _ _ _ D _ _ _ Hm Hin)|].
    assert (mail_letter m ∈ del) as Hd.
    { apply (list_elem_of_filter (fun l => h_to (l_hdr l) = box)). fold (for_box box del). rewrite <- Hboxes.
      apply elem_of_app. right. by apply list_elem_of_fmap_2. }
    rewrite Forall_forall in Hok. apply (lo_size _ _ _ (Hok (mail_letter m) ltac:(set_solver))).
Qed.

Lemma sublist_one {A} (x : A) (l : list A) : l `sublist_of` [x] -> l = [] \/ l = [x].
Proof.
  intros Hs. destruct l as [|z l]; [by left|right]. apply sublist_cons_l in Hs as (k1 & k2 & E & Hs).
  destruct k1 as [|? [|]]; cbn in E; simplify_eq; try done. apply sublist_nil_r in Hs. by subst.
Qed.

(** What a letter of the test carries. *)
Record test_letter (b : bool) (l : letter) (line : list Z) : Prop := {
  tl_body : l_body l = line ++ [0];
  tl_text : Forall (fun c => c <> 0) line;
  tl_length : h_length (l_hdr l) = Z.of_nat (length (l_body l));
  tl_short : (length (l_body l) <= 40)%nat;
  tl_from : p_from (l_pkt l) = name b;
  tl_reply : h_from (l_hdr l) = 1;
}.
Lemma hello_test_letter b : test_letter b (hello_letter b) (text "Hello there!").
Proof. split; try done; [apply (bool_decide_unpack _); vm_compute; exact I..]. Qed.
Lemma ack_test_letter b : test_letter b (ack_letter b) (text "Got it!").
Proof. split; try done; [apply (bool_decide_unpack _); vm_compute; exact I..]. Qed.

Lemma receive_mail_inv s b box next l line :
  net_inv s -> 0 <= box < nb -> for_box box (n_got (node s b)) = [] ->
  for_box box (n_sent (node s (negb b))) `sublist_of` [l] -> test_letter (negb b) l line ->
  sent_at b next = sent_at b (pc (n_test (node s b))) -> got_at b next = got_at b (pc (n_test (node s b))) ++ [l] ->
  shown_at b next = shown_at b (pc (n_test (node s b))) ++ [(line, name (negb b), 1)] ->
  exists r, receive_mail box next (node s b) = Ok r /\
    match r with None => True | Some nd => net_inv (mkNet (world s) (upd b nd (node s))) end.
Proof.
  intros Hi Hbox Hg Hsent Hl Hs1 Hs2 Hs3. pose proof (ni_dir _ Hi (negb b)) as D2. rewrite negb_involutive in D2.
  pose proof (mi_boxes _ _ _ D2) as Hlen. destruct (ni_test _ Hi b) as [Ts Tg Tsh Tb Tr]. pose proof (ni_nb _ Hi b) as Enb.
  cbn [dir_of s_office] in Hlen.
  destruct (lookup_lt_is_Some_2 (boxes (n_office (node s b))) (Z.to_nat box)) as [messages Hm]; [lia|].
  destruct (box_sublist s b box messages Hi Hbox Hm) as [Hsub Hmail]. rewrite Hg in Hsub. cbn [app] in Hsub.
  destruct (receive_inv (H := view b) (name b) (inbound b) free_lock free_lock wait_sent PostCallBack keeps_free keeps_free wait_sent_ok keeps_callback
    _ box (t_buffer (n_test (node s b))) D2) as (r & E & D2'); [cbn [dir_of s_office]; by rewrite Enb|done|].
  cbn [dir_of s_office s_out s_world s_ka s_buffer s_kb s_sent s_got] in E, D2'. unfold receive_mail. rewrite E. cbn [mbind outcome_bind].
  rewrite (PostReceive_ok box _ _ messages) in E; [|by rewrite Enb|done..].
  destruct messages as [|m rest]; [injection E as <-; by eexists|]. injection E as <-.
  assert (mail_letter m = l) as El.
  { destruct (sublist_one l (mail_letter <$> m :: rest)) as [Ho|Ho]; [by etrans|done|]. by injection Ho. }
  assert (pktHdr m = l_pkt l /\ mailHdr m = l_hdr l /\ take (Z.to_nat (h_length (mailHdr m))) (mail_data m) = l_body l) as (Ep & Eh & Em)
    by (by rewrite <- El).
  destruct Hl as [Lb Lt Ll Lsh Lf Lr].
  assert (splice (t_buffer (n_test (node s b))) 0 (l_body l) = line ++ 0 :: drop (length (l_body l)) (t_buffer (n_test (node s b)))) as Esp.
  { unfold splice. rewrite take_0, Lb. cbn [app Nat.add]. by rewrite <- app_assoc. }
  rewrite Em, Eh, Ep, Esp in D2' |- *. rewrite (print_string_ok line) by done. cbn [mbind outcome_bind].
  assert (mkLetter (l_pkt l) (l_hdr l) (take (Z.to_nat (h_length (l_hdr l))) (line ++ 0 :: drop (length (l_body l)) (t_buffer (n_test (node s b))))) = l) as El2.
  { rewrite Ll, Nat2Z.id, cons_middle, app_assoc, <- Lb, take_app_length. by destruct l. }
  rewrite El2 in D2' |- *. eexists. split; [reflexivity|].
  apply net_inv_upd; [done| |exact D2'|exact Enb|exact (ni_avail _ Hi b)|].
  - exact (ni_dir _ Hi b).
  - split; cbn [n_sent n_got n_test pc shown t_buffer inPkt inMail]; [by rewrite Ts, Hs1|by rewrite Tg, Hs2|by rewrite Tsh, Hs3, Lf, Lr| |done].
    rewrite <- Esp, length_splice; [done|]. rewrite Tb. unfold MaxMailSize, MaxPacketSize, MaxWireSize, sizeof_header, sizeof_mail_header. lia.
Qed.

Lemma poll_avail b n w k n' w' k' :
  NetworkInputCallBack (H := view b) (name b) PostCallBack n w k = Ok (n', w', k') ->
  (n' = n /\ messageAvailable k' = messageAvailable k) \/
  (messageAvailable k' = messageAvailable k + 1 /\ p_length (inHdr n) = 0 /\ inbound b w <> []).
Proof.
  unfold NetworkInputCallBack, PollSocket, PostCallBack. intros HE. cbn [mbind outcome_bind] in HE.
  destruct (Schedule _ _ _ _) as [k1|] eqn:E1; cbn [mbind outcome_bind] in HE; [|discriminate]. apply Schedule_avail in E1.
  destruct (Z.eqb_spec (p_length (inHdr n)) 0) as [E0|E0]; cbn [negb] in HE; [|injection HE as <- <- <-; by left].
  pose proof (nl_socket (inbound := inbound) b) as Hlaws.
  rewrite (select_ready (H := view b) (me := name b) (inbound := inbound b)) in HE.
  destruct (decide (inbound b w = [])) as [Ew|Ew]; cbn in HE; [injection HE as <- <- <-; by left|].
  right. split; [|done]. unfold ReadFromSocket in HE. destruct (host_recvfrom w) as [[w1 r] p].
  inv_ok. cbn. by rewrite E1.
Qed.

Lemma poll_node_inv s b : net_inv s -> exists nd w, poll b (node s b) (world s) = Ok (nd, w) /\ net_inv (mkNet w (upd b nd (node s))).
Proof.
  intros Hi. pose proof (ni_dir _ Hi (negb b)) as D2. rewrite negb_involutive in D2. pose proof (ni_dir _ Hi b) as D1.
  destruct (poll_inv (H := view b) (name b) (inbound b) free_lock free_lock wait_sent PostCallBack keeps_free keeps_free wait_sent_ok keeps_callback _ D2)
    as (n & w & k & E & D2').
  cbn [dir_of s_office s_out s_world s_ka s_buffer s_kb s_sent s_got] in E, D2'.
  unfold poll. rewrite E. cbn [mbind outcome_bind]. eexists _, w. split; [reflexivity|].
  apply net_inv_upd; [done| |exact D2'|exact (ni_nb _ Hi b)| |].
  - apply (mail_inv_world _ _ _ w k (n_k (node s (negb b))) D1); [exact (mi_kb _ _ _ D2')|exact (mi_ka _ _ _ D2')|exact (poll_other _ _ _ _ _ _ _ _ E)].
  - pose proof (ni_avail _ Hi b) as Ha. unfold avail_inv in *. cbn [n_k n_office network].
    destruct (poll_avail b _ _ _ _ _ _ E) as [[-> ->]|(-> & E0 & Hne)]; [done|]. rewrite Ha, E0. cbn [Z.eqb].
    destruct (mi_letters _ _ _ D2) as (del & dev & soc & _ & _ & Hsoc & Hok & _). cbn [dir_of s_world s_office] in Hsoc, Hok.
    destruct (inbound b (world s)) as [|p q] eqn:Ew; [done|].
    apply Forall2_cons_inv_l in Hsoc as (l & soc' & (wire0 & data & -> & Hw0 & Hd & Htake) & _ & ->).
    assert (letter_ok (name b) (numBoxes (n_office (node s b))) l) as Hl. { rewrite Forall_forall in Hok. apply Hok. set_solver. }
    pose proof (lo_size _ _ _ Hl) as Hsz. pose proof (lo_length _ _ _ Hl) as Hpl.
    unfold MaxMailSize, MaxPacketSize, MaxWireSize, sizeof_header, sizeof_mail_header in Hsz, Hpl.
    destruct (NetworkInput_packet (H := view b) (name b) (inbound b) PostCallBack (network (n_office (node s b))) (world s) (n_k (node s b))
      wire0 (l_pkt l) data q keeps_callback (mi_kb _ _ _ D2) E0 (mi_inbox _ _ _ D2) Ew Hw0 (lo_pkt _ _ _ Hl) (lo_me _ _ _ Hl))
      as (w1 & k1 & E1 & _); [unfold MaxPacketSize, MaxWireSize, sizeof_header; lia|exact Hd|].
    rewrite E in E1. injection E1 as -> _ _. cbn [inHdr]. rewrite (proj2 (Z.eqb_neq _ _)) by lia. done.
  - destruct (ni_test _ Hi b). by split.
Qed.

Lemma deliver_node_inv s b data0 :
  net_inv s -> 0 < messageAvailable (n_k (node s b)) -> length data0 = Z.to_nat MaxMailSize ->
  exists nd, deliver data0 (node s b) = Ok nd /\ net_inv (mkNet (world s) (upd b nd (node s))).
Proof.
  intros Hi Hav Hd0. pose proof (ni_dir _ Hi (negb b)) as D2. rewrite negb_involutive in D2. pose proof (ni_dir _ Hi b) as D1.
  pose proof (ni_avail _ Hi b) as Ha. unfold avail_inv in Ha.
  destruct (Z.eqb_spec (p_length (inHdr (network (n_office (node s b))))) 0) as [E0|E0]; [lia|].
  destruct (deliver_inv (H := view b) (name b) (inbound b) free_lock free_lock wait_sent PostCallBack keeps_free keeps_free wait_sent_ok keeps_callback
    _ data0 D2 E0 Hd0) as (po & buffer & E & D2').
  cbn [dir_of s_office s_out s_world s_ka s_buffer s_kb s_sent s_got] in E, D2'.
  pose proof E as E'. unfold deliver. rewrite E. cbn [mbind outcome_bind]. eexists. split; [reflexivity|].
  unfold PostalDelivery, NetworkReceive in E'. inv_ok. rewrite (proj2 (Z.eqb_neq _ _)) in * by done. cbn [negb] in *. inv_ok.
  apply net_inv_upd; [done| | |exact (ni_nb _ Hi b)| |].
  - apply (mail_inv_world _ _ _ (world s) _ _ D1); [exact (mi_kb _ _ _ D2)|exact (mi_ka _ _ _ D2)|done].
  - apply (mail_inv_world _ _ _ (world s) _ _ D2'); [exact (mi_ka _ _ _ D2)|exact (mi_kb _ _ _ D2)|done].
  - unfold avail_inv. cbn. lia.
  - destruct (ni_test _ Hi b). by split.
Qed.

Lemma test_node_inv s b random packet0 wire0 out0 :
  net_inv s -> buffers packet0 wire0 ->
  exists r, NetworkTest times100 b random packet0 wire0 out0 (node s b) (world s) = Ok r /\
    match r with None => True | Some (nd, w) => net_inv (mkNet w (upd b nd (node s))) end.
Proof.
  intros Hi Hb. destruct (ni_test _ Hi b) as [Ts Tg Tsh Tb Tr]. pose proof (ti_sent _ _ (ni_test _ Hi (negb b))) as Ts'.
  unfold NetworkTest. destruct (pc (n_test (node s b))) eqn:Epc.
  - destruct (send_mail_inv s b random packet0 wire0 out0 0 hello WaitHello) as (nd & w & -> & Hi'); rewrite ?Epc; try done; [lia|cbn; lia|].
    cbn [mbind outcome_bind]. by eexists.
  - destruct (receive_mail_inv s b 0 SendAck (hello_letter (negb b)) (text "Hello there!")) as (r & -> & Hi'); rewrite ?Epc; try done; [lia|by rewrite Tg| |apply hello_test_letter|].
    + rewrite Ts'. destruct (pc (n_test (node s (negb b)))); first [reflexivity|apply sublist_nil_l].
    + cbn [mbind outcome_bind]. eexists. split; [reflexivity|]. by destruct r.
  - destruct (Tr eq_refl) as [-> ->].
    destruct (send_mail_inv s b random packet0 wire0 out0 1 got_it WaitAck) as (nd & w & -> & Hi'); rewrite ?Epc; try done; [lia|cbn; lia|].
    cbn [mbind outcome_bind]. by eexists.
  - destruct (receive_mail_inv s b 1 TestDone (ack_letter (negb b)) (text "Got it!")) as (r & -> & Hi'); rewrite ?Epc; try done; [lia|by rewrite Tg| |apply ack_test_letter|].
    + rewrite Ts'. destruct (pc (n_test (node s (negb b)))); first [reflexivity|apply sublist_nil_l].
    + cbn [mbind outcome_bind]. eexists. split; [reflexivity|]. by destruct r.
  - by eexists.
Qed.

Lemma net_step_inv s s' : net_inv s -> net_step s s' -> net_inv s'.
Proof.
  intros Hi Hstep. destruct Hstep as [s b random packet0 wire0 out0 nd w Hb E|s b nd w E|s b data0 nd Hav Hd E|s b k Hk Hav].
  - destruct (test_node_inv s b random packet0 wire0 out0 Hi Hb) as (r & E' & H'). rewrite E in E'. by injection E' as <-.
  - destruct (poll_node_inv s b Hi) as (nd' & w' & E' & H'). rewrite E in E'. by injection E' as <- <-.
  - destruct (deliver_node_inv s b data0 Hi Hav Hd) as (nd' & E' & H'). rewrite E in E'. by injection E' as <-.
  - pose proof (ni_dir _ Hi (negb b)) as D2. rewrite negb_involutive in D2. pose proof (ni_dir _ Hi b) as D1.
    apply net_inv_upd; [done| | |exact (ni_nb _ Hi b)| |].
    + apply (mail_inv_world _ _ _ (world s) k _ D1); [done|exact (mi_kb _ _ _ D1)|done].
    + apply (mail_inv_world _ _ _ (world s) _ k D2); [exact (mi_ka _ _ _ D2)|done|done].
    + unfold avail_inv. cbn [n_k n_office]. rewrite Hav. exact (ni_avail _ Hi b).
    + destruct (ni_test _ Hi b). by split.
Qed.

(** Both machines have just opened their post offices. *)
Record node_start (nd : Node) : Prop := {
  ns_idle : sendBusy (n_out nd) = false;
  ns_clock : clock_ok (n_k nd);
  ns_buffer : length (n_buffer nd) = Z.to_nat MaxPacketSize;
  ns_inbox : length (inbox (network (n_office nd))) = Z.to_nat MaxPacketSize;
  ns_empty : p_length (inHdr (network (n_office nd))) = 0;
  ns_avail : messageAvailable (n_k nd) = 0;
  ns_boxes : numBoxes (n_office nd) = nb /\ boxes (n_office nd) = replicate (Z.to_nat nb) [];
  ns_test : pc (n_test nd) = SendHello /\ shown (n_test nd) = [] /\ length (t_buffer (n_test nd)) = Z.to_nat MaxMailSize;
  ns_log : n_sent nd = [] /\ n_got nd = [];
}.

Lemma net_start_inv s : (forall b, node_start (node s b)) -> (forall b, inbound b (world s) = []) -> net_inv s.
Proof.
  intros Hn Hw. split; intros b.
  - destruct (Hn b) as [A1 A2 A3 A4 A5 A6 A7 A8 [A9 A10]], (Hn (negb b)) as [B1 B2 B3 B4 B5 B6 [B7 B7'] B8 [B9 B10]].
    apply (start_inv (H := view (negb b)) (name (negb b)) (inbound (negb b)) free_lock free_lock wait_sent PostCallBack
      keeps_free keeps_free wait_sent_ok keeps_callback).
    split; cbn [dir_of s_out s_ka s_kb s_buffer s_office s_world s_sent s_got]; try done.
    rewrite B7. split; [lia|done].
  - apply (Hn b).
  - unfold avail_inv. destruct (Hn b) as [_ _ _ _ E Ea _ _ _]. by rewrite E, Ea.
  - destruct (Hn b) as [_ _ _ _ _ _ _ (E1 & E2 & E3) [E4 E5]]. split; rewrite ?E1; done.
Qed.

(** C9: the network test works on two machines at once.  Whatever the order in
    which the two tests, the devices and the postal workers run and whichever
    packets are lost: no assertion fails and no buffer overflows, in the tests,
    the interrupt handlers and the postal workers; a postal worker that is let
    go by its semaphore finds a packet, and the semaphore never counts more than
    one; and a machine prints at most the two lines of the test, in their order,
    with the text, the machine and the reply box of the other side -- both of
    them once it is done. *)
Theorem network_test_correct s0 s :
  (forall b, node_start (node s0 b)) -> (forall b, inbound b (world s0) = []) -> rtc net_step s0 s ->
  (forall b random packet0 wire0 out0, buffers packet0 wire0 ->
     exists r, NetworkTest times100 b random packet0 wire0 out0 (node s b) (world s) = Ok r) /\
  (forall b, exists r, poll b (node s b) (world s) = Ok r) /\
  (forall b, 0 <= messageAvailable (n_k (node s b)) <= 1) /\
  (forall b data0, 0 < messageAvailable (n_k (node s b)) -> length data0 = Z.to_nat MaxMailSize ->
     p_length (inHdr (network (n_office (node s b)))) <> 0 /\ exists r, deliver data0 (node s b) = Ok r) /\
  forall b, shown (n_test (node s b)) `prefix_of` [(text "Hello there!", name (negb b), 1); (text "Got it!", name (negb b), 1)] /\
    (pc (n_test (node s b)) = TestDone -> shown (n_test (node s b)) = [(text "Hello there!", name (negb b), 1); (text "Got it!", name (negb b), 1)]).
Proof using Hnb NetworkLaws0.
  intros Hn Hw Hr. assert (net_inv s) as Hi.
  { pose proof (net_start_inv s0 Hn Hw) as Hi0. clear Hn Hw. induction Hr; eauto using net_step_inv. }
  split_and!.
  - intros b random packet0 wire0 out0 Hb. destruct (test_node_inv s b random packet0 wire0 out0 Hi Hb) as (r & -> & _). eauto.
  - intros b. destruct (poll_node_inv s b Hi) as (nd & w & -> & _). eauto.
  - intros b. rewrite (ni_avail _ Hi b). case_match; lia.
  - intros b data0 Hav Hd. split; [|destruct (deliver_node_inv s b data0 Hi Hav Hd) as (nd & -> & _); eauto].
    pose proof (ni_avail _ Hi b) as Ha. unfold avail_inv in Ha. destruct (Z.eqb_spec (p_length (inHdr (network (n_office (node s b))))) 0); lia.
  - intros b. rewrite (ti_shown _ _ (ni_test _ Hi b)). split; [|by intros ->].
    destruct (pc _); try by apply prefix_nil. 1-2: by eexists. done.
Qed.
End system.

(** ** A run: two queues of datagrams, and no packet lost. *)
Module NetSim.
#[global] Instance queues : HostNetwork (list (list Z) * list (list Z)) := {
  net_select b w := match (if b then w.2 else w.1) with [] => 0 | _ => 1 end;
  net_recvfrom b w :=
    match b, w with
    | false, (p :: q, r) => ((q, r), Z.of_nat (length p), p)
    | true, (q, p :: r) => ((q, r), Z.of_nat (length p), p)
    | _, _ => (w, -1, [])
    end;
  net_sendto to p w :=
    if to =? 0 then ((w.1 ++ [p], w.2), Z.of_nat (length p))
    else if to =? 1 then ((w.1, w.2 ++ [p]), Z.of_nat (length p)) else (w, -1) }.
Definition waiting (b : bool) (w : list (list Z) * list (list Z)) : list (list Z) := if b then w.2 else w.1.

#[global] Instance queues_laws : NetworkLaws (list (list Z) * list (list Z)) waiting.
Proof.
  split.
  - intros b. split.
    + intros [q r]. destruct b; cbn; [by destruct r|by destruct q].
    + intros [q r] p l E Hp. destruct b; cbn in E; subst; cbn; rewrite Hp; by eexists.
    + intros [q r] p Hp. destruct b; cbn; eexists _, _; (split; [done|left; split; [by rewrite Hp|done]]).
  - intros [] p [q r] w' n; cbn; by intros [= <- <-].
  - intros [] [q r] w' n p; cbn; [destruct r|destruct q]; by intros [= <- <- <-].
Qed.

Definition k0 : NetKernel := mkNK (mkInterrupt IntOn [] false false SystemMode) newStatistics 0.
Definition nd0 : Node :=
  mkNode (newNetworkOutput 1) (newOffice (mkNetIn false (mkPacket 0 0 0) (replicate 52 0)) 10) (replicate 52 0) k0
    (mkTest SendHello (mkPacket 0 0 0) (mkMailHdr 0 0 0) (replicate 40 0) []) [] [].
Definition s0 : Net (list (list Z) * list (list Z)) := mkNet ([], []) (fun _ => nd0).

Lemma nd0_start : node_start 10 nd0.
Proof. by split. Qed.

Lemma test_step s b s' :
  match NetworkTest MailSim.times b 5 (replicate 52 0) (replicate 64 0) (mkPacket 0 0 0) (node s b) (world s) with
  | Ok (Some (nd, w)) => s' = mkNet w (upd b nd (node s)) | _ => False end -> net_step MailSim.times s s'.
Proof.
  intros HE. destruct (NetworkTest _ _ _ _ _ _ _ _) as [[[nd w]|]|] eqn:E; try done. subst. eapply net_test; [|exact E]. by split.
Qed.
Lemma poll_step s b s' :
  match poll b (node s b) (world s) with Ok (nd, w) => s' = mkNet w (upd b nd (node s)) | _ => False end -> net_step MailSim.times s s'.
Proof. intros HE. destruct (poll _ _ _) as [[nd w]|] eqn:E; [|done]. subst. by eapply net_poll. Qed.
Lemma deliver_step s b s' :
  (0 <? messageAvailable (n_k (node s b))) = true ->
  match deliver (replicate 40 0) (node s b) with Ok nd => s' = mkNet (world s) (upd b nd (node s)) | _ => False end -> net_step MailSim.times s s'.
Proof. intros Ha%Z.ltb_lt HE. destruct (deliver _ _) as [nd|] eqn:E; [|done]. subst. eapply net_deliver; [exact Ha| |exact E]. done. Qed.

Lemma full_run : exists s, rtc (net_step MailSim.times) s0 s /\ pc (n_test (node s false)) = TestDone /\ pc (n_test (node s true)) = TestDone.
Proof.
  eexists. split.
  - do 2 (eapply rtc_l; [eapply (test_step _ false); vm_compute; reflexivity|]; eapply rtc_l; [eapply (test_step _ true); vm_compute; reflexivity|];
      eapply rtc_l; [eapply (poll_step _ false); vm_compute; reflexivity|]; eapply rtc_l; [eapply (poll_step _ true); vm_compute; reflexivity|];
      eapply rtc_l; [eapply (deliver_step _ false); vm_compute; reflexivity|]; eapply rtc_l; [eapply (deliver_step _ true); vm_compute; reflexivity|];
      eapply rtc_l; [eapply (test_step _ false); vm_compute; reflexivity|]; eapply rtc_l; [eapply (test_step _ true); vm_compute; reflexivity|]).
    apply rtc_refl.
  - split; reflexivity.
Qed.
End NetSim.

Lemma network_test_correct_witness :
  exists s, rtc (net_step MailSim.times) NetSim.s0 s /\
    shown (n_test (node s false)) = [(text "Hello there!", 1, 1); (text "Got it!", 1, 1)] /\
    shown (n_test (node s true)) = [(text "Hello there!", 0, 1); (text "Got it!", 0, 1)].
Proof.
  destruct NetSim.full_run as (s & Hr & H0 & H1). exists s. split; [exact Hr|].
  pose proof (network_test_correct NetSim.waiting MailSim.times 10 ltac:(lia) NetSim.s0 s
    (fun _ => NetSim.nd0_start) (fun b => ltac:(destruct b; reflexivity)) Hr) as (_ & _ & _ & _ & HT).
  split; [exact (proj2 (HT false) H0)|exact (proj2 (HT true) H1)].
Defined.

(** ** [Kernel::ConsoleTest] *)

(** What the terminal does with characters that are written to it. *)
Class DisplayLaws (T : Type) `{HostTerminal T} (left written : T -> list Z) : Prop := {
  tty_write_one t c : exists t', tty_write t c = (t', 1) /\ left t' = left t /\ written t' = written t ++ [c];
  tty_read_written t t' n c : tty_read t = (t', n, c) -> written t' = written t;
}.

Section console_test.
Context {T : Type} `{HostTerminal T} (left written : T -> list Z) `{!TerminalLaws T left} `{!DisplayLaws T left written}.
Implicit Types s : keyboard T.

(** [synchConsoleOut->PutChar(ch)]: the device takes the character and its
    interrupt, for which the caller waits, frees it again. *)
Definition SynchPut (ch : Z) (t : T) (k : ConsoleKernel) : outcome (T * ConsoleKernel) :=
  '(busy, t, k) ← PutChar ch false t k;
  '(_, k) ← ConsoleOutputCallBack (fun k => Ok k) busy k;
  Ok (t, k).

(** One round of the loop; [None] if the thread waits for a key, and the flag says
    whether the loop is left. *)
Definition ConsoleTest s : outcome (option (keyboard T * bool)) :=
  if negb (0 <? waitFor (kb_k s)) then Ok None
  else
    '(incoming, k, ch) ← SynchGetChar (kb_in s) (kb_k s);
    if negb (ch =? EOF) then
      '(t, k) ← SynchPut ch (kb_tty s) k;
      Ok (Some (mkKeyboard incoming t k (kb_got s ++ [ch]), false))
    else Ok (Some (mkKeyboard incoming (kb_tty s) k (kb_got s ++ [ch]), true)).

(** The test, the keyboard's interrupt and the passing of time; nothing else
    reads keys or writes to the display. *)
Inductive console_step : keyboard T * bool -> keyboard T * bool -> Prop :=
  | console_round s s' fin : ConsoleTest s = Ok (Some (s', fin)) -> console_step (s, false) (s', fin)
  | console_interrupt s d p1 x p2 c t k :
      pending (ck_int (kb_k s)) = p1 ++ x :: p2 -> is_read_int x = true ->
      ConsoleInputCallBack SynchInputCallBack (kb_in s) (kb_tty s) (without (p1 ++ p2) (kb_k s)) = Ok (c, t, k) ->
      console_step (s, d) (mkKeyboard c t k (kb_got s), d)
  | console_time s d t k :
      left t = left (kb_tty s) -> written t = written (kb_tty s) -> waitFor k = waitFor (kb_k s) -> armed k = armed (kb_k s) -> clock_ok k ->
      console_step (s, d) (mkKeyboard (kb_in s) t k (kb_got s), d).

(** The display shows what was read, without the end. *)
Definition echo_inv (typed : list Z) (sd : keyboard T * bool) : Prop :=
  key_inv left typed sd.1 /\
  kb_got sd.1 = written (kb_tty sd.1) ++ (if sd.2 then [EOF] else []) /\ EOF ∉ written (kb_tty sd.1).

Lemma SynchPut_ok ch t k :
  clock_ok k -> exists t' k', SynchPut ch t k = Ok (t', k') /\ left t' = left t /\ written t' = written t ++ [ch] /\
    waitFor k' = waitFor k /\ armed k' = armed k /\ clock_ok k'.
Proof.
  intros [Ht Hs]. unfold SynchPut, PutChar, WriteFile. cbn [negb ASSERT mbind outcome_bind].
  destruct (tty_write_one (left := left) (written := written) t ch) as (t' & -> & Hl & Hw). cbn [Z.eqb Pos.eqb ASSERT mbind outcome_bind].
  unfold Schedule. rewrite int_add_Ok by (unfold is_int, ConsoleTime; cbn in *; lia). cbn [mbind outcome_bind].
  change (0 <? ConsoleTime) with true. cbn [ASSERT mbind outcome_bind]. eexists t', _. split; [reflexivity|].
  split_and!; [done|done|done| |].
  - unfold armed, count_chars. cbn [ck_int set_int set_stats ck_state with_pending pending k_int].
    by rewrite place_Permutation, filter_cons, decide_False by (intros HF; cbv in HF; done).
  - split; [done|]. cbn. by apply place_Sorted; [apply _|].
Qed.

Lemma ConsoleTest_ok typed s :
  echo_inv typed (s, false) ->
  exists r, ConsoleTest s = Ok r /\ match r with None => waitFor (kb_k s) = 0 | Some sd => echo_inv typed sd end.
Proof.
  intros (Hk & Hg & He). cbn [fst snd] in *. rewrite app_nil_r in Hg. unfold ConsoleTest.
  destruct (Z.ltb_spec 0 (waitFor (kb_k s))) as [Hw|Hw]; cbn [negb].
  - destruct (key_get_ok left typed s Hk Hw) as (c & k & ch & -> & Hk'). cbn [mbind outcome_bind].
    destruct (Z.eqb_spec ch EOF) as [->|Hc]; cbn [negb].
    + eexists. split; [reflexivity|]. split; [done|]. cbn [kb_got kb_tty fst snd]. by rewrite Hg.
    + destruct (SynchPut_ok ch (kb_tty s) k (proj1 Hk')) as (t & k' & -> & Hl & Hwr & Hwf & Ha & Hck). cbn [mbind outcome_bind].
      eexists. split; [reflexivity|]. split; [|split]; cbn [fst snd].
      * apply (key_step_inv left typed _ _ Hk'). by apply (key_world left (mkKeyboard c (kb_tty s) k (kb_got s ++ [ch])) t k').
      * cbn [kb_got kb_tty]. by rewrite Hg, Hwr, app_nil_r.
      * cbn [kb_tty]. rewrite Hwr. set_solver.
  - eexists. split; [reflexivity|]. destruct Hk as [_ (read & _ & Hp)]. apply phase_alive in Hp.
    destruct (decide (EOF ∈ kb_got s)); lia.
Qed.

Lemma console_step_inv typed sd sd' : echo_inv typed sd -> console_step sd sd' -> echo_inv typed sd'.
Proof.
  intros Hi Hstep. destruct Hstep as [s s' fin E|s d p1 x p2 c t k Hp Hx E|s d t k Hl Hwr Hw Ha Hk].
  - destruct (ConsoleTest_ok typed s Hi) as (r & E' & H'). rewrite E in E'. by injection E' as <-.
  - destruct Hi as (Hki & Hg & He). cbn [fst snd] in *. split; [|]; cbn [fst snd kb_got kb_tty].
    + apply (key_step_inv left typed s); [done|]. by eapply key_interrupt.
    + assert (written t = written (kb_tty s)) as ->; [|done].
      unfold ConsoleInputCallBack, PollFile, ReadPartial in E. destruct (tty_read (kb_tty s)) as [[t1 n] y] eqn:Er.
      apply (tty_read_written (left := left) (written := written)) in Er. inv_ok.
      repeat match goal with
      | H : (if ?c then _ else _) = Ok _ |- _ => destruct c
      | _ => progress inv_ok
      end; done.
  - destruct Hi as (Hki & Hg & He). cbn [fst snd] in *. split; cbn [fst snd kb_got kb_tty].
    + apply (key_step_inv left typed s); [done|]. by apply key_world.
    + by rewrite Hwr.
Qed.

(** The console test echoes what is typed, up to the first end of file or
    0xFF, and then stops.  Whatever the order of typing, interrupts and the
    test: no assertion of the two devices fails; the display always shows a
    prefix of the characters typed; when the loop is left it shows exactly the
    characters before the first one that reads as [EOF]; and as long as it is
    not left, the test can go on or the keyboard's interrupt is armed. *)
Theorem console_test_echoes typed s0 sd :
  key_start left typed s0 -> written (kb_tty s0) = [] -> rtc console_step (s0, false) sd ->
  (sd.2 = false -> exists r, ConsoleTest sd.1 = Ok r /\ (r = None -> armed (kb_k sd.1) = 1%nat)) /\
  (forall p1 x p2, pending (ck_int (kb_k sd.1)) = p1 ++ x :: p2 -> is_read_int x = true ->
     exists r, ConsoleInputCallBack SynchInputCallBack (kb_in sd.1) (kb_tty sd.1) (without (p1 ++ p2) (kb_k sd.1)) = Ok r) /\
  EOF ∉ written (kb_tty sd.1) /\
  (written (kb_tty sd.1) ++ (if sd.2 then [EOF] else [])) `prefix_of` (signed_char <$> typed) ++ [EOF].
Proof.
  intros (Hin & Hleft & Hk & Ha & Hw & Hgot) Hwr Hr.
  assert (echo_inv typed sd) as Hi.
  { assert (echo_inv typed (s0, false)) as Hi0.
    { split; [|cbn [fst snd]; rewrite Hwr, Hgot; split; [done|set_solver]]. split; [done|].
      exists []. cbn [fst]. rewrite Hin, Hleft, Ha, Hw, Hgot. split; [done|]. constructor. set_solver. }
    revert Hi0. clear -Hr TerminalLaws0 DisplayLaws0. induction Hr; eauto using console_step_inv. }
  destruct sd as [s d]. cbn [fst snd] in *. split_and!.
  - intros ->. destruct (ConsoleTest_ok typed s Hi) as (r & -> & Hr'). exists r. split; [done|]. intros ->.
    destruct Hi as ([_ (read & _ & Hp)] & Hg & He). cbn [fst snd] in *. apply phase_alive in Hp.
    rewrite decide_False in Hp by (rewrite Hg, app_nil_r; done). lia.
  - intros p1 x p2 Hp Hx. destruct Hi as (Hki & _). destruct (key_interrupt_ok left typed s p1 x p2 Hki Hp Hx) as (c & t & k & -> & _). eauto.
  - apply Hi.
  - destruct Hi as ([_ (read & -> & Hp)] & Hg & He). cbn [fst snd] in *. rewrite <- Hg, fmap_app. by eapply phase_prefix.
Qed.
End console_test.

(** The keys a, 0xFF, b: the a is echoed, and the 0xFF ends the test. *)
Module EchoSim.
#[global] Instance screen : HostTerminal (list Z * list Z) := {
  tty_select t := 1;
  tty_read t := match t.1 with [] => (t, 0, 0) | c :: l => ((l, t.2), 1, c) end;
  tty_write t c := ((t.1, t.2 ++ [c]), 1) }.
#[global] Instance screen_terminal : TerminalLaws (list Z * list Z) fst.
Proof. split; [by right|]. intros [[|c l] out] _; by eexists _, 0. Qed.
#[global] Instance screen_display : DisplayLaws (list Z * list Z) fst snd.
Proof.
  split.
  - intros [l out] c. by eexists.
  - intros [[|x l] out] t' n c; cbn; by intros [= <- <- <-].
Qed.
Definition s0 : keyboard (list Z * list Z) := mkKeyboard EOF ([97; 255; 98], []) KeySim.k0 [].
Lemma echo_start : key_start fst [97; 255; 98] s0.
Proof. split_and!; try done. split; [done|]. by repeat constructor. Qed.

Lemma echo_run : exists s, rtc (console_step fst snd) (s0, false) (s, true) /\ (kb_tty s).2 = [97].
Proof.
  eexists. split.
  - eapply rtc_l. { eapply (console_interrupt _ _ _ _ [] _ []); [reflexivity|done|by vm_compute]. }
    eapply rtc_l. { eapply console_round. by vm_compute. }
    eapply rtc_l. { eapply (console_interrupt _ _ _ _ []); [reflexivity|done|by vm_compute]. }
    eapply rtc_l. { eapply console_round. by vm_compute. }
    apply rtc_refl.
  - reflexivity.
Qed.
End EchoSim.

Lemma console_test_echoes_witness :
  exists s, rtc (console_step fst snd) (EchoSim.s0, false) (s, true) /\ (kb_tty s).2 = [97] /\
    ((kb_tty s).2 ++ [EOF]) `prefix_of` (signed_char <$> [97; 255; 98]) ++ [EOF].
Proof.
  destruct EchoSim.echo_run as (s & Hr & Ho). exists s. split; [exact Hr|]. split; [exact Ho|].
  exact (proj2 (proj2 (proj2 (console_test_echoes fst snd [97; 255; 98] EchoSim.s0 (s, true) EchoSim.echo_start eq_refl Hr)))).
Defined.
