(* ===== verification/Mips.v ===== *)
(** * The MIPS R2/3000 simulator (src/code/machine/mipssim.h, mipssim.cc)

    [Decode] turns an instruction word into its operation and operands,
    [OneInstruction] executes one instruction; its [switch] is cut into four
    definitions in the order of the source, each falling through to the next.
    Registers are 32-bit; the simulator relies on the host's wrap-around
    arithmetic, which is written out with [to_int].  The build defines
    SIM_FIX. *)

From S2P Require Import Prelude Bitmap Lists Interrupt Machine.

Inductive op :=
  | OP_ADD | OP_ADDI | OP_ADDIU | OP_ADDU | OP_AND | OP_ANDI | OP_BEQ | OP_BGEZ | OP_BGEZAL
  | OP_BGTZ | OP_BLEZ | OP_BLTZ | OP_BLTZAL | OP_BNE | OP_DIV | OP_DIVU | OP_J | OP_JAL | OP_JALR
  | OP_JR | OP_LB | OP_LBU | OP_LH | OP_LHU | OP_LUI | OP_LW | OP_LWL | OP_LWR | OP_MFHI | OP_MFLO
  | OP_MTHI | OP_MTLO | OP_MULT | OP_MULTU | OP_NOR | OP_OR | OP_ORI | OP_SB | OP_SH | OP_SLL
  | OP_SLLV | OP_SLT | OP_SLTI | OP_SLTIU | OP_SLTU | OP_SRA | OP_SRAV | OP_SRL | OP_SRLV | OP_SUB
  | OP_SUBU | OP_SW | OP_SWL | OP_SWR | OP_XOR | OP_XORI | OP_SYSCALL | OP_UNIMP | OP_RES.

Inductive op_entry := Op (o : op) | SPECIAL | BCOND.
Inductive op_format := IFMT | JFMT | RFMT.

(** [opTable] and [specialTable] of mipssim.h *)
Definition opTable : list (op_entry * op_format) :=
  let I o := (Op o, IFMT) in
  [ (SPECIAL, RFMT); (BCOND, IFMT); (Op OP_J, JFMT); (Op OP_JAL, JFMT);
    I OP_BEQ; I OP_BNE; I OP_BLEZ; I OP_BGTZ;
    I OP_ADDI; I OP_ADDIU; I OP_SLTI; I OP_SLTIU;
    I OP_ANDI; I OP_ORI; I OP_XORI; I OP_LUI;
    I OP_UNIMP; I OP_UNIMP; I OP_UNIMP; I OP_UNIMP;
    I OP_RES; I OP_RES; I OP_RES; I OP_RES;
    I OP_RES; I OP_RES; I OP_RES; I OP_RES;
    I OP_RES; I OP_RES; I OP_RES; I OP_RES;
    I OP_LB; I OP_LH; I OP_LWL; I OP_LW;
    I OP_LBU; I OP_LHU; I OP_LWR; I OP_RES;
    I OP_SB; I OP_SH; I OP_SWL; I OP_SW;
    I OP_RES; I OP_RES; I OP_SWR; I OP_RES;
    I OP_UNIMP; I OP_UNIMP; I OP_UNIMP; I OP_UNIMP;
    I OP_RES; I OP_RES; I OP_RES; I OP_RES;
    I OP_UNIMP; I OP_UNIMP; I OP_UNIMP; I OP_UNIMP;
    I OP_RES; I OP_RES; I OP_RES; I OP_RES ].

Definition specialTable : list op :=
  [ OP_SLL; OP_RES; OP_SRL; OP_SRA; OP_SLLV; OP_RES; OP_SRLV; OP_SRAV;
    OP_JR; OP_JALR; OP_RES; OP_RES; OP_SYSCALL; OP_UNIMP; OP_RES; OP_RES;
    OP_MFHI; OP_MTHI; OP_MFLO; OP_MTLO; OP_RES; OP_RES; OP_RES; OP_RES;
    OP_MULT; OP_MULTU; OP_DIV; OP_DIVU; OP_RES; OP_RES; OP_RES; OP_RES;
    OP_ADD; OP_ADDU; OP_SUB; OP_SUBU; OP_AND; OP_OR; OP_XOR; OP_NOR;
    OP_RES; OP_RES; OP_SLT; OP_SLTU; OP_RES; OP_RES; OP_RES; OP_RES;
    OP_RES; OP_RES; OP_RES; OP_RES; OP_RES; OP_RES; OP_RES; OP_RES;
    OP_RES; OP_RES; OP_RES; OP_RES; OP_RES; OP_RES; OP_RES; OP_RES ].

Record Instruction := mkInstr {
  opCode : op;
  rs : Z;
  rt : Z;
  rd : Z;
  extra : Z;
}.

(** [Instruction::Decode] of the word [value]; both table indices have six
    bits, so they are in range. *)
Definition Decode (value : Z) : Instruction :=
  let '(entry, format) := default (Op OP_RES, IFMT) (opTable !! Z.to_nat (Z.land (Z.shiftr value 26) 0x3f)) in
  let extra :=
    match format with
    | IFMT => let e := Z.land value 0xffff in
              if negb (Z.land e 0x8000 =? 0) then to_int (Z.lor e 0xffff0000) else e
    | RFMT => Z.land (Z.shiftr value 6) 0x1f
    | JFMT => Z.land value 0x3ffffff
    end in
  let o :=
    match entry with
    | Op o => o
    | SPECIAL => default OP_RES (specialTable !! Z.to_nat (Z.land value 0x3f))
    | BCOND =>
        let i := Z.land value 0x1f0000 in
        if i =? 0 then OP_BLTZ
        else if i =? 0x10000 then OP_BGEZ
        else if i =? 0x100000 then OP_BLTZAL
        else if i =? 0x110000 then OP_BGEZAL
        else OP_UNIMP
    end in
  mkInstr o (Z.land (Z.shiftr value 21) 0x1f) (Z.land (Z.shiftr value 16) 0x1f)
    (Z.land (Z.shiftr value 11) 0x1f) extra.

(** The loop of [Mult]: bit [i] of [a] adds [b] shifted by [i]. *)
Fixpoint mult_loop (n : nat) (a bLo bHi lo hi : Z) : Z * Z :=
  match n with
  | O => (hi, lo)
  | S n' =>
      let bit0 := negb (Z.land a 1 =? 0) in
      let lo1 := if bit0 then to_uint (lo + bLo) else lo in
      let hi1 := if bit0 then
                   let h := if lo1 <? bLo then to_uint (hi + 1) else hi in to_uint (h + bHi)
                 else hi in
      if bit0 && (Z.land (to_uint a) 0xfffffffe =? 0) then (hi1, lo1)
      else
        let bHi1 := to_uint (Z.shiftl bHi 1) in
        let bHi2 := if negb (Z.land bLo 0x80000000 =? 0) then Z.lor bHi1 1 else bHi1 in
        mult_loop n' (Z.shiftr a 1) (to_uint (Z.shiftl bLo 1)) bHi2 lo1 hi1
  end.

(** [Mult]: the high and the low word. *)
Definition Mult (a b : Z) (signedArith : bool) : Z * Z :=
  if (a =? 0) || (b =? 0) then (0, 0)
  else
    let '(negative, a, b) :=
      if signedArith then
        let '(negative, a) := if a <? 0 then (true, to_int (- a)) else (false, a) in
        if b <? 0 then (negb negative, a, to_int (- b)) else (negative, a, b)
      else (false, a, b) in
    let '(hi, lo) := mult_loop 32 a (to_uint b) 0 0 0 in
    let '(hi, lo) :=
      if (negative : bool) then
        let hi := to_uint (Z.lnot hi) in
        let lo := to_uint (to_uint (Z.lnot lo) + 1) in
        (if lo =? 0 then to_uint (hi + 1) else hi, lo)
      else (hi, lo) in
    (to_int hi, to_int lo).

(** [x & SIGN_BIT] as a condition; [IndexToAddr]. *)
Definition sign_bit (x : Z) : bool := negb (Z.land (to_uint x) 0x80000000 =? 0).
Definition IndexToAddr (x : Z) : Z := Z.shiftl x 2.
Definition R31 : Z := 31.

(** The inner [switch (3 - byte)] of the unaligned loads and stores: LWL and LWR
    merge the memory word [value] into the register's old value, SWL and SWR
    merge the register [r] into the memory word. *)
Definition lwl_merge (byte old value : Z) : Z :=
  match 3 - byte with
  | 0 => value
  | 1 => to_int (Z.lor (Z.land old 0xff) (Z.shiftl value 8))
  | 2 => to_int (Z.lor (Z.land old 0xffff) (Z.shiftl value 16))
  | 3 => to_int (Z.lor (Z.land old 0xffffff) (Z.shiftl value 24))
  | _ => old
  end.
Definition lwr_merge (byte old value : Z) : Z :=
  match 3 - byte with
  | 0 => to_int (Z.lor (Z.land (to_uint old) 0xffffff00) (Z.land (Z.shiftr value 24) 0xff))
  | 1 => to_int (Z.lor (Z.land (to_uint old) 0xffff0000) (Z.land (Z.shiftr value 16) 0xffff))
  | 2 => to_int (Z.lor (Z.land (to_uint old) 0xff000000) (Z.land (Z.shiftr value 8) 0xffffff))
  | 3 => value
  | _ => old
  end.
Definition swl_merge (byte value r : Z) : Z :=
  match 3 - byte with
  | 0 => r
  | 1 => to_int (Z.lor (Z.land (to_uint value) 0xff000000) (Z.land (Z.shiftr r 8) 0xffffff))
  | 2 => to_int (Z.lor (Z.land (to_uint value) 0xffff0000) (Z.land (Z.shiftr r 16) 0xffff))
  | 3 => to_int (Z.lor (Z.land (to_uint value) 0xffffff00) (Z.land (Z.shiftr r 24) 0xff))
  | _ => value
  end.
Definition swr_merge (byte value r : Z) : Z :=
  match 3 - byte with
  | 0 => to_int (Z.lor (Z.land value 0xffffff) (Z.shiftl r 24))
  | 1 => to_int (Z.lor (Z.land value 0xffff) (Z.shiftl r 16))
  | 2 => to_int (Z.lor (Z.land value 0xff) (Z.shiftl r 8))
  | 3 => r
  | _ => value
  end.

Section mips.
Context {K : Type} `{InterruptState K} `{MachineState K}.
Context (ExceptionHandler : ExceptionType -> K -> outcome K).

Definition R (k : K) (i : Z) : Z := reg (k_machine k) i.
Definition wr (i v : Z) (k : K) : K := set_machine (set_reg i v (k_machine k)) k.

(** How a case of the [switch] ends: [break], with the next PC and the delayed
    load to record, or [return] after an exception. *)
Definition step_end : Type := K * option (Z * Z * Z).
Definition next (pcAfter : Z) (k : K) : outcome step_end := Ok (k, Some (pcAfter, 0, 0)).
Definition load_next (pcAfter r v : Z) (k : K) : outcome step_end := Ok (k, Some (pcAfter, r, v)).
Definition trap (e : ExceptionType) (badVAddr : Z) (k : K) : outcome step_end :=
  k ← RaiseException ExceptionHandler e badVAddr k; Ok (k, None).

(** [ReadMem(addr, size, &value)] that returns from the instruction if it fails. *)
Definition with_read (addr size : Z) (k : K) (f : Z -> K -> outcome step_end) : outcome step_end :=
  '(k, v) ← ReadMem ExceptionHandler addr size k;
  match v with
  | None => Ok (k, None)
  | Some value => f value k
  end.
Definition with_write (addr size value : Z) (k : K) (f : K -> outcome step_end) : outcome step_end :=
  '(k, ok) ← WriteMem ExceptionHandler addr size value k;
  if (ok : bool) then f k else Ok (k, None).

(** OP_SWL to the end of the [switch]. *)
Definition exec_rest (i : Instruction) (pcAfter : Z) (k : K) : outcome step_end :=
  match opCode i with
  | OP_SWL =>
      let tmp := to_int (R k (rs i) + extra i) in
      let byte := Z.land tmp 3 in
      with_read (to_int (tmp - byte)) 4 k (fun value k =>
        let r := R k (rt i) in
        let value := swl_merge byte value r in
        with_write (to_int (tmp - byte)) 4 value k (next pcAfter))
  | OP_SWR =>
      let tmp := to_int (R k (rs i) + extra i) in
      let byte := Z.land tmp 3 in
      with_read (to_int (tmp - byte)) 4 k (fun value k =>
        let r := R k (rt i) in
        let value := swr_merge byte value r in
        with_write (to_int (tmp - byte)) 4 value k (next pcAfter))
  | OP_SYSCALL => trap SyscallException 0 k
  | OP_XOR => next pcAfter (wr (rd i) (Z.lxor (R k (rs i)) (R k (rt i))) k)
  | OP_XORI => next pcAfter (wr (rt i) (Z.lxor (R k (rs i)) (Z.land (extra i) 0xffff)) k)
  | OP_RES | OP_UNIMP => trap IllegalInstrException 0 k
  | _ => Err AssertFailed
  end.

(** OP_MFHI to OP_SW. *)
Definition exec_mf_sw (i : Instruction) (pcAfter : Z) (k : K) : outcome step_end :=
  let a := R k (rs i) in
  let b := R k (rt i) in
  match opCode i with
  | OP_MFHI => next pcAfter (wr (rd i) (R k HiReg) k)
  | OP_MFLO => next pcAfter (wr (rd i) (R k LoReg) k)
  | OP_MTHI => next pcAfter (wr HiReg a k)
  | OP_MTLO => next pcAfter (wr LoReg a k)
  | OP_MULT => let '(hi, lo) := Mult a b true in next pcAfter (wr LoReg lo (wr HiReg hi k))
  | OP_MULTU => let '(hi, lo) := Mult a b false in next pcAfter (wr LoReg lo (wr HiReg hi k))
  | OP_NOR => next pcAfter (wr (rd i) (Z.lnot (Z.lor a b)) k)
  | OP_OR => next pcAfter (wr (rd i) (Z.lor a b) k)
  | OP_ORI => next pcAfter (wr (rt i) (Z.lor a (Z.land (extra i) 0xffff)) k)
  | OP_SB => with_write (to_int (to_uint (to_int (a + extra i)))) 1 b k (next pcAfter)
  | OP_SH => with_write (to_int (to_uint (to_int (a + extra i)))) 2 b k (next pcAfter)
  | OP_SLL => next pcAfter (wr (rd i) (to_int (Z.shiftl b (extra i))) k)
  | OP_SLLV => next pcAfter (wr (rd i) (to_int (Z.shiftl b (Z.land a 0x1f))) k)
  | OP_SLT => next pcAfter (wr (rd i) (if a <? b then 1 else 0) k)
  | OP_SLTI => next pcAfter (wr (rt i) (if a <? extra i then 1 else 0) k)
  | OP_SLTIU => next pcAfter (wr (rt i) (if to_uint a <? to_uint (extra i) then 1 else 0) k)
  | OP_SLTU => next pcAfter (wr (rd i) (if to_uint a <? to_uint b then 1 else 0) k)
  | OP_SRA => next pcAfter (wr (rd i) (Z.shiftr b (extra i)) k)
  | OP_SRAV => next pcAfter (wr (rd i) (Z.shiftr b (Z.land a 0x1f)) k)
  | OP_SRL => let tmp := b in next pcAfter (wr (rd i) (Z.shiftr tmp (extra i)) k)
  | OP_SRLV => let tmp := b in next pcAfter (wr (rd i) (Z.shiftr tmp (Z.land a 0x1f)) k)
  | OP_SUB =>
      let diff := to_int (a - b) in
      if sign_bit (Z.lxor a b) && sign_bit (Z.lxor a diff) then trap OverflowException 0 k
      else next pcAfter (wr (rd i) diff k)
  | OP_SUBU => next pcAfter (wr (rd i) (to_int (a - b)) k)
  | OP_SW => with_write (to_int (to_uint (to_int (a + extra i)))) 4 b k (next pcAfter)
  | _ => exec_rest i pcAfter k
  end.

(** The old value that LWL and LWR merge into. *)
Definition pending_value (k : K) (r : Z) : Z :=
  if R k LoadReg =? r then R k LoadValueReg else R k r.

(** OP_LB to OP_LWR. *)
Definition exec_load (i : Instruction) (pcAfter : Z) (k : K) : outcome step_end :=
  let tmp := to_int (R k (rs i) + extra i) in
  match opCode i with
  | OP_LB | OP_LBU =>
      with_read tmp 1 k (fun value k =>
        let sext := match opCode i with OP_LB => true | _ => false end in
        let value := if negb (Z.land value 0x80 =? 0) && sext then to_int (Z.lor value 0xffffff00)
                     else Z.land value 0xff in
        load_next pcAfter (rt i) value k)
  | OP_LH | OP_LHU =>
      if negb (Z.land tmp 1 =? 0) then trap AddressErrorException tmp k
      else
        with_read tmp 2 k (fun value k =>
          let sext := match opCode i with OP_LH => true | _ => false end in
          let value := if negb (Z.land value 0x8000 =? 0) && sext then to_int (Z.lor value 0xffff0000)
                       else Z.land value 0xffff in
          load_next pcAfter (rt i) value k)
  | OP_LUI => next pcAfter (wr (rt i) (to_int (Z.shiftl (extra i) 16)) k)
  | OP_LW =>
      if negb (Z.land tmp 3 =? 0) then trap AddressErrorException tmp k
      else with_read tmp 4 k (fun value k => load_next pcAfter (rt i) value k)
  | OP_LWL =>
      let byte := Z.land tmp 3 in
      with_read (to_int (tmp - byte)) 4 k (fun value k =>
        let old := pending_value k (rt i) in
        let v := lwl_merge byte old value in
        load_next pcAfter (rt i) v k)
  | OP_LWR =>
      let byte := Z.land tmp 3 in
      with_read (to_int (tmp - byte)) 4 k (fun value k =>
        let old := pending_value k (rt i) in
        let v := lwr_merge byte old value in
        load_next pcAfter (rt i) v k)
  | _ => exec_mf_sw i pcAfter k
  end.

(** The target of a taken branch. *)
Definition branch (taken : bool) (i : Instruction) (pcAfter : Z) (k : K) : outcome step_end :=
  next (if taken then to_int (R k NextPCReg + IndexToAddr (extra i)) else pcAfter) k.

(** OP_ADD to OP_JR.  The quotient of the least integer by -1 is not an [int]:
    the division traps on the host. *)
Definition exec_instr (i : Instruction) (pcAfter : Z) (k : K) : outcome step_end :=
  let a := R k (rs i) in
  let b := R k (rt i) in
  let ret := to_int (R k NextPCReg + 4) in
  match opCode i with
  | OP_ADD =>
      let sum := to_int (a + b) in
      if negb (sign_bit (Z.lxor a b)) && sign_bit (Z.lxor a sum) then trap OverflowException 0 k
      else next pcAfter (wr (rd i) sum k)
  | OP_ADDI =>
      let sum := to_int (a + extra i) in
      if negb (sign_bit (Z.lxor a (extra i))) && sign_bit (Z.lxor (extra i) sum) then trap OverflowException 0 k
      else next pcAfter (wr (rt i) sum k)
  | OP_ADDIU => next pcAfter (wr (rt i) (to_int (a + extra i)) k)
  | OP_ADDU => next pcAfter (wr (rd i) (to_int (a + b)) k)
  | OP_AND => next pcAfter (wr (rd i) (Z.land a b) k)
  | OP_ANDI => next pcAfter (wr (rt i) (Z.land a (Z.land (extra i) 0xffff)) k)
  | OP_BEQ => branch (a =? b) i pcAfter k
  | OP_BGEZAL => let k := wr R31 ret k in branch (negb (sign_bit (R k (rs i)))) i pcAfter k
  | OP_BGEZ => branch (negb (sign_bit a)) i pcAfter k
  | OP_BGTZ => branch (0 <? a) i pcAfter k
  | OP_BLEZ => branch (a <=? 0) i pcAfter k
  | OP_BLTZAL => let k := wr R31 ret k in branch (sign_bit (R k (rs i))) i pcAfter k
  | OP_BLTZ => branch (sign_bit a) i pcAfter k
  | OP_BNE => branch (negb (a =? b)) i pcAfter k
  | OP_DIV =>
      if b =? 0 then next pcAfter (wr HiReg 0 (wr LoReg 0 k))
      else if (a =? - 2 ^ 31) && (b =? -1) then Err Undefined
      else next pcAfter (wr HiReg (Z.rem a b) (wr LoReg (Z.quot a b) k))
  | OP_DIVU =>
      let ua := to_uint a in
      let ub := to_uint b in
      if ub =? 0 then next pcAfter (wr HiReg 0 (wr LoReg 0 k))
      else next pcAfter (wr HiReg (to_int (Z.rem ua ub)) (wr LoReg (to_int (Z.quot ua ub)) k))
  | OP_JAL =>
      next (to_int (Z.lor (Z.land (to_uint pcAfter) 0xf0000000) (to_uint (IndexToAddr (extra i))))) (wr R31 ret k)
  | OP_J => next (to_int (Z.lor (Z.land (to_uint pcAfter) 0xf0000000) (to_uint (IndexToAddr (extra i))))) k
  | OP_JALR => let k := wr (rd i) ret k in next (R k (rs i)) k
  | OP_JR => next a k
  | _ => exec_load i pcAfter k
  end.

(** [Machine::OneInstruction] *)
Definition OneInstruction (k : K) : outcome K :=
  '(k, raw) ← ReadMem ExceptionHandler (R k PCReg) 4 k;
  match raw with
  | None => Ok k
  | Some raw =>
      let instr := Decode (to_uint raw) in
      let pcAfter := to_int (R k NextPCReg + 4) in
      '(k, fin) ← exec_instr instr pcAfter k;
      match fin with
      | None => Ok k
      | Some (pcAfter, nextLoadReg, nextLoadValue) =>
          m ← DelayedLoad nextLoadReg nextLoadValue (k_machine k);
          let m := set_reg PrevPCReg (reg m PCReg) m in
          let m := set_reg PCReg (reg m NextPCReg) m in
          let m := set_reg NextPCReg pcAfter m in
          Ok (set_machine m k)
      end
  end.

(** [n] rounds of the loop of [Machine::Run] without the debugger. *)
Fixpoint Run_steps (OneTick : K -> outcome K) (n : nat) (k : K) : outcome K :=
  match n with
  | O => Ok k
  | S n' => k ← OneInstruction k; k ← OneTick k; Run_steps OneTick n' k
  end.

(** [Machine::Run] up to its [n]-th round. *)
Definition Run (OneTick : K -> outcome K) (n : nat) (k : K) : outcome K :=
  Run_steps OneTick n (setStatus UserMode k).
End mips.

(** ** Multiplication *)
Lemma land1_mod a : negb (Z.land a 1 =? 0) = (a mod 2 =? 1).
Proof.
  change 1 with (2 ^ 1 - 1) at 1. rewrite land_mod by lia. change (2 ^ 1) with 2.
  pose proof (Z.mod_pos_bound a 2 ltac:(lia)). destruct (Z.eqb_spec (a mod 2) 0), (Z.eqb_spec (a mod 2) 1); lia.
Qed.

Lemma land_high a : is_uint a -> (Z.land a 0xfffffffe =? 0) = (a <? 2).
Proof.
  intros Ha. unfold is_uint in Ha. change 0xfffffffe with (Z.shiftl (Z.ones 31) 1).
  assert (Z.land a (Z.shiftl (Z.ones 31) 1) = Z.shiftl (Z.land (Z.shiftr a 1) (Z.ones 31)) 1) as ->.
  { apply Z.bits_inj'. intros n Hn. rewrite Z.land_spec, !Z.shiftl_spec by lia. destruct (decide (n = 0)) as [->|Hne].
    - rewrite !(Z.testbit_neg_r _ (0 - 1)) by lia. by rewrite andb_false_r.
    - rewrite Z.land_spec, Z.shiftr_spec by lia. by rewrite Z.sub_add. }
  rewrite Z.land_ones, Z.shiftr_div_pow2, Z.shiftl_mul_pow2 by lia. change (2 ^ 1) with 2.
  rewrite Z.mod_small by (split; [apply Z.div_pos; lia|apply Z.div_lt_upper_bound; lia]).
  pose proof (Z.div_mod a 2 ltac:(lia)). pose proof (Z.mod_pos_bound a 2 ltac:(lia)).
  destruct (Z.eqb_spec (a / 2 * 2) 0), (Z.ltb_spec a 2); lia.
Qed.

Lemma lor_one x : 0 <= x -> x mod 2 = 0 -> Z.lor x 1 = x + 1.
Proof.
  intros Hx Hm. pose proof (Z.div_mod x 2 ltac:(lia)) as Hd. rewrite Hm, Z.add_0_r in Hd.
  rewrite Hd. destruct (x / 2) as [|q|q]; [done|done|lia].
Qed.

(** Doubling a double word. *)
Lemma double_word bLo bHi :
  is_uint bLo -> is_uint bHi ->
  let bHi1 := to_uint (Z.shiftl bHi 1) in
  let bHi2 := if negb (Z.land bLo 0x80000000 =? 0) then Z.lor bHi1 1 else bHi1 in
  is_uint bHi2 /\ is_uint (to_uint (Z.shiftl bLo 1)) /\
  bHi2 * 2 ^ 32 + to_uint (Z.shiftl bLo 1) = (2 * (bHi * 2 ^ 32 + bLo)) mod 2 ^ 64.
Proof.
  intros Hlo Hhi bHi1 bHi2.
  assert (bHi2 = to_uint (2 * bHi) + bLo / 2 ^ 31) as ->.
  { unfold bHi2, bHi1. change 0x80000000 with (2 ^ 31). rewrite land_pow2_testbit by lia.
    rewrite Z.shiftl_mul_pow2, (Z.mul_comm bHi) by lia. change (2 ^ 1) with 2.
    rewrite Z.testbit_odd, Z.shiftr_div_pow2 by lia. unfold is_uint in *.
    assert (0 <= bLo / 2 ^ 31 < 2) as Hq by (split; [apply Z.div_pos; lia|apply Z.div_lt_upper_bound; lia]).
    assert (bLo / 2 ^ 31 = 0 \/ bLo / 2 ^ 31 = 1) as [-> | ->] by lia; cbn [Z.odd]; [lia|].
    apply lor_one; [apply to_uint_range|]. unfold to_uint.
    rewrite Z.mod_mod_divide by (by exists (2 ^ 31)). rewrite Z.mul_comm. apply Z.mod_mul. lia. }
  rewrite Z.shiftl_mul_pow2 by lia. change (2 ^ 1) with 2. unfold is_uint, to_uint in *.
  pose proof (Z.mod_pos_bound (2 * bHi) (2 ^ 32) ltac:(lia)). pose proof (Z.mod_pos_bound (bLo * 2) (2 ^ 32) ltac:(lia)).
  pose proof (Z.div_mod bLo (2 ^ 31) ltac:(lia)). pose proof (Z.mod_pos_bound bLo (2 ^ 31) ltac:(lia)).
  pose proof (Z.div_mod (2 * bHi) (2 ^ 32) ltac:(lia)). pose proof (Z.div_mod (bLo * 2) (2 ^ 32) ltac:(lia)).
  assert (0 <= bLo / 2 ^ 31 < 2) as Hq by (split; [apply Z.div_pos; lia|apply Z.div_lt_upper_bound; lia]).
  assert (bLo * 2 / 2 ^ 32 = bLo / 2 ^ 31) as Hd.
  { replace (bLo * 2) with (2 * bLo) by lia. change (2 ^ 32) with (2 * 2 ^ 31). apply Z.div_mul_cancel_l; lia. }
  assert ((2 * bHi) mod 2 ^ 32 <= 2 ^ 32 - 2) as Hev.
  { assert (((2 * bHi) mod 2 ^ 32) mod 2 = 0) as Hz.
    { rewrite Z.mod_mod_divide by (by exists (2 ^ 31)). rewrite Z.mul_comm. apply Z.mod_mul. lia. }
    pose proof (Z.div_mod ((2 * bHi) mod 2 ^ 32) 2 ltac:(lia)). lia. }
  split; [lia|]. split; [lia|].
  apply (Z.mod_unique_pos _ _ (2 * bHi / 2 ^ 32)); lia.
Qed.

Lemma mult_loop_ok n a bLo bHi lo hi :
  is_int a -> is_uint bLo -> is_uint bHi -> is_uint lo -> is_uint hi ->
  let '(hi', lo') := mult_loop n a bLo bHi lo hi in
  is_uint hi' /\ is_uint lo' /\
  hi' * 2 ^ 32 + lo' = (hi * 2 ^ 32 + lo + (a mod 2 ^ Z.of_nat n) * (bHi * 2 ^ 32 + bLo)) mod 2 ^ 64.
Proof.
  revert a bLo bHi lo hi. induction n as [|n IH]; intros a bLo bHi lo hi Ha HbLo HbHi Hlo Hhi; cbn [mult_loop].
  { split; [done|]. split; [done|]. rewrite Z.mod_1_r. unfold is_uint in *.
    rewrite Z.mod_small; lia. }
  rewrite land1_mod. set (B := bHi * 2 ^ 32 + bLo). set (acc := hi * 2 ^ 32 + lo).
  set (lo1 := if a mod 2 =? 1 then to_uint (lo + bLo) else lo).
  set (hi1 := if a mod 2 =? 1 then _ else hi).
  assert (is_uint lo1 /\ is_uint hi1 /\ hi1 * 2 ^ 32 + lo1 = (acc + (a mod 2) * B) mod 2 ^ 64) as (Hlo1 & Hhi1 & Hacc).
  { unfold hi1, lo1. cbn zeta. pose proof (Z.mod_pos_bound a 2 ltac:(lia)).
    destruct (Z.eqb_spec (a mod 2) 1) as [E|E].
    - split; [apply to_uint_range|]. split; [apply to_uint_range|]. rewrite E, Z.mul_1_l.
      assert (forall h, to_uint (to_uint h + bHi) = to_uint (h + bHi)) as Hid.
      { intros h. unfold to_uint. by rewrite Zplus_mod_idemp_l. }
      unfold is_uint, B, acc in *. pose proof (Z.div_mod (lo + bLo) (2 ^ 32) ltac:(lia)) as Hdm.
      pose proof (Z.mod_pos_bound (lo + bLo) (2 ^ 32) ltac:(lia)) as Hmb. fold (to_uint (lo + bLo)) in Hdm, Hmb.
      assert ((to_uint (lo + bLo) <? bLo) = (2 ^ 32 <=? lo + bLo)) as ->.
      { destruct (Z.leb_spec (2 ^ 32) (lo + bLo)).
        - assert ((lo + bLo) / 2 ^ 32 = 1) by (symmetry; apply (Z.div_unique_pos _ _ _ (lo + bLo - 2 ^ 32)); lia). lia.
        - rewrite to_uint_id by (unfold is_uint; lia). lia. }
      destruct (Z.leb_spec (2 ^ 32) (lo + bLo)).
      + assert ((lo + bLo) / 2 ^ 32 = 1) by (symmetry; apply (Z.div_unique_pos _ _ _ (lo + bLo - 2 ^ 32)); lia).
        rewrite Hid. unfold to_uint at 1. pose proof (Z.div_mod (hi + 1 + bHi) (2 ^ 32) ltac:(lia)).
        pose proof (Z.mod_pos_bound (hi + 1 + bHi) (2 ^ 32) ltac:(lia)).
        apply (Z.mod_unique_pos _ _ ((hi + 1 + bHi) / 2 ^ 32)); lia.
      + rewrite (to_uint_id (lo + bLo)) by (unfold is_uint; lia). unfold to_uint.
        pose proof (Z.div_mod (hi + bHi) (2 ^ 32) ltac:(lia)). pose proof (Z.mod_pos_bound (hi + bHi) (2 ^ 32) ltac:(lia)).
        apply (Z.mod_unique_pos _ _ ((hi + bHi) / 2 ^ 32)); lia.
    - assert (a mod 2 = 0) as -> by lia. split; [done|]. split; [done|]. unfold is_uint, acc in *.
      rewrite Z.mul_0_l, Z.add_0_r, Z.mod_small; lia. }
  assert (a mod 2 ^ Z.of_nat (S n) = a mod 2 + 2 * ((a / 2) mod 2 ^ Z.of_nat n)) as Hsplit.
  { rewrite Nat2Z.inj_succ, Z.pow_succ_r by lia. rewrite Z.rem_mul_r by lia. done. }
  destruct (_ && _) eqn:Ebrk.
  - apply andb_true_iff in Ebrk as [E1 E2]. split; [done|]. split; [done|]. rewrite Hacc. f_equal. f_equal. f_equal.
    rewrite land_high in E2 by apply to_uint_range. apply Z.eqb_eq in E1. apply Z.ltb_lt in E2.
    assert (a = 1) as Ha1.
    { rewrite to_uint_cases in E2 by done. unfold is_int in Ha. destruct (Z.ltb_spec a 0); [lia|].
      assert (a = 0 \/ a = 1) as [-> | ->] by lia; done. }
    rewrite Hsplit, Ha1. change (1 / 2) with 0. rewrite Z.mod_0_l by lia. done.
  - destruct (double_word bLo bHi HbLo HbHi) as (Hd1 & Hd2 & Hd3). cbn zeta in Hd1, Hd3.
    set (bHi2 := if negb _ then _ else _) in *. set (bLo2 := to_uint (Z.shiftl bLo 1)) in *.
    assert (is_int (Z.shiftr a 1)) as Ha2.
    { rewrite Z.shiftr_div_pow2 by lia. change (2 ^ 1) with 2. unfold is_int in *.
      pose proof (Z.div_mod a 2 ltac:(lia)). pose proof (Z.mod_pos_bound a 2 ltac:(lia)). lia. }
    specialize (IH (Z.shiftr a 1) bLo2 bHi2 lo1 hi1 Ha2 Hd2 Hd1 Hlo1 Hhi1).
    destruct (mult_loop n _ _ _ _ _) as [hi' lo']. destruct IH as (H1 & H2 & H3). split; [done|]. split; [done|].
    rewrite H3, Hacc, Hd3, Hsplit. rewrite Z.shiftr_div_pow2 by lia. change (2 ^ 1) with 2.
    rewrite Zplus_mod_idemp_l, <- Zplus_mod_idemp_r, Zmult_mod_idemp_r, Zplus_mod_idemp_r. f_equal. fold B. ring.
Qed.

(** Two's complement of a double word. *)
Lemma negate_word hi lo :
  is_uint hi -> is_uint lo ->
  let hi1 := to_uint (Z.lnot hi) in
  let lo1 := to_uint (to_uint (Z.lnot lo) + 1) in
  let hi2 := if lo1 =? 0 then to_uint (hi1 + 1) else hi1 in
  is_uint hi2 /\ is_uint lo1 /\ hi2 * 2 ^ 32 + lo1 = (- (hi * 2 ^ 32 + lo)) mod 2 ^ 64.
Proof.
  intros Hhi Hlo hi1 lo1 hi2.
  assert (forall x, is_uint x -> to_uint (Z.lnot x) = 2 ^ 32 - 1 - x) as Hn.
  { intros x Hx. unfold Z.lnot, is_uint, to_uint in *. symmetry. apply (Z.mod_unique_pos _ _ (-1)); lia. }
  assert (lo1 = if lo =? 0 then 0 else 2 ^ 32 - lo) as Hlo1.
  { unfold lo1. rewrite Hn by done. unfold is_uint, to_uint in *. destruct (Z.eqb_spec lo 0) as [->|].
    - done.
    - rewrite Z.mod_small; lia. }
  assert (hi2 = if lo =? 0 then (if hi =? 0 then 0 else 2 ^ 32 - hi) else 2 ^ 32 - 1 - hi) as Hhi2.
  { unfold hi2, hi1. rewrite Hlo1, Hn by done. unfold is_uint in *. destruct (Z.eqb_spec lo 0); cbn [Z.eqb].
    - unfold to_uint. destruct (Z.eqb_spec hi 0) as [->|]; [done|]. rewrite Z.mod_small; lia.
    - by rewrite (proj2 (Z.eqb_neq _ 0)) by lia. }
  rewrite Hhi2, Hlo1. unfold is_uint in *.
  destruct (Z.eqb_spec lo 0), (Z.eqb_spec hi 0); (split; [lia|]); (split; [lia|]).
  - subst. done.
  - apply (Z.mod_unique_pos _ _ (-1)); lia.
  - apply (Z.mod_unique_pos _ _ (-1)); lia.
  - apply (Z.mod_unique_pos _ _ (-1)); lia.
Qed.

Lemma neg_int_abs a : is_int a -> a < 0 -> to_uint (to_int (- a)) = - a.
Proof. intros Ha Hn. rewrite to_uint_to_int. apply to_uint_id. unfold is_int, is_uint in *. lia. Qed.

Lemma Mult_ok a b s :
  is_int a -> is_int b -> let '(hi, lo) := Mult a b s in
  is_int hi /\ is_int lo /\
  to_uint hi * 2 ^ 32 + to_uint lo = (if s then a * b else to_uint a * to_uint b) mod 2 ^ 64.
Proof.
  intros Ha Hb. unfold Mult. destruct ((a =? 0) || (b =? 0)) eqn:E0.
  { split; [by vm_compute|]. split; [by vm_compute|].
    apply orb_true_iff in E0 as [->%Z.eqb_eq| ->%Z.eqb_eq]; destruct s; rewrite ?Z.mul_0_r; done. }
  apply orb_false_iff in E0 as [Ea%Z.eqb_neq Eb%Z.eqb_neq].
  set (t := if s then _ else _).
  assert (exists neg A B, t = (neg, A, B) /\ is_int A /\ is_int B /\
    (if s then a * b else to_uint a * to_uint b) = (if (neg : bool) then -1 else 1) * (to_uint A * to_uint B))
    as (neg & A & B & -> & HA & HB & Hprod).
  { unfold t. clear t. unfold is_int in Ha, Hb. destruct s; [|exists false, a, b; split_and!; (done || lia)].
    destruct (Z.ltb_spec a 0), (Z.ltb_spec b 0); eexists _, _, _; (split; [reflexivity|]);
      (split; [apply to_int_range || done|]); (split; [apply to_int_range || done|]); cbn [negb];
      rewrite ?neg_int_abs by (unfold is_int; lia); rewrite ?(to_uint_id a), ?(to_uint_id b) by (unfold is_uint; lia); lia. }
  pose proof (mult_loop_ok 32 A (to_uint B) 0 0 0 HA (to_uint_range B)) as HL.
  destruct (mult_loop 32 A (to_uint B) 0 0 0) as [hi lo].
  destruct HL as (Hhi & Hlo & HL); [by vm_compute..|].
  change (2 ^ Z.of_nat 32) with (2 ^ 32) in HL. fold (to_uint A) in HL. rewrite Z.mul_0_l, !Z.add_0_l in HL.
  rewrite Hprod. destruct neg.
  - destruct (negate_word hi lo Hhi Hlo) as (H1 & H2 & H3). cbn zeta in H1, H3.
    split; [apply to_int_range|]. split; [apply to_int_range|]. rewrite !to_uint_to_int, (to_uint_id _ H1), (to_uint_id _ H2).
    rewrite H3, HL. replace (-1 * (to_uint A * to_uint B)) with (0 - to_uint A * to_uint B) by lia.
    replace (- _) with (0 - (to_uint A * to_uint B) mod 2 ^ 64) by lia. by rewrite Zminus_mod_idemp_r.
  - split; [apply to_int_range|]. split; [apply to_int_range|].
    rewrite !to_uint_to_int, (to_uint_id _ Hhi), (to_uint_id _ Hlo), HL. by rewrite Z.mul_1_l.
Qed.

(** ** Sign bits *)
Lemma sign_bit_int x : is_int x -> sign_bit x = (x <? 0).
Proof.
  intros Hx. unfold sign_bit. change 0x80000000 with (2 ^ 31). rewrite land_pow2_testbit, to_uint_testbit by lia.
  rewrite Z.testbit_odd, Z.shiftr_div_pow2 by lia. unfold is_int in Hx. destruct (Z.ltb_spec x 0).
  - assert (x / 2 ^ 31 = -1) as ->; [|done]. symmetry. apply (Z.div_unique_pos _ _ _ (x + 2 ^ 31)); lia.
  - by rewrite Z.div_small by lia.
Qed.

(** Every integer whose bits from 31 up are all equal is an [int]. *)
Lemma int_bits x : is_int x <-> forall n, 31 <= n -> Z.testbit x n = (x <? 0).
Proof.
  unfold is_int. split.
  - intros Hx n Hn. rewrite Z.testbit_odd, Z.shiftr_div_pow2 by lia.
    assert (2 ^ 31 <= 2 ^ n) by (apply Z.pow_le_mono_r; lia).
    destruct (Z.ltb_spec x 0).
    + assert (x / 2 ^ n = -1) as ->; [|done]. symmetry. apply (Z.div_unique_pos _ _ _ (x + 2 ^ n)); lia.
    + by rewrite Z.div_small by lia.
  - intros Hb. assert (Z.shiftr x 31 = if x <? 0 then -1 else 0) as Hs.
    { apply Z.bits_inj'. intros n Hn. rewrite Z.shiftr_spec, Hb by lia.
      destruct (x <? 0); [by rewrite Z.bits_m1|by rewrite Z.bits_0]. }
    rewrite Z.shiftr_div_pow2 in Hs by lia. pose proof (Z.div_mod x (2 ^ 31) ltac:(lia)).
    pose proof (Z.mod_pos_bound x (2 ^ 31) ltac:(lia)). destruct (Z.ltb_spec x 0); lia.
Qed.

Lemma lxor_neg a b : (Z.lxor a b <? 0) = xorb (a <? 0) (b <? 0).
Proof.
  pose proof (Z.lxor_nonneg a b) as Hn. destruct (Z.ltb_spec (Z.lxor a b) 0), (Z.ltb_spec a 0), (Z.ltb_spec b 0);
    cbn [xorb]; try done; exfalso; lia.
Qed.

Lemma lxor_int a b : is_int a -> is_int b -> is_int (Z.lxor a b).
Proof.
  intros Ha Hb. apply int_bits. intros n Hn. rewrite Z.lxor_spec, lxor_neg.
  by rewrite (proj1 (int_bits a) Ha), (proj1 (int_bits b) Hb).
Qed.

Lemma lor_int a b : is_int a -> is_int b -> is_int (Z.lor a b).
Proof.
  intros Ha Hb. apply int_bits. intros n Hn. rewrite Z.lor_spec.
  rewrite (proj1 (int_bits a) Ha), (proj1 (int_bits b) Hb) by done.
  pose proof (Z.lor_neg a b). destruct (Z.ltb_spec a 0), (Z.ltb_spec b 0), (Z.ltb_spec (Z.lor a b) 0); cbn [orb]; try done; exfalso; lia.
Qed.

Lemma land_int a b : is_int a -> is_int b -> is_int (Z.land a b).
Proof.
  intros Ha Hb. apply int_bits. intros n Hn. rewrite Z.land_spec.
  rewrite (proj1 (int_bits a) Ha), (proj1 (int_bits b) Hb) by done.
  pose proof (Z.land_neg a b). destruct (Z.ltb_spec a 0), (Z.ltb_spec b 0), (Z.ltb_spec (Z.land a b) 0); cbn [andb]; try done; exfalso; lia.
Qed.

Lemma lnot_int a : is_int a -> is_int (Z.lnot a).
Proof. unfold is_int, Z.lnot. lia. Qed.

Lemma land_byte_int a n : 0 <= n < 2 ^ 31 -> is_int (Z.land a n).
Proof.
  intros Hn. assert (0 <= Z.land a n) by (apply Z.land_nonneg; lia). apply int_bits. intros m Hm.
  rewrite Z.land_spec, (proj1 (int_bits n)) by (unfold is_int; lia).
  by rewrite (proj2 (Z.ltb_ge n 0)), (proj2 (Z.ltb_ge (Z.land a n) 0)), andb_false_r by lia.
Qed.

Lemma shiftr_int a n : is_int a -> 0 <= n -> is_int (Z.shiftr a n).
Proof.
  intros Ha Hn. apply int_bits. intros m Hm. rewrite Z.shiftr_spec, (proj1 (int_bits a) Ha) by lia.
  pose proof (Z.shiftr_neg a n). destruct (Z.ltb_spec a 0), (Z.ltb_spec (Z.shiftr a n) 0); try done; exfalso; lia.
Qed.

(** ** Well-formed user machines *)

(** Between instructions and inside one: 40 registers of 32 bits, the pending
    load aims at a general register. *)
Record cpu_ok (m : Machine) : Prop := {
  cp_length : length (registers m) = Z.to_nat NumTotalRegs;
  cp_ints : Forall is_int (registers m);
  cp_load : 0 <= reg m LoadReg < NumGPRegs;
}.

(** Translation as a function of the machine. *)
Definition lookup_mem (m : Machine) (v size : Z) (w : bool) : ExceptionType + Z :=
  match pageTable m ≫= (fun a => tables m !! a) with
  | Some t => lookup_page t (pageTableSize m) v size w
  | None => inl AddressErrorException
  end.

Record user_ok (m : Machine) : Prop := {
  uo_cpu : cpu_ok m;
  uo_memory : memory_wf m;
  uo_space : exists t, space_wf m t;
}.

Lemma lookup_mem_space m t v size w : space_wf m t -> lookup_mem m v size w = lookup_page t (pageTableSize m) v size w.
Proof. intros [_ (a & Hpt & Ha) _ _ _]. unfold lookup_mem. rewrite Hpt. cbn. by rewrite Ha. Qed.

Lemma reg_int m i : cpu_ok m -> is_int (reg m i).
Proof.
  intros Hc. unfold reg. destruct (registers m !! Z.to_nat i) as [x|] eqn:E; cbn.
  - apply (Forall_lookup_1 _ _ _ _ (cp_ints _ Hc) E).
  - unfold is_int. lia.
Qed.

Lemma set_reg_ok m i v :
  cpu_ok m -> 0 <= i < NumTotalRegs -> is_int v -> (i = LoadReg -> 0 <= v < NumGPRegs) -> cpu_ok (set_reg i v m).
Proof.
  intros [Hl Hi Hlr] Hr Hv Hld. split; cbn [registers set_reg with_registers].
  - by rewrite length_insert.
  - by apply Forall_insert.
  - rewrite reg_set_reg by (done || (unfold LoadReg, NumGPRegs in *; lia)).
    destruct (Z.eqb_spec i LoadReg); auto.
Qed.

Lemma DelayedLoad_ok m r v :
  cpu_ok m -> 0 <= r < NumGPRegs -> is_int v ->
  exists regs, DelayedLoad r v m = Ok (with_registers regs m) /\ cpu_ok (with_registers regs m) /\
    reg (with_registers regs m) 0 = 0 /\
    forall j, HiReg <= j < NumTotalRegs -> j <> LoadReg -> j <> LoadValueReg ->
      reg (with_registers regs m) j = reg m j.
Proof.
  intros Hc Hr Hv. pose proof Hc as [Hl Hi Hlr]. unfold DelayedLoad.
  change NumTotalRegs with 40 in *. change NumGPRegs with 32 in *. change HiReg with 32.
  rewrite arr_set_lt by lia. cbn [mbind outcome_bind]. fold (set_reg (reg m LoadReg) (reg m LoadValueReg) m).
  set (m1 := set_reg (reg m LoadReg) _ m).
  assert (cpu_ok m1) as H1 by (apply set_reg_ok; [done|change NumTotalRegs with 40; lia|by apply reg_int|
    unfold LoadReg; intros E; unfold LoadReg in Hlr; lia]).
  assert (cpu_ok (set_reg LoadReg r m1)) as H2 by (apply set_reg_ok; [done|done|unfold is_int; lia|done]).
  assert (cpu_ok (set_reg LoadValueReg v (set_reg LoadReg r m1))) as H3 by (apply set_reg_ok; [done|done|done|done]).
  assert (cpu_ok (set_reg 0 0 (set_reg LoadValueReg v (set_reg LoadReg r m1)))) as H4.
  { apply set_reg_ok; [done|done|unfold is_int; lia|done]. }
  eexists. split; [reflexivity|]. split; [exact H4|].
  set (m4 := set_reg 0 0 _) in *. change (with_registers (registers m4) m) with m4.
  change (reg m4 0 = 0 /\ forall j, 32 <= j < 40 -> j <> LoadReg -> j <> LoadValueReg -> reg m4 j = reg m j).
  unfold m4. split; [by rewrite reg_set_reg by (done || apply H3)|]. intros j Hj Hne1 Hne2.
  rewrite reg_set_reg, (proj2 (Z.eqb_neq 0 j)) by (lia || done || apply H3).
  rewrite reg_set_reg, (proj2 (Z.eqb_neq LoadValueReg j)) by (lia || done || apply H2 || congruence).
  rewrite reg_set_reg, (proj2 (Z.eqb_neq LoadReg j)) by (lia || done || apply H1 || congruence).
  unfold m1. rewrite reg_set_reg, (proj2 (Z.eqb_neq (reg m LoadReg) j)); (done || lia || idtac).
  change NumTotalRegs with 40. lia.
Qed.

Lemma read_phys_ok m p size :
  memory_wf m -> size = 1 \/ size = 2 \/ size = 4 -> 0 <= p -> p + size <= MemorySize ->
  exists v, read_phys m p size = Ok v /\ is_int v.
Proof.
  intros [Hl Hb] Hs Hp Hps. change MemorySize with 16384 in *. unfold read_phys, ShortToHost, WordToHost.
  assert (forall n, 0 <= n <= 4 -> p + n <= 16384 ->
    let bs := take (Z.to_nat n) (drop (Z.to_nat p) (mainMemory m)) in 0 <= le_value bs < 256 ^ n) as Hv.
  { intros n Hn Hpn bs. pose proof (le_value_range bs ltac:(by apply Forall_take, Forall_drop)) as Hr.
    unfold bs in Hr at 3. rewrite length_take, length_drop in Hr.
    replace (Z.of_nat (Z.to_nat n `min` (length (mainMemory m) - Z.to_nat p))) with n in Hr by lia. done. }
  destruct Hs as [->|[->| ->]]; cbn [Z.eqb Pos.eqb]; rewrite buf_get_ok by lia; cbn [mbind outcome_bind];
    eexists; (split; [reflexivity|]).
  - specialize (Hv 1 ltac:(lia) Hps). cbn zeta in Hv. unfold signed_char, is_int. destruct (_ <? 128); lia.
  - specialize (Hv 2 ltac:(lia) Hps). cbn zeta in Hv. unfold is_int. lia.
  - apply to_int_range.
Qed.

Section total.
Context {K : Type} `{InterruptState K} `{MachineState K} `{!MachineStateLaws K}.
Context (ExceptionHandler : ExceptionType -> K -> outcome K).
Implicit Types k : K.

(** What the rest of the kernel relies on, besides the machine: it does not
    depend on what an instruction changes. *)
Context (inv : K -> Prop).
Record stable : Prop := {
  st_machine k m : inv k -> pageTableSize m = pageTableSize (k_machine k) -> inv (set_machine m k);
  st_status k s : inv k -> inv (setStatus s k);
}.
Context (Hst : stable).

Definition wf k : Prop := user_ok (k_machine k) /\ inv k.

(** What the simulator expects of the kernel: a handler may fail, but if it
    returns it leaves a well-formed machine, and after a page fault the
    faulting page is accessible. *)
Record handler_contract : Prop := {
  hc_keeps e k k' : wf k -> reg (k_machine k) 0 = 0 -> ExceptionHandler e k = Ok k' ->
    wf k' /\ reg (k_machine k') 0 = 0 /\
    (e = PageFaultException -> forall size w,
       lookup_mem (k_machine k) (reg (k_machine k) BadVAddrReg) size w = inl PageFaultException ->
       exists p, lookup_mem (k_machine k') (reg (k_machine k) BadVAddrReg) size w = inr p);
}.
Context (Hht : handler_contract).

(** The failure is the kernel's own: its handler failed, called on a well-formed
    machine. *)
Definition kernel_failed (err : failure) : Prop :=
  exists e k, wf k /\ reg (k_machine k) 0 = 0 /\ ExceptionHandler e k = Err err.

Lemma user_ok_regs m r : user_ok m -> cpu_ok (with_registers r m) -> user_ok (with_registers r m).
Proof.
  intros [_ [Hm1 Hm2] (t & Hsp)] Hc. split; [done|by split|]. exists t. destruct Hsp. by split.
Qed.

Lemma wf_machine k m : wf k -> user_ok m -> pageTableSize m = pageTableSize (k_machine k) -> wf (set_machine m k).
Proof. intros [_ Hi] Hm Hsz. split; [by rewrite machine_set_machine|by apply (st_machine Hst)]. Qed.

Lemma RaiseException_ok e bad k :
  wf k -> is_int bad ->
  match RaiseException ExceptionHandler e bad k with
  | Ok k' => wf k' /\ reg (k_machine k') 0 = 0 /\
      (e = PageFaultException -> forall size w, lookup_mem (k_machine k) bad size w = inl PageFaultException ->
         exists p, lookup_mem (k_machine k') bad size w = inr p)
  | Err err => kernel_failed err
  end.
Proof.
  intros [Huo Hi] Hbad. unfold RaiseException.
  assert (cpu_ok (set_reg BadVAddrReg bad (k_machine k))) as Hc by (apply set_reg_ok; [apply Huo|done..]).
  destruct (DelayedLoad_ok _ 0 0 Hc) as (regs & -> & Hc' & Hz0 & Hj); [done|unfold is_int; lia|].
  cbn [mbind outcome_bind]. set (m := with_registers regs _) in *.
  assert (m = with_registers regs (k_machine k)) as Hm by done.
  assert (reg m BadVAddrReg = bad) as Hb.
  { rewrite Hj by done. rewrite reg_set_reg; [done|apply Huo|done|done]. }
  set (k1 := setStatus SystemMode (set_machine m k)).
  assert (k_machine k1 = m) as Hk1 by (unfold k1, setStatus; by rewrite machine_set_int, machine_set_machine).
  assert (wf k1) as Hwf1.
  { split; [rewrite Hk1, Hm; by apply user_ok_regs|]. by apply (st_status Hst), (st_machine Hst). }
  assert (reg (k_machine k1) 0 = 0) as Hz1 by (by rewrite Hk1).
  destruct (ExceptionHandler e k1) as [k'|err] eqn:HE; cbn [mbind outcome_bind]; [|by exists e, k1].
  destruct (hc_keeps Hht e k1 k' Hwf1 Hz1 HE) as ([Huo' Hi'] & Hr0 & Hpf).
  split; [|split; unfold setStatus; rewrite machine_set_int; [done|]].
  - split; [unfold setStatus; by rewrite machine_set_int|by apply (st_status Hst)].
  - intros -> size w Hlk. rewrite Hk1, Hb in Hpf. by apply Hpf.
Qed.

Lemma translated_user m t m' t' : translated m t m' t' -> user_ok m -> user_ok m'.
Proof.
  intros Htr [[H1 H2 H3] Hm _]. split; [|by eapply translated_memory|by exists t'; apply Htr].
  split; unfold reg; rewrite (tr_regs _ _ _ _ Htr); done.
Qed.

(** A translation attempt, for reading or writing. *)
Lemma Translate_user m v size w :
  user_ok m -> size = 1 \/ size = 2 \/ size = 4 ->
  exists m', Translate m v size w = Ok (m', lookup_mem m v size w) /\ user_ok m' /\
    (forall v' size' w', lookup_mem m' v' size' w' = lookup_mem m v' size' w') /\
    (registers m' = registers m /\ pageTableSize m' = pageTableSize m) /\
    match lookup_mem m v size w with inl _ => True | inr p => 0 <= p /\ p + size <= MemorySize end.
Proof.
  intros Huo Hs. destruct (uo_space _ Huo) as (t & Hsp).
  destruct (Translate_ok m t v size w Hsp Hs) as (m' & t' & HT & Htr & Hp).
  exists m'. rewrite (lookup_mem_space m t) by done. split; [done|]. split; [by eapply translated_user|]. split; [|split; [split; apply Htr|]].
  - intros. rewrite (lookup_mem_space m' t'), (lookup_mem_space m t) by (done || apply Htr). apply Htr.
  - by destruct (lookup_page _ _ _ _ _).
Qed.

Lemma ReadMem_total addr size k :
  wf k -> size = 1 \/ size = 2 \/ size = 4 -> is_int addr ->
  match ReadMem ExceptionHandler addr size k with
  | Ok (k', r) => wf k' /\ (reg (k_machine k) 0 = 0 -> reg (k_machine k') 0 = 0) /\
      match r with Some v => is_int v | None => reg (k_machine k') 0 = 0 end
  | Err err => kernel_failed err
  end.
Proof.
  intros Hwf Hs Ha. unfold ReadMem. destruct (Translate_user _ addr size false (proj1 Hwf) Hs) as (m1 & -> & Huo1 & Hlk1 & [Hr1 Hz1] & Hp).
  cbn [mbind outcome_bind]. rewrite !machine_set_machine. pose proof (wf_machine k m1 Hwf Huo1 Hz1) as Hwf1.
  destruct (lookup_mem (k_machine k) addr size false) as [e|p] eqn:El.
  - pose proof (RaiseException_ok e addr (set_machine m1 k) Hwf1 Ha) as HR.
    destruct (RaiseException ExceptionHandler e addr _) as [k2|err]; cbn [mbind outcome_bind]; [|done]. destruct HR as (Hwf2 & Hr0 & Hpf).
    case_bool_decide as Epf; [|done].
    destruct (Translate_user _ addr size false (proj1 Hwf2) Hs) as (m3 & -> & Huo3 & _ & [Hr3 Hz3] & Hp3). cbn [mbind outcome_bind].
    destruct (Hpf Epf size false) as [p Hlp]; [rewrite machine_set_machine, Hlk1; by subst e|].
    rewrite Hlp in Hp3 |- *. destruct (read_phys_ok m3 p size) as (v & -> & Hv); [apply Huo3|done|lia|lia|].
    cbn [mbind outcome_bind]. split; [by apply wf_machine|]. rewrite machine_set_machine. split; [|done]. intros _. unfold reg. by rewrite Hr3.
  - destruct (read_phys_ok m1 p size) as (v & -> & Hv); [apply Huo1|done|lia|lia|].
    cbn [mbind outcome_bind]. split; [done|]. rewrite machine_set_machine. split; [|done]. unfold reg. by rewrite Hr1.
Qed.

Lemma user_ok_memory m p size value :
  user_ok m -> size = 1 \/ size = 2 \/ size = 4 -> 0 <= p -> p + size <= MemorySize ->
  exists m', write_phys m p size value = Ok m' /\ user_ok m' /\ pageTableSize m' = pageTableSize m.
Proof.
  intros [Hc Hm (t & Hsp)] Hs Hp Hps. destruct (write_phys_ok m p size value Hm Hs Hp Hps) as (-> & Hm' & _).
  eexists. split; [done|]. split; [|done]. split; [|done|].
  - destruct Hc. by split.
  - exists t. destruct Hsp. by split.
Qed.

Lemma WriteMem_total addr size value k :
  wf k -> size = 1 \/ size = 2 \/ size = 4 -> is_int addr ->
  match WriteMem ExceptionHandler addr size value k with
  | Ok (k', b) => wf k' /\ (b = false -> reg (k_machine k') 0 = 0)
  | Err err => kernel_failed err
  end.
Proof.
  intros Hwf Hs Ha. unfold WriteMem. destruct (Translate_user _ addr size true (proj1 Hwf) Hs) as (m1 & -> & Huo1 & Hlk1 & [_ Hz1] & Hp).
  cbn [mbind outcome_bind]. rewrite !machine_set_machine. pose proof (wf_machine k m1 Hwf Huo1 Hz1) as Hwf1.
  destruct (lookup_mem (k_machine k) addr size true) as [e|p] eqn:El.
  - pose proof (RaiseException_ok e addr (set_machine m1 k) Hwf1 Ha) as HR.
    destruct (RaiseException ExceptionHandler e addr _) as [k2|err]; cbn [mbind outcome_bind]; [|done]. destruct HR as (Hwf2 & Hr0 & Hpf).
    case_bool_decide as Epf; [|done].
    destruct (Translate_user _ addr size true (proj1 Hwf2) Hs) as (m3 & -> & Huo3 & _ & [_ Hz3] & Hp3). cbn [mbind outcome_bind].
    destruct (Hpf Epf size true) as [p Hlp]; [rewrite machine_set_machine, Hlk1; by subst e|].
    rewrite Hlp in Hp3 |- *. destruct (user_ok_memory m3 p size value Huo3 Hs) as (m4 & -> & Huo4 & Hz4); [lia|lia|].
    cbn [mbind outcome_bind]. split; [|done]. apply wf_machine; [done|done|congruence].
  - destruct (user_ok_memory m1 p size value Huo1 Hs) as (m4 & -> & Huo4 & Hz4); [lia|lia|].
    cbn [mbind outcome_bind]. split; [|done]. apply wf_machine; [done|done|by rewrite machine_set_machine].
Qed.

(** A case of the [switch] that ends properly. *)
Definition good (r : outcome step_end) : Prop :=
  match r with
  | Ok (k', fin) => wf k' /\
      match fin with
      | Some (pc, lr, lv) => is_int pc /\ 0 <= lr < NumGPRegs /\ is_int lv
      | None => reg (k_machine k') 0 = 0
      end
  | Err err => kernel_failed err
  end.

Lemma R_int k i : user_ok (k_machine k) -> is_int (R k i).
Proof. intros Huo. apply reg_int, Huo. Qed.
Lemma wf_R_int k i : wf k -> is_int (R k i).
Proof. intros [Huo _]. by apply R_int. Qed.

Lemma wr_ok i v k : wf k -> 0 <= i < PCReg -> is_int v -> wf (wr i v k).
Proof.
  intros Hwf Hi Hv. unfold wr. apply wf_machine; [done| |done]. apply user_ok_regs; [apply Hwf|].
  apply set_reg_ok; [apply Hwf|unfold PCReg, NumTotalRegs in *; lia|done|unfold PCReg, LoadReg in *; lia].
Qed.

Lemma good_load_next pc lr lv k :
  wf k -> is_int pc -> 0 <= lr < NumGPRegs -> is_int lv -> good (load_next pc lr lv k).
Proof. intros. by split. Qed.

Lemma good_next pc k : wf k -> is_int pc -> good (next pc k).
Proof. intros. apply good_load_next; [done..|]. by vm_compute. Qed.

Lemma good_trap e bad k : wf k -> is_int bad -> good (trap ExceptionHandler e bad k).
Proof.
  intros Hwf Hb. unfold trap. pose proof (RaiseException_ok e bad k Hwf Hb) as HR.
  destruct (RaiseException ExceptionHandler e bad k); cbn; [|done]. destruct HR as (? & ? & _). by split.
Qed.

Lemma good_with_read addr size k f :
  wf k -> size = 1 \/ size = 2 \/ size = 4 -> is_int addr ->
  (forall v k', wf k' -> is_int v -> good (f v k')) ->
  good (with_read ExceptionHandler addr size k f).
Proof.
  intros Hwf Hs Ha Hf. unfold with_read. pose proof (ReadMem_total addr size k Hwf Hs Ha) as HR.
  destruct (ReadMem ExceptionHandler addr size k) as [[k' [v|]]|]; cbn [mbind outcome_bind]; [|by destruct HR as (? & _ & ?)|done].
  destruct HR as (? & _ & ?). by apply Hf.
Qed.

Lemma good_with_write addr size value k f :
  wf k -> size = 1 \/ size = 2 \/ size = 4 -> is_int addr ->
  (forall k', wf k' -> good (f k')) -> good (with_write ExceptionHandler addr size value k f).
Proof.
  intros Hwf Hs Ha Hf. unfold with_write. pose proof (WriteMem_total addr size value k Hwf Hs Ha) as HR.
  destruct (WriteMem ExceptionHandler addr size value k) as [[k' [|]]|]; cbn [mbind outcome_bind]; [|destruct HR; split; auto|done].
  destruct HR. by apply Hf.
Qed.

(** What [Decode] guarantees of an instruction. *)
Record instr_ok (i : Instruction) : Prop := {
  io_rs : 0 <= rs i < NumGPRegs;
  io_rt : 0 <= rt i < NumGPRegs;
  io_rd : 0 <= rd i < NumGPRegs;
  io_extra : is_int (extra i);
  io_shift : match opCode i with OP_SLL | OP_SRL | OP_SRA => 0 <= extra i < 32 | _ => True end;
}.

Lemma good_branch b i pc k : wf k -> is_int pc -> good (branch b i pc k).
Proof. intros. apply good_next; [done|]. destruct b; [apply to_int_range|done]. Qed.
End total.

Lemma gp_lt_pc r : 0 <= r < NumGPRegs -> 0 <= r < PCReg.
Proof. unfold NumGPRegs, PCReg. lia. Qed.

Lemma bit_int (b : bool) : is_int (if b then 1 else 0).
Proof. destruct b; unfold is_int; lia. Qed.

Lemma land_31_nonneg a : 0 <= Z.land a 31.
Proof. apply Z.land_nonneg. lia. Qed.

Lemma quot_rem_int a b :
  is_int a -> is_int b -> b <> 0 -> ~ (a = - 2 ^ 31 /\ b = -1) -> is_int (Z.quot a b) /\ is_int (Z.rem a b).
Proof.
  unfold is_int. intros Ha Hb Hb0 Hne.
  pose proof (Z.quot_rem' a b). pose proof (Z.rem_bound_abs a b Hb0) as Hr. split; [|lia].
  assert (Z.abs (Z.quot a b) <= Z.abs a) as Hq.
  { rewrite <- Z.quot_abs by done. rewrite Z.quot_div_nonneg by lia. apply Z.div_le_upper_bound; [lia|]. nia. }
  destruct (decide (a = - 2 ^ 31)) as [->|]; [|lia]. assert (b <> -1) by lia.
  destruct (decide (Z.quot (- 2 ^ 31) b = 2 ^ 31)) as [E|]; [|lia]. exfalso. rewrite E in *.
  assert (Z.abs (Z.rem (- 2 ^ 31) b) < Z.abs b) by done. nia.
Qed.

#[export] Hint Resolve good_next good_load_next good_trap good_branch wr_ok wf_R_int to_int_range lor_int land_int
  lxor_int lnot_int shiftr_int land_byte_int gp_lt_pc bit_int land_31_nonneg : nachos.
#[export] Hint Extern 1 (0 <= _ < _) => (unfold NumGPRegs, PCReg, HiReg, LoReg, R31, NumTotalRegs; lia) : nachos.
#[export] Hint Extern 1 (_ = 1 \/ _ = 2 \/ _ = 4) => lia : nachos.
#[export] Hint Extern 1 (is_int 0) => (by vm_compute) : nachos.

Section total_exec.
Context {K : Type} `{InterruptState K} `{MachineState K} `{!MachineStateLaws K}.
Context (ExceptionHandler : ExceptionType -> K -> outcome K) (inv : K -> Prop) (Hst : stable inv).
Context (Hht : handler_contract ExceptionHandler inv).
Context (i : Instruction) (Hi : instr_ok i) (pc : Z) (Hpc : is_int pc).
Implicit Types k : K.

Ltac exec_step :=
  lazymatch goal with
  | |- good _ _ (with_read _ _ _ _ _) => apply good_with_read; [done|done|eauto with nachos|eauto with nachos|eauto with nachos|intros v k1 Hk1 Hv]
  | |- good _ _ (with_write _ _ _ _ _ _) => apply good_with_write; [done|done|eauto with nachos|eauto with nachos|eauto with nachos|intros k2 Hk2]
  end.

Lemma exec_rest_good k :
  wf inv k ->
  match opCode i with OP_SWL | OP_SWR | OP_SYSCALL | OP_XOR | OP_XORI | OP_RES | OP_UNIMP => True | _ => False end ->
  good ExceptionHandler inv (exec_rest ExceptionHandler i pc k).
Proof.
  intros Huo Hop. pose proof Hi as [Hrs Hrt Hrd Hex _]. unfold exec_rest.
  destruct (opCode i); try done; repeat exec_step; eauto 8 with nachos.
Qed.

Lemma exec_mf_sw_good k :
  wf inv k ->
  match opCode i with
  | OP_LB | OP_LBU | OP_LH | OP_LHU | OP_LUI | OP_LW | OP_LWL | OP_LWR | OP_ADD | OP_ADDI | OP_ADDIU | OP_ADDU
  | OP_AND | OP_ANDI | OP_BEQ | OP_BGEZ | OP_BGEZAL | OP_BGTZ | OP_BLEZ | OP_BLTZ | OP_BLTZAL | OP_BNE | OP_DIV
  | OP_DIVU | OP_J | OP_JAL | OP_JALR | OP_JR => False
  | _ => True
  end ->
  good ExceptionHandler inv (exec_mf_sw ExceptionHandler i pc k).
Proof.
  intros Huo Hop. pose proof Hi as [Hrs Hrt Hrd Hex Hsh]. unfold exec_mf_sw.
  destruct (opCode i) eqn:Eop; try done; try (apply exec_rest_good; [done|by rewrite Eop]); repeat exec_step;
    eauto 8 with nachos.
  - pose proof (Mult_ok (R k (rs i)) (R k (rt i)) true ltac:(eauto with nachos) ltac:(eauto with nachos)) as HM.
    destruct (Mult _ _ true) as [hi lo]. destruct HM as (H1 & H2 & _). eauto 8 with nachos.
  - pose proof (Mult_ok (R k (rs i)) (R k (rt i)) false ltac:(eauto with nachos) ltac:(eauto with nachos)) as HM.
    destruct (Mult _ _ false) as [hi lo]. destruct HM as (H1 & H2 & _). eauto 8 with nachos.
  - apply good_next; [|done]. apply wr_ok; [done|done|eauto with nachos|]. apply shiftr_int; [eauto with nachos|lia].
  - apply good_next; [|done]. apply wr_ok; [done|done|eauto with nachos|]. apply shiftr_int; [eauto with nachos|lia].
  - destruct (_ && _); eauto 8 with nachos.
Qed.

Lemma exec_load_good k :
  wf inv k ->
  match opCode i with
  | OP_ADD | OP_ADDI | OP_ADDIU | OP_ADDU | OP_AND | OP_ANDI | OP_BEQ | OP_BGEZ | OP_BGEZAL | OP_BGTZ | OP_BLEZ
  | OP_BLTZ | OP_BLTZAL | OP_BNE | OP_DIV | OP_DIVU | OP_J | OP_JAL | OP_JALR | OP_JR => False
  | _ => True
  end ->
  good ExceptionHandler inv (exec_load ExceptionHandler i pc k).
Proof.
  intros Huo Hop. pose proof Hi as [Hrs Hrt Hrd Hex Hsh]. unfold exec_load, pending_value, lwl_merge, lwr_merge.
  destruct (opCode i) eqn:Eop; try done; try (apply exec_mf_sw_good; [done|by rewrite Eop]);
    try (destruct (negb (Z.land (to_int _) _ =? 0)); [by eauto with nachos|]); repeat exec_step;
    try (apply good_load_next; [done|done|done|]); eauto 8 with nachos.
  all: repeat match goal with
    | |- is_int (if ?b then _ else _) => destruct b
    | |- is_int (match ?x with _ => _ end) => destruct x
    end; eauto with nachos.
Qed.

(** The only instruction that the simulator cannot execute. *)
Definition div_overflow k : bool :=
  match opCode i with OP_DIV => (R k (rs i) =? - 2 ^ 31) && (R k (rt i) =? -1) | _ => false end.

Lemma exec_instr_good k :
  wf inv k ->
  if div_overflow k then exec_instr ExceptionHandler i pc k = Err Undefined
  else good ExceptionHandler inv (exec_instr ExceptionHandler i pc k).
Proof.
  intros Huo. pose proof Hi as [Hrs Hrt Hrd Hex Hsh]. unfold exec_instr, div_overflow.
  destruct (opCode i) eqn:Eop; try (apply exec_load_good; [done|by rewrite Eop]); eauto 8 with nachos.
  - destruct (_ && _); eauto 8 with nachos.
  - destruct (_ && _); eauto 8 with nachos.
  - destruct (Z.eqb_spec (R k (rt i)) 0) as [E0|E0].
    + rewrite E0. rewrite andb_false_r. eauto 8 with nachos.
    + destruct ((R k (rs i) =? - 2 ^ 31) && (R k (rt i) =? -1)) eqn:Ed; [done|].
      destruct (quot_rem_int (R k (rs i)) (R k (rt i))) as [H1 H2]; [eauto with nachos..|done| |eauto 8 with nachos].
      intros [E1 E2]. rewrite E1, E2 in Ed. done.
  - destruct (_ =? 0); eauto 8 with nachos.
Qed.
End total_exec.

(** ** Decoding *)
Lemma land_field v n : 0 <= Z.land v (2 ^ Z.of_nat n - 1) < 2 ^ Z.of_nat n.
Proof. rewrite land_mod by lia. apply Z.mod_pos_bound. lia. Qed.

Lemma land_31_range v : 0 <= Z.land v 31 < 32.
Proof. exact (land_field v 5). Qed.

Lemma opTable_shift :
  Forall (fun p : op_entry * op_format =>
    match p with
    | (Op (OP_SLL | OP_SRL | OP_SRA), _) => False
    | (SPECIAL, f) => f = RFMT
    | _ => True
    end) opTable.
Proof. repeat constructor. Qed.

Lemma Decode_ok v : instr_ok (Decode v).
Proof.
  unfold Decode. set (n := Z.to_nat (Z.land (Z.shiftr v 26) 63)).
  destruct (default (Op OP_RES, IFMT) (opTable !! n)) as [entry format] eqn:E.
  assert (match (entry, format) with
    | (Op (OP_SLL | OP_SRL | OP_SRA), _) => False | (SPECIAL, f) => f = RFMT | _ => True end) as Hent.
  { destruct (opTable !! n) as [p|] eqn:En; cbn in E.
    - pose proof (Forall_lookup_1 _ _ _ _ opTable_shift En) as Hp. subst p. exact Hp.
    - injection E as <- <-. done. }
  split; cbn [rs rt rd extra opCode].
  - apply land_31_range.
  - apply land_31_range.
  - apply land_31_range.
  - destruct format.
    + destruct (negb _); [apply to_int_range|]. apply land_byte_int. lia.
    + apply land_byte_int. lia.
    + apply land_byte_int. lia.
  - destruct entry as [o| |].
    + destruct o; done.
    + subst format. pose proof (land_31_range (Z.shiftr v 6)) as Hsh.
      destruct (default OP_RES _); (exact I || exact Hsh).
    + repeat match goal with |- context [if ?b then _ else _] => destruct b end; done.
Qed.

(** The three instruction formats. *)
Definition encode_R (funct rs rt rd shamt : Z) : Z :=
  rs * 2 ^ 21 + rt * 2 ^ 16 + rd * 2 ^ 11 + shamt * 2 ^ 6 + funct.
Definition encode_I (opc rs rt imm : Z) : Z := opc * 2 ^ 26 + rs * 2 ^ 21 + rt * 2 ^ 16 + imm mod 2 ^ 16.
Definition encode_J (opc target : Z) : Z := opc * 2 ^ 26 + target.

Lemma field v k n : 0 <= k -> Z.land (Z.shiftr v k) (2 ^ Z.of_nat n - 1) = (v / 2 ^ k) mod 2 ^ Z.of_nat n.
Proof. intros. by rewrite land_mod, Z.shiftr_div_pow2 by lia. Qed.

(** Sign extension of the immediate field. *)
Lemma sign_extend_imm imm :
  - 2 ^ 15 <= imm < 2 ^ 15 ->
  let e := imm mod 2 ^ 16 in (if negb (Z.land e 0x8000 =? 0) then to_int (Z.lor e 0xffff0000) else e) = imm.
Proof.
  intros Hi e. pose proof (Z.mod_pos_bound imm (2 ^ 16) ltac:(lia)) as He. fold e in He.
  assert (e = if imm <? 0 then imm + 2 ^ 16 else imm) as Hee.
  { unfold e. destruct (Z.ltb_spec imm 0); [symmetry; apply (Z.mod_unique_pos _ _ (-1)); lia|apply Z.mod_small; lia]. }
  change 0x8000 with (2 ^ 15). rewrite land_pow2_testbit by lia.
  rewrite Z.testbit_odd, Z.shiftr_div_pow2 by lia. destruct (Z.ltb_spec imm 0) as [Hn|Hp].
  - assert (e / 2 ^ 15 = 1) as -> by (symmetry; apply (Z.div_unique_pos _ _ _ (e - 2 ^ 15)); lia). cbn [Z.odd].
    assert (Z.lor e 0xffff0000 = 0xffff * 2 ^ 16 + e) as ->.
    { change 0xffff0000 with (0xffff * 2 ^ 16). rewrite Z.lor_comm, <- Z.shiftl_mul_pow2 by lia.
      symmetry. rewrite Z.add_nocarry_lxor, Z.lxor_lor; [done| |]; (apply Z.bits_inj'; intros n Hnn;
        rewrite Z.land_spec, Z.bits_0; destruct (decide (n < 16));
        [rewrite Z.shiftl_spec_low by lia; done|
         rewrite (Z.testbit_odd e), Z.shiftr_div_pow2 by lia;
         rewrite (Z.div_small e) by (split; [lia|]; apply Z.lt_le_trans with (2 ^ 16); [lia|apply Z.pow_le_mono_r; lia]);
         by rewrite andb_false_r]). }
    rewrite Hee. unfold to_int. replace (65535 * 2 ^ 16 + (imm + 2 ^ 16) + 2 ^ 31) with (imm + 2 ^ 31 + 1 * 2 ^ 32) by lia.
    rewrite Z_mod_plus_full, Z.mod_small by lia. lia.
  - by rewrite Z.div_small by lia.
Qed.

Lemma encode_I_ok opc rs' rt' imm :
  0 <= opc < 64 -> 0 <= rs' < 32 -> 0 <= rt' < 32 ->
  let v := encode_I opc rs' rt' imm in
  is_uint v /\ Z.land (Z.shiftr v 26) 63 = opc /\ Z.land (Z.shiftr v 21) 31 = rs' /\ Z.land (Z.shiftr v 16) 31 = rt' /\
  Z.land v 65535 = imm mod 2 ^ 16.
Proof.
  intros Ho Hs Ht v. pose proof (Z.mod_pos_bound imm (2 ^ 16) ltac:(lia)) as He.
  change 63 with (2 ^ Z.of_nat 6 - 1). change 31 with (2 ^ Z.of_nat 5 - 1). change 65535 with (2 ^ Z.of_nat 16 - 1).
  rewrite !field, land_mod by lia. unfold v, encode_I, is_uint. set (e := imm mod 2 ^ 16) in *.
  change (Z.of_nat 6) with 6. change (Z.of_nat 5) with 5. change (Z.of_nat 16) with 16.
  split; [lia|]. split_and!.
  - replace (opc * 2 ^ 26 + rs' * 2 ^ 21 + rt' * 2 ^ 16 + e) with (opc * 2 ^ 26 + (rs' * 2 ^ 21 + rt' * 2 ^ 16 + e)) by lia.
    rewrite Z.div_add_l, Z.div_small, Z.add_0_r by lia. apply Z.mod_small. lia.
  - replace (opc * 2 ^ 26 + rs' * 2 ^ 21 + rt' * 2 ^ 16 + e) with ((opc * 2 ^ 5 + rs') * 2 ^ 21 + (rt' * 2 ^ 16 + e)) by lia.
    rewrite Z.div_add_l, (Z.div_small (rt' * _ + e)), Z.add_0_r by lia.
    rewrite Z.add_comm, Z_mod_plus_full. apply Z.mod_small. lia.
  - replace (opc * 2 ^ 26 + rs' * 2 ^ 21 + rt' * 2 ^ 16 + e) with (((opc * 2 ^ 5 + rs') * 2 ^ 5 + rt') * 2 ^ 16 + e) by lia.
    rewrite Z.div_add_l, (Z.div_small e), Z.add_0_r by lia.
    rewrite Z.add_comm, Z_mod_plus_full. apply Z.mod_small. lia.
  - replace (opc * 2 ^ 26 + rs' * 2 ^ 21 + rt' * 2 ^ 16 + e) with (e + ((opc * 2 ^ 5 + rs') * 2 ^ 5 + rt') * 2 ^ 16) by lia.
    rewrite Z_mod_plus_full. apply Z.mod_small. lia.
Qed.

Lemma encode_R_ok funct rs' rt' rd' sh :
  0 <= funct < 64 -> 0 <= rs' < 32 -> 0 <= rt' < 32 -> 0 <= rd' < 32 -> 0 <= sh < 32 ->
  let v := encode_R funct rs' rt' rd' sh in
  is_uint v /\ Z.land (Z.shiftr v 26) 63 = 0 /\ Z.land (Z.shiftr v 21) 31 = rs' /\ Z.land (Z.shiftr v 16) 31 = rt' /\
  Z.land (Z.shiftr v 11) 31 = rd' /\ Z.land (Z.shiftr v 6) 31 = sh /\ Z.land v 63 = funct.
Proof.
  intros Hf Hs Ht Hd Hh v.
  change 63 with (2 ^ Z.of_nat 6 - 1). change 31 with (2 ^ Z.of_nat 5 - 1).
  rewrite !field, land_mod by lia. unfold v, encode_R, is_uint.
  change (Z.of_nat 6) with 6. change (Z.of_nat 5) with 5. split; [lia|]. split_and!.
  - rewrite Z.div_small by lia. done.
  - replace (_ + funct) with (rs' * 2 ^ 21 + (rt' * 2 ^ 16 + rd' * 2 ^ 11 + sh * 2 ^ 6 + funct)) by lia.
    rewrite Z.div_add_l, (Z.div_small (_ + funct)), Z.add_0_r by lia. apply Z.mod_small. lia.
  - replace (_ + funct) with ((rs' * 2 ^ 5 + rt') * 2 ^ 16 + (rd' * 2 ^ 11 + sh * 2 ^ 6 + funct)) by lia.
    rewrite Z.div_add_l, (Z.div_small (_ + funct)), Z.add_0_r by lia. rewrite Z.add_comm, Z_mod_plus_full. apply Z.mod_small. lia.
  - replace (_ + funct) with (((rs' * 2 ^ 5 + rt') * 2 ^ 5 + rd') * 2 ^ 11 + (sh * 2 ^ 6 + funct)) by lia.
    rewrite Z.div_add_l, (Z.div_small (_ + funct)), Z.add_0_r by lia. rewrite Z.add_comm, Z_mod_plus_full. apply Z.mod_small. lia.
  - replace (_ + funct) with ((((rs' * 2 ^ 5 + rt') * 2 ^ 5 + rd') * 2 ^ 5 + sh) * 2 ^ 6 + funct) by lia.
    rewrite Z.div_add_l, (Z.div_small funct), Z.add_0_r by lia. rewrite Z.add_comm, Z_mod_plus_full. apply Z.mod_small. lia.
  - replace (_ + funct) with (funct + (((rs' * 2 ^ 5 + rt') * 2 ^ 5 + rd') * 2 ^ 5 + sh) * 2 ^ 6) by lia.
    rewrite Z_mod_plus_full. apply Z.mod_small. lia.
Qed.

(** ** Unaligned words *)
Lemma lor_low a b n : 0 <= n -> 0 <= a < 2 ^ n -> Z.lor a (b * 2 ^ n) = a + b * 2 ^ n.
Proof.
  intros Hn Ha. rewrite <- Z.shiftl_mul_pow2 by done.
  assert (Z.land a (Z.shiftl b n) = 0) as Hz.
  { apply Z.bits_inj'. intros m Hm. rewrite Z.land_spec, Z.bits_0. destruct (decide (m < n)).
    - rewrite Z.shiftl_spec_low by lia. by rewrite andb_false_r.
    - rewrite (Z.testbit_odd a), Z.shiftr_div_pow2 by lia.
      rewrite (Z.div_small a) by (split; [lia|]; apply Z.lt_le_trans with (2 ^ n); [lia|apply Z.pow_le_mono_r; lia]). done. }
  by rewrite <- Z.lxor_lor, <- Z.add_nocarry_lxor.
Qed.

Lemma land_high_mask x n :
  0 <= n <= 32 -> Z.land (to_uint x) (2 ^ 32 - 2 ^ n) = to_uint x / 2 ^ n * 2 ^ n.
Proof.
  intros Hn. replace (2 ^ 32 - 2 ^ n) with (Z.shiftl (Z.ones (32 - n)) n).
  2: { rewrite Z.shiftl_mul_pow2, Z.ones_equiv by lia. rewrite <- Z.sub_1_r, Z.mul_sub_distr_r, <- Z.pow_add_r by lia.
       replace (32 - n + n) with 32 by lia. lia. }
  rewrite <- Z.shiftr_div_pow2, <- Z.shiftl_mul_pow2 by lia. pose proof (to_uint_range x) as Hx.
  apply Z.bits_inj'. intros m Hm. rewrite Z.land_spec. destruct (decide (m < n)).
  - rewrite !Z.shiftl_spec_low by lia. by rewrite andb_false_r.
  - rewrite !Z.shiftl_spec, Z.shiftr_spec by lia. replace (m - n + n) with m by lia.
    destruct (decide (m < 32)).
    + rewrite Z.ones_spec_low by lia. by rewrite andb_true_r.
    + by rewrite (is_uint_high (to_uint x) m Hx) by lia.
Qed.

Lemma to_int_congr x y : (x - y) mod 2 ^ 32 = 0 -> to_int x = to_int y.
Proof.
  intros Hd. unfold to_int. f_equal. pose proof (Z.div_mod (x - y) (2 ^ 32) ltac:(lia)) as Hq.
  replace (x + 2 ^ 31) with (y + 2 ^ 31 + (x - y) / 2 ^ 32 * 2 ^ 32) by lia. apply Z_mod_plus_full.
Qed.

(** The merges in arithmetic form; [n] is the number of low bits kept or
    shifted. *)
Lemma merge_low old value n :
  0 <= n <= 32 -> to_int (Z.lor (Z.land old (2 ^ n - 1)) (Z.shiftl value n)) = to_int (old mod 2 ^ n + value * 2 ^ n).
Proof.
  intros Hn. rewrite land_mod, Z.shiftl_mul_pow2 by lia. rewrite lor_low; [done|lia|].
  apply Z.mod_pos_bound. apply Z.pow_pos_nonneg; lia.
Qed.

Lemma merge_high old value n :
  0 <= n <= 32 ->
  to_int (Z.lor (Z.land (to_uint old) (2 ^ 32 - 2 ^ n)) (Z.land (Z.shiftr value (32 - n)) (2 ^ n - 1))) =
  to_int (to_uint old / 2 ^ n * 2 ^ n + (value / 2 ^ (32 - n)) mod 2 ^ n).
Proof.
  intros Hn. rewrite land_high_mask, land_mod, Z.shiftr_div_pow2 by lia. rewrite Z.lor_comm, lor_low; [f_equal; lia|lia|].
  apply Z.mod_pos_bound. apply Z.pow_pos_nonneg; lia.
Qed.

(** A register of four bytes, low byte first. *)
Definition word_of (bs : list Z) : Z := to_int (le_value bs).

Lemma word_bytes b0 b1 b2 b3 :
  is_byte b0 -> is_byte b1 -> is_byte b2 -> is_byte b3 ->
  to_uint (word_of [b0; b1; b2; b3]) = b0 + 256 * b1 + 65536 * b2 + 16777216 * b3 /\
  (word_of [b0; b1; b2; b3] = b0 + 256 * b1 + 65536 * b2 + 16777216 * b3 \/
   word_of [b0; b1; b2; b3] = b0 + 256 * b1 + 65536 * b2 + 16777216 * b3 - 2 ^ 32).
Proof.
  unfold is_byte. intros. unfold word_of. cbn [le_value].
  replace (b0 + 256 * _) with (b0 + 256 * b1 + 65536 * b2 + 16777216 * b3) by lia.
  rewrite to_uint_to_int. split; [apply to_uint_id; unfold is_uint; lia|].
  rewrite to_int_cases by (unfold is_uint; lia). destruct (_ <? _); lia.
Qed.

Lemma to_int_mod y n : 0 <= n <= 32 -> to_int y mod 2 ^ n = y mod 2 ^ n.
Proof.
  intros Hn. unfold to_int. assert ((2 ^ n | 2 ^ 32)) as Hd.
  { exists (2 ^ (32 - n)). rewrite <- Z.pow_add_r by lia. f_equal. lia. }
  rewrite Zminus_mod, Z.mod_mod_divide by done. rewrite <- Zminus_mod. f_equal. lia.
Qed.

Lemma to_uint_shift w n : 0 <= n <= 32 -> (w / 2 ^ (32 - n)) mod 2 ^ n = to_uint w / 2 ^ (32 - n).
Proof.
  intros Hn. unfold to_uint. pose proof (Z.div_mod w (2 ^ 32) ltac:(lia)) as Hw.
  pose proof (Z.mod_pos_bound w (2 ^ 32) ltac:(lia)) as Hm.
  assert (2 ^ 32 = 2 ^ n * 2 ^ (32 - n)) as Hp by (rewrite <- Z.pow_add_r by lia; f_equal; lia).
  assert (0 < 2 ^ n) by (apply Z.pow_pos_nonneg; lia). assert (0 < 2 ^ (32 - n)) by (apply Z.pow_pos_nonneg; lia).
  rewrite Hw at 1. rewrite Hp at 1.
  replace (2 ^ n * 2 ^ (32 - n) * (w / 2 ^ 32) + w mod 2 ^ 32) with (w / 2 ^ 32 * 2 ^ n * 2 ^ (32 - n) + w mod 2 ^ 32) by lia.
  rewrite Z.div_add_l, Z.add_comm, Z_mod_plus_full by lia. apply Z.mod_small.
  split; [apply Z.div_pos; lia|]. apply Z.div_lt_upper_bound; lia.
Qed.

(** A right part and a left part together. *)
Lemma merge_pair old w0 w1 n :
  0 <= n <= 32 ->
  to_int (Z.lor (Z.land (to_int (Z.lor (Z.land (to_uint old) (2 ^ 32 - 2 ^ n))
    (Z.land (Z.shiftr w0 (32 - n)) (2 ^ n - 1)))) (2 ^ n - 1)) (Z.shiftl w1 n)) =
  to_int (to_uint w0 / 2 ^ (32 - n) + to_uint w1 * 2 ^ n).
Proof.
  intros Hn. rewrite merge_high, merge_low, to_int_mod, to_uint_shift by lia.
  assert (0 < 2 ^ n) by (apply Z.pow_pos_nonneg; lia).
  pose proof (to_uint_range w0) as Hw0. unfold is_uint in Hw0.
  assert (0 <= to_uint w0 / 2 ^ (32 - n) < 2 ^ n) as Hq.
  { assert (0 < 2 ^ (32 - n)) by (apply Z.pow_pos_nonneg; lia). split; [apply Z.div_pos; lia|].
    apply Z.div_lt_upper_bound; [lia|]. rewrite <- Z.pow_add_r by lia. replace (32 - n + n) with 32 by lia. lia. }
  rewrite Z.add_comm, Z.mul_comm, (Z.add_comm _ (to_uint w0 / _)).
  rewrite (Z.mul_comm (2 ^ n) w1), (Z.mul_comm (to_uint old / 2 ^ n)), (Z.mul_comm (2 ^ n) (to_uint old / _)), Z_mod_plus_full.
  rewrite Z.mod_small by done. apply to_int_congr.
  replace (_ - _) with ((w1 - to_uint w1) * 2 ^ n) by lia.
  unfold to_uint. pose proof (Z.div_mod w1 (2 ^ 32) ltac:(lia)) as Hw1.
  replace (w1 - w1 mod 2 ^ 32) with (w1 / 2 ^ 32 * 2 ^ 32) by lia.
  replace (w1 / 2 ^ 32 * 2 ^ 32 * 2 ^ n) with (w1 / 2 ^ 32 * 2 ^ n * 2 ^ 32) by lia. apply Z.mod_mul. lia.
Qed.

(** The unaligned load pair.  With the eight bytes of two adjacent words in
    memory, [LWR] at byte offset [k] followed by [LWL] at [k + 3] leaves in the
    register exactly the four bytes starting at [k], whatever it held. *)
Theorem unaligned_load_pair a0 a1 a2 a3 b0 b1 b2 b3 old k :
  Forall is_byte [a0; a1; a2; a3; b0; b1; b2; b3] -> is_int old -> 0 <= k <= 3 ->
  let w0 := word_of [a0; a1; a2; a3] in
  let w1 := word_of [b0; b1; b2; b3] in
  lwl_merge (Z.land (k + 3) 3) (lwr_merge k old w0) (if k =? 0 then w0 else w1) =
  word_of (take 4 (drop (Z.to_nat k) [a0; a1; a2; a3; b0; b1; b2; b3])).
Proof.
  intros HF Ho Hk w0 w1. repeat (apply Forall_cons in HF as [? HF]). clear HF.
  destruct (word_bytes a0 a1 a2 a3) as [Hu0 Hw0]; [done..|]. destruct (word_bytes b0 b1 b2 b3) as [Hu1 Hw1]; [done..|].
  fold w0 in Hu0, Hw0. fold w1 in Hu1, Hw1. unfold is_byte in *.
  assert (k = 0 \/ k = 1 \/ k = 2 \/ k = 3) as [->|[->|[->| ->]]] by lia.
  - done.
  - change (lwl_merge (Z.land (1 + 3) 3) (lwr_merge 1 old w0) (if 1 =? 0 then w0 else w1)) with
      (to_int (Z.lor (Z.land (to_int (Z.lor (Z.land (to_uint old) (2 ^ 32 - 2 ^ 24))
        (Z.land (Z.shiftr w0 (32 - 24)) (2 ^ 24 - 1)))) (2 ^ 24 - 1)) (Z.shiftl w1 24))).
    rewrite merge_pair, Hu0, Hu1 by lia. unfold word_of. change (take 4 _) with [a1; a2; a3; b0]. cbn [le_value].
    rewrite <- (Z.div_unique_pos _ _ (a1 + 256 * a2 + 65536 * a3) (a0)) by lia. apply to_int_congr.
    match goal with |- ?x mod _ = 0 => replace x with ((b1 + 256 * b2 + 65536 * b3) * 2 ^ 32) by lia end. apply Z.mod_mul. lia.
  - change (lwl_merge (Z.land (2 + 3) 3) (lwr_merge 2 old w0) (if 2 =? 0 then w0 else w1)) with
      (to_int (Z.lor (Z.land (to_int (Z.lor (Z.land (to_uint old) (2 ^ 32 - 2 ^ 16))
        (Z.land (Z.shiftr w0 (32 - 16)) (2 ^ 16 - 1)))) (2 ^ 16 - 1)) (Z.shiftl w1 16))).
    rewrite merge_pair, Hu0, Hu1 by lia. unfold word_of. change (take 4 _) with [a2; a3; b0; b1]. cbn [le_value].
    rewrite <- (Z.div_unique_pos _ _ (a2 + 256 * a3) (a0 + 256 * a1)) by lia. apply to_int_congr.
    match goal with |- ?x mod _ = 0 => replace x with ((b2 + 256 * b3) * 2 ^ 32) by lia end. apply Z.mod_mul. lia.
  - change (lwl_merge (Z.land (3 + 3) 3) (lwr_merge 3 old w0) (if 3 =? 0 then w0 else w1)) with
      (to_int (Z.lor (Z.land (to_int (Z.lor (Z.land (to_uint old) (2 ^ 32 - 2 ^ 8))
        (Z.land (Z.shiftr w0 (32 - 8)) (2 ^ 8 - 1)))) (2 ^ 8 - 1)) (Z.shiftl w1 8))).
    rewrite merge_pair, Hu0, Hu1 by lia. unfold word_of. change (take 4 _) with [a3; b0; b1; b2]. cbn [le_value].
    rewrite <- (Z.div_unique_pos _ _ (a3) (a0 + 256 * a1 + 65536 * a2)) by lia. apply to_int_congr.
    match goal with |- ?x mod _ = 0 => replace x with ((b3) * 2 ^ 32) by lia end. apply Z.mod_mul. lia.
Qed.

Lemma unaligned_load_pair_witness :
  lwl_merge (Z.land (1 + 3) 3) (lwr_merge 1 (-1) (word_of [1; 2; 3; 4])) (word_of [5; 6; 7; 8]) =
  2 + 256 * 3 + 65536 * 4 + 16777216 * 5.
Proof.
  pose proof (unaligned_load_pair 1 2 3 4 5 6 7 8 (-1) 1 ltac:(repeat constructor; lia)
    ltac:(unfold is_int; lia) ltac:(lia)) as HL. cbn zeta in HL. change (1 =? 0) with false in HL.
  rewrite HL. vm_compute. reflexivity.
Defined.

(** C33: the bit-by-bit multiplication computes the full 64-bit product: the
    high word and the low word together are the exact signed product for MULT,
    and the exact product of the unsigned values for MULTU, including the least
    integer and operands with the sign bit set. *)
Theorem mult_correct a b s :
  is_int a -> is_int b ->
  let '(hi, lo) := Mult a b s in
  is_int hi /\ is_int lo /\
  (if s then hi * 2 ^ 32 + to_uint lo = a * b
   else to_uint hi * 2 ^ 32 + to_uint lo = to_uint a * to_uint b).
Proof.
  intros Ha Hb. pose proof (Mult_ok a b s Ha Hb) as HM. destruct (Mult a b s) as [hi lo].
  destruct HM as (Hhi & Hlo & HM). split; [done|]. split; [done|].
  pose proof (to_uint_range lo) as Hul. pose proof (to_uint_range hi) as Huh. unfold is_uint in *. destruct s.
  - rewrite to_uint_cases in HM by done. unfold is_int in *.
    assert (- 2 ^ 62 <= a * b <= 2 ^ 62) as Hab by nia.
    destruct (Z.ltb_spec (a * b) 0).
    + assert ((a * b) mod 2 ^ 64 = a * b + 2 ^ 64) as Hm by (symmetry; apply (Z.mod_unique_pos _ _ (-1)); lia).
      destruct (Z.ltb_spec hi 0); lia.
    + rewrite Z.mod_small in HM by lia. destruct (Z.ltb_spec hi 0); lia.
  - rewrite Z.mod_small in HM; [done|]. pose proof (to_uint_range a). pose proof (to_uint_range b). unfold is_uint in *. nia.
Qed.

Lemma mult_correct_witness :
  Mult (-7) 3 true = (-1, -21) /\ (-1) * 2 ^ 32 + to_uint (-21) = -7 * 3.
Proof.
  pose proof (mult_correct (-7) 3 true ltac:(unfold is_int; lia) ltac:(unfold is_int; lia)) as HM.
  split; [vm_compute; reflexivity|]. exact (proj2 (proj2 HM)).
Defined.

(** Decoding inverts encoding for the three instruction formats: the
    operation is the one the opcode tables assign, the register fields come
    back, and the immediate comes back sign-extended. *)
Theorem decode_encode :
  (forall funct rs' rt' rd' sh, 0 <= funct < 64 -> 0 <= rs' < 32 -> 0 <= rt' < 32 -> 0 <= rd' < 32 -> 0 <= sh < 32 ->
     Decode (encode_R funct rs' rt' rd' sh) = mkInstr (default OP_RES (specialTable !! Z.to_nat funct)) rs' rt' rd' sh) /\
  (forall opc o rs' rt' imm, 0 <= opc < 64 -> opTable !! Z.to_nat opc = Some (Op o, IFMT) ->
     0 <= rs' < 32 -> 0 <= rt' < 32 -> - 2 ^ 15 <= imm < 2 ^ 15 ->
     let i := Decode (encode_I opc rs' rt' imm) in opCode i = o /\ rs i = rs' /\ rt i = rt' /\ extra i = imm) /\
  (forall opc o target, 0 <= opc < 64 -> opTable !! Z.to_nat opc = Some (Op o, JFMT) -> 0 <= target < 2 ^ 26 ->
     let i := Decode (encode_J opc target) in opCode i = o /\ extra i = target).
Proof.
  split_and!.
  - intros funct rs' rt' rd' sh Hf Hs Ht Hd Hh. destruct (encode_R_ok funct rs' rt' rd' sh) as (_ & E1 & E2 & E3 & E4 & E5 & E6); [done..|].
    unfold Decode. rewrite E1, E2, E3, E4, E5, E6. done.
  - intros opc o rs' rt' imm Ho Hent Hs Ht Hi. destruct (encode_I_ok opc rs' rt' imm) as (_ & E1 & E2 & E3 & E4); [done..|].
    cbn zeta. unfold Decode. rewrite E1, Hent, E2, E3, E4. cbn [default from_option id opCode rs rt extra].
    split_and!; [done..|]. by apply sign_extend_imm.
  - intros opc o target Ho Hent Ht. cbn zeta.
    assert (Z.land (Z.shiftr (encode_J opc target) 26) 63 = opc) as E1.
    { change 63 with (2 ^ Z.of_nat 6 - 1). rewrite field by lia. unfold encode_J. rewrite Z.div_add_l, (Z.div_small target) by lia.
      rewrite Z.add_0_r. apply Z.mod_small. change (Z.of_nat 6) with 6. lia. }
    assert (Z.land (encode_J opc target) 0x3ffffff = target) as E2.
    { change 0x3ffffff with (2 ^ 26 - 1). rewrite land_mod by lia. unfold encode_J. rewrite Z.add_comm, Z_mod_plus_full.
      apply Z.mod_small. lia. }
    unfold Decode. rewrite E1, Hent, E2. cbn [default from_option id opCode extra]. done.
Qed.

(** [addi r29, r29, -24] *)
Lemma decode_encode_witness :
  encode_I 8 29 29 (-24) = 0x23bdffe8 /\ opCode (Decode 0x23bdffe8) = OP_ADDI /\ extra (Decode 0x23bdffe8) = -24.
Proof.
  destruct decode_encode as (_ & HI & _).
  destruct (HI 8 OP_ADDI 29 29 (-24) ltac:(lia) eq_refl ltac:(lia) ltac:(lia) ltac:(lia)) as (H1 & _ & _ & H2).
  split; [vm_compute; reflexivity|]. split; [exact H1|exact H2].
Defined.

Lemma sum_int_sign a b : is_int a -> is_int b ->
  negb (sign_bit (Z.lxor a b)) && sign_bit (Z.lxor a (to_int (a + b))) = negb (bool_decide (is_int (a + b))) /\
  negb (sign_bit (Z.lxor a b)) && sign_bit (Z.lxor b (to_int (a + b))) = negb (bool_decide (is_int (a + b))).
Proof.
  intros Ha Hb. rewrite !sign_bit_int, !lxor_neg by eauto using lxor_int, to_int_range.
  assert (bool_decide (is_int (a + b)) = true /\ to_int (a + b) = a + b \/
    bool_decide (is_int (a + b)) = false /\ (a + b < - 2 ^ 31 /\ to_int (a + b) = a + b + 2 ^ 32 \/
      2 ^ 31 <= a + b /\ to_int (a + b) = a + b - 2 ^ 32)) as Hc.
  { unfold is_int in *. case_bool_decide as E; [left; split; [done|by apply to_int_id]|]. right. split; [done|].
    unfold to_int. destruct (decide (a + b < - 2 ^ 31)); [left|right]; (split; [lia|]).
    - rewrite <- (Z.mod_unique_pos _ _ (-1) (a + b + 2 ^ 31 + 2 ^ 32)) by lia. lia.
    - rewrite <- (Z.mod_unique_pos _ _ 1 (a + b + 2 ^ 31 - 2 ^ 32)) by lia. lia. }
  unfold is_int in *. destruct Hc as [[-> ->]|[-> [[Hlt ->]|[Hge ->]]]]; cbn [negb];
    destruct (Z.ltb_spec a 0), (Z.ltb_spec b 0); cbn [xorb negb andb]; split; try done; try lia;
    match goal with |- context [?x <? 0] => destruct (Z.ltb_spec x 0); cbn [xorb negb]; (done || lia) end.
Qed.

Lemma diff_int_sign a b : is_int a -> is_int b ->
  sign_bit (Z.lxor a b) && sign_bit (Z.lxor a (to_int (a - b))) = negb (bool_decide (is_int (a - b))).
Proof.
  intros Ha Hb. rewrite !sign_bit_int, !lxor_neg by eauto using lxor_int, to_int_range.
  assert (bool_decide (is_int (a - b)) = true /\ to_int (a - b) = a - b \/
    bool_decide (is_int (a - b)) = false /\ (a - b < - 2 ^ 31 /\ to_int (a - b) = a - b + 2 ^ 32 \/
      2 ^ 31 <= a - b /\ to_int (a - b) = a - b - 2 ^ 32)) as Hc.
  { unfold is_int in *. case_bool_decide as E; [left; split; [done|by apply to_int_id]|]. right. split; [done|].
    unfold to_int. destruct (decide (a - b < - 2 ^ 31)); [left|right]; (split; [lia|]).
    - rewrite <- (Z.mod_unique_pos _ _ (-1) (a - b + 2 ^ 31 + 2 ^ 32)) by lia. lia.
    - rewrite <- (Z.mod_unique_pos _ _ 1 (a - b + 2 ^ 31 - 2 ^ 32)) by lia. lia. }
  unfold is_int in *. destruct Hc as [[-> ->]|[-> [[Hlt ->]|[Hge ->]]]]; cbn [negb];
    destruct (Z.ltb_spec a 0), (Z.ltb_spec b 0); cbn [xorb negb andb]; try done; try lia;
    match goal with |- context [?x <? 0] => destruct (Z.ltb_spec x 0); cbn [xorb negb]; (done || lia) end.
Qed.

(** ** Whole instructions *)
Section step.
Context {K : Type} `{InterruptState K} `{MachineState K} `{!MachineStateLaws K}.
Context (ExceptionHandler : ExceptionType -> K -> outcome K).
Implicit Types k : K.

(** The end of [OneInstruction]: the delayed load lands and the PC advances. *)
Lemma finish_ok pc lr lv k :
  user_ok (k_machine k) -> is_int pc -> 0 <= lr < NumGPRegs -> is_int lv ->
  exists m, DelayedLoad lr lv (k_machine k) = Ok m /\
    let m := set_reg PrevPCReg (reg m PCReg) m in
    let m := set_reg PCReg (reg m NextPCReg) m in
    let m := set_reg NextPCReg pc m in
    user_ok m /\ reg m 0 = 0 /\ reg m PCReg = R k NextPCReg /\ reg m PrevPCReg = R k PCReg /\ reg m NextPCReg = pc.
Proof.
  intros Huo Hpc Hlr Hlv. destruct (DelayedLoad_ok _ lr lv (uo_cpu _ Huo) Hlr Hlv) as (regs & HD & Hc & Hz0 & Hj).
  eexists. split; [exact HD|]. set (m1 := with_registers regs (k_machine k)) in *. cbn zeta.
  assert (cpu_ok (set_reg PrevPCReg (reg m1 PCReg) m1)) as Hc1 by (apply set_reg_ok; [done|done|by apply reg_int|done]).
  assert (cpu_ok (set_reg PCReg (reg (set_reg PrevPCReg (reg m1 PCReg) m1) NextPCReg) (set_reg PrevPCReg (reg m1 PCReg) m1)))
    as Hc2 by (apply set_reg_ok; [done|done|by apply reg_int|done]).
  pose proof (set_reg_ok _ NextPCReg pc Hc2 ltac:(done) Hpc ltac:(done)) as Hc3.
  split; [apply (user_ok_regs _ _ Huo Hc3)|].
  pose proof (cp_length _ Hc). pose proof (cp_length _ Hc1). pose proof (cp_length _ Hc2).
  rewrite !(reg_set_reg _ NextPCReg), !(reg_set_reg _ PCReg), !(reg_set_reg _ PrevPCReg) by done.
  split; [exact Hz0|]. split; [exact (Hj NextPCReg ltac:(done) ltac:(done) ltac:(done))|].
  split; [exact (Hj PCReg ltac:(done) ltac:(done) ltac:(done))|done].
Qed.

(** A user instruction under any kernel that keeps the contract: it ends in a
    well-formed machine with register 0 still 0, or the kernel's handler has
    failed, or it is DIV of the least integer by -1, the host's own trap. *)
Lemma OneInstruction_safe inv k :
  stable inv -> handler_contract ExceptionHandler inv -> wf inv k ->
  match OneInstruction ExceptionHandler k with
  | Ok k' => wf inv k' /\ reg (k_machine k') 0 = 0
  | Err err => kernel_failed ExceptionHandler inv err \/
      err = Undefined /\ exists k1 raw,
        ReadMem ExceptionHandler (R k PCReg) 4 k = Ok (k1, Some raw) /\ div_overflow (Decode (to_uint raw)) k1 = true
  end.
Proof.
  intros Hst Hht Hwf. unfold OneInstruction.
  pose proof (ReadMem_total ExceptionHandler inv Hst Hht (R k PCReg) 4 k Hwf ltac:(lia) (R_int _ _ (proj1 Hwf))) as HR.
  destruct (ReadMem ExceptionHandler (R k PCReg) 4 k) as [[k1 r]|]; cbn [mbind outcome_bind]; [|by left]. destruct HR as (Hwf1 & _ & Hr).
  destruct r as [raw|]; [|done].
  pose proof (exec_instr_good ExceptionHandler inv Hst Hht (Decode (to_uint raw)) (Decode_ok _)
    (to_int (R k1 NextPCReg + 4)) ltac:(apply to_int_range) k1 Hwf1) as HE.
  destruct (div_overflow (Decode (to_uint raw)) k1) eqn:Ed; [rewrite HE; cbn; eauto 8|].
  destruct (exec_instr _ _ _ k1) as [[k2 fin]|]; cbn [mbind outcome_bind]; [|by left]. destruct HE as (Hwf2 & Hfin).
  destruct fin as [[[pc lr] lv]|]; [|done].
  destruct Hfin as (Hpc & Hlr & Hlv). destruct (finish_ok pc lr lv k2 (proj1 Hwf2) Hpc Hlr Hlv) as (m & HD & Hu & H00 & _).
  pose proof (DelayedLoad_ok _ lr lv (uo_cpu _ (proj1 Hwf2)) Hlr Hlv) as (regs & HD' & _). rewrite HD in HD'. injection HD' as ->.
  rewrite HD. cbn [mbind outcome_bind]. split; [by apply wf_machine|by rewrite machine_set_machine].
Qed.

(** C34: ADD, ADDI and SUB detect overflow exactly: the sign tests raise
    [OverflowException] if and only if the mathematical result is not a 32-bit
    integer, and otherwise the destination receives the mathematical result. *)
Theorem overflow_exact i pc k :
  user_ok (k_machine k) -> is_int (extra i) ->
  let a := R k (rs i) in
  let b := R k (rt i) in
  let spec dest result :=
    if bool_decide (is_int result) then next pc (wr dest result k) else trap ExceptionHandler OverflowException 0 k in
  match opCode i with
  | OP_ADD => exec_instr ExceptionHandler i pc k = spec (rd i) (a + b)
  | OP_ADDI => exec_instr ExceptionHandler i pc k = spec (rt i) (a + extra i)
  | OP_SUB => exec_instr ExceptionHandler i pc k = spec (rd i) (a - b)
  | _ => True
  end.
Proof.
  intros Huo Hex a b. pose proof (R_int k (rs i) Huo) as Ha. pose proof (R_int k (rt i) Huo) as Hb.
  fold a in Ha. fold b in Hb. unfold exec_instr, exec_load, exec_mf_sw. fold a b.
  destruct (opCode i); try done.
  - rewrite (proj1 (sum_int_sign a b Ha Hb)). case_bool_decide as E; [|done]. by rewrite to_int_id.
  - rewrite (proj2 (sum_int_sign a (extra i) Ha Hex)). case_bool_decide as E; [|done]. by rewrite to_int_id.
  - rewrite (diff_int_sign a b Ha Hb). case_bool_decide as E; [|done]. by rewrite to_int_id.
Qed.

(** The right shifts of the simulator are all arithmetic.  SRL and SRLV go
    through an [int], so they give what SRA and SRAV give; the logical shift of
    the instruction set differs as soon as the operand is negative and the
    shift is not zero. *)
Theorem srl_is_arithmetic i pc k :
  user_ok (k_machine k) -> opCode i = OP_SRL -> 0 <= extra i < 32 ->
  exec_instr ExceptionHandler i pc k = exec_instr ExceptionHandler (mkInstr OP_SRA (rs i) (rt i) (rd i) (extra i)) pc k /\
  (Z.shiftr (R k (rt i)) (extra i) = to_int (Z.shiftr (to_uint (R k (rt i))) (extra i)) <-> 
   0 <= R k (rt i) \/ extra i = 0).
Proof.
  intros Huo Hop He. pose proof (R_int k (rt i) Huo) as Hb. split.
  { unfold exec_instr, exec_load, exec_mf_sw. rewrite Hop. done. }
  set (b := R k (rt i)) in *. rewrite to_uint_cases by done. destruct (Z.ltb_spec b 0) as [Hn|Hp].
  - destruct (decide (extra i = 0)) as [->|Hne].
    + rewrite !Z.shiftr_0_r. split; [auto|]. intros _. symmetry. rewrite <- (to_int_id b Hb) at 2.
      apply to_int_congr. replace (b + 2 ^ 32 - b) with (2 ^ 32) by lia. done.
    + split; [|lia]. intros E. exfalso. assert (Z.shiftr b (extra i) < 0) by (by apply Z.shiftr_neg).
      rewrite E in *. assert (0 <= Z.shiftr (b + 2 ^ 32) (extra i) < 2 ^ 31) as Hr.
      { rewrite Z.shiftr_div_pow2 by lia. unfold is_int in Hb. split; [apply Z.div_pos; lia|].
        apply Z.div_lt_upper_bound; [lia|]. assert (2 ^ 1 <= 2 ^ extra i) by (apply Z.pow_le_mono_r; lia). lia. }
      rewrite to_int_id in * by (unfold is_int; lia). lia.
  - split; [auto|]. intros _. symmetry. apply to_int_id, shiftr_int; [done|lia].
Qed.
End step.

(** ** A kernel that maps a faulting page to frame 0 *)
Module StepSim.
Definition map_page (m : Machine) : Machine :=
  let v := reg m BadVAddrReg in
  match pageTable m ≫= (fun a => tables m !! a) with
  | Some t => set_table (pageTable m) (<[Z.to_nat (vpn_of v) := mkTE (vpn_of v) 0 true false false false []]> t) m
  | None => m
  end.

Definition handler (e : ExceptionType) (k : MachSim.K) : outcome MachSim.K :=
  Ok (match e with PageFaultException => set_machine (map_page (k_machine k)) k | _ => k end).

Lemma map_page_space m t :
  space_wf m t ->
  let v := reg m BadVAddrReg in
  space_wf (map_page m) (<[Z.to_nat (vpn_of v) := mkTE (vpn_of v) 0 true false false false []]> t) /\
  registers (map_page m) = registers m /\ mainMemory (map_page m) = mainMemory m /\
  pageTableSize (map_page m) = pageTableSize m.
Proof.
  intros [Htlb (a & Hpt & Ha) Hsz Hent Hgl] v. unfold map_page. rewrite Hpt. cbn [mbind option_bind]. rewrite Ha. cbn [set_table].
  split; [|done]. split; cbn; [done| |by rewrite length_insert| |done].
  - exists a. split; [done|]. apply lookup_insert_eq.
  - apply Forall_insert; [done|]. unfold is_int. cbn. lia.
Qed.

(** The page of the program is not in memory yet. *)
Definition m1 : Machine :=
  with_space (Some 1%positive) 1 [] (with_tables {[ 1%positive := [mkTE 0 (-1) false false false false []] ]}
    (set_reg NextPCReg 4 newMachine)).
Definition k1 : MachSim.K := (m1, newInterrupt, newStatistics).

Lemma m1_ok : user_ok m1.
Proof.
  split; [split; [reflexivity| |vm_compute; split; congruence]| |].
  - repeat constructor; unfold is_int; lia.
  - split; [reflexivity|]. apply Forall_replicate. unfold is_byte. lia.
  - exists [mkTE 0 (-1) false false false false []]. split; [done|by exists 1%positive|cbn; lia| |done].
    repeat constructor; unfold is_int; cbn; lia.
Qed.
Lemma k1_wr v : is_int v -> user_ok (k_machine (wr 1 v k1)).
Proof.
  intros Hv. unfold wr. rewrite machine_set_machine. apply user_ok_regs; [exact m1_ok|].
  apply set_reg_ok; [apply m1_ok|vm_compute; split; congruence|done|discriminate].
Qed.
End StepSim.

Lemma overflow_exact_witness :
  let k := wr 1 (2 ^ 31 - 1) StepSim.k1 in
  exec_instr StepSim.handler (mkInstr OP_ADDI 1 2 0 1) 8 k = trap StepSim.handler OverflowException 0 k.
Proof.
  pose proof (overflow_exact (H := MachSim.msim_int) (H0 := MachSim.msim_machine) StepSim.handler
    (mkInstr OP_ADDI 1 2 0 1) 8 (wr 1 (2 ^ 31 - 1) StepSim.k1)) as HO.
  exact (HO (StepSim.k1_wr (2 ^ 31 - 1) ltac:(unfold is_int; lia))
    ltac:(unfold is_int; cbn; lia)).
Defined.

Lemma srl_is_arithmetic_witness :
  let k := wr 1 (-8) StepSim.k1 in
  exec_instr StepSim.handler (mkInstr OP_SRL 0 1 2 1) 8 k = next 8 (wr 2 (-4) k) /\ to_int (Z.shiftr (to_uint (-8)) 1) = 2147483644.
Proof.
  pose proof (srl_is_arithmetic (H := MachSim.msim_int) (H0 := MachSim.msim_machine) StepSim.handler
    (mkInstr OP_SRL 0 1 2 1) 8 (wr 1 (-8) StepSim.k1)) as HO.
  destruct (HO (StepSim.k1_wr (-8) ltac:(unfold is_int; lia))
    eq_refl ltac:(cbn; lia)) as [HE _].
  cbn zeta. rewrite HE. split; reflexivity.
Defined.
