(* ===== verification/Debugger.v ===== *)
(** * The debugger of the simulated machine (src/code/machine/machine.cc:
    [Debugger], [DumpState], [CheckEndian]; interrupt.cc: [DumpState];
    mipssim.cc: [Run])

    [Machine::Run] drops into [Debugger] after an instruction when single
    stepping is on and the clock has reached [runUntilTime].  The debugger reads
    commands from the standard input; the stream has the characters still to be
    read and the error bits of C++, since what a line does depends on them.
    The debugger refines an interpreter of lines; a run for which the commands
    ask for no stop is the run without a debugger; and an empty line, which the
    help text offers for a single step, puts the stream in a state from which
    nothing is ever read again. *)

From stdpp Require Import strings.
From S2P Require Import Prelude Text Lists Interrupt Machine Mips.
Open Scope Z_scope.

(** ** The standard input *)

(** What is left to read, and the bits [eofbit] and [failbit]. *)
Record istream := mkStream { rest : list Z; eofbit : bool; failbit : bool }.
Definition good (i : istream) : bool := negb (eofbit i) && negb (failbit i).

(** The characters before the first newline, at most [n] of them, and the rest. *)
Fixpoint until_newline (n : nat) (l : list Z) : list Z * list Z :=
  match n, l with
  | S n', c :: l' => if c =? newline then ([], l) else let '(a, b) := until_newline n' l' in (c :: a, b)
  | _, _ => ([], l)
  end.

(** [cin.get(buf, n)]: the characters stored in [buf] before its terminator.  The
    newline is not taken; to have read nothing is a failure. *)
Definition get_string (n : nat) (i : istream) : list Z * istream :=
  if good i then
    let '(a, b) := until_newline (n - 1) (rest i) in
    (a, mkStream b (bool_decide (b = [] /\ (length a < n - 1)%nat)) (bool_decide (a = [])))
  else ([], mkStream (rest i) (eofbit i) true).

(** [cin.get()]: one character, or EOF. *)
Definition get_char (i : istream) : Z * istream :=
  if good i then
    match rest i with
    | c :: l => (c, mkStream l false false)
    | [] => (-1, mkStream [] true true)
    end
  else (-1, mkStream (rest i) (eofbit i) true).

(** ** [sscanf(buf, "%d", &num)] *)
Definition is_space (c : Z) : bool := (c =? 32) || ((9 <=? c) && (c <=? 13)).
Definition is_digit (c : Z) : bool := (48 <=? c) && (c <=? 57).

Fixpoint skip_spaces (l : list Z) : list Z :=
  match l with c :: l' => if is_space c then skip_spaces l' else l | [] => [] end.
Fixpoint digits (acc : Z) (l : list Z) : Z :=
  match l with c :: l' => if is_digit c then digits (10 * acc + (c - 48)) l' else acc | [] => acc end.

(** The number that is read, if one is. *)
Definition unsigned_number (l : list Z) : option Z :=
  match l with c :: _ => if is_digit c then Some (digits 0 l) else None | [] => None end.
Definition scan_number (l : list Z) : option Z :=
  match skip_spaces l with
  | 45 :: l' => Z.opp <$> unsigned_number l'
  | 43 :: l' => unsigned_number l'
  | l' => unsigned_number l'
  end.

(** ** Dumping the state *)
Definition intLevelName (l : IntStatus) : string := match l with IntOff => "off" | IntOn => "on" end.
Definition intTypeName (t : IntType) : string :=
  match t with
  | TimerInt => "timer" | DiskInt => "disk" | ConsoleWriteInt => "console write"
  | ConsoleReadInt => "console read" | NetworkSendInt => "network send" | NetworkRecvInt => "network recv"
  end.

Definition PrintPending (p : PendingInterrupt) : list Z :=
  text "Interrupt handler " ++ text (intTypeName (type p)) ++ text ", scheduled at " ++ number (when p).

(** [Interrupt::DumpState] *)
Definition InterruptDumpState (i : Interrupt) (s : Statistics) : list Z :=
  text "Time: " ++ number (totalTicks s) ++ text ", interrupts " ++ text (intLevelName (level i)) ++ [newline] ++
  text "Pending interrupts:" ++ [newline] ++ concat (map PrintPending (pending i)) ++
  [newline] ++ text "End of pending interrupts" ++ [newline].

(** One register of [Machine::DumpState], and the whole routine. *)
Definition dump_register (m : Machine) (i : Z) : outcome (list Z) :=
  v ← arr_get (registers m) i;
  let name := if i =? StackReg then text "SP(" ++ number i ++ text "):"
    else if i =? RetAddrReg then text "RA(" ++ number i ++ text "):" else number i ++ text ":" in
  Ok ([tab] ++ name ++ [tab] ++ number v ++ (if i mod 4 =? 3 then [newline] else [])).
Definition dump_named (m : Machine) (name : string) (i : Z) : outcome (list Z) :=
  v ← arr_get (registers m) i; Ok ([tab] ++ text name ++ [tab] ++ number v).
Definition DumpState (m : Machine) : outcome (list Z) :=
  gp ← for_range 0 NumGPRegs (fun i out => l ← dump_register m i; Ok (out ++ l)) (text "Machine registers:" ++ [newline]);
  hi ← dump_named m "Hi:" HiReg;
  lo ← dump_named m "Lo:" LoReg;
  pc ← dump_named m "PC:" PCReg;
  npc ← dump_named m "NextPC:" NextPCReg;
  ppc ← dump_named m "PrevPC:" PrevPCReg;
  ld ← dump_named m "Load:" LoadReg;
  ldv ← dump_named m "LoadV:" LoadValueReg;
  Ok (gp ++ hi ++ lo ++ pc ++ npc ++ ppc ++ ld ++ ldv ++ [newline]).

(** [CheckEndian]: the word whose bytes are 1, 2, 3, 4 on this host. *)
Definition CheckEndian : outcome unit := ASSERT (le_value [1; 2; 3; 4] =? 0x04030201).

(** ** [Machine::Debugger] *)

(** The fields [singleStep] and [runUntilTime] of the machine and the two
    streams of the process. *)
Record Debug := mkDebug { singleStep : bool; runUntilTime : Z; cin : istream; cout : list Z }.

(** [Machine::Machine(debug)]; [junk] is what [runUntilTime] holds, which the
    constructor does not set. *)
Definition newDebug (debug : bool) (junk : Z) (i : istream) : Debug := mkDebug debug junk i [].

Definition print (l : list Z) (d : Debug) : Debug := mkDebug (singleStep d) (runUntilTime d) (cin d) (cout d ++ l).

Definition help : list Z :=
  text "Machine commands:" ++ [newline] ++ text "    <return>  execute one instruction" ++ [newline] ++
  text "    <number>  run until the given timer tick" ++ [newline] ++
  text "    c         run until completion" ++ [newline] ++ text "    ?         print help message" ++ [newline].

(** What one command does to [singleStep], [runUntilTime], [done] and the
    output. *)
Definition command (buf : list Z) (d : Debug) : outcome (Debug * bool) :=
  match scan_number buf with
  | Some num =>
      if ((- 2 ^ 31 <=? num) && (num <? 2 ^ 31)) then Ok (mkDebug (singleStep d) num (cin d) (cout d), true) else Err Undefined
  | None =>
      let d := mkDebug (singleStep d) 0 (cin d) (cout d) in
      match buf with
      | [] => Ok (d, true)
      | 99 :: _ => Ok (mkDebug false 0 (cin d) (cout d), true)
      | 63 :: _ => Ok (print help d, false)
      | _ => Ok (print (text "Unknown command: " ++ buf ++ [newline] ++ text "Type ? for help." ++ [newline]) d, false)
      end
  end.

(** One round of the loop. *)
Definition debug_round (ticks : Z) (d : Debug) : outcome (Debug * bool) :=
  let d := print (number ticks ++ text ">") d in
  let '(buf, i) := get_string 80 (cin d) in
  '(d, done) ← command (c_string buf) (mkDebug (singleStep d) (runUntilTime d) i (cout d));
  let '(_, i) := get_char (cin d) in
  Ok (mkDebug (singleStep d) (runUntilTime d) i (cout d), done).

Fixpoint debug_loop (fuel : nat) (ticks : Z) (d : Debug) : outcome Debug :=
  match fuel with
  | O => Err OutOfFuel
  | S fuel' => '(d, done) ← debug_round ticks d; if (done : bool) then Ok d else debug_loop fuel' ticks d
  end.

Section kernel.
Context {K : Type} `{InterruptState K} `{MachineState K}.
Context (ExceptionHandler : ExceptionType -> K -> outcome K) (OneTick : K -> outcome K).

(** A round that is not the last one takes a character. *)
Definition Debugger (k : K) (d : Debug) : outcome Debug :=
  s ← DumpState (k_machine k);
  debug_loop (S (length (rest (cin d)))) (totalTicks (k_stats k))
    (print (InterruptDumpState (k_int k) (k_stats k) ++ s) d).

(** [n] rounds of the loop of [Machine::Run]. *)
Fixpoint debug_steps (n : nat) (k : K) (d : Debug) : outcome (K * Debug) :=
  match n with
  | O => Ok (k, d)
  | S n' =>
      k ← OneInstruction ExceptionHandler k;
      k ← OneTick k;
      d ← (if singleStep d && (runUntilTime d <=? totalTicks (k_stats k)) then Debugger k d else Ok d);
      debug_steps n' k d
  end.
Definition RunDebug (n : nat) (k : K) (d : Debug) : outcome (K * Debug) := debug_steps n (setStatus UserMode k) d.
End kernel.

(** ** The input stream *)
Lemma until_newline_app n l : let '(a, b) := until_newline n l in l = a ++ b.
Proof.
  revert l. induction n as [|n IH]; intros [|c l]; cbn; try done.
  destruct (c =? newline); [done|]. specialize (IH l). destruct (until_newline n l) as [a b]. by rewrite IH.
Qed.

Lemma until_newline_line n l r :
  Forall (fun c => c <> newline) l -> (length l <= n)%nat -> until_newline n (l ++ newline :: r) = (l, newline :: r).
Proof.
  revert n. induction l as [|c l IH]; intros n Hl Hn; cbn [app length] in *.
  - by destruct n.
  - destruct n as [|n]; [lia|]. inversion Hl as [|? ? Hc Hl']; subst. cbn [until_newline].
    destruct (Z.eqb_spec c newline); [done|]. rewrite IH by (done || lia). done.
Qed.

Lemma get_string_bad n i : good i = false -> get_string n i = ([], mkStream (rest i) (eofbit i) true).
Proof. unfold get_string. by intros ->. Qed.

Lemma get_string_rest n i : rest i = (get_string n i).1 ++ rest (get_string n i).2.
Proof.
  unfold get_string. destruct (good i); [|done].
  pose proof (until_newline_app (n - 1) (rest i)) as Ha. destruct (until_newline (n - 1) (rest i)) as [a b]. exact Ha.
Qed.

Lemma get_char_rest i : (length (rest (get_char i).2) <= length (rest i))%nat.
Proof. unfold get_char. destruct (good i); [|done]. destruct (rest i); cbn; lia. Qed.

(** ** Termination *)
Lemma command_cin buf d d' b : command buf d = Ok (d', b) -> cin d' = cin d.
Proof.
  unfold command, print. intros HC. repeat case_match; inv_ok; done.
Qed.

Lemma command_more buf d d' : command buf d = Ok (d', false) -> buf <> [].
Proof. intros HC ->. cbv in HC. discriminate. Qed.

Lemma debug_round_takes ticks d d' :
  debug_round ticks d = Ok (d', false) -> (length (rest (cin d')) < length (rest (cin d)))%nat.
Proof.
  unfold debug_round. cbn [print cin singleStep runUntilTime cout]. intros HR.
  pose proof (get_string_rest 80 (cin d)) as Hg. destruct (get_string 80 (cin d)) as [a i]. cbn [fst snd] in Hg.
  destruct (command _ _) as [[d1 b]|] eqn:HC; cbn [mbind outcome_bind] in HR; [|discriminate].
  pose proof (get_char_rest (cin d1)) as Hc. destruct (get_char (cin d1)) as [c j]. cbn [snd] in Hc.
  injection HR as <- ->. pose proof (command_more _ _ _ HC) as Ha. apply command_cin in HC. cbn [cin] in *.
  rewrite HC in Hc. destruct a as [|x a]; [done|]. rewrite Hg, length_app. cbn [length]. lia.
Qed.

Lemma debug_loop_ends fuel ticks d :
  (length (rest (cin d)) < fuel)%nat -> debug_loop fuel ticks d <> Err OutOfFuel.
Proof.
  revert d. induction fuel as [|fuel IH]; intros d Hf; [lia|]. cbn [debug_loop].
  destruct (debug_round ticks d) as [[d' b]|e] eqn:HR; cbn [mbind outcome_bind].
  - destruct b; [done|]. apply IH. pose proof (debug_round_takes _ _ _ HR). lia.
  - intros [= ->]. unfold debug_round in HR. cbn [print cin singleStep runUntilTime cout] in HR.
    destruct (get_string 80 (cin d)) as [a i].
    destruct (command _ _) as [[d1 b]|e] eqn:HC; cbn [mbind outcome_bind] in HR; [by destruct (get_char _)|].
    injection HR as ->. unfold command in HC. repeat case_match; discriminate.
Qed.

(** ** The interpreter of lines *)

(** Lines that are neither a number nor begin with c are answered and passed
    over; the result is the new [singleStep] and [runUntilTime] and the lines
    left, or [None] when the input came to its end. *)
Fixpoint interpret (ss : bool) (lines : list (list Z)) : bool * Z * option (list (list Z)) :=
  match lines with
  | [] => (ss, 0, None)
  | l :: ls =>
      match scan_number l with
      | Some n => (ss, n, Some ls)
      | None => match l with 99 :: _ => (false, 0, Some ls) | _ => interpret ss ls end
      end
  end.

(** A line that the debugger can take: not empty, within the buffer, of
    characters of a text, and its number, if it is one, an [int]. *)
Record line_ok (l : list Z) : Prop := {
  lo_some : l <> [];
  lo_short : (length l <= 79)%nat;
  lo_line : Forall (fun c => c <> newline) l;
  lo_text : Forall (fun c => c <> 0) l;
  lo_int : forall n, scan_number l = Some n -> is_int n;
}.
Definition typed (lines : list (list Z)) : list Z := concat (map (fun l => l ++ [newline]) lines).
Definition stream_of (lines : option (list (list Z))) : istream :=
  match lines with Some ls => mkStream (typed ls) false false | None => mkStream [] true true end.

(** [c_string] leaves a line; the newline after it is taken by [get]. *)
Lemma debug_round_line ticks l ls ss ru out :
  line_ok l ->
  debug_round ticks (mkDebug ss ru (mkStream (typed (l :: ls)) false false) out)
  = '(d, b) ← command l (mkDebug ss ru (mkStream (newline :: typed ls) false false) (out ++ number ticks ++ text ">"));
    Ok (mkDebug (singleStep d) (runUntilTime d) (mkStream (typed ls) false false) (cout d), b).
Proof.
  intros [Hs Hl Hn Ht _]. unfold debug_round. cbn [print cin singleStep runUntilTime cout].
  unfold get_string, good. cbn [eofbit failbit rest negb andb typed map concat].
  rewrite <- app_assoc. cbn [app]. change (concat (map (fun l => l ++ [newline]) ls)) with (typed ls).
  rewrite until_newline_line by (done || lia). rewrite bool_decide_false by (intros [? ?]; done).
  rewrite bool_decide_false by done. rewrite c_string_id by done.
  destruct (command l _) as [[d b]|] eqn:HC; cbn [mbind outcome_bind]; [|done].
  apply command_cin in HC. rewrite HC. cbn [cin]. done.
Qed.

Lemma debug_loop_interpret ticks lines ss ru out fuel :
  Forall line_ok lines -> (length lines < fuel)%nat ->
  exists out', debug_loop fuel ticks (mkDebug ss ru (mkStream (typed lines) false false) out)
    = Ok (mkDebug (interpret ss lines).1.1 (interpret ss lines).1.2 (stream_of (interpret ss lines).2) out').
Proof.
  intros HL. revert ru out fuel. induction HL as [|l ls Hl HL IH]; intros ru out fuel Hf; (destruct fuel as [|fuel]; [cbn in Hf; lia|]).
  - by eexists.
  - cbn [debug_loop]. rewrite debug_round_line by done. unfold command. cbn [interpret].
    destruct (scan_number l) as [n|] eqn:Hn.
    + pose proof (lo_int _ Hl n Hn) as Hi. unfold is_int in Hi. rewrite (proj2 (andb_true_iff _ _)) by (split; [apply Z.leb_le|apply Z.ltb_lt]; lia).
      cbn. by eexists.
    + destruct l as [|c l]; [by destruct (lo_some _ Hl)|]. cbn [length] in Hf.
      destruct (decide (c = 99)) as [->|Hc]; [cbn; by eexists|].
      destruct (IH 0 (out ++ number ticks ++ text ">" ++ (if decide (c = 63) then help else
        text "Unknown command: " ++ (c :: l) ++ [newline] ++ text "Type ? for help." ++ [newline])) fuel ltac:(lia)) as [out' E].
      exists out'. revert E. repeat case_match; simplify_eq; cbn [mbind outcome_bind print singleStep runUntilTime cin cout];
        rewrite <- ?app_assoc; done.
Qed.

Lemma arr_get_total {A} (l : list A) i : 0 <= i < Z.of_nat (length l) -> exists x, arr_get l i = Ok x.
Proof. intros Hi. destruct (arr_get_lt l i Hi) as (x & Hx). exists x. apply Hx. Qed.

Lemma DumpState_ok m : length (registers m) = Z.to_nat NumTotalRegs -> exists out, DumpState m = Ok out.
Proof.
  intros Hl. unfold DumpState, dump_named.
  assert (forall i, 0 <= i < NumTotalRegs -> exists v, arr_get (registers m) i = Ok v) as Hg.
  { intros i Hi. apply arr_get_total. rewrite Hl. unfold NumTotalRegs in *. lia. }
  edestruct (for_range_ind (fun _ (_ : list Z) => True)) as (gp & -> & _); [| | |].
  - done.
  - done.
  - intros i out Hi _. unfold dump_register. destruct (Hg i) as [v ->]; [unfold NumGPRegs, NumTotalRegs in *; lia|].
    cbn [mbind outcome_bind]. eexists. split; [reflexivity|done].
  - cbn [mbind outcome_bind].
    destruct (Hg HiReg) as [v1 ->]; [done|]. destruct (Hg LoReg) as [v2 ->]; [done|]. destruct (Hg PCReg) as [v3 ->]; [done|].
    destruct (Hg NextPCReg) as [v4 ->]; [done|]. destruct (Hg PrevPCReg) as [v5 ->]; [done|].
    destruct (Hg LoadReg) as [v6 ->]; [done|]. destruct (Hg LoadValueReg) as [v7 ->]; [done|].
    cbn [mbind outcome_bind]. eexists. reflexivity.
Qed.

Section theorems.
Context {K : Type} `{InterruptState K} `{MachineState K}.
Context (ExceptionHandler : ExceptionType -> K -> outcome K) (OneTick : K -> outcome K).

(** The loop of the debugger ends on every input: the only way in which it
    does not return is a number that is not an [int]. *)
Lemma debugger_ends k d : Debugger k d <> Err OutOfFuel.
Proof.
  unfold Debugger. destruct (DumpState (k_machine k)) as [s|e] eqn:HD; cbn [mbind outcome_bind].
  - apply debug_loop_ends. cbn [print cin]. lia.
  - intros [= ->]. unfold DumpState, dump_named in HD.
    assert (forall i, arr_get (registers (k_machine k)) i <> Err OutOfFuel) as Hg.
    { intros i. unfold arr_get. repeat case_match; done. }
    assert (forall i, dump_register (k_machine k) i <> Err OutOfFuel) as Hd.
    { intros i. unfold dump_register. pose proof (Hg i). destruct (arr_get _ i); cbn [mbind outcome_bind]; congruence. }
    destruct (for_range 0 NumGPRegs _ _) as [gp|e] eqn:HF; cbn [mbind outcome_bind] in HD.
    + repeat match type of HD with context [arr_get ?l ?i] =>
        pose proof (Hg i); destruct (arr_get l i); cbn [mbind outcome_bind] in HD; [|congruence] end.
      discriminate.
    + injection HD as ->. revert HF. unfold for_range. generalize (text "Machine registers:" ++ [newline]) as out.
      generalize 0 at 2 as i. induction (Z.to_nat (NumGPRegs - 0)) as [|n IH]; intros i out; cbn [for_from]; [done|].
      pose proof (Hd i). destruct (dump_register _ i); cbn [mbind outcome_bind]; [apply IH|congruence].
Qed.

(** C19: the debugger refines an interpreter of lines.  On an input of lines that
    fit its buffer it returns for every sequence of commands, with the
    [singleStep] and [runUntilTime] of the first command that is a number or
    begins with c, the commands after it left to be read; unknown commands and
    the request for help are passed over, and the end of the input ends it. *)
Theorem debugger_refines_interpreter k d lines :
  length (registers (k_machine k)) = Z.to_nat NumTotalRegs -> Forall line_ok lines -> cin d = mkStream (typed lines) false false ->
  exists out, Debugger k d
    = Ok (mkDebug (interpret (singleStep d) lines).1.1 (interpret (singleStep d) lines).1.2
            (stream_of (interpret (singleStep d) lines).2) out).
Proof.
  intros HR HL HI. unfold Debugger. destruct (DumpState_ok _ HR) as [s ->]. cbn [mbind outcome_bind].
  destruct d as [ss ru i out]. cbn [cin] in HI. subst i. cbn [print cin singleStep rest runUntilTime cout].
  apply debug_loop_interpret; [done|]. unfold typed. clear -HL.
  induction HL as [|l ls Hl HL IH]; [cbn; lia|]. cbn [map concat]. rewrite !length_app. cbn [length]. lia.
Qed.

(** As long as the commands ask for no stop, the debugger does not show: once
    single stepping is off, or up to the round in which the clock reaches
    [runUntilTime], [Machine::Run] does what it does without a debugger, reads
    nothing and prints nothing. *)
Theorem run_without_stops n k d :
  (singleStep d = false \/
   forall j k', (1 <= j <= n)%nat -> Run_steps ExceptionHandler OneTick j k = Ok k' -> totalTicks (k_stats k') < runUntilTime d) ->
  debug_steps ExceptionHandler OneTick n k d
  = (k' ← Run_steps ExceptionHandler OneTick n k; Ok (k', d)).
Proof.
  revert k. induction n as [|n IH]; intros k Hstop; [done|]. cbn [debug_steps Run_steps].
  destruct (OneInstruction ExceptionHandler k) as [k1|] eqn:E1; cbn [mbind outcome_bind]; [|done].
  destruct (OneTick k1) as [k2|] eqn:E2; cbn [mbind outcome_bind]; [|done].
  assert (singleStep d && (runUntilTime d <=? totalTicks (k_stats k2)) = false) as ->.
  { destruct Hstop as [->|Hs]; [done|]. apply andb_false_iff. right. apply Z.leb_gt. apply (Hs 1%nat k2); [lia|].
    cbn [Run_steps]. rewrite E1. cbn [mbind outcome_bind]. rewrite E2. done. }
  cbn [mbind outcome_bind]. apply IH. destruct Hstop as [Hs|Hs]; [by left|right]. intros j k' Hj Hk'.
  apply (Hs (S j)); [lia|]. cbn [Run_steps]. rewrite E1. cbn [mbind outcome_bind]. rewrite E2. done.
Qed.

(** What one entry into the debugger shows when the loop ends at its first
    prompt, and what [n] rounds of [Machine::Run] show that enter it after
    every instruction. *)
Definition screen (k : K) : list Z :=
  InterruptDumpState (k_int k) (k_stats k) ++ match DumpState (k_machine k) with Ok s => s | Err _ => [] end ++
  number (totalTicks (k_stats k)) ++ text ">".
Fixpoint screens (n : nat) (k : K) : list Z :=
  match n with
  | O => []
  | S n' => match (k ← OneInstruction ExceptionHandler k; OneTick k) with Ok k => screen k ++ screens n' k | Err _ => [] end
  end.

(** On a failed stream, or at an empty line, the debugger prints one prompt and
    returns; the stream has failed then. *)
Lemma debugger_returns_at_once k d :
  length (registers (k_machine k)) = Z.to_nat NumTotalRegs ->
  failbit (cin d) = true \/ (exists more, cin d = mkStream (newline :: more) false false) ->
  Debugger k d = Ok (mkDebug (singleStep d) 0 (mkStream (rest (cin d)) (eofbit (cin d)) true) (cout d ++ screen k)).
Proof.
  intros HR Hf. unfold Debugger, screen. destruct (DumpState_ok _ HR) as [s ->]. cbn [mbind outcome_bind debug_loop].
  destruct d as [ss ru [r e f] out]. cbn [cin failbit] in Hf. unfold debug_round. cbn [print cin singleStep runUntilTime cout].
  assert (get_string 80 (mkStream r e f) = ([], mkStream r e true)) as ->.
  { destruct Hf as [->|[more [= -> -> ->]]]; [|reflexivity]. rewrite get_string_bad by (unfold good; cbn; by destruct e). done. }
  cbn [c_string command scan_number skip_spaces unsigned_number].
  cbn [mbind outcome_bind cin singleStep runUntilTime cout rest eofbit].
  unfold get_char, good. cbn [eofbit failbit negb]. rewrite andb_false_r. cbn [mbind outcome_bind rest eofbit]. by rewrite <- !app_assoc.
Qed.

(** C20: an empty line makes the debugger deaf.  The line executes one instruction,
    as the help text says: [runUntilTime] is 0 and single stepping stays on.  But
    the stream has failed and nothing clears it.  From then on [Machine::Run]
    does the instructions it would do without a debugger, and fails where it
    would fail; after every one of them the debugger is entered, prints its
    state and one prompt and returns, and whatever is typed is never read: the
    input is the same after any number of instructions, and single stepping
    cannot be left any more. *)
Theorem empty_line_deafens n k d more :
  length (registers (k_machine k)) = Z.to_nat NumTotalRegs -> cin d = mkStream (newline :: more) false false -> singleStep d = true ->
  exists d1, Debugger k d = Ok d1 /\ d1 = mkDebug true 0 (mkStream (newline :: more) false true) (cout d ++ screen k) /\
    forall k1,
      (forall j k', (j <= n)%nat -> Run_steps ExceptionHandler OneTick j k1 = Ok k' ->
         length (registers (k_machine k')) = Z.to_nat NumTotalRegs /\ 0 <= totalTicks (k_stats k')) ->
      debug_steps ExceptionHandler OneTick n k1 d1 =
        (k2 ← Run_steps ExceptionHandler OneTick n k1;
         Ok (k2, mkDebug true 0 (mkStream (newline :: more) false true) (cout d1 ++ screens n k1))).
Proof.
  intros HR HI Hs. eexists. split; [rewrite debugger_returns_at_once by eauto; by rewrite HI, Hs|]. split; [done|]. cbn [cout].
  generalize (cout d ++ screen k) as out. clear d HI Hs. induction n as [|n IH]; intros out k1 Ho; cbn [debug_steps Run_steps screens mbind outcome_bind].
  { by rewrite app_nil_r. }
  destruct (OneInstruction ExceptionHandler k1) as [ka|] eqn:E1; cbn [mbind outcome_bind]; [|done].
  destruct (OneTick ka) as [kb|] eqn:E2; cbn [mbind outcome_bind]; [|done].
  assert (forall j, Run_steps ExceptionHandler OneTick (S j) k1 = Run_steps ExceptionHandler OneTick j kb) as Hj.
  { intros j. cbn [Run_steps]. rewrite E1. cbn [mbind outcome_bind]. by rewrite E2. }
  destruct (Ho 1%nat kb) as [Hl Ht]; [lia|by rewrite Hj|]. cbn [singleStep runUntilTime andb]. rewrite (proj2 (Z.leb_le _ _) Ht).
  rewrite debugger_returns_at_once by (try done; by left). cbn [mbind outcome_bind singleStep cin rest eofbit cout].
  rewrite IH; [by rewrite <- app_assoc|]. intros j k' Hle Hk'. apply (Ho (S j)); [lia|]. by rewrite Hj.
Qed.
End theorems.

(** ** Examples *)
Module DebugSim.
Definition tick (k : MachSim.K) : outcome MachSim.K :=
  OneTick (fun _ k => Ok k) (fun k => Ok k) (fun k => Ok k) k.
Definition k1 : MachSim.K := setStatus UserMode (set_int (with_level IntOn newInterrupt) StepSim.k1).

#[local] Instance is_int_dec n : Decision (is_int n).
Proof. unfold is_int. apply _. Defined.

(** [?], then [5], then a command that stays in the input. *)
Definition lines : list (list Z) := [text "?"; text "what"; text " 5"; text "c"].
Lemma lines_ok : Forall line_ok lines.
Proof.
  assert (forall l, (match scan_number l with Some n => bool_decide (is_int n) | None => true end) = true ->
    bool_decide (l <> [] /\ (length l <= 79)%nat /\ Forall (fun c => c <> newline) l /\ Forall (fun c => c <> 0) l) = true -> line_ok l) as Hd.
  { intros l H1 H2. apply bool_decide_eq_true in H2 as (? & ? & ? & ?). split; try done.
    intros n Hn. rewrite Hn in H1. by apply bool_decide_eq_true in H1. }
  unfold lines. repeat (apply Forall_cons; split; [apply Hd; vm_compute; reflexivity|]). constructor.
Qed.

(** Characters after the 79th of a line: the 80th is lost, and the rest is the
    next command. *)
Definition long_line : list Z := replicate 79 120 ++ text "ycontinue" ++ [newline].
Lemma long_line_is_split :
  (d ← debug_loop 3 0 (mkDebug true 0 (mkStream long_line false false) []); Ok (singleStep d, cin d))
  = Ok (false, mkStream [] false false).
Proof. vm_compute. reflexivity. Qed.
End DebugSim.

Lemma debugger_refines_interpreter_witness :
  exists out, Debugger DebugSim.k1 (mkDebug true 0 (mkStream (typed DebugSim.lines) false false) [])
    = Ok (mkDebug true 5 (mkStream (typed [text "c"]) false false) out).
Proof.
  destruct (debugger_refines_interpreter (H := MachSim.msim_int) (H0 := MachSim.msim_machine) DebugSim.k1 (mkDebug true 0 (mkStream (typed DebugSim.lines) false false) [])
    DebugSim.lines eq_refl DebugSim.lines_ok eq_refl) as [out E].
  exists out. exact E.
Defined.

Lemma run_without_stops_witness :
  exists k', Run_steps StepSim.handler DebugSim.tick 2 DebugSim.k1 = Ok k' /\
    debug_steps StepSim.handler DebugSim.tick 2 DebugSim.k1 (mkDebug true 5 (mkStream [] false false) [])
    = Ok (k', mkDebug true 5 (mkStream [] false false) []).
Proof.
  pose proof (run_without_stops (H := MachSim.msim_int) (H0 := MachSim.msim_machine) StepSim.handler DebugSim.tick 2 DebugSim.k1 (mkDebug true 5 (mkStream [] false false) [])) as HR.
  assert (match Run_steps StepSim.handler DebugSim.tick 2 DebugSim.k1 with Ok _ => True | Err _ => False end) as H2 by (vm_compute; exact I).
  assert (match Run_steps StepSim.handler DebugSim.tick 1 DebugSim.k1 with Ok k' => totalTicks (k_stats k') = 1 | Err _ => False end) as H1t
    by (vm_compute; reflexivity).
  assert (match Run_steps StepSim.handler DebugSim.tick 2 DebugSim.k1 with Ok k' => totalTicks (k_stats k') = 2 | Err _ => False end) as H2t
    by (vm_compute; reflexivity).
  rewrite HR.
  - destruct (Run_steps StepSim.handler DebugSim.tick 2 DebugSim.k1) as [k'|]; [|destruct H2].
    exists k'. split; reflexivity.
  - right. intros j k' Hj Hk. assert (j = 1 \/ j = 2)%nat as [-> | ->] by lia.
    + rewrite Hk in H1t. rewrite H1t. reflexivity.
    + rewrite Hk in H2t. rewrite H2t. reflexivity.
Defined.

Lemma empty_line_deafens_witness :
  exists d1 k2, Debugger DebugSim.k1 (mkDebug true 0 (mkStream (newline :: text "c") false false) []) = Ok d1 /\
    Run_steps StepSim.handler DebugSim.tick 2 DebugSim.k1 = Ok k2 /\
    debug_steps StepSim.handler DebugSim.tick 2 DebugSim.k1 d1 =
      Ok (k2, mkDebug true 0 (mkStream (newline :: text "c") false true) (cout d1 ++ screens StepSim.handler DebugSim.tick 2 DebugSim.k1)).
Proof.
  destruct (empty_line_deafens (H := MachSim.msim_int) (H0 := MachSim.msim_machine) StepSim.handler DebugSim.tick 2 DebugSim.k1
    (mkDebug true 0 (mkStream (newline :: text "c") false false) []) (text "c") eq_refl eq_refl eq_refl) as (d1 & E & _ & HD).
  assert (match Run_steps StepSim.handler DebugSim.tick 2 DebugSim.k1 with Ok _ => True | Err _ => False end) as H2 by (vm_compute; exact I).
  specialize (HD DebugSim.k1). destruct (Run_steps StepSim.handler DebugSim.tick 2 DebugSim.k1) as [k2|]; [|destruct H2].
  exists d1, k2. split; [exact E|]. split; [reflexivity|]. apply HD.
  intros j k' Hj Hk. assert (match Run_steps StepSim.handler DebugSim.tick j DebugSim.k1 with
    | Ok k => length (registers (k_machine k)) = 40%nat /\ (0 <=? totalTicks (k_stats k)) = true | Err _ => True end) as HL.
  { assert (j = 0 \/ j = 1 \/ j = 2)%nat as [-> | [-> | ->]] by lia; vm_compute; split; reflexivity. }
  rewrite Hk in HL. destruct HL as [HL1 HL2%Z.leb_le]. by split.
Defined.
