(* ===== verification/AddrSpace.v ===== *)
(** * Address spaces (src/code/userprog/addrspace.h, addrspace.cc, noff.h; the
    stub file system of src/code/filesys/filesys.h and openfile.h)

    An address space owns a page table, which the machine and the table of
    frames also point to.  The build uses the stub file system: a Nachos file
    is a UNIX file, here a name with its bytes.  What the program prints on the
    way is not modelled. *)

From S2P Require Import Prelude Lists Interrupt Machine.

(** ** UNIX files behind [OpenFile] *)
Abbreviation files := (gmap (list Z) (list Z)).

(** [OpenFile::ReadAt]: [Lseek] aborts on a negative offset, [read] gives what
    there is. *)
Definition ReadAt (file : list Z) (numBytes position : Z) : outcome (list Z) :=
  _ ← ASSERT (0 <=? position);
  Ok (take (Z.to_nat numBytes) (drop (Z.to_nat position) file)).

(** [OpenFile::WriteAt]: writing past the end extends the file with zeros. *)
Definition WriteAt (file from : list Z) (position : Z) : outcome (list Z) :=
  _ ← ASSERT (0 <=? position);
  let pos := Z.to_nat position in
  let file := file ++ replicate (pos + length from - length file) 0 in
  Ok (splice file pos from).

(** ** Object files *)
Definition NOFFMAGIC : Z := 0xbadfad.
Definition UserStackSize : Z := 1024.

Record Segment := mkSegment {
  virtualAddr : Z;
  inFileAddr : Z;
  size : Z;
}.

Record NoffHeader := mkNoff {
  noffMagic : Z;
  code : Segment;
  initData : Segment;
  readonlyData : Segment;
  uninitData : Segment;
}.

(** The header read as [sizeof(noffH)] bytes over the local variable. *)
Definition sizeof_NoffHeader : Z := 52.
Definition word_at (bs : list Z) (i : nat) : Z := to_int (le_value (take 4 (drop (4 * i) bs))).
Definition segment_at (bs : list Z) (i : nat) : Segment :=
  mkSegment (word_at bs i) (word_at bs (i + 1)) (word_at bs (i + 2)).
Definition noff_of (bs : list Z) : NoffHeader :=
  mkNoff (word_at bs 0) (segment_at bs 1) (segment_at bs 4) (segment_at bs 7) (segment_at bs 10).

(** [SwapHeader] *)
Definition SwapHeader (h : NoffHeader) : NoffHeader :=
  let w x := to_int (WordToHost (to_uint x)) in
  let seg s := mkSegment (w (virtualAddr s)) (w (inFileAddr s)) (w (size s)) in
  mkNoff (w (noffMagic h)) (seg (code h)) (seg (initData h)) (seg (readonlyData h)) (seg (uninitData h)).

(** ** The address space *)
Record AddrSpace := mkAddrSpace {
  FileAddr : list Z;
  pageTable : option positive;
  numPages : Z;
  s_reg : list Z;
}.

(** [AddrSpace::AddrSpace]: the members keep whatever the memory held. *)
Definition newAddrSpace (memory : AddrSpace) (regs : list Z) : AddrSpace :=
  mkAddrSpace (FileAddr memory) (pageTable memory) (numPages memory) (take (Z.to_nat NumTotalRegs) regs).

(** Before [Load] fills it, every field of the new table is unset. *)
Definition unset_entry : TranslationEntry := mkTE 0 (-1) false false false false [].

(** The loop of [AddrSpace::Load] that builds the page table at address [a]. *)
Definition build_table (fileName : list Z) (a : positive) (m : Machine) : outcome (Machine * list TranslationEntry) :=
  for_range 0 NumPhysPages (fun i '(m, t) =>
    '(m, frame) ← findFreeFrame m i (Some a);
    t ← arr_set t i (mkTE i frame true false false false fileName);
    Ok (m, t)) (m, replicate (Z.to_nat NumPhysPages) unset_entry).

(** One of the three loops that copy a segment, byte by byte. *)
Definition load_segment (executable : list Z) (t : list TranslationEntry) (s : Segment) (m : Machine) : outcome Machine :=
  if 0 <? size s then
    for_range 0 (size s) (fun i m =>
      vaddr ← int_add (virtualAddr s) i;
      e ← arr_get t (Z.quot vaddr PageSize);
      let add := physicalPage e * PageSize + Z.rem vaddr PageSize in
      if 0 <=? physicalPage e then
        pos ← int_add (inFileAddr s) i;
        b ← ReadAt executable 1 pos;
        mem ← buf_put (mainMemory m) add b;
        Ok (with_memory mem m)
      else Ok m) m
  else Ok m.

(** The members [FileAddr\[0..8\]]. *)
Definition file_addr (h : NoffHeader) : list Z :=
  [virtualAddr (code h); size (code h); inFileAddr (code h);
   virtualAddr (initData h); size (initData h); inFileAddr (initData h);
   virtualAddr (readonlyData h); size (readonlyData h); inFileAddr (readonlyData h)].

(** The three copying loops of [AddrSpace::Load]. *)
Definition load_segments (executable : list Z) (t : list TranslationEntry) (noffH : NoffHeader) (m : Machine) : outcome Machine :=
  m ← load_segment executable t (code noffH) m;
  m ← load_segment executable t (initData noffH) m;
  load_segment executable t (readonlyData noffH) m.

(** The size computed by [AddrSpace::Load], in [int] arithmetic. *)
Definition image_size (noffH : NoffHeader) : outcome Z :=
  n ← int_add (size (code noffH)) (size (readonlyData noffH));
  n ← int_add n (size (initData noffH));
  n ← int_add n (size (uninitData noffH));
  int_add n UserStackSize.

(** [AddrSpace::Load] once the header is read. *)
Definition load_image (executable fileName : list Z) (noffH : NoffHeader) (sp : AddrSpace) (m : Machine)
  : outcome (Machine * AddrSpace * bool) :=
  _ ← ASSERT (noffMagic noffH =? NOFFMAGIC);
  n ← image_size noffH;
  let numPages := divRoundUp (to_uint n) PageSize in
  _ ← ASSERT (numPages <=? NumPhysPages);
  let a := fresh (dom (tables m)) in
  '(m, t) ← build_table fileName a m;
  let m := set_table (Some a) t m in
  _ ← for_range 0 PageSize (fun i _ => _ ← arr_get t i; Ok tt) tt;
  m ← load_segments executable t noffH m;
  Ok (m, mkAddrSpace (file_addr noffH) (Some a) numPages (s_reg sp), true).

(** [AddrSpace::Load]; [local] is what the header variable held before. *)
Definition Load (fs : files) (local : list Z) (fileName : list Z) (sp : AddrSpace) (m : Machine)
  : outcome (Machine * AddrSpace * bool) :=
  match fs !! fileName with
  | None => Ok (m, sp, false)
  | Some executable =>
      bs ← ReadAt executable sizeof_NoffHeader 0;
      let noffH := noff_of (bs ++ drop (length bs) local) in
      let noffH := if negb (noffMagic noffH =? NOFFMAGIC) &&
                      (WordToHost (to_uint (noffMagic noffH)) =? NOFFMAGIC) then SwapHeader noffH else noffH in
      load_image executable fileName noffH sp m
  end.

(** [AddrSpace::InitRegisters] *)
Definition InitRegisters (sp : AddrSpace) (m : Machine) : outcome Machine :=
  m ← for_range 0 NumTotalRegs (fun i m => WriteRegister m i 0) m;
  m ← WriteRegister m PCReg 0;
  m ← WriteRegister m NextPCReg 4;
  WriteRegister m StackReg (to_int (numPages sp * PageSize - 16)).

(** [AddrSpace::Execute] up to [Machine::Run]. *)
Definition Execute (sp : AddrSpace) (m : Machine) : outcome Machine :=
  m ← InitRegisters sp m;
  Ok (with_space (pageTable sp) (numPages sp) (FileAddr sp) m).

(** [AddrSpace::SaveState] *)
Definition SaveState (m : Machine) (sp : AddrSpace) : outcome AddrSpace :=
  r ← for_range 0 NumTotalRegs (fun i r => v ← ReadRegister m i; arr_set r i v) (s_reg sp);
  Ok (mkAddrSpace (FileAddr sp) (pageTable sp) (numPages sp) r).

(** [AddrSpace::RestoreState] *)
Definition RestoreState (sp : AddrSpace) (m : Machine) : outcome Machine :=
  let m := with_space (pageTable sp) (numPages sp) (FileAddr sp) m in
  for_range 0 NumTotalRegs (fun i m => v ← arr_get (s_reg sp) i; WriteRegister m i v) m.

(** [AddrSpace::Translate] *)
Definition Translate (sp : AddrSpace) (m : Machine) (vaddr : Z) (isReadWrite : bool)
  : outcome (Machine * (ExceptionType + Z)) :=
  let vpn := Z.quot vaddr PageSize in
  let offset := Z.rem vaddr PageSize in
  if numPages sp <=? vpn then Ok (m, inl AddressErrorException)
  else
    t ← get_table m (pageTable sp);
    pte ← arr_get t vpn;
    if isReadWrite && readOnly pte then Ok (m, inl ReadOnlyException)
    else
      let pfn := physicalPage pte in
      if (pfn =? -1) || negb (valid pte) then Ok (m, inl PageFaultException)
      else if NumPhysPages <=? pfn then Ok (m, inl BusErrorException)
      else
        t ← arr_set t vpn (touch isReadWrite pte);
        let m := set_table (pageTable sp) t m in
        let paddr := to_uint (pfn * PageSize + offset) in
        _ ← ASSERT (paddr <? MemorySize);
        Ok (m, inr paddr).

(** [AddrSpace::~AddrSpace]: clears and frees every frame its table names. *)
Definition free_frame (e : TranslationEntry) (m : Machine) : outcome Machine :=
  if negb (physicalPage e =? -1) then
    mem ← buf_put (mainMemory m) (physicalPage e * PageSize) (replicate (Z.to_nat PageSize) 0);
    g ← arr_get (GlobalPageTable m) (physicalPage e);
    gt ← arr_set (GlobalPageTable m) (physicalPage e) (mkGlobal (-1) (useStamp g) None);
    Ok (with_global gt (with_memory mem m))
  else Ok m.

Definition deleteAddrSpace (sp : AddrSpace) (m : Machine) : outcome Machine :=
  t ← get_table m (pageTable sp);
  m ← for_range 0 NumPhysPages (fun i m => e ← arr_get t i; free_frame e m) m;
  Ok (with_tables (match pageTable sp with Some a => delete a (tables m) | None => tables m end) m).

(** ** The frames that [Load] gets *)
Definition is_free (g : list GlobalEntry) (i : nat) : bool :=
  match g !! i with Some e => negb (bool_decide (is_Some (RefPageTable e))) | None => false end.
Definition free_frames (g : list GlobalEntry) : list nat := filter (fun i => is_free g i = true) (seq 0 (length g)).

(** The frame of page [j] when the free frames are [fr]. *)
Definition frame_of (fr : list nat) (j : nat) : Z := match fr !! j with Some f => Z.of_nat f | None => -1 end.
Definition page_entry (fileName : list Z) (fr : list nat) (j : nat) : TranslationEntry :=
  mkTE (Z.of_nat j) (frame_of fr j) true false false false fileName.

Lemma elem_of_free_frames g i : i ∈ free_frames g <-> is_free g i = true.
Proof.
  unfold free_frames. rewrite list_elem_of_filter, elem_of_seq. split; [by intros [? _]|]. intros Hi. split; [done|].
  unfold is_free in Hi. destruct (g !! i) eqn:E; [|done]. apply lookup_lt_Some in E. lia.
Qed.

Lemma NoDup_free_frames g : NoDup (free_frames g).
Proof. apply NoDup_filter, NoDup_seq. Qed.

Lemma free_frames_lt g j f : free_frames g !! j = Some f -> (f < length g)%nat.
Proof.
  intros Hj. apply list_elem_of_lookup_2, elem_of_free_frames in Hj. unfold is_free in Hj.
  destruct (g !! f) eqn:E; [by apply lookup_lt_Some in E|done].
Qed.

(** Taking the first free frame leaves the others. *)
Lemma free_frames_take g i fr v a :
  free_frames g = i :: fr -> free_frames (<[i := mkGlobal v 0 (Some a)]> g) = fr.
Proof.
  intros Hf. pose proof (NoDup_free_frames g) as Hnd. rewrite Hf in Hnd. apply NoDup_cons in Hnd as [Hni _].
  assert (i < length g)%nat as Hi by (apply (free_frames_lt g 0); by rewrite Hf).
  assert (filter (fun j => j <> i) (free_frames g) = fr) as <-.
  { rewrite Hf, filter_cons_False by (intros E; by apply E). apply filter_all. intros j Hj ->. done. }
  unfold free_frames. rewrite length_insert, list_filter_filter. apply filter_ext_in. intros j _. unfold is_free.
  destruct (decide (j = i)) as [->|Hne].
  - rewrite list_lookup_insert_eq by done. cbn [RefPageTable].
    rewrite bool_decide_true by eauto. split; [done|]. by intros [? _].
  - rewrite list_lookup_insert_ne by done. naive_solver.
Qed.

Lemma free_frames_first g i :
  is_free g i = true -> (forall j, (j < i)%nat -> is_free g j = false) -> exists fr, free_frames g = i :: fr.
Proof.
  intros Hi Hmin. assert (i < length g)%nat as Hlt.
  { unfold is_free in Hi. destruct (g !! i) eqn:E; [by apply lookup_lt_Some in E|done]. }
  unfold free_frames. replace (length g) with (i + S (length g - i - 1))%nat by lia.
  rewrite seq_app. cbn [seq Nat.add]. rewrite filter_app, filter_cons_True by done.
  assert (filter (fun j => is_free g j = true) (seq 0 i) = []) as ->; [|by eexists].
  destruct (filter _ _) as [|j l] eqn:E; [done|]. exfalso.
  assert (j ∈ filter (fun j => is_free g j = true) (seq 0 i)) as Hj by (rewrite E; left).
  apply list_elem_of_filter in Hj as [Hf Hj]. apply elem_of_seq in Hj. rewrite Hmin in Hf by lia. done.
Qed.

Lemma is_free_None g i e : g !! i = Some e -> is_free g i = true <-> RefPageTable e = None.
Proof.
  intros He. unfold is_free. rewrite He. destruct (RefPageTable e); [rewrite bool_decide_true by eauto; naive_solver|].
  rewrite bool_decide_false by (intros [? ?]; done). done.
Qed.

Lemma findFreeFrame_free m v ref :
  length (GlobalPageTable m) = Z.to_nat NumPhysPages ->
  findFreeFrame m v ref = Ok match free_frames (GlobalPageTable m) with
    | [] => (m, -1)
    | i :: _ => (with_global (<[i := mkGlobal v 0 ref]> (GlobalPageTable m)) m, Z.of_nat i)
    end.
Proof.
  intros Hl. destruct (findFreeFrame_ok m v ref Hl) as [[Hall ->]|(i & g & Hg & Hn & Hmin & ->)].
  - destruct (free_frames _) as [|j l] eqn:E; [done|]. exfalso.
    assert (j ∈ free_frames (GlobalPageTable m)) as Hj by (rewrite E; left). apply elem_of_free_frames in Hj.
    destruct (GlobalPageTable m !! j) as [e|] eqn:Ee; [|unfold is_free in Hj; by rewrite Ee in Hj].
    apply (is_free_None _ _ _ Ee) in Hj. by apply (Forall_lookup_1 _ _ _ _ Hall Ee).
  - destruct (free_frames_first (GlobalPageTable m) i) as [fr ->]; [by apply (is_free_None _ _ _ Hg)| |done].
    intros j Hj. destruct (GlobalPageTable m !! j) as [e|] eqn:Ee; [|unfold is_free; by rewrite Ee].
    apply not_true_is_false. rewrite (is_free_None _ _ _ Ee). by eapply Hmin.
Qed.

(** The table that [Load] builds, and the frames it takes for it. *)
Record built (m : Machine) (a : positive) (fileName : list Z) (k : nat) (m' : Machine) (t : list TranslationEntry) : Prop := {
  bt_machine : exists g, m' = with_global g m /\ length g = Z.to_nat NumPhysPages;
  bt_free : free_frames (GlobalPageTable m') = drop k (free_frames (GlobalPageTable m));
  bt_taken j f : (j < k)%nat -> free_frames (GlobalPageTable m) !! j = Some f ->
    GlobalPageTable m' !! f = Some (mkGlobal (Z.of_nat j) 0 (Some a));
  bt_kept f : f ∉ take k (free_frames (GlobalPageTable m)) -> GlobalPageTable m' !! f = GlobalPageTable m !! f;
  bt_length : length t = Z.to_nat NumPhysPages;
  bt_entry j : (j < k)%nat -> (j < Z.to_nat NumPhysPages)%nat ->
    t !! j = Some (page_entry fileName (free_frames (GlobalPageTable m)) j);
}.

Lemma build_step m a fileName k m' t :
  (k < Z.to_nat NumPhysPages)%nat -> built m a fileName k m' t ->
  exists m'' t', ('(m'', frame) ← findFreeFrame m' (Z.of_nat k) (Some a);
    t' ← arr_set t (Z.of_nat k) (mkTE (Z.of_nat k) frame true false false false fileName); Ok (m'', t')) = Ok (m'', t') /\
    built m a fileName (S k) m'' t'.
Proof.
  intros Hk [(g & -> & Hg) Hfree Htk Hkp Hl He]. cbn [GlobalPageTable with_global] in *.
  rewrite findFreeFrame_free by done. cbn [GlobalPageTable with_global]. rewrite Hfree.
  set (fr := free_frames (GlobalPageTable m)) in *. pose proof (NoDup_free_frames (GlobalPageTable m)) as Hnd. fold fr in Hnd.
  destruct (drop k fr) as [|i rest] eqn:Ed; cbn [mbind outcome_bind].
  - assert (length fr <= k)%nat as Hlen by (apply (f_equal length) in Ed; rewrite length_drop in Ed; cbn in Ed; lia).
    rewrite arr_set_lt, Nat2Z.id by lia. eexists _, _. split; [reflexivity|]. split.
    + by exists g.
    + cbn [GlobalPageTable with_global]. rewrite Hfree. fold fr. by rewrite drop_ge by lia.
    + intros j f Hj. fold fr. intros Hf. apply Htk; [|done]. apply lookup_lt_Some in Hf. lia.
    + intros f. fold fr. cbn [GlobalPageTable with_global]. rewrite take_ge by lia. intros Hf. apply Hkp. by rewrite take_ge by lia.
    + by rewrite length_insert.
    + intros j Hj Hj'. destruct (decide (j = k)) as [->|]; [|rewrite list_lookup_insert_ne by lia; apply He; lia].
      rewrite list_lookup_insert_eq by lia. fold fr. unfold page_entry, frame_of. by rewrite lookup_ge_None_2 by lia.
  - assert (fr !! k = Some i) as Hi by (rewrite <- (Nat.add_0_r k), <- lookup_drop, Ed; done).
    assert (rest = drop (S k) fr) as Hrest by (rewrite (drop_S _ _ _ Hi) in Ed; congruence).
    assert (i < length g)%nat as Hig by (apply (free_frames_lt g 0); by rewrite Hfree).
    rewrite arr_set_lt, Nat2Z.id by lia. eexists _, _. split; [reflexivity|]. split.
    + eexists. split; [reflexivity|]. by rewrite length_insert.
    + cbn [GlobalPageTable with_global]. fold fr. rewrite <- Hrest. by apply free_frames_take.
    + cbn [GlobalPageTable with_global]. fold fr. intros j f Hj Hf. destruct (decide (j = k)) as [->|].
      * simplify_eq. by rewrite list_lookup_insert_eq.
      * rewrite list_lookup_insert_ne; [by apply Htk; [lia|]|]. intros ->. apply n. by eapply NoDup_lookup.
    + cbn [GlobalPageTable with_global]. fold fr. intros f Hf. rewrite (take_S_r _ _ _ Hi) in Hf. rewrite list_lookup_insert_ne by set_solver.
      apply Hkp. set_solver.
    + by rewrite length_insert.
    + intros j Hj Hj'. destruct (decide (j = k)) as [->|]; [|rewrite list_lookup_insert_ne by lia; apply He; lia].
      rewrite list_lookup_insert_eq by lia. fold fr. unfold page_entry, frame_of. by rewrite Hi.
Qed.

Lemma build_table_ok m a fileName :
  length (GlobalPageTable m) = Z.to_nat NumPhysPages ->
  exists m' t, build_table fileName a m = Ok (m', t) /\ built m a fileName (Z.to_nat NumPhysPages) m' t.
Proof.
  intros Hl. unfold build_table.
  edestruct (for_range_ind (fun k '(m', t) => built m a fileName (Z.to_nat k) m' t)) as ([m' t] & HL & HB);
    [| | |rewrite HL; by exists m', t]; [done| |].
  - split; [by exists (GlobalPageTable m); destruct m|done|lia|done|by rewrite length_replicate|lia].
  - intros i [m' t] Hi HB. destruct (build_step m a fileName (Z.to_nat i) m' t) as (m'' & t' & HS & HB'); [lia|done|].
    rewrite Z2Nat.id in HS by lia. exists (m'', t'). split; [exact HS|]. by rewrite Z2Nat.inj_add by lia; rewrite Nat.add_1_r.
Qed.

(** ** The bytes that [Load] brings in *)
Definition seg_byte (file : list Z) (s : Segment) (v : Z) : option Z :=
  if (virtualAddr s <=? v) && (v <? virtualAddr s + size s)
  then file !! Z.to_nat (inFileAddr s + (v - virtualAddr s)) else None.

(** A segment that lies in the 128 pages and in the file. *)
Definition seg_wf (file : list Z) (s : Segment) : Prop :=
  size s <= 0 \/
  (0 <= virtualAddr s /\ virtualAddr s + size s <= MemorySize /\ 0 <= inFileAddr s /\
   inFileAddr s + size s <= Z.of_nat (length file) /\ is_int (inFileAddr s + size s)).

(** The byte at virtual address [v]; segments are loaded in this order, so a
    later one wins. *)
Definition program_byte (file : list Z) (h : NoffHeader) (v : Z) : option Z :=
  match seg_byte file (readonlyData h) v with
  | Some b => Some b
  | None => match seg_byte file (initData h) v with
    | Some b => Some b
    | None => seg_byte file (code h) v
    end
  end.

(** Memory [mem'] is [mem] with [f] loaded in the frames [fr] of the pages. *)
Record loaded (fr : list nat) (f : Z -> option Z) (mem mem' : list Z) : Prop := {
  ld_length : length mem' = length mem;
  ld_page j p o : fr !! j = Some p -> (j < 128)%nat -> (o < 128)%nat ->
    mem' !! (p * 128 + o)%nat = match f (Z.of_nat (j * 128 + o)) with Some b => Some b | None => mem !! (p * 128 + o)%nat end;
  ld_other q : (q / 128)%nat ∉ fr -> mem' !! q = mem !! q;
}.

Lemma loaded_trans fr f g mem mem' mem'' :
  loaded fr f mem mem' -> loaded fr g mem' mem'' ->
  loaded fr (fun v => match g v with Some b => Some b | None => f v end) mem mem''.
Proof.
  intros [L1 P1 O1] [L2 P2 O2]. split; [congruence| |].
  - intros j p o Hj Hj' Ho. rewrite (P2 j), (P1 j) by done. by destruct (g _).
  - intros q Hq. by rewrite O2, O1.
Qed.

Lemma loaded_none fr f mem : (forall v, f v = None) -> loaded fr f mem mem.
Proof. intros Hf. split; [done| |done]. intros. by rewrite Hf. Qed.

Lemma loaded_ext fr f g mem mem' : (forall v, f v = g v) -> loaded fr f mem mem' -> loaded fr g mem mem'.
Proof. intros Hfg [L P O]. split; [done| |done]. intros. rewrite <- Hfg. by apply P. Qed.

(** One byte more. *)
Lemma loaded_put fr f mem mem' v b j p :
  NoDup fr -> fr !! j = Some p -> (j < 128)%nat -> v / 128 = Z.of_nat j -> 0 <= v -> (p * 128 + 128 <= length mem)%nat ->
  loaded fr f mem mem' ->
  loaded fr (fun w => if w =? v then Some b else f w) mem (splice mem' (p * 128 + Z.to_nat (v mod 128)) [b]).
Proof.
  intros Hnd Hj Hj' Hv Hv0 Hlen [L P O]. pose proof (Z.mod_pos_bound v 128 ltac:(lia)) as Hm.
  pose proof (Z.div_mod v 128 ltac:(lia)) as Hd.
  split.
  - rewrite length_splice by (cbn; lia). done.
  - intros j' p' o Hj1 Hj2 Ho. rewrite lookup_splice by (cbn; lia). cbn [length].
    destruct (Z.eqb_spec (Z.of_nat (j' * 128 + o)) v) as [E|E].
    + assert (j' = j) as -> by lia. assert (p' = p) as -> by congruence. rewrite decide_True by lia.
      by replace (p * 128 + o - (p * 128 + Z.to_nat (v mod 128)))%nat with 0%nat by lia.
    + rewrite decide_False; [by apply P|]. intros Hq. assert (p' = p) as -> by lia.
      assert (j' = j) as -> by (by eapply NoDup_lookup). lia.
  - intros q Hq. rewrite lookup_splice by (cbn; lia). cbn [length]. rewrite decide_False; [by apply O|].
    intros Hr. apply Hq. assert (q = p * 128 + Z.to_nat (v mod 128))%nat as -> by lia.
    rewrite Nat.div_add_l, Nat.div_small, Nat.add_0_r by lia. by eapply list_elem_of_lookup_2.
Qed.

Lemma seg_byte_step file s i v :
  0 <= i ->
  seg_byte file (mkSegment (virtualAddr s) (inFileAddr s) (i + 1)) v =
  if v =? virtualAddr s + i then file !! Z.to_nat (inFileAddr s + i)
  else seg_byte file (mkSegment (virtualAddr s) (inFileAddr s) i) v.
Proof.
  intros Hi. unfold seg_byte. cbn [virtualAddr inFileAddr size].
  destruct (Z.eqb_spec v (virtualAddr s + i)) as [->|Hne].
  - replace (_ && _) with true by lia. do 2 f_equal. lia.
  - replace (v <? virtualAddr s + (i + 1)) with (v <? virtualAddr s + i) by lia. done.
Qed.

Lemma load_segment_ok file fileName t s m fr :
  length (mainMemory m) = Z.to_nat MemorySize -> NoDup fr -> Forall (fun f => f < 128)%nat fr -> seg_wf file s ->
  (forall j, (j < 128)%nat -> t !! j = Some (page_entry fileName fr j)) ->
  exists mem, load_segment file t s m = Ok (with_memory mem m) /\ loaded fr (seg_byte file s) (mainMemory m) mem.
Proof.
  intros Hlen Hnd Hfr Hwf Ht. assert (Z.of_nat (length (mainMemory m)) = 16384) as Hmem by (by rewrite Hlen).
  clear Hlen. unfold load_segment.
  destruct (Z.ltb_spec 0 (size s)) as [Hs|Hs].
  2: { exists (mainMemory m). split; [by destruct m|]. apply loaded_none. intros v. unfold seg_byte.
       by replace (_ && _) with false by lia. }
  destruct Hwf as [|(Hv0 & Hv1 & Hi0 & Hi1 & Hi2)]; [lia|]. change MemorySize with 16384 in Hv1. unfold is_int in Hi2.
  edestruct (for_range_ind (fun i m' => exists mem, m' = with_memory mem m /\
      loaded fr (seg_byte file (mkSegment (virtualAddr s) (inFileAddr s) i)) (mainMemory m) mem)) as (m' & HL & mem & -> & HB);
    [| | |rewrite HL; exists mem; split; [done|by destruct s]]; [lia| |].
  { exists (mainMemory m). split; [by destruct m|]. apply loaded_none. intros v. unfold seg_byte. cbn.
    by replace (_ && _) with false by lia. }
  intros i m' Hi (mem & -> & HB). unfold int_add.
  rewrite (proj2 (andb_true_iff (- 2 ^ 31 <=? virtualAddr s + i) _)) by lia. cbn [mbind outcome_bind].
  rewrite Z.quot_div_nonneg, Z.rem_mod_nonneg by (unfold PageSize; lia). change PageSize with 128.
  assert (0 <= (virtualAddr s + i) / 128 < 128) as Hj by (split; [apply Z.div_pos; lia|apply Z.div_lt_upper_bound; lia]).
  set (v := virtualAddr s + i) in *. set (j := Z.to_nat (v / 128)).
  assert (arr_get t (v / 128) = Ok (page_entry fileName fr j)) as ->.
  { apply arr_get_Some; [lia|]. apply Ht. lia. }
  cbn [mbind outcome_bind page_entry physicalPage]. unfold frame_of. destruct (fr !! j) as [p|] eqn:Ej.
  - rewrite (proj2 (Z.leb_le 0 (Z.of_nat p))) by lia. unfold int_add.
    rewrite (proj2 (andb_true_iff (- 2 ^ 31 <=? inFileAddr s + i) _)) by lia. cbn [mbind outcome_bind].
    unfold ReadAt. rewrite (proj2 (Z.leb_le 0 (inFileAddr s + i))) by lia. cbn [ASSERT mbind outcome_bind].
    destruct (lookup_lt_is_Some_2 file (Z.to_nat (inFileAddr s + i))) as [b Hb]; [lia|].
    rewrite (drop_S _ _ _ Hb). change (take (Z.to_nat 1) (b :: ?l)) with [b].
    pose proof (Forall_lookup_1 _ _ _ _ Hfr Ej) as Hp. cbn beta in Hp. pose proof (Z.mod_pos_bound v 128 ltac:(lia)) as Hm.
    pose proof (ld_length _ _ _ _ HB) as HL. cbn [mainMemory with_memory].
    rewrite buf_put_ok by (cbn [length]; lia). cbn [mbind outcome_bind]. eexists. split; [reflexivity|]. eexists. split; [reflexivity|].
    replace (Z.to_nat (Z.of_nat p * 128 + v mod 128)) with (p * 128 + Z.to_nat (v mod 128))%nat by lia.
    eapply loaded_ext; [|eapply (loaded_put fr _ (mainMemory m) mem v b j p Hnd Ej ltac:(unfold j; lia) ltac:(unfold j; lia) ltac:(unfold v; lia) ltac:(lia) HB)].
    intros w. rewrite seg_byte_step by lia. fold v. destruct (w =? v); [by rewrite Hb|done].
  - eexists. split; [reflexivity|]. exists mem. split; [done|].
    destruct HB as [L P O]. split; [done| |done]. intros j' p' o Hj1 Hj2 Ho. rewrite (P j') by done.
    rewrite seg_byte_step by lia. fold v. destruct (Z.eqb_spec (Z.of_nat (j' * 128 + o)) v) as [E|E]; [|done].
    exfalso. assert (j' = j) as ->; [|congruence]. unfold j. rewrite <- E. rewrite Nat2Z.inj_add, Nat2Z.inj_mul.
    change (Z.of_nat 128) with 128. rewrite Z.div_add_l, Z.div_small by lia. lia.
Qed.

(** What the header of an executable says. *)
Definition exec_header (local file : list Z) : NoffHeader :=
  noff_of (take (Z.to_nat sizeof_NoffHeader) file ++ drop (length (take (Z.to_nat sizeof_NoffHeader) file)) local).
Definition total_size (h : NoffHeader) : Z :=
  size (code h) + size (readonlyData h) + size (initData h) + size (uninitData h) + UserStackSize.

(** Sizes that are not negative and whose sum is an [int]. *)
Definition sizes_ok (h : NoffHeader) : Prop :=
  0 <= size (code h) /\ 0 <= size (readonlyData h) /\ 0 <= size (initData h) /\ 0 <= size (uninitData h) /\
  is_int (total_size h).

(** The machine as far as [Load] is concerned. *)
Definition frames_ok (m : Machine) : Prop :=
  length (GlobalPageTable m) = Z.to_nat NumPhysPages /\ length (mainMemory m) = Z.to_nat MemorySize.

Lemma built_wf m a fileName m' t :
  frames_ok m -> built m a fileName (Z.to_nat NumPhysPages) m' t ->
  NoDup (free_frames (GlobalPageTable m)) /\ Forall (fun f => f < 128)%nat (free_frames (GlobalPageTable m)) /\
  (forall j, (j < 128)%nat -> t !! j = Some (page_entry fileName (free_frames (GlobalPageTable m)) j)) /\
  take (Z.to_nat NumPhysPages) (free_frames (GlobalPageTable m)) = free_frames (GlobalPageTable m).
Proof.
  intros [Hg _] HB. change (Z.to_nat NumPhysPages) with 128%nat in *. split_and!; [apply NoDup_free_frames| | |].
  - apply Forall_lookup. intros j f Hf. rewrite <- Hg. by eapply free_frames_lt.
  - intros j Hj. by apply HB.
  - apply take_ge. unfold free_frames. etrans; [apply length_filter|]. rewrite length_seq. lia.
Qed.

Lemma load_segments_ok file fileName t h m fr :
  length (mainMemory m) = Z.to_nat MemorySize -> NoDup fr -> Forall (fun f => f < 128)%nat fr ->
  seg_wf file (code h) -> seg_wf file (initData h) -> seg_wf file (readonlyData h) ->
  (forall j, (j < 128)%nat -> t !! j = Some (page_entry fileName fr j)) ->
  exists mem,
    load_segments file t h m = Ok (with_memory mem m) /\
    loaded fr (program_byte file h) (mainMemory m) mem.
Proof.
  intros Hl Hnd Hfr H1 H2 H3 Ht. unfold load_segments.
  destruct (load_segment_ok file fileName t (code h) m fr Hl Hnd Hfr H1 Ht) as (mem1 & -> & L1). cbn [mbind outcome_bind].
  assert (length mem1 = Z.to_nat MemorySize) as Hl1 by (rewrite (ld_length _ _ _ _ L1); done).
  destruct (load_segment_ok file fileName t (initData h) (with_memory mem1 m) fr Hl1 Hnd Hfr H2 Ht) as (mem2 & -> & L2).
  cbn [mbind outcome_bind mainMemory with_memory] in *.
  assert (length mem2 = Z.to_nat MemorySize) as Hl2 by (rewrite (ld_length _ _ _ _ L2); done).
  change (with_memory mem2 (with_memory mem1 m)) with (with_memory mem2 m).
  destruct (load_segment_ok file fileName t (readonlyData h) (with_memory mem2 m) fr Hl2 Hnd Hfr H3 Ht) as (mem3 & -> & L3).
  cbn [mainMemory with_memory] in *. exists mem3. split; [done|].
  eapply loaded_ext; [|eapply loaded_trans; [eapply loaded_trans; [exact L1|exact L2]|exact L3]]. done.
Qed.

(** The result of a successful [Load]. *)
Record Loaded (file fileName : list Z) (h : NoffHeader) (m m' : Machine) (sp sp' : AddrSpace) (a : positive)
    (t : list TranslationEntry) : Prop := {
  lo_space : sp' = mkAddrSpace (file_addr h) (Some a) (divRoundUp (total_size h) PageSize) (s_reg sp);
  lo_table : tables m !! a = None /\ tables m' = <[a := t]> (tables m);
  lo_length : length t = Z.to_nat NumPhysPages;
  lo_entries j : (j < 128)%nat -> t !! j = Some (page_entry fileName (free_frames (GlobalPageTable m)) j);
  lo_byte v p b : 0 <= v < MemorySize -> lookup_page t NumPhysPages v 1 false = inr p ->
    program_byte file h v = Some b -> mainMemory m' !! Z.to_nat p = Some b;
  lo_owner j f : free_frames (GlobalPageTable m) !! j = Some f ->
    GlobalPageTable m' !! f = Some (mkGlobal (Z.of_nat j) 0 (Some a));
  lo_frame f : is_free (GlobalPageTable m) f = false ->
    GlobalPageTable m' !! f = GlobalPageTable m !! f /\
    forall o, (o < 128)%nat -> mainMemory m' !! (f * 128 + o)%nat = mainMemory m !! (f * 128 + o)%nat;
  lo_rest : registers m' = registers m /\ tlb m' = tlb m /\ Machine.pageTable m' = Machine.pageTable m /\ frames_ok m';
}.

Lemma lookup_built t fileName fr v p :
  (forall j, (j < 128)%nat -> t !! j = Some (page_entry fileName fr j)) -> 0 <= v < MemorySize ->
  lookup_page t NumPhysPages v 1 false = inr p ->
  exists f, fr !! Z.to_nat (v / 128) = Some f /\ Z.to_nat p = (f * 128 + Z.to_nat (v mod 128))%nat.
Proof.
  intros Ht Hv. change MemorySize with 16384 in Hv. change NumPhysPages with 128. unfold lookup_page, vpn_of, offset_of, misaligned. rewrite to_uint_id by (unfold is_uint; lia).
  cbn [Z.eqb Pos.eqb andb orb]. assert (0 <= v / 128 < 128) as Hd by (split; [apply Z.div_pos; lia|apply Z.div_lt_upper_bound; lia]).
  rewrite (proj2 (Z.leb_gt 128 _)) by lia. rewrite Ht by lia. cbn [page_entry valid physicalPage readOnly negb andb orb].
  unfold frame_of. destruct (fr !! Z.to_nat (v / 128)) as [f|]; [|done]. rewrite of_nat_not_minus1.
  destruct (_ && _); [|done]. intros [= <-]. exists f. split; [done|]. pose proof (Z.mod_pos_bound v 128 ltac:(lia)).
  change PageSize with 128. lia.
Qed.

Lemma sizes_sum (h : NoffHeader) :
  sizes_ok h ->
  image_size h = Ok (total_size h) /\
  to_uint (total_size h) = total_size h /\ 0 <= total_size h.
Proof.
  unfold sizes_ok, image_size, total_size, is_int, UserStackSize. intros (H1 & H2 & H3 & H4 & H5).
  rewrite !int_add_Ok by (unfold is_int; lia). cbn [mbind outcome_bind]. rewrite !int_add_Ok by (unfold is_int; lia).
  cbn [mbind outcome_bind]. rewrite !int_add_Ok by (unfold is_int; lia). cbn [mbind outcome_bind].
  rewrite !int_add_Ok by (unfold is_int; lia). split; [done|]. split; [apply to_uint_id; unfold is_uint; lia|lia].
Qed.

Lemma load_image_ok file fileName h m sp :
  frames_ok m -> sizes_ok h -> seg_wf file (code h) -> seg_wf file (initData h) -> seg_wf file (readonlyData h) ->
  if (noffMagic h =? NOFFMAGIC) && (divRoundUp (total_size h) PageSize <=? NumPhysPages) then
    exists m' sp' a t, load_image file fileName h sp m = Ok (m', sp', true) /\ Loaded file fileName h m m' sp sp' a t
  else load_image file fileName h sp m = Err AssertFailed.
Proof.
  intros Hfo Hsz H1 H2 H3. unfold load_image. destruct (noffMagic h =? NOFFMAGIC); [|done].
  destruct (sizes_sum h Hsz) as (-> & Hu & Hnn). cbn [ASSERT mbind outcome_bind andb]. rewrite Hu.
  destruct (divRoundUp (total_size h) PageSize <=? NumPhysPages); [|done]. cbn [ASSERT mbind outcome_bind].
  set (a := fresh (dom (tables m))). destruct (build_table_ok m a fileName (proj1 Hfo)) as (m1 & t & -> & Hbt).
  destruct (built_wf m a fileName m1 t Hfo Hbt) as (Hnd & Hfr & Ht & Htk).
  destruct (bt_machine _ _ _ _ _ _ Hbt) as (g & -> & Hg).
  destruct (load_segments_ok file fileName t h (set_table (Some a) t (with_global g m)) _ (proj2 Hfo) Hnd Hfr H1 H2 H3 Ht) as (mem & HL & HLd).
  cbn [mbind outcome_bind].
  assert (for_range 0 PageSize (fun i (_ : unit) => _ ← arr_get t i; Ok tt) tt = Ok tt) as ->.
  { edestruct (for_range_ind (fun (_ : Z) (_ : unit) => True)) as ([] & HF & _); [| | |exact HF]; [done|done|].
    intros i [] Hi _. change PageSize with 128 in Hi. destruct (arr_get_lt t i) as (e & _ & ->); [|by exists tt].
    rewrite (bt_length _ _ _ _ _ _ Hbt). change (Z.to_nat NumPhysPages) with 128%nat. lia. }
  cbn [mbind outcome_bind]. rewrite HL. cbn [mbind outcome_bind]. eexists _, _, a, t. split; [reflexivity|].
  cbn [mainMemory set_table with_tables with_global] in HLd. split.
  - reflexivity.
  - split; [|done]. apply not_elem_of_dom, is_fresh.
  - apply Hbt.
  - done.
  - intros v p b Hv Hp Hb. destruct (lookup_built t fileName _ v p Ht Hv Hp) as (f & Hf & ->).
    change MemorySize with 16384 in Hv. pose proof (Z.mod_pos_bound v 128 ltac:(lia)) as Hm. pose proof (Z.div_mod v 128 ltac:(lia)) as Hdm.
    cbn [mainMemory with_memory]. rewrite (ld_page _ _ _ _ HLd (Z.to_nat (v / 128)) f) by (done || lia).
    replace (Z.of_nat _) with v by lia. by rewrite Hb.
  - intros j f Hf. cbn. apply (bt_taken _ _ _ _ _ _ Hbt); [|done]. rewrite <- Htk in Hf. apply lookup_lt_Some in Hf.
    rewrite length_take in Hf. lia.
  - intros f Hf. assert (f ∉ free_frames (GlobalPageTable m)) as Hn by (rewrite elem_of_free_frames, Hf; done).
    split; [cbn; apply (bt_kept _ _ _ _ _ _ Hbt); by rewrite Htk|]. intros o Ho. cbn [mainMemory with_memory].
    rewrite (ld_other _ _ _ _ HLd); [done|]. by rewrite Nat.div_add_l, Nat.div_small, Nat.add_0_r by lia.
  - split_and!; [done..|]. split; [done|]. cbn. rewrite (ld_length _ _ _ _ HLd). apply Hfo.
Qed.

Lemma Load_image fs local fileName file sp m :
  fs !! fileName = Some file -> Load fs local fileName sp m = load_image file fileName (exec_header local file) sp m.
Proof.
  intros Ef. set (h := exec_header local file). unfold Load. rewrite Ef. change (ReadAt file sizeof_NoffHeader 0) with (Ok (A := list Z) (take (Z.to_nat sizeof_NoffHeader) file)).
    cbn [mbind outcome_bind]. fold (exec_header local file). fold h.
    destruct (Z.eqb_spec (noffMagic h) NOFFMAGIC) as [Hmg|Hmg]; [done|]. cbn [negb andb].
    assert ((WordToHost (to_uint (noffMagic h)) =? NOFFMAGIC) = false) as ->; [|done].
    apply Z.eqb_neq. intros E. apply Hmg. unfold WordToHost in E.
    assert (is_int (noffMagic h)) as Hi by apply to_int_range. rewrite to_uint_cases in E by done.
    unfold is_int, NOFFMAGIC in *. destruct (Z.ltb_spec (noffMagic h) 0); lia.
Qed.

(** C17: loading a program.  A missing file gives FALSE and changes nothing; any
    file without the magic number, and a program of more than 128 pages, stops
    in an assertion.  Otherwise the new page table gives the program's pages
    the free frames in order, every byte of the code, data and read-only
    segments is where the translation of its virtual address points, and no
    frame of another address space is touched, neither its memory nor its
    ownership. *)
Theorem load_correct fs local fileName sp m :
  frames_ok m ->
  match fs !! fileName with
  | None => Load fs local fileName sp m = Ok (m, sp, false)
  | Some file =>
      let h := exec_header local file in
      (noffMagic h <> NOFFMAGIC -> Load fs local fileName sp m = Err AssertFailed) /\
      (sizes_ok h -> seg_wf file (code h) -> seg_wf file (initData h) -> seg_wf file (readonlyData h) ->
       if (noffMagic h =? NOFFMAGIC) && (divRoundUp (total_size h) PageSize <=? NumPhysPages) then
         exists m' sp' a t, Load fs local fileName sp m = Ok (m', sp', true) /\ Loaded file fileName h m m' sp sp' a t
       else Load fs local fileName sp m = Err AssertFailed)
  end.
Proof.
  intros Hfo. destruct (fs !! fileName) as [file|] eqn:Ef; [|unfold Load; by rewrite Ef].
  intros h. rewrite (Load_image fs local fileName file sp m Ef). fold h. split.
  - intros Hm. unfold load_image. by rewrite (proj2 (Z.eqb_neq _ _) Hm).
  - intros Hsz H1 H2 H3. by apply load_image_ok.
Qed.

(** ** Registers on a context switch *)
Lemma take_insert_drop {A} (l old : list A) i x :
  l !! i = Some x -> length old = length l ->
  <[i := x]> (take i l ++ drop i old) = take (S i) l ++ drop (S i) old.
Proof.
  intros Hx Hl. assert (i < length l)%nat as Hi by by eapply lookup_lt_Some.
  destruct (lookup_lt_is_Some_2 old i) as [y Hy]; [lia|].
  rewrite (drop_S _ _ _ Hy), (take_S_r _ _ _ Hx), <- app_assoc. cbn.
  rewrite insert_app_r_alt by (rewrite length_take; lia). rewrite length_take. by replace (i - i `min` length l)%nat with O by lia.
Qed.

(** Storing the values [vs i] in all registers. *)
Lemma write_registers_ok (vs : list Z) (body : Z -> Machine -> outcome Machine) m :
  length vs = Z.to_nat NumTotalRegs -> length (registers m) = Z.to_nat NumTotalRegs ->
  (forall i v m', vs !! Z.to_nat i = Some v -> 0 <= i -> body i m' = WriteRegister m' i v) ->
  for_range 0 NumTotalRegs body m = Ok (with_registers vs m).
Proof.
  intros Hv Hm Hbody. change (Z.to_nat NumTotalRegs) with 40%nat in *.
  edestruct (for_range_ind (fun i m' => m' = with_registers (take (Z.to_nat i) vs ++ drop (Z.to_nat i) (registers m)) m))
    as (m' & HL & Hm'); [| | |rewrite HL, Hm'].
  - done.
  - cbn. by destruct m.
  - intros i m' Hi ->. change NumTotalRegs with 40 in Hi.
    destruct (lookup_lt_is_Some_2 vs (Z.to_nat i)) as [v Hvi]; [lia|].
    rewrite (Hbody i v) by (done || lia). unfold WriteRegister. change NumTotalRegs with 40.
    rewrite (proj2 (andb_true_iff (0 <=? i) (i <? 40))) by lia. cbn [ASSERT mbind outcome_bind registers with_registers].
    rewrite arr_set_lt by (rewrite length_app, length_take, length_drop; lia). cbn [mbind outcome_bind].
    eexists. split; [done|]. rewrite (take_insert_drop vs _ _ v) by (done || lia). unfold with_registers. cbn.
    by rewrite Z2Nat.inj_add, Nat.add_1_r by lia.
  - f_equal. change (Z.to_nat NumTotalRegs) with 40%nat. rewrite take_ge, drop_ge, app_nil_r by lia. done.
Qed.

(** Copying all registers to a buffer. *)
Lemma read_registers_ok m (buf : list Z) :
  length (registers m) = Z.to_nat NumTotalRegs -> length buf = Z.to_nat NumTotalRegs ->
  for_range 0 NumTotalRegs (fun i r => v ← ReadRegister m i; arr_set r i v) buf = Ok (registers m).
Proof.
  intros Hm Hs. change (Z.to_nat NumTotalRegs) with 40%nat in *.
  edestruct (for_range_ind (fun i r => r = take (Z.to_nat i) (registers m) ++ drop (Z.to_nat i) buf))
    as (r & HL & ->); [| | |rewrite HL; clear HL].
  - done.
  - done.
  - intros i r Hi ->. change NumTotalRegs with 40 in Hi. unfold ReadRegister. change NumTotalRegs with 40.
    rewrite (proj2 (andb_true_iff (0 <=? i) (i <? 40))) by lia. cbn [ASSERT mbind outcome_bind].
    destruct (arr_get_lt (registers m) i) as (v & Hv & ->); [lia|]. cbn [mbind outcome_bind].
    rewrite arr_set_lt by (rewrite length_app, length_take, length_drop; lia). eexists. split; [done|].
    rewrite (take_insert_drop _ _ _ v) by (done || lia). by rewrite Z2Nat.inj_add, Nat.add_1_r by lia.
  - change (Z.to_nat NumTotalRegs) with 40%nat. by rewrite take_ge, drop_ge, app_nil_r by lia.
Qed.

Lemma SaveState_ok m sp :
  length (registers m) = Z.to_nat NumTotalRegs -> length (s_reg sp) = Z.to_nat NumTotalRegs ->
  SaveState m sp = Ok (mkAddrSpace (FileAddr sp) (pageTable sp) (numPages sp) (registers m)).
Proof. intros Hm Hs. unfold SaveState. by rewrite read_registers_ok. Qed.

Lemma RestoreState_ok m sp :
  length (registers m) = Z.to_nat NumTotalRegs -> length (s_reg sp) = Z.to_nat NumTotalRegs ->
  RestoreState sp m = Ok (with_registers (s_reg sp) (with_space (pageTable sp) (numPages sp) (FileAddr sp) m)).
Proof.
  intros Hm Hs. unfold RestoreState. apply write_registers_ok; [done|done|].
  intros i v m' Hv Hi. by rewrite (arr_get_Some _ _ _ Hi Hv).
Qed.

Lemma InitRegisters_ok sp m :
  length (registers m) = Z.to_nat NumTotalRegs ->
  InitRegisters sp m = Ok (set_reg StackReg (to_int (numPages sp * PageSize - 16))
    (set_reg NextPCReg 4 (set_reg PCReg 0 (with_registers (replicate (Z.to_nat NumTotalRegs) 0) m)))).
Proof.
  intros Hm. unfold InitRegisters. rewrite (write_registers_ok (replicate (Z.to_nat NumTotalRegs) 0)); [done|done|done|].
  intros i v m' Hv Hi. by apply lookup_replicate_1 in Hv as [-> _].
Qed.

(** ** Deleting an address space *)

(** The first [i] entries of the table name frame [f]. *)
Definition names (t : list TranslationEntry) (i : nat) (f : nat) : Prop :=
  Exists (fun e => physicalPage e = Z.of_nat f) (take i t).

Record freed (t : list TranslationEntry) (i : nat) (m m' : Machine) : Prop := {
  fr_ok : frames_ok m';
  fr_same : registers m' = registers m /\ tables m' = tables m /\ tlb m' = tlb m /\
    Machine.pageTable m' = Machine.pageTable m;
  fr_mine f : (f < 128)%nat -> names t i f ->
    is_free (GlobalPageTable m') f = true /\ forall o, (o < 128)%nat -> mainMemory m' !! (f * 128 + o)%nat = Some 0;
  fr_others f : (f < 128)%nat -> ~ names t i f ->
    GlobalPageTable m' !! f = GlobalPageTable m !! f /\
    forall o, (o < 128)%nat -> mainMemory m' !! (f * 128 + o)%nat = mainMemory m !! (f * 128 + o)%nat;
}.

Lemma names_S t i e f : t !! i = Some e -> names t (S i) f <-> names t i f \/ physicalPage e = Z.of_nat f.
Proof.
  intros He. unfold names. rewrite (take_S_r _ _ _ He), Exists_app, Exists_cons, Exists_nil. naive_solver.
Qed.

Lemma free_frame_step t i e m m' :
  t !! i = Some e -> -1 <= physicalPage e < 128 -> freed t i m m' ->
  exists m'', free_frame e m' = Ok m'' /\ freed t (S i) m m''.
Proof.
  intros He Hr [[Hg Hm] Hsame Hmine Hoth]. unfold free_frame. destruct (Z.eqb_spec (physicalPage e) (-1)) as [E|E]; cbn [negb].
  { exists m'. split; [done|]. split; [done|done| |]; intros f Hf; rewrite (names_S _ _ _ _ He); intros Hn.
    - apply Hmine; [done|]. destruct Hn; [done|lia].
    - apply Hoth; [done|]. tauto. }
  set (p := Z.to_nat (physicalPage e)). assert (physicalPage e = Z.of_nat p) as Hp by (unfold p; lia). rewrite Hp.
  assert (p < 128)%nat as Hp128 by lia. assert (Z.of_nat (length (mainMemory m')) = 16384) as Hmem by (by rewrite Hm).
  change PageSize with 128. change (Z.to_nat 128) with 128%nat. rewrite buf_put_ok by (rewrite ?length_replicate; lia). cbn [mbind outcome_bind].
  destruct (arr_get_lt (GlobalPageTable m') (Z.of_nat p)) as (g & Hgp & ->); [rewrite Hg; change (Z.to_nat NumPhysPages) with 128%nat; lia|].
  cbn [mbind outcome_bind]. rewrite arr_set_lt by (rewrite Hg; change (Z.to_nat NumPhysPages) with 128%nat; lia). cbn [mbind outcome_bind].
  eexists. split; [reflexivity|]. rewrite Nat2Z.id in *. replace (Z.to_nat (Z.of_nat p * 128)) with (p * 128)%nat by lia.
  assert (forall q, splice (mainMemory m') (p * 128) (replicate 128 0) !! q =
    if decide (p * 128 <= q < p * 128 + 128)%nat then Some 0 else mainMemory m' !! q) as Hlk.
  { intros q. rewrite lookup_splice by (rewrite length_replicate; lia). rewrite length_replicate.
    case_decide; [|done]. apply lookup_replicate_2. lia. }
  split.
  - split; cbn [GlobalPageTable mainMemory with_global with_memory]; [by rewrite length_insert|]. rewrite length_splice by (rewrite length_replicate; lia). done.
  - done.
  - intros f Hf. rewrite (names_S _ _ _ _ He), Hp. intros Hn. cbn [GlobalPageTable mainMemory with_global with_memory]. destruct (decide (f = p)) as [->|Hne].
    + split; [unfold is_free; rewrite list_lookup_insert_eq; [done|by apply lookup_lt_Some in Hgp]|].
      intros o Ho. rewrite Hlk. by rewrite decide_True by lia.
    + destruct (Hmine f Hf) as [H1 H2]; [destruct Hn; [done|lia]|].
      split; [unfold is_free; by rewrite list_lookup_insert_ne|]. intros o Ho. rewrite Hlk, decide_False by lia. by apply H2.
  - intros f Hf. rewrite (names_S _ _ _ _ He), Hp. intros Hn. cbn [GlobalPageTable mainMemory with_global with_memory]. assert (f <> p) as Hne by (intros ->; tauto).
    destruct (Hoth f Hf) as [H1 H2]; [tauto|]. split; [by rewrite list_lookup_insert_ne|].
    intros o Ho. rewrite Hlk, decide_False by lia. by apply H2.
Qed.

Lemma deleteAddrSpace_ok sp a t m :
  frames_ok m -> pageTable sp = Some a -> tables m !! a = Some t -> length t = Z.to_nat NumPhysPages ->
  Forall (fun e => -1 <= physicalPage e < NumPhysPages) t ->
  exists m', deleteAddrSpace sp m = Ok (with_tables (delete a (tables m)) m') /\ freed t 128 m m'.
Proof.
  intros Hfo Hpt Ha Hl Hr. unfold deleteAddrSpace. rewrite Hpt. unfold get_table. rewrite Ha. cbn [mbind outcome_bind].
  change (Z.to_nat NumPhysPages) with 128%nat in Hl.
  edestruct (for_range_ind (fun i m' => freed t (Z.to_nat i) m m')) as (m' & HL & HF); [| | |rewrite HL; clear HL].
  - done.
  - split; [done|done| |done]. intros f _ Hn. by apply Exists_nil in Hn.
  - intros i m' Hi HF. change NumPhysPages with 128 in *. destruct (arr_get_lt t i) as (e & He & ->); [lia|]. cbn [mbind outcome_bind].
    destruct (free_frame_step t (Z.to_nat i) e m m' He (Forall_lookup_1 _ _ _ _ Hr He) HF) as (m'' & -> & HF').
    exists m''. split; [done|]. by rewrite Z2Nat.inj_add, Nat.add_1_r by lia.
  - cbn [mbind outcome_bind]. destruct (fr_same _ _ _ _ HF) as (_ & -> & _). by exists m'.
Qed.

(** ** Properties of the component *)
Lemma lookup_page_grow t n n' v sz w p : n <= n' -> lookup_page t n v sz w = inr p -> lookup_page t n' v sz w = inr p.
Proof.
  intros Hn. unfold lookup_page. destruct (misaligned v sz); [done|].
  destruct (Z.leb_spec n (vpn_of v)); [done|]. by rewrite (proj2 (Z.leb_gt n' _)) by lia.
Qed.

(** [Execute] after [Load] starts the program: the machine points to the
    new page table, every register is zero but PC = 0, NextPC = 4 and the stack
    pointer, which is 16 below the end of the address space, and what the
    machine reads at a virtual address of a segment is the program's byte. *)
Theorem execute_starts_program file fileName h m m' sp sp' a t :
  Loaded file fileName h m m' sp sp' a t -> length (registers m) = Z.to_nat NumTotalRegs -> tlb m = None ->
  0 <= total_size h -> divRoundUp (total_size h) PageSize <= NumPhysPages ->
  exists m'', Execute sp' m' = Ok m'' /\ space_wf m'' t /\ pageTableSize m'' = numPages sp' /\
    (forall i, 0 <= i < NumTotalRegs -> reg m'' i =
       if i =? NextPCReg then 4 else if i =? StackReg then numPages sp' * PageSize - 16 else 0) /\
    forall v p b, 0 <= v < MemorySize -> lookup_page t (pageTableSize m'') v 1 false = inr p ->
      program_byte file h v = Some b -> mainMemory m'' !! Z.to_nat p = Some b.
Proof.
  intros HL Hregs Htlb Hnn Hmax. pose proof HL as [Hsp [_ Htab] Hlt Hent Hbyte Hown _ (Hr & Ht & _ & [Hg Hm])].
  unfold Execute. rewrite InitRegisters_ok by by rewrite Hr. cbn [mbind outcome_bind]. eexists. split; [reflexivity|].
  change NumPhysPages with 128 in Hmax. change PageSize with 128 in *. change (Z.to_nat NumPhysPages) with 128%nat in *.
  pose proof (divRoundUp_bounds (total_size h) 128 Hnn ltac:(lia)) as Hb.
  pose proof (divRoundUp_nonneg (total_size h) 128 Hnn ltac:(lia)) as H0.
  assert (numPages sp' = divRoundUp (total_size h) 128) as Hnp by by rewrite Hsp.
  split; [|split; [done|split]].
  - split; cbn; [by rewrite Ht|exists a; by rewrite Hsp, Htab, lookup_insert_eq|lia| |done].
    apply Forall_lookup. intros j e Hj. rewrite Hent in Hj by (rewrite <- Hlt; by eapply lookup_lt_Some). injection Hj as <-.
    cbn. unfold frame_of, is_int. destruct (free_frames _ !! j) as [f|] eqn:Ej; [|lia].
    apply Hown, lookup_lt_Some in Ej. rewrite Hg in Ej. lia.
  - intros i Hi. cbn [numPages]. set (m0 := with_registers (replicate (Z.to_nat NumTotalRegs) 0) m').
    change (reg (with_space _ _ _ ?x) i) with (reg x i).
    rewrite !reg_set_reg by (done || lia). rewrite to_int_id by (unfold is_int; lia).
    assert (reg m0 i = 0) as -> by (unfold reg, m0; cbn [registers with_registers]; rewrite lookup_replicate_2 by lia; done).
    destruct (Z.eqb_spec StackReg i) as [<-|]; [done|]. destruct (Z.eqb_spec NextPCReg i) as [<-|]; [done|].
    rewrite (proj2 (Z.eqb_neq i NextPCReg)), (proj2 (Z.eqb_neq i StackReg)) by congruence. by destruct (PCReg =? i).
  - cbn [pageTableSize with_space mainMemory]. intros v p b Hv Hp Hpb. apply (Hbyte v p b); [done| |done].
    eapply lookup_page_grow; [|done]. change NumPhysPages with 128. lia.
Qed.

(** A context switch loses nothing of a user program: whatever ran in
    between, restoring a saved address space brings back all 40 registers, the
    page table and its size, and leaves memory, frames and page tables alone. *)
Theorem context_switch_roundtrip m sp m2 :
  length (registers m) = Z.to_nat NumTotalRegs -> length (registers m2) = Z.to_nat NumTotalRegs ->
  length (s_reg sp) = Z.to_nat NumTotalRegs ->
  exists sp' m3, SaveState m sp = Ok sp' /\ RestoreState sp' m2 = Ok m3 /\
    registers m3 = registers m /\ Machine.pageTable m3 = pageTable sp /\ pageTableSize m3 = numPages sp /\
    Machine.FileAddr m3 = FileAddr sp /\
    mainMemory m3 = mainMemory m2 /\ GlobalPageTable m3 = GlobalPageTable m2 /\ tables m3 = tables m2.
Proof.
  intros Hm Hm2 Hs. rewrite SaveState_ok by done. eexists _, _. split; [reflexivity|].
  rewrite RestoreState_ok by done. by split_and!.
Qed.

(** Deleting an address space.  The destructor clears and frees exactly the
    frames that its page table names, and no others; so, when every frame it
    names is owned by this table, it takes nothing from another program. *)
Theorem delete_space_correct sp a t m :
  frames_ok m -> pageTable sp = Some a -> tables m !! a = Some t -> length t = Z.to_nat NumPhysPages ->
  Forall (fun e => -1 <= physicalPage e < NumPhysPages) t ->
  exists m', deleteAddrSpace sp m = Ok m' /\ frames_ok m' /\ tables m' = delete a (tables m) /\
    registers m' = registers m /\
    (forall f, (f < 128)%nat -> names t 128 f ->
       is_free (GlobalPageTable m') f = true /\ forall o, (o < 128)%nat -> mainMemory m' !! (f * 128 + o)%nat = Some 0) /\
    (forall f g b, (f < 128)%nat -> GlobalPageTable m !! f = Some g -> RefPageTable g = Some b -> b <> a ->
       (forall e g, e ∈ t -> GlobalPageTable m !! Z.to_nat (physicalPage e) = Some g -> 0 <= physicalPage e ->
          RefPageTable g = Some a) ->
       GlobalPageTable m' !! f = Some g /\
       forall o, (o < 128)%nat -> mainMemory m' !! (f * 128 + o)%nat = mainMemory m !! (f * 128 + o)%nat).
Proof.
  intros Hfo Hpt Ha Hl Hr. destruct (deleteAddrSpace_ok sp a t m Hfo Hpt Ha Hl Hr) as (m' & -> & [Hok Hsame Hmine Hoth]).
  eexists. split; [reflexivity|]. split_and!; [exact Hok|done|apply Hsame|exact Hmine|].
  intros f g b Hf Hg Hb Hne Hown. cbn. rewrite <- Hg. apply Hoth; [done|]. intros Hn.
  unfold names in Hn. rewrite take_ge in Hn by (rewrite Hl; done). apply Exists_exists in Hn as (e & He & Hp).
  specialize (Hown e g He). rewrite Hp, Nat2Z.id in Hown. specialize (Hown Hg ltac:(lia)). congruence.
Qed.

(** The two translations agree: on a page table whose frames are in
    range, [AddrSpace::Translate] gives what the machine's own translation of
    a byte gives, except that it reports a read-only page before a page
    fault. *)
Theorem space_translate_agrees sp a t m v w e :
  pageTable sp = Some a -> tables m !! a = Some t -> is_uint v -> numPages sp <= Z.of_nat (length t) ->
  t !! Z.to_nat (v / PageSize) = Some e -> -1 <= physicalPage e < NumPhysPages ->
  exists m', Translate sp m v w = Ok (m',
    if (v / PageSize <? numPages sp) && w && readOnly e then inl ReadOnlyException else lookup_page t (numPages sp) v 1 w) /\
    mainMemory m' = mainMemory m /\ registers m' = registers m.
Proof.
  intros Hpt Ha Hv Hn He Hp. unfold Translate, lookup_page, vpn_of, offset_of, misaligned.
  unfold is_uint in Hv. rewrite to_uint_id by (unfold is_uint; lia). cbn [Z.eqb Pos.eqb andb orb].
  rewrite Z.quot_div_nonneg, Z.rem_mod_nonneg by (unfold PageSize; lia). change PageSize with 128 in *. change NumPhysPages with 128 in *.
  assert (0 <= v / 128) as Hd by (apply Z.div_pos; lia).
  destruct (Z.leb_spec (numPages sp) (v / 128)) as [Hle|Hlt].
  { rewrite (proj2 (Z.ltb_ge (v / 128) _)) by lia. by exists m. }
  rewrite (proj2 (Z.ltb_lt (v / 128) _)) by lia. unfold get_table. rewrite Hpt, Ha. cbn [mbind outcome_bind].
  rewrite (arr_get_Some _ _ _ Hd He). cbn [mbind outcome_bind andb]. rewrite He.
  destruct (w && readOnly e) eqn:Ew; [by exists m|]. rewrite orb_comm.
  destruct (negb (valid e) || (physicalPage e =? -1)) eqn:Ef; [by exists m|].
  assert (physicalPage e <> -1) as Hne by (apply orb_false_iff in Ef as [_ Ef]; by apply Z.eqb_neq).
  rewrite andb_comm in Ew. rewrite Ew. rewrite (proj2 (Z.leb_gt 128 _)) by lia.
  rewrite (proj2 (Z.leb_le 0 _)), (proj2 (Z.ltb_lt _ 128)) by lia. cbn [andb].
  rewrite arr_set_lt by lia. cbn [mbind outcome_bind]. pose proof (Z.mod_pos_bound v 128 ltac:(lia)) as Hm.
  rewrite to_uint_id by (unfold is_uint; lia). rewrite (proj2 (Z.ltb_lt _ MemorySize)) by (change MemorySize with 16384; lia).
  cbn [ASSERT mbind outcome_bind]. eexists. split; [reflexivity|]. done.
Qed.

(** ** A small program *)
Module LoadSim.
(** A header with eight bytes of code at address 0 and four bytes of data at
    address 128. *)
Definition header : list Z := concat (le_bytes 4 <$> [NOFFMAGIC; 0; 52; 8; 128; 60; 4; 0; 0; 0; 0; 0; 0]).
Definition program : list Z := header ++ [1; 2; 3; 4; 5; 6; 7; 8; 9; 10; 11; 12].
Definition name : list Z := [104; 97; 108; 116].
Definition disk : files := {[ name := program ]}.
Definition junk : AddrSpace := mkAddrSpace [] None 0 (replicate 40 0).

Lemma frames : frames_ok newMachine.
Proof. split; reflexivity. Qed.
Lemma sizes : sizes_ok (exec_header [] program).
Proof. vm_compute. repeat split; congruence. Qed.
Lemma seg_code : seg_wf program (code (exec_header [] program)).
Proof. right. vm_compute. repeat split; congruence. Qed.
Lemma seg_init : seg_wf program (initData (exec_header [] program)).
Proof. right. vm_compute. repeat split; congruence. Qed.
Lemma seg_ro : seg_wf program (readonlyData (exec_header [] program)).
Proof. left. vm_compute. congruence. Qed.
End LoadSim.

Lemma load_correct_witness :
  exists m' sp' a t, Load LoadSim.disk [] LoadSim.name LoadSim.junk newMachine = Ok (m', sp', true) /\
    Loaded LoadSim.program LoadSim.name (exec_header [] LoadSim.program) newMachine m' LoadSim.junk sp' a t.
Proof.
  pose proof (load_correct LoadSim.disk [] LoadSim.name LoadSim.junk newMachine LoadSim.frames) as HL.
  exact (proj2 HL LoadSim.sizes LoadSim.seg_code LoadSim.seg_init LoadSim.seg_ro).
Defined.

Lemma execute_starts_program_witness :
  exists m'' t, (exists m' sp', load_image LoadSim.program LoadSim.name (exec_header [] LoadSim.program) LoadSim.junk newMachine
      = Ok (m', sp', true) /\ Execute sp' m' = Ok m'') /\
    space_wf m'' t /\ reg m'' NextPCReg = 4 /\ reg m'' StackReg = 9 * 128 - 16.
Proof.
  pose proof (load_image_ok LoadSim.program LoadSim.name (exec_header [] LoadSim.program) newMachine LoadSim.junk LoadSim.frames
    LoadSim.sizes LoadSim.seg_code LoadSim.seg_init LoadSim.seg_ro) as HI.
  change ((noffMagic (exec_header [] LoadSim.program) =? NOFFMAGIC) &&
    (divRoundUp (total_size (exec_header [] LoadSim.program)) PageSize <=? NumPhysPages)) with true in HI.
  destruct HI as (m' & sp' & a & t & HI & HL).
  destruct (execute_starts_program _ _ _ _ _ _ _ _ _ HL eq_refl eq_refl ltac:(vm_compute; congruence) ltac:(vm_compute; congruence))
    as (m'' & HE & Hsp & _ & Hregs & _).
  exists m'', t. split; [exists m', sp'; split; [exact HI|exact HE]|]. split; [exact Hsp|].
  rewrite (Hregs NextPCReg), (Hregs StackReg) by (vm_compute; split; congruence).
  rewrite (lo_space _ _ _ _ _ _ _ _ _ HL). split; reflexivity.
Defined.

Lemma context_switch_roundtrip_witness :
  exists sp' m3, SaveState (set_reg 4 7 newMachine) LoadSim.junk = Ok sp' /\ RestoreState sp' newMachine = Ok m3 /\ reg m3 4 = 7.
Proof.
  destruct (context_switch_roundtrip (set_reg 4 7 newMachine) LoadSim.junk newMachine eq_refl eq_refl eq_refl)
    as (sp' & m3 & HS & HR & Hregs & _).
  exists sp', m3. split; [exact HS|]. split; [exact HR|]. unfold reg. rewrite Hregs. reflexivity.
Defined.

(** A program that owns frame 0, and another program's frame 5. *)
Module DeleteSim.
Definition table : list TranslationEntry := mkTE 0 0 true false false false [] :: replicate 127 unset_entry.
Definition space : AddrSpace := mkAddrSpace [] (Some 1%positive) 1 (replicate 40 0).
Definition globals : list GlobalEntry :=
  <[5%nat := mkGlobal 3 9 (Some 2%positive)]> (<[0%nat := mkGlobal 0 4 (Some 1%positive)]> (GlobalPageTable newMachine)).
Definition m : Machine := with_tables {[ 1%positive := table ]} (with_global globals newMachine).

Lemma table_range : Forall (fun e => -1 <= physicalPage e < NumPhysPages) table.
Proof.
  constructor; [cbn; unfold NumPhysPages; lia|]. apply Forall_replicate. cbn. unfold NumPhysPages. lia.
Qed.

Lemma table_owned e g :
  e ∈ table -> GlobalPageTable m !! Z.to_nat (physicalPage e) = Some g -> 0 <= physicalPage e -> RefPageTable g = Some 1%positive.
Proof.
  intros He Hg Hp. apply elem_of_cons in He as [->|He].
  - vm_compute in Hg. by injection Hg as <-.
  - apply elem_of_replicate in He as [-> _]. cbn in Hp. lia.
Qed.
End DeleteSim.

Lemma delete_space_correct_witness :
  exists m', deleteAddrSpace DeleteSim.space DeleteSim.m = Ok m' /\ is_free (GlobalPageTable m') 0 = true /\
    GlobalPageTable m' !! 5%nat = Some (mkGlobal 3 9 (Some 2%positive)).
Proof.
  destruct (delete_space_correct DeleteSim.space 1%positive DeleteSim.table DeleteSim.m) as (m' & HD & _ & _ & _ & Hmine & Hoth);
    [split; reflexivity|reflexivity|reflexivity|reflexivity|exact DeleteSim.table_range|].
  exists m'. split; [exact HD|]. split.
  - apply (Hmine 0%nat); [lia|]. left. reflexivity.
  - apply (Hoth 5%nat _ 2%positive); [lia|reflexivity|reflexivity|discriminate|exact DeleteSim.table_owned].
Defined.

Lemma space_translate_agrees_witness :
  exists m', Translate DeleteSim.space DeleteSim.m 12 true = Ok (m', inr 12).
Proof.
  destruct (space_translate_agrees DeleteSim.space 1%positive DeleteSim.table DeleteSim.m 12 true
    (mkTE 0 0 true false false false []) eq_refl eq_refl ltac:(unfold is_uint; lia) ltac:(vm_compute; congruence)
    eq_refl ltac:(vm_compute; split; congruence)) as (m' & HT & _).
  exists m'. exact HT.
Defined.
