(* ===== verification/Host.v ===== *)
(** * The host (src/code/lib/sysdep.cc, and the stub file system of
    src/code/filesys/filesys.h and openfile.h)

    The UNIX process that NachOS runs in, and the programs of src/code/shell:
    files behind names, descriptors with positions, the terminal and children.
    [sysdep.cc] wraps the calls on files; with FILESYS_STUB, the classes
    [FileSystem] and [OpenFile] are made of these.  The theorem is that what
    the rest of the development takes files to be, a map from names to bytes, is
    what these classes provide. *)

From stdpp Require Import gmap.
From S2P Require Import Prelude AddrSpace.
Open Scope Z_scope.

(** ** A process on the host *)

(** What a descriptor names: the terminal, or a file with a position and the
    ways it was opened. *)
Inductive descriptor :=
  | Terminal
  | OnFile (inode : positive) (pos : Z) (can_read can_write append : bool).

(** What the process does to the rest of the world. *)
Inductive event :=
  | Printed (bytes : list Z)
  | Forked (command : list Z) (child : Z)
  | Waited (id result : Z).

(** The names and the contents of the files, the descriptors, the characters
    that will be typed, the children not waited for, the number of forks so far
    and the events, latest first. *)
Record Process := mkProcess {
  p_names : gmap (list Z) positive;
  p_data : gmap positive (list Z);
  p_fds : gmap Z descriptor;
  p_input : list Z;
  p_children : list Z;
  p_forks : nat;
  p_events : list event;
}.

Definition with_data d p := mkProcess (p_names p) d (p_fds p) (p_input p) (p_children p) (p_forks p) (p_events p).
Definition with_names d p := mkProcess d (p_data p) (p_fds p) (p_input p) (p_children p) (p_forks p) (p_events p).
Definition with_fds f p := mkProcess (p_names p) (p_data p) f (p_input p) (p_children p) (p_forks p) (p_events p).
Definition with_input i p := mkProcess (p_names p) (p_data p) (p_fds p) i (p_children p) (p_forks p) (p_events p).
Definition with_children c n p := mkProcess (p_names p) (p_data p) (p_fds p) (p_input p) c n (p_events p).
Definition log (e : event) p := mkProcess (p_names p) (p_data p) (p_fds p) (p_input p) (p_children p) (p_forks p) (e :: p_events p).

(** The lowest descriptor not in use. *)
Fixpoint free_from {A} (n : nat) (i : Z) (fds : gmap Z A) : Z :=
  match n with
  | O => i
  | S n' => if decide (is_Some (fds !! i)) then free_from n' (i + 1) fds else i
  end.
Definition free_fd {A} (fds : gmap Z A) : Z := free_from (base.size fds) 0 fds.

(** What the host decides: whether an open, an unlink or a close fails (no
    permission, too many open files, no space, an error of the medium, ...), the
    most bytes that a read delivers and a write takes, [None] for a call that
    fails.  Any decisions are possible, at any call. *)
Class Host := mkHost {
  refuses_open : list Z -> Process -> bool;
  refuses_unlink : list Z -> Process -> bool;
  refuses_close : Z -> Process -> bool;
  delivers : Z -> Z -> Process -> option nat;
  accepts : Z -> list Z -> Process -> option nat;
}.

Section calls.
Context `{Host}.

(** open(2): -1 if the host refuses, or there is no file and none is to be made. *)
Definition host_open (name : list Z) (rd wr app creat trunc : bool) (p : Process) : Process * Z :=
  if refuses_open name p then (p, -1) else
  match p_names p !! name with
  | None =>
      if creat then
        let ino := fresh (dom (p_data p)) in
        let fd := free_fd (p_fds p) in
        (with_fds (<[fd := OnFile ino 0 rd wr app]> (p_fds p))
           (with_names (<[name := ino]> (p_names p)) (with_data (<[ino := []]> (p_data p)) p)), fd)
      else (p, -1)
  | Some ino =>
      let fd := free_fd (p_fds p) in
      (with_fds (<[fd := OnFile ino 0 rd wr app]> (p_fds p))
         (if trunc then with_data (<[ino := []]> (p_data p)) p else p), fd)
  end.

(** close(2); the descriptor is free again also when the call fails. *)
Definition host_close (fd : Z) (p : Process) : Process * Z :=
  match p_fds p !! fd with
  | None => (p, -1)
  | Some _ => (with_fds (delete fd (p_fds p)) p, if refuses_close fd p then -1 else 0)
  end.

(** unlink(2), and remove(3) of a file *)
Definition host_unlink (name : list Z) (p : Process) : Process * Z :=
  match p_names p !! name with
  | None => (p, -1)
  | Some _ => if refuses_unlink name p then (p, -1) else (with_names (delete name (p_names p)) p, 0)
  end.

(** read(2): the bytes, or [None] for -1. *)
Definition host_read (fd size : Z) (p : Process) : Process * option (list Z) :=
  match p_fds p !! fd with
  | None => (p, None)
  | Some Terminal =>
      (with_input (drop (Z.to_nat size) (p_input p)) p, Some (take (Z.to_nat size) (p_input p)))
  | Some (OnFile ino pos rd wr app) =>
      match delivers fd size p with
      | Some most =>
          if rd then
            let bs := take most (take (Z.to_nat size) (drop (Z.to_nat pos) (default [] (p_data p !! ino)))) in
            (with_fds (<[fd := OnFile ino (pos + Z.of_nat (length bs)) rd wr app]> (p_fds p)) p, Some bs)
          else (p, None)
      | None => (p, None)
      end
  end.

(** A file after a write: beyond its end, the gap reads as zeros; writing
    nothing changes nothing. *)
Definition written (c : list Z) (pos : Z) (bytes : list Z) : list Z :=
  if decide (bytes = []) then c else splice (c ++ replicate (Z.to_nat pos - length c) 0) (Z.to_nat pos) bytes.

(** write(2) *)
Definition host_write (fd : Z) (bytes : list Z) (p : Process) : Process * Z :=
  match p_fds p !! fd with
  | None => (p, -1)
  | Some Terminal => (log (Printed bytes) p, Z.of_nat (length bytes))
  | Some (OnFile ino pos rd wr app) =>
      match accepts fd bytes p with
      | Some most =>
          if wr then
            let c := default [] (p_data p !! ino) in
            let at_ := if app then Z.of_nat (length c) else pos in
            let bytes := take most bytes in
            (with_fds (<[fd := OnFile ino (at_ + Z.of_nat (length bytes)) rd wr app]> (p_fds p))
               (with_data (<[ino := written c at_ bytes]> (p_data p)) p), Z.of_nat (length bytes))
          else (p, -1)
      | None => (p, -1)
      end
  end.

(** lseek(2): [whence] is SEEK_SET (0), SEEK_CUR (1) or SEEK_END (2). *)
Definition host_lseek (fd offset whence : Z) (p : Process) : Process * Z :=
  match p_fds p !! fd with
  | None | Some Terminal => (p, -1)
  | Some (OnFile ino pos rd wr app) =>
      let base :=
        if whence =? 0 then Some 0 else if whence =? 1 then Some pos
        else if whence =? 2 then Some (Z.of_nat (length (default [] (p_data p !! ino)))) else None in
      match base with
      | Some b => if 0 <=? b + offset then (with_fds (<[fd := OnFile ino (b + offset) rd wr app]> (p_fds p)) p, b + offset) else (p, -1)
      | None => (p, -1)
      end
  end.

(** vfork(2) as the parent sees it: the host says which child it gets, or a
    negative number (0 is what the child sees); the child runs the command. *)
Definition host_vfork (host_child : nat -> Z) (command : list Z) (p : Process) : Process * Z :=
  let child := host_child (p_forks p) in
  (with_children (if child <? 0 then p_children p else child :: p_children p) (S (p_forks p)) (log (Forked command child) p), child).

(** waitpid(2) for one child, by its number. *)
Definition host_waitpid (id : Z) (p : Process) : Process * Z :=
  let result := if decide (id ∈ p_children p) then id else -1 in
  (with_children (filter (fun c => c <> id) (p_children p)) (p_forks p) (log (Waited id result) p), result).

End calls.

(** The lowest free descriptor is free. *)
Lemma free_from_spec {A} n i (fds : gmap Z A) :
  fds !! free_from n i fds = None \/ (free_from n i fds = i + Z.of_nat n /\ forall j, i <= j < i + Z.of_nat n -> is_Some (fds !! j)).
Proof.
  revert i. induction n as [|n IH]; intros i; cbn [free_from].
  - right. split; [lia|]. intros j Hj. lia.
  - case_decide as Hd; [|left; by apply eq_None_not_Some]. destruct (IH (i + 1)) as [Hf|[-> Hall]]; [by left|]. right. split; [lia|].
    intros j Hj. destruct (decide (j = i)) as [->|]; [done|]. apply Hall. lia.
Qed.

Lemma free_fd_free {A} (fds : gmap Z A) : fds !! free_fd fds = None.
Proof.
  unfold free_fd. destruct (free_from_spec (base.size fds) 0 fds) as [Hf|[-> Hall]]; [done|]. rewrite Z.add_0_l in *.
  apply eq_None_not_Some. intros Hs. set (X := list_to_set (seqZ 0 (Z.of_nat (base.size fds) + 1)) : gset Z).
  assert (X ⊆ dom fds) as Hsub.
  { intros j Hj. unfold X in Hj. rewrite elem_of_list_to_set, elem_of_seqZ in Hj. apply elem_of_dom.
    destruct (decide (j = Z.of_nat (base.size fds))) as [->|]; [done|]. apply Hall. lia. }
  apply subseteq_size in Hsub. unfold X in Hsub. rewrite size_list_to_set, length_seqZ, size_dom in Hsub by apply NoDup_seqZ. lia.
Qed.

Lemma free_from_nonneg {A} n i (fds : gmap Z A) : 0 <= i -> 0 <= free_from n i fds.
Proof. revert i. induction n as [|n IH]; intros i Hi; cbn [free_from]; [done|]. case_decide; [apply IH; lia|done]. Qed.


Lemma written_empty bytes : written [] 0 bytes = bytes.
Proof.
  unfold written. case_decide as E; [by rewrite E|]. unfold splice. change (Z.to_nat 0) with 0%nat. cbn [length Nat.sub replicate app].
  rewrite drop_nil, take_nil. apply app_nil_r.
Qed.

(** The same in one go: room for all of it, then the bytes. *)
Lemma written_WriteAt c pos bytes : 0 <= pos -> bytes <> [] -> WriteAt c bytes pos = Ok (written c pos bytes).
Proof.
  intros Hp Hb. unfold WriteAt, written. rewrite (proj2 (Z.leb_le 0 pos) Hp), decide_False by done. cbn [ASSERT mbind outcome_bind]. f_equal.
  unfold splice. f_equal; [|f_equal].
  - apply list_eq. intros i. destruct (decide (i < Z.to_nat pos)%nat) as [Hi|Hi]; [|by rewrite !lookup_take_ge by lia].
    rewrite !lookup_take_lt by lia. destruct (decide (i < length c)%nat); [by rewrite !lookup_app_l|].
    rewrite !lookup_app_r, !lookup_replicate_2 by lia. done.
  - apply list_eq. intros i. rewrite !lookup_drop. destruct (decide (Z.to_nat pos + length bytes + i < length c)%nat); [by rewrite !lookup_app_l by lia|].
    rewrite !lookup_app_r by lia. by rewrite !lookup_ge_None_2 by (rewrite length_replicate; lia).
Qed.

Section stub.
Context `{Host}.

(** ** sysdep.cc *)
Definition OpenForWrite (name : list Z) (p : Process) : outcome (Process * Z) :=
  let '(p, fd) := host_open name true true false true true p in
  _ ← ASSERT (0 <=? fd);
  Ok (p, fd).
Definition OpenForReadWrite (name : list Z) (crashOnError : bool) (p : Process) : outcome (Process * Z) :=
  let '(p, fd) := host_open name true true false false false p in
  _ ← ASSERT (negb crashOnError || (0 <=? fd));
  Ok (p, fd).

(** [Read]; [ReadPartial] is read(2) itself. *)
Definition Read (fd nBytes : Z) (p : Process) : outcome (Process * list Z) :=
  let '(p, r) := host_read fd nBytes p in
  let retVal := match r with Some bs => Z.of_nat (length bs) | None => -1 end in
  _ ← ASSERT (retVal =? nBytes);
  Ok (p, default [] r).
Definition ReadPartial (fd nBytes : Z) (p : Process) : Process * option (list Z) := host_read fd nBytes p.
Definition WriteFile (fd : Z) (buffer : list Z) (p : Process) : outcome Process :=
  let '(p, retVal) := host_write fd buffer p in
  _ ← ASSERT (retVal =? Z.of_nat (length buffer));
  Ok p.
Definition Lseek (fd offset whence : Z) (p : Process) : outcome Process :=
  let '(p, retVal) := host_lseek fd offset whence p in
  _ ← ASSERT (0 <=? retVal);
  Ok p.
Definition Tell (fd : Z) (p : Process) : Process * Z := host_lseek fd 0 1 p.
Definition Close (fd : Z) (p : Process) : outcome (Process * Z) :=
  let '(p, retVal) := host_close fd p in
  _ ← ASSERT (0 <=? retVal);
  Ok (p, retVal).

(** [Unlink]: the result as a [bool], so that failure is TRUE. *)
Definition Unlink (name : list Z) (p : Process) : Process * bool :=
  let '(p, r) := host_unlink name p in (p, negb (r =? 0)).

(** ** [OpenFile] with FILESYS_STUB *)
Record StubFile := mkStub { file : Z; currentOffset : Z }.

Definition newOpenFile (f : Z) : StubFile := mkStub f 0.
Definition deleteOpenFile (f : StubFile) (p : Process) : outcome Process := '(p, _) ← Close (file f) p; Ok p.
(** The bytes read; [None] is -1. *)
Definition stub_ReadAt (f : StubFile) (numBytes position : Z) (p : Process) : outcome (Process * option (list Z)) :=
  p ← Lseek (file f) position 0 p;
  Ok (ReadPartial (file f) numBytes p).
Definition stub_WriteAt (f : StubFile) (from : list Z) (position : Z) (p : Process) : outcome (Process * Z) :=
  p ← Lseek (file f) position 0 p;
  p ← WriteFile (file f) from p;
  Ok (p, Z.of_nat (length from)).
Definition stub_Read (f : StubFile) (numBytes : Z) (p : Process) : outcome (Process * StubFile * option (list Z)) :=
  '(p, r) ← stub_ReadAt f numBytes (currentOffset f) p;
  let numRead := match r with Some bs => Z.of_nat (length bs) | None => -1 end in
  o ← int_add (currentOffset f) numRead;
  Ok (p, mkStub (file f) o, r).
Definition stub_Write (f : StubFile) (from : list Z) (p : Process) : outcome (Process * StubFile * Z) :=
  '(p, numWritten) ← stub_WriteAt f from (currentOffset f) p;
  o ← int_add (currentOffset f) numWritten;
  Ok (p, mkStub (file f) o, numWritten).
Definition stub_Length (f : StubFile) (p : Process) : outcome (Process * Z) :=
  p ← Lseek (file f) 0 2 p;
  Ok (Tell (file f) p).

(** ** [FileSystem] with FILESYS_STUB *)
Definition stub_Create (name : list Z) (p : Process) : outcome (Process * bool) :=
  '(p, fileDescriptor) ← OpenForWrite name p;
  if fileDescriptor =? -1 then Ok (p, false)
  else '(p, _) ← Close fileDescriptor p; Ok (p, true).
Definition stub_Open (name : list Z) (p : Process) : outcome (Process * option StubFile) :=
  '(p, fileDescriptor) ← OpenForReadWrite name false p;
  if fileDescriptor =? -1 then Ok (p, None)
  else Ok (p, Some (newOpenFile fileDescriptor)).
Definition stub_Remove (name : list Z) (p : Process) : Process * bool :=
  let '(p, r) := Unlink name p in (p, negb r).

(** ** Files as names with bytes *)
Definition contents_of (p : Process) : files := omap (fun i => p_data p !! i) (p_names p).

(** Every name has a file of its own. *)
Record host_ok (p : Process) : Prop := {
  ho_data nm i : p_names p !! nm = Some i -> is_Some (p_data p !! i);
  ho_distinct nm nm' i : p_names p !! nm = Some i -> p_names p !! nm' = Some i -> nm = nm';
}.

(** [f] is open on the file [name]. *)
Definition opened (p : Process) (f : StubFile) (name : list Z) : Prop :=
  exists i pos, p_fds p !! file f = Some (OnFile i pos true true false) /\ p_names p !! name = Some i /\ 0 <= pos.

Lemma contents_lookup p nm : contents_of p !! nm = p_names p !! nm ≫= (fun i => p_data p !! i).
Proof. apply lookup_omap. Qed.

Lemma contents_update p name i c :
  host_ok p -> p_names p !! name = Some i -> contents_of (with_data (<[i := c]> (p_data p)) p) = <[name := c]> (contents_of p).
Proof.
  intros Hp Hn. apply map_eq. intros nm. rewrite contents_lookup. cbn [p_names p_data with_data].
  destruct (decide (nm = name)) as [->|Hne]; [rewrite lookup_insert_eq, Hn; cbn; apply lookup_insert_eq|].
  rewrite lookup_insert_ne, contents_lookup by done. destruct (p_names p !! nm) as [j|] eqn:Ej; [|done]. cbn.
  rewrite lookup_insert_ne; [done|]. intros ->. by apply Hne, (ho_distinct _ Hp nm name j).
Qed.

Lemma contents_fds f p : contents_of (with_fds f p) = contents_of p.
Proof. done. Qed.

Lemma opened_contents p f name : host_ok p -> opened p f name -> exists i c, p_names p !! name = Some i /\ p_data p !! i = Some c /\ contents_of p !! name = Some c.
Proof.
  intros Hp (i & pos & _ & Hn & _). destruct (ho_data _ Hp _ _ Hn) as [c Hc]. exists i, c. rewrite contents_lookup, Hn. done.
Qed.

(** [Lseek] to a position of an open file. *)
Lemma Lseek_opened p f name pos :
  opened p f name ->
  if 0 <=? pos then
    exists i, p_names p !! name = Some i /\
      Lseek (file f) pos 0 p = Ok (with_fds (<[file f := OnFile i pos true true false]> (p_fds p)) p)
  else Lseek (file f) pos 0 p = Err AssertFailed.
Proof.
  intros (i & q & Hf & Hn & _). unfold Lseek, host_lseek. rewrite Hf. cbn [Z.eqb]. cbn zeta. rewrite Z.add_0_l.
  destruct (Z.leb_spec 0 pos) as [Hp|Hp]; [|done]. exists i. split; [done|]. by rewrite (proj2 (Z.leb_le 0 pos) Hp).
Qed.

Lemma free_fd_nonneg {A} (fds : gmap Z A) : 0 <= free_fd fds.
Proof. apply free_from_nonneg. lia. Qed.

Lemma opened_other_fd p fd d g nm : p_fds p !! fd = None -> opened p g nm -> opened (with_fds (<[fd := d]> (p_fds p)) p) g nm.
Proof.
  intros Hfd (i & pos & Hf & Hn & H0). exists i, pos. split; [|done]. cbn [p_fds with_fds]. rewrite lookup_insert_ne; [done|congruence].
Qed.

(** [Create] stops NachOS in an assertion when the host refuses to open or to
    close the file; it never returns FALSE. *)
Lemma stub_Create_ok name p :
  host_ok p ->
  if refuses_open name p then stub_Create name p = Err AssertFailed
  else exists p1 fd, OpenForWrite name p = Ok (p1, fd) /\
    if refuses_close fd p1 then stub_Create name p = Err AssertFailed
    else exists p', stub_Create name p = Ok (p', true) /\ host_ok p' /\ contents_of p' = <[name := []]> (contents_of p) /\ p_fds p' = p_fds p.
Proof.
  intros Hp. set (fd := free_fd (p_fds p)). pose proof (free_fd_free (p_fds p)) as Hfree. pose proof (free_fd_nonneg (p_fds p)) as H0. fold fd in Hfree, H0.
  assert (forall p0 i, p_fds p0 = p_fds p -> let p1 := with_fds (<[fd := OnFile i 0 true true false]> (p_fds p)) p0 in
    Close fd p1 = if refuses_close fd p1 then Err AssertFailed else Ok (p0, 0)) as HC.
  { intros p0 i E p1. unfold Close, host_close. cbn [p_fds with_fds p1]. rewrite lookup_insert_eq. fold p1. destruct (refuses_close fd p1); [done|].
    cbn [Z.leb ASSERT mbind outcome_bind]. destruct p0. cbn in *. subst. by rewrite delete_insert_id. }
  unfold stub_Create, OpenForWrite, host_open. destruct (refuses_open name p); [done|].
  destruct (p_names p !! name) as [i|] eqn:En; fold fd; cbn iota beta;
    rewrite (proj2 (Z.leb_le 0 fd) H0); cbn [ASSERT mbind outcome_bind]; eexists _, fd; (split; [reflexivity|]);
    rewrite (proj2 (Z.eqb_neq fd (-1))) by lia; rewrite HC by done; (destruct (refuses_close fd _); [done|]); cbn [mbind outcome_bind]; eexists; (split; [done|]).
  - split; [|split; [by apply contents_update|done]]. destruct Hp as [H1 H2].
    split; cbn [p_names p_data with_data]; [|done]. intros nm j Hj. destruct (decide (j = i)) as [->|]; [rewrite lookup_insert_eq; eauto|].
    rewrite lookup_insert_ne by done. by eapply H1.
  - set (ino := fresh (dom (p_data p))).
    assert (p_data p !! ino = None) as Hino by apply not_elem_of_dom, is_fresh. destruct Hp as [H1 H2]. split; [|split; [|done]].
    + split; cbn [p_names p_data with_names with_data].
      * intros nm j Hj. destruct (decide (j = ino)) as [->|]; [rewrite lookup_insert_eq; eauto|]. rewrite lookup_insert_ne by done.
        destruct (decide (nm = name)) as [->|]; [rewrite lookup_insert_eq in Hj; congruence|]. rewrite lookup_insert_ne in Hj by done. by eapply H1.
      * intros nm nm' j [[<- <-]|[Hn Hj]]%lookup_insert_Some [[<- E]|[Hn' Hj']]%lookup_insert_Some; [done| | |by eapply H2].
        -- destruct (H1 _ _ Hj'). congruence.
        -- subst j. destruct (H1 _ _ Hj). congruence.
    + apply map_eq. intros nm. rewrite contents_lookup. cbn [p_names p_data with_names with_data].
      destruct (decide (nm = name)) as [->|]; [rewrite !lookup_insert_eq; cbn; apply lookup_insert_eq|].
      rewrite !lookup_insert_ne, contents_lookup by done. destruct (p_names p !! nm) as [j|] eqn:Ej; [|done]. cbn.
      rewrite lookup_insert_ne; [done|]. intros <-. destruct (H1 _ _ Ej). congruence.
Qed.

Lemma stub_Open_ok name p :
  host_ok p ->
  if refuses_open name p || bool_decide (contents_of p !! name = None) then stub_Open name p = Ok (p, None)
  else exists p' f, stub_Open name p = Ok (p', Some f) /\ host_ok p' /\ contents_of p' = contents_of p /\
      opened p' f name /\ currentOffset f = 0 /\ p_fds p !! file f = None /\ forall g nm, opened p g nm -> opened p' g nm.
Proof.
  intros Hp. rewrite contents_lookup. unfold stub_Open, OpenForReadWrite, host_open. destruct (refuses_open name p); [done|].
  destruct (p_names p !! name) as [i|] eqn:En; [|done].
  cbn [mbind option_bind orb]. destruct (ho_data _ Hp _ _ En) as [c ->]. pose proof (free_fd_free (p_fds p)) as Hfree.
  pose proof (free_fd_nonneg (p_fds p)) as H0. set (fd := free_fd (p_fds p)) in *. cbn [negb orb ASSERT mbind outcome_bind bool_decide decide_rel].
  rewrite bool_decide_eq_false_2 by done. rewrite (proj2 (Z.eqb_neq fd (-1))) by lia. eexists _, (newOpenFile fd). split; [done|]. split; [destruct Hp; by split|]. split; [done|].
  split; [exists i, 0; cbn [p_fds with_fds p_names]; by rewrite lookup_insert_eq|]. split; [done|]. split; [done|].
  intros g nm Hg. by apply opened_other_fd.
Qed.

Lemma stub_Remove_ok name p :
  host_ok p ->
  if refuses_unlink name p || bool_decide (contents_of p !! name = None) then stub_Remove name p = (p, false)
  else exists p', stub_Remove name p = (p', true) /\ host_ok p' /\ contents_of p' = delete name (contents_of p) /\ p_fds p' = p_fds p.
Proof.
  intros Hp. rewrite contents_lookup. unfold stub_Remove, Unlink, host_unlink.
  destruct (p_names p !! name) as [i|] eqn:En; cbn iota beta; [|cbn; by rewrite orb_true_r].
  cbn [mbind option_bind]. destruct (ho_data _ Hp _ _ En) as [c ->]. rewrite bool_decide_eq_false_2 by done.
  destruct (refuses_unlink name p); [done|]. cbn [orb]. eexists. split; [reflexivity|]. split; [|split; [|done]].
  - destruct Hp as [H1 H2]. split; cbn [p_names p_data with_names].
    + intros nm j [_ Hj]%lookup_delete_Some. by eapply H1.
    + intros nm nm' j [_ Hj]%lookup_delete_Some [_ Hj']%lookup_delete_Some. by eapply H2.
  - apply map_eq. intros nm. rewrite contents_lookup. cbn [p_names p_data with_names].
    destruct (decide (nm = name)) as [->|]; [by rewrite !lookup_delete_eq|]. by rewrite !lookup_delete_ne, contents_lookup.
Qed.

Lemma host_ok_data p i c : host_ok p -> host_ok (with_data (<[i := c]> (p_data p)) p).
Proof.
  intros [H1 H2]. split; cbn [p_names p_data with_data]; [|done]. intros nm j Hj.
  destruct (decide (j = i)) as [->|]; [rewrite lookup_insert_eq; eauto|]. rewrite lookup_insert_ne by done. by eapply H1.
Qed.

(** Reading and writing at a position, as on a list of bytes. *)
Lemma stub_ReadAt_ok p f name c n pos :
  host_ok p -> opened p f name -> contents_of p !! name = Some c ->
  match ReadAt c n pos with
  | Err e => stub_ReadAt f n pos p = Err e
  | Ok bs => exists p1 p', Lseek (file f) pos 0 p = Ok p1 /\
      stub_ReadAt f n pos p = Ok (p', match delivers (file f) n p1 with Some most => Some (take most bs) | None => None end) /\
      host_ok p' /\ contents_of p' = contents_of p /\ opened p' f name
  end.
Proof.
  intros Hp Ho Hc. pose proof (Lseek_opened p f name pos Ho) as HL. unfold ReadAt, stub_ReadAt. destruct (Z.leb_spec 0 pos) as [E0|E0]; [|by rewrite HL].
  destruct HL as (i & Hn & HL). rewrite HL. cbn [ASSERT mbind outcome_bind]. set (p1 := with_fds _ p). exists p1. unfold ReadPartial, host_read.
  cbn [p_fds with_fds p1]. rewrite lookup_insert_eq. fold p1. rewrite contents_lookup, Hn in Hc. cbn in Hc.
  assert (opened p1 f name) as Ho1 by (exists i, pos; cbn [p_fds with_fds p_names p1]; by rewrite lookup_insert_eq). assert (host_ok p1) as Hp1 by (destruct Hp; by split).
  destruct (delivers (file f) n p1) as [most|]; [|by exists p1].
  cbn [p_data with_fds p1]. rewrite Hc. cbn [default from_option id]. eexists. split; [done|]. split; [reflexivity|].
  split; [destruct Hp; by split|]. split; [done|]. eexists i, _. cbn [p_fds with_fds p_names].
  split; [apply lookup_insert_eq|]. split; [done|lia].
Qed.

(** The host takes all the bytes. *)
Definition takes_all (fd : Z) (bytes : list Z) (p : Process) : bool :=
  match accepts fd bytes p with Some most => (length bytes <=? most)%nat | None => false end.

Lemma stub_WriteAt_ok p f name c bytes pos :
  host_ok p -> opened p f name -> contents_of p !! name = Some c -> bytes <> [] ->
  match WriteAt c bytes pos with
  | Err e => stub_WriteAt f bytes pos p = Err e
  | Ok c' => exists p1, Lseek (file f) pos 0 p = Ok p1 /\
      if takes_all (file f) bytes p1 then
        exists p', stub_WriteAt f bytes pos p = Ok (p', Z.of_nat (length bytes)) /\ host_ok p' /\
          contents_of p' = <[name := c']> (contents_of p) /\ opened p' f name
      else stub_WriteAt f bytes pos p = Err AssertFailed
  end.
Proof.
  intros Hp Ho Hc Hb. pose proof (Lseek_opened p f name pos Ho) as HL. destruct (Z.leb_spec 0 pos) as [E0|E0].
  - rewrite written_WriteAt by done. destruct HL as (i & Hn & HL). unfold stub_WriteAt, takes_all. rewrite HL. cbn [mbind outcome_bind].
    set (p1 := with_fds _ p). exists p1. split; [done|]. unfold WriteFile, host_write. cbn [p_fds with_fds p1]. rewrite lookup_insert_eq. fold p1.
    assert ((-1 =? Z.of_nat (length bytes)) = false) as Hm1 by (apply Z.eqb_neq; lia).
    destruct (accepts (file f) bytes p1) as [most|]; [|by rewrite Hm1].
    rewrite contents_lookup, Hn in Hc. cbn in Hc. cbn [p_data with_fds p1]. rewrite Hc. cbn [default from_option id]. cbn zeta.
    destruct (Nat.leb_spec (length bytes) most) as [Hle|Hlt].
    + rewrite take_ge by done. rewrite (proj2 (Z.eqb_eq _ _)) by done. cbn [ASSERT mbind outcome_bind]. eexists. split; [reflexivity|].
      split; [destruct (host_ok_data p i (written c pos bytes) Hp); by split|]. split; [exact (contents_update p name i _ Hp Hn)|].
      eexists i, _. cbn [p_fds with_fds p_names with_data]. split; [apply lookup_insert_eq|]. split; [done|lia].
    + rewrite length_take, (proj2 (Z.eqb_neq _ _)) by lia. done.
  - unfold WriteAt, stub_WriteAt. rewrite (proj2 (Z.leb_gt 0 pos) E0). cbn [ASSERT mbind outcome_bind]. by rewrite HL.
Qed.

Lemma stub_Length_ok p f name c :
  host_ok p -> opened p f name -> contents_of p !! name = Some c ->
  exists p', stub_Length f p = Ok (p', Z.of_nat (length c)) /\ host_ok p' /\ contents_of p' = contents_of p /\ opened p' f name.
Proof.
  intros Hp (i & pos & Hf & Hn & H0) Hc. rewrite contents_lookup, Hn in Hc. cbn in Hc.
  unfold stub_Length, Lseek, Tell, host_lseek. rewrite Hf. cbn [Z.eqb Pos.eqb]. cbn zeta. rewrite Hc. cbn [default from_option id].
  rewrite !Z.add_0_r, (proj2 (Z.leb_le 0 (Z.of_nat (length c)))) by lia. cbn [ASSERT mbind outcome_bind].
  rewrite (proj2 (Z.leb_le 0 (Z.of_nat (length c)))) by lia. cbn [ASSERT mbind outcome_bind p_fds with_fds]. rewrite lookup_insert_eq.
  cbn [Z.eqb Pos.eqb]. rewrite Z.add_0_r, (proj2 (Z.leb_le 0 (Z.of_nat (length c)))) by lia.
  eexists. split; [reflexivity|]. split; [destruct Hp; by split|]. split; [done|]. eexists i, _. cbn [p_fds with_fds p_names].
  split; [apply lookup_insert_eq|]. split; [done|lia].
Qed.

(** C18: the stub file system.  The classes [FileSystem] and [OpenFile] of a
    build with FILESYS_STUB, made of UNIX calls on names, files, descriptors and
    positions, behave as a map from names to bytes, whatever the host refuses.
    [Create] makes the file empty whether or not there was one; if the host
    refuses to open or close it, NachOS stops in an assertion, and FALSE is never
    returned.  [Open] finds the file, or returns NULL if there is none or the
    host refuses, and disturbs no file already open.  [Remove] deletes the file
    and returns TRUE, or returns FALSE and changes nothing.  On an open file
    [ReadAt], [WriteAt] and [Length] are the operations on its bytes that the
    loader and the page fault handler are verified with: a negative position is
    a failed assertion; a read returns what the host delivers of the bytes, or
    -1; a write of which the host does not take every byte stops NachOS in
    an assertion. *)
Theorem stub_file_system_refines p f name :
  host_ok p ->
  (if refuses_open name p then stub_Create name p = Err AssertFailed
   else exists p1 fd, OpenForWrite name p = Ok (p1, fd) /\
     if refuses_close fd p1 then stub_Create name p = Err AssertFailed
     else exists p', stub_Create name p = Ok (p', true) /\ host_ok p' /\ contents_of p' = <[name := []]> (contents_of p) /\ p_fds p' = p_fds p) /\
  (if refuses_open name p || bool_decide (contents_of p !! name = None) then stub_Open name p = Ok (p, None)
   else exists p' f, stub_Open name p = Ok (p', Some f) /\ host_ok p' /\ contents_of p' = contents_of p /\
     opened p' f name /\ currentOffset f = 0 /\ p_fds p !! file f = None /\ forall g nm, opened p g nm -> opened p' g nm) /\
  (if refuses_unlink name p || bool_decide (contents_of p !! name = None) then stub_Remove name p = (p, false)
   else exists p', stub_Remove name p = (p', true) /\ host_ok p' /\ contents_of p' = delete name (contents_of p) /\ p_fds p' = p_fds p) /\
  (opened p f name -> exists c, contents_of p !! name = Some c /\
     (forall n pos, match ReadAt c n pos with
        | Err e => stub_ReadAt f n pos p = Err e
        | Ok bs => exists p1 p', Lseek (file f) pos 0 p = Ok p1 /\
            stub_ReadAt f n pos p = Ok (p', match delivers (file f) n p1 with Some most => Some (take most bs) | None => None end) /\
            host_ok p' /\ contents_of p' = contents_of p /\ opened p' f name
        end) /\
     (forall bytes pos, bytes <> [] -> match WriteAt c bytes pos with
        | Err e => stub_WriteAt f bytes pos p = Err e
        | Ok c' => exists p1, Lseek (file f) pos 0 p = Ok p1 /\
            if takes_all (file f) bytes p1 then
              exists p', stub_WriteAt f bytes pos p = Ok (p', Z.of_nat (length bytes)) /\ host_ok p' /\
                contents_of p' = <[name := c']> (contents_of p) /\ opened p' f name
            else stub_WriteAt f bytes pos p = Err AssertFailed
        end) /\
     exists p', stub_Length f p = Ok (p', Z.of_nat (length c)) /\ host_ok p' /\ contents_of p' = contents_of p /\ opened p' f name).
Proof.
  intros Hp. split_and!; [by apply stub_Create_ok|by apply stub_Open_ok|by apply stub_Remove_ok|]. intros Ho.
  destruct (opened_contents p f name Hp Ho) as (i & c & _ & _ & Hc). exists c. split; [done|]. split_and!.
  - intros n pos. by apply stub_ReadAt_ok.
  - intros bytes pos Hb. by apply stub_WriteAt_ok.
  - by apply stub_Length_ok.
Qed.

(** Deleting an open file frees its descriptor and nothing else, or stops in an
    assertion. *)
Lemma deleteOpenFile_ok p f name :
  opened p f name ->
  deleteOpenFile f p = if refuses_close (file f) p then Err AssertFailed else Ok (with_fds (delete (file f) (p_fds p)) p).
Proof. intros (i & pos & Hf & _). unfold deleteOpenFile, Close, host_close. rewrite Hf. by destruct (refuses_close (file f) p). Qed.
End stub.

(** ** Examples *)

(** A host that refuses nothing, and one whose disk is full: it creates no file
    and takes at most [room] bytes of a write. *)
Definition generous_host : Host :=
  mkHost (fun _ _ => false) (fun _ _ => false) (fun _ _ => false) (fun _ size _ => Some (Z.to_nat size)) (fun _ bytes _ => Some (length bytes)).
Definition full_host (room : nat) : Host :=
  mkHost (fun name p => bool_decide (p_names p !! name = None)) (fun _ _ => false) (fun _ _ => false) (fun _ size _ => Some (Z.to_nat size))
    (fun _ _ _ => Some room).

(** One file of two bytes, open at descriptor 3. *)
Module HostSim.
Definition p : Process :=
  mkProcess {[ [97] := 1%positive ]} {[ 1%positive := [10; 20] ]} {[ 3 := OnFile 1 0 true true false ]} [] [] 0 [].
Definition f : StubFile := mkStub 3 0.
Lemma ok : host_ok p.
Proof.
  split; cbn [p p_names p_data].
  - intros nm i [_ <-]%lookup_singleton_Some. eexists. reflexivity.
  - intros nm nm' i [<- _]%lookup_singleton_Some [<- _]%lookup_singleton_Some. reflexivity.
Qed.
Lemma open : opened p f [97].
Proof. exists 1%positive, 0. split; [reflexivity|]. split; [reflexivity|lia]. Qed.
End HostSim.

Lemma stub_file_system_refines_witness :
  (exists p', stub_WriteAt (H := full_host 1) HostSim.f [7] 3 HostSim.p = Ok (p', 1) /\ contents_of p' !! [97] = Some [10; 20; 0; 7]) /\
  stub_WriteAt (H := full_host 1) HostSim.f [7; 8] 3 HostSim.p = Err AssertFailed /\
  stub_Create (H := full_host 1) [98] HostSim.p = Err AssertFailed.
Proof.
  destruct (stub_file_system_refines (H := full_host 1) HostSim.p HostSim.f [97] HostSim.ok) as (_ & _ & _ & HO).
  destruct (HO HostSim.open) as (c & Hc & _ & HW & _). vm_compute in Hc. injection Hc as <-. split_and!.
  - destruct (HW [7] 3 ltac:(discriminate)) as (p1 & _ & p' & H1 & _ & H2 & _). exists p'. split; [exact H1|]. rewrite H2. apply lookup_insert_eq.
  - destruct (HW [7; 8] 3 ltac:(discriminate)) as (p1 & _ & H1). exact H1.
  - exact (proj1 (stub_file_system_refines (H := full_host 1) HostSim.p HostSim.f [98] HostSim.ok)).
Defined.
