(* ===== verification/Sockets.v ===== *)
(** * Sockets (src/code/lib/sysdep.cc: [OpenSocket], [CloseSocket],
    [InitSocketName], [AssignNameToSocket], [DeAssignNameToSocket];
    src/code/machine/network.cc: the constructor and destructor of
    [NetworkInput])

    The host's datagram sockets with names in the file system, and how a
    simulated machine opens and closes its own.  Network.v takes a socket to be
    a queue ([SocketLaws]); here a machine that has been constructed is shown to
    have one, whatever an earlier run has left behind. *)

From stdpp Require Import strings pretty.
From S2P Require Import Prelude Text Network AddrSpace Host.
#[local] Open Scope Z_scope.

(** The sockets of the host as one process sees them: names, each of a socket or
    of some other file; the descriptors of the process; and the datagrams that
    wait at every open socket, of this and of other processes. *)
Record Sockets := mkSockets {
  sk_names : gmap (list Z) (option positive);
  sk_fds : gmap Z positive;
  sk_queue : gmap positive (list (list Z));
}.

(** ** The host *)

(** A number that no socket and no name uses. *)
Definition fresh_socket (s : Sockets) : positive :=
  fresh (dom (sk_queue s) ∪ set_omap id (map_img (sk_names s) : gset (option positive)) : gset positive).

(** socket(2), when the process has not reached its [limit] of descriptors *)
Definition host_socket (limit : nat) (s : Sockets) : Sockets * Z :=
  if bool_decide (limit <= base.size (sk_fds s))%nat then (s, -1)
  else
    let fd := free_fd (sk_fds s) in
    let i := fresh_socket s in
    (mkSockets (sk_names s) (<[fd := i]> (sk_fds s)) (<[i := []]> (sk_queue s)), fd).

(** close(2) of the only descriptor of a socket; the name stays. *)
Definition host_close_socket (fd : Z) (s : Sockets) : Sockets * Z :=
  match sk_fds s !! fd with
  | None => (s, -1)
  | Some i => (mkSockets (sk_names s) (delete fd (sk_fds s)) (delete i (sk_queue s)), 0)
  end.

(** unlink(2) *)
Definition host_unlink_name (name : list Z) (s : Sockets) : Sockets * Z :=
  match sk_names s !! name with
  | None => (s, -1)
  | Some _ => (mkSockets (delete name (sk_names s)) (sk_fds s) (sk_queue s), 0)
  end.

(** bind(2): not to a name that exists, and not a second name. *)
Definition host_bind (fd : Z) (name : list Z) (s : Sockets) : Sockets * Z :=
  match sk_fds s !! fd with
  | None => (s, -1)
  | Some i =>
      if decide (is_Some (sk_names s !! name) \/ Some i ∈ (map_img (sk_names s) : gset (option positive))) then (s, -1)
      else (mkSockets (<[name := Some i]> (sk_names s)) (sk_fds s) (sk_queue s), 0)
  end.

(** sendto(2), recvfrom(2) and select(2) on datagram sockets *)
Definition host_sendto_name (name data : list Z) (s : Sockets) : Sockets * Z :=
  match sk_names s !! name with
  | Some (Some i) =>
      match sk_queue s !! i with
      | Some q => (mkSockets (sk_names s) (sk_fds s) (<[i := q ++ [data]]> (sk_queue s)), Z.of_nat (length data))
      | None => (s, -1)
      end
  | _ => (s, -1)
  end.
Definition inbound_of (fd : Z) (s : Sockets) : list (list Z) := default [] (sk_fds s !! fd ≫= (fun i => sk_queue s !! i)).
Definition host_recvfrom_fd (fd : Z) (s : Sockets) : Sockets * Z * list Z :=
  match sk_fds s !! fd, inbound_of fd s with
  | Some i, p :: q => (mkSockets (sk_names s) (sk_fds s) (<[i := q]> (sk_queue s)), Z.of_nat (length p), p)
  | _, _ => (s, -1, [])
  end.
Definition host_select_fd (fd : Z) (s : Sockets) : Z :=
  match sk_fds s !! fd with
  | None => -1
  | Some _ => match inbound_of fd s with [] => 0 | _ => 1 end
  end.

(** ** sysdep.cc *)
Definition OpenSocket (limit : nat) (s : Sockets) : outcome (Sockets * Z) :=
  let '(s, sockID) := host_socket limit s in
  _ ← ASSERT (0 <=? sockID);
  Ok (s, sockID).
Definition CloseSocket (sockID : Z) (s : Sockets) : Sockets := (host_close_socket sockID s).1.

(** [strcpy(uname->sun_path, name)] into 108 bytes *)
Definition InitSocketName (name : list Z) : outcome (list Z) :=
  if (length name <? 108)%nat then Ok name else Err Undefined.
Definition AssignNameToSocket (socketName : list Z) (sockID : Z) (s : Sockets) : outcome Sockets :=
  let '(s, _) := host_unlink_name socketName s in
  uName ← InitSocketName socketName;
  let '(s, retVal) := host_bind sockID uName s in
  _ ← ASSERT (0 <=? retVal);
  Ok s.
Definition DeAssignNameToSocket (socketName : list Z) (s : Sockets) : Sockets := (host_unlink_name socketName s).1.

(** ** network.cc *)

(** [sprintf(sockName, "SOCKET_%d", hostName)] *)
Definition sockName (hostName : Z) : list Z := text "SOCKET_" ++ number hostName.

(** The socket of [NetworkInput::NetworkInput] and [~NetworkInput]. *)
Definition open_input (limit : nat) (hostName : Z) (s : Sockets) : outcome (Sockets * Z) :=
  '(s, sock) ← OpenSocket limit s;
  s ← AssignNameToSocket (sockName hostName) sock s;
  Ok (s, sock).
Definition close_input (hostName sock : Z) (s : Sockets) : Sockets := DeAssignNameToSocket (sockName hostName) (CloseSocket sock s).

(** The host as the devices of this process use it. *)
Definition socket_view (sock : Z) : HostSockets Sockets :=
  Build_HostSockets Sockets (host_select_fd sock) (host_recvfrom_fd sock) (fun to p s => host_sendto_name (sockName to) p s).

(** ** What a machine gets *)

(** The socket [sock] of this process is the one that machine number [me] is
    reached by, and it has no other name. *)
Definition listening (me sock : Z) (s : Sockets) : Prop :=
  exists i q, sk_fds s !! sock = Some i /\ sk_queue s !! i = Some q /\ sk_names s !! sockName me = Some (Some i) /\
    forall nm, sk_names s !! nm = Some (Some i) -> nm = sockName me.

Lemma text_inj s t : text s = text t -> s = t.
Proof.
  revert t. induction s as [|c s IH]; intros [|d t]; cbn; try done. intros [= Hc Hs].
  f_equal; [|by apply IH]. apply N2Z.inj in Hc. rewrite <- (Ascii.ascii_N_embedding c), <- (Ascii.ascii_N_embedding d). by rewrite Hc.
Qed.

Lemma sockName_inj a b : sockName a = sockName b -> a = b.
Proof. unfold sockName, number. intros E%app_inv_head. apply text_inj in E. by apply (inj pretty). Qed.

Lemma fresh_socket_ok s : sk_queue s !! fresh_socket s = None /\ forall nm, sk_names s !! nm <> Some (Some (fresh_socket s)).
Proof.
  assert (fresh_socket s ∉ (dom (sk_queue s) ∪ set_omap id (map_img (sk_names s) : gset (option positive)) : gset positive)) as Hf
    by (unfold fresh_socket; apply is_fresh).
  apply not_elem_of_union in Hf as [H1 H2]. split; [by apply not_elem_of_dom|]. intros nm Hn. apply H2.
  apply elem_of_set_omap. exists (Some (fresh_socket s)). split; [|done]. by eapply elem_of_map_img_2.
Qed.

(** The constructor succeeds, even if the name is left from a run that was not
    closed, and leaves the sockets and the names of the other machines alone. *)
Lemma open_input_ok limit me s :
  (base.size (sk_fds s) < limit)%nat -> (length (sockName me) < 108)%nat ->
  exists s' sock, open_input limit me s = Ok (s', sock) /\ listening me sock s' /\ inbound_of sock s' = [] /\
    (forall nm, nm <> sockName me -> sk_names s' !! nm = sk_names s !! nm) /\
    (forall fd i, sk_fds s !! fd = Some i -> sk_fds s' !! fd = Some i) /\
    (forall i q, sk_queue s !! i = Some q -> sk_queue s' !! i = Some q).
Proof.
  intros Hlim Hlen. destruct (fresh_socket_ok s) as [Hq Hn]. set (i := fresh_socket s) in *. set (fd := free_fd (sk_fds s)).
  pose proof (free_fd_free (sk_fds s)) as Hfd. fold fd in Hfd.
  unfold open_input, OpenSocket, host_socket. rewrite bool_decide_false by lia. fold i fd.
  rewrite (proj2 (Z.leb_le 0 fd)) by apply free_fd_nonneg. cbn [ASSERT mbind outcome_bind].
  unfold AssignNameToSocket, InitSocketName. rewrite (proj2 (Nat.ltb_lt _ _)) by done.
  set (s1 := mkSockets (sk_names s) _ _).
  assert (exists r, host_unlink_name (sockName me) s1 = (mkSockets (delete (sockName me) (sk_names s)) (sk_fds s1) (sk_queue s1), r)) as [r ->].
  { unfold host_unlink_name. cbn [s1 sk_names]. destruct (sk_names s !! sockName me) eqn:E; eexists; [done|]. by rewrite delete_id. }
  cbn [mbind outcome_bind]. unfold host_bind. cbn [sk_fds s1 sk_names]. rewrite lookup_insert_eq. rewrite decide_False.
  2: { intros [[x Hx]|Hi]; [by rewrite lookup_delete_eq in Hx|]. apply elem_of_map_img in Hi as (nm & Hi).
       apply lookup_delete_Some in Hi as [_ Hi]. by apply Hn in Hi. }
  cbn [Z.leb Z.compare ASSERT mbind outcome_bind]. eexists _, fd. split; [reflexivity|]. split_and!.
  - exists i, []. cbn [sk_fds sk_queue sk_names s1]. rewrite !lookup_insert_eq. split_and!; [done..|]. intros nm Hnm.
    destruct (decide (nm = sockName me)) as [->|Hne]; [done|]. rewrite lookup_insert_ne in Hnm by done.
    apply lookup_delete_Some in Hnm as [_ Hnm]. by apply Hn in Hnm.
  - unfold inbound_of. cbn [sk_fds sk_queue s1]. rewrite lookup_insert_eq. cbn. by rewrite lookup_insert_eq.
  - intros nm Hne. cbn [sk_names]. rewrite lookup_insert_ne, lookup_delete_ne by done. done.
  - intros fd' j Hj. cbn [sk_fds s1]. rewrite lookup_insert_ne; [done|]. intros <-. congruence.
  - intros j q Hj. cbn [sk_queue s1]. rewrite lookup_insert_ne; [done|]. intros <-. congruence.
Qed.

(** Between construction and destruction the socket is what [SocketLaws] says, and
    datagrams for other machines do not reach it. *)
Theorem listening_socket me sock s :
  listening me sock s ->
  host_select_fd sock s = (if decide (inbound_of sock s = []) then 0 else 1) /\
  (forall p q, inbound_of sock s = p :: q -> exists s', host_recvfrom_fd sock s = (s', Z.of_nat (length p), p) /\
     inbound_of sock s' = q /\ listening me sock s') /\
  (forall p, exists s', host_sendto_name (sockName me) p s = (s', Z.of_nat (length p)) /\
     inbound_of sock s' = inbound_of sock s ++ [p] /\ listening me sock s') /\
  (forall to p s' r, to <> me -> host_sendto_name (sockName to) p s = (s', r) ->
     inbound_of sock s' = inbound_of sock s /\ listening me sock s') /\
  sk_names (close_input me sock s) !! sockName me = None.
Proof.
  intros (i & q0 & Hfd & Hq & Hn & Hu). assert (inbound_of sock s = q0) as Hin by (unfold inbound_of; rewrite Hfd; cbn; by rewrite Hq).
  split_and!.
  - unfold host_select_fd. rewrite Hfd, Hin. by destruct q0.
  - intros p q Hpq. unfold host_recvfrom_fd. rewrite Hfd, Hpq. eexists. split; [reflexivity|]. split.
    + unfold inbound_of. cbn [sk_fds sk_queue]. rewrite Hfd. cbn. by rewrite lookup_insert_eq.
    + exists i, q. cbn [sk_fds sk_queue sk_names]. by rewrite lookup_insert_eq.
  - intros p. unfold host_sendto_name. rewrite Hn, Hq. eexists. split; [reflexivity|]. split.
    + unfold inbound_of. cbn [sk_fds sk_queue]. rewrite Hfd. cbn. by rewrite lookup_insert_eq, Hq.
    + exists i, (q0 ++ [p]). cbn [sk_fds sk_queue sk_names]. by rewrite lookup_insert_eq.
  - intros to p s' r Hto. unfold host_sendto_name. destruct (sk_names s !! sockName to) as [[j|]|] eqn:Ej; [|intros [= <- <-]; split; [done|by exists i, q0]..].
    assert (j <> i) as Hji by (intros ->; apply Hu in Ej; by apply sockName_inj in Ej).
    destruct (sk_queue s !! j) as [qj|]; intros [= <- <-]; [|split; [done|by exists i, q0]].
    unfold inbound_of, listening. cbn [sk_fds sk_queue sk_names]. rewrite Hfd. cbn. rewrite lookup_insert_ne by done.
    split; [done|]. exists i, q0. by rewrite lookup_insert_ne.
  - unfold close_input, DeAssignNameToSocket, CloseSocket, host_close_socket. rewrite Hfd. unfold host_unlink_name. cbn [fst sk_names].
    rewrite Hn. cbn [fst sk_names]. apply lookup_delete_eq.
Qed.

(** A second process with the same number takes the name over: nothing that is
    sent to the number reaches the first one any more. *)
Lemma name_taken_over (me sock : Z) (s : Sockets) (names : gmap (list Z) (option positive)) (queue : gmap positive (list (list Z))) i j q :
  sk_fds s !! sock = Some i -> names !! sockName me = Some (Some j) -> i <> j -> queue !! j = Some q ->
  forall p, inbound_of sock (host_sendto_name (sockName me) p (mkSockets names (sk_fds s) queue)).1
    = inbound_of sock (mkSockets names (sk_fds s) queue).
Proof.
  intros Hfd Hn Hij Hq p. unfold host_sendto_name. cbn [sk_names sk_queue]. rewrite Hn, Hq. unfold inbound_of. cbn [fst sk_fds sk_queue].
  rewrite Hfd. cbn. by rewrite lookup_insert_ne.
Qed.

(** Once the machine has gone, [SendToSocket] tries ten times and drops the
    packet. *)
Lemma send_to_closed sock to p s :
  sk_names s !! sockName to = None -> p <> [] -> SendToSocket (H := socket_view sock) p to s = Ok s.
Proof.
  intros Hn Hp. unfold SendToSocket. generalize 10%nat as n. induction n as [|n IH]; [done|]. cbn [send_loop host_sendto socket_view].
  unfold host_sendto_name. rewrite Hn. destruct p as [|c p]; [done|]. cbn [length].
  rewrite (proj2 (Z.eqb_neq _ _)) by lia. cbn [Z.ltb Z.compare ASSERT mbind outcome_bind]. exact IH.
Qed.
