(* ===== verification/UserProgs.v ===== *)
(** * User programs (src/code/test, src/code/shell)

    The programs that exercise the virtual memory (sort.c, matmult.c), and the
    shell (test/shell.c, and shell/shell.c with its system call library
    shell/nachos_syscall.c, which runs on the host).  The programs are C text;
    they are modelled at that level, on arrays with checked bounds, a process
    that can [Exit], and, for the shell, the host process of Host.v. *)

From stdpp Require Import sorting.
From stdpp Require Import gmap.
From S2P Require Import Prelude Host.
Open Scope Z_scope.

(** ** sort.c *)
Module Sort.
Definition SIZE : Z := 1024.

(** The swap of two neighbours out of order. *)
Definition swap_step (j : Z) (A : list Z) : outcome (list Z) :=
  a ← arr_get A j;
  b ← arr_get A (j + 1);
  if b <? a then A ← arr_set A j b; arr_set A (j + 1) a
  else Ok A.

(** The two loops, for an array of [n] elements. *)
Definition sort (n : Z) (A : list Z) : outcome (list Z) :=
  for_range 0 n (fun _ A => for_range 0 (n - 1) swap_step A) A.

(** The loop that initialises the array, and the one that looks at the result;
    the status for [Exit]. *)
Definition init (n : Z) (A : list Z) : outcome (list Z) := for_range 0 n (fun i A => arr_set A i (n - 1 - i)) A.
Definition check (n : Z) (A : list Z) : outcome Z :=
  r ← for_until 0 n (fun i (_ : unit) => x ← arr_get A i; Ok (if negb (x =? i) then inr 1 else inl tt)) tt;
  Ok (match r with inl _ => 0 | inr status => status end).

(** [main] of an array of [n] elements; the program's has [SIZE]. *)
Definition main_of (n : Z) (A : list Z) : outcome Z :=
  A ← init n A;
  A ← sort n A;
  check n A.
Definition main (A : list Z) : outcome Z := main_of SIZE A.

(** Whatever is at or after [lo] is in order and not below anything before it. *)
Definition ordered_from (lo : Z) (A : list Z) : Prop :=
  forall p q x y, (p < q)%nat -> lo <= Z.of_nat q -> A !! p = Some x -> A !! q = Some y -> x <= y.
(** Element [m] is the largest up to there. *)
Definition top (m : Z) (A : list Z) : Prop :=
  forall p x y, Z.of_nat p <= m -> A !! p = Some x -> A !! Z.to_nat m = Some y -> x <= y.

Lemma swap_step_ok n lo j A :
  Z.of_nat (length A) = n -> 0 <= j < n - 1 -> 0 <= lo -> ordered_from lo A -> top (Z.min j (lo - 1)) A ->
  exists A', swap_step j A = Ok A' /\ A' ≡ₚ A /\ ordered_from lo A' /\ top (Z.min (j + 1) (lo - 1)) A'.
Proof.
  intros Hl Hj Hlo Ho Ht. unfold swap_step.
  destruct (arr_get_lt A j) as (a & Ha & ->); [lia|]. destruct (arr_get_lt A (j + 1)) as (b & Hb & ->); [lia|].
  cbn [mbind outcome_bind]. replace (Z.to_nat (j + 1)) with (S (Z.to_nat j)) in Hb by lia. destruct (Z.ltb_spec b a) as [Hlt|Hge].
  - rewrite arr_set_lt by lia. cbn [mbind outcome_bind]. rewrite arr_set_lt by (rewrite length_insert; lia).
    replace (Z.to_nat (j + 1)) with (S (Z.to_nat j)) by lia. set (A' := <[_:=_]> _).
    assert (j + 1 < lo) as Hjl.
    { destruct (Z_lt_le_dec (j + 1) lo); [done|]. pose proof (Ho (Z.to_nat j) (S (Z.to_nat j)) a b ltac:(lia) ltac:(lia) Ha Hb). lia. }
    assert (forall q, A' !! q = if decide (q = S (Z.to_nat j)) then Some a else if decide (q = Z.to_nat j) then Some b else A !! q) as HA.
    { intros q. unfold A'. destruct (decide (q = S (Z.to_nat j))) as [->|].
      - apply list_lookup_insert_eq. rewrite length_insert. lia.
      - rewrite list_lookup_insert_ne by done. destruct (decide (q = Z.to_nat j)) as [->|]; [apply list_lookup_insert_eq; lia|].
        by rewrite list_lookup_insert_ne. }
    exists A'. split; [done|]. split; [by apply Permutation_insert_swap|]. split.
    + intros p q x y Hpq Hq Hx Hy. rewrite HA in Hx, Hy. rewrite !decide_False in Hy by lia.
      repeat case_decide; simplify_eq; (eapply Ho; [|done| |exact Hy]; [|eassumption]; lia).
    + rewrite Z.min_l in Ht |- * by lia. intros p x y Hp Hx Hy. rewrite HA in Hx, Hy.
      rewrite decide_True in Hy by lia. injection Hy as <-. repeat case_decide; simplify_eq; [lia|lia|].
      eapply (Ht p x a); [lia|done|done].
  - exists A. split_and!; [done|done|done|]. destruct (Z_lt_le_dec (j + 1) lo) as [Hjl|Hjl].
    + rewrite Z.min_l in Ht |- * by lia. intros p x y Hp Hx Hy. replace (Z.to_nat (j + 1)) with (S (Z.to_nat j)) in Hy by lia.
      assert (y = b) as -> by congruence. destruct (decide (p = S (Z.to_nat j))) as [->|Hne]; [assert (x = b) by congruence; lia|].
      pose proof (Ht p x a ltac:(lia) Hx Ha). lia.
    + replace (Z.min (j + 1) (lo - 1)) with (Z.min j (lo - 1)) by lia. done.
Qed.

Lemma pass_ok n lo A :
  Z.of_nat (length A) = n -> 0 < lo <= n -> ordered_from lo A ->
  exists A', for_range 0 (n - 1) swap_step A = Ok A' /\ A' ≡ₚ A /\ ordered_from (lo - 1) A'.
Proof.
  intros Hl Hlo Ho.
  edestruct (for_range_ind (fun j A' => A' ≡ₚ A /\ ordered_from lo A' /\ top (Z.min j (lo - 1)) A')) as (A' & HL & Hp & Ho' & Ht);
    [| | |exists A'; rewrite HL; split; [done|]; split; [done|]].
  - lia.
  - split_and!; [done|done|]. rewrite Z.min_l by lia. intros p x y Hp Hx Hy. replace p with 0%nat in Hx by lia.
    change (Z.to_nat 0) with 0%nat in Hy. rewrite Hx in Hy. injection Hy as ->. lia.
  - intros j A' Hj (Hp & Ho' & Ht). destruct (swap_step_ok n lo j A') as (A'' & -> & Hp' & Ho'' & Ht''); [by rewrite Hp|lia|lia|done|done|].
    exists A''. split; [done|]. split_and!; [by rewrite Hp'|done|done].
  - rewrite Z.min_r in Ht by lia. intros p q x y Hpq Hq Hx Hy. destruct (decide (lo <= Z.of_nat q)); [by apply (Ho' p q)|].
    apply (Ht p x y); [lia|done|]. by replace (Z.to_nat (lo - 1)) with q by lia.
Qed.

Lemma sort_ok n A :
  Z.of_nat (length A) = n ->
  exists A', sort n A = Ok A' /\ A' ≡ₚ A /\ ordered_from 0 A'.
Proof.
  intros Hl. unfold sort.
  edestruct (for_range_ind (fun i A' => A' ≡ₚ A /\ ordered_from (n - i) A')) as (A' & HL & Hp & Ho);
    [| | |exists A'; rewrite HL; split; [done|]; split; [done|by rewrite Z.sub_diag in Ho]].
  - lia.
  - split; [done|]. intros p q x y _ Hq _ Hy. apply lookup_lt_Some in Hy. lia.
  - intros i A' Hi (Hp & Ho). destruct (pass_ok n (n - i) A') as (A'' & -> & Hp' & Ho'); [by rewrite Hp|lia|done|].
    exists A''. split; [done|]. split; [by rewrite Hp'|]. by replace (n - (i + 1)) with (n - i - 1) by lia.
Qed.

Lemma ordered_sorted A : ordered_from 0 A -> StronglySorted Z.le A.
Proof.
  induction A as [|x A IH]; intros Ho; [constructor|]. constructor.
  - apply IH. intros p q y z Hpq Hq Hy Hz. by apply (Ho (S p) (S q) y z); [lia|lia| |].
  - apply Forall_lookup. intros i y Hy. by apply (Ho 0%nat (S i) x y); [lia|lia| |].
Qed.

(** The array as it is initialised: [n - 1] down to 0. *)
Lemma init_ok n A : Z.of_nat (length A) = n -> init n A = Ok (reverse (seqZ 0 n)).
Proof.
  intros Hl. unfold init.
  edestruct (for_range_ind (fun i A' => Z.of_nat (length A') = n /\ forall p, Z.of_nat p < i -> A' !! p = Some (n - 1 - Z.of_nat p)))
    as (A' & HL & Hl' & HA); [| | |rewrite HL; f_equal].
  - lia.
  - split; [done|lia].
  - intros i A' Hi [Hl' HA]. rewrite arr_set_lt by lia. eexists. split; [done|]. rewrite length_insert. split; [done|].
    intros p Hp. destruct (decide (p = Z.to_nat i)) as [->|Hne].
    + rewrite list_lookup_insert_eq by lia. f_equal. lia.
    + rewrite list_lookup_insert_ne by done. apply HA. lia.
  - apply list_eq. intros p. destruct (decide (Z.of_nat p < n)) as [Hp|Hp].
    + rewrite HA, reverse_lookup by (rewrite ?length_seqZ; lia). rewrite length_seqZ, lookup_seqZ_lt by lia. f_equal. lia.
    + by rewrite !lookup_ge_None_2 by (rewrite ?length_reverse, ?length_seqZ; lia).
Qed.

Lemma check_ok n : 0 <= n -> check n (seqZ 0 n) = Ok 0.
Proof.
  intros Hn. unfold check.
  edestruct (for_until_ind (fun (_ : Z) (_ : unit) => True) (fun _ : Z => False)) as (r & HL & Hr); [| | |rewrite HL].
  - done.
  - done.
  - intros i [] Hi _. rewrite (arr_get_Some _ i i) by (lia || (rewrite lookup_seqZ_lt by lia; f_equal; lia)).
    cbn [mbind outcome_bind]. eexists. split; [done|]. rewrite (proj2 (Z.eqb_eq i i)) by done. done.
  - cbn [mbind outcome_bind]. by destruct r.
Qed.

Lemma main_of_ok n A : Z.of_nat (length A) = n -> main_of n A = Ok 0.
Proof.
  intros Hl. unfold main_of. rewrite init_ok by done. cbn [mbind outcome_bind].
  destruct (sort_ok n (reverse (seqZ 0 n))) as (A' & -> & Hp & Ho); [rewrite length_reverse, length_seqZ; lia|]. cbn [mbind outcome_bind].
  assert (A' = seqZ 0 n) as ->; [|apply check_ok; lia].
  apply (StronglySorted_unique Z.le); [exact (ordered_sorted _ Ho)| |rewrite Hp; apply reverse_Permutation].
  apply ordered_sorted. intros p q x y Hpq _ Hx Hy. apply lookup_seqZ in Hx as [-> _], Hy as [-> _]. lia.
Qed.
End Sort.

(** C39: sort.c sorts.  On an array of any length and contents the two loops
    return, without ever reaching outside the array, the sorted permutation of
    it, which is the only one; and the program itself, whatever its array held
    at first, finds every element in its place and calls [Exit(0)]. *)
Theorem sort_program_correct n A A0 :
  Z.of_nat (length A) = n -> Z.of_nat (length A0) = Sort.SIZE ->
  (exists A', Sort.sort n A = Ok A' /\ A' ≡ₚ A /\ StronglySorted Z.le A' /\
     forall B, B ≡ₚ A -> StronglySorted Z.le B -> B = A') /\
  Sort.main A0 = Ok 0.
Proof.
  intros Hl Hl0. split.
  - destruct (Sort.sort_ok n A Hl) as (A' & HS & Hp & Ho). apply Sort.ordered_sorted in Ho. exists A'. split_and!; [done..|].
    intros B HB HsB. eapply (StronglySorted_unique Z.le); [done|done|]. by rewrite HB.
  - exact (Sort.main_of_ok Sort.SIZE A0 Hl0).
Qed.

(** ** matmult.c *)
Module Matmult.
Definition Dim : Z := 20.
Definition get2 (M : list (list Z)) (i j : Z) : outcome Z := r ← arr_get M i; arr_get r j.
Definition set2 (M : list (list Z)) (i j x : Z) : outcome (list (list Z)) := r ← arr_get M i; r ← arr_set r j x; arr_set M i r.

(** [main]: the status of its [Exit]. *)
Definition main (A B C : list (list Z)) : outcome Z :=
  '(A, B, C) ← for_range 0 Dim (fun i s =>
    for_range 0 Dim (fun j '(A, B, C) =>
      A ← set2 A i j i;
      B ← set2 B i j j;
      C ← set2 C i j 0;
      Ok (A, B, C)) s) (A, B, C);
  C ← for_range 0 Dim (fun i C =>
    for_range 0 Dim (fun j C =>
      for_range 0 Dim (fun k C =>
        a ← get2 A i k;
        b ← get2 B k j;
        c ← get2 C i j;
        c ← int_add c (a * b);
        set2 C i j c) C) C) C;
  get2 C (Dim - 1) (Dim - 1).

Definition zeros : list (list Z) := replicate (Z.to_nat Dim) (replicate (Z.to_nat Dim) 0).
(** The status is the sum over [k] of 19 times 19. *)
Lemma main_status : main zeros zeros zeros = Ok (Dim * ((Dim - 1) * (Dim - 1))).
Proof. vm_compute. reflexivity. Qed.
End Matmult.

(** ** The library of the shell *)
Section forking.
Context `{Host} (host_child : nat -> Z).

(** ** nachos_syscall.c *)
Definition ConsoleInput : Z := 0.
Definition ConsoleOutput : Z := 1.
Definition RO : Z := 1.
Definition RW : Z := 2.
Definition APPEND : Z := 3.
Definition EPERM : Z := 1.

Definition Add (op1 op2 : Z) : outcome Z := int_add op1 op2.

(** [Exec]; a [SpaceId] is unsigned. *)
Definition Exec (exec_name : list Z) (p : Process) : Process * Z :=
  let '(p, child) := host_vfork host_child exec_name p in
  if child <? 0 then (p, EPERM) else (p, to_uint child).
Definition Join (id : Z) (p : Process) : Process * Z := host_waitpid (to_int id) p.

Definition Create (name : list Z) (p : Process) : Process * Z :=
  let '(p, fd) := host_open name false true false true true p in
  if 0 <? fd then let '(p, _) := host_close fd p in (p, 1) else (p, fd).
Definition Remove (name : list Z) (p : Process) : Process * Z := host_unlink name p.
Definition Delete (name : list Z) (p : Process) : Process * Z := host_unlink name p.

(** [O_APPEND] alone opens for reading. *)
Definition Open (name : list Z) (mode : Z) (p : Process) : Process * Z :=
  if mode =? RO then host_open name true false false false false p
  else if mode =? RW then host_open name true true false false false p
  else if mode =? APPEND then host_open name true false true false false p
  else (p, -1).
Definition Write (bytes : list Z) (id : Z) (p : Process) : Process * Z := host_write id bytes p.
Definition Read (size id : Z) (p : Process) : Process * option (list Z) := host_read id size p.

(** [Seek]: the arguments of [lseek] as the code gives them. *)
Definition Seek (position id : Z) (p : Process) : Process * Z := host_lseek id 0 position p.
Definition Close (id : Z) (p : Process) : Process * Z := host_close id p.

(** ** The shell *)
Definition newline : Z := 10.
Definition prompt : list Z := [45; 45].
Definition banner : list Z :=
  [78; 97; 99; 104; 79; 83; 45; 83; 72; 69; 76; 76; 32; 118; 101; 114; 32; 48; 46; 48; 10].
Definition exit_word : list Z := [101; 120; 105; 116].

(** The inner loop; [n] bounds its rounds.  A read that gets nothing leaves
    [buffer[i]] as it was. *)
Fixpoint read_line (n : nat) (i : Z) (buffer : list Z) (p : Process) : outcome (Process * list Z * Z) :=
  match n with
  | O => Err OutOfFuel
  | S n' =>
      let '(p, r) := Read 1 ConsoleInput p in
      buffer ← match r with Some [c] => arr_set buffer i c | _ => Ok buffer end;
      c ← arr_get buffer i;
      if negb (c =? newline) then read_line n' (i + 1) buffer p
      else Ok (p, buffer, i + 1)
  end.

(** The string in a buffer. *)
Fixpoint c_string (buffer : list Z) : list Z :=
  match buffer with
  | [] => []
  | c :: cs => if c =? 0 then [] else c :: c_string cs
  end.

(** A round of the loop that both shells have: prompt and line. *)
Definition get_command (buffer : list Z) (p : Process) : outcome (Process * list Z * Z) :=
  let '(p, _) := Write prompt ConsoleOutput p in
  '(p, buffer, i) ← read_line (S (length buffer)) 0 buffer p;
  let i := i - 1 in
  buffer ← arr_set buffer i 0;
  Ok (p, buffer, i).
Definition run_command (buffer : list Z) (i : Z) (p : Process) : Process :=
  if 0 <? i then
    let '(p, newProc) := Exec (c_string buffer) p in
    let '(p, _) := Join newProc p in p
  else p.

(** shell/shell.c, with [n] bounding the rounds: the status of its [Exit]. *)
Fixpoint host_shell_loop (n : nat) (buffer : list Z) (p : Process) : outcome (Process * Z) :=
  match n with
  | O => Err OutOfFuel
  | S n' =>
      '(p, buffer, i) ← get_command buffer p;
      if bool_decide (take 4 (c_string buffer) = exit_word) then Ok (p, 0)
      else host_shell_loop n' buffer (run_command buffer i p)
  end.
Definition host_shell (n : nat) (buffer : list Z) (p : Process) : outcome (Process * Z) :=
  let '(p, _) := Write banner ConsoleOutput p in host_shell_loop n buffer p.

(** test/shell.c: no banner and no way out. *)
Fixpoint nachos_shell (n : nat) (buffer : list Z) (p : Process) : outcome (Process * Z) :=
  match n with
  | O => Err OutOfFuel
  | S n' =>
      '(p, buffer, i) ← get_command buffer p;
      nachos_shell n' buffer (run_command buffer i p)
  end.

(** ** What the shell does with what is typed *)
Definition typeable (c : Z) : Prop := c <> newline /\ c <> 0.
Definition line_ok (l : list Z) : Prop := Forall typeable l /\ (length l < 60)%nat.
Definition is_exit (l : list Z) : Prop := take 4 l = exit_word.

(** The events of the lines [ls], from the [n]th fork on, the earliest first. *)
Fixpoint session (ls : list (list Z)) (n : nat) : list event :=
  match ls with
  | [] => []
  | l :: ls =>
      Printed prompt ::
      match l with
      | [] => session ls n
      | _ => Forked l (host_child n) ::
             (if host_child n <? 0 then Waited EPERM (-1) else Waited (host_child n) (host_child n)) :: session ls (S n)
      end
  end.
Definition typed (ls : list (list Z)) : list Z := concat (map (fun l => l ++ [newline]) ls).

(** The process of a shell: the two console descriptors, no children left. *)
Record shell_process (p : Process) : Prop := {
  sp_in : p_fds p !! ConsoleInput = Some Terminal;
  sp_out : p_fds p !! ConsoleOutput = Some Terminal;
  sp_children : p_children p = [];
}.

(** Reading a line that fits: the buffer holds it, with its newline. *)
Lemma read_line_ok l i buffer p n rest :
  p_fds p !! ConsoleInput = Some Terminal -> p_input p = l ++ newline :: rest -> Forall typeable l ->
  Z.of_nat i + Z.of_nat (length l) < Z.of_nat (length buffer) -> (length l < n)%nat ->
  read_line n (Z.of_nat i) buffer p =
    Ok (with_input rest p, take i buffer ++ l ++ newline :: drop (i + S (length l)) buffer, Z.of_nat (i + S (length l))).
Proof.
  revert i buffer p n. induction l as [|c l IH]; intros i buffer p n Hfd Hin Hl Hi Hn; (destruct n as [|n]; [cbn in Hn; lia|]);
    cbn [read_line length] in *; unfold Read, host_read; rewrite Hfd, Hin; cbn [app take drop]; change (Z.to_nat 1) with 1%nat; cbn [take drop];
    rewrite ?take_0, ?drop_0, arr_set_lt by lia; cbn [mbind outcome_bind]; rewrite Nat2Z.id.
  - rewrite (arr_get_Some _ _ newline) by (lia || (rewrite Nat2Z.id; apply list_lookup_insert_eq; lia)). cbn [mbind outcome_bind].
    change (newline =? newline) with true. cbn [negb]. do 2 f_equal; [f_equal|lia].
    rewrite insert_take_drop by lia. by rewrite Nat.add_1_r.
  - apply Forall_cons in Hl as [[Hc _] Hl].
    rewrite (arr_get_Some _ _ c) by (lia || (rewrite Nat2Z.id; apply list_lookup_insert_eq; lia)). cbn [mbind outcome_bind].
    rewrite (proj2 (Z.eqb_neq c newline)) by done. cbn [negb]. replace (Z.of_nat i + 1) with (Z.of_nat (S i)) by lia.
    rewrite (IH (S i) (<[i := c]> buffer) _ n); [|done|done|done|rewrite length_insert; lia|lia].
    replace (S i + S (length l))%nat with (i + S (S (length l)))%nat by lia. do 3 f_equal.
    rewrite drop_insert_lt by lia. rewrite (take_S_r _ _ c) by (apply list_lookup_insert_eq; lia). rewrite take_insert_ge by lia.
    by rewrite <- app_assoc.
Qed.

Lemma c_string_line l r : Forall typeable l -> c_string (l ++ 0 :: r) = l.
Proof. induction 1 as [|c l [_ Hc] _ IH]; [done|]. cbn [app c_string]. by rewrite (proj2 (Z.eqb_neq c 0) Hc), IH. Qed.

Lemma get_command_ok l buffer p rest :
  shell_process p -> p_input p = l ++ newline :: rest -> line_ok l -> length buffer = 60%nat ->
  get_command buffer p = Ok (with_input rest (log (Printed prompt) p), l ++ 0 :: drop (S (length l)) buffer, Z.of_nat (length l)).
Proof.
  intros [Hin Hout _] Hi [Hl Hlen] Hb. unfold get_command, Write, host_write. rewrite Hout, Hb.
  pose proof (read_line_ok l 0 buffer (log (Printed prompt) p) 61 rest Hin Hi Hl ltac:(lia) ltac:(lia)) as HR.
  change (Z.of_nat 0) with 0 in HR. rewrite HR. cbn [mbind outcome_bind take app].
  replace (Z.of_nat (0 + S (length l)) - 1) with (Z.of_nat (length l)) by lia. cbn [Nat.add].
  rewrite take_0. cbn [app]. rewrite arr_set_lt by (rewrite length_app, length_cons; lia). cbn [mbind outcome_bind]. rewrite Nat2Z.id.
  rewrite insert_app_r_alt, Nat.sub_diag by lia. done.
Qed.

(** One command that is not [exit]: its events, and nothing else changed. *)
Definition command_events (l : list Z) (n : nat) : list event :=
  match l with
  | [] => []
  | _ => [Forked l (host_child n); if host_child n <? 0 then Waited EPERM (-1) else Waited (host_child n) (host_child n)]
  end.
Definition forks_of (l : list Z) : nat := match l with [] => 0 | _ => 1 end.

Context (Hchild : forall n, is_int (host_child n)).

Lemma run_command_ok l r p :
  Forall typeable l -> p_children p = [] ->
  run_command (l ++ 0 :: r) (Z.of_nat (length l)) p =
    mkProcess (p_names p) (p_data p) (p_fds p) (p_input p) [] (p_forks p + forks_of l)
      (reverse (command_events l (p_forks p)) ++ p_events p).
Proof.
  intros Hl Hc. unfold run_command. destruct l as [|c l].
  - cbn. rewrite Nat.add_0_r. destruct p; cbn in *. by subst.
  - rewrite (proj2 (Z.ltb_lt 0 _)) by (cbn; lia). rewrite c_string_line by done. unfold Exec, Join, host_vfork, host_waitpid.
    pose proof (Hchild (p_forks p)) as Hi. unfold forks_of, command_events. rewrite Nat.add_1_r, Hc.
    destruct (Z.ltb_spec (host_child (p_forks p)) 0) as [Hneg|Hpos]; cbn -[to_int to_uint].
    + done.
    + rewrite to_int_to_uint, to_int_id by done. rewrite decide_False by tauto. rewrite decide_True by (by left). done.
Qed.

Lemma session_cons l ls n :
  session (l :: ls) n = Printed prompt :: command_events l n ++ session ls (n + forks_of l).
Proof. destruct l; cbn [session command_events forks_of app]; [by rewrite Nat.add_0_r|by rewrite Nat.add_1_r]. Qed.

(** The lines of a session, one after the other. *)
Lemma host_shell_lines ls m buffer p rest :
  shell_process p -> Forall (fun l => line_ok l /\ ~ is_exit l) ls -> p_input p = typed ls ++ rest -> length buffer = 60%nat ->
  exists buffer' p', host_shell_loop (length ls + m) buffer p = host_shell_loop m buffer' p' /\
    nachos_shell (length ls + m) buffer p = nachos_shell m buffer' p' /\
    length buffer' = 60%nat /\ (newline ∉ buffer -> newline ∉ buffer') /\ shell_process p' /\
    p_input p' = rest /\ p_names p' = p_names p /\ p_data p' = p_data p /\
    p_events p' = reverse (session ls (p_forks p)) ++ p_events p.
Proof.
  revert buffer p. induction ls as [|l ls IH]; intros buffer p Hp Hls Hin Hb.
  - exists buffer, p. by split_and!.
  - apply Forall_cons in Hls as [[Hl Hx] Hls]. unfold typed in Hin. cbn [map concat] in Hin. fold (typed ls) in Hin.
    rewrite <- !app_assoc in Hin. cbn [app] in Hin. cbn [length Nat.add host_shell_loop nachos_shell].
    rewrite (get_command_ok l buffer p (typed ls ++ rest)) by done. cbn [mbind outcome_bind].
    rewrite c_string_line by apply Hl. rewrite bool_decide_eq_false_2 by done.
    rewrite run_command_ok by (apply Hl || apply Hp).
    set (p1 := mkProcess _ _ _ _ _ _ _). set (b1 := l ++ _).
    destruct (IH b1 p1) as (b' & p' & H1 & H2 & H3 & H4 & H5 & H6 & H7 & H8 & H9).
    + destruct Hp. by split.
    + done.
    + done.
    + unfold b1. rewrite length_app. cbn [length]. rewrite length_drop. destruct Hl. lia.
    + exists b', p'. split_and!; try done.
      * intros Hnb. apply H4. unfold b1. rewrite elem_of_app, elem_of_cons. intros [Hm|[Hm|Hm]]; [|done|].
        -- destruct (proj1 (Forall_forall _ _) (proj1 Hl) newline Hm) as [Hne _]. by apply Hne.
        -- apply Hnb. rewrite <- (take_drop (S (length l)) buffer), elem_of_app. by right.
      * rewrite H9. unfold p1. cbn [p_events p_forks log with_input]. rewrite session_cons, reverse_cons, reverse_app, <- !app_assoc. done.
Qed.

(** Input without a newline where the line should end: the loop runs off the
    end of the buffer. *)
Lemma read_line_overrun n i buffer p :
  p_fds p !! ConsoleInput = Some Terminal -> newline ∉ buffer -> newline ∉ take (length buffer - i) (p_input p) ->
  (i <= length buffer)%nat -> (length buffer - i < n)%nat -> read_line n (Z.of_nat i) buffer p = Err Undefined.
Proof.
  revert i buffer p. induction n as [|n IH]; intros i buffer p Hfd Hb Hin Hi Hn; [lia|]. cbn [read_line]. unfold Read, host_read. rewrite Hfd.
  change (Z.to_nat 1) with 1%nat. destruct (decide (i = length buffer)) as [->|Hne].
  { destruct (p_input p) as [|c cs]; cbn [take]; rewrite ?take_0; [|by rewrite arr_set_ge by lia]. cbn [mbind outcome_bind]. by rewrite arr_get_ge by lia. }
  destruct (p_input p) as [|c cs] eqn:Ein; cbn [take drop]; rewrite ?take_0, ?drop_0.
  - cbn [mbind outcome_bind]. destruct (arr_get_lt buffer (Z.of_nat i)) as (c & Hc & ->); [lia|]. cbn [mbind outcome_bind].
    rewrite (proj2 (Z.eqb_neq c newline)) by (intros ->; apply Hb; by eapply list_elem_of_lookup_2). cbn [negb].
    replace (Z.of_nat i + 1) with (Z.of_nat (S i)) by lia. apply IH; [done|done| |lia|lia]. cbn. rewrite take_nil. by apply not_elem_of_nil.
  - rewrite arr_set_lt by lia. cbn [mbind outcome_bind]. rewrite Nat2Z.id.
    rewrite (arr_get_Some _ _ c) by (lia || (rewrite Nat2Z.id; apply list_lookup_insert_eq; lia)). cbn [mbind outcome_bind].
    replace (length buffer - i)%nat with (S (length buffer - S i)) in Hin by lia. cbn [take] in Hin. apply not_elem_of_cons in Hin as [Hc Hin].
    rewrite (proj2 (Z.eqb_neq c newline)) by congruence. cbn [negb]. replace (Z.of_nat i + 1) with (Z.of_nat (S i)) by lia.
    apply IH; [done| |cbn [p_input with_input]; by rewrite length_insert|rewrite length_insert; lia|rewrite length_insert; lia].
    rewrite insert_take_drop by lia. rewrite not_elem_of_app, not_elem_of_cons. split; [|split; [done|]]; intros Hm; apply Hb.
    + rewrite <- (take_drop i buffer), elem_of_app. by left.
    + rewrite <- (take_drop (S i) buffer), elem_of_app. by right.
Qed.

Lemma get_command_overrun buffer p :
  shell_process p -> newline ∉ buffer -> newline ∉ take (length buffer) (p_input p) -> get_command buffer p = Err Undefined.
Proof.
  intros [Hin Hout _] Hb Hi. unfold get_command, Write, host_write. rewrite Hout.
  pose proof (read_line_overrun (S (length buffer)) 0 buffer (log (Printed prompt) p) Hin Hb) as HR. rewrite Nat.sub_0_r in HR.
  change (Z.of_nat 0) with 0 in HR. by rewrite HR by (done || lia).
Qed.
End forking.

(** C40: a session with the shell of the host.  If lines that are typed fit its
    buffer and the last one begins with [exit], the shell returns status 0
    after exactly this: its banner, and for every line before the last a prompt
    and, unless the line is empty, the command run and waited for before the
    next prompt; it has read no character past the last line, every child that
    was started has been waited for, and no file has changed. *)
Theorem shell_session_correct `{Host} host_child ls q rest n buffer p :
  (forall k, is_int (host_child k)) -> shell_process p -> length buffer = 60%nat ->
  Forall (fun l => line_ok l /\ ~ is_exit l) ls -> line_ok q -> is_exit q ->
  p_input p = typed ls ++ q ++ newline :: rest -> (length ls < n)%nat ->
  exists p', host_shell host_child n buffer p = Ok (p', 0) /\ p_input p' = rest /\ p_children p' = [] /\
    p_names p' = p_names p /\ p_data p' = p_data p /\
    p_events p' = reverse (Printed banner :: session host_child ls (p_forks p) ++ [Printed prompt]) ++ p_events p.
Proof.
  intros Hch Hp Hb Hls Hq Hx Hin Hn. unfold host_shell, Write, host_write. rewrite (sp_out _ Hp).
  set (p0 := log (Printed banner) p). assert (shell_process p0) as Hp0 by (destruct Hp; by split).
  destruct (host_shell_lines host_child Hch ls (n - length ls) buffer p0 (q ++ newline :: rest) Hp0 Hls Hin Hb)
    as (b' & p' & H1 & _ & H3 & _ & H5 & H6 & H7 & H8 & H9).
  replace (length ls + (n - length ls))%nat with n in H1 by lia. rewrite H1. destruct (n - length ls)%nat as [|m] eqn:Em; [lia|].
  cbn [host_shell_loop]. rewrite (get_command_ok q b' p' rest) by done. cbn [mbind outcome_bind]. rewrite c_string_line by apply Hq.
  rewrite bool_decide_eq_true_2 by done. eexists. split; [reflexivity|]. split_and!; [done|apply H5|done|done|]. cbn [p_events log with_input].
  rewrite H9. cbn [p0 log p_events p_forks]. rewrite reverse_cons, reverse_app, <- app_assoc. done.
Qed.

(** A shell does not survive a line it has no room for, nor the end of its
    input.  If after some lines the input ends, or goes on for sixty characters,
    without a newline, both shells write or read past the end of the buffer. *)
Theorem shell_buffer_overrun `{Host} host_child ls tail n buffer p :
  (forall k, is_int (host_child k)) -> shell_process p -> length buffer = 60%nat -> newline ∉ buffer ->
  Forall (fun l => line_ok l /\ ~ is_exit l) ls -> p_input p = typed ls ++ tail -> newline ∉ take 60 tail -> (length ls < n)%nat ->
  host_shell host_child n buffer p = Err Undefined /\ nachos_shell host_child n buffer p = Err Undefined.
Proof.
  intros Hch Hp Hb Hnl Hls Hin Ht Hn. assert (exists m, n = (length ls + S m)%nat) as [m ->] by (exists (n - length ls - 1)%nat; lia). split.
  - unfold host_shell, Write, host_write. rewrite (sp_out _ Hp).
    set (p0 := log (Printed banner) p). assert (shell_process p0) as Hp0 by (destruct Hp; by split).
    destruct (host_shell_lines host_child Hch ls (S m) buffer p0 tail Hp0 Hls Hin Hb) as (b' & p' & -> & _ & H3 & H4 & H5 & H6 & _).
    cbn [host_shell_loop]. rewrite get_command_overrun by (rewrite ?H3, ?H6; auto). done.
  - destruct (host_shell_lines host_child Hch ls (S m) buffer p tail Hp Hls Hin Hb) as (b' & p' & _ & -> & H3 & H4 & H5 & H6 & _).
    cbn [nachos_shell]. rewrite get_command_overrun by (rewrite ?H3, ?H6; auto). done.
Qed.

(** ** The file calls of the library *)

(** [Seek] gives [lseek] the offset 0 and the position as the base. *)
Theorem seek_misses_position position id ino pos rd wr app p c :
  p_fds p !! id = Some (OnFile ino pos rd wr app) -> p_data p !! ino = Some c -> 0 <= pos ->
  Seek position id p =
    let move q := (with_fds (<[id := OnFile ino q rd wr app]> (p_fds p)) p, q) in
    if position =? 0 then move 0 else if position =? 1 then move pos
    else if position =? 2 then move (Z.of_nat (length c)) else (p, -1).
Proof.
  intros Hf Hd Hpos. unfold Seek, host_lseek. rewrite Hf, Hd. cbn zeta.
  destruct (position =? 0); [done|]. destruct (position =? 1); [by rewrite Z.add_0_r, (proj2 (Z.leb_le 0 pos))|].
  destruct (position =? 2); [|done]. cbn [default from_option]. by rewrite Z.add_0_r, (proj2 (Z.leb_le 0 _)) by lia.
Qed.

(** A host that grants what is asked of it. *)
Record obliging `{Host} : Prop := {
  ob_open name p : refuses_open name p = false;
  ob_read fd size p : exists most, delivers fd size p = Some most /\ (Z.to_nat size <= most)%nat;
  ob_write fd bytes p : exists most, accepts fd bytes p = Some most /\ (length bytes <= most)%nat;
}.

(** The file calls of the host library.  On a host that grants them, and in a
    process that has not closed its standard input, a file that is created, whether or not there was one
    of that name, and opened for reading and writing gives back, after a [Seek]
    to its beginning, exactly the bytes written to it; only descriptors that
    were free are used, and every other file keeps its contents.  Opened with
    APPEND the file cannot be written to at all. *)
Theorem file_calls_roundtrip `{Host} name bytes p :
  obliging -> is_Some (p_fds p !! 0) ->
  exists p1 p2 p3 p4 p5 fd ino,
    Create name p = (p1, 1) /\ Open name RW p1 = (p2, fd) /\ p_fds p !! fd = None /\
    Write bytes fd p2 = (p3, Z.of_nat (length bytes)) /\ Seek 0 fd p3 = (p4, 0) /\
    Read (Z.of_nat (length bytes)) fd p4 = (p5, Some bytes) /\
    p_data p5 !! ino = Some bytes /\ p_names p5 !! name = Some ino /\
    (forall i, i <> ino -> p_data p5 !! i = p_data p !! i) /\ (forall nm, nm <> name -> p_names p5 !! nm = p_names p !! nm) /\
    let '(pa, fda) := Open name APPEND p1 in Write bytes fda pa = (pa, -1).
Proof.
  intros [Hop Hrd Hwr] Hin. set (fd := free_fd (p_fds p)). pose proof (free_fd_free (p_fds p)) as Hfree. fold fd in Hfree.
  assert (0 < fd) as Hpos.
  { assert (0 <= fd) by (apply free_from_nonneg; lia).
    destruct (decide (fd = 0)) as [E|]; [|lia]. rewrite E in Hfree. by rewrite Hfree in Hin; destruct Hin. }
  set (ino := match p_names p !! name with Some i => i | None => fresh (dom (p_data p)) end).
  set (p1 := with_names (<[name := ino]> (p_names p)) (with_data (<[ino := []]> (p_data p)) p)).
  assert (Create name p = (p1, 1)) as HC.
  { unfold Create, host_open, p1, ino. rewrite Hop. destruct (p_names p !! name) as [i|] eqn:En; fold fd; cbn iota beta;
      rewrite (proj2 (Z.ltb_lt 0 fd) Hpos); unfold host_close; cbn [p_fds with_fds]; rewrite lookup_insert_eq; cbn iota beta.
    - rewrite (insert_id (p_names p) name i En). destruct p. cbn in *. by rewrite delete_insert_id.
    - destruct p. cbn in *. by rewrite delete_insert_id. }
  assert (forall rd wr app, host_open name rd wr app false false p1 = (with_fds (<[fd := OnFile ino 0 rd wr app]> (p_fds p)) p1, fd)) as HO.
  { intros. unfold host_open, p1. rewrite Hop. cbn [p_names with_names]. rewrite lookup_insert_eq. done. }
  assert (written (default [] (p_data p1 !! ino)) 0 bytes = bytes) as HS.
  { unfold p1. cbn [p_data with_names with_data]. rewrite lookup_insert_eq. apply written_empty. }
  eexists p1, _, _, _, _, fd, ino. split; [done|]. split; [apply HO|]. split; [done|].
  split.
  { unfold Write, host_write. cbn [p_fds with_fds]. rewrite lookup_insert_eq. match goal with |- context [accepts ?a ?b ?c] => destruct (Hwr a b c) as (m & -> & Hm) end.
    rewrite take_ge by done. cbn [p_data with_fds]. cbn zeta. rewrite HS. reflexivity. }
  split; [unfold Seek, host_lseek; cbn [p_fds with_fds]; rewrite lookup_insert_eq; reflexivity|].
  split.
  { unfold Read, host_read. cbn [p_fds with_fds]. rewrite lookup_insert_eq. match goal with |- context [delivers ?a ?b ?c] => destruct (Hrd a b c) as (m & -> & Hm) end.
    cbn [p_data with_data with_fds]. rewrite lookup_insert_eq.
    cbn [default from_option]. change (Z.to_nat (0 + 0)) with 0%nat. rewrite drop_0, Nat2Z.id, (take_ge bytes), take_ge by (rewrite ?Nat2Z.id in Hm; lia). reflexivity. }
  cbn [p_data p_names with_fds with_data with_names p1]. split; [apply lookup_insert_eq|]. split; [apply lookup_insert_eq|].
  split; [intros i Hi; by rewrite !lookup_insert_ne|]. split; [intros nm Hnm; by rewrite lookup_insert_ne|].
  change (Open name APPEND p1) with (host_open name true false true false false p1). rewrite HO.
  unfold Write, host_write. cbn [p_fds with_fds]. rewrite lookup_insert_eq. by destruct (accepts _ _ _).
Qed.

(** ** Examples *)
Module ShellSim.
Definition p0 (input : list Z) : Process :=
  mkProcess ∅ ∅ {[ 0 := Terminal; 1 := Terminal ]} input [] 0 [].
Definition child (n : nat) : Z := 100 + Z.of_nat (n mod 2).
Lemma child_int n : is_int (child n).
Proof. unfold child, is_int. pose proof (Nat.mod_upper_bound n 2 ltac:(lia)). lia. Qed.
Definition buffer : list Z := replicate 60 7.
Lemma shell0 input : shell_process (p0 input).
Proof. by split. Qed.
Lemma generous : obliging (H := generous_host).
Proof. split; intros; eauto. Qed.
End ShellSim.

Lemma sort_program_correct_witness :
  Sort.sort 3 [5; -1; 5] = Ok [-1; 5; 5] /\ Sort.main (replicate 1024 0) = Ok 0.
Proof.
  assert (Z.of_nat (length (replicate 1024 0)) = Sort.SIZE) as Hl by (rewrite length_replicate; reflexivity).
  destruct (sort_program_correct 3 [5; -1; 5] (replicate 1024 0) eq_refl Hl) as [_ HM]. split; [reflexivity|exact HM].
Defined.

(** The line [ls] and the line [exit]. *)
Lemma shell_session_correct_witness :
  exists p', host_shell (H := generous_host) ShellSim.child 2 ShellSim.buffer (ShellSim.p0 [108; 115; 10; 101; 120; 105; 116; 10]) = Ok (p', 0) /\
    p_events p' = [Printed prompt; Waited 100 100; Forked [108; 115] 100; Printed prompt; Printed banner].
Proof.
  destruct (shell_session_correct (H := generous_host) ShellSim.child [[108; 115]] [101; 120; 105; 116] [] 2 ShellSim.buffer
    (ShellSim.p0 [108; 115; 10; 101; 120; 105; 116; 10]) ShellSim.child_int (ShellSim.shell0 _) eq_refl) as (p' & HS & _ & _ & _ & _ & HE).
  - repeat constructor; cbn; unfold newline; try lia. intros E. discriminate E.
  - split; [repeat constructor; cbn; unfold newline; lia|cbn; lia].
  - reflexivity.
  - reflexivity.
  - cbn. lia.
  - exists p'. split; [exact HS|]. rewrite HE. reflexivity.
Defined.

Lemma shell_buffer_overrun_witness :
  host_shell (H := generous_host) ShellSim.child 1 ShellSim.buffer (ShellSim.p0 []) = Err Undefined.
Proof.
  apply (shell_buffer_overrun (H := generous_host) ShellSim.child [] [] 1 ShellSim.buffer (ShellSim.p0 []) ShellSim.child_int (ShellSim.shell0 _) eq_refl).
  - intros E. apply (bool_decide_eq_true_2 _) in E. vm_compute in E. discriminate E.
  - constructor.
  - reflexivity.
  - intros E. inversion E.
  - cbn. lia.
Defined.

Lemma file_calls_roundtrip_witness :
  exists p1 p2 fd, Create (H := generous_host) [97] (ShellSim.p0 []) = (p1, 1) /\ Open (H := generous_host) [97] RW p1 = (p2, fd) /\ fd = 2.
Proof.
  destruct (file_calls_roundtrip (H := generous_host) [97] [1; 2; 3] (ShellSim.p0 []) ShellSim.generous ltac:(eexists; reflexivity)) as (p1 & p2 & _ & _ & _ & fd & _ & HC & HO & _).
  exists p1, p2, fd. split; [exact HC|]. split; [exact HO|]. vm_compute in HC. injection HC as <-. vm_compute in HO. injection HO as _ <-. reflexivity.
Defined.
