(* ===== verification/Coff.v ===== *)
(** * The object format converter (src/coff2noff/coff2noff.c, coff.h, noff.h)

    User programs are linked as MIPS COFF files; [coff2noff] turns one into a
    NOFF file, the format that [AddrSpace::Load] reads.  The converter is a
    host process of its own: it ends with a status, after printing a message,
    and leaves a disk behind.  Both descriptors name files of that disk, so
    that a file converted onto itself is truncated before it is read.  The
    build has 32-bit [long]; the host is little-endian. *)

From S2P Require Import Prelude Machine AddrSpace.

(** ** The process *)
Inductive message :=
  | Usage
  | CannotOpen
  | FileTooShort
  | UnableToWrite
  | NotMipsel
  | NotOmagic
  | BothBss
  | UnknownSegment
  | Converted.

(** A piece of the program returns, ends the process, or does something that C
    does not define. *)
Inductive proc (A : Type) :=
  | Ret (a : A)
  | Exit (status : Z) (msg : message) (d : files)
  | Stuck.
Arguments Ret {A} a.
Arguments Exit {A} status msg d.
Arguments Stuck {A}.

#[export] Instance message_eq_dec : EqDecision message.
Proof. solve_decision. Defined.

#[export] Instance proc_bind : MBind proc := fun A B f p =>
  match p with
  | Ret a => f a
  | Exit s m d => Exit s m d
  | Stuck => Stuck
  end.

(** The disk, the position of the input, and the output file, which is missing
    when it could not be opened. *)
Record St := mkSt {
  disk : files;
  fdIn : list Z;
  inPos : Z;
  fdOut : option (list Z);
  outPos : Z;
  noffFileName : option (list Z);
}.

Definition with_disk (d : files) (st : St) : St := mkSt d (fdIn st) (inPos st) (fdOut st) (outPos st) (noffFileName st).
Definition with_in (p : Z) (st : St) : St := mkSt (disk st) (fdIn st) p (fdOut st) (outPos st) (noffFileName st).
Definition with_out (p : Z) (st : St) : St := mkSt (disk st) (fdIn st) (inPos st) (fdOut st) p (noffFileName st).

(** [fprintf(stderr, ...); unlink(noffFileName); exit(1)] *)
Definition die {A} (m : message) (st : St) : proc A :=
  Exit 1 m (match noffFileName st with Some f => delete f (disk st) | None => disk st end).

Definition contents (d : files) (f : list Z) : list Z := default [] (d !! f).

(** [lseek] with a negative offset fails and leaves the position alone; the
    program does not look. *)
Definition seek_in (off : Z) (st : St) : St := if 0 <=? off then with_in off st else st.
Definition seek_out (off : Z) (st : St) : St := if 0 <=? off then with_out off st else st.

(** [Read]: a negative count is converted to an enormous [size_t]. *)
Definition Read (st : St) (nBytes : Z) : proc (list Z * St) :=
  if nBytes <? 0 then Stuck
  else
    let buf := take (Z.to_nat nBytes) (drop (Z.to_nat (inPos st)) (contents (disk st) (fdIn st))) in
    if negb (Z.of_nat (length buf) =? nBytes) then die FileTooShort st
    else Ret (buf, with_in (inPos st + nBytes) st).

(** [Write]; the host gives the output file at most [room] bytes. *)
Definition Write (room : Z) (st : St) (buf : list Z) : proc St :=
  match fdOut st with
  | None => die UnableToWrite st
  | Some f =>
      if room <? outPos st + Z.of_nat (length buf) then die UnableToWrite st
      else match WriteAt (contents (disk st) f) buf (outPos st) with
      | Ok c => Ret (with_out (outPos st + Z.of_nat (length buf)) (with_disk (<[f := c]> (disk st)) st))
      | Err _ => Stuck
      end
  end.

Definition lift {A} (o : outcome A) : proc A := match o with Ok a => Ret a | Err _ => Stuck end.

(** ** COFF headers *)
Definition MIPSELMAGIC : Z := 0x0162.
Definition OMAGIC : Z := 263.

Definition ushort_at (bs : list Z) (off : nat) : Z := le_value (take 2 (drop off bs)).
Definition short_at (bs : list Z) (off : nat) : Z :=
  let v := ushort_at bs off in if v <? 2 ^ 15 then v else v - 2 ^ 16.
Definition long_at (bs : list Z) (off : nat) : Z := to_int (le_value (take 4 (drop off bs))).

Record filehdr := mkFilehdr {
  f_magic : Z; f_nscns : Z; f_timdat : Z; f_symptr : Z; f_nsyms : Z; f_opthdr : Z; f_flags : Z;
}.
Definition filehdr_of (bs : list Z) : filehdr :=
  mkFilehdr (ushort_at bs 0) (ushort_at bs 2) (long_at bs 4) (long_at bs 8) (long_at bs 12) (ushort_at bs 16) (ushort_at bs 18).

Record aouthdr := mkAouthdr {
  magic : Z; vstamp : Z; tsize : Z; dsize : Z; bsize : Z; entry : Z; text_start : Z; data_start : Z; bss_start : Z;
  gprmask : Z; cprmask : list Z; gp_value : Z;
}.
Definition aouthdr_of (bs : list Z) : aouthdr :=
  mkAouthdr (short_at bs 0) (short_at bs 2) (long_at bs 4) (long_at bs 8) (long_at bs 12) (long_at bs 16) (long_at bs 20)
    (long_at bs 24) (long_at bs 28) (long_at bs 32) (map (long_at bs) [36; 40; 44; 48]%nat) (long_at bs 52).

Record scnhdr := mkScnhdr {
  s_name : list Z; s_paddr : Z; s_vaddr : Z; s_size : Z; s_scnptr : Z; s_relptr : Z; s_lnnoptr : Z;
  s_nreloc : Z; s_nlnno : Z; s_flags : Z;
}.
Definition scnhdr_of (bs : list Z) : scnhdr :=
  mkScnhdr (take 8 bs) (long_at bs 8) (long_at bs 12) (long_at bs 16) (long_at bs 20) (long_at bs 24) (long_at bs 28)
    (ushort_at bs 32) (ushort_at bs 34) (long_at bs 36).

Definition sizeof_filehdr : Z := 20.
Definition sizeof_aouthdr : Z := 56.
Definition sizeof_scnhdr : Z := 40.

(** The array of [n] section headers in a buffer. *)
Definition sections_of (n : nat) (bs : list Z) : list scnhdr :=
  map (fun i => scnhdr_of (take 40 (drop (40 * i) bs))) (seq 0 n).

(** The words that the program converts with [WordToHost]. *)
Definition swap_section (s : scnhdr) : scnhdr :=
  let w x := to_int (WordToHost (to_uint x)) in
  mkScnhdr (s_name s) (w (s_paddr s)) (s_vaddr s) (w (s_size s)) (w (s_scnptr s)) (s_relptr s) (s_lnnoptr s)
    (s_nreloc s) (s_nlnno s) (s_flags s).

(** [!strcmp(s_name, lit)]: with names this short the comparison ends within the
    eight characters. *)
Definition name_is (lit : list Z) (s : scnhdr) : bool := bool_decide (take (length lit + 1) (s_name s) = lit ++ [0]).
Definition text_name : list Z := [46; 116; 101; 120; 116].
Definition data_name : list Z := [46; 100; 97; 116; 97].
Definition rdata_name : list Z := [46; 114; 100; 97; 116; 97].
Definition bss_name : list Z := [46; 98; 115; 115].

(** ** The conversion *)
Definition with_code (s : Segment) (h : NoffHeader) := mkNoff (noffMagic h) s (initData h) (readonlyData h) (uninitData h).
Definition with_init (s : Segment) (h : NoffHeader) := mkNoff (noffMagic h) (code h) s (readonlyData h) (uninitData h).
Definition with_rdata (s : Segment) (h : NoffHeader) := mkNoff (noffMagic h) (code h) (initData h) s (uninitData h).
Definition with_bss (s : Segment) (h : NoffHeader) := mkNoff (noffMagic h) (code h) (initData h) (readonlyData h) s.
Definition sized (n : Z) (s : Segment) : Segment := mkSegment (virtualAddr s) (inFileAddr s) n.

(** The header before the loop; [local] is what the variable held. *)
Definition init_header (local : NoffHeader) : NoffHeader :=
  mkNoff NOFFMAGIC (sized 0 (code local)) (sized 0 (initData local)) (sized 0 (readonlyData local)) (sized 0 (uninitData local)).

Section converter.
Variable room : Z.

(** Copying the bytes of one section. *)
Definition copy_section (s : scnhdr) (inNoffFile : Z) (st : St) : proc (Z * St) :=
  let st := seek_in (s_scnptr s) st in
  '(buffer, st) ← Read st (s_size s);
  st ← Write room st buffer;
  n ← lift (int_add inNoffFile (s_size s));
  Ret (n, st).

(** One round of the loop over the sections. *)
Definition convert_section (s : scnhdr) (noffH : NoffHeader) (inNoffFile : Z) (st : St) : proc (NoffHeader * Z * St) :=
  let seg := mkSegment (s_paddr s) inNoffFile (s_size s) in
  if s_size s =? 0 then Ret (noffH, inNoffFile, st)
  else if name_is text_name s then '(n, st) ← copy_section s inNoffFile st; Ret (with_code seg noffH, n, st)
  else if name_is data_name s then '(n, st) ← copy_section s inNoffFile st; Ret (with_init seg noffH, n, st)
  else if name_is rdata_name s then '(n, st) ← copy_section s inNoffFile st; Ret (with_rdata seg noffH, n, st)
  else if name_is bss_name s then
    let b := uninitData noffH in
    if negb (size b =? 0) then
      e ← lift (int_add (virtualAddr b) (size b));
      if s_paddr s =? e then die BothBss st
      else n ← lift (int_add (size b) (s_size s)); Ret (with_bss (sized n b) noffH, inNoffFile, st)
    else Ret (with_bss (mkSegment (s_paddr s) (inFileAddr b) (s_size s)) noffH, inNoffFile, st)
  else die UnknownSegment st.

Fixpoint convert_sections (sections : list scnhdr) (noffH : NoffHeader) (inNoffFile : Z) (st : St) : proc (NoffHeader * Z * St) :=
  match sections with
  | [] => Ret (noffH, inNoffFile, st)
  | s :: rest =>
      '(noffH, inNoffFile, st) ← convert_section s noffH inNoffFile st;
      convert_sections rest noffH inNoffFile st
  end.

(** The bytes of a header in memory. *)
Definition segment_bytes (s : Segment) : list Z := le_bytes 4 (virtualAddr s) ++ le_bytes 4 (inFileAddr s) ++ le_bytes 4 (size s).
Definition noff_bytes (h : NoffHeader) : list Z :=
  le_bytes 4 (noffMagic h) ++ segment_bytes (code h) ++ segment_bytes (initData h) ++ segment_bytes (readonlyData h) ++
  segment_bytes (uninitData h).

(** [main] from the reading of the file header on. *)
Definition convert (local : NoffHeader) (st : St) : proc unit :=
  '(bs, st) ← Read st sizeof_filehdr;
  let fileh := filehdr_of bs in
  if negb (ShortToHost (f_magic fileh) =? MIPSELMAGIC) then die NotMipsel st
  else
    '(bs, st) ← Read st sizeof_aouthdr;
    let systemh := aouthdr_of bs in
    if negb (ShortToHost (magic systemh) =? OMAGIC) then die NotOmagic st
    else
      let numsections := ShortToHost (f_nscns fileh) in
      '(bs, st) ← Read st (numsections * sizeof_scnhdr);
      let sections := map swap_section (sections_of (Z.to_nat numsections) bs) in
      let st := seek_out sizeof_NoffHeader st in
      '(noffH, _, st) ← convert_sections sections (init_header local) sizeof_NoffHeader st;
      let st := seek_out 0 st in
      st ← Write room st (noff_bytes (SwapHeader noffH));
      Exit 0 Converted (disk st).

(** [main]: [argv] without the name of the program; [can_create] says which
    names the host lets the process open for writing.  With one argument
    [argv\[2\]] is the null pointer, which [open] refuses. *)
Definition coff2noff (can_create : list Z -> bool) (local : NoffHeader) (argv : list (list Z)) (d : files) : proc unit :=
  match argv with
  | [] => Exit 1 Usage d
  | a1 :: rest =>
      if negb (bool_decide (is_Some (d !! a1))) then Exit 1 CannotOpen d
      else
        let a2 := head rest in
        let fd := match a2 with Some f => if can_create f then Some f else None | None => None end in
        let d := match fd with Some f => <[f := []]> d | None => d end in
        convert local (mkSt d a1 0 fd 0 a2)
  end.

End converter.

(** ** Headers in a file *)
Definition segment_int (s : Segment) : Prop := is_int (virtualAddr s) /\ is_int (inFileAddr s) /\ is_int (size s).
Definition header_int (h : NoffHeader) : Prop :=
  is_int (noffMagic h) /\ segment_int (code h) /\ segment_int (initData h) /\ segment_int (readonlyData h) /\
  segment_int (uninitData h).

Definition segment_words (s : Segment) : list Z := [virtualAddr s; inFileAddr s; size s].
Definition noff_words (h : NoffHeader) : list Z :=
  noffMagic h :: segment_words (code h) ++ segment_words (initData h) ++ segment_words (readonlyData h) ++ segment_words (uninitData h).

Lemma noff_bytes_words h : noff_bytes h = concat (map (le_bytes 4) (noff_words h)).
Proof. unfold noff_bytes, segment_bytes, noff_words, segment_words. cbn [app map concat]. by rewrite <- !app_assoc, app_nil_r. Qed.

Lemma length_noff_bytes h : length (noff_bytes h) = 52%nat.
Proof. unfold noff_bytes, segment_bytes. by rewrite !length_app, !length_le_bytes. Qed.

Lemma word_at_concat ws r i w :
  ws !! i = Some w -> is_int w -> word_at (concat (map (le_bytes 4) ws) ++ r) i = w.
Proof.
  intros Hw Hi. unfold word_at. transitivity (to_int (le_value (le_bytes 4 w))); [|by apply le_int_roundtrip]. do 2 f_equal. clear Hi.
  revert i Hw. induction ws as [|x ws IH]; intros i Hw; [done|]. cbn [map concat]. rewrite <- app_assoc.
  destruct i as [|i]; cbn [lookup list_lookup] in Hw.
  - simplify_eq. rewrite drop_0. by rewrite take_app_length' by (rewrite length_le_bytes; lia).
  - rewrite <- (IH i Hw). f_equal. replace (4 * S i)%nat with (4 + 4 * i)%nat by lia. rewrite <- drop_drop.
    by rewrite drop_app_length' by (rewrite length_le_bytes; lia).
Qed.

Lemma noff_of_bytes h r : header_int h -> noff_of (noff_bytes h ++ r) = h.
Proof.
  intros (Hm & H1 & H2 & H3 & H4). unfold segment_int in *. destruct_and?. rewrite noff_bytes_words. unfold noff_of, segment_at. cbn [Nat.add].
  destruct h as [mg [v1 f1 z1] [v2 f2 z2] [v3 f3 z3] [v4 f4 z4]]. cbn [noffMagic code initData readonlyData uninitData virtualAddr inFileAddr size] in *.
  repeat (erewrite word_at_concat by (reflexivity || done)). done.
Qed.

Lemma SwapHeader_id h : header_int h -> SwapHeader h = h.
Proof.
  intros (Hm & H1 & H2 & H3 & H4). unfold segment_int in *. destruct_and?. destruct h as [mg [v1 f1 z1] [v2 f2 z2] [v3 f3 z3] [v4 f4 z4]].
  cbn [noffMagic code initData readonlyData uninitData virtualAddr inFileAddr size] in *.
  unfold SwapHeader, WordToHost. cbn [noffMagic code initData readonlyData uninitData virtualAddr inFileAddr size].
  rewrite !to_int_to_uint, !to_int_id by done. done.
Qed.

(** What [Load] finds in a file that starts with a header. *)
Lemma exec_header_bytes local h body : header_int h -> exec_header local (noff_bytes h ++ body) = h.
Proof.
  intros Hh. unfold exec_header. change (Z.to_nat sizeof_NoffHeader) with 52%nat.
  rewrite (take_app_length' (noff_bytes h) body 52) by (by rewrite length_noff_bytes). by apply noff_of_bytes.
Qed.

Lemma swap_section_id s : is_int (s_paddr s) -> is_int (s_size s) -> is_int (s_scnptr s) -> swap_section s = s.
Proof. intros. unfold swap_section, WordToHost. rewrite !to_int_to_uint, !to_int_id by done. by destruct s. Qed.

Lemma sections_int n bs : Forall (fun s => is_int (s_paddr s) /\ is_int (s_size s) /\ is_int (s_scnptr s)) (sections_of n bs).
Proof. apply Forall_map, Forall_true. intros i. cbn. unfold long_at. auto with nachos. Qed.

Lemma map_swap_sections n bs : map swap_section (sections_of n bs) = sections_of n bs.
Proof.
  pose proof (sections_int n bs) as Hall. induction Hall as [|s l (? & ? & ?) _ IH]; [done|]. cbn [map]. rewrite IH. f_equal.
  by apply swap_section_id.
Qed.

(** ** What a conversion should give *)
Inductive kind := Text | Data | Rdata | Bss.
#[export] Instance kind_eq_dec : EqDecision kind.
Proof. solve_decision. Defined.

Definition kind_of (s : scnhdr) : option kind :=
  if name_is text_name s then Some Text
  else if name_is data_name s then Some Data
  else if name_is rdata_name s then Some Rdata
  else if name_is bss_name s then Some Bss
  else None.

Definition seg_of (k : kind) : NoffHeader -> Segment :=
  match k with Text => code | Data => initData | Rdata => readonlyData | Bss => uninitData end.
Definition set_seg (k : kind) : Segment -> NoffHeader -> NoffHeader :=
  match k with Text => with_code | Data => with_init | Rdata => with_rdata | Bss => with_bss end.

(** The last section of a kind that is not empty, and the bytes of a section. *)
Definition of_kind (k : kind) (secs : list scnhdr) : list scnhdr :=
  filter (fun s => s_size s <> 0 /\ kind_of s = Some k) secs.
Definition last_of (k : kind) (secs : list scnhdr) : option scnhdr := last (of_kind k secs).
Definition raw (coff : list Z) (s : scnhdr) : list Z := take (Z.to_nat (s_size s)) (drop (Z.to_nat (s_scnptr s)) coff).

(** What a section adds to the output. *)
Definition copied (s : scnhdr) : Z :=
  match kind_of s with Some Bss | None => 0 | Some _ => s_size s end.
Fixpoint total_copied (secs : list scnhdr) : Z :=
  match secs with [] => 0 | s :: rest => copied s + total_copied rest end.

(** A section that the converter accepts. *)
Definition section_ok (coff : list Z) (s : scnhdr) : Prop :=
  s_size s = 0 \/
  0 < s_size s /\ exists k, kind_of s = Some k /\
    (k <> Bss -> 0 <= s_scnptr s /\ s_scnptr s + s_size s <= Z.of_nat (length coff)).

(** A well-formed COFF file with the section headers [secs]. *)
Record coff_file (coff : list Z) (secs : list scnhdr) : Prop := {
  cf_magic : f_magic (filehdr_of (take 20 coff)) = MIPSELMAGIC;
  cf_omagic : magic (aouthdr_of (take 56 (drop 20 coff))) = OMAGIC;
  cf_length : 76 + 40 * f_nscns (filehdr_of (take 20 coff)) <= Z.of_nat (length coff);
  cf_bytes : Forall is_byte coff;
  cf_secs : let n := Z.to_nat (f_nscns (filehdr_of (take 20 coff))) in
    secs = sections_of n (take (40 * n) (drop 76 coff));
  cf_sections : Forall (section_ok coff) secs;
  cf_bss : (length (of_kind Bss secs) <= 1)%nat;
}.

(** The segment of kind [k] describes the last section of that kind. *)
Definition describes (coff noff : list Z) (secs : list scnhdr) (k : kind) (g : Segment) : Prop :=
  match last_of k secs with
  | None => size g = 0
  | Some s =>
      virtualAddr g = s_paddr s /\ size g = s_size s /\ 0 < size g /\
      (k <> Bss -> 52 <= inFileAddr g /\ inFileAddr g + size g <= Z.of_nat (length noff) /\
         take (Z.to_nat (size g)) (drop (Z.to_nat (inFileAddr g)) noff) = raw coff s)
  end.

(** ** The loop *)
Lemma last_of_snoc k secs s :
  last_of k (secs ++ [s]) = if decide (s_size s <> 0 /\ kind_of s = Some k) then Some s else last_of k secs.
Proof.
  unfold last_of, of_kind. rewrite filter_app. case_decide as Hd.
  - rewrite filter_cons_True by done. cbn [filter list_filter]. by rewrite last_snoc.
  - rewrite filter_cons_False by done. cbn [filter list_filter]. by rewrite app_nil_r.
Qed.

Lemma last_of_one k s : s_size s <> 0 -> kind_of s = Some k -> last_of k [s] = Some s.
Proof. intros. change [s] with ([] ++ [s]). by rewrite last_of_snoc, decide_True. Qed.

Lemma total_copied_app l l' : total_copied (l ++ l') = total_copied l + total_copied l'.
Proof. induction l as [|s l IH]; cbn [app total_copied]; lia. Qed.

Lemma copied_nonneg coff s : section_ok coff s -> 0 <= copied s.
Proof. unfold section_ok, copied. destruct (kind_of s) as [[]|]; lia. Qed.

Lemma total_copied_nonneg coff l : Forall (section_ok coff) l -> 0 <= total_copied l.
Proof. induction 1 as [|s l Hs _ IH]; cbn [total_copied]; [lia|]. apply copied_nonneg in Hs. lia. Qed.

(** Appending to a file, with the gap that [lseek] left. *)
Lemma WriteAt_end (c buf : list Z) (pos : Z) :
  Z.of_nat (length c) <= pos -> WriteAt c buf pos = Ok (c ++ replicate (Z.to_nat pos - length c) 0 ++ buf).
Proof.
  intros Hc. unfold WriteAt. rewrite (proj2 (Z.leb_le 0 pos)) by lia. cbn [ASSERT mbind outcome_bind]. f_equal.
  unfold splice. replace (Z.to_nat pos + length buf - length c)%nat with (Z.to_nat pos - length c + length buf)%nat by lia.
  rewrite replicate_add, (app_assoc c), take_app_length' by (rewrite length_app, length_replicate; lia).
  rewrite drop_ge by (rewrite !length_app, !length_replicate; lia). by rewrite app_nil_r, <- app_assoc.
Qed.

Lemma raw_length coff s :
  0 <= s_size s -> 0 <= s_scnptr s -> s_scnptr s + s_size s <= Z.of_nat (length coff) ->
  Z.of_nat (length (raw coff s)) = s_size s.
Proof. intros. unfold raw. rewrite length_take, length_drop. lia. Qed.

Section loop.
Context (room : Z) (coff inn out : list Z) (d : files) (nm : option (list Z)).
Context (Hne : inn <> out) (Hin : d !! inn = Some coff).

(** The state after the sections [done]: the output holds their bytes, [body],
    from byte 52 on. *)
Record Inv (done : list scnhdr) (h : NoffHeader) (n : Z) (st : St) (c body : list Z) : Prop := {
  iv_disk : disk st = <[out := c]> d;
  iv_in : fdIn st = inn;
  iv_out : fdOut st = Some out;
  iv_name : noffFileName st = nm;
  iv_pos : outPos st = n;
  iv_n : n = 52 + total_copied done;
  iv_body : drop 52 c = body;
  iv_len : Z.of_nat (length body) = total_copied done;
  iv_c : Z.of_nat (length c) <= n;
  iv_magic : noffMagic h = NOFFMAGIC;
  iv_int : header_int h;
  iv_seg k : describes coff (replicate 52 0 ++ body) done k (seg_of k h);
}.

Lemma copy_section_ok done h n st c body s :
  Inv done h n st c body -> 0 < s_size s -> 0 <= s_scnptr s -> s_scnptr s + s_size s <= Z.of_nat (length coff) ->
  0 <= total_copied done -> n + s_size s <= room -> is_int (n + s_size s) ->
  exists st' c', copy_section room s n st = Ret (n + s_size s, st') /\
    disk st' = <[out := c']> d /\ fdIn st' = inn /\ fdOut st' = Some out /\ noffFileName st' = nm /\
    outPos st' = n + s_size s /\ drop 52 c' = body ++ raw coff s /\ Z.of_nat (length c') <= n + s_size s.
Proof.
  intros [] Hs Hp Hl Htc Hroom Hint.
  assert (Hraw : Z.of_nat (length (raw coff s)) = s_size s) by (apply raw_length; lia).
  unfold copy_section, Read, seek_in. rewrite (proj2 (Z.leb_le 0 (s_scnptr s))) by lia.
  cbn [disk fdIn inPos with_in]. rewrite iv_disk0, iv_in0.
  assert (contents (<[out := c]> d) inn = coff) as -> by (unfold contents; by rewrite lookup_insert_ne, Hin by done).
  fold (raw coff s).
  rewrite (proj2 (Z.ltb_ge (s_size s) 0)) by lia. rewrite Hraw, Z.eqb_refl. cbn [negb mbind proc_bind].
  unfold Write. cbn [fdOut outPos with_in disk]. rewrite iv_out0, iv_pos0, Hraw, iv_disk0.
  rewrite (proj2 (Z.ltb_ge room _)) by lia. unfold contents. rewrite lookup_insert_eq. cbn [default from_option id].
  rewrite WriteAt_end by done. cbn [mbind proc_bind]. rewrite int_add_Ok by done. cbn [lift mbind proc_bind].
  eexists _, _. split; [reflexivity|]. cbn [disk with_out with_disk fdIn fdOut noffFileName outPos with_in].
  rewrite insert_insert_eq. split_and!; [reflexivity|done..| |].
  - rewrite <- iv_body0, app_assoc, drop_app_le by (rewrite length_app, length_replicate; lia). f_equal.
    destruct (decide (Z.to_nat n = length c)) as [E|E]; [by rewrite E, Nat.sub_diag, app_nil_r|].
    assert (length (drop 52 c) = 0%nat) as E0.
    { rewrite <- iv_body0, length_drop in iv_len0. rewrite length_drop. lia. }
    apply nil_length_inv in E0. rewrite E0. apply drop_ge. rewrite length_app, length_replicate.
    rewrite <- iv_body0, E0 in iv_len0. cbn [length] in iv_len0. lia.
  - rewrite !length_app, length_replicate. lia.
Qed.

Lemma describes_app noff more secs k g : describes coff noff secs k g -> describes coff (noff ++ more) secs k g.
Proof.
  unfold describes. destruct (last_of k secs) as [s|]; [|done]. intros (Hv & Hs & Hp & Hk). split_and!; [done..|].
  intros Hb. destruct (Hk Hb) as (Hi & Hl & <-). rewrite length_app. split_and!; [done|lia|].
  rewrite drop_app_le, take_app_le by (rewrite ?length_drop; lia). done.
Qed.

Lemma seg_of_set k k' g h : seg_of k (set_seg k' g h) = if decide (k = k') then g else seg_of k h.
Proof. by destruct k, k'. Qed.

Lemma set_seg_int k g h : header_int h -> segment_int g -> header_int (set_seg k g h).
Proof. intros (? & ? & ? & ? & ?) ?. destruct k; split_and!; done. Qed.

Lemma set_seg_magic k g h : noffMagic (set_seg k g h) = noffMagic h.
Proof. by destruct k. Qed.

Lemma convert_section_copy k s h n st :
  kind_of s = Some k -> k <> Bss -> s_size s <> 0 ->
  convert_section room s h n st =
    '(n', st) ← copy_section room s n st; Ret (set_seg k (mkSegment (s_paddr s) n (s_size s)) h, n', st).
Proof.
  unfold kind_of, convert_section. intros Hk Hb Hs. rewrite (proj2 (Z.eqb_neq (s_size s) 0)) by done.
  destruct (name_is text_name s); [by simplify_eq|]. destruct (name_is data_name s); [by simplify_eq|].
  destruct (name_is rdata_name s); [by simplify_eq|]. destruct (name_is bss_name s); by simplify_eq.
Qed.

Lemma convert_section_bss s h n st :
  kind_of s = Some Bss -> s_size s <> 0 -> size (uninitData h) = 0 ->
  convert_section room s h n st =
    Ret (with_bss (mkSegment (s_paddr s) (inFileAddr (uninitData h)) (s_size s)) h, n, st).
Proof.
  unfold kind_of, convert_section. intros Hk Hs H0. rewrite (proj2 (Z.eqb_neq (s_size s) 0)) by done.
  destruct (name_is text_name s), (name_is data_name s), (name_is rdata_name s), (name_is bss_name s); try done.
  by rewrite H0.
Qed.

(** Describing one section more. *)
Lemma describes_snoc noff secs s k k' g h :
  s_size s <> 0 -> kind_of s = Some k ->
  (forall k', describes coff noff secs k' (seg_of k' h)) ->
  describes coff noff [s] k g ->
  describes coff noff (secs ++ [s]) k' (seg_of k' (set_seg k g h)).
Proof.
  intros Hs Hk Hall Hg. unfold describes. rewrite last_of_snoc, seg_of_set.
  destruct (decide (k' = k)) as [->|Hkk].
  - rewrite decide_True by done. revert Hg. unfold describes. by rewrite last_of_one.
  - rewrite decide_False by naive_solver. apply Hall.
Qed.

Lemma Inv_empty done h n st c body s : Inv done h n st c body -> s_size s = 0 -> Inv (done ++ [s]) h n st c body.
Proof.
  intros [] Hs. assert (copied s = 0) as Hc by (unfold copied; destruct (kind_of s) as [[]|]; done).
  split; try done; rewrite ?total_copied_app; cbn [total_copied]; [lia|lia|].
  intros k. unfold describes. rewrite last_of_snoc, decide_False by (intros [? _]; done). apply iv_seg0.
Qed.

Lemma convert_section_ok done h n st c body s :
  Inv done h n st c body -> section_ok coff s -> is_int (s_paddr s) -> is_int (s_size s) -> 0 <= total_copied done ->
  52 + total_copied done + copied s <= room -> is_int (52 + total_copied done + copied s) ->
  (length (of_kind Bss (done ++ [s])) <= 1)%nat ->
  exists h' n' st' c' body', convert_section room s h n st = Ret (h', n', st') /\ Inv (done ++ [s]) h' n' st' c' body'.
Proof.
  intros HI [H0|(Hs & k & Hk & Hf)] Hpi Hsi Htc Hroom Hint Hbss.
  { exists h, n, st, c, body. split; [unfold convert_section; by rewrite H0|by apply Inv_empty]. }
  destruct (decide (k = Bss)) as [->|Hb].
  - assert (size (uninitData h) = 0) as Hz.
    { pose proof (iv_seg _ _ _ _ _ _ HI Bss) as Hd. unfold describes, last_of in Hd. unfold of_kind in Hbss, Hd.
      rewrite filter_app, filter_cons_True, length_app in Hbss by (split; [lia|done]). cbn [filter list_filter length] in Hbss.
      destruct (filter _ done); [done|cbn [length] in Hbss; lia]. }
    rewrite convert_section_bss by (done || lia). eexists _, _, _, _, _. split; [reflexivity|].
    pose proof (set_seg_int Bss (mkSegment (s_paddr s) (inFileAddr (uninitData h)) (s_size s)) h (iv_int _ _ _ _ _ _ HI)) as Hi.
    destruct HI. assert (copied s = 0) as Hc by (unfold copied; by rewrite Hk).
    split; try done; rewrite ?total_copied_app; cbn [total_copied]; [lia|lia| |].
    + apply Hi. split_and!; [done|apply iv_int0|done].
    + intros k. apply (describes_snoc _ _ s Bss k _ h); [lia|done|done|]. unfold describes. rewrite last_of_one by (done || lia).
      cbn [virtualAddr size]. done.
  - assert (copied s = s_size s) as Hc by (unfold copied; rewrite Hk; by destruct k). rewrite Hc in *.
    destruct (Hf Hb) as [Hp Hl]. assert (n = 52 + total_copied done) as En by apply HI. rewrite <- En in *.
    destruct (copy_section_ok done h n st c body s HI Hs Hp Hl Htc Hroom Hint) as (st' & c' & Hcp & Hd & Hfi & Hfo & Hnm & Hpos & Hbd & Hlen).
    rewrite (convert_section_copy k) by (done || lia). rewrite Hcp. cbn [mbind proc_bind]. eexists _, _, _, c', _. split; [reflexivity|].
    pose proof (raw_length coff s ltac:(lia) Hp Hl) as Hraw.
    destruct HI. split; rewrite ?total_copied_app; cbn [total_copied]; rewrite ?Hc; try done; rewrite ?set_seg_magic; try lia; try done.
    + rewrite length_app. lia.
    + apply set_seg_int; [done|]. split_and!; cbn [virtualAddr inFileAddr size]; [done| |done]. unfold is_int in *. lia.
    + intros k'. rewrite app_assoc. apply (describes_snoc _ _ s k); [lia|done| |].
      * intros k''. by apply describes_app.
      * unfold describes. rewrite last_of_one by (done || lia). cbn [virtualAddr inFileAddr size].
        split_and!; [done..|]. intros _. rewrite !length_app, length_replicate. split_and!; [lia|lia|].
        rewrite drop_app_length' by (rewrite length_app, length_replicate; lia). apply take_ge. lia.
Qed.
End loop.

Lemma convert_sections_ok room coff inn out d nm rest done h n st c body :
  inn <> out -> d !! inn = Some coff -> Inv coff inn out d nm done h n st c body -> 0 <= total_copied done ->
  Forall (section_ok coff) rest -> Forall (fun s => is_int (s_paddr s) /\ is_int (s_size s) /\ is_int (s_scnptr s)) rest ->
  52 + total_copied (done ++ rest) <= room -> is_int (52 + total_copied (done ++ rest)) ->
  (length (of_kind Bss (done ++ rest)) <= 1)%nat ->
  exists h' n' st' c' body', convert_sections room rest h n st = Ret (h', n', st') /\
    Inv coff inn out d nm (done ++ rest) h' n' st' c' body'.
Proof.
  intros Hne Hin. revert done h n st c body.
  induction rest as [|s rest IH]; intros done h n st c body HI Htc Hok Hint Hroom Hsum Hbss.
  { eexists _, _, _, _, _. split; [reflexivity|]. by rewrite app_nil_r. }
  inversion_clear Hok as [|? ? Hs Hrest]. inversion_clear Hint as [|? ? (Hp & Hz & _) Hints].
  pose proof (total_copied_nonneg coff rest Hrest) as Hr. pose proof (copied_nonneg coff s Hs) as Hc.
  rewrite total_copied_app in Hroom, Hsum. cbn [total_copied] in Hroom, Hsum.
  destruct (convert_section_ok room coff inn out d nm Hne Hin done h n st c body s) as (h' & n' & st' & c' & body' & Hstep & HI');
    try done; [lia|unfold is_int in *; lia| |].
  { etrans; [|exact Hbss]. unfold of_kind. change (s :: rest) with ([s] ++ rest). rewrite (app_assoc done), (filter_app _ (done ++ [s])), length_app. lia. }
  cbn [convert_sections]. rewrite Hstep. cbn [mbind proc_bind]. change (s :: rest) with ([s] ++ rest). rewrite app_assoc.
  apply (IH (done ++ [s]) h' n' st' c' body'); try done; rewrite ?total_copied_app; cbn [total_copied].
  - lia.
  - lia.
  - unfold is_int in *. lia.
  - by rewrite <- app_assoc.
Qed.

(** Replacing the gap by the header. *)
Lemma describes_header coff h body secs k g :
  describes coff (replicate 52 0 ++ body) secs k g -> describes coff (noff_bytes h ++ body) secs k g.
Proof.
  unfold describes. destruct (last_of k secs) as [s|]; [|done]. intros (Hv & Hs & Hp & Hk). split_and!; [done..|].
  intros Hb. destruct (Hk Hb) as (Hi & Hl & <-). split; [done|]. rewrite length_app, length_noff_bytes.
  rewrite length_app, length_replicate in Hl. split; [done|]. f_equal.
  rewrite !drop_app_ge by (rewrite ?length_noff_bytes, ?length_replicate; lia). by rewrite length_noff_bytes, length_replicate.
Qed.

(** Writing the header at the start. *)
Lemma WriteAt_header c h : WriteAt c (noff_bytes h) 0 = Ok (noff_bytes h ++ drop 52 c).
Proof.
  unfold WriteAt. cbn [Z.leb Z.compare ASSERT mbind outcome_bind]. f_equal. unfold splice. rewrite length_noff_bytes.
  change (Z.to_nat 0) with 0%nat. rewrite take_0. cbn [app Nat.add]. f_equal.
  destruct (decide (52 <= length c)%nat).
  - by rewrite drop_app_le, (proj2 (Nat.sub_0_le _ _)), app_nil_r by lia.
  - rewrite !drop_ge; [done|lia|]. rewrite length_app, length_replicate. lia.
Qed.

Lemma Read_ok d f pos o p nm c n :
  d !! f = Some c -> 0 <= pos -> 0 <= n -> pos + n <= Z.of_nat (length c) ->
  Read (mkSt d f pos o p nm) n = Ret (take (Z.to_nat n) (drop (Z.to_nat pos) c), mkSt d f (pos + n) o p nm).
Proof.
  intros Hf Hp Hn Hl. unfold Read. cbn [inPos disk fdIn]. unfold contents. rewrite Hf. cbn [default from_option id].
  rewrite (proj2 (Z.ltb_ge n 0)) by lia. rewrite length_take, length_drop.
  rewrite (proj2 (Z.eqb_eq _ n)) by lia. done.
Qed.

Lemma f_nscns_nonneg coff : Forall is_byte coff -> 0 <= f_nscns (filehdr_of coff).
Proof. intros Hb. apply le_value_range. apply Forall_take, Forall_drop, Hb. Qed.

Lemma init_header_int local : header_int local -> header_int (init_header local).
Proof.
  intros (_ & (? & ? & _) & (? & ? & _) & (? & ? & _) & (? & ? & _)).
  split_and!; [done| | | |]; (split; [done|]); (split; [done|]); done.
Qed.

(** The converter on a well-formed file. *)
Lemma coff2noff_ok room can_create local inn out rest d coff secs :
  coff_file coff secs -> inn <> out -> d !! inn = Some coff -> can_create out = true -> header_int local ->
  52 + total_copied secs <= room -> is_int (52 + total_copied secs) ->
  exists h body,
    coff2noff room can_create local (inn :: out :: rest) d = Exit 0 Converted (<[out := noff_bytes h ++ body]> d) /\
    noffMagic h = NOFFMAGIC /\ header_int h /\ Z.of_nat (length body) = total_copied secs /\
    forall k, describes coff (noff_bytes h ++ body) secs k (seg_of k h).
Proof.
  intros [Hm Ho Hlen Hby Hsecs Hok Hbss] Hne Hin Hcc Hloc Hroom Hsum.
  assert (Forall is_byte (take 20 coff)) as Hb20 by by apply Forall_take. apply f_nscns_nonneg in Hb20.
  set (nn := f_nscns (filehdr_of (take 20 coff))) in *. cbn zeta in Hsecs.
  unfold coff2noff. rewrite bool_decide_true by by eexists. cbn [negb head]. rewrite Hcc.
  assert ((<[out := []]> d : files) !! inn = Some coff) as Hin' by (by rewrite lookup_insert_ne by done).
  unfold convert, sizeof_filehdr, sizeof_aouthdr, sizeof_scnhdr.
  rewrite (Read_ok _ _ _ _ _ _ coff 20) by (done || lia). cbn [mbind proc_bind]. change (Z.to_nat 0) with 0%nat. rewrite drop_0.
  change (Z.to_nat 20) with 20%nat. unfold ShortToHost. rewrite Hm. cbn [negb Z.eqb MIPSELMAGIC Pos.eqb].
  rewrite (Read_ok _ _ _ _ _ _ coff 56) by (done || lia). cbn [mbind proc_bind].
  change (Z.to_nat (0 + 20)) with 20%nat. change (Z.to_nat 56) with 56%nat. rewrite Ho. cbn [negb Z.eqb OMAGIC Pos.eqb].
  fold nn. rewrite (Read_ok _ _ _ _ _ _ coff (nn * 40)) by (done || lia). cbn [mbind proc_bind].
  change (Z.to_nat (0 + 20 + 56)) with 76%nat. replace (Z.to_nat (nn * 40)) with (40 * Z.to_nat nn)%nat by lia.
  rewrite map_swap_sections, <- Hsecs. unfold seek_out at 2. cbn [sizeof_NoffHeader Z.leb Z.compare with_out disk fdIn inPos fdOut noffFileName].
  edestruct (convert_sections_ok room coff inn out d (Some out) secs [] (init_header local) 52
    (mkSt (<[out := []]> d) inn (0 + 20 + 56 + nn * 40) (Some out) 52 (Some out)) [] []) as (h & n & st & c & body & Hcv & HI); try done.
  { split; try done; [by apply init_header_int|]. by intros []. }
  { rewrite Hsecs. apply sections_int. }
  cbn [app] in HI. change sizeof_NoffHeader with 52.
  unfold with_out at 1. cbn [disk fdIn inPos fdOut noffFileName]. rewrite Hcv. cbn [mbind proc_bind]. destruct HI.
  unfold seek_out. cbn [Z.leb Z.compare]. unfold Write. cbn [fdOut with_out outPos disk]. rewrite iv_out0, iv_disk0, SwapHeader_id by done.
  rewrite length_noff_bytes. pose proof (total_copied_nonneg coff secs Hok) as Htn. rewrite (proj2 (Z.ltb_ge room _)) by lia.
  unfold contents. rewrite lookup_insert_eq. cbn [default from_option id]. rewrite WriteAt_header. cbn [mbind proc_bind disk with_out with_disk].
  rewrite iv_body0, insert_insert_eq. exists h, body. split_and!; try done. intros k. by apply describes_header.
Qed.

(** ** Converting and loading *)

(** The sections fit the 128 pages, and no two of them overlap. *)
Definition sec_size (o : option scnhdr) : Z := match o with Some s => s_size s | None => 0 end.
Definition program_size (secs : list scnhdr) : Z :=
  sec_size (last_of Text secs) + sec_size (last_of Rdata secs) + sec_size (last_of Data secs) + sec_size (last_of Bss secs) +
  UserStackSize.
Record linked (secs : list scnhdr) : Prop := {
  lk_range k s : k <> Bss -> last_of k secs = Some s -> 0 <= s_paddr s /\ s_paddr s + s_size s <= MemorySize;
  lk_disjoint k k' s s' : k <> Bss -> k' <> Bss -> k <> k' -> last_of k secs = Some s -> last_of k' secs = Some s' ->
    s_paddr s + s_size s <= s_paddr s' \/ s_paddr s' + s_size s' <= s_paddr s;
  lk_pages : divRoundUp (program_size secs) PageSize <= NumPhysPages;
}.

Lemma describes_size coff noff secs k g : describes coff noff secs k g -> size g = sec_size (last_of k secs) /\ 0 <= size g.
Proof. unfold describes, sec_size. destruct (last_of k secs) as [s|]; [|lia]. intros (_ & -> & ? & _). lia. Qed.

Lemma describes_wf coff noff secs k g :
  linked secs -> k <> Bss -> is_int (inFileAddr g + size g) -> describes coff noff secs k g -> seg_wf noff g.
Proof.
  intros HL Hb Hi. unfold describes, seg_wf. destruct (last_of k secs) as [s|] eqn:E; [|lia].
  intros (Hv & Hs & Hp & Hk). destruct (Hk Hb) as (H52 & Hl & _). destruct (lk_range _ HL k s Hb E). right. rewrite Hv, Hs in *.
  split_and!; [lia..|exact Hi].
Qed.

(** A byte of a section as [AddrSpace::Load] sees it. *)
Lemma describes_byte coff noff secs k g s i b :
  describes coff noff secs k g -> k <> Bss -> last_of k secs = Some s -> raw coff s !! i = Some b ->
  seg_byte noff g (s_paddr s + Z.of_nat i) = Some b.
Proof.
  unfold describes. intros Hd Hb Hs Hr. rewrite Hs in Hd. destruct Hd as (Hv & Hz & Hp & Hk). destruct (Hk Hb) as (H52 & Hl & Ht).
  assert (i < length (raw coff s))%nat as Hi by by eapply lookup_lt_Some. rewrite <- Ht, length_take in Hi.
  unfold seg_byte. rewrite Hv. replace (_ && _) with true by lia. rewrite <- Ht in Hr.
  rewrite lookup_take_lt, lookup_drop in Hr by lia. rewrite <- Hr. f_equal. lia.
Qed.

Lemma describes_outside coff noff secs k g k' s' v :
  linked secs -> describes coff noff secs k g -> k <> Bss -> k' <> Bss -> k <> k' -> last_of k' secs = Some s' ->
  s_paddr s' <= v < s_paddr s' + s_size s' -> seg_byte noff g v = None.
Proof.
  unfold describes, seg_byte. intros HL Hd Hb Hb' Hkk Hs' Hv. destruct (last_of k secs) as [s|] eqn:E.
  - destruct Hd as (-> & -> & _ & _). destruct (lk_disjoint _ HL k k' s s') as [?|?]; try done; by replace (_ && _) with false by lia.
  - rewrite Hd. by replace (_ && _) with false by lia.
Qed.

Lemma describes_program coff noff secs h k s i b :
  linked secs -> (forall k, describes coff noff secs k (seg_of k h)) -> k <> Bss -> last_of k secs = Some s ->
  raw coff s !! i = Some b -> program_byte noff h (s_paddr s + Z.of_nat i) = Some b.
Proof.
  intros HL Hd Hb Hs Hr. pose proof (describes_byte _ _ _ _ _ _ _ _ (Hd k) Hb Hs Hr) as Hk.
  assert (forall k', k' <> Bss -> k' <> k -> seg_byte noff (seg_of k' h) (s_paddr s + Z.of_nat i) = None) as Ho.
  { intros k' Hb' Hkk. apply (describes_outside coff noff secs k' _ k s); try done.
    apply lookup_lt_Some in Hr. unfold raw in Hr. rewrite length_take in Hr. lia. }
  unfold program_byte. pose proof (Ho Rdata) as H1. pose proof (Ho Data) as H2. cbn [seg_of] in H1, H2.
  destruct k; cbn [seg_of] in Hk; rewrite ?H1, ?H2, ?Hk by done; done.
Qed.

(** The frame that [Load] gives a page, in terms of the free frames. *)
Lemma lookup_page_built t fileName fr v f :
  (forall j, (j < 128)%nat -> t !! j = Some (page_entry fileName fr j)) -> 0 <= v < MemorySize ->
  fr !! Z.to_nat (v / 128) = Some f -> (f < 128)%nat ->
  lookup_page t NumPhysPages v 1 false = inr (Z.of_nat f * 128 + v mod 128).
Proof.
  intros Ht Hv Hf Hf'. change MemorySize with 16384 in Hv. change NumPhysPages with 128.
  unfold lookup_page, vpn_of, offset_of, misaligned. rewrite to_uint_id by (unfold is_uint; lia).
  cbn [Z.eqb Pos.eqb andb orb]. assert (0 <= v / 128 < 128) as Hd by (split; [apply Z.div_pos; lia|apply Z.div_lt_upper_bound; lia]).
  change PageSize with 128. rewrite (proj2 (Z.leb_gt 128 _)) by lia. rewrite Ht by lia. cbn [page_entry valid physicalPage readOnly negb andb orb].
  unfold frame_of. rewrite Hf, of_nat_not_minus1. change NumPhysPages with 128. by replace (_ && _) with true by lia.
Qed.

(** C16: from the linker's output to memory.  Converting a well-formed COFF file
    exits with status 0, and the NOFF file it writes is one that
    [AddrSpace::Load] accepts: loading it succeeds, gives the program the pages
    of its sections and stack, and puts every byte of the text, data and
    read-only sections into the frame of its virtual address. *)
Theorem converted_program_loads room can_create local inn out rest d coff secs local' sp m :
  coff_file coff secs -> linked secs -> inn <> out -> d !! inn = Some coff -> can_create out = true -> header_int local ->
  52 + total_copied secs <= room -> is_int (52 + total_copied secs) -> frames_ok m ->
  exists d' m' sp',
    coff2noff room can_create local (inn :: out :: rest) d = Exit 0 Converted d' /\
    Load d' local' out sp m = Ok (m', sp', true) /\
    numPages sp' = divRoundUp (program_size secs) PageSize /\
    forall k s i b f, k <> Bss -> last_of k secs = Some s -> raw coff s !! i = Some b ->
      let v := s_paddr s + Z.of_nat i in
      free_frames (GlobalPageTable m) !! Z.to_nat (v / 128) = Some f ->
      mainMemory m' !! (f * 128 + Z.to_nat (v mod 128))%nat = Some b.
Proof.
  intros HC HL Hne Hin Hcc Hloc Hroom Hsum Hfo.
  destruct (coff2noff_ok room can_create local inn out rest d coff secs HC Hne Hin Hcc Hloc Hroom Hsum) as (h & body & Hc & Hmg & Hhi & Hlen & Hd).
  set (noff := noff_bytes h ++ body) in *. assert (Z.of_nat (length noff) = 52 + total_copied secs) as Hln.
  { unfold noff. rewrite length_app, length_noff_bytes. lia. }
  assert (exec_header local' noff = h) as Hex by by apply exec_header_bytes.
  pose proof (describes_size _ _ _ _ _ (Hd Text)) as [S1 P1]. pose proof (describes_size _ _ _ _ _ (Hd Rdata)) as [S2 P2].
  pose proof (describes_size _ _ _ _ _ (Hd Data)) as [S3 P3]. pose proof (describes_size _ _ _ _ _ (Hd Bss)) as [S4 P4]. cbn [seg_of] in *.
  assert (total_size h = program_size secs) as Hts by (unfold total_size, program_size; lia).
  assert (0 <= program_size secs) as Hps by (unfold program_size, UserStackSize; lia).
  pose proof (lk_pages _ HL) as Hpg. change PageSize with 128 in *. change NumPhysPages with 128 in *.
  pose proof (divRoundUp_bounds (program_size secs) 128 Hps ltac:(lia)) as Hdv.
  assert (forall k, k <> Bss -> seg_wf noff (seg_of k h)) as Hwf.
  { intros k Hb. apply (describes_wf coff noff secs k); [done|done| |done]. specialize (Hd k). unfold describes in Hd.
    destruct (last_of k secs); [|rewrite Hd, Z.add_0_r; destruct Hhi as (_ & (_ & ? & _) & (_ & ? & _) & (_ & ? & _) & _); by destruct k].
    destruct Hd as (_ & _ & ? & Hk). destruct (Hk Hb) as (? & ? & _). unfold is_int in *. lia. }
  pose proof (load_image_ok noff out (exec_header local' noff) m sp Hfo) as HI. rewrite Hex, Hmg, Hts in HI.
  change PageSize with 128 in HI. change NumPhysPages with 128 in HI.
  rewrite Z.eqb_refl, (proj2 (Z.leb_le _ 128)) in HI by lia.
  assert (sizes_ok h) as Hso by (unfold sizes_ok; rewrite Hts; split_and!; [done..|]; unfold is_int; lia).
  destruct (HI Hso (Hwf Text ltac:(done)) (Hwf Data ltac:(done)) (Hwf Rdata ltac:(done))) as (m' & sp' & a & t & HLd & HD). clear HI.
  exists (<[out := noff]> d), m', sp'. split; [done|]. split; [|split].
  - rewrite (Load_image _ _ _ noff) by apply lookup_insert_eq. by rewrite Hex.
  - rewrite (lo_space _ _ _ _ _ _ _ _ _ HD). cbn [numPages]. by rewrite Hts.
  - intros k s i b f Hb Hs Hr. set (v := s_paddr s + Z.of_nat i). intros Hf. pose proof (describes_program _ _ _ _ _ _ _ _ HL Hd Hb Hs Hr) as Hp. fold v in Hp.
    destruct (lk_range _ HL k s Hb Hs) as [R1 R2]. assert (Z.of_nat i < s_size s) as Hi.
    { apply lookup_lt_Some in Hr. unfold raw in Hr. rewrite length_take in Hr. lia. }
    assert (0 <= v < MemorySize) as Hv by lia.
    assert (f < 128)%nat as Hf' by (rewrite <- (proj1 Hfo : length (GlobalPageTable m) = 128%nat); by eapply free_frames_lt).
    pose proof (lookup_page_built t out _ v f (lo_entries _ _ _ _ _ _ _ _ _ HD) Hv Hf Hf') as Hlk.
    pose proof (lo_byte _ _ _ _ _ _ _ _ _ HD v _ b Hv Hlk Hp) as Hb'. rewrite <- Hb'. f_equal.
    pose proof (Z.mod_pos_bound v 128 ltac:(lia)). lia.
Qed.

(** ** What is left when a conversion fails *)
Section failing.
Context (d : files) (nm : option (list Z)).

Definition without : files := match nm with Some f => delete f d | None => d end.

(** The process has changed nothing but the output file. *)
Definition only_out (st : St) : Prop :=
  noffFileName st = nm /\ (fdOut st = None \/ fdOut st = nm) /\
  match nm with Some f => delete f (disk st) = delete f d | None => disk st = d end.

Definition clean {A} (P : A -> Prop) (p : proc A) : Prop :=
  match p with
  | Ret a => P a
  | Exit s msg d' => s = 0 /\ msg = Converted \/ s = 1 /\ msg <> Usage /\ msg <> CannotOpen /\ d' = without
  | Stuck => True
  end.

Lemma clean_bind {A B} (P : A -> Prop) (Q : B -> Prop) (p : proc A) (f : A -> proc B) :
  clean P p -> (forall a, P a -> clean Q (f a)) -> clean Q (p ≫= f).
Proof. destruct p; cbn; auto. Qed.

Lemma clean_die {A} (P : A -> Prop) msg st :
  msg <> Usage -> msg <> CannotOpen -> only_out st -> clean P (die msg st).
Proof. intros Hu Hc (Hn & _ & Hd). right. split_and!; [done..|]. unfold without. rewrite Hn. by destruct nm. Qed.

Lemma clean_lift {A} (o : outcome A) : clean (fun _ => True) (lift o).
Proof. by destruct o. Qed.

Lemma only_out_pos st p q : only_out st -> only_out (with_in p st) /\ only_out (with_out q st).
Proof. done. Qed.

Lemma clean_Read st n : only_out st -> clean (fun '(_, st') => only_out st') (Read st n).
Proof. intros Ho. unfold Read. destruct (n <? 0); [done|]. case_match; [by apply clean_die|done]. Qed.

Lemma clean_Write room st buf : only_out st -> clean only_out (Write room st buf).
Proof.
  intros Ho. unfold Write. destruct (fdOut st) as [f|] eqn:Ef; [|by apply clean_die].
  destruct (room <? _); [by apply clean_die|]. destruct (WriteAt _ _ _) as [c|]; [|done]. destruct Ho as (Hn & Hf & Hd).
  rewrite Ef in Hf. destruct Hf as [|Hf]; [done|]. rewrite <- Hf in Hd. split; [done|]. cbn. rewrite Ef. split; [by right|].
  rewrite <- Hf. by rewrite delete_insert_eq.
Qed.

Lemma only_out_seek st off : only_out st -> only_out (seek_in off st) /\ only_out (seek_out off st).
Proof. intros Ho. unfold seek_in, seek_out. destruct (0 <=? off); done. Qed.

Lemma clean_copy room s n st : only_out st -> clean (fun '(_, st') => only_out st') (copy_section room s n st).
Proof.
  intros Ho. unfold copy_section. eapply clean_bind; [apply clean_Read, only_out_seek, Ho|]. intros [buf st1] H1.
  eapply clean_bind; [by apply clean_Write|]. intros st2 H2. eapply clean_bind; [apply clean_lift|]. done.
Qed.

Lemma clean_section room s h n st : only_out st -> clean (fun '(_, _, st') => only_out st') (convert_section room s h n st).
Proof.
  intros Ho. unfold convert_section. destruct (s_size s =? 0); [done|].
  do 3 (case_match; [eapply clean_bind; [by apply clean_copy|]; by intros [? ?]|]).
  case_match; [|by apply clean_die]. destruct (negb _); [|done].
  eapply clean_bind; [apply clean_lift|]. intros e _. case_match; [by apply clean_die|].
  eapply clean_bind; [apply clean_lift|]. done.
Qed.

Lemma clean_sections room secs h n st : only_out st -> clean (fun '(_, _, st') => only_out st') (convert_sections room secs h n st).
Proof.
  revert h n st. induction secs as [|s secs IH]; intros h n st Ho; [done|]. cbn [convert_sections].
  eapply clean_bind; [by apply clean_section|]. intros [[h' n'] st'] H'. by apply IH.
Qed.

Lemma clean_convert room local st : only_out st -> clean (fun _ => False) (convert room local st).
Proof.
  intros Ho. unfold convert. eapply clean_bind; [by apply clean_Read|]. intros [bs1 st1] H1. case_match; [by apply clean_die|].
  eapply clean_bind; [by apply clean_Read|]. intros [bs2 st2] H2. case_match; [by apply clean_die|].
  eapply clean_bind; [by apply clean_Read|]. intros [bs3 st3] H3.
  eapply clean_bind; [by apply clean_sections, only_out_seek|]. intros [[h n] st4] H4.
  eapply clean_bind; [by apply clean_Write, only_out_seek|]. intros st5 H5. by left.
Qed.
End failing.

(** C21: a conversion that does not exit with status 0 leaves no output behind:
    whatever the input holds and wherever the conversion stops (a short file, a
    wrong magic number, an unknown section, a full disk), the disk is the one
    before without the output file.  Since the result of opening the output is
    not looked at, that also removes a file which could not be opened. *)
Theorem failed_conversion_leaves_no_output room can_create local argv d status msg d' :
  coff2noff room can_create local argv d = Exit status msg d' ->
  (status = 0 /\ msg = Converted) \/
  (status = 1 /\
   if bool_decide (msg = Usage \/ msg = CannotOpen) then d' = d
   else match argv with _ :: out :: _ => d' = delete out d | _ => d' = d end).
Proof.
  unfold coff2noff. destruct argv as [|a1 rest]; [intros [= <- <- <-]; by right|].
  destruct (negb _); [intros [= <- <- <-]; by right|].
  set (fd := match head rest with Some f => _ | None => _ end).
  set (st := mkSt _ _ _ _ _ _). intros HE.
  assert (only_out d (head rest) st) as Ho.
  { unfold st, fd, only_out. cbn [noffFileName fdOut disk]. split; [done|]. destruct (head rest) as [f|]; [|by auto].
    destruct (can_create f); [|by auto]. split; [by right|]. by rewrite delete_insert_eq. }
  pose proof (clean_convert d (head rest) room local st Ho) as HC. rewrite HE in HC. destruct HC as [HC|(-> & Hu & Hc & ->)]; [by left|right].
  split; [done|]. rewrite bool_decide_false by naive_solver. unfold without. by destruct rest.
Qed.

(** A second [.bss] section is refused when it follows the first one in memory,
    and merged with it when it does not, although the comment asks for
    contiguous sections. *)
Lemma second_bss room s h n st :
  kind_of s = Some Bss -> s_size s <> 0 -> size (uninitData h) <> 0 ->
  let b := uninitData h in
  is_int (virtualAddr b + size b) -> is_int (size b + s_size s) ->
  convert_section room s h n st =
    if s_paddr s =? virtualAddr b + size b then die BothBss st
    else Ret (with_bss (sized (size b + s_size s) b) h, n, st).
Proof.
  intros Hk Hs Hb b H1 H2. unfold kind_of in Hk. unfold convert_section. rewrite (proj2 (Z.eqb_neq (s_size s) 0)) by done.
  destruct (name_is text_name s), (name_is data_name s), (name_is rdata_name s), (name_is bss_name s); try done.
  fold b. rewrite (proj2 (Z.eqb_neq (size b) 0)) by done. cbn [negb]. rewrite !int_add_Ok by done. cbn [lift mbind proc_bind]. done.
Qed.

(** A file converted onto itself is lost: it is truncated before it is read. *)
Lemma convert_onto_itself room can_create local f rest d :
  is_Some (d !! f) -> can_create f = true ->
  coff2noff room can_create local (f :: f :: rest) d = Exit 1 FileTooShort (delete f d).
Proof.
  intros Hf Hc. unfold coff2noff. rewrite bool_decide_true by done. cbn [negb head]. rewrite Hc.
  unfold convert. assert (Read (mkSt (<[f := []]> d) f 0 (Some f) 0 (Some f)) sizeof_filehdr = Exit 1 FileTooShort (delete f d)) as ->; [|done].
  unfold Read, contents, die. cbn [disk fdIn inPos noffFileName]. by rewrite lookup_insert_eq, delete_insert_eq.
Qed.

Module CoffSim.

Definition section (name : list Z) (paddr size scnptr : Z) : list Z :=
  take 8 (name ++ replicate 8 0) ++ concat (map (le_bytes 4) [paddr; paddr; size; scnptr; 0; 0]) ++ replicate 8 0.
Definition coff : list Z :=
  le_bytes 2 MIPSELMAGIC ++ le_bytes 2 4 ++ replicate 16 0 ++ le_bytes 2 OMAGIC ++ replicate 54 0 ++
  section text_name 0 8 236 ++ section rdata_name 128 3 244 ++ section data_name 256 4 247 ++ section bss_name 260 16 0 ++
  [1; 2; 3; 4; 5; 6; 7; 8] ++ [72; 105; 0] ++ [9; 10; 11; 12].
Definition secs : list scnhdr := sections_of 4 (take 160 (drop 76 coff)).
Definition inn : list Z := [97].
Definition out : list Z := [98].
Definition disk : files := {[ inn := coff ]}.
Definition local : NoffHeader := mkNoff 0 (mkSegment 0 0 0) (mkSegment 0 0 0) (mkSegment 0 0 0) (mkSegment 7 7 0).

Definition bad : files := {[ inn := replicate 20 0; out := [1] ]}.

Lemma wf : coff_file coff secs.
Proof.
  split; try by vm_compute.
  - apply (bool_decide_unpack _). by vm_compute.
  - repeat (apply Forall_cons; split; [right; split; [by vm_compute|]; eexists; split; [vm_compute; reflexivity|]; by vm_compute|]).
    constructor.
Qed.

Lemma link : linked secs.
Proof.
  split; [| |by vm_compute].
  - intros k s Hb Hs. destruct k; vm_compute in Hs; simplify_eq; by vm_compute.
  - intros k k' s s' Hb Hb' Hkk Hs Hs'. destruct k, k'; vm_compute in Hs, Hs'; simplify_eq; ((by left; vm_compute) || (by right; vm_compute)).
Qed.

End CoffSim.

Lemma converted_program_loads_witness :
  exists d' m' sp',
    coff2noff 1000 (fun _ => true) CoffSim.local [CoffSim.inn; CoffSim.out] CoffSim.disk = Exit 0 Converted d' /\
    Load d' [] CoffSim.out LoadSim.junk newMachine = Ok (m', sp', true) /\ numPages sp' = 9 /\
    mainMemory m' !! 6%nat = Some 7.
Proof.
  destruct (converted_program_loads 1000 (fun _ => true) CoffSim.local CoffSim.inn CoffSim.out [] CoffSim.disk CoffSim.coff
    CoffSim.secs [] LoadSim.junk newMachine CoffSim.wf CoffSim.link ltac:(done) ltac:(reflexivity) ltac:(reflexivity)
    ltac:(by repeat split) ltac:(by vm_compute) ltac:(by vm_compute) LoadSim.frames) as (d' & m' & sp' & H1 & H2 & H3 & H4).
  exists d', m', sp'. split; [exact H1|]. split; [exact H2|]. split; [rewrite H3; vm_compute; reflexivity|].
  destruct (last_of Text CoffSim.secs) as [s|] eqn:Es; [|vm_compute in Es; discriminate Es].
  assert (s_paddr s = 0 /\ raw CoffSim.coff s !! 6%nat = Some 7) as [Hp Hr].
  { vm_compute in Es. injection Es as <-. split; vm_compute; reflexivity. }
  specialize (H4 Text s 6%nat 7 0%nat ltac:(discriminate) Es Hr). cbn zeta in H4. rewrite Hp in H4.
  exact (H4 ltac:(vm_compute; reflexivity)).
Defined.

(** An input without the magic number, next to an older output. *)
Lemma failed_conversion_leaves_no_output_witness :
  exists d',
    coff2noff 1000 (fun _ => true) CoffSim.local [CoffSim.inn; CoffSim.out] CoffSim.bad = Exit 1 NotMipsel d' /\
    d' = delete CoffSim.out CoffSim.bad.
Proof.
  assert (coff2noff 1000 (fun _ => true) CoffSim.local [CoffSim.inn; CoffSim.out] CoffSim.bad
    = Exit 1 NotMipsel {[ CoffSim.inn := replicate 20 0 ]}) as HE by (vm_compute; reflexivity).
  eexists. split; [exact HE|].
  destruct (failed_conversion_leaves_no_output _ _ _ _ _ _ _ _ HE) as [[E _]|[_ E]]; [discriminate E|].
  rewrite bool_decide_false in E by (intros [X|X]; discriminate X). exact E.
Defined.
