(* ===== verification/Exception.v ===== *)
(** * The kernel's exception handler (src/code/userprog/exception.cc,
    ksyscall.h, syscall.h)

    [page_fault] is the page-fault case of [ExceptionHandler]: it takes a free
    frame or evicts the least used one, writes a dirty victim to its program's
    file, and fills the frame from the faulting program's file.  [vir0] is the
    value of the local variable [vir], which the code reads without setting it
    when a frame was free.  The host's [fork], [write], [read] and [waitpid]
    are parameters. *)

From S2P Require Import Prelude Lists Interrupt Machine AddrSpace.

(** System call codes of syscall.h. *)
Definition SC_Halt : Z := 0.
Definition SC_Exec : Z := 2.
Definition SC_Join : Z := 3.
Definition SC_Read : Z := 7.
Definition SC_Write : Z := 8.
Definition SC_Add : Z := 42.

(** Writing the victim back: the file as it is after. *)
Definition write_back (fs : files) (m : Machine) (phy : Z) (e : TranslationEntry) : outcome files :=
  match fs !! DiskFile e with
  | None => Err AssertFailed
  | Some out_file =>
      if dirty e then
        page ← buf_get (mainMemory m) (phy * PageSize) PageSize;
        out_file ← WriteAt out_file page (virtualPage e * PageSize);
        Ok (<[DiskFile e := out_file]> fs)
      else Ok fs
  end.

(** The frame for virtual page [vpn], and the virtual page that had it. *)
Definition choose_frame (vir0 vpn : Z) (fs : files) (m : Machine) : outcome (files * Machine * Z * Z) :=
  '(m, phy) ← findFreeFrame m vpn (Machine.pageTable m);
  if phy =? -1 then
    phy ← findFreeByLRU m;
    g ← arr_get (GlobalPageTable m) phy;
    t ← get_table m (RefPageTable g);
    e ← arr_get t (VirNum g);
    fs ← write_back fs m phy e;
    Ok (fs, m, phy, VirNum g)
  else Ok (fs, m, phy, vir0).

(** Where the byte at [vAddr] is in the program's file, if it is in one of the
    three segments described by [FileAddr]. *)
Definition file_position (fa : list Z) (vAddr : Z) : outcome (option Z) :=
  cVir ← arr_get fa 0; cSize ← arr_get fa 1; cIn ← arr_get fa 2;
  dVir ← arr_get fa 3; dSize ← arr_get fa 4; dIn ← arr_get fa 5;
  roVir ← arr_get fa 6; roSize ← arr_get fa 7; roIn ← arr_get fa 8;
  Ok (if (cVir <=? vAddr) && (vAddr <? cVir + cSize) then Some (cIn + vAddr - cVir)
      else if (dVir <=? vAddr) && (vAddr <? dVir + dSize) then Some (dIn + vAddr - dVir)
      else if (roVir <=? vAddr) && (vAddr <? roVir + roSize) then Some (roIn + vAddr - roVir)
      else None).

(** The loop that fills the frame. *)
Definition fill_frame (in_file fa : list Z) (vpn phy : Z) (m : Machine) : outcome Machine :=
  for_range 0 PageSize (fun i m =>
    let vAddr := vpn * PageSize + i in
    let pAddr := phy * PageSize + i in
    pos ← file_position fa vAddr;
    match pos with
    | Some p => b ← ReadAt in_file 1 p; mem ← buf_put (mainMemory m) pAddr b; Ok (with_memory mem m)
    | None => Ok m
    end) m.

(** [e.valid = FALSE]; the entry of a page just brought in. *)
Definition invalidate (e : TranslationEntry) : TranslationEntry :=
  mkTE (virtualPage e) (physicalPage e) false (readOnly e) (use e) (dirty e) (DiskFile e).
Definition resident (phy : Z) (e : TranslationEntry) : TranslationEntry :=
  mkTE (virtualPage e) phy true false false false (DiskFile e).

(** The updates of the two tables at the end of the handler. *)
Definition update_tables (vpn phy vir : Z) (m : Machine) : outcome Machine :=
  g ← arr_get (GlobalPageTable m) phy;
  m ← match RefPageTable g with
      | None => Ok m
      | Some a =>
          t ← get_table m (Some a);
          e ← arr_get t vir;
          t ← arr_set t vir (invalidate e);
          Ok (set_table (Some a) t m)
      end;
  t ← get_table m (Machine.pageTable m);
  e ← arr_get t vpn;
  gt ← arr_set (GlobalPageTable m) phy (mkGlobal (virtualPage e) 0 (Machine.pageTable m));
  t ← arr_set t vpn (resident phy e);
  Ok (set_table (Machine.pageTable m) t (with_global gt m)).

(** The case [PageFaultException] of [ExceptionHandler]. *)
Definition page_fault (vir0 : Z) (fs : files) (m : Machine) : outcome (files * Machine) :=
  virAddr ← ReadRegister m BadVAddrReg;
  let vpn := Z.quot virAddr PageSize in
  '(fs, m, phy, vir) ← choose_frame vir0 vpn fs m;
  t ← get_table m (Machine.pageTable m);
  e ← arr_get t vpn;
  match fs !! DiskFile e with
  | None => Err AssertFailed
  | Some in_file =>
      m ← fill_frame in_file (Machine.FileAddr m) vpn phy m;
      m ← update_tables vpn phy vir m;
      Ok (fs, m)
  end.

(** ** The kernel around it *)
Class FileState (K : Type) := {
  k_files : K -> files;
  set_files : files -> K -> K;
}.

Section handler.
Context {K : Type} `{InterruptState K} `{MachineState K} `{FileState K}.
Context (vir0 : Z).
Context (host_write : Z -> list Z -> K -> outcome (K * Z)).
Context (host_read : Z -> Z -> Z -> K -> outcome (K * Z)).
Context (host_fork : K -> outcome (K * Z)).
Context (host_waitpid : Z -> K -> outcome (K * Z)).
Context (buffer0 : list Z).

(** [kernel->machine->ReadRegister], [kernel->machine->WriteRegister] *)
Definition read_reg (i : Z) (k : K) : outcome Z := ReadRegister (k_machine k) i.
Definition write_reg (i v : Z) (k : K) : outcome K := m ← WriteRegister (k_machine k) i v; Ok (set_machine m k).

(** [incrementPC] *)
Definition incrementPC (k : K) : outcome K :=
  pc ← read_reg PCReg k;
  k ← write_reg PrevPCReg pc k;
  npc ← read_reg NextPCReg k;
  k ← write_reg PCReg npc k;
  npc ← read_reg NextPCReg k;
  write_reg NextPCReg (to_int (npc + 4)) k.

(** What SC_Add does to the program counters instead. *)
Definition add_advance (k : K) : outcome K :=
  pc ← read_reg PCReg k;
  k ← write_reg PrevPCReg pc k;
  pc ← read_reg PCReg k;
  k ← write_reg PCReg (to_int (pc + 4)) k;
  pc ← read_reg PCReg k;
  write_reg NextPCReg (to_int (pc + 4)) k.

(** The handler as [ReadMem] and [WriteMem] reach it: their exceptions are
    never system calls, and all but page faults end in ASSERTNOTREACHED. *)
Definition memory_handler (which : ExceptionType) (k : K) : outcome K :=
  match which with
  | PageFaultException =>
      '(fs, m) ← page_fault vir0 (k_files k) (k_machine k);
      Ok (set_files fs (set_machine m k))
  | _ => Err AssertFailed
  end.

(** The loop of [SysWrite], with [n] bounding its rounds; [ch] is the variable
    that [ReadMem] sets.  The buffer has 128 bytes. *)
Fixpoint write_loop (n : nat) (buf count ch : Z) (buffer : list Z) (k : K) : outcome (K * list Z) :=
  match n with
  | O => Err OutOfFuel
  | S n' =>
      '(k, v) ← ReadMem memory_handler buf 1 k;
      let ch := default ch v in
      buffer ← arr_set buffer count (ch mod 256);
      if negb (ch =? 0) && (count <=? 127) then write_loop n' (to_int (buf + 1)) (count + 1) ch buffer k
      else Ok (k, buffer)
  end.

(** [SysWrite] *)
Definition SysWrite (ch0 buf size id : Z) (k : K) : outcome (K * Z) :=
  '(k, buffer) ← write_loop 130 buf 0 ch0 buffer0 k;
  bytes ← buf_get buffer 0 (to_uint size);
  host_write id bytes k.

(** [SysAdd], [SysRead], [SysJoin] *)
Definition SysAdd (op1 op2 : Z) : outcome Z := int_add op1 op2.
Definition SysRead (buffer size id : Z) (k : K) : outcome (K * Z) := host_read id buffer size k.
Definition SysJoin (id : Z) (k : K) : outcome (K * Z) := host_waitpid id k.

(** [SysExec] in the process that returns from it: [pid] is the truth value of
    [fork() == 0]; the child never returns from [execvp] or [exit]. *)
Definition SysExec (exec_name : Z) (k : K) : outcome (K * Z) :=
  '(k, child) ← host_fork k;
  let pid := if child =? 0 then 1 else 0 in
  if negb (pid =? 0) then Err Halted
  else if pid =? 1 then Ok (k, pid)
  else Ok (k, -1).

(** [ExceptionHandler] *)
Definition ExceptionHandler (ch0 : Z) (which : ExceptionType) (k : K) : outcome K :=
  type ← read_reg 2 k;
  match which with
  | SyscallException =>
      r4 ← read_reg 4 k;
      r5 ← read_reg 5 k;
      r6 ← read_reg 6 k;
      if type =? SC_Halt then Err Halted
      else if type =? SC_Add then
        result ← SysAdd r4 r5;
        k ← write_reg 2 result k;
        add_advance k
      else if type =? SC_Write then
        '(k, n) ← SysWrite ch0 r4 r5 r6 k;
        k ← write_reg 2 n k;
        incrementPC k
      else if type =? SC_Read then
        '(k, n) ← SysRead r4 r5 r6 k;
        k ← write_reg 2 n k;
        incrementPC k
      else if type =? SC_Exec then
        '(k, child) ← SysExec r4 k;
        k ← write_reg 2 child k;
        incrementPC k
      else if type =? SC_Join then
        '(k, result) ← SysJoin r4 k;
        k ← write_reg 2 result k;
        incrementPC k
      else Err AssertFailed
  | PageFaultException => memory_handler PageFaultException k
  | _ => Err AssertFailed
  end.
End handler.

(** ** Who owns which frame *)

(** The entry of virtual page [v] in the page table [b]. *)
Definition page_of (m : Machine) (b : positive) (v : nat) : option TranslationEntry :=
  tables m !! b ≫= (fun t => t !! v).

(** Every referenced frame is the frame of the page that the table of frames
    names, and every valid page has a frame that names it: no two pages share a
    frame. *)
Record mem_inv (m : Machine) : Prop := {
  mi_frames : frames_ok m;
  mi_owner f g b : GlobalPageTable m !! f = Some g -> RefPageTable g = Some b ->
    exists e, 0 <= VirNum g /\ page_of m b (Z.to_nat (VirNum g)) = Some e /\ valid e = true /\ physicalPage e = Z.of_nat f;
  mi_page b v e : page_of m b v = Some e -> valid e = true -> physicalPage e <> -1 ->
    0 <= physicalPage e /\ exists g, GlobalPageTable m !! Z.to_nat (physicalPage e) = Some g /\
      RefPageTable g = Some b /\ VirNum g = Z.of_nat v;
  mi_number b v e : page_of m b v = Some e -> virtualPage e = Z.of_nat v;
}.

Lemma page_of_set m a t v x c w :
  tables m !! a = Some t -> (v < length t)%nat ->
  page_of (set_table (Some a) (<[v := x]> t) m) c w = if decide (c = a /\ w = v) then Some x else page_of m c w.
Proof.
  intros Ha Hv. unfold page_of. cbn [set_table tables with_tables]. destruct (decide (c = a)) as [->|Hc].
  - rewrite lookup_insert_eq, Ha. cbn [mbind option_bind]. destruct (decide (w = v)) as [->|Hw].
    + rewrite decide_True by done. by apply list_lookup_insert_eq.
    + rewrite decide_False by naive_solver. by apply list_lookup_insert_ne.
  - rewrite lookup_insert_ne by done. by rewrite decide_False by naive_solver.
Qed.

Lemma length_set m a t v x c :
  tables m !! a = Some t -> length <$> tables (set_table (Some a) (<[v := x]> t) m) !! c = length <$> tables m !! c.
Proof.
  intros Ha. cbn [set_table tables with_tables]. destruct (decide (c = a)) as [->|Hc].
  - rewrite lookup_insert_eq, Ha. cbn. by rewrite length_insert.
  - by rewrite lookup_insert_ne.
Qed.

Lemma page_of_table m a v e : page_of m a v = Some e -> exists t, tables m !! a = Some t /\ t !! v = Some e.
Proof. unfold page_of. destruct (tables m !! a) as [t|]; [eauto|done]. Qed.

(** The position in the file as a function, once [FileAddr] has its nine words. *)
Definition seg_pos (fa : list Z) (v : Z) : option Z :=
  match fa with
  | [cVir; cSize; cIn; dVir; dSize; dIn; roVir; roSize; roIn] =>
      if (cVir <=? v) && (v <? cVir + cSize) then Some (cIn + v - cVir)
      else if (dVir <=? v) && (v <? dVir + dSize) then Some (dIn + v - dVir)
      else if (roVir <=? v) && (v <? roVir + roSize) then Some (roIn + v - roVir)
      else None
  | _ => None
  end.

Lemma file_position_ok fa v : length fa = 9%nat -> file_position fa v = Ok (seg_pos fa v).
Proof. intros Hl. do 9 (destruct fa as [|? fa]; [done|]). destruct fa; [|done]. done. Qed.

(** The byte that the handler puts at virtual address [v] in the frame. *)
Definition paged_byte (in_file fa : list Z) (v : Z) : option Z :=
  match seg_pos fa v with Some p => in_file !! Z.to_nat p | None => None end.

Record filled (in_file fa : list Z) (vpn : Z) (phy n : nat) (mem mem' : list Z) : Prop := {
  fl_length : length mem' = length mem;
  fl_page o : (o < n)%nat -> mem' !! (phy * 128 + o)%nat =
    match paged_byte in_file fa (vpn * 128 + Z.of_nat o) with Some b => Some b | None => mem !! (phy * 128 + o)%nat end;
  fl_other q : (q < phy * 128 \/ phy * 128 + n <= q)%nat -> mem' !! q = mem !! q;
}.

Lemma fill_frame_ok in_file fa vpn phy m :
  length (mainMemory m) = Z.to_nat MemorySize -> length fa = 9%nat -> (phy < 128)%nat ->
  (forall o p, 0 <= o < 128 -> seg_pos fa (vpn * 128 + o) = Some p -> 0 <= p) ->
  exists mem, fill_frame in_file fa vpn (Z.of_nat phy) m = Ok (with_memory mem m) /\
    filled in_file fa vpn phy 128 (mainMemory m) mem.
Proof.
  intros Hm Hfa Hphy Hpos. assert (Z.of_nat (length (mainMemory m)) = 16384) as Hml by (by rewrite Hm). unfold fill_frame.
  edestruct (for_range_ind (fun i m' => exists mem, m' = with_memory mem m /\
    filled in_file fa vpn phy (Z.to_nat i) (mainMemory m) mem)) as (m' & HL & mem & -> & HF);
    [| | |rewrite HL; by exists mem]; [done| |].
  { exists (mainMemory m). split; [by destruct m|]. split; [done|lia|done]. }
  intros i m' Hi (mem & -> & [L P O]). change PageSize with 128 in *. rewrite file_position_ok by done. cbn [mbind outcome_bind].
  assert (forall mem', length mem' = length mem ->
    (mem' !! (phy * 128 + Z.to_nat i)%nat =
       match paged_byte in_file fa (vpn * 128 + i) with Some b => Some b | None => mem !! (phy * 128 + Z.to_nat i)%nat end) ->
    (forall q, q <> (phy * 128 + Z.to_nat i)%nat -> mem' !! q = mem !! q) ->
    filled in_file fa vpn phy (Z.to_nat (i + 1)) (mainMemory m) mem') as Hstep.
  { intros mem' Hl' Hb' Ho'. rewrite Z2Nat.inj_add, Nat.add_1_r by lia. split; [congruence| |].
    - intros o Ho. destruct (decide (o = Z.to_nat i)) as [->|Hne].
      + rewrite Hb', Z2Nat.id by lia. rewrite (O (phy * 128 + Z.to_nat i)%nat) by lia. done.
      + rewrite Ho' by lia. apply P. lia.
    - intros q Hq. rewrite Ho' by lia. apply O. lia. }
  unfold paged_byte in Hstep. destruct (seg_pos fa (vpn * 128 + i)) as [p|] eqn:Ep.
  - assert (0 <= p) as Hp by (by apply (Hpos i)). unfold ReadAt. rewrite (proj2 (Z.leb_le 0 p)) by done. cbn [ASSERT mbind outcome_bind].
    cbn [mainMemory with_memory]. replace (Z.of_nat phy * 128 + i) with (Z.of_nat (phy * 128 + Z.to_nat i)) by lia.
    change (Z.to_nat 1) with 1%nat. destruct (in_file !! Z.to_nat p) as [b|] eqn:Eb.
    + rewrite (drop_S _ _ _ Eb). change (take 1 (b :: ?l)) with [b]. rewrite buf_put_ok by (cbn [length]; lia). rewrite Nat2Z.id.
      cbn [mbind outcome_bind]. eexists. split; [reflexivity|]. eexists. split; [reflexivity|]. apply Hstep.
      * apply length_splice. cbn [length]. lia.
      * rewrite lookup_splice, decide_True by (cbn [length]; lia). by replace (_ - _)%nat with 0%nat by lia.
      * intros q Hq. rewrite lookup_splice, decide_False by (cbn [length]; lia). done.
    + rewrite drop_ge by (by apply lookup_ge_None). change (take 1 []) with (@nil Z). rewrite buf_put_ok by (cbn [length]; lia).
      rewrite Nat2Z.id. cbn [mbind outcome_bind]. eexists. split; [reflexivity|]. eexists. split; [reflexivity|]. apply Hstep.
      * apply length_splice. cbn [length]. lia.
      * rewrite lookup_splice, decide_False by (cbn [length]; lia). done.
      * intros q Hq. rewrite lookup_splice, decide_False by (cbn [length]; lia). done.
  - eexists. split; [reflexivity|]. exists mem. split; [done|]. by apply Hstep.
Qed.

(** The two table updates of an eviction: frame [i] goes from page [(b, vir)] to
    page [(a, vpn)]. *)
Lemma update_tables_ok m a vpn e i g b ev :
  mem_inv m -> Machine.pageTable m = Some a -> page_of m a vpn = Some e -> valid e = false \/ physicalPage e = -1 ->
  GlobalPageTable m !! i = Some g -> RefPageTable g = Some b -> page_of m b (Z.to_nat (VirNum g)) = Some ev ->
  exists m', update_tables (Z.of_nat vpn) (Z.of_nat i) (VirNum g) m = Ok m' /\
    (forall c w, page_of m' c w =
       if decide (c = a /\ w = vpn) then Some (resident (Z.of_nat i) e)
       else if decide (c = b /\ w = Z.to_nat (VirNum g)) then Some (invalidate ev) else page_of m c w) /\
    (forall c, length <$> tables m' !! c = length <$> tables m !! c) /\
    GlobalPageTable m' = <[i := mkGlobal (Z.of_nat vpn) 0 (Some a)]> (GlobalPageTable m) /\
    mainMemory m' = mainMemory m /\ registers m' = registers m /\ tlb m' = tlb m /\
    Machine.pageTable m' = Machine.pageTable m /\ pageTableSize m' = pageTableSize m /\ Machine.FileAddr m' = Machine.FileAddr m.
Proof.
  intros Hinv Hpt He Hbad Hg Hb Hev. unfold update_tables.
  assert (i < length (GlobalPageTable m))%nat as Hi by by eapply lookup_lt_Some.
  rewrite (arr_get_Some (GlobalPageTable m) (Z.of_nat i) g) by (rewrite ?Nat2Z.id; done || lia). cbn [mbind outcome_bind]. rewrite Hb.
  destruct (mi_owner _ Hinv _ _ _ Hg Hb) as (ev' & Hv0 & Hev' & Hval & Hph). rewrite Hev in Hev'. injection Hev' as <-.
  destruct (page_of_table _ _ _ _ Hev) as (tb & Htb & Hvb). assert (Z.to_nat (VirNum g) < length tb)%nat as Hvl by by eapply lookup_lt_Some.
  unfold get_table. rewrite Htb. cbn [mbind outcome_bind]. rewrite (arr_get_Some _ _ _ Hv0 Hvb). cbn [mbind outcome_bind].
  rewrite arr_set_lt by lia. cbn [mbind outcome_bind].
  set (m1 := set_table (Some b) _ m). assert (Machine.pageTable m1 = Some a) as Hpt1 by done.
  assert (page_of m1 a vpn = Some e) as He1.
  { unfold m1. rewrite (page_of_set m b tb) by done. rewrite decide_False; [done|]. intros [-> ->].
    rewrite Hev in He. injection He as <-. destruct Hbad; [congruence|lia]. }
  destruct (page_of_table _ _ _ _ He1) as (t1 & Ht1 & Hvt). assert (vpn < length t1)%nat as Hvl1 by by eapply lookup_lt_Some.
  rewrite Hpt1, Ht1. cbn [mbind outcome_bind]. rewrite (arr_get_Some t1 (Z.of_nat vpn) e) by (rewrite ?Nat2Z.id; done || lia).
  cbn [mbind outcome_bind]. change (GlobalPageTable m1) with (GlobalPageTable m).
  rewrite (arr_set_lt (GlobalPageTable m)) by lia. cbn [mbind outcome_bind]. rewrite (arr_set_lt t1) by lia. cbn [mbind outcome_bind].
  eexists. split; [reflexivity|]. rewrite !Nat2Z.id. split.
  - intros c w. set (m2 := with_global _ m1). assert (tables m2 !! a = Some t1) as Ht2 by done.
    rewrite (page_of_set m2 a t1) by done. case_decide; [done|]. change (page_of m2 c w) with (page_of m1 c w).
    unfold m1. rewrite (page_of_set m b tb) by done. done.
  - split.
    { intros c. set (m2 := with_global _ m1). rewrite (length_set m2 a t1) by done. exact (length_set m b tb _ _ c Htb). }
    cbn. rewrite (mi_number _ Hinv a vpn e He). by split_and!.
Qed.

Lemma evict_inv m m' a vpn e i g b ev mem :
  mem_inv m -> page_of m a vpn = Some e -> valid e = false \/ physicalPage e = -1 ->
  GlobalPageTable m !! i = Some g -> RefPageTable g = Some b -> page_of m b (Z.to_nat (VirNum g)) = Some ev ->
  (forall c w, page_of m' c w =
     if decide (c = a /\ w = vpn) then Some (resident (Z.of_nat i) e)
     else if decide (c = b /\ w = Z.to_nat (VirNum g)) then Some (invalidate ev) else page_of m c w) ->
  GlobalPageTable m' = <[i := mkGlobal (Z.of_nat vpn) 0 (Some a)]> (GlobalPageTable m) ->
  mainMemory m' = mem -> length mem = Z.to_nat MemorySize -> mem_inv m'.
Proof.
  intros Hinv He Hbad Hg Hb Hev Hpages Hgl <- Hmem.
  assert (i < length (GlobalPageTable m))%nat as Hi by by eapply lookup_lt_Some.
  destruct (mi_owner _ Hinv _ _ _ Hg Hb) as (ev' & Hv0 & Hev' & Hval & Hph). rewrite Hev in Hev'. injection Hev' as <-.
  split.
  - split; [|done]. rewrite Hgl, length_insert. apply Hinv.
  - intros f g' c Hf Hc. rewrite Hgl in Hf. destruct (decide (f = i)) as [->|Hne].
    + rewrite list_lookup_insert_eq in Hf by done. injection Hf as <-. cbn in *. injection Hc as <-.
      exists (resident (Z.of_nat i) e). rewrite Nat2Z.id, Hpages, decide_True by done. split_and!; [lia|done|done|done].
    + rewrite list_lookup_insert_ne in Hf by done. destruct (mi_owner _ Hinv _ _ _ Hf Hc) as (e' & H0' & He' & Hv' & Hp').
      exists e'. split_and!; [done| |done|done]. rewrite Hpages, !decide_False; [done| |].
      * intros [-> E]. rewrite E, Hev in He'. injection He' as <-. lia.
      * intros [-> E]. rewrite E, He in He'. injection He' as <-. destruct Hbad; [congruence|lia].
  - intros c w e' He' Hv' Hp'. rewrite Hpages in He'. rewrite Hgl. case_decide as E1.
    { destruct E1 as [-> ->]. injection He' as <-. cbn in *. split; [lia|]. rewrite Nat2Z.id.
      eexists. split; [by apply list_lookup_insert_eq|]. done. }
    case_decide as E2; [by injection He' as <-|].
    destruct (mi_page _ Hinv _ _ _ He' Hv' Hp') as (H0' & g' & Hg' & Hr' & Hn'). split; [done|]. exists g'.
    split; [|done]. rewrite list_lookup_insert_ne; [done|]. intros E. rewrite <- E, Hg in Hg'. injection Hg' as <-.
    apply E2. split; [congruence|]. rewrite Hn'. lia.
  - intros c w e' He'. rewrite Hpages in He'. case_decide as E1.
    { destruct E1 as [-> ->]. injection He' as <-. by apply (mi_number _ Hinv _ _ _ He). }
    case_decide as E2; [|by apply (mi_number _ Hinv _ _ _ He')].
    destruct E2 as [-> ->]. injection He' as <-. by apply (mi_number _ Hinv _ _ _ Hev).
Qed.

(** ** The file of the victim *)
Record written_back (fs fs' : files) (mem : list Z) (i : nat) (ev : TranslationEntry) : Prop := {
  wb_dom nm : is_Some (fs' !! nm) <-> is_Some (fs !! nm);
  wb_clean : dirty ev = false -> fs' = fs;
  wb_other nm : nm <> DiskFile ev -> fs' !! nm = fs !! nm;
  wb_page : dirty ev = true -> forall file', fs' !! DiskFile ev = Some file' ->
    forall o, (o < 128)%nat -> file' !! (Z.to_nat (virtualPage ev) * 128 + o)%nat = mem !! (i * 128 + o)%nat;
  wb_rest file file' q : fs !! DiskFile ev = Some file -> fs' !! DiskFile ev = Some file' -> (q < length file)%nat ->
    (q < Z.to_nat (virtualPage ev) * 128 \/ Z.to_nat (virtualPage ev) * 128 + 128 <= q)%nat -> file' !! q = file !! q;
}.

Lemma write_back_ok fs m i ev :
  frames_ok m -> (i < 128)%nat -> is_Some (fs !! DiskFile ev) -> 0 <= virtualPage ev ->
  exists fs', write_back fs m (Z.of_nat i) ev = Ok fs' /\ written_back fs fs' (mainMemory m) i ev.
Proof.
  intros [_ Hm] Hi [file Hf] Hv. assert (Z.of_nat (length (mainMemory m)) = 16384) as Hml by (by rewrite Hm).
  unfold write_back. rewrite Hf. destruct (dirty ev) eqn:Ed; [|exists fs; split; [done|]; split; [done|done|done|congruence|congruence]].
  change PageSize with 128. rewrite buf_get_ok by lia. cbn [mbind outcome_bind]. unfold WriteAt.
  rewrite (proj2 (Z.leb_le 0 (virtualPage ev * 128))) by lia. cbn [ASSERT mbind outcome_bind]. eexists. split; [reflexivity|].
  set (page := take _ (drop _ _)). assert (length page = 128%nat) as Hpl by (unfold page; rewrite length_take, length_drop; lia).
  split.
  - intros nm. destruct (decide (nm = DiskFile ev)) as [->|]; [|by rewrite lookup_insert_ne].
    rewrite lookup_insert_eq, Hf. split; eauto.
  - congruence.
  - intros nm Hne. by rewrite lookup_insert_ne.
  - intros _ file' Hf' o Ho. rewrite lookup_insert_eq in Hf'. injection Hf' as <-.
    replace (Z.to_nat (virtualPage ev * 128)) with (Z.to_nat (virtualPage ev) * 128)%nat by lia.
    rewrite lookup_splice, decide_True by (rewrite ?length_app, ?length_replicate; lia).
    replace (_ - _)%nat with o by lia. unfold page. rewrite lookup_take_lt, lookup_drop by lia. f_equal. lia.
  - intros file0 file' q Hf0 Hf' Hq Hout. rewrite Hf in Hf0. injection Hf0 as <-. rewrite lookup_insert_eq in Hf'. injection Hf' as <-.
    replace (Z.to_nat (virtualPage ev * 128)) with (Z.to_nat (virtualPage ev) * 128)%nat by lia.
    rewrite lookup_splice, decide_False by (rewrite ?length_app, ?length_replicate; lia). by apply lookup_app_l.
Qed.

(** ** A page fault with no frame free *)

(** The machine at a page fault on page [vpn] of the running program [a]. *)
Record faulting (fs : files) (m : Machine) (a : positive) (vpn : nat) (e : TranslationEntry) : Prop := {
  fa_inv : mem_inv m;
  fa_regs : length (registers m) = Z.to_nat NumTotalRegs;
  fa_addr : 0 <= reg m BadVAddrReg /\ Z.to_nat (reg m BadVAddrReg / 128) = vpn;
  fa_table : Machine.pageTable m = Some a;
  fa_page : page_of m a vpn = Some e;
  fa_absent : valid e = false \/ physicalPage e = -1;
  fa_segments : length (Machine.FileAddr m) = 9%nat;
  fa_positions o p : 0 <= o < 128 -> seg_pos (Machine.FileAddr m) (Z.of_nat vpn * 128 + o) = Some p -> 0 <= p;
  fa_files b v e' : page_of m b v = Some e' -> is_Some (fs !! DiskFile e');
}.

(** Frame [i] has the smallest use stamp of all, and is the first one with it. *)
Definition least_used (m : Machine) (i : nat) (g : GlobalEntry) : Prop :=
  forall j g', GlobalPageTable m !! j = Some g' -> useStamp g <= useStamp g' /\ ((j < i)%nat -> useStamp g < useStamp g').

(** What eviction and reload of the page achieve. *)
Record paged_in (fs fs' : files) (m m' : Machine) (a : positive) (vpn : nat) (e : TranslationEntry)
    (i : nat) (b : positive) (vir : nat) (ev : TranslationEntry) : Prop := {
  pi_inv : mem_inv m';
  pi_victim : page_of m b vir = Some ev /\ valid ev = true /\ physicalPage ev = Z.of_nat i /\ (b, vir) <> (a, vpn);
  pi_least : exists g, GlobalPageTable m !! i = Some g /\ RefPageTable g = Some b /\ VirNum g = Z.of_nat vir /\ least_used m i g;
  pi_pages c w : page_of m' c w =
    if decide (c = a /\ w = vpn) then Some (resident (Z.of_nat i) e)
    else if decide (c = b /\ w = vir) then Some (invalidate ev) else page_of m c w;
  pi_shape c : length <$> tables m' !! c = length <$> tables m !! c;
  pi_global : GlobalPageTable m' = <[i := mkGlobal (Z.of_nat vpn) 0 (Some a)]> (GlobalPageTable m);
  pi_back : written_back fs fs' (mainMemory m) i ev;
  pi_bytes : exists in_file, fs' !! DiskFile e = Some in_file /\
    filled in_file (Machine.FileAddr m) (Z.of_nat vpn) i 128 (mainMemory m) (mainMemory m');
  pi_same : registers m' = registers m /\ tlb m' = tlb m /\ Machine.pageTable m' = Machine.pageTable m /\
    pageTableSize m' = pageTableSize m /\ Machine.FileAddr m' = Machine.FileAddr m;
}.

Lemma read_fault_addr m : length (registers m) = Z.to_nat NumTotalRegs -> ReadRegister m BadVAddrReg = Ok (reg m BadVAddrReg).
Proof.
  intros Hl. unfold ReadRegister, reg. cbn [ASSERT mbind outcome_bind].
  change (Z.to_nat NumTotalRegs) with 40%nat in Hl. change BadVAddrReg with 39.
  destruct (lookup_lt_is_Some_2 (registers m) 39) as [v Hv]; [lia|].
  change ((0 <=? 39) && (39 <? NumTotalRegs)) with true. cbn [ASSERT mbind outcome_bind].
  rewrite (arr_get_Some _ 39 v) by (done || lia). change (Z.to_nat 39) with 39%nat. by rewrite Hv.
Qed.

(** The frame chosen when all are referenced. *)
Lemma choose_victim fs m vpn vir0 :
  mem_inv m -> Forall (fun g => RefPageTable g <> None) (GlobalPageTable m) ->
  (forall b v e', page_of m b v = Some e' -> is_Some (fs !! DiskFile e')) ->
  exists fs' i g b ev, choose_frame vir0 vpn fs m = Ok (fs', m, Z.of_nat i, VirNum g) /\
    GlobalPageTable m !! i = Some g /\ RefPageTable g = Some b /\ page_of m b (Z.to_nat (VirNum g)) = Some ev /\
    valid ev = true /\ physicalPage ev = Z.of_nat i /\ written_back fs fs' (mainMemory m) i ev /\ least_used m i g.
Proof.
  intros Hinv Hall Hfs. pose proof (mi_frames _ Hinv) as Hfo. unfold choose_frame.
  rewrite findFreeFrame_free by apply Hfo. destruct (free_frames _) as [|j l] eqn:Efr.
  2: { exfalso. assert (j ∈ free_frames (GlobalPageTable m)) as Hj by (rewrite Efr; left). apply elem_of_free_frames in Hj.
       destruct (GlobalPageTable m !! j) as [g|] eqn:Eg; [|unfold is_free in Hj; by rewrite Eg in Hj].
       apply (is_free_None _ _ _ Eg) in Hj. by apply (Forall_lookup_1 _ _ _ _ Hall Eg). }
  cbn [mbind outcome_bind]. destruct (findFreeByLRU_ok m (proj1 Hfo) Hall) as (i & g & -> & Hg & Hleast). cbn [mbind outcome_bind Z.eqb].
  rewrite (arr_get_Some _ (Z.of_nat i) g) by (rewrite ?Nat2Z.id; done || lia). cbn [mbind outcome_bind].
  destruct (RefPageTable g) as [b|] eqn:Eb; [|by destruct (Forall_lookup_1 _ _ _ _ Hall Hg)].
  destruct (mi_owner _ Hinv _ _ _ Hg Eb) as (ev & Hv0 & Hev & Hval & Hph).
  destruct (page_of_table _ _ _ _ Hev) as (tb & Htb & Hvb). unfold get_table. rewrite Htb. cbn [mbind outcome_bind].
  rewrite (arr_get_Some _ _ _ Hv0 Hvb). cbn [mbind outcome_bind].
  assert (i < 128)%nat as Hi by (apply lookup_lt_Some in Hg; by rewrite (proj1 Hfo) in Hg).
  destruct (write_back_ok fs m i ev Hfo Hi (Hfs _ _ _ Hev)) as (fs' & -> & Hwb);
    [rewrite (mi_number _ Hinv _ _ _ Hev); lia|].
  cbn [mbind outcome_bind]. exists fs', i, g, b, ev. by split_and!.
Qed.

Lemma page_fault_evicts fs m a vpn e vir0 :
  faulting fs m a vpn e -> Forall (fun g => RefPageTable g <> None) (GlobalPageTable m) ->
  exists fs' m' i b vir ev, page_fault vir0 fs m = Ok (fs', m') /\ paged_in fs fs' m m' a vpn e i b vir ev.
Proof.
  intros [Hinv Hregs [Ha0 Hav] Hpt He Hbad Hfa Hpos Hfs] Hall. unfold page_fault. rewrite read_fault_addr by done.
  cbn [mbind outcome_bind]. rewrite Z.quot_div_nonneg by (unfold PageSize; lia). change PageSize with 128.
  replace (reg m BadVAddrReg / 128) with (Z.of_nat vpn) by (rewrite <- Hav, Z2Nat.id by (apply Z.div_pos; lia); done).
  destruct (choose_victim fs m (Z.of_nat vpn) vir0 Hinv Hall Hfs) as (fs' & i & g & b & ev & -> & Hg & Hb & Hev & Hval & Hph & Hwb & Hleast).
  cbn [mbind outcome_bind]. destruct (page_of_table _ _ _ _ He) as (t & Ht & Hvt). unfold get_table. rewrite Hpt, Ht. cbn [mbind outcome_bind].
  rewrite (arr_get_Some t (Z.of_nat vpn) e) by (rewrite ?Nat2Z.id; done || lia). cbn [mbind outcome_bind].
  destruct (proj2 (wb_dom _ _ _ _ _ Hwb (DiskFile e)) (Hfs _ _ _ He)) as [in_file Hin]. rewrite Hin.
  assert (i < 128)%nat as Hi by (apply lookup_lt_Some in Hg; by rewrite (proj1 (mi_frames _ Hinv)) in Hg).
  destruct (fill_frame_ok in_file (Machine.FileAddr m) (Z.of_nat vpn) i m (proj2 (mi_frames _ Hinv)) Hfa Hi Hpos) as (mem & -> & Hfl).
  cbn [mbind outcome_bind]. set (m1 := with_memory mem m).
  assert (mem_inv m1) as Hinv1.
  { destruct Hinv as [[Hf1 Hf2] Ho Hp Hn]. split; [|exact Ho|exact Hp|exact Hn]. split; [done|]. cbn. rewrite (fl_length _ _ _ _ _ _ _ Hfl). done. }
  destruct (update_tables_ok m1 a vpn e i g b ev Hinv1 Hpt He Hbad Hg Hb Hev) as (m' & -> & Hpages & Hlens & Hgl & Hmem & Hsame).
  cbn [mbind outcome_bind]. exists fs', m', i, b, (Z.to_nat (VirNum g)), ev. split; [done|]. split.
  - eapply (evict_inv m1 m' a vpn e i g b ev); [done..|]. apply Hinv1.
  - split_and!; [done..|]. intros E. injection E as -> E. rewrite E, He in Hev. injection Hev as <-. destruct Hbad; [congruence|lia].
  - exists g. destruct (mi_owner _ Hinv _ _ _ Hg Hb) as (_ & Hv0 & _). split_and!; [done|done|lia|done].
  - done.
  - done.
  - done.
  - done.
  - exists in_file. split; [done|]. by rewrite Hmem.
  - exact Hsame.
Qed.

Lemma Loaded_inv file fileName h m m' sp sp' a t :
  mem_inv m -> Loaded file fileName h m m' sp sp' a t -> mem_inv m'.
Proof.
  intros [[Hg Hm] Ho Hp Hn] [_ [Hfr Htab] Hlt Hent _ Hown Hkeep (_ & _ & _ & Hfo)]. change (Z.to_nat NumPhysPages) with 128%nat in *.
  set (fr := free_frames (GlobalPageTable m)) in *.
  assert (forall c w, page_of m' c w = if decide (c = a) then t !! w else page_of m c w) as Hpg.
  { intros c w. unfold page_of. rewrite Htab. case_decide as E; [subst c; by rewrite lookup_insert_eq|by rewrite lookup_insert_ne]. }
  assert (forall w e, t !! w = Some e -> e = page_entry fileName fr w) as Hte.
  { intros w e Hw. assert (w < 128)%nat as Hw' by (rewrite <- Hlt; by eapply lookup_lt_Some). rewrite Hent in Hw by done. congruence. }
  assert (forall f, is_free (GlobalPageTable m) f = true -> exists j, fr !! j = Some f /\ (j < 128)%nat) as Hfree.
  { intros f Hf. apply elem_of_free_frames, list_elem_of_lookup in Hf as [j Hj]. exists j. split; [done|].
    apply lookup_lt_Some in Hj. eapply Nat.lt_le_trans; [exact Hj|]. unfold free_frames. etrans; [apply length_filter|].
    rewrite length_seq. lia. }
  split; [done| | |].
  - intros f g b Hf Hb. destruct (is_free (GlobalPageTable m) f) eqn:Ef.
    + destruct (Hfree f Ef) as (j & Hj & Hj'). rewrite (Hown j f Hj) in Hf. injection Hf as <-. cbn in *. injection Hb as <-.
      exists (page_entry fileName fr j). rewrite Nat2Z.id, Hpg, decide_True, Hent by done. unfold page_entry, frame_of. cbn. rewrite Hj.
      split_and!; [lia|done..].
    + rewrite (proj1 (Hkeep f Ef)) in Hf. destruct (Ho f g b Hf Hb) as (e & H0 & He & Hrest). exists e. split; [done|]. split; [|done].
      rewrite Hpg, decide_False; [done|]. intros ->. unfold page_of in He. by rewrite Hfr in He.
  - intros b v e He Hv Hph. rewrite Hpg in He. case_decide as Eb.
    + subst b. rewrite (Hte v e He) in *. cbn in Hph |- *. unfold frame_of in *. destruct (fr !! v) as [f|] eqn:Ev; [|done].
      split; [lia|]. rewrite Nat2Z.id. eexists. split; [by apply Hown|]. done.
    + destruct (Hp b v e He Hv Hph) as (H0 & g & Hgl & Hr & Hvn). split; [done|]. exists g. split; [|done].
      destruct (Hkeep (Z.to_nat (physicalPage e))) as [-> _]; [|done].
      apply not_true_is_false. rewrite (is_free_None _ _ _ Hgl). congruence.
  - intros b v e He. rewrite Hpg in He. case_decide; [|by eapply Hn]. by rewrite (Hte v e He).
Qed.

(** ** Properties of the component *)

(** C15: a page fault when every frame is in use.  The handler returns; the
    page in the frame with the smallest use stamp (the first such frame), written
    to its file if dirty, becomes invalid; the
    faulting page becomes valid in that frame with the bytes of its segments
    read from the program's file; no other page or frame changes; the ownership
    invariant still holds; and the access that faulted now translates. *)
Theorem page_fault_correct fs m a vpn e vir0 :
  faulting fs m a vpn e -> Forall (fun g => RefPageTable g <> None) (GlobalPageTable m) ->
  exists fs' m' i b vir ev, page_fault vir0 fs m = Ok (fs', m') /\ paged_in fs fs' m m' a vpn e i b vir ev /\
    forall t' n size w, tables m' !! a = Some t' -> Z.of_nat vpn < n -> is_int (reg m BadVAddrReg) ->
      misaligned (reg m BadVAddrReg) size = false ->
      lookup_page t' n (reg m BadVAddrReg) size w = inr (Z.of_nat i * 128 + reg m BadVAddrReg mod 128).
Proof.
  intros Hf Hall. destruct (page_fault_evicts fs m a vpn e vir0 Hf Hall) as (fs' & m' & i & b & vir & ev & HP & Hpi).
  exists fs', m', i, b, vir, ev. split; [done|]. split; [done|]. intros t' n size w Ht' Hn Hint Hal.
  destruct Hf as [Hinv _ [H0 Hv] _ He _ _ _ _]. unfold lookup_page. rewrite Hal. unfold vpn_of, offset_of.
  unfold is_int in Hint. rewrite to_uint_id by (unfold is_uint; lia). rewrite Hv.
  assert (0 <= reg m BadVAddrReg / 128) as Hd by (apply Z.div_pos; lia).
  rewrite (proj2 (Z.leb_gt n _)) by lia.
  assert (t' !! vpn = Some (resident (Z.of_nat i) e)) as ->.
  { pose proof (pi_pages _ _ _ _ _ _ _ _ _ _ _ Hpi a vpn) as Hpg. rewrite decide_True in Hpg by done.
    unfold page_of in Hpg. rewrite Ht' in Hpg. exact Hpg. }
  cbn [resident valid physicalPage readOnly negb andb orb]. rewrite of_nat_not_minus1.
  assert (i < 128)%nat as Hi.
  { destruct (pi_victim _ _ _ _ _ _ _ _ _ _ _ Hpi) as (Hev & Hval & Hph & _).
    destruct (mi_page _ Hinv _ _ _ Hev Hval ltac:(lia)) as (_ & g & Hg & _). rewrite Hph, Nat2Z.id in Hg.
    apply lookup_lt_Some in Hg. by rewrite (proj1 (mi_frames _ Hinv)) in Hg. }
  change NumPhysPages with 128. change PageSize with 128.
  by rewrite (proj2 (Z.leb_le 0 _)), (proj2 (Z.ltb_lt _ 128)) by lia.
Qed.

(** Loading a program keeps every frame with at most one page: starting
    from a machine that satisfies the ownership invariant, whatever programs are
    in memory, [Load] returns in a machine that satisfies it or, if there is no
    such file or it is not a program that fits, does not change the machine. *)
Theorem load_keeps_ownership fs local fileName sp m m' sp' ok :
  mem_inv m -> Load fs local fileName sp m = Ok (m', sp', ok) ->
  (forall file, fs !! fileName = Some file -> let h := exec_header local file in
     sizes_ok h /\ seg_wf file (code h) /\ seg_wf file (initData h) /\ seg_wf file (readonlyData h)) ->
  mem_inv m' /\ (ok = false -> m' = m).
Proof.
  intros Hinv HL Hwf. destruct (fs !! fileName) as [file|] eqn:Ef.
  - destruct (Hwf file eq_refl) as (H1 & H2 & H3 & H4).
    rewrite (Load_image fs local fileName file sp m Ef) in HL.
    pose proof (load_image_ok file fileName (exec_header local file) m sp (mi_frames _ Hinv) H1 H2 H3 H4) as HI.
    destruct (_ && _); [|congruence]. destruct HI as (m1 & sp1 & a & t & HI & HLo). rewrite HI in HL. injection HL as <- <- <-.
    split; [by eapply Loaded_inv|done].
  - unfold Load in HL. rewrite Ef in HL. injection HL as <- <- <-. done.
Qed.

(** A page fault while some frame is free.  The handler then reads the
    local variable [vir], which it never set: if its value is not a page number
    of the program the access is out of bounds, and if it is, that page, which
    has nothing to do with the fault, loses its valid bit. *)
Theorem page_fault_uninitialised fs m a vpn e t i fr vir0 :
  faulting fs m a vpn e -> tables m !! a = Some t -> free_frames (GlobalPageTable m) = i :: fr ->
  if (0 <=? vir0) && (vir0 <? Z.of_nat (length t)) then
    exists m' ev, page_fault vir0 fs m = Ok (fs, m') /\ page_of m a (Z.to_nat vir0) = Some ev /\
      (Z.to_nat vir0 <> vpn -> page_of m' a (Z.to_nat vir0) = Some (invalidate ev)) /\
      exists e', page_of m' a vpn = Some e' /\ valid e' = true /\ physicalPage e' = Z.of_nat i
  else page_fault vir0 fs m = Err Undefined.
Proof.
  intros [Hinv Hregs [Ha0 Hav] Hpt He Hbad Hfa Hpos Hfs] Ht Hfr. unfold page_fault. rewrite read_fault_addr by done.
  cbn [mbind outcome_bind]. rewrite Z.quot_div_nonneg by (unfold PageSize; lia). change PageSize with 128.
  replace (reg m BadVAddrReg / 128) with (Z.of_nat vpn) by (rewrite <- Hav, Z2Nat.id by (apply Z.div_pos; lia); done).
  unfold choose_frame. rewrite findFreeFrame_free, Hfr by apply Hinv. cbn [mbind outcome_bind].
  rewrite of_nat_not_minus1. cbn [mbind outcome_bind]. rewrite Hpt. set (m1 := with_global _ m).
  change (Machine.pageTable m1) with (Machine.pageTable m). unfold get_table. rewrite Hpt. change (tables m1) with (tables m). rewrite Ht.
  cbn [mbind outcome_bind]. assert (t !! vpn = Some e) as Hvt by (unfold page_of in He; by rewrite Ht in He).
  rewrite (arr_get_Some t (Z.of_nat vpn) e) by (rewrite ?Nat2Z.id; done || lia). cbn [mbind outcome_bind].
  destruct (Hfs _ _ _ He) as [in_file ->].
  assert (length (GlobalPageTable m) = 128%nat) as Hgl by apply Hinv.
  assert (i < 128)%nat as Hi by (rewrite <- Hgl; apply (free_frames_lt _ 0); by rewrite Hfr).
  destruct (fill_frame_ok in_file (Machine.FileAddr m1) (Z.of_nat vpn) i m1 (proj2 (mi_frames _ Hinv)) Hfa Hi Hpos) as (mem & -> & _).
  cbn [mbind outcome_bind]. unfold update_tables. cbn [GlobalPageTable with_memory with_global m1].
  rewrite (arr_get_Some _ (Z.of_nat i) (mkGlobal (Z.of_nat vpn) 0 (Some a)))
    by (lia || (rewrite Nat2Z.id; apply list_lookup_insert_eq; lia)).
  cbn [mbind outcome_bind RefPageTable]. unfold get_table. cbn [tables with_memory with_global m1]. rewrite Ht. cbn [mbind outcome_bind].
  destruct ((0 <=? vir0) && (vir0 <? Z.of_nat (length t))) eqn:Ev; [|by rewrite arr_get_ge by lia].
  destruct (arr_get_lt t vir0) as (ev & Hev & ->); [lia|]. cbn [mbind outcome_bind]. rewrite arr_set_lt by lia. cbn [mbind outcome_bind].
  set (t1 := <[Z.to_nat vir0 := invalidate ev]> t). cbn [set_table tables with_tables with_memory with_global m1 Machine.pageTable].
  rewrite Hpt, lookup_insert_eq. cbn [mbind outcome_bind].
  assert (vpn < length t1)%nat as Hvl by (unfold t1; rewrite length_insert; by eapply lookup_lt_Some).
  destruct (arr_get_lt t1 (Z.of_nat vpn)) as (e1 & He1 & ->); [lia|]. cbn [mbind outcome_bind].
  cbn [GlobalPageTable with_tables with_memory with_global m1].
  rewrite (arr_set_lt (<[i := _]> _)) by (rewrite length_insert; lia). cbn [mbind outcome_bind]. rewrite (arr_set_lt t1) by lia. cbn [mbind outcome_bind].
  eexists _, ev. split; [reflexivity|]. unfold page_of. rewrite Nat2Z.id.
  cbn [tables set_table with_tables with_global with_memory Machine.pageTable]. rewrite Ht, lookup_insert_eq.
  cbn [mbind option_bind]. split; [done|]. split.
  - intros Hne. rewrite list_lookup_insert_ne by done. unfold t1. apply list_lookup_insert_eq. lia.
  - eexists. split; [by apply list_lookup_insert_eq|]. done.
Qed.

(** The frame of an evicted page is freed twice.  Eviction clears only the
    valid bit, so the victim's page table still names the frame; when the
    victim's program ends, the destructor clears and frees that frame although
    it now belongs to the page that was brought in, which stays valid: the
    ownership invariant is broken. *)
Theorem delete_after_eviction fs fs' m m' a vpn e i b vir ev sp tb :
  paged_in fs fs' m m' a vpn e i b vir ev -> a <> b -> pageTable sp = Some b ->
  tables m' !! b = Some tb -> length tb = Z.to_nat NumPhysPages ->
  Forall (fun x => -1 <= physicalPage x < NumPhysPages) tb ->
  exists m'', deleteAddrSpace sp m' = Ok m'' /\
    is_free (GlobalPageTable m'') i = true /\ page_of m'' a vpn = Some (resident (Z.of_nat i) e) /\ ~ mem_inv m''.
Proof.
  intros [Hinv (Hev & Hval & Hph & _) _ Hpages _ _ _ _] Hab Hpt Htb Hl Hr.
  destruct (deleteAddrSpace_ok sp b tb m' (mi_frames _ Hinv) Hpt Htb Hl Hr) as (m'' & -> & [Hok (_ & Htabs & _) Hmine _]).
  eexists. split; [reflexivity|].
  assert (tb !! vir = Some (invalidate ev)) as Hstale.
  { pose proof (Hpages b vir) as Hp. rewrite decide_False, decide_True in Hp by naive_solver. unfold page_of in Hp.
    rewrite Htb in Hp. exact Hp. }
  assert (i < 128)%nat as Hi.
  { pose proof (Forall_lookup_1 _ _ _ _ Hr Hstale) as Hx. cbn in Hx. change NumPhysPages with 128 in Hx. lia. }
  assert (is_free (GlobalPageTable m'') i = true) as Hfree.
  { apply Hmine; [done|]. unfold names. rewrite take_ge by (rewrite Hl; done). apply Exists_exists. exists (invalidate ev).
    split; [by eapply list_elem_of_lookup_2|]. done. }
  assert (page_of m' a vpn = Some (resident (Z.of_nat i) e)) as Hres by (by rewrite Hpages, decide_True).
  assert (page_of (with_tables (delete b (tables m')) m'') a vpn = Some (resident (Z.of_nat i) e)) as Hres'.
  { unfold page_of in Hres |- *. cbn [tables with_tables]. by rewrite lookup_delete_ne. }
  split; [exact Hfree|]. split; [exact Hres'|]. intros Hbad.
  destruct (mi_page _ Hbad a vpn _ Hres' eq_refl ltac:(cbn; lia)) as (_ & g & Hg & Hrg & _). cbn in Hg. rewrite Nat2Z.id in Hg.
  apply (is_free_None _ _ _ Hg) in Hfree. congruence.
Qed.

(** Stores to an evicted page are lost.  A dirty page goes to its program's
    file at offset [virtualPage * PageSize], but it comes back from
    [inFileAddr + (vAddr - virtualAddr)]: for every byte whose place in the
    file is not inside the page's own write-back range, what the program reads
    after the next fault is the file's original byte, whatever it had
    stored. *)
Theorem dirty_page_lost fs fs' m i ev m2 i2 o p file b in_file mem2 :
  written_back fs fs' (mainMemory m) i ev -> dirty ev = true -> fs !! DiskFile ev = Some file ->
  fs' !! DiskFile ev = Some in_file ->
  filled in_file (Machine.FileAddr m2) (virtualPage ev) i2 128 (mainMemory m2) mem2 -> (o < 128)%nat -> 0 <= virtualPage ev ->
  seg_pos (Machine.FileAddr m2) (virtualPage ev * 128 + Z.of_nat o) = Some p -> 0 <= p ->
  p < virtualPage ev * 128 \/ virtualPage ev * 128 + 128 <= p -> file !! Z.to_nat p = Some b ->
  in_file !! (Z.to_nat (virtualPage ev) * 128 + o)%nat = mainMemory m !! (i * 128 + o)%nat /\
  mem2 !! (i2 * 128 + o)%nat = Some b.
Proof.
  intros Hwb Hd Hf Hf' Hfl Ho Hv Hsp Hp Hout Hb. split; [by apply (wb_page _ _ _ _ _ Hwb)|].
  rewrite (fl_page _ _ _ _ _ _ _ Hfl) by done. unfold paged_byte. rewrite Hsp.
  rewrite (wb_rest _ _ _ _ _ Hwb file in_file) by (done || lia || by eapply lookup_lt_Some). by rewrite Hb.
Qed.

(** ** System calls *)
Lemma translated_trans m t m1 t1 m2 t2 : translated m t m1 t1 -> translated m1 t1 m2 t2 -> translated m t m2 t2.
Proof.
  intros [R1 M1 S1 F1 W1 L1] [R2 M2 S2 F2 W2 L2]. split; try congruence.
Qed.

(** The byte that user code sees at a virtual address. *)
Definition user_byte (m : Machine) (t : list TranslationEntry) (addr c : Z) : Prop :=
  exists p, 0 <= p /\ lookup_page t (pageTableSize m) addr 1 false = inr p /\ mainMemory m !! Z.to_nat p = Some c.

Lemma user_byte_translated m t m' t' addr c : translated m t m' t' -> user_byte m t addr c -> user_byte m' t' addr c.
Proof.
  intros Htr (p & Hp & Hl & Hm). exists p. split_and!; [done| |by rewrite (tr_mem _ _ _ _ Htr)].
  by rewrite (tr_lookup _ _ _ _ Htr).
Qed.

Lemma signed_char_mod c : is_byte c -> signed_char c mod 256 = c /\ (signed_char c =? 0) = (c =? 0).
Proof.
  unfold is_byte, signed_char. intros Hc. destruct (Z.ltb_spec c 128).
  - split; [by apply Z.mod_small|done].
  - split; [symmetry; apply (Z.mod_unique_pos _ _ (-1)); lia|lia].
Qed.

Section syscalls.
Context {K : Type} `{InterruptState K} `{MachineState K} `{!MachineStateLaws K} `{FileState K}.
Context (vir0 : Z) (buffer0 : list Z).
Implicit Types k : K.

Lemma ReadMem_byte k t addr c :
  space_wf (k_machine k) t -> memory_wf (k_machine k) -> is_byte c -> user_byte (k_machine k) t addr c ->
  exists k' t', ReadMem (memory_handler vir0) addr 1 k = Ok (k', Some (signed_char c)) /\
    translated (k_machine k) t (k_machine k') t'.
Proof.
  intros Hsp Hm Hc (p & Hp & Hl & Hb).
  destruct (ReadMem_ok (memory_handler vir0) k t addr 1 p Hsp ltac:(lia) Hl) as (m' & t' & Htr & HR).
  exists (set_machine m' k), t'. rewrite machine_set_machine. split; [|done]. apply HR.
  unfold read_phys. cbn [Z.eqb Pos.eqb]. apply lookup_lt_Some in Hb as Hlt. rewrite buf_get_ok by lia. cbn [mbind outcome_bind].
  change (Z.to_nat 1) with 1%nat. rewrite (drop_S _ _ _ Hb). cbn [take firstn le_value]. do 2 f_equal. change (take 0 _) with (@nil Z). cbn. lia.
Qed.

Lemma write_loop_string n s count buffer k t buf ch :
  space_wf (k_machine k) t -> memory_wf (k_machine k) -> Forall (fun c => is_byte c /\ c <> 0) s ->
  (forall j c, (s ++ [0]) !! j = Some c -> user_byte (k_machine k) t (buf + Z.of_nat j) c) ->
  0 <= buf -> is_int (buf + Z.of_nat (length s) + 1) -> (length s < n)%nat -> 0 <= count ->
  length buffer = 128%nat -> count + Z.of_nat (length s) <= 127 ->
  exists k' t', write_loop vir0 n buf count ch buffer k = Ok (k', splice buffer (Z.to_nat count) (s ++ [0])) /\
    translated (k_machine k) t (k_machine k') t'.
Proof.
  revert s count buffer k t buf ch. induction n as [|n IH]; intros s count buffer k t buf ch Hsp Hm Hs Hcs Hb0 Hbi Hn Hc0 Hbl Hcn; [lia|].
  cbn [write_loop]. unfold is_int in Hbi. destruct s as [|c s].
  - destruct (ReadMem_byte k t buf 0 Hsp Hm) as (k1 & t1 & -> & Htr); [unfold is_byte; lia| |].
    { specialize (Hcs 0%nat 0 eq_refl). by rewrite Z.add_0_r in Hcs. }
    cbn [mbind outcome_bind default from_option id]. change (signed_char 0) with 0. change (0 mod 256) with 0.
    rewrite arr_set_lt by lia. cbn [mbind outcome_bind negb Z.eqb andb]. exists k1, t1. split; [|done]. do 2 f_equal.
    unfold splice. cbn [app length]. rewrite Nat.add_1_r. apply insert_take_drop. cbn [length] in *. lia.
  - apply Forall_cons in Hs as [[Hc Hnz] Hs]. destruct (ReadMem_byte k t buf c Hsp Hm Hc) as (k1 & t1 & -> & Htr).
    { specialize (Hcs 0%nat c eq_refl). by rewrite Z.add_0_r in Hcs. }
    cbn [mbind outcome_bind default from_option id]. destruct (signed_char_mod c Hc) as [-> ->]. cbn [length] in *.
    rewrite arr_set_lt by lia. cbn [mbind outcome_bind]. rewrite (proj2 (Z.eqb_neq c 0) Hnz), (proj2 (Z.leb_le count 127)) by lia.
    cbn [negb andb]. rewrite to_int_id by (unfold is_int; lia).
    destruct (IH s (count + 1) (<[Z.to_nat count := c]> buffer) k1 t1 (buf + 1) (signed_char c)) as (k2 & t2 & -> & Htr2).
    + apply Htr.
    + by eapply translated_memory.
    + done.
    + intros j c' Hj. eapply user_byte_translated; [done|]. replace (buf + 1 + Z.of_nat j) with (buf + Z.of_nat (S j)) by lia.
      by apply Hcs.
    + lia.
    + unfold is_int. lia.
    + lia.
    + lia.
    + by rewrite length_insert.
    + lia.
    + exists k2, t2. split; [|by eapply translated_trans]. do 2 f_equal. rewrite Z2Nat.inj_add, Nat.add_1_r by lia.
      apply (splice_cons buffer (s ++ [0])). rewrite length_app. cbn [length]. lia.
Qed.

Lemma write_loop_overrun n s last count buffer k t buf ch :
  space_wf (k_machine k) t -> memory_wf (k_machine k) -> Forall (fun c => is_byte c /\ c <> 0) s -> is_byte last ->
  (forall j c, (s ++ [last]) !! j = Some c -> user_byte (k_machine k) t (buf + Z.of_nat j) c) ->
  0 <= buf -> is_int (buf + Z.of_nat (length s) + 1) -> (length s < n)%nat -> 0 <= count ->
  length buffer = 128%nat -> count + Z.of_nat (length s) = 128 ->
  write_loop vir0 n buf count ch buffer k = Err Undefined.
Proof.
  revert s count buffer k t buf ch. induction n as [|n IH]; intros s count buffer k t buf ch Hsp Hm Hs Hlast Hcs Hb0 Hbi Hn Hc0 Hbl Hcn; [lia|].
  cbn [write_loop]. unfold is_int in Hbi. destruct s as [|c s]; cbn [length] in *.
  - destruct (ReadMem_byte k t buf last Hsp Hm Hlast) as (k1 & t1 & -> & _).
    { specialize (Hcs 0%nat last eq_refl). by rewrite Z.add_0_r in Hcs. }
    cbn [mbind outcome_bind default from_option id]. by rewrite arr_set_ge by lia.
  - apply Forall_cons in Hs as [[Hc Hnz] Hs]. destruct (ReadMem_byte k t buf c Hsp Hm Hc) as (k1 & t1 & -> & Htr).
    { specialize (Hcs 0%nat c eq_refl). by rewrite Z.add_0_r in Hcs. }
    cbn [mbind outcome_bind default from_option id]. destruct (signed_char_mod c Hc) as [-> ->].
    rewrite arr_set_lt by lia. cbn [mbind outcome_bind]. rewrite (proj2 (Z.eqb_neq c 0) Hnz), (proj2 (Z.leb_le count 127)) by lia.
    cbn [negb andb]. rewrite to_int_id by (unfold is_int; lia).
    apply (IH s (count + 1) (<[Z.to_nat count := c]> buffer) k1 t1 (buf + 1)); [apply Htr|by eapply translated_memory|done|done| |lia| |lia|lia| |lia].
    + intros j c' Hj. eapply user_byte_translated; [done|]. replace (buf + 1 + Z.of_nat j) with (buf + Z.of_nat (S j)) by lia. by apply Hcs.
    + unfold is_int. lia.
    + by rewrite length_insert.
Qed.

(** [SysWrite] copies the user's string.  A string that ends within 128
    bytes, its terminator included, is fetched through the user's page table
    byte by byte and [size] bytes of it go to the host's [write]; of a string of
    128 or more characters the 129th byte is written past the end of the
    kernel's 128-byte buffer. *)
Theorem syswrite_correct host_write k t ch0 buf s size id :
  space_wf (k_machine k) t -> memory_wf (k_machine k) -> length buffer0 = 128%nat ->
  Forall (fun c => is_byte c /\ c <> 0) s -> 0 <= buf -> is_int (buf + Z.of_nat (length s) + 1) ->
  ((forall j c, (s ++ [0]) !! j = Some c -> user_byte (k_machine k) t (buf + Z.of_nat j) c) ->
     (length s <= 127)%nat -> 0 <= size <= Z.of_nat (length s) + 1 ->
     exists k' t', translated (k_machine k) t (k_machine k') t' /\
       SysWrite vir0 host_write buffer0 ch0 buf size id k = host_write id (take (Z.to_nat size) (s ++ [0])) k') /\
  (forall last, is_byte last -> (forall j c, (s ++ [last]) !! j = Some c -> user_byte (k_machine k) t (buf + Z.of_nat j) c) ->
     length s = 128%nat -> SysWrite vir0 host_write buffer0 ch0 buf size id k = Err Undefined).
Proof.
  intros Hsp Hm Hb0 Hs Hb Hbi. unfold SysWrite. split.
  - intros Hcs Hl Hsz. destruct (write_loop_string 130 s 0 buffer0 k t buf ch0) as (k' & t' & -> & Htr); [done..|lia|lia|done|lia|].
    exists k', t'. split; [done|]. cbn [mbind outcome_bind]. rewrite to_uint_id by (unfold is_uint; lia).
    rewrite buf_get_ok by (rewrite ?length_splice; rewrite ?length_app; cbn [length]; lia). cbn [mbind outcome_bind].
    f_equal. unfold splice. change (Z.to_nat 0) with 0%nat. rewrite take_0, drop_0. cbn [app Nat.add].
    apply take_app_le. rewrite length_app. cbn [length]. lia.
  - intros last Hlast Hcs Hl. rewrite (write_loop_overrun 130 s last 0 buffer0 k t buf ch0); [done|done..|lia|lia|done|lia].
Qed.

End syscalls.

(** ** Registers read and written by the handler *)
Section register_access.
Context {K : Type} `{InterruptState K} `{MachineState K} `{!MachineStateLaws K}.

Lemma read_reg_ok i k :
  length (registers (k_machine k)) = Z.to_nat NumTotalRegs -> 0 <= i < NumTotalRegs -> read_reg i k = Ok (reg (k_machine k) i).
Proof.
  intros Hl Hi. unfold read_reg, ReadRegister, reg. change (Z.to_nat NumTotalRegs) with 40%nat in Hl. change NumTotalRegs with 40 in *.
  rewrite (proj2 (andb_true_iff (0 <=? i) (i <? 40))) by lia. cbn [ASSERT mbind outcome_bind].
  destruct (arr_get_lt (registers (k_machine k)) i) as (v & Hv & ->); [lia|]. by rewrite Hv.
Qed.

Lemma write_reg_ok i v k :
  length (registers (k_machine k)) = Z.to_nat NumTotalRegs -> 0 <= i < NumTotalRegs ->
  write_reg i v k = Ok (set_machine (set_reg i v (k_machine k)) k).
Proof.
  intros Hl Hi. unfold write_reg, WriteRegister. change (Z.to_nat NumTotalRegs) with 40%nat in Hl. change NumTotalRegs with 40 in *.
  rewrite (proj2 (andb_true_iff (0 <=? i) (i <? 40))) by lia. cbn [ASSERT mbind outcome_bind]. by rewrite arr_set_lt by lia.
Qed.

Lemma length_set_reg i v m : length (registers (set_reg i v m)) = length (registers m).
Proof. apply length_insert. Qed.

End register_access.

(** Reading and writing registers one after the other. *)
Ltac reg_step :=
  lazymatch goal with
  | |- context [read_reg ?i ?k] => rewrite (read_reg_ok i k) by (rewrite ?machine_set_machine, ?length_set_reg; done)
  | |- context [write_reg ?i ?v ?k] => rewrite (write_reg_ok i v k) by (rewrite ?machine_set_machine, ?length_set_reg; done)
  end; cbn [mbind outcome_bind]; rewrite ?machine_set_machine;
  rewrite ?reg_set_reg by (rewrite ?length_set_reg; done || lia).

Section results.
Context {K : Type} `{InterruptState K} `{MachineState K} `{!MachineStateLaws K} `{FileState K}.
Context (vir0 : Z) (buffer0 : list Z).

(** What the system calls return.  Halt stops the simulation; Add returns
    the sum when it is an integer and continues at PC + 4 even when the call
    stood in a branch delay slot; Exec returns -1 to its caller whatever the
    host's [fork] returned, because the comparison is stored in [pid]; a code
    without a handler stops in an assertion. *)
Theorem syscall_results host_write host_read host_fork host_waitpid ch0 k :
  length (registers (k_machine k)) = Z.to_nat NumTotalRegs ->
  let m := k_machine k in
  let handler := ExceptionHandler vir0 host_write host_read host_fork host_waitpid buffer0 ch0 SyscallException k in
  (reg m 2 = SC_Halt -> handler = Err Halted) /\
  (reg m 2 = SC_Add ->
     if bool_decide (is_int (reg m 4 + reg m 5)) then
       exists k', handler = Ok k' /\ reg (k_machine k') 2 = reg m 4 + reg m 5 /\
         reg (k_machine k') PCReg = to_int (reg m PCReg + 4) /\
         reg (k_machine k') NextPCReg = to_int (to_int (reg m PCReg + 4) + 4)
     else handler = Err Undefined) /\
  (reg m 2 = SC_Exec -> forall k1 child, host_fork k = Ok (k1, child) -> child <> 0 ->
     length (registers (k_machine k1)) = Z.to_nat NumTotalRegs ->
     exists k', handler = Ok k' /\ reg (k_machine k') 2 = -1 /\
       reg (k_machine k') PCReg = reg (k_machine k1) NextPCReg) /\
  (reg m 2 ∉ [SC_Halt; SC_Add; SC_Write; SC_Read; SC_Exec; SC_Join] -> handler = Err AssertFailed).
Proof.
  intros Hl m handler. unfold handler, ExceptionHandler. do 4 reg_step. fold m. split_and!.
  - intros ->. done.
  - intros ->. change (SC_Add =? SC_Halt) with false. change (SC_Add =? SC_Add) with true. cbn match. unfold SysAdd.
    case_bool_decide as E; [|by rewrite int_add_overflow]. rewrite int_add_Ok by done. cbn [mbind outcome_bind]. unfold add_advance.
    do 7 reg_step. eexists. split; [reflexivity|]. rewrite machine_set_machine. fold m.
    rewrite !reg_set_reg by (rewrite ?length_set_reg; done || lia). cbn. done.
  - intros ->. change (SC_Exec =? SC_Exec) with true. cbn match. intros k1 child Hk1 Hc Hl1. unfold SysExec. rewrite Hk1.
    cbn [mbind outcome_bind]. rewrite (proj2 (Z.eqb_neq child 0) Hc). cbn [negb Z.eqb mbind outcome_bind]. unfold incrementPC.
    change (SC_Exec =? SC_Halt) with false. change (SC_Exec =? SC_Add) with false. change (SC_Exec =? SC_Write) with false.
    change (SC_Exec =? SC_Read) with false. cbn match. do 7 reg_step. eexists. split; [reflexivity|]. rewrite machine_set_machine.
    rewrite !reg_set_reg by (rewrite ?length_set_reg; done || lia). cbn. done.
  - intros Hn. repeat match goal with |- context [reg m 2 =? ?c] =>
      rewrite (proj2 (Z.eqb_neq (reg m 2) c)) by (intros E; apply Hn; rewrite E; set_solver) end. done.
Qed.
End results.

(** ** Two programs in memory

    Program 1 has all the frames, every page dirty; program 2 has none and
    faults on its page 0.  Both run the file of [LoadSim]. *)
Module FaultSim.
Definition tA : list TranslationEntry :=
  (fun j => mkTE (Z.of_nat j) (Z.of_nat j) true false false true LoadSim.name) <$> seq 0 128.
Definition tB : list TranslationEntry :=
  (fun j => mkTE (Z.of_nat j) (-1) true false false false LoadSim.name) <$> seq 0 128.
Definition gl : list GlobalEntry := (fun j => mkGlobal (Z.of_nat j) 0 (Some 1%positive)) <$> seq 0 128.
Definition fa : list Z := file_addr (exec_header [] LoadSim.program).
Definition m : Machine :=
  with_space (Some 2%positive) 9 fa (with_tables (<[1%positive := tA]> {[2%positive := tB]}) (with_global gl newMachine)).
Definition eB : TranslationEntry := mkTE 0 (-1) true false false false LoadSim.name.
Definition e1 : TranslationEntry := mkTE 1 1 true false false true LoadSim.name.

Lemma lookup_pages {A} (f : nat -> A) v x : (f <$> seq 0 128) !! v = Some x -> x = f v /\ (v < 128)%nat.
Proof.
  intros Hx. apply list_lookup_fmap_Some in Hx as (j & -> & Hj). apply lookup_seq in Hj as [-> ?]. done.
Qed.

Lemma lookup_pages_lt {A} (f : nat -> A) v : (v < 128)%nat -> (f <$> seq 0 128) !! v = Some (f v).
Proof. intros Hv. rewrite list_lookup_fmap, lookup_seq_lt by done. done. Qed.

Lemma pages b v e : page_of m b v = Some e ->
  (v < 128)%nat /\ (b = 1%positive /\ e = mkTE (Z.of_nat v) (Z.of_nat v) true false false true LoadSim.name \/
    b = 2%positive /\ e = mkTE (Z.of_nat v) (-1) true false false false LoadSim.name).
Proof.
  intros He. unfold page_of in He. cbn [tables m with_space with_tables] in He.
  destruct (decide (b = 1%positive)) as [->|H1].
  { rewrite lookup_insert_eq in He. apply lookup_pages in He as [-> ?]. auto. }
  rewrite lookup_insert_ne in He by done. destruct (decide (b = 2%positive)) as [->|H2].
  { rewrite lookup_singleton_eq in He. apply lookup_pages in He as [-> ?]. auto. }
  by rewrite lookup_singleton_ne in He by done.
Qed.

Lemma page_A v : (v < 128)%nat -> page_of m 1 v = Some (mkTE (Z.of_nat v) (Z.of_nat v) true false false true LoadSim.name).
Proof.
  intros Hv. unfold page_of. cbn [tables m with_space with_tables]. rewrite lookup_insert_eq.
  exact (lookup_pages_lt (fun j => mkTE (Z.of_nat j) (Z.of_nat j) true false false true LoadSim.name) v Hv).
Qed.

Lemma inv : mem_inv m.
Proof.
  split.
  - split; reflexivity.
  - intros f g b Hf Hb. cbn [GlobalPageTable m with_space with_tables with_global] in Hf. apply lookup_pages in Hf as [-> Hf].
    injection Hb as <-. cbn [VirNum]. exists (mkTE (Z.of_nat f) (Z.of_nat f) true false false true LoadSim.name). rewrite Nat2Z.id, page_A by done.
    split_and!; [lia|done..].
  - intros b v e He Hv Hp. apply pages in He as [Hv' [[-> ->]|[-> ->]]]; [|done]. cbn [physicalPage]. split; [lia|]. rewrite Nat2Z.id.
    exists (mkGlobal (Z.of_nat v) 0 (Some 1%positive)).
    split; [exact (lookup_pages_lt (fun j => mkGlobal (Z.of_nat j) 0 (Some 1%positive)) v Hv')|done].
  - intros b v e He. by apply pages in He as [_ [[_ ->]|[_ ->]]].
Qed.

Lemma full : Forall (fun g => RefPageTable g <> None) (GlobalPageTable m).
Proof. apply Forall_lookup. intros f g Hf. by apply lookup_pages in Hf as [-> _]. Qed.

Lemma positions vpn o p : 0 <= vpn -> 0 <= o < 128 -> seg_pos fa (vpn * 128 + o) = Some p -> 0 <= p.
Proof.
  intros Hv Ho. change fa with [0; 8; 52; 128; 4; 60; 0; 0; 0]. cbn [seg_pos].
  intros Hp. repeat (case_match; [injection Hp as Hp; lia|]). done.
Qed.

Lemma fault : faulting LoadSim.disk m 2 0 eB.
Proof.
  split; [exact inv|reflexivity|split; [vm_compute; congruence|reflexivity]|reflexivity|reflexivity|by right|reflexivity| |].
  - intros o p. by apply (positions 0).
  - intros b v e He. apply pages in He as [_ [[_ ->]|[_ ->]]]; cbn; exists LoadSim.program; reflexivity.
Qed.
End FaultSim.

Lemma page_fault_correct_witness :
  exists fs' m' i b vir ev, page_fault 0 LoadSim.disk FaultSim.m = Ok (fs', m') /\
    paged_in LoadSim.disk fs' FaultSim.m m' 2 0 FaultSim.eB i b vir ev.
Proof.
  destruct (page_fault_correct LoadSim.disk FaultSim.m 2 0 FaultSim.eB 0 FaultSim.fault FaultSim.full)
    as (fs' & m' & i & b & vir & ev & HP & Hpi & _).
  exists fs', m', i, b, vir, ev. split; [exact HP|exact Hpi].
Defined.

Lemma load_keeps_ownership_witness :
  exists m' sp', Load LoadSim.disk [] LoadSim.name LoadSim.junk FaultSim.m = Ok (m', sp', true) /\ mem_inv m'.
Proof.
  pose proof (load_image_ok LoadSim.program LoadSim.name (exec_header [] LoadSim.program) FaultSim.m LoadSim.junk
    (mi_frames _ FaultSim.inv) LoadSim.sizes LoadSim.seg_code LoadSim.seg_init LoadSim.seg_ro) as HI.
  change ((noffMagic (exec_header [] LoadSim.program) =? NOFFMAGIC) &&
    (divRoundUp (total_size (exec_header [] LoadSim.program)) PageSize <=? NumPhysPages)) with true in HI.
  destruct HI as (m' & sp' & a & t & HI & _).
  rewrite <- (Load_image LoadSim.disk [] LoadSim.name LoadSim.program LoadSim.junk FaultSim.m eq_refl) in HI.
  exists m', sp'. split; [exact HI|].
  destruct (load_keeps_ownership LoadSim.disk [] LoadSim.name LoadSim.junk FaultSim.m m' sp' true FaultSim.inv HI) as [Hinv _];
    [|exact Hinv].
  intros file Hf. injection Hf as <-. split; [exact LoadSim.sizes|]. split; [exact LoadSim.seg_code|].
  split; [exact LoadSim.seg_init|exact LoadSim.seg_ro].
Defined.

(** A program alone, on its first access: all frames are free. *)
Module FreeSim.
Definition m : Machine :=
  with_space (Some 1%positive) 1 FaultSim.fa (with_tables {[1%positive := [FaultSim.eB]]} newMachine).

Lemma free_pages b v e : page_of m b v = Some e -> b = 1%positive /\ v = 0%nat /\ e = FaultSim.eB.
Proof.
  intros He. unfold page_of in He. cbn [tables m with_space with_tables] in He.
  destruct (decide (b = 1%positive)) as [->|]; [|by rewrite lookup_singleton_ne in He by done].
  rewrite lookup_singleton_eq in He. destruct v as [|v]; cbn in He; [by injection He as <-|done].
Qed.

Lemma free_fault : faulting LoadSim.disk m 1 0 FaultSim.eB.
Proof.
  split; [|reflexivity|split; [vm_compute; congruence|reflexivity]|reflexivity|reflexivity|by right|reflexivity| |].
  - split; [split; reflexivity| | |].
    + intros f g b Hf Hb. cbn [GlobalPageTable m with_space with_tables newMachine] in Hf.
      apply lookup_replicate_1 in Hf as [-> _]. done.
    + intros b v e He _ Hp. by apply free_pages in He as (_ & _ & ->).
    + intros b v e He. by apply free_pages in He as (_ & -> & ->).
  - intros o p. by apply (FaultSim.positions 0).
  - intros b v e He. apply free_pages in He as (_ & _ & ->). exists LoadSim.program. reflexivity.
Qed.
End FreeSim.

Lemma page_fault_uninitialised_witness :
  page_fault 7 LoadSim.disk FreeSim.m = Err Undefined.
Proof.
  exact (page_fault_uninitialised LoadSim.disk FreeSim.m 1 0 FaultSim.eB [FaultSim.eB] 0 (seq 1 127) 7 FreeSim.free_fault eq_refl eq_refl).
Defined.

Lemma delete_after_eviction_witness :
  exists m' m'', (exists fs', page_fault 0 LoadSim.disk FaultSim.m = Ok (fs', m')) /\
    deleteAddrSpace (mkAddrSpace FaultSim.fa (Some 1%positive) 9 (replicate 40 0)) m' = Ok m'' /\ ~ mem_inv m''.
Proof.
  destruct (page_fault_evicts LoadSim.disk FaultSim.m 2 0 FaultSim.eB 0 FaultSim.fault FaultSim.full)
    as (fs' & m' & i & b & vir & ev & HP & Hpi).
  destruct (pi_victim _ _ _ _ _ _ _ _ _ _ _ Hpi) as (Hev & _ & Hph & _).
  destruct (FaultSim.pages _ _ _ Hev) as [Hv [[-> ->]|[-> ->]]]; [|cbn in Hph; exfalso; lia].
  cbn in Hph. apply Nat2Z.inj in Hph. subst i.
  destruct (tables m' !! 1%positive) as [tb|] eqn:Etb.
  2: { exfalso. pose proof (pi_shape _ _ _ _ _ _ _ _ _ _ _ Hpi 1%positive) as Hs. rewrite Etb in Hs. discriminate Hs. }
  assert (length tb = 128%nat) as Hl.
  { pose proof (pi_shape _ _ _ _ _ _ _ _ _ _ _ Hpi 1%positive) as Hs. rewrite Etb in Hs. injection Hs as Hs. exact Hs. }
  assert (Forall (fun x => -1 <= physicalPage x < NumPhysPages) tb) as Hr.
  { apply Forall_lookup. intros w x Hw. pose proof (pi_pages _ _ _ _ _ _ _ _ _ _ _ Hpi 1%positive w) as Hpg.
    assert (page_of m' 1 w = Some x) as Hx by (unfold page_of; rewrite Etb; exact Hw). rewrite Hx in Hpg.
    rewrite decide_False in Hpg by (intros [? _]; discriminate). unfold NumPhysPages.
    destruct (decide _) in Hpg; [injection Hpg as ->; cbn; lia|].
    symmetry in Hpg. destruct (FaultSim.pages _ _ _ Hpg) as [Hw' [[_ ->]|[_ ->]]]; cbn; lia. }
  destruct (delete_after_eviction _ _ _ _ _ _ _ _ _ _ _ (mkAddrSpace FaultSim.fa (Some 1%positive) 9 (replicate 40 0)) tb
    Hpi ltac:(discriminate) eq_refl Etb Hl Hr) as (m'' & HD & _ & _ & Hbad).
  exists m', m''. split; [exists fs'; exact HP|]. split; [exact HD|exact Hbad].
Defined.

(** The data page of program 1 is written to its file at 128, but is read back
    from 60. *)
Lemma dirty_page_lost_witness :
  exists fs' m2, write_back LoadSim.disk FaultSim.m 1 FaultSim.e1 = Ok fs' /\
    fill_frame (default [] (fs' !! LoadSim.name)) FaultSim.fa 1 0 FaultSim.m = Ok m2 /\ mainMemory m2 !! 0%nat = Some 9.
Proof.
  destruct (write_back_ok LoadSim.disk FaultSim.m 1 FaultSim.e1 (mi_frames _ FaultSim.inv) ltac:(lia)
    (ex_intro _ LoadSim.program eq_refl) ltac:(cbn; lia)) as (fs' & HW & Hwb).
  destruct (proj2 (wb_dom _ _ _ _ _ Hwb LoadSim.name) (ex_intro _ LoadSim.program eq_refl)) as [in_file Hin].
  destruct (fill_frame_ok in_file FaultSim.fa 1 0 FaultSim.m (proj2 (mi_frames _ FaultSim.inv)) eq_refl ltac:(lia)
    (fun o p => FaultSim.positions 1 o p ltac:(lia))) as (mem & HF & Hfl).
  exists fs', (with_memory mem FaultSim.m). split; [exact HW|]. rewrite Hin. split; [exact HF|].
  exact (proj2 (dirty_page_lost LoadSim.disk fs' FaultSim.m 1 FaultSim.e1 FaultSim.m 0 0 60 LoadSim.program 9 in_file mem
    Hwb eq_refl eq_refl Hin Hfl ltac:(lia) ltac:(cbn; lia) eq_refl ltac:(lia) ltac:(cbn; lia) eq_refl)).
Defined.

(** A whole kernel state for the handler. *)
Module HandlerSim.
Definition K : Type := Machine * Interrupt * Statistics * files.
#[global] Instance hs_int : InterruptState K := {
  k_int k := k.1.1.2; k_stats k := k.1.2;
  set_int i k := (k.1.1.1, i, k.1.2, k.2); set_stats s k := (k.1.1, s, k.2) }.
#[global] Instance hs_machine : MachineState K := {
  k_machine k := k.1.1.1; set_machine m k := (m, k.1.1.2, k.1.2, k.2) }.
#[global] Instance hs_laws : MachineStateLaws K.
Proof. by split; intros; destruct k as [[[? ?] ?] ?]. Qed.
#[global] Instance hs_files : FileState K := { k_files k := k.2; set_files fs k := (k.1, fs) }.

(** The user string of one character at address 0, in frame 3. *)
Definition m : Machine := with_memory (<[384%nat := 65]> (mainMemory newMachine)) MachSim.m0.
Definition k0 : K := (m, newInterrupt, newStatistics, LoadSim.disk).
Definition host_write (id : Z) (bytes : list Z) (k : K) : outcome (K * Z) := Ok (k, Z.of_nat (length bytes)).

Lemma m_space : space_wf m MachSim.table.
Proof. destruct MachSim.m0_space. by split. Qed.
Lemma m_memory : memory_wf m.
Proof.
  split.
  - cbn [mainMemory m with_memory]. rewrite length_insert. reflexivity.
  - cbn [mainMemory m with_memory]. apply Forall_insert; [|unfold is_byte; lia]. apply Forall_replicate. unfold is_byte. lia.
Qed.
Lemma m_string j c : ([65] ++ [0]) !! j = Some c -> user_byte m MachSim.table (0 + Z.of_nat j) c.
Proof.
  intros Hj. destruct j as [|[|j]]; cbn in Hj; [injection Hj as <-|injection Hj as <-|done].
  - exists 384. split; [lia|]. split; [reflexivity|]. cbn [mainMemory m with_memory]. change (Z.to_nat 384) with 384%nat.
    apply list_lookup_insert_eq. cbn [mainMemory newMachine]. rewrite length_replicate. change (Z.to_nat MemorySize) with (128 * 128)%nat. lia.
  - exists 385. split; [lia|]. split; [reflexivity|]. cbn [mainMemory m with_memory]. change (Z.to_nat 385) with 385%nat.
    rewrite list_lookup_insert_ne by lia. cbn [mainMemory newMachine]. apply lookup_replicate_2.
    change (Z.to_nat MemorySize) with (128 * 128)%nat. lia.
Qed.
End HandlerSim.

Lemma syswrite_correct_witness :
  exists k', SysWrite 0 HandlerSim.host_write (replicate 128 0) 0 0 2 1 HandlerSim.k0 = Ok (k', 2).
Proof.
  destruct (syswrite_correct (H := HandlerSim.hs_int) (H0 := HandlerSim.hs_machine) (H1 := HandlerSim.hs_files)
    0 (replicate 128 0) HandlerSim.host_write HandlerSim.k0 MachSim.table 0 0 [65] 2 1
    HandlerSim.m_space HandlerSim.m_memory eq_refl ltac:(repeat constructor; unfold is_byte; lia) ltac:(lia) ltac:(unfold is_int; cbn; lia))
    as [HW _].
  destruct (HW HandlerSim.m_string ltac:(cbn; lia) ltac:(cbn; lia)) as (k' & t' & _ & HE).
  exists k'. rewrite HE. reflexivity.
Defined.

Lemma syscall_results_witness :
  let k : HandlerSim.K := (set_reg 2 SC_Add (set_reg 4 20 (set_reg 5 22 HandlerSim.m)), newInterrupt, newStatistics, LoadSim.disk) in
  exists k', ExceptionHandler 0 HandlerSim.host_write (fun _ _ _ k => Ok (k, 0)) (fun k => Ok (k, 77)) (fun _ k => Ok (k, 0))
    (replicate 128 0) 0 SyscallException k = Ok k' /\ reg (k_machine k') 2 = 42.
Proof.
  intros k. pose proof (syscall_results (H := HandlerSim.hs_int) (H0 := HandlerSim.hs_machine) (H1 := HandlerSim.hs_files)
    0 (replicate 128 0) HandlerSim.host_write (fun _ _ _ k => Ok (k, 0)) (fun k => Ok (k, 77)) (fun _ k => Ok (k, 0)) 0 k eq_refl)
    as (_ & HA & _).
  specialize (HA eq_refl). change (bool_decide (is_int (reg (k_machine k) 4 + reg (k_machine k) 5))) with true in HA.
  destruct HA as (k' & HE & H2 & _). exists k'. split; [exact HE|]. rewrite H2. reflexivity.
Defined.
