(* ===== verification/Stubs.v ===== *)
(** * System calls from user code (src/code/test/start.s,
    src/code/userprog/syscall.h)

    A user program calls the kernel through the stubs of start.s: three
    instructions that put the code of the call into register 2, trap, and return
    to the caller.  Here the stubs are words in the memory of the simulated
    machine, and the theorem runs them on the processor of Mips.v with the
    handler of Exception.v: the three components together give what syscall.h
    promises for [Add] and [Halt], and an assertion failure for the calls that
    the kernel does not implement, [Exit] among them, which [__start] calls when
    [main] returns. *)

From S2P Require Import Prelude Lists Interrupt Machine Mips AddrSpace Exception.
Open Scope Z_scope.

(** ** The codes of syscall.h that Exception.v does not handle *)
Definition SC_Exit : Z := 1.
Definition SC_Create : Z := 4.
Definition SC_Remove : Z := 5.
Definition SC_Open : Z := 6.
Definition SC_Seek : Z := 9.
Definition SC_Close : Z := 10.
Definition SC_Delete : Z := 11.
Definition SC_ThreadFork : Z := 12.
Definition SC_ThreadYield : Z := 13.
Definition SC_ExecV : Z := 14.
Definition SC_ThreadExit : Z := 15.
Definition SC_ThreadJoin : Z := 16.
Definition SC_getSpaceID : Z := 17.
Definition SC_getThreadID : Z := 18.
Definition SC_Ipc : Z := 19.
Definition SC_Clock : Z := 20.

(** ** start.s *)

(** [addiu $2,$0,code; syscall; j $31], and the empty delay slot that the
    assembler adds. *)
Definition stub (code : Z) : list Z :=
  [encode_I 9 0 2 code; encode_R 12 0 0 0 0; encode_R 8 31 0 0 0; encode_R 0 0 0 0 0].

(** The codes that have a stub, in the order of the file. *)
Definition stubs : list Z :=
  [SC_Halt; SC_Add; SC_Exit; SC_Exec; SC_ExecV; SC_Join; SC_Create; SC_Remove; SC_Open; SC_Read; SC_Write; SC_Close;
   SC_Seek; SC_Delete; SC_ThreadFork; SC_ThreadYield; SC_ThreadExit; SC_ThreadJoin; SC_getSpaceID; SC_getThreadID;
   SC_Ipc; SC_Clock].

Lemma decode_stub code : code ∈ stubs ->
  map (fun w => Decode (to_uint (to_int w))) (stub code)
  = [mkInstr OP_ADDIU 0 2 (rd (Decode (to_uint (to_int (encode_I 9 0 2 code))))) code; mkInstr OP_SYSCALL 0 0 0 0;
     mkInstr OP_JR 31 0 0 0; mkInstr OP_SLL 0 0 0 0].
Proof.
  unfold stubs. rewrite !elem_of_cons. intros Hc.
  repeat (destruct Hc as [->|Hc]; [vm_compute; reflexivity|]). by apply elem_of_nil in Hc.
Qed.

(** ** Code in memory *)

(** The words [ws] can be fetched from the virtual address [a] on. *)
Definition code_at (m : Machine) (a : Z) (ws : list Z) : Prop :=
  exists t, space_wf m t /\ forall i w, ws !! i = Some w ->
    exists p, lookup_page t (pageTableSize m) (a + 4 * Z.of_nat i) 4 false = inr p /\ read_phys m p 4 = Ok (to_int w).

Lemma code_at_regs m a ws r : code_at m a ws -> code_at (with_registers r m) a ws.
Proof. intros (t & [] & H). exists t. by split. Qed.
Lemma code_at_set m a ws i v : code_at m a ws -> code_at (set_reg i v m) a ws.
Proof. apply code_at_regs. Qed.

Section stubs.
Context {K : Type} `{InterruptState K} `{MachineState K} `{!MachineStateLaws K}.
Context (handler : ExceptionType -> K -> outcome K).
Implicit Types k : K.

Lemma fetch k a ws i w :
  code_at (k_machine k) a ws -> ws !! i = Some w ->
  exists m', ReadMem handler (a + 4 * Z.of_nat i) 4 k = Ok (set_machine m' k, Some (to_int w)) /\
    code_at m' a ws /\ registers m' = registers (k_machine k).
Proof.
  intros (t & Hsp & Hw) Hi. destruct (Hw i w Hi) as (p & Hp & Hr).
  destruct (ReadMem_ok handler k t _ 4 p Hsp ltac:(auto) Hp) as (m' & t' & Htr & HR).
  exists m'. split; [by apply HR|]. split; [|apply Htr]. exists t'. split; [apply Htr|].
  intros j w' Hj. destruct (Hw j w' Hj) as (q & Hq & Hrq). exists q. rewrite (tr_lookup _ _ _ _ Htr). split; [done|].
  unfold read_phys in *. by rewrite (tr_mem _ _ _ _ Htr).
Qed.

(** No load is under way, as between calls. *)
Record quiet (m : Machine) : Prop := {
  qu_length : length (registers m) = Z.to_nat NumTotalRegs;
  qu_zero : reg m 0 = 0;
  qu_load : reg m LoadReg = 0;
}.

(** The machine at the end of an instruction that breaks from the [switch]. *)
Definition advanced (pcAfter : Z) (m : Machine) : Machine :=
  let m := set_reg 0 0 (set_reg LoadValueReg 0 (set_reg LoadReg 0 (set_reg 0 (reg m LoadValueReg) m))) in
  let m := set_reg PrevPCReg (reg m PCReg) m in
  let m := set_reg PCReg (reg m NextPCReg) m in
  set_reg NextPCReg pcAfter m.

Lemma DelayedLoad_quiet m : quiet m ->
  DelayedLoad 0 0 m = Ok (set_reg 0 0 (set_reg LoadValueReg 0 (set_reg LoadReg 0 (set_reg 0 (reg m LoadValueReg) m)))).
Proof.
  intros [Hl _ Hld]. unfold DelayedLoad. rewrite Hld. change (Z.to_nat NumTotalRegs) with 40%nat in Hl.
  rewrite arr_set_lt by lia. done.
Qed.

Lemma quiet_set m i v : quiet m -> 0 < i < LoadReg \/ LoadReg < i < NumTotalRegs -> quiet (set_reg i v m).
Proof.
  intros [Hl Hz Hld] Hi. unfold LoadReg, NumTotalRegs in *. split; [by rewrite length_set_reg| |].
  - rewrite reg_set_reg by (done || unfold NumTotalRegs; lia). destruct (Z.eqb_spec i 0); [lia|done].
  - unfold LoadReg. rewrite reg_set_reg by (done || unfold NumTotalRegs; lia). destruct (Z.eqb_spec i 37); [lia|done].
Qed.

Lemma advanced_reg pcAfter m j :
  quiet m -> 0 <= j < NumTotalRegs ->
  reg (advanced pcAfter m) j =
    if j =? NextPCReg then pcAfter else if j =? PCReg then reg m NextPCReg else if j =? PrevPCReg then reg m PCReg
    else if j =? LoadReg then 0 else if j =? LoadValueReg then 0 else reg m j.
Proof.
  intros [Hl Hz Hld] Hj. unfold advanced, NextPCReg, PCReg, PrevPCReg, LoadReg, LoadValueReg.
  rewrite !reg_set_reg by (rewrite ?length_set_reg; done || unfold NumTotalRegs; lia). rewrite !(Z.eqb_sym _ j).
  repeat case_match; try done. all: repeat match goal with E : (_ =? _) = true |- _ => apply Z.eqb_eq in E; subst end; done.
Qed.

Lemma advanced_quiet pcAfter m : quiet m -> quiet (advanced pcAfter m).
Proof.
  intros Hq. split.
  - unfold advanced. rewrite !length_set_reg. apply Hq.
  - rewrite advanced_reg by done. apply Hq.
  - by rewrite advanced_reg.
Qed.

(** One instruction that ends with [break] and no load. *)
Lemma step_next k a ws i w pcAfter f :
  code_at (k_machine k) a ws -> ws !! i = Some w -> reg (k_machine k) PCReg = a + 4 * Z.of_nat i ->
  (forall m1, registers m1 = registers (k_machine k) ->
     exec_instr handler (Decode (to_uint (to_int w))) (to_int (reg (k_machine k) NextPCReg + 4)) (set_machine m1 k)
     = next pcAfter (set_machine (f m1) (set_machine m1 k))) ->
  (forall m1, code_at m1 a ws -> code_at (f m1) a ws) -> (forall m1, registers m1 = registers (k_machine k) -> quiet (f m1)) ->
  exists m1, registers m1 = registers (k_machine k) /\ code_at m1 a ws /\
    exists k', OneInstruction handler k = Ok k' /\ k_machine k' = advanced pcAfter (f m1).
Proof.
  intros Hc Hi Hpc Hex Hf Hq. destruct (fetch k a ws i w Hc Hi) as (m1 & HR & Hc1 & Hr).
  exists m1. split; [done|]. split; [done|]. unfold OneInstruction, Mips.R. rewrite Hpc, HR. cbn [mbind outcome_bind].
  rewrite machine_set_machine. assert (reg m1 NextPCReg = reg (k_machine k) NextPCReg) as -> by (unfold reg; by rewrite Hr).
  rewrite Hex by done. unfold next. cbn [mbind outcome_bind]. rewrite machine_set_machine, DelayedLoad_quiet by auto.
  cbn [mbind outcome_bind]. eexists. split; [reflexivity|]. rewrite machine_set_machine. done.
Qed.

(** The trap: the handler runs in the state of the [syscall] instruction. *)
Lemma step_trap k a ws i w :
  code_at (k_machine k) a ws -> ws !! i = Some w -> reg (k_machine k) PCReg = a + 4 * Z.of_nat i -> quiet (k_machine k) ->
  Decode (to_uint (to_int w)) = mkInstr OP_SYSCALL 0 0 0 0 ->
  exists m' k', k_machine k' = m' /\ code_at m' a ws /\ quiet m' /\
    (forall j, 0 <= j < LoadReg -> reg m' j = reg (k_machine k) j) /\
    OneInstruction handler k = (k'' ← handler SyscallException k'; Ok (setStatus UserMode k'')).
Proof.
  intros Hc Hi Hpc Hq Hd. destruct (fetch k a ws i w Hc Hi) as (m1 & HR & Hc1 & Hr).
  assert (quiet (set_reg BadVAddrReg 0 m1)) as Hq1.
  { apply quiet_set; [destruct Hq as [? ? ?]; split; unfold reg in *; by rewrite Hr|unfold LoadReg, BadVAddrReg, NumTotalRegs; lia]. }
  set (m2 := set_reg 0 0 (set_reg LoadValueReg 0 (set_reg LoadReg 0 (set_reg 0 (reg (set_reg BadVAddrReg 0 m1) LoadValueReg)
    (set_reg BadVAddrReg 0 m1))))).
  assert (length (registers m1) = Z.to_nat NumTotalRegs) as Hl1 by (rewrite Hr; apply Hq).
  exists m2, (setStatus SystemMode (set_machine m2 (set_machine m1 k))). split_and!.
  - unfold setStatus. by rewrite machine_set_int, machine_set_machine.
  - by repeat apply code_at_set.
  - unfold m2. split; [by rewrite !length_set_reg| |]; unfold LoadReg, LoadValueReg;
      rewrite !reg_set_reg by (rewrite ?length_set_reg; done || unfold NumTotalRegs; lia); done.
  - intros j Hj. unfold m2, LoadReg, LoadValueReg, BadVAddrReg in *.
    rewrite !reg_set_reg by (rewrite ?length_set_reg; done || unfold NumTotalRegs; lia).
    destruct (Z.eqb_spec 0 j) as [<-|]; [symmetry; apply Hq|]. rewrite !(proj2 (Z.eqb_neq _ j)) by lia. unfold reg. by rewrite Hr.
  - unfold OneInstruction, Mips.R. rewrite Hpc, HR. cbn [mbind outcome_bind]. rewrite Hd.
    cbn [exec_instr exec_load exec_mf_sw exec_rest opCode]. unfold trap, RaiseException. rewrite machine_set_machine.
    rewrite DelayedLoad_quiet by done. cbn [mbind outcome_bind]. fold m2.
    destruct (handler SyscallException _); done.
Qed.
End stubs.

(** ** With the kernel's handler *)
Section kernel_calls.
Context {K : Type} `{InterruptState K} `{MachineState K} `{!MachineStateLaws K} `{FileState K}.
Context (vir0 : Z) (host_write : Z -> list Z -> K -> outcome (K * Z)) (host_read : Z -> Z -> Z -> K -> outcome (K * Z))
  (host_fork : K -> outcome (K * Z)) (host_waitpid : Z -> K -> outcome (K * Z)) (buffer0 : list Z) (ch0 : Z).
Context (tick : K -> outcome K) (Htick : forall k, exists k', tick k = Ok k' /\ k_machine k' = k_machine k).
Implicit Types k : K.

Abbreviation handler := (ExceptionHandler vir0 host_write host_read host_fork host_waitpid buffer0 ch0).

(** What [ExceptionHandler] does with the codes of a stub. *)
Lemma handler_add k :
  length (registers (k_machine k)) = Z.to_nat NumTotalRegs -> reg (k_machine k) 2 = SC_Add ->
  is_int (reg (k_machine k) 4 + reg (k_machine k) 5) ->
  exists k', handler SyscallException k = Ok k' /\
    let m := set_reg 2 (reg (k_machine k) 4 + reg (k_machine k) 5) (k_machine k) in
    let m := set_reg PrevPCReg (reg (k_machine k) PCReg) m in
    let m := set_reg PCReg (to_int (reg (k_machine k) PCReg + 4)) m in
    k_machine k' = set_reg NextPCReg (to_int (to_int (reg (k_machine k) PCReg + 4) + 4)) m.
Proof.
  intros Hl H2 Hs. unfold ExceptionHandler. do 4 reg_step. rewrite H2.
  change (SC_Add =? SC_Halt) with false. change (SC_Add =? SC_Add) with true. cbn match. unfold SysAdd.
  rewrite int_add_Ok by done. cbn [mbind outcome_bind]. unfold add_advance. do 7 reg_step.
  eexists. split; [reflexivity|]. rewrite machine_set_machine. done.
Qed.

Lemma handler_fails k :
  length (registers (k_machine k)) = Z.to_nat NumTotalRegs ->
  (reg (k_machine k) 2 = SC_Halt -> handler SyscallException k = Err Halted) /\
  (reg (k_machine k) 2 ∉ [SC_Halt; SC_Add; SC_Write; SC_Read; SC_Exec; SC_Join] -> handler SyscallException k = Err AssertFailed).
Proof.
  intros Hl. unfold ExceptionHandler. do 4 reg_step. split; [by intros ->|]. intros Hn.
  repeat match goal with |- context [reg (k_machine k) 2 =? ?c] =>
    rewrite (proj2 (Z.eqb_neq (reg (k_machine k) 2) c)) by (intros E; apply Hn; rewrite E; set_solver) end. done.
Qed.

(** A user program has just jumped to the stub of [code] at address [a]. *)
Record at_stub (a code : Z) (m : Machine) : Prop := {
  as_code : code_at m a (stub code);
  as_known : code ∈ stubs;
  as_pc : reg m PCReg = a /\ reg m NextPCReg = a + 4;
  as_range : is_int a /\ is_int (a + 16);
  as_quiet : quiet m;
}.

Lemma stub_word a code m i x : at_stub a code m ->
  [mkInstr OP_ADDIU 0 2 (rd (Decode (to_uint (to_int (encode_I 9 0 2 code))))) code; mkInstr OP_SYSCALL 0 0 0 0;
   mkInstr OP_JR 31 0 0 0; mkInstr OP_SLL 0 0 0 0] !! i = Some x ->
  exists w, stub code !! i = Some w /\ Decode (to_uint (to_int w)) = x.
Proof.
  intros Ha Hx. rewrite <- (decode_stub code (as_known _ _ _ Ha)) in Hx. rewrite list_lookup_fmap in Hx.
  destruct (stub code !! i) as [w|]; [|done]. injection Hx as Hx. by exists w.
Qed.

Lemma run_one k k1 k2 n : OneInstruction handler k = Ok k1 -> tick k1 = Ok k2 ->
  Run_steps handler tick (S n) k = Run_steps handler tick n k2.
Proof. intros E1 E2. cbn [Run_steps]. rewrite E1. cbn [mbind outcome_bind]. by rewrite E2. Qed.

(** The first instruction puts the code into register 2, the second one traps. *)
Lemma stub_traps k a code :
  at_stub a code (k_machine k) ->
  exists k1 ks, code_at (k_machine ks) a (stub code) /\ quiet (k_machine ks) /\
    reg (k_machine ks) 2 = code /\ reg (k_machine ks) PCReg = a + 4 /\
    (forall j, 0 <= j < NumGPRegs -> j <> 2 -> reg (k_machine ks) j = reg (k_machine k) j) /\
    (forall n, Run_steps handler tick (S n) k = Run_steps handler tick n k1) /\
    OneInstruction handler k1 = (k' ← handler SyscallException ks; Ok (setStatus UserMode k')).
Proof using Htick MachineStateLaws0.
  intros Ha. pose proof Ha as [Hc Hkn [Hpc Hnpc] [Hr1 Hr2] Hq]. unfold is_int in Hr1, Hr2.
  destruct (stub_word a code _ 0 _ Ha eq_refl) as (w0 & Hw0 & Hd0). destruct (stub_word a code _ 1 _ Ha eq_refl) as (w1 & Hw1 & Hd1).
  assert (is_int code) as Hci.
  { clear -Hkn. unfold stubs in Hkn. rewrite !elem_of_cons in Hkn. repeat (destruct Hkn as [->|Hkn]; [unfold is_int; vm_compute; split; congruence|]).
    by apply elem_of_nil in Hkn. }
  destruct (step_next handler k a (stub code) 0 w0 (to_int (reg (k_machine k) NextPCReg + 4)) (fun m1 => set_reg 2 (to_int (reg m1 0 + code)) m1))
    as (m1 & Hr & Hc1 & k1 & E1 & Hk1); [done|done|lia| |intros; by apply code_at_set| |].
  { intros m1 Hr. rewrite Hd0. cbn [exec_instr opCode rs rt extra]. unfold wr, Mips.R. by rewrite machine_set_machine. }
  { intros m1 Hr. apply quiet_set; [destruct Hq; split; unfold reg in *; by rewrite Hr|unfold LoadReg; lia]. }
  assert (quiet m1) as Hq1 by (destruct Hq; split; unfold reg in *; by rewrite Hr).
  assert (forall j, reg m1 j = reg (k_machine k) j) as Hreg by (intros j; unfold reg; by rewrite Hr).
  set (mA := set_reg 2 (to_int (reg m1 0 + code)) m1) in *.
  assert (quiet mA) as HqA by (apply quiet_set; [done|unfold LoadReg; lia]).
  assert (forall j, 0 <= j < NumTotalRegs -> reg mA j = if 2 =? j then code else reg (k_machine k) j) as HregA.
  { intros j Hj. unfold mA. rewrite reg_set_reg by (apply Hq1 || unfold NumTotalRegs in *; lia).
    rewrite (qu_zero _ Hq1), Z.add_0_l, to_int_id by done. by rewrite Hreg. }
  destruct (Htick k1) as (k1' & Et & Hk1'). rewrite Hk1 in Hk1'.
  assert (quiet (k_machine k1')) as HqB by (rewrite Hk1'; by apply advanced_quiet).
  assert (reg (k_machine k1') PCReg = a + 4) as HpcB.
  { rewrite Hk1', advanced_reg by (done || unfold PCReg, NumTotalRegs; lia). cbn. rewrite HregA by done. exact Hnpc. }
  destruct (step_trap handler k1' a (stub code) 1 w1) as (m' & ks & Hks & Hcs & Hqs & Hregs & E2); [|done|rewrite HpcB; lia|done|done|].
  { rewrite Hk1'. unfold advanced. do 7 apply code_at_set. unfold mA. by apply code_at_set. }
  exists k1', ks. rewrite Hks. split_and!; [done|done| | | |intros n; by eapply run_one|exact E2].
  - rewrite Hregs, Hk1', advanced_reg by (done || unfold LoadReg, NumTotalRegs; lia). cbn. by rewrite HregA.
  - rewrite Hregs by (unfold PCReg, LoadReg; lia). exact HpcB.
  - intros j Hj Hj2. unfold NumGPRegs in Hj.
    rewrite Hregs, Hk1', advanced_reg by (done || unfold LoadReg, NumTotalRegs; lia).
    unfold NextPCReg, PCReg, PrevPCReg, LoadReg, LoadValueReg. rewrite !(proj2 (Z.eqb_neq j _)) by lia.
    rewrite HregA by (unfold NumTotalRegs; lia). by rewrite (proj2 (Z.eqb_neq 2 j)) by lia.
Qed.

(** An instruction that leaves the general registers, and the tick after it. *)
Lemma quiet_step k a ws i w pcAfter f :
  code_at (k_machine k) a ws -> ws !! i = Some w -> reg (k_machine k) PCReg = a + 4 * Z.of_nat i -> quiet (k_machine k) ->
  (forall m1, registers m1 = registers (k_machine k) ->
     exec_instr handler (Decode (to_uint (to_int w))) (to_int (reg (k_machine k) NextPCReg + 4)) (set_machine m1 k)
     = next pcAfter (set_machine (f m1) (set_machine m1 k))) ->
  (forall m1, code_at m1 a ws -> code_at (f m1) a ws) ->
  (forall m1, quiet m1 -> quiet (f m1) /\ forall j, 0 <= j < NumTotalRegs -> reg (f m1) j = reg m1 j) ->
  exists k', (forall n, Run_steps handler tick (S n) k = Run_steps handler tick n k') /\
    code_at (k_machine k') a ws /\ quiet (k_machine k') /\
    reg (k_machine k') PCReg = reg (k_machine k) NextPCReg /\ reg (k_machine k') NextPCReg = pcAfter /\
    forall j, 0 <= j < NumGPRegs -> reg (k_machine k') j = reg (k_machine k) j.
Proof using Htick MachineStateLaws0.
  intros Hc Hw Hpc Hq Hex Hf Hs.
  destruct (step_next handler k a ws i w pcAfter f) as (m1 & Hr & Hc1 & k1 & E1 & Hk1); [done..| |].
  { intros m1 Hr. apply Hs. destruct Hq; split; unfold reg in *; by rewrite Hr. }
  assert (quiet m1) as Hq1 by (destruct Hq; split; unfold reg in *; by rewrite Hr).
  destruct (Hs m1 Hq1) as [Hqf Hregf]. destruct (Htick k1) as (k2 & Et & Hk2). rewrite Hk1 in Hk2.
  assert (forall j, reg m1 j = reg (k_machine k) j) as Hreg by (intros j; unfold reg; by rewrite Hr).
  exists k2. rewrite Hk2. split_and!.
  - intros n. by eapply run_one.
  - unfold advanced. do 7 apply code_at_set. by apply Hf.
  - by apply advanced_quiet.
  - rewrite advanced_reg by (done || unfold PCReg, NumTotalRegs; lia). cbn. by rewrite Hregf, Hreg.
  - by rewrite advanced_reg by (done || unfold NextPCReg, NumTotalRegs; lia).
  - intros j Hj. unfold NumGPRegs in Hj. rewrite advanced_reg by (done || unfold NumTotalRegs; lia).
    unfold NextPCReg, PCReg, PrevPCReg, LoadReg, LoadValueReg. rewrite !(proj2 (Z.eqb_neq j _)) by lia.
    rewrite Hregf by (unfold NumTotalRegs; lia). apply Hreg.
Qed.

(** The jump back and its delay slot. *)
Lemma stub_returns k a code ka :
  at_stub a code (k_machine ka) -> code_at (k_machine k) a (stub code) -> quiet (k_machine k) ->
  reg (k_machine k) PCReg = a + 8 -> reg (k_machine k) NextPCReg = a + 12 ->
  exists k', Run_steps handler tick 2 k = Ok k' /\
    reg (k_machine k') PCReg = reg (k_machine k) 31 /\ reg (k_machine k') NextPCReg = to_int (reg (k_machine k) 31 + 4) /\
    forall j, 0 <= j < NumGPRegs -> reg (k_machine k') j = reg (k_machine k) j.
Proof using Htick MachineStateLaws0.
  intros Ha Hc Hq Hpc Hnpc.
  destruct (stub_word a code _ 2 _ Ha eq_refl) as (w2 & Hw2 & Hd2). destruct (stub_word a code _ 3 _ Ha eq_refl) as (w3 & Hw3 & Hd3).
  destruct (quiet_step k a (stub code) 2 w2 (reg (k_machine k) 31) (fun m => m)) as (k1 & E1 & Hc1 & Hq1 & Hp1 & Hn1 & Hr1);
    [done|done|lia|done| |done|done|].
  { intros m1 Hr. rewrite Hd2. cbn [exec_instr opCode rs]. unfold next, Mips.R. rewrite machine_set_machine.
    assert (set_machine m1 (set_machine m1 k) = set_machine m1 k) as ->.
    { pose proof (set_machine_id (set_machine m1 k)) as Hid. by rewrite machine_set_machine in Hid. }
    unfold reg. by rewrite Hr. }
  destruct (quiet_step k1 a (stub code) 3 w3 (to_int (reg (k_machine k1) NextPCReg + 4)) (fun m => set_reg 0 (to_int (Z.shiftl (reg m 0) 0)) m))
    as (k2 & E2 & _ & _ & Hp2 & Hn2 & Hr2); [done|done|rewrite Hp1; lia|done| |intros; by apply code_at_set| |].
  { intros m1 Hr. rewrite Hd3. cbn [exec_instr exec_load exec_mf_sw opCode rd rs rt extra]. unfold wr, Mips.R. by rewrite machine_set_machine. }
  { intros m1 Hqm. rewrite (qu_zero _ Hqm). change (to_int (Z.shiftl 0 0)) with 0.
    assert (forall j, 0 <= j < NumTotalRegs -> reg (set_reg 0 0 m1) j = reg m1 j) as Hj.
    { intros j Hj. rewrite reg_set_reg by (apply Hqm || unfold NumTotalRegs in *; lia).
      destruct (Z.eqb_spec 0 j) as [<-|]; [|done]. symmetry. apply Hqm. }
    split; [|done]. split; [rewrite length_set_reg; apply Hqm| |]; rewrite Hj by (unfold LoadReg, NumTotalRegs; lia); apply Hqm. }
  exists k2. rewrite E1, E2. split_and!; [done|by rewrite Hp2, Hn1|by rewrite Hn2, Hn1|]. intros j Hj. by rewrite Hr2, Hr1.
Qed.

(** C10: a system call from user code, through stub, processor and kernel.  The
    stub of [Add] returns to its caller with the sum of the two argument
    registers in register 2 and every other general register as it was; the
    stub of [Halt] ends the simulation; and the stub of a call that the kernel
    does not implement, [Exit] included, stops Nachos in an assertion, so a
    program whose [main] returns takes the whole system down. *)
Theorem system_call_through_stub k a code :
  at_stub a code (k_machine k) ->
  (code = SC_Add -> is_int (reg (k_machine k) 4 + reg (k_machine k) 5) ->
     exists k', Run_steps handler tick 4 k = Ok k' /\ reg (k_machine k') 2 = reg (k_machine k) 4 + reg (k_machine k) 5 /\
       reg (k_machine k') PCReg = reg (k_machine k) 31 /\ reg (k_machine k') NextPCReg = to_int (reg (k_machine k) 31 + 4) /\
       forall j, 0 <= j < NumGPRegs -> j <> 2 -> reg (k_machine k') j = reg (k_machine k) j) /\
  (code = SC_Halt -> Run_steps handler tick 2 k = Err Halted) /\
  (code ∉ [SC_Halt; SC_Add; SC_Write; SC_Read; SC_Exec; SC_Join] -> Run_steps handler tick 2 k = Err AssertFailed).
Proof using Htick MachineStateLaws0.
  intros Ha. destruct (stub_traps k a code Ha) as (k1 & ks & Hcs & Hqs & H2s & Hpcs & Hregs & E1 & E2).
  destruct (handler_fails ks (qu_length _ Hqs)) as [Hh Hf].
  rewrite H2s in Hh, Hf. split_and!.
  - intros -> Hs. destruct (as_range _ _ _ Ha) as [Hr1 Hr2]. unfold is_int in Hr1, Hr2.
    destruct (handler_add ks (qu_length _ Hqs) H2s) as (kh & Eh & Hkh).
    { by rewrite !Hregs by (unfold NumGPRegs; lia). }
    rewrite Hpcs in Hkh. cbv zeta in Hkh. rewrite !Hregs in Hkh by (unfold NumGPRegs; lia).
    rewrite (to_int_id (a + 4 + 4)), (to_int_id (a + 4 + 4 + 4)) in Hkh by (unfold is_int; lia).
    rewrite Eh in E2. cbn [mbind outcome_bind] in E2. destruct (Htick (setStatus UserMode kh)) as (kr & Et & Hkr).
    unfold setStatus in Hkr at 1. rewrite machine_set_int, Hkh in Hkr.
    assert (forall j, 0 <= j < NumGPRegs -> reg (k_machine kr) j = if 2 =? j then reg (k_machine k) 4 + reg (k_machine k) 5 else reg (k_machine k) j) as Hregr.
    { intros j Hj. unfold NumGPRegs in Hj. rewrite Hkr.
      rewrite !reg_set_reg by (rewrite ?length_set_reg; apply Hqs || unfold NumTotalRegs, NextPCReg, PCReg, PrevPCReg; lia).
      unfold NextPCReg, PCReg, PrevPCReg. rewrite (proj2 (Z.eqb_neq 35 j)), (proj2 (Z.eqb_neq 34 j)), (proj2 (Z.eqb_neq 36 j)) by lia.
      destruct (Z.eqb_spec 2 j); [done|]. apply Hregs; [unfold NumGPRegs|]; lia. }
    destruct (stub_returns kr a SC_Add k) as (k' & E3 & Hp & Hn & Hr); [done| | | | |].
    + rewrite Hkr. by do 4 apply code_at_set.
    + rewrite Hkr. do 4 (apply quiet_set; [|unfold NextPCReg, PCReg, PrevPCReg, LoadReg; lia]). done.
    + rewrite Hkr, !reg_set_reg by (rewrite ?length_set_reg; apply Hqs || unfold NumTotalRegs, NextPCReg, PCReg, PrevPCReg; lia). cbn. lia.
    + rewrite Hkr, !reg_set_reg by (rewrite ?length_set_reg; apply Hqs || unfold NumTotalRegs, NextPCReg, PCReg, PrevPCReg; lia). cbn. lia.
    + exists k'. rewrite E1, (run_one _ _ _ _ E2 Et). split_and!; [exact E3|by rewrite Hr, Hregr|by rewrite Hp, Hregr|by rewrite Hn, Hregr|].
      intros j Hj Hj2. rewrite Hr, Hregr by done. by rewrite (proj2 (Z.eqb_neq 2 j)) by lia.
  - intros Hc. rewrite E1. cbn [Run_steps]. rewrite E2, Hh by done. done.
  - intros Hc. rewrite E1. cbn [Run_steps]. rewrite E2, Hf by done. done.
Qed.
End kernel_calls.

(** ** Add(20, 22) *)
Module StubSim.
Definition m : Machine :=
  set_reg 4 20 (set_reg 5 22 (set_reg 31 100 (set_reg NextPCReg 4
    (with_memory (splice (mainMemory MachSim.m0) 384 (concat (map (le_bytes 4) (stub SC_Add)))) MachSim.m0)))).
Definition k : HandlerSim.K := (m, newInterrupt, newStatistics, LoadSim.disk).
Definition tick (k : HandlerSim.K) : outcome HandlerSim.K := Ok k.

Lemma m_at_stub : at_stub 0 SC_Add m.
Proof.
  split.
  - exists MachSim.table. split; [destruct MachSim.m0_space; by split|].
    intros i w Hi. exists (384 + 4 * Z.of_nat i).
    do 4 (destruct i as [|i]; [injection Hi as <-; split; vm_compute; reflexivity|]). discriminate.
  - unfold stubs. set_solver.
  - split; vm_compute; reflexivity.
  - unfold is_int. lia.
  - split; vm_compute; reflexivity.
Qed.
End StubSim.

Lemma system_call_through_stub_witness :
  exists k', Run_steps (ExceptionHandler 0 HandlerSim.host_write (fun _ _ _ k => Ok (k, 0)) (fun k => Ok (k, 77)) (fun _ k => Ok (k, 0))
      (replicate 128 0) 0) StubSim.tick 4 StubSim.k = Ok k' /\
    reg (k_machine k') 2 = 42 /\ reg (k_machine k') PCReg = 100.
Proof.
  destruct (system_call_through_stub (H := HandlerSim.hs_int) (H0 := HandlerSim.hs_machine) (H1 := HandlerSim.hs_files)
    0 HandlerSim.host_write (fun _ _ _ k => Ok (k, 0)) (fun k => Ok (k, 77)) (fun _ k => Ok (k, 0)) (replicate 128 0) 0
    StubSim.tick (fun k => ex_intro _ k (conj eq_refl eq_refl)) StubSim.k 0 SC_Add StubSim.m_at_stub) as (HA & _).
  destruct (HA eq_refl ltac:(unfold is_int; vm_compute; split; congruence)) as (k' & E & H2 & Hp & _).
  exists k'. split; [exact E|]. split; [rewrite H2; vm_compute; reflexivity|rewrite Hp; vm_compute; reflexivity].
Defined.
