(* ===== verification/Paging.v ===== *)
(** * Demand paging as the running program sees it

    [Machine::ReadMem] (src/code/machine/mipssim.cc, translate.cc), the page
    fault handler (src/code/userprog/exception.cc) and the page tables that
    [AddrSpace::Load] builds, together: as long as no page is written to, a
    program reads the bytes of its executable whatever pages have to be evicted
    and brought in on the way. *)

From stdpp Require Import gmap list.
From S2P Require Import Prelude Interrupt Machine Mips AddrSpace Exception.

(** ** What paging needs of the kernel that holds machine and files *)
Class FileStateLaws (K : Type) `{InterruptState K} `{MachineState K} `{FileState K} : Prop := {
  files_set_files fs k : k_files (set_files fs k) = fs;
  files_set_machine m k : k_files (set_machine m k) = k_files k;
  files_set_int i k : k_files (set_int i k) = k_files k;
  machine_set_files fs k : k_machine (set_files fs k) = k_machine k;
}.

#[global] Instance hs_file_laws : FileStateLaws HandlerSim.K.
Proof. by split; intros; destruct k as [[[? ?] ?] ?]. Qed.

(** ** Machines that map the same pages to the same frames *)

(** All of a page table entry but its use bit; the owner of a frame. *)
Definition mapping (e : TranslationEntry) : Z * Z * bool * bool * bool * list Z :=
  (virtualPage e, physicalPage e, valid e, readOnly e, dirty e, DiskFile e).
Definition owner (g : GlobalEntry) : Z * option positive := (VirNum g, RefPageTable g).

Record same_mapping (m m' : Machine) : Prop := {
  sm_memory : mainMemory m' = mainMemory m;
  sm_owner f : owner <$> GlobalPageTable m' !! f = owner <$> GlobalPageTable m !! f;
  sm_length : length (GlobalPageTable m') = length (GlobalPageTable m);
  sm_pages b v : mapping <$> page_of m' b v = mapping <$> page_of m b v;
  sm_tables b : length <$> tables m' !! b = length <$> tables m !! b;
  sm_space : tlb m' = tlb m /\ Machine.pageTable m' = Machine.pageTable m /\
    pageTableSize m' = pageTableSize m /\ Machine.FileAddr m' = Machine.FileAddr m;
}.

Lemma fmap_inv {A B} (f : A -> B) (o o' : option A) x :
  f <$> o' = f <$> o -> o' = Some x -> exists y, o = Some y /\ f x = f y.
Proof. intros E ->. destruct o as [y|]; [|done]. injection E as E. by exists y. Qed.

Lemma same_mapping_inv m m' : same_mapping m m' -> mem_inv m -> mem_inv m'.
Proof.
  intros [Hm Ho Hl Hp _ _] [[Hf1 Hf2] I1 I2 I3]. split.
  - split; congruence.
  - intros f g b Hg Hb. destruct (fmap_inv _ _ _ _ (Ho f) Hg) as (g0 & Hg0 & [= E1 E2]).
    destruct (I1 f g0 b Hg0 ltac:(congruence)) as (e & H0 & He & Hv & Hph). rewrite E1.
    destruct (fmap_inv _ _ _ _ (eq_sym (Hp b _)) He) as (e' & He' & [= ? ? ? ? ? ?]).
    exists e'. split_and!; congruence.
  - intros b v e He Hv Hph. destruct (fmap_inv _ _ _ _ (Hp b v) He) as (e0 & He0 & [= E1 E2 E3 E4 E5 E6]).
    destruct (I2 b v e0 He0 ltac:(congruence) ltac:(congruence)) as (H0 & g & Hg & Hr & Hvn). rewrite E2. split; [done|].
    destruct (fmap_inv _ _ _ _ (eq_sym (Ho _)) Hg) as (g' & Hg' & [= ? ?]). exists g'. split_and!; congruence.
  - intros b v e He. destruct (fmap_inv _ _ _ _ (Hp b v) He) as (e0 & He0 & [= E1 _ _ _ _ _]). rewrite E1. by eapply I3.
Qed.

Lemma same_mapping_registers m r : same_mapping m (with_registers r m).
Proof. by split. Qed.

(** Touching a page that is present: its use bit and the use count of its frame. *)
Lemma same_mapping_touch m a t v e f g :
  tables m !! a = Some t -> t !! v = Some e -> GlobalPageTable m !! f = Some g ->
  same_mapping m (with_global (<[f := mkGlobal (VirNum g) (useStamp g + 1) (RefPageTable g)]> (GlobalPageTable m))
    (set_table (Some a) (<[v := touch false e]> t) m)).
Proof.
  intros Ha Hv Hg. split; [done| |by cbn; rewrite length_insert| | |done].
  - intros f'. cbn [GlobalPageTable with_global]. destruct (decide (f' = f)) as [->|Hne].
    + rewrite list_lookup_insert_eq by by eapply lookup_lt_Some. by rewrite Hg.
    + by rewrite list_lookup_insert_ne.
  - intros b w. set (m1 := set_table _ _ m). change (page_of (with_global _ m1) b w) with (page_of m1 b w).
    unfold m1. rewrite (page_of_set m a t) by (done || by eapply lookup_lt_Some).
    case_decide as E; [|done]. destruct E as [-> ->]. unfold page_of. rewrite Ha. cbn [mbind option_bind]. by rewrite Hv.
  - intros b. apply (length_set m a t v _ b Ha).
Qed.

(** ** The bytes of a program *)

(** The handler looks for an address in the segments in the order code, data,
    read-only; [Load] lets the last one win.  No address is in two of them. *)
Definition in_segment (s : Segment) (v : Z) : bool := (virtualAddr s <=? v) && (v <? virtualAddr s + size s).
Definition segments_disjoint (h : NoffHeader) : Prop :=
  forall v, (in_segment (code h) v = true -> in_segment (initData h) v = false /\ in_segment (readonlyData h) v = false) /\
    (in_segment (initData h) v = true -> in_segment (readonlyData h) v = false).

Lemma paged_program_byte file h v :
  segments_disjoint h -> paged_byte file (file_addr h) v = program_byte file h v.
Proof.
  intros Hd. destruct (Hd v) as [H1 H2]. unfold paged_byte, program_byte, seg_byte, file_addr, seg_pos.
  fold (in_segment (code h) v) (in_segment (initData h) v) (in_segment (readonlyData h) v).
  destruct (in_segment (code h) v); [destruct (H1 eq_refl) as [-> ->]; f_equal; lia|].
  destruct (in_segment (initData h) v); [rewrite (H2 eq_refl)|].
  - replace (_ + v - _) with (inFileAddr (initData h) + (v - virtualAddr (initData h))) by lia. by destruct (file !! _).
  - destruct (in_segment (readonlyData h) v); [|done].
    replace (_ + v - _) with (inFileAddr (readonlyData h) + (v - virtualAddr (readonlyData h))) by lia. by destruct (file !! _).
Qed.

Lemma seg_pos_nonneg file h v p :
  seg_wf file (code h) -> seg_wf file (initData h) -> seg_wf file (readonlyData h) ->
  seg_pos (file_addr h) v = Some p -> 0 <= p.
Proof.
  unfold seg_wf, seg_pos, file_addr. intros H1 H2 H3.
  repeat match goal with |- (if ?b then _ else _) = _ -> _ => destruct b eqn:?; [intros [= <-]; bool_lia|] end. done.
Qed.

Section running.
(** The running program: its file, its name, its header, the address of its
    page table and its size in pages. *)
Context (file fileName : list Z) (h : NoffHeader) (a : positive) (n : Z).
Context (Hn : 0 <= n <= 128).
Context (Hpos : forall v p, seg_pos (file_addr h) v = Some p -> 0 <= p).

(** Every frame is in use and no page of any program is dirty; what the running
    program has in memory is what its file says. *)
Record paged (fs : files) (m : Machine) : Prop := {
  pg_inv : mem_inv m;
  pg_full : Forall (fun g => RefPageTable g <> None) (GlobalPageTable m);
  pg_cpu : cpu_ok m;
  pg_space : tlb m = None /\ Machine.pageTable m = Some a /\ pageTableSize m = n /\ Machine.FileAddr m = file_addr h;
  pg_table : length <$> tables m !! a = Some 128%nat;
  pg_entries b v e : page_of m b v = Some e ->
    readOnly e = false /\ dirty e = false /\ is_Some (fs !! DiskFile e) /\ (b = a -> DiskFile e = fileName);
  pg_file : fs !! fileName = Some file;
  pg_bytes v e f o c : page_of m a v = Some e -> valid e = true -> physicalPage e = Z.of_nat f -> (o < 128)%nat ->
    paged_byte file (file_addr h) (Z.of_nat v * 128 + Z.of_nat o) = Some c -> mainMemory m !! (f * 128 + o)%nat = Some c;
}.

Lemma paged_same fs m m' : same_mapping m m' -> cpu_ok m' -> paged fs m -> paged fs m'.
Proof.
  intros Hsm Hc [I1 I2 I3 I4 I5 I6 I7 I8]. pose proof Hsm as [Hm Ho Hl Hp Ht (S1 & S2 & S3 & S4)]. split.
  - by eapply same_mapping_inv.
  - apply Forall_lookup. intros f g Hg. destruct (fmap_inv _ _ _ _ (Ho f) Hg) as (g0 & Hg0 & [= _ E]).
    rewrite E. by apply (Forall_lookup_1 _ _ _ _ I2 Hg0).
  - done.
  - rewrite S1, S2, S3, S4. done.
  - by rewrite Ht.
  - intros b v e He. destruct (fmap_inv _ _ _ _ (Hp b v) He) as (e0 & He0 & [= E1 E2 E3 E4 E5 E6]).
    rewrite E4, E5, E6. by eapply I6.
  - done.
  - intros v e f o c He Hv Hf Hlt Hb. rewrite Hm. destruct (fmap_inv _ _ _ _ (Hp a v) He) as (e0 & He0 & [= E1 E2 E3 E4 E5 E6]).
    apply (I8 v e0 f o c); congruence.
Qed.

(** The page of an address of the program. *)
Lemma paged_page fs m v :
  paged fs m -> 0 <= v < n * 128 -> exists t e, tables m !! a = Some t /\ t !! Z.to_nat (v / 128) = Some e /\ length t = 128%nat /\
    page_of m a (Z.to_nat (v / 128)) = Some e.
Proof.
  intros Hpg Hv. pose proof (pg_table _ _ Hpg) as Ht. destruct (tables m !! a) as [t|] eqn:Ea; [|done]. injection Ht as Ht.
  destruct (lookup_lt_is_Some_2 t (Z.to_nat (v / 128))) as [e He].
  { assert (v / 128 < 128) by (apply Z.div_lt_upper_bound; lia). lia. }
  exists t, e. split_and!; [done..|]. unfold page_of. by rewrite Ea.
Qed.

(** The offset and the page of an address, as [Translate] computes them. *)
Lemma address_parts v : 0 <= v < n * 128 ->
  Z.quot (to_uint v) PageSize = v / 128 /\ Z.rem (to_uint v) PageSize = v mod 128 /\ 0 <= v / 128 < n /\ 0 <= v mod 128 < 128 /\
  v = v / 128 * 128 + v mod 128.
Proof.
  intros Hv. rewrite to_uint_id by (unfold is_uint; lia). change PageSize with 128.
  rewrite Z.quot_div_nonneg, Z.rem_mod_nonneg by lia. pose proof (Z.mod_pos_bound v 128 ltac:(lia)).
  pose proof (Z.div_mod v 128 ltac:(lia)). split_and!; [done|done| | |lia|lia|lia].
  - apply Z.div_pos; lia.
  - apply Z.div_lt_upper_bound; lia.
Qed.

(** A page that is present is found, and only its use bit and count change. *)
Lemma Translate_present fs m v t e :
  paged fs m -> 0 <= v < n * 128 -> tables m !! a = Some t -> t !! Z.to_nat (v / 128) = Some e ->
  valid e = true -> physicalPage e <> -1 ->
  exists f m', physicalPage e = Z.of_nat f /\ (f < 128)%nat /\
    Machine.Translate m v 1 false = Ok (m', inr (Z.of_nat f * 128 + v mod 128)) /\ same_mapping m m' /\ registers m' = registers m.
Proof.
  intros Hpg Hv Ha He Hval Hph. destruct (address_parts v Hv) as (Eq & Er & Hd & Hr & _).
  destruct (pg_space _ _ Hpg) as (Htlb & Hpt & Hsz & _). pose proof (pg_inv _ _ Hpg) as Hinv.
  assert (page_of m a (Z.to_nat (v / 128)) = Some e) as Hpo by (unfold page_of; by rewrite Ha).
  destruct (mi_page _ Hinv _ _ _ Hpo Hval Hph) as (H0 & g & Hg & _). set (f := Z.to_nat (physicalPage e)) in *.
  assert (f < 128)%nat as Hf by (apply lookup_lt_Some in Hg; by rewrite (proj1 (mi_frames _ Hinv)) in Hg).
  exists f. eexists. split; [lia|]. split; [done|].
  split; [|split; [apply (same_mapping_touch m a t (Z.to_nat (v / 128)) e f g Ha He Hg)|done]].
  unfold Machine.Translate. rewrite Htlb, Hpt. cbn [Z.eqb Pos.eqb andb orb ASSERT mbind outcome_bind]. rewrite Eq, Er, Hsz.
  rewrite (proj2 (Z.leb_gt n (v / 128))) by lia. unfold get_table. rewrite Ha. cbn [mbind outcome_bind].
  rewrite (arr_get_Some t (v / 128) e) by (done || lia). cbn [mbind outcome_bind].
  rewrite Hval, (proj2 (Z.eqb_neq (physicalPage e) (-1))) by done. cbn [negb orb]. unfold use_entry.
  rewrite (proj1 (pg_entries _ _ Hpg _ _ _ Hpo)). cbn [andb].
  rewrite to_uint_id by (unfold is_uint; lia). change NumPhysPages with 128. change PageSize with 128.
  rewrite (proj2 (Z.leb_gt 128 _)) by lia. rewrite arr_set_lt by (apply lookup_lt_Some in He; lia). cbn [mbind outcome_bind].
  rewrite (to_uint_id (_ + _)), (to_int_id (_ + _)) by (unfold is_uint, is_int; lia).
  replace (physicalPage e) with (Z.of_nat f) by lia.
  rewrite Z.quot_div_nonneg, Z.div_add_l, Z.div_small, Z.add_0_r by lia. unfold stamp.
  cbn [set_table GlobalPageTable with_tables]. rewrite (arr_get_Some (GlobalPageTable m) (Z.of_nat f) g) by (rewrite ?Nat2Z.id; done || lia).
  cbn [mbind outcome_bind]. rewrite arr_set_lt by (apply lookup_lt_Some in Hg; lia). cbn [mbind outcome_bind].
  rewrite (proj2 (Z.leb_le 0 _)), (proj2 (Z.leb_le _ MemorySize)) by (change MemorySize with 16384; lia).
  cbn [andb ASSERT mbind outcome_bind]. by rewrite Nat2Z.id.
Qed.

(** A page that is absent is a page fault. *)
Lemma Translate_absent fs m v t e :
  paged fs m -> 0 <= v < n * 128 -> tables m !! a = Some t -> t !! Z.to_nat (v / 128) = Some e ->
  valid e = false \/ physicalPage e = -1 -> Machine.Translate m v 1 false = Ok (m, inl PageFaultException).
Proof.
  intros Hpg Hv Ha He Hbad. destruct (address_parts v Hv) as (Eq & Er & Hd & Hr & _).
  destruct (pg_space _ _ Hpg) as (Htlb & Hpt & Hsz & _).
  unfold Machine.Translate. rewrite Htlb, Hpt. cbn [Z.eqb Pos.eqb andb orb ASSERT mbind outcome_bind]. rewrite Eq, Er, Hsz.
  rewrite (proj2 (Z.leb_gt n (v / 128))) by lia. unfold get_table. rewrite Ha. cbn [mbind outcome_bind].
  rewrite (arr_get_Some t (v / 128) e) by (done || lia). cbn [mbind outcome_bind].
  destruct Hbad as [-> | ->]; [done|]. by rewrite orb_true_r.
Qed.

(** The handler brings the page in, from the file, and leaves the files alone. *)
Lemma paged_fault vir0 fs m v e :
  paged fs m -> 0 <= v < n * 128 -> reg m BadVAddrReg = v -> page_of m a (Z.to_nat (v / 128)) = Some e ->
  valid e = false \/ physicalPage e = -1 ->
  exists m' f, page_fault vir0 fs m = Ok (fs, m') /\ paged fs m' /\ page_of m' a (Z.to_nat (v / 128)) = Some (resident (Z.of_nat f) e).
Proof.
  intros Hpg Hv Hr He Hbad. pose proof Hpg as [I1 I2 I3 (S1 & S2 & S3 & S4) I5 I6 I7 I8].
  set (vpn := Z.to_nat (v / 128)) in *. assert (faulting fs m a vpn e) as Hfa.
  { split; [done|apply I3|rewrite Hr; split; [lia|done]|done|done|done|by rewrite S4| |].
    - intros o p Ho. rewrite S4. apply Hpos.
    - intros b w e' He'. by apply (I6 b w e'). }
  destruct (page_fault_evicts fs m a vpn e vir0 Hfa I2) as (fs' & m' & i & b & vir & ev & HP & Hpi).
  destruct Hpi as [P1 (Hev & Hvev & Hpev & Hne) _ P3 P4 Pg P5 (inf & Hin & Hfl) (Q1 & Q2 & Q3 & Q4 & Q5)].
  assert (fs' = fs) as -> by (apply (wb_clean _ _ _ _ _ P5), (I6 b vir ev Hev)).
  exists m', i. split; [done|]. rewrite P3, decide_True by done. split; [|done].
  assert (inf = file) as -> by (rewrite (proj2 (proj2 (proj2 (I6 a vpn e He))) eq_refl) in Hin; congruence).
  assert (i < 128)%nat as Hi.
  { destruct (mi_page _ I1 _ _ _ Hev Hvev ltac:(lia)) as (_ & g & Hg & _). rewrite Hpev, Nat2Z.id in Hg.
    apply lookup_lt_Some in Hg. by rewrite (proj1 (mi_frames _ I1)) in Hg. }
  split.
  - done.
  - rewrite Pg. by apply Forall_insert.
  - destruct I3 as [C1 C2 C3]. split; [by rewrite Q1|by rewrite Q1|]. unfold reg in *. by rewrite Q1.
  - rewrite Q2, Q3, Q4, Q5. done.
  - by rewrite P4.
  - intros c w e' He'. rewrite P3 in He'. case_decide as E1; [|case_decide as E2; [|by apply (I6 c w e')]].
    + injection He' as <-. destruct E1 as [-> ->]. destruct (I6 a vpn e He) as (_ & _ & ? & ?). cbn. split_and!; done.
    + injection He' as <-. destruct E2 as [-> ->]. by apply (I6 b vir ev).
  - done.
  - intros w e' f o c He' Hval Hph Ho Hc. rewrite P3 in He'. case_decide as E1; [|case_decide as E2].
    + injection He' as <-. destruct E1 as [_ ->]. cbn in Hph. assert (f = i) as -> by lia.
      rewrite (fl_page _ _ _ _ _ _ _ Hfl) by done. by rewrite S4, Hc.
    + injection He' as <-. done.
    + rewrite (fl_other _ _ _ _ _ _ _ Hfl); [by apply (I8 w e' f o c)|].
      assert (f <> i) as Hfi; [|lia]. intros ->. apply E2.
      destruct (mi_page _ I1 _ _ _ He' Hval ltac:(lia)) as (_ & g & Hg & Hgr & Hgv).
      destruct (mi_page _ I1 _ _ _ Hev Hvev ltac:(lia)) as (_ & g' & Hg' & Hgr' & Hgv'). rewrite Hph in Hg. rewrite Hpev, Hg in Hg'.
      injection Hg' as <-. split; [congruence|lia].
Qed.

(** ** Reading *)
Context {K : Type} `{InterruptState K} `{MachineState K} `{!MachineStateLaws K} `{FileState K} `{!FileStateLaws K}.
Context (vir0 : Z).
Implicit Types k : K.

Definition paged_kernel (k : K) : Prop := paged (k_files k) (k_machine k).

(** Raising the exception: the registers that are lost are those of the load
    that was pending. *)
Lemma raise_page_fault k v e :
  paged_kernel k -> 0 <= v < n * 128 -> page_of (k_machine k) a (Z.to_nat (v / 128)) = Some e -> valid e = false \/ physicalPage e = -1 ->
  exists k' f, RaiseException (memory_handler vir0) PageFaultException v k = Ok k' /\ paged_kernel k' /\
    k_files k' = k_files k /\ page_of (k_machine k') a (Z.to_nat (v / 128)) = Some (resident (Z.of_nat f) e).
Proof.
  unfold paged_kernel. intros Hpg Hv He Hbad. unfold RaiseException. assert (is_int v) as Hvi by (unfold is_int; lia).
  assert (cpu_ok (set_reg BadVAddrReg v (k_machine k))) as Hc by (apply set_reg_ok; [apply Hpg|done..]).
  destruct (DelayedLoad_ok _ 0 0 Hc) as (regs & -> & Hc' & _ & Hj); [done|unfold is_int; lia|]. cbn [mbind outcome_bind].
  set (m := with_registers regs _) in *.
  assert (reg m BadVAddrReg = v) as Hb.
  { rewrite Hj by done. rewrite reg_set_reg; [done|apply Hpg|done|done]. }
  assert (paged (k_files k) m) as Hpm by (apply (paged_same _ (k_machine k)); [exact (same_mapping_registers _ regs)|exact Hc'|exact Hpg]).
  destruct (paged_fault vir0 (k_files k) m v e Hpm Hv Hb He Hbad) as (m' & f & HP & Hpm' & He').
  unfold memory_handler, setStatus. rewrite files_set_int, files_set_machine, machine_set_int, machine_set_machine, HP.
  cbn [mbind outcome_bind]. eexists _, f. split; [reflexivity|].
  rewrite machine_set_int, machine_set_files, machine_set_machine, files_set_int, files_set_files. done.
Qed.

(** Reading a byte of a page that is present. *)
Lemma read_present k v f e :
  paged_kernel k -> 0 <= v < n * 128 -> page_of (k_machine k) a (Z.to_nat (v / 128)) = Some e ->
  valid e = true -> physicalPage e = Z.of_nat f ->
  exists m' c, Machine.Translate (k_machine k) v 1 false = Ok (m', inr (Z.of_nat f * 128 + v mod 128)) /\
    paged (k_files k) m' /\ read_phys m' (Z.of_nat f * 128 + v mod 128) 1 = Ok (signed_char c) /\
    forall b, paged_byte file (file_addr h) v = Some b -> c = b.
Proof.
  unfold paged_kernel. intros Hpg Hv He Hval Hph. destruct (page_of_table _ _ _ _ He) as (t & Ha & Ht).
  destruct (Translate_present _ _ v t e Hpg Hv Ha Ht Hval ltac:(lia)) as (f' & m' & Hf' & Hlt & HT & Hsm & Hregs).
  assert (f' = f) as -> by lia. destruct (address_parts v Hv) as (_ & _ & Hd & Hr & Hvd).
  pose proof (proj2 (mi_frames _ (pg_inv _ _ Hpg))) as Hml. change (Z.to_nat MemorySize) with (128 * 128)%nat in Hml.
  destruct (lookup_lt_is_Some_2 (mainMemory (k_machine k)) (f * 128 + Z.to_nat (v mod 128))%nat) as [c Hc]; [lia|].
  exists m', c. split; [done|]. split; [|split].
  - eapply paged_same; [exact Hsm| |exact Hpg]. destruct (pg_cpu _ _ Hpg) as [C1 C2 C3]. unfold reg in *. split; unfold reg; by rewrite ?Hregs.
  - unfold read_phys. cbn [Z.eqb Pos.eqb]. rewrite (sm_memory _ _ Hsm), buf_get_ok by lia. cbn [mbind outcome_bind].
    replace (Z.to_nat (Z.of_nat f * 128 + v mod 128)) with (f * 128 + Z.to_nat (v mod 128))%nat by lia.
    change (Z.to_nat 1) with 1%nat. rewrite (drop_S _ _ _ Hc). cbn [take firstn le_value]. do 2 f_equal. change (take 0 _) with (@nil Z). cbn. lia.
  - intros b Hb. enough (Some c = Some b) by congruence. rewrite <- Hc. apply (pg_bytes _ _ Hpg (Z.to_nat (v / 128)) e f); [done|done|done|lia|].
    by replace (_ * 128 + _) with v by lia.
Qed.

Lemma paged_read k v :
  paged_kernel k -> 0 <= v < n * 128 ->
  exists k' c, ReadMem (memory_handler vir0) v 1 k = Ok (k', Some (signed_char c)) /\ paged_kernel k' /\ k_files k' = k_files k /\
    forall b, paged_byte file (file_addr h) v = Some b -> c = b.
Proof.
  intros Hpg Hv. destruct (paged_page _ _ v Hpg Hv) as (t & e & Ha & Ht & _ & He).
  destruct (decide (valid e = false \/ physicalPage e = -1)) as [Hbad|Hgood].
  - destruct (raise_page_fault k v e Hpg Hv He Hbad) as (k1 & f & HR & Hpg1 & Hf1 & He1).
    destruct (read_present k1 v f _ Hpg1 Hv He1 eq_refl eq_refl) as (m' & c & HT & Hpm & HRd & Hb).
    exists (set_machine m' k1), c. unfold paged_kernel. rewrite machine_set_machine, files_set_machine. split; [|done].
    unfold ReadMem. rewrite (Translate_absent _ _ v t e Hpg Hv Ha Ht Hbad). cbn [mbind outcome_bind].
    rewrite set_machine_id, HR. cbn [mbind outcome_bind]. rewrite bool_decide_eq_true_2 by done.
    rewrite HT. cbn [mbind outcome_bind]. by rewrite HRd.
  - destruct (valid e) eqn:Hval; [|by destruct Hgood; left]. assert (physicalPage e <> -1) as Hph by tauto.
    destruct (mi_page _ (pg_inv _ _ Hpg) _ _ _ He Hval Hph) as (Hp0 & _).
    destruct (read_present k v (Z.to_nat (physicalPage e)) e Hpg Hv He Hval ltac:(lia)) as (m' & c & HT & Hpm & HRd & Hb).
    exists (set_machine m' k), c. unfold paged_kernel. rewrite machine_set_machine, files_set_machine. split; [|done].
    unfold ReadMem. rewrite HT. cbn [mbind outcome_bind]. rewrite machine_set_machine. by rewrite HRd.
Qed.

(** Any sequence of reads. *)
Fixpoint read_bytes (vs : list Z) (k : K) : outcome (K * list Z) :=
  match vs with
  | [] => Ok (k, [])
  | v :: vs =>
      '(k, r) ← ReadMem (memory_handler vir0) v 1 k;
      '(k, rs) ← read_bytes vs k;
      Ok (k, default 0 r :: rs)
  end.

Lemma paged_reads vs k :
  paged_kernel k -> Forall (fun v => 0 <= v < n * 128) vs ->
  exists k' cs, read_bytes vs k = Ok (k', signed_char <$> cs) /\ length cs = length vs /\ paged_kernel k' /\ k_files k' = k_files k /\
    forall i v b, vs !! i = Some v -> paged_byte file (file_addr h) v = Some b -> cs !! i = Some b.
Proof.
  revert k. induction vs as [|v vs IH]; intros k Hpg Hvs.
  - exists k, []. split_and!; [done..|]. intros i v b Hi. done.
  - apply Forall_cons in Hvs as [Hv Hvs]. destruct (paged_read k v Hpg Hv) as (k1 & c & HR & Hpg1 & Hf1 & Hc).
    destruct (IH k1 Hpg1 Hvs) as (k2 & cs & HRs & Hl & Hpg2 & Hf2 & Hcs).
    exists k2, (c :: cs). cbn [read_bytes]. rewrite HR. cbn [mbind outcome_bind]. rewrite HRs. cbn [mbind outcome_bind].
    split_and!; [done|cbn; lia|done|congruence|]. intros [|i] w b Hi Hb; cbn in *.
    + injection Hi as ->. f_equal. by apply Hc.
    + by eapply Hcs.
Qed.
End running.
