(* ===== verification/UserStep.v ===== *)
(** * One user instruction in NachOS (src/code/machine/mipssim.cc,
    translate.cc; userprog/exception.cc)

    The simulator of Mips.v calls the kernel's handler when an instruction
    raises an exception.  The handler of exception.cc does not always return:
    all exceptions but system calls and page faults end in ASSERTNOTREACHED, and
    system calls and page faults can fail too.  Here it is proved that when it
    returns it keeps the contract that the simulator relies on, so that a user
    instruction ends in a well-formed machine or NachOS stops in its handler. *)

From S2P Require Import Prelude Lists Interrupt Disk Machine Mips AddrSpace Exception Paging.
Open Scope Z_scope.

(** ** Paging keeps the machine well-formed *)

(** Files hold bytes. *)
Definition bytes_ok (fs : files) : Prop := forall nm f, fs !! nm = Some f -> Forall is_byte f.

(** A machine with the same registers and as large a page table. *)
Lemma user_ok_remap m m' a t :
  user_ok m -> registers m' = registers m -> tlb m' = tlb m -> pageTableSize m' = pageTableSize m ->
  length (GlobalPageTable m') = length (GlobalPageTable m) -> memory_wf m' -> Machine.pageTable m' = Some a -> tables m' !! a = Some t ->
  pageTableSize m <= Z.of_nat (length t) -> Forall (fun e => is_int (physicalPage e)) t -> user_ok m'.
Proof.
  intros [[H1 H2 H3] _ (t0 & [S1 _ S3 _ S5])] Er Et Ez Eg Hm Hpt Ht Hl He. split; [|done|].
  - split; unfold reg; by rewrite Er.
  - exists t. split; [congruence|eauto|lia|done|congruence].
Qed.

Lemma write_back_bytes fs m phy e fs' :
  write_back fs m phy e = Ok fs' -> Forall is_byte (mainMemory m) -> bytes_ok fs -> bytes_ok fs'.
Proof.
  unfold write_back, WriteAt, buf_get. intros HW Hm Hfs. destruct (fs !! DiskFile e) as [out|] eqn:Ho; [|done].
  destruct (dirty e); [|by inv_ok]. inv_ok. case_match; inv_ok. intros nm f Hf.
  destruct (decide (nm = DiskFile e)) as [->|]; [|rewrite lookup_insert_ne in Hf by done; eauto].
  rewrite lookup_insert_eq in Hf. injection Hf as <-. apply splice_bytes; [|by apply Forall_take, Forall_drop].
  apply Forall_app. split; [by eapply Hfs|]. apply Forall_replicate. unfold is_byte. lia.
Qed.

Lemma choose_frame_keeps vir0 vpn fs m fs' m' phy vir :
  choose_frame vir0 vpn fs m = Ok (fs', m', phy, vir) -> user_ok m -> bytes_ok fs ->
  bytes_ok fs' /\ 0 <= phy < 128 /\ exists gl, m' = with_global gl m /\ length gl = length (GlobalPageTable m).
Proof.
  intros HC Huo Hfs. destruct (uo_space _ Huo) as (t & Hsp). pose proof (sw_global _ _ Hsp) as Hg. change (Z.to_nat NumPhysPages) with 128%nat in Hg.
  unfold choose_frame in HC. destruct (findFreeFrame_ok m vpn (Machine.pageTable m) Hg) as [[Hall HF]|(i & g & Hi & _ & _ & HF)];
    rewrite HF in HC; cbn [mbind outcome_bind Z.eqb Pos.eqb] in HC.
  - destruct (findFreeByLRU_ok m Hg Hall) as (i & g & HL & Hi & _). rewrite HL in HC. cbn [mbind outcome_bind] in HC. apply lookup_lt_Some in Hi as Hlt.
    inv_ok. split; [by eapply write_back_bytes; [|apply Huo|]|]. split; [lia|]. exists (GlobalPageTable m'). by destruct m'.
  - rewrite of_nat_not_minus1 in HC. injection HC as <- <- <- <-. apply lookup_lt_Some in Hi as Hlt. split; [done|]. split; [lia|].
    eexists. split; [reflexivity|]. apply length_insert.
Qed.

Lemma fill_frame_keeps in_file fa vpn phy m m' :
  fill_frame in_file fa vpn phy m = Ok m' -> memory_wf m -> Forall is_byte in_file -> exists mem, m' = with_memory mem m /\ memory_wf m'.
Proof.
  intros HF Hm Hb. unfold fill_frame in HF.
  eapply (for_range_inv (fun _ m' => exists mem, m' = with_memory mem m /\ memory_wf m')) in HF; [exact HF|done| |].
  - exists (mainMemory m). by destruct m.
  - clear HF m'. intros i m1 m2 _ (mem & -> & Hl & Hby) HB.
    destruct (file_position fa _) as [[p|]|]; cbn [mbind outcome_bind] in HB; [|injection HB as <-; by exists mem|done].
    unfold ReadAt, buf_put in HB. inv_ok. case_match; inv_ok. eexists. split; [reflexivity|]. split; cbn [mainMemory with_memory] in *.
    + rewrite length_splice; [done|]. bool_lia.
    + apply splice_bytes; [done|]. by apply Forall_take, Forall_drop.
Qed.

Lemma table_insert (t : list TranslationEntry) i e :
  Forall (fun e => is_int (physicalPage e)) t -> is_int (physicalPage e) ->
  length (<[i := e]> t) = length t /\ Forall (fun e => is_int (physicalPage e)) (<[i := e]> t).
Proof. intros. split; [apply length_insert|by apply Forall_insert]. Qed.

Lemma update_tables_keeps vpn phy vir m m' :
  update_tables vpn phy vir m = Ok m' -> user_ok m -> 0 <= phy < 128 ->
  user_ok m' /\ registers m' = registers m /\ pageTableSize m' = pageTableSize m /\ 0 <= vpn /\
  exists a t e, Machine.pageTable m' = Some a /\ tables m' !! a = Some t /\ t !! Z.to_nat vpn = Some (resident phy e).
Proof.
  intros HU Huo Hphy. destruct (uo_space _ Huo) as (t & Hsp). pose proof Hsp as [S1 (a & Hpt & Ha) S3 S4 S5].
  unfold update_tables in HU. destruct (arr_get (GlobalPageTable m) phy) as [g|]; [|done]. cbn [mbind outcome_bind] in HU.
  match type of HU with mbind _ ?x = _ => destruct x as [m1|] eqn:E1; [|done] end. cbn [mbind outcome_bind] in HU.
  assert (exists tb t1, m1 = with_tables tb m /\ tb !! a = Some t1 /\ length t1 = length t /\ Forall (fun e => is_int (physicalPage e)) t1)
    as (tb & t1 & -> & Hta & Hl1 & Hi1).
  { clear HU. destruct (RefPageTable g) as [b|]; [|injection E1 as <-; exists (tables m), t; by destruct m].
    unfold get_table in E1. destruct (tables m !! b) as [tb0|] eqn:Hb; [|done]. cbn [mbind outcome_bind] in E1. inv_ok.
    apply arr_get_Ok in E as [Hv Hev]. apply arr_set_Ok in E0 as [_ ->].
    destruct (decide (b = a)) as [->|Hne]; eexists _, _; (split; [reflexivity|]).
    - assert (tb0 = t) as -> by congruence. rewrite lookup_insert_eq. split; [done|]. apply table_insert; [done|].
      cbn. exact (Forall_lookup_1 _ _ _ _ S4 Hev).
    - rewrite lookup_insert_ne by done. split; [exact Ha|done]. }
  unfold get_table in HU. cbn [Machine.pageTable with_tables tables] in HU. rewrite Hpt, Hta in HU. cbn [mbind outcome_bind] in HU. inv_ok.
  apply arr_get_Ok in E as [Hv Hev]. apply arr_set_Ok in E0 as [_ ->]. apply arr_set_Ok in E2 as [Hv2 ->].
  destruct (table_insert t1 (Z.to_nat vpn) (resident phy a0) Hi1) as [Hl2 Hi2]; [unfold is_int; cbn; lia|].
  split; [|split; [done|split; [done|split; [lia|]]]].
  - eapply (user_ok_remap m _ a); [done|done|done|done|apply length_insert|destruct (uo_memory _ Huo); by split|done|cbn; apply lookup_insert_eq|lia|done].
  - eexists a, _, a0. split; [done|]. split; [apply lookup_insert_eq|]. apply list_lookup_insert_eq. lia.
Qed.

(** The page fault handler, when it returns: the machine is well-formed, only the
    page tables, the table of frames and the memory have changed, and the page
    that faulted is accessible. *)
Lemma page_fault_keeps vir0 fs m fs' m' :
  page_fault vir0 fs m = Ok (fs', m') -> user_ok m -> bytes_ok fs -> pageTableSize m * PageSize <= 2 ^ 31 ->
  user_ok m' /\ registers m' = registers m /\ pageTableSize m' = pageTableSize m /\ bytes_ok fs' /\
  forall size w, lookup_mem m (reg m BadVAddrReg) size w = inl PageFaultException ->
    exists p, lookup_mem m' (reg m BadVAddrReg) size w = inr p.
Proof.
  intros HP Huo Hfs Hsz. unfold page_fault in HP. rewrite read_fault_addr in HP by apply Huo. cbn [mbind outcome_bind] in HP.
  set (v := reg m BadVAddrReg) in *. destruct (choose_frame vir0 _ fs m) as [[[[fs1 m1] phy] vir]|] eqn:EC; [|done]. cbn [mbind outcome_bind] in HP.
  destruct (choose_frame_keeps _ _ _ _ _ _ _ _ EC Huo Hfs) as (Hfs1 & Hphy & gl & -> & Hgl).
  destruct (get_table _ _) as [t0|] eqn:ET; [|done]. cbn [mbind outcome_bind] in HP. destruct (arr_get t0 _) as [e0|]; [|done].
  cbn [mbind outcome_bind] in HP. destruct (fs1 !! DiskFile e0) as [in_file|] eqn:Ein; [|done].
  destruct (fill_frame _ _ _ _ _) as [m2|] eqn:EF; [|done]. cbn [mbind outcome_bind] in HP.
  destruct (fill_frame_keeps _ _ _ _ _ _ EF ltac:(destruct (uo_memory _ Huo); by split) (Hfs1 _ _ Ein)) as (mem & -> & Hm2).
  destruct (update_tables _ _ _ _) as [m3|] eqn:EU; [|done]. cbn [mbind outcome_bind] in HP. injection HP as <- <-.
  destruct (uo_space _ Huo) as (t & Hsp). pose proof Hsp as [S1 (a & Hpt & Ha) S3 S4 S5].
  assert (user_ok (with_memory mem (with_global gl m))) as Huo2
    by (eapply (user_ok_remap m _ a t); first [done|exact Hgl|exact Hm2|lia]).
  destruct (update_tables_keeps _ _ _ _ _ EU Huo2 Hphy) as (Huo3 & Hr & Hz & Hv0 & b & t3 & e3 & Hb & Ht3 & He3).
  split_and!; [done|done|done|done|]. intros size w Hlk. destruct (uo_space _ Huo3) as (t3' & Hsp3).
  assert (t3' = t3) as ->. { destruct Hsp3 as [_ (c & Hc & Hc') _ _ _]. congruence. }
  rewrite (lookup_mem_space m t) in Hlk by done. rewrite (lookup_mem_space _ t3) by done. rewrite Hz. cbn [pageTableSize with_memory with_global].
  unfold lookup_page in *. destruct (misaligned v size); [done|]. destruct (Z.leb_spec (pageTableSize m) (vpn_of v)) as [|Hlt]; [done|].
  pose proof (reg_int m BadVAddrReg (uo_cpu _ Huo)) as Hvi. fold v in Hvi. unfold is_int in Hvi.
  assert (Z.quot v PageSize = vpn_of v) as Eq.
  { unfold vpn_of in *. change PageSize with 128 in *. destruct (Z.ltb_spec v 0).
    - exfalso. assert (to_uint v = v + 2 ^ 32) as Hu by (unfold to_uint; symmetry; apply (Z.mod_unique_pos _ _ (-1)); lia).
      rewrite Hu in Hlt. assert (2 ^ 24 <= (v + 2 ^ 32) / 128) by (apply Z.div_le_lower_bound; lia). lia.
    - rewrite to_uint_id by (unfold is_uint; lia). apply Z.quot_div_nonneg; lia. }
  rewrite Eq in He3. rewrite He3. cbn [resident valid physicalPage readOnly negb orb andb].
  rewrite (proj2 (Z.eqb_neq phy (-1))) by lia. change NumPhysPages with 128. rewrite (proj2 (Z.leb_le 0 phy)), (proj2 (Z.ltb_lt phy 128)) by lia. eauto.
Qed.

(** ** The handler keeps the contract *)
Section contract.
Context {K : Type} `{InterruptState K} `{MachineState K} `{!MachineStateLaws K} `{FileState K} `{!FileStateLaws K}.
Implicit Types k : K.

(** Besides the machine: the page table covers non-negative addresses only, and
    files hold bytes. *)
Definition kernel_ok k : Prop := pageTableSize (k_machine k) * PageSize <= 2 ^ 31 /\ bytes_ok (k_files k).

Lemma kernel_ok_stable : stable kernel_ok.
Proof.
  split; unfold kernel_ok.
  - intros k m [Hz Hf] Hm. by rewrite machine_set_machine, files_set_machine, Hm.
  - intros k s [Hz Hf]. unfold setStatus. by rewrite machine_set_int, files_set_int.
Qed.
Local Abbreviation wf := (wf kernel_ok).

Lemma memory_handler_contract vir0 : handler_contract (memory_handler vir0) kernel_ok.
Proof.
  split. intros e k k' [Huo [Hz Hf]] Hr0 HE. unfold memory_handler in HE. destruct e; try done.
  destruct (page_fault vir0 (k_files k) (k_machine k)) as [[fs m]|] eqn:HP; [|done]. cbn in HE. injection HE as <-.
  destruct (page_fault_keeps _ _ _ _ _ HP Huo Hf Hz) as (Huo' & Hr & Hz' & Hf' & Hacc).
  split; [|split; rewrite machine_set_files, machine_set_machine].
  - split; [by rewrite machine_set_files, machine_set_machine|]. unfold kernel_ok.
    by rewrite machine_set_files, machine_set_machine, files_set_files, Hz'.
  - unfold reg. by rewrite Hr.
  - auto.
Qed.

(** What a call of the host keeps: it returns an [int], and a machine that is
    well-formed if it was before. *)
Definition host_keeps (call : K -> outcome (K * Z)) : Prop :=
  forall k k' n, wf k -> reg (k_machine k) 0 = 0 -> call k = Ok (k', n) -> wf k' /\ reg (k_machine k') 0 = 0 /\ is_int n.

(** A store to a register other than register 0 and the pending load. *)
Lemma write_reg_keeps i v k k' :
  write_reg i v k = Ok k' -> wf k -> reg (k_machine k) 0 = 0 -> is_int v -> 0 < i < NumTotalRegs -> i <> LoadReg ->
  wf k' /\ reg (k_machine k') 0 = 0.
Proof.
  intros HW Hwf Hr0 Hv Hi Hl. pose proof (cp_length _ (uo_cpu _ (proj1 Hwf))) as Hlen. rewrite write_reg_ok in HW by (done || lia). injection HW as <-.
  split.
  - apply (wf_machine _ kernel_ok_stable); [done| |done]. apply user_ok_regs; [apply Hwf|]. apply set_reg_ok; [apply Hwf|lia|done|done].
  - rewrite machine_set_machine, reg_set_reg by (done || lia). by rewrite (proj2 (Z.eqb_neq i 0)) by lia.
Qed.

Lemma read_reg_int i k v : read_reg i k = Ok v -> wf k -> is_int v.
Proof.
  unfold read_reg, ReadRegister. intros HR Hwf. inv_ok. apply arr_get_Ok in HR as [_ Hv].
  exact (Forall_lookup_1 _ _ _ _ (cp_ints _ (uo_cpu _ (proj1 Hwf))) Hv).
Qed.

(** The two ways to step over the system call instruction. *)
Ltac keep_reg :=
  match goal with
  | HR : read_reg ?i ?k = Ok ?v, Hwf : wf ?k |- _ =>
      lazymatch goal with Hv : is_int v |- _ => fail | _ => pose proof (read_reg_int i k v HR Hwf) end
  | HW : write_reg ?i ?v ?k = Ok ?k', Hwf : wf ?k, Hr : reg (k_machine ?k) 0 = 0 |- _ =>
      let H1 := fresh "Hwf" in let H2 := fresh "Hr" in
      destruct (write_reg_keeps i v k k' HW Hwf Hr) as [H1 H2]; [by first [done|apply to_int_range]|done|done|]; clear HW
  end.

Lemma incrementPC_keeps k k' : incrementPC k = Ok k' -> wf k -> reg (k_machine k) 0 = 0 -> wf k' /\ reg (k_machine k') 0 = 0.
Proof. unfold incrementPC. intros HI Hwf Hr. inv_ok. repeat keep_reg. done. Qed.
Lemma add_advance_keeps k k' : add_advance k = Ok k' -> wf k -> reg (k_machine k) 0 = 0 -> wf k' /\ reg (k_machine k') 0 = 0.
Proof. unfold add_advance. intros HI Hwf Hr. inv_ok. repeat keep_reg. done. Qed.

Lemma write_loop_keeps vir0 n buf count ch buffer k k' buffer' :
  write_loop vir0 n buf count ch buffer k = Ok (k', buffer') -> wf k -> reg (k_machine k) 0 = 0 -> is_int buf ->
  wf k' /\ reg (k_machine k') 0 = 0.
Proof.
  revert buf count ch buffer k. induction n as [|n IH]; intros buf count ch buffer k HW Hwf Hr Hb; [done|]. cbn [write_loop] in HW.
  pose proof (ReadMem_total _ _ kernel_ok_stable (memory_handler_contract vir0) buf 1 k Hwf ltac:(lia) Hb) as HR.
  destruct (ReadMem (memory_handler vir0) buf 1 k) as [[k1 v]|]; [|done]. destruct HR as (Hwf1 & Hr1 & _). cbn [mbind outcome_bind] in HW.
  destruct (arr_set _ _ _) as [b1|]; [|done]. cbn [mbind outcome_bind] in HW. destruct (_ && _); [|injection HW as <- <-; auto].
  eapply IH; eauto. apply to_int_range.
Qed.

(** One of the system calls that store their result in register 2. *)
Lemma syscall_end k1 k' n :
  (k ← write_reg 2 n k1; incrementPC k) = Ok k' -> wf k1 -> reg (k_machine k1) 0 = 0 -> is_int n -> wf k' /\ reg (k_machine k') 0 = 0.
Proof.
  intros HW Hwf Hr Hn. destruct (write_reg 2 n k1) as [k2|] eqn:E2; [|done]. cbn [mbind outcome_bind] in HW.
  destruct (write_reg_keeps _ _ _ _ E2 Hwf Hr Hn) as [Hw2 Hr2]; [done|done|]. by eapply incrementPC_keeps.
Qed.

Section handler.
Context (vir0 ch0 : Z) (buffer0 : list Z).
Context (host_write : Z -> list Z -> K -> outcome (K * Z)) (host_read : Z -> Z -> Z -> K -> outcome (K * Z)).
Context (host_fork : K -> outcome (K * Z)) (host_waitpid : Z -> K -> outcome (K * Z)).

(** The host's calls as the kernel relies on them. *)
Record hosts_ok : Prop := {
  hk_write id bs : host_keeps (host_write id bs);
  hk_read id buffer size : host_keeps (host_read id buffer size);
  hk_fork : host_keeps host_fork;
  hk_waitpid id : host_keeps (host_waitpid id);
}.
Context (Hhost : hosts_ok).
Local Abbreviation handler := (ExceptionHandler vir0 host_write host_read host_fork host_waitpid buffer0 ch0).

Lemma syscall_keeps k k' :
  handler SyscallException k = Ok k' -> wf k -> reg (k_machine k) 0 = 0 -> wf k' /\ reg (k_machine k') 0 = 0.
Proof.
  intros HE Hwf Hr. unfold ExceptionHandler in HE. destruct (read_reg 2 k) as [ty|]; [|done]. cbn [mbind outcome_bind] in HE.
  destruct (read_reg 4 k) as [r4|] eqn:E4; [|done]. cbn [mbind outcome_bind] in HE. apply read_reg_int in E4; [|done].
  destruct (read_reg 5 k) as [r5|]; [|done]. cbn [mbind outcome_bind] in HE. destruct (read_reg 6 k) as [r6|]; [|done]. cbn [mbind outcome_bind] in HE.
  destruct (ty =? SC_Halt); [done|]. destruct (ty =? SC_Add).
  { unfold SysAdd, int_add in HE. destruct (_ && _) eqn:Er; [|done]. cbn [mbind outcome_bind] in HE.
    destruct (write_reg 2 _ k) as [k1|] eqn:EW; [|done]. cbn [mbind outcome_bind] in HE.
    destruct (write_reg_keeps _ _ _ _ EW Hwf Hr) as [Hwf1 Hr1]; [unfold is_int; bool_lia|done|done|]. by eapply add_advance_keeps. }
  destruct (ty =? SC_Write).
  { unfold SysWrite in HE. destruct (write_loop _ _ _ _ _ _ k) as [[k1 b1]|] eqn:EL; [|done]. cbn [mbind outcome_bind] in HE.
    destruct (write_loop_keeps _ _ _ _ _ _ _ _ _ EL Hwf Hr E4) as [Hwf1 Hr1]. destruct (buf_get _ _ _) as [bs|]; [|done]. cbn [mbind outcome_bind] in HE.
    destruct (host_write r6 bs k1) as [[k2 n]|] eqn:EH; [|done]. destruct (hk_write Hhost _ _ _ _ _ Hwf1 Hr1 EH) as (Hwf2 & Hr2 & Hn).
    cbn [mbind outcome_bind] in HE. by eapply syscall_end. }
  destruct (ty =? SC_Read).
  { unfold SysRead in HE. destruct (host_read r6 r4 r5 k) as [[k2 n]|] eqn:EH; [|done]. destruct (hk_read Hhost _ _ _ _ _ _ Hwf Hr EH) as (Hwf2 & Hr2 & Hn).
    cbn [mbind outcome_bind] in HE. by eapply syscall_end. }
  destruct (ty =? SC_Exec).
  { unfold SysExec in HE. destruct (host_fork k) as [[k2 n]|] eqn:EH; [|done]. destruct (hk_fork Hhost _ _ _ Hwf Hr EH) as (Hwf2 & Hr2 & Hn).
    cbn [mbind outcome_bind] in HE. destruct (n =? 0); cbn [negb Z.eqb mbind outcome_bind] in HE; [done|]. eapply syscall_end; [done..|]. unfold is_int. lia. }
  destruct (ty =? SC_Join); [|done].
  unfold SysJoin in HE. destruct (host_waitpid r4 k) as [[k2 n]|] eqn:EH; [|done]. destruct (hk_waitpid Hhost _ _ _ _ Hwf Hr EH) as (Hwf2 & Hr2 & Hn).
  cbn [mbind outcome_bind] in HE. by eapply syscall_end.
Qed.

Lemma ExceptionHandler_contract : handler_contract handler kernel_ok.
Proof.
  split. intros e k k' Hwf Hr0 HE. destruct (decide (e = SyscallException)) as [->|Hns].
  { destruct (syscall_keeps k k' HE Hwf Hr0). by split_and!. }
  unfold ExceptionHandler in HE. destruct (read_reg 2 k); [|done]. cbn [mbind outcome_bind] in HE.
  destruct e; try done. by apply (hc_keeps _ _ (memory_handler_contract vir0)).
Qed.

(** C4: what a user instruction can do to NachOS.  The kernel's handler of
    exception.cc keeps the simulator's contract: if it returns at all, the
    machine is well-formed, register 0 is 0 and after a page fault the page is
    accessible; an exception that is neither a system call nor a page fault
    (illegal opcode, address error, bus error, read-only page, overflow) stops
    NachOS in ASSERTNOTREACHED.  And under this kernel, as under every kernel
    that keeps the contract, [OneInstruction] from a well-formed machine,
    whatever word the PC points at, ends in a well-formed machine with register 0
    still 0, unless the handler itself failed; the simulator adds one failure of
    its own, DIV of the least integer by -1, which is the host's trap. *)
Theorem user_instruction_safe :
  handler_contract handler kernel_ok /\
  (forall e k, wf k -> e <> SyscallException -> e <> PageFaultException -> handler e k = Err AssertFailed) /\
  (forall kernel k, handler_contract kernel kernel_ok -> wf k ->
     match OneInstruction kernel k with
     | Ok k' => wf k' /\ reg (k_machine k') 0 = 0
     | Err err =>
         (exists e k1, wf k1 /\ reg (k_machine k1) 0 = 0 /\ kernel e k1 = Err err) \/
         err = Undefined /\ exists k1 raw,
           ReadMem kernel (R k PCReg) 4 k = Ok (k1, Some raw) /\ div_overflow (Decode (to_uint raw)) k1 = true
     end).
Proof.
  split; [apply ExceptionHandler_contract|]. split.
  - intros e k [Huo _] Hs Hp. unfold ExceptionHandler. rewrite (read_reg_ok 2) by (done || apply Huo). destruct e; first [reflexivity|by destruct Hs|by destruct Hp].
  - intros kernel k Hc Hwf. apply (OneInstruction_safe kernel kernel_ok k kernel_ok_stable Hc Hwf).
Qed.
End handler.
End contract.

(** ** Example: an illegal instruction and a harmless one *)
Module UserSim.
Definition host (k : HandlerSim.K) : outcome (HandlerSim.K * Z) := Ok (k, 0).
Definition handler : ExceptionType -> HandlerSim.K -> outcome HandlerSim.K :=
  ExceptionHandler 0 (fun _ _ => host) (fun _ _ _ => host) host (fun _ => host) (replicate 128 0) 0.
Lemma hosts : hosts_ok (fun _ _ => host) (fun _ _ _ => host) host (fun _ => host).
Proof. split; intros; intros k k' n Hwf Hr [= <- <-]; (split_and!; [done|done|unfold is_int; lia]). Qed.

(** The word 65 is at address 0 and the word 0, which is NOP, at address 4. *)
Definition at_pc (pc : Z) : HandlerSim.K :=
  (set_reg NextPCReg (pc + 4) (set_reg PCReg pc HandlerSim.m), newInterrupt, newStatistics, LoadSim.disk).
Lemma at_pc_wf pc : pc = 0 \/ pc = 4 -> wf kernel_ok (at_pc pc).
Proof.
  intros Hpc. split; [|split].
  - split.
    + split; [by destruct Hpc as [->| ->]| |destruct Hpc as [->| ->]; vm_compute; split; congruence].
      cbn [registers k_machine HandlerSim.hs_machine at_pc fst set_reg with_registers].
      do 2 (apply Forall_insert; [|unfold is_int; lia]). apply Forall_replicate. unfold is_int. lia.
    + destruct HandlerSim.m_memory. by split.
    + exists MachSim.table. destruct HandlerSim.m_space. by split.
  - vm_compute. congruence.
  - intros nm f Hf. cbn in Hf. apply lookup_singleton_Some in Hf as [_ <-]. apply Forall_forall. intros x Hx.
    assert (forallb (fun b => (0 <=? b) && (b <? 256)) LoadSim.program = true) as Hb by (vm_compute; reflexivity).
    rewrite forallb_forall in Hb. specialize (Hb x). rewrite <- list_elem_of_In in Hb. specialize (Hb Hx). unfold is_byte. lia.
Qed.
End UserSim.

Lemma user_instruction_safe_witness :
  OneInstruction UserSim.handler (UserSim.at_pc 0) = Err AssertFailed /\
  exists k', OneInstruction UserSim.handler (UserSim.at_pc 4) = Ok k' /\ user_ok (k_machine k') /\ reg (k_machine k') PCReg = 8.
Proof.
  split; [vm_compute; reflexivity|].
  destruct (user_instruction_safe 0 0 (replicate 128 0) _ _ _ _ UserSim.hosts) as (Hc & _ & HS).
  specialize (HS UserSim.handler (UserSim.at_pc 4) Hc (UserSim.at_pc_wf 4 ltac:(by right))).
  assert (match OneInstruction UserSim.handler (UserSim.at_pc 4) with Ok k' => reg (k_machine k') PCReg = 8 | Err _ => False end)
    as HE by (vm_compute; reflexivity).
  destruct (OneInstruction UserSim.handler (UserSim.at_pc 4)) as [k'|]; [|destruct HE].
  exists k'. split; [reflexivity|]. split; [exact (proj1 (proj1 HS))|exact HE].
Defined.
