(* ===== verification/Boot.v ===== *)
(** * Starting NachOS (src/code/threads/main.cc, kernel.cc, lib/debug.cc)

    [main] looks at the command line, makes the kernel, which looks at the
    command line again with a loop of its own, and then does what was asked
    for: tests, file system commands, and at last a user program, which is
    loaded into two address spaces of which the second is run.  [stub] says
    whether the build has FILESYS_STUB; [atof] is the host's. *)

From Stdlib Require Import Ascii.
From stdpp Require Import strings.
From S2P Require Import Prelude Lists Interrupt Machine Mips AddrSpace Exception Paging.
Open Scope Z_scope.

(** ** [atoi] *)
Definition is_space (c : Ascii.ascii) : bool :=
  let n := Ascii.N_of_ascii c in ((9 <=? n) && (n <=? 13) || (n =? 32))%N.
Definition digit (c : Ascii.ascii) : option Z :=
  let n := Z.of_N (Ascii.N_of_ascii c) in if (48 <=? n) && (n <=? 57) then Some (n - 48) else None.
Fixpoint digits (s : string) (acc : Z) : Z :=
  match s with
  | EmptyString => acc
  | String c s' => match digit c with Some d => digits s' (10 * acc + d) | None => acc end
  end.
Fixpoint skip_spaces (s : string) : string :=
  match s with
  | EmptyString => s
  | String c s' => if is_space c then skip_spaces s' else s
  end.

(** The value must be an [int]. *)
Definition atoi (s : string) : outcome Z :=
  let v := match skip_spaces s with
           | String "-"%char s' => - digits s' 0
           | String "+"%char s' => digits s' 0
           | s' => digits s' 0
           end in
  if (- 2 ^ 31 <=? v) && (v <? 2 ^ 31) then Ok v else Err Undefined.

(** ** debug.cc *)
Record Debug := mkDebug { enableFlags : option string }.
(** [strchr(s, c) != 0]: the terminating zero is part of the string. *)
Fixpoint strchr (s : string) (c : Ascii.ascii) : bool :=
  match s with
  | EmptyString => bool_decide (c = zero)
  | String c' s' => bool_decide (c' = c) || strchr s' c
  end.

(** [Debug::IsEnabled] *)
Definition IsEnabled (d : Debug) (flag : Ascii.ascii) : bool :=
  match enableFlags d with
  | Some s => strchr s flag || strchr s "+"%char
  | None => false
  end.

Section command_line.
Context {Real : Type} (atof : string -> Real) (one : Real) (stub : bool).

(** ** [Kernel::Kernel] *)
Record KernelArgs := mkKernelArgs {
  randomSeed : option Z;
  randomSlice : bool;
  debugUserProg : bool;
  consoleIn : option string;
  consoleOut : option string;
  formatFlag : bool;
  reliability : Real;
  hostName : Z;
}.
Definition default_kernel : KernelArgs := mkKernelArgs None false false None None false one 0.

Fixpoint kernel_args (argv : list string) (k : KernelArgs) : outcome KernelArgs :=
  match argv with
  | [] => Ok k
  | a :: rest =>
      if decide (a = "-rs") then
        match rest with
        | [] => Err AssertFailed
        | v :: rest =>
            n ← atoi v;
            kernel_args rest (mkKernelArgs (Some n) true (debugUserProg k) (consoleIn k) (consoleOut k) (formatFlag k) (reliability k) (hostName k))
        end
      else if decide (a = "-s") then
        kernel_args rest (mkKernelArgs (randomSeed k) (randomSlice k) true (consoleIn k) (consoleOut k) (formatFlag k) (reliability k) (hostName k))
      else if decide (a = "-ci") then
        match rest with
        | [] => Err AssertFailed
        | v :: rest =>
            kernel_args rest (mkKernelArgs (randomSeed k) (randomSlice k) (debugUserProg k) (Some v) (consoleOut k) (formatFlag k) (reliability k) (hostName k))
        end
      else if decide (a = "-co") then
        match rest with
        | [] => Err AssertFailed
        | v :: rest =>
            kernel_args rest (mkKernelArgs (randomSeed k) (randomSlice k) (debugUserProg k) (consoleIn k) (Some v) (formatFlag k) (reliability k) (hostName k))
        end
      else if decide (stub = false /\ a = "-f") then
        kernel_args rest (mkKernelArgs (randomSeed k) (randomSlice k) (debugUserProg k) (consoleIn k) (consoleOut k) true (reliability k) (hostName k))
      else if decide (a = "-n") then
        match rest with
        | [] => Err AssertFailed
        | v :: rest =>
            kernel_args rest (mkKernelArgs (randomSeed k) (randomSlice k) (debugUserProg k) (consoleIn k) (consoleOut k) (formatFlag k) (atof v) (hostName k))
        end
      else if decide (a = "-m") then
        match rest with
        | [] => Err AssertFailed
        | v :: rest =>
            n ← atoi v;
            kernel_args rest (mkKernelArgs (randomSeed k) (randomSlice k) (debugUserProg k) (consoleIn k) (consoleOut k) (formatFlag k) (reliability k) n)
        end
      else kernel_args rest k
  end.

(** ** [main] *)
Record MainArgs := mkMainArgs {
  debugArg : string;
  userProgName : option string;
  threadTestFlag : bool;
  consoleTestFlag : bool;
  networkTestFlag : bool;
  copyFileNames : option (string * string);
  printFileName : option string;
  removeFileName : option string;
  dirListFlag : bool;
  dumpFlag : bool;
}.
Definition default_main : MainArgs := mkMainArgs "" None false false false None None None false false.

Definition with_debug s a := mkMainArgs s (userProgName a) (threadTestFlag a) (consoleTestFlag a) (networkTestFlag a)
  (copyFileNames a) (printFileName a) (removeFileName a) (dirListFlag a) (dumpFlag a).
Definition with_prog s a := mkMainArgs (debugArg a) (Some s) (threadTestFlag a) (consoleTestFlag a) (networkTestFlag a)
  (copyFileNames a) (printFileName a) (removeFileName a) (dirListFlag a) (dumpFlag a).
Definition with_tests t c n a := mkMainArgs (debugArg a) (userProgName a) (t || threadTestFlag a) (c || consoleTestFlag a)
  (n || networkTestFlag a) (copyFileNames a) (printFileName a) (removeFileName a) (dirListFlag a) (dumpFlag a).
Definition with_copy u n a := mkMainArgs (debugArg a) (userProgName a) (threadTestFlag a) (consoleTestFlag a) (networkTestFlag a)
  (Some (u, n)) (printFileName a) (removeFileName a) (dirListFlag a) (dumpFlag a).
Definition with_print s a := mkMainArgs (debugArg a) (userProgName a) (threadTestFlag a) (consoleTestFlag a) (networkTestFlag a)
  (copyFileNames a) (Some s) (removeFileName a) (dirListFlag a) (dumpFlag a).
Definition with_remove s a := mkMainArgs (debugArg a) (userProgName a) (threadTestFlag a) (consoleTestFlag a) (networkTestFlag a)
  (copyFileNames a) (printFileName a) (Some s) (dirListFlag a) (dumpFlag a).
Definition with_listing l d a := mkMainArgs (debugArg a) (userProgName a) (threadTestFlag a) (consoleTestFlag a) (networkTestFlag a)
  (copyFileNames a) (printFileName a) (removeFileName a) (l || dirListFlag a) (d || dumpFlag a).

(** The argument loop; the flags of the disk file system are there only without
    the stub. *)
Fixpoint main_args (argv : list string) (m : MainArgs) : outcome MainArgs :=
  match argv with
  | [] => Ok m
  | a :: rest =>
      if decide (a = "-d") then
        match rest with [] => Err AssertFailed | v :: rest => main_args rest (with_debug v m) end
      else if decide (a = "-z") then main_args rest m
      else if decide (a = "-x") then
        match rest with [] => Err AssertFailed | v :: rest => main_args rest (with_prog v m) end
      else if decide (a = "-K") then main_args rest (with_tests true false false m)
      else if decide (a = "-C") then main_args rest (with_tests false true false m)
      else if decide (a = "-N") then main_args rest (with_tests false false true m)
      else if decide (stub = false /\ a = "-cp") then
        match rest with
        | u :: n :: rest => main_args rest (with_copy u n m)
        | _ => Err AssertFailed
        end
      else if decide (stub = false /\ a = "-p") then
        match rest with [] => Err AssertFailed | v :: rest => main_args rest (with_print v m) end
      else if decide (stub = false /\ a = "-r") then
        match rest with [] => Err AssertFailed | v :: rest => main_args rest (with_remove v m) end
      else if decide (stub = false /\ a = "-l") then main_args rest (with_listing true false m)
      else if decide (stub = false /\ a = "-D") then main_args rest (with_listing false true m)
      else main_args rest m
  end.

(** What [main] does once the kernel is up, in this order. *)
Inductive task :=
  | ThreadSelfTest | ConsoleTest | NetworkTest
  | RemoveFile (name : string) | CopyFile (from to : string) | DumpFileSystem | ListDirectory | PrintFile (name : string)
  | RunProgram (name : string) | HaltMachine.

Definition main_tasks (m : MainArgs) : list task :=
  (if threadTestFlag m then [ThreadSelfTest] else []) ++
  (if consoleTestFlag m then [ConsoleTest] else []) ++
  (if networkTestFlag m then [NetworkTest] else []) ++
  (if stub then [] else
    match removeFileName m with Some f => [RemoveFile f] | None => [] end ++
    match copyFileNames m with Some (u, n) => [CopyFile u n] | None => [] end ++
    (if dumpFlag m then [DumpFileSystem] else []) ++
    (if dirListFlag m then [ListDirectory] else []) ++
    match printFileName m with Some f => [PrintFile f] | None => [] end) ++
  match userProgName m with Some p => [RunProgram p] | None => [] end ++
  [HaltMachine].

(** [main] up to the tasks: both loops run over the whole command line, and a
    failed assertion of either stops before any task. *)
Definition main (argv : list string) : outcome (Debug * KernelArgs * list task) :=
  m ← main_args argv default_main;
  k ← kernel_args argv default_kernel;
  Ok (mkDebug (Some (debugArg m)), k, main_tasks m).
End command_line.

(** ** The user program *)

(** [RunProgram]: two address spaces, of which the second is run; [None] when
    one of them could not be loaded, and [main] goes on to [Halt].  [mem1],
    [mem2] and [local1], [local2] are what the memory of the objects and of the
    headers held. *)
Definition run_program (fs : files) (mem1 mem2 : AddrSpace) (regs1 regs2 : list Z) (local1 local2 : list Z) (name : list Z) (m : Machine)
  : outcome (Machine * option AddrSpace) :=
  let space1 := newAddrSpace mem1 regs1 in
  let space2 := newAddrSpace mem2 regs2 in
  '(m, space1, loaded) ← Load fs local1 name space1 m;
  if negb loaded then Ok (m, None)
  else
    '(m, space2, loaded) ← Load fs local2 name space2 m;
    if negb loaded then Ok (m, None)
    else m ← Execute space2 m; Ok (m, Some space2).

(** ** Loading into an empty and into a full machine *)
Lemma word_at_app l1 l2 i : (4 * i + 4 <= length l1)%nat -> word_at (l1 ++ l2) i = word_at l1 i.
Proof.
  intros Hl. unfold word_at. rewrite drop_app_le by lia. by rewrite take_app_le by (rewrite length_drop; lia).
Qed.

(** A file that holds a whole header hides what the variable held. *)
Lemma exec_header_local local file :
  sizeof_NoffHeader <= Z.of_nat (length file) -> exec_header local file = exec_header [] file.
Proof.
  intros Hl. unfold exec_header, sizeof_NoffHeader in *. change (Z.to_nat 52) with 52%nat. rewrite drop_nil, app_nil_r.
  assert (length (take 52 file) = 52%nat) as E by (rewrite length_take; lia).
  unfold noff_of, segment_at. by rewrite !word_at_app by lia.
Qed.

(** A program of a file: what [Load] accepts. *)
Record program_ok (file : list Z) (h : NoffHeader) : Prop := {
  po_header : sizeof_NoffHeader <= Z.of_nat (length file) /\ h = exec_header [] file;
  po_magic : noffMagic h = NOFFMAGIC;
  po_sizes : sizes_ok h;
  po_pages : divRoundUp (total_size h) PageSize <= NumPhysPages;
  po_code : seg_wf file (code h);
  po_data : seg_wf file (initData h);
  po_ro : seg_wf file (readonlyData h);
  po_disjoint : segments_disjoint h;
}.

Lemma Load_program fs local name file h sp m :
  fs !! name = Some file -> program_ok file h -> frames_ok m ->
  exists m' sp' a t, Load fs local name sp m = Ok (m', sp', true) /\ Loaded file name h m m' sp sp' a t.
Proof.
  intros Hf [[Hl ->] Hm Hs Hp H1 H2 H3 _] Hfo. rewrite (Load_image fs local name file sp m Hf), exec_header_local by done.
  pose proof (load_image_ok file name (exec_header [] file) m sp Hfo Hs H1 H2 H3) as HI.
  by rewrite (proj2 (Z.eqb_eq _ _) Hm), (proj2 (Z.leb_le _ _) Hp) in HI.
Qed.

Lemma new_machine_inv : mem_inv newMachine.
Proof.
  split; [done| | |]; [|done..]. intros f g b Hg Hb. apply lookup_replicate_1 in Hg as [-> _]. done.
Qed.

(** The first program gets every frame. *)
Lemma first_load file name h m sp sp' a t :
  Loaded file name h newMachine m sp sp' a t ->
  (forall j, (j < 128)%nat -> GlobalPageTable m !! j = Some (mkGlobal (Z.of_nat j) 0 (Some a))) /\
  free_frames (GlobalPageTable m) = [] /\ mem_inv m /\ tables m = {[ a := t ]}.
Proof.
  intros HL. assert (free_frames (GlobalPageTable newMachine) = seq 0 128) as Hfr by by vm_compute.
  assert (forall j, (j < 128)%nat -> GlobalPageTable m !! j = Some (mkGlobal (Z.of_nat j) 0 (Some a))) as Hg.
  { intros j Hj. apply (lo_owner _ _ _ _ _ _ _ _ _ HL j j). rewrite Hfr. by apply lookup_seq_lt. }
  split; [done|]. split; [|split; [exact (Loaded_inv _ _ _ _ _ _ _ _ _ new_machine_inv HL)|exact (proj2 (lo_table _ _ _ _ _ _ _ _ _ HL))]].
  apply elem_of_nil_inv. intros j Hj. apply elem_of_free_frames in Hj. unfold is_free in Hj.
  destruct (decide (j < 128)%nat) as [Hlt|Hge]; [by rewrite Hg in Hj|].
  destruct (lo_rest _ _ _ _ _ _ _ _ _ HL) as (_ & _ & _ & [Hgl _]). change (Z.to_nat NumPhysPages) with 128%nat in Hgl.
  by rewrite lookup_ge_None_2 in Hj by lia.
Qed.

Lemma zero_cpu m : cpu_ok (with_registers (replicate (Z.to_nat NumTotalRegs) 0) m).
Proof.
  split; cbn [registers with_registers]; [done|apply Forall_replicate; unfold is_int; lia|].
  unfold reg. cbn [registers with_registers]. rewrite lookup_replicate_2 by (vm_compute; lia). done.
Qed.

(** [Execute]: the registers of a program that has done nothing yet. *)
Lemma Execute_ok sp m :
  length (registers m) = Z.to_nat NumTotalRegs -> 0 <= numPages sp <= 128 ->
  exists r, Execute sp m = Ok (with_space (pageTable sp) (numPages sp) (FileAddr sp) (with_registers r m)) /\
    cpu_ok (with_registers r m) /\ reg (with_registers r m) PCReg = 0 /\ reg (with_registers r m) NextPCReg = 4 /\
    reg (with_registers r m) StackReg = numPages sp * 128 - 16.
Proof.
  intros Hl Hn. unfold Execute. rewrite InitRegisters_ok by done. cbn [mbind outcome_bind]. change PageSize with 128.
  rewrite to_int_id by (unfold is_int; lia). set (m0 := with_registers _ m). pose proof (zero_cpu m) as C0. fold m0 in C0.
  assert (cpu_ok (set_reg PCReg 0 m0)) as C1 by (apply set_reg_ok; [done|done|unfold is_int; lia|done]).
  assert (cpu_ok (set_reg NextPCReg 4 (set_reg PCReg 0 m0))) as C2 by (apply set_reg_ok; [done|done|unfold is_int; lia|done]).
  set (m3 := set_reg StackReg _ _). assert (cpu_ok m3) as C3 by (apply set_reg_ok; [done|done|unfold is_int; lia|done]).
  exists (registers m3). change (with_registers (registers m3) m) with m3. split; [done|]. split; [done|]. unfold m3.
  rewrite !reg_set_reg by (apply C2 || apply C1 || apply C0 || done). done.
Qed.

(** The second program gets no frame at all. *)
Lemma second_load fs file name h m1 m2 sp1 sp1' sp2 sp2' a1 t1 a2 t2 :
  fs !! name = Some file -> program_ok file h ->
  Loaded file name h newMachine m1 sp1 sp1' a1 t1 -> Loaded file name h m1 m2 sp2 sp2' a2 t2 ->
  exists m, Execute sp2' m2 = Ok m /\ paged file name h a2 (numPages sp2') fs m /\
    (forall v, (v < 128)%nat -> page_of m a2 v = Some (page_entry name [] v)) /\
    reg m PCReg = 0 /\ reg m NextPCReg = 4 /\ reg m StackReg = numPages sp2' * 128 - 16.
Proof.
  intros Hf Hpo HL1 HL2. destruct (first_load _ _ _ _ _ _ _ _ HL1) as (Hg1 & Hfree & Hinv1 & Htab1).
  pose proof (Loaded_inv _ _ _ _ _ _ _ _ _ Hinv1 HL2) as Hinv2.
  destruct HL2 as [Hsp [Hfr Htab2] Hlt Hent _ _ Hkeep (Hr2 & Htlb2 & _ & _)]. rewrite Hfree in Hent.
  destruct HL1 as [_ _ Hlt1 Hent1 _ _ _ (Hr1 & Htlb1 & _ & Hfo1)].
  assert (0 <= numPages sp2' <= 128) as Hn.
  { rewrite Hsp. cbn [numPages]. split; [|apply Hpo]. apply divRoundUp_nonneg; [|done]. apply sizes_sum, Hpo. }
  assert (length (registers m2) = Z.to_nat NumTotalRegs) as Hrl by by rewrite Hr2, Hr1.
  assert (a1 <> a2) as Hne by (intros ->; by rewrite Htab1, lookup_singleton_eq in Hfr).
  destruct (Execute_ok sp2' m2 Hrl Hn) as (r & -> & Hcpu & Hreg). eexists. split; [done|].
  set (m := with_space _ _ _ _).
  assert (forall v, page_of m a2 v = t2 !! v) as Hp2.
  { intros v. unfold page_of, m. cbn [tables with_space with_registers]. by rewrite Htab2, lookup_insert_eq. }
  assert (forall v e, t2 !! v = Some e -> e = page_entry name [] v) as Ht2.
  { intros v e Hv. apply lookup_lt_Some in Hv as Hv'. rewrite Hlt in Hv'. rewrite Hent in Hv by exact Hv'. congruence. }
  split; [|split; [intros v Hv; rewrite Hp2; by apply Hent|done]].
  split.
  - destruct Hinv2. by split.
  - apply Forall_lookup. intros j g Hg. unfold m in Hg. cbn [GlobalPageTable with_space with_registers] in Hg.
    assert (j < 128)%nat as Hj by (apply lookup_lt_Some in Hg; by rewrite (proj1 (mi_frames _ Hinv2)) in Hg).
    rewrite (proj1 (Hkeep j ltac:(unfold is_free; by rewrite Hg1))), Hg1 in Hg by done. injection Hg as <-. done.
  - destruct Hcpu. by split.
  - unfold m. cbn. rewrite Hsp, Htlb2, Htlb1. done.
  - unfold m. cbn [tables with_space with_registers]. rewrite Htab2, lookup_insert_eq. cbn. by rewrite Hlt.
  - intros b v e He. assert (exists fr, e = page_entry name fr v) as [fr ->].
    { unfold page_of, m in He. cbn [tables with_space with_registers] in He. rewrite Htab2 in He.
      destruct (decide (b = a2)) as [->|Hb]; [rewrite lookup_insert_eq in He; exists []; by apply Ht2|].
      rewrite lookup_insert_ne in He by done. rewrite Htab1 in He.
      destruct (decide (b = a1)) as [->|Hb1]; [|by rewrite lookup_singleton_ne in He].
      rewrite lookup_singleton_eq in He. cbn [mbind option_bind] in He. apply lookup_lt_Some in He as Hv. rewrite Hlt1 in Hv.
      rewrite Hent1 in He by exact Hv. injection He as <-. eauto. }
    cbn. split_and!; [done|done|by rewrite Hf|done].
  - done.
  - intros v e f o c He _ Hph. rewrite Hp2 in He. rewrite (Ht2 v e He) in Hph. cbn in Hph. unfold frame_of in Hph. rewrite lookup_nil in Hph. lia.
Qed.

(** ** Properties of the component *)
Section started.
Context {K : Type} `{InterruptState K} `{MachineState K} `{!MachineStateLaws K} `{FileState K} `{!FileStateLaws K}.

(** C11: the user program that [main] starts.  The program is loaded twice: the
    first address space takes all 128 frames, so the second, the one that is
    run, starts with the program counter at 0 and the stack pointer below the
    end of its pages, and with no page in memory.  Every byte of it comes in by
    page faults: whatever addresses of its pages it reads, in whatever order and
    number, every read returns, a byte of a segment is the byte of the
    executable, and no file changes. *)
Theorem program_runs_by_demand_paging fs file name h mem1 mem2 regs1 regs2 local1 local2 :
  fs !! name = Some file -> program_ok file h ->
  exists m sp, run_program fs mem1 mem2 regs1 regs2 local1 local2 name newMachine = Ok (m, Some sp) /\
    numPages sp = divRoundUp (total_size h) PageSize /\
    reg m PCReg = 0 /\ reg m NextPCReg = 4 /\ reg m StackReg = numPages sp * PageSize - 16 /\
    (forall v, 0 <= v < numPages sp * PageSize -> Machine.Translate m v 1 false = Ok (m, inl PageFaultException)) /\
    forall vir0 (k : K) vs, k_machine k = m -> k_files k = fs -> Forall (fun v => 0 <= v < numPages sp * PageSize) vs ->
      exists k' cs, read_bytes vir0 vs k = Ok (k', signed_char <$> cs) /\ length cs = length vs /\ k_files k' = fs /\
        forall i v b, vs !! i = Some v -> program_byte file h v = Some b -> cs !! i = Some b.
Proof.
  intros Hf Hpo. unfold run_program.
  destruct (Load_program fs local1 name file h (newAddrSpace mem1 regs1) newMachine Hf Hpo) as (m1 & sp1 & a1 & t1 & -> & HL1); [done|].
  cbn [mbind outcome_bind negb]. assert (frames_ok m1) as Hfo by apply HL1.
  destruct (Load_program fs local2 name file h (newAddrSpace mem2 regs2) m1 Hf Hpo Hfo) as (m2 & sp2 & a2 & t2 & -> & HL2).
  cbn [mbind outcome_bind negb].
  destruct (second_load fs file name h _ _ _ _ _ _ _ _ _ _ Hf Hpo HL1 HL2) as (m & -> & Hpg & Habs & Hpc & Hnpc & Hst).
  cbn [mbind outcome_bind]. exists m, sp2. change PageSize with 128. pose proof (lo_space _ _ _ _ _ _ _ _ _ HL2) as Hsp.
  assert (0 <= numPages sp2 <= 128) as Hn.
  { rewrite Hsp. cbn [numPages]. split; [|apply Hpo]. apply divRoundUp_nonneg; [|done]. apply sizes_sum, Hpo. }
  assert (forall v p, seg_pos (file_addr h) v = Some p -> 0 <= p) as Hpos by (intros v p; by apply (seg_pos_nonneg file); apply Hpo).
  split; [done|]. split; [by rewrite Hsp|]. split_and!; [done|done|done| |].
  - intros v Hv. destruct (paged_page file name h a2 (numPages sp2) Hn fs m v Hpg Hv) as (t & e & Ha & Ht & Hl & He).
    apply (Translate_absent file name h a2 (numPages sp2) Hn fs m v t e Hpg Hv Ha Ht). right.
    rewrite Habs in He by (apply lookup_lt_Some in Ht; lia). injection He as <-. done.
  - intros vir0 k vs Hk Hfs Hvs.
    destruct (paged_reads file name h a2 (numPages sp2) Hn Hpos vir0 vs k) as (k' & cs & HR & Hl & _ & Hf' & Hcs).
    + unfold paged_kernel. by rewrite Hk, Hfs.
    + done.
    + exists k', cs. split_and!; [done|done|congruence|]. intros i v b Hi Hb. apply (Hcs i v b Hi). by rewrite paged_program_byte by apply Hpo.
Qed.
End started.

(** A missing executable: nothing is loaded, and [main] goes on to halt. *)
Lemma run_program_missing fs name mem1 mem2 regs1 regs2 local1 local2 m :
  fs !! name = None -> run_program fs mem1 mem2 regs1 regs2 local1 local2 name m = Ok (m, None).
Proof. intros Hf. unfold run_program, Load. rewrite Hf. done. Qed.

(** ** The command line as a list of options *)
Inductive option_ :=
  | OSeed (s : string) | OStep | OConsoleIn (s : string) | OConsoleOut (s : string) | OFormat | OReliability (s : string) | OMachine (s : string)
  | ODebug (s : string) | OCopyright | OProgram (s : string) | OThreads | OConsole | ONetwork
  | OCopy (u n : string) | OPrint (s : string) | ORemove (s : string) | OList | ODump | OUsage.

Definition render (o : option_) : list string :=
  match o with
  | OSeed s => ["-rs"; s] | OStep => ["-s"] | OConsoleIn s => ["-ci"; s] | OConsoleOut s => ["-co"; s] | OFormat => ["-f"]
  | OReliability s => ["-n"; s] | OMachine s => ["-m"; s] | ODebug s => ["-d"; s] | OCopyright => ["-z"] | OProgram s => ["-x"; s]
  | OThreads => ["-K"] | OConsole => ["-C"] | ONetwork => ["-N"] | OCopy u n => ["-cp"; u; n] | OPrint s => ["-p"; s]
  | ORemove s => ["-r"; s] | OList => ["-l"] | ODump => ["-D"] | OUsage => ["-u"]
  end.

(** The values of an option; a plain one is no flag of either loop. *)
Definition values (o : option_) : list string :=
  match o with
  | OSeed s | OConsoleIn s | OConsoleOut s | OReliability s | OMachine s | ODebug s | OProgram s | OPrint s | ORemove s => [s]
  | OCopy u n => [u; n]
  | _ => []
  end.
Definition flags : list string :=
  ["-rs"; "-s"; "-ci"; "-co"; "-f"; "-n"; "-m"; "-d"; "-z"; "-x"; "-K"; "-C"; "-N"; "-cp"; "-p"; "-r"; "-l"; "-D"].
Definition plain (s : string) : Prop := s ∉ flags.

Section options.
Context {Real : Type} (atof : string -> Real) (one : Real) (stub : bool).

Definition kernel_effect (o : option_) (k : KernelArgs (Real := Real)) : outcome KernelArgs :=
  match o with
  | OSeed s => n ← atoi s; Ok (mkKernelArgs (Some n) true (debugUserProg k) (consoleIn k) (consoleOut k) (formatFlag k) (reliability k) (hostName k))
  | OStep => Ok (mkKernelArgs (randomSeed k) (randomSlice k) true (consoleIn k) (consoleOut k) (formatFlag k) (reliability k) (hostName k))
  | OConsoleIn s => Ok (mkKernelArgs (randomSeed k) (randomSlice k) (debugUserProg k) (Some s) (consoleOut k) (formatFlag k) (reliability k) (hostName k))
  | OConsoleOut s => Ok (mkKernelArgs (randomSeed k) (randomSlice k) (debugUserProg k) (consoleIn k) (Some s) (formatFlag k) (reliability k) (hostName k))
  | OFormat => Ok (mkKernelArgs (randomSeed k) (randomSlice k) (debugUserProg k) (consoleIn k) (consoleOut k) (negb stub || formatFlag k) (reliability k) (hostName k))
  | OReliability s => Ok (mkKernelArgs (randomSeed k) (randomSlice k) (debugUserProg k) (consoleIn k) (consoleOut k) (formatFlag k) (atof s) (hostName k))
  | OMachine s => n ← atoi s; Ok (mkKernelArgs (randomSeed k) (randomSlice k) (debugUserProg k) (consoleIn k) (consoleOut k) (formatFlag k) (reliability k) n)
  | _ => Ok k
  end.

Definition main_effect (o : option_) (m : MainArgs) : MainArgs :=
  match o with
  | ODebug s => with_debug s m | OProgram s => with_prog s m
  | OThreads => with_tests true false false m | OConsole => with_tests false true false m | ONetwork => with_tests false false true m
  | OCopy u n => if stub then m else with_copy u n m
  | OPrint s => if stub then m else with_print s m
  | ORemove s => if stub then m else with_remove s m
  | OList => if stub then m else with_listing true false m
  | ODump => if stub then m else with_listing false true m
  | _ => m
  end.

Fixpoint kernel_effects (os : list option_) (k : KernelArgs) : outcome KernelArgs :=
  match os with
  | [] => Ok k
  | o :: os => k ← kernel_effect o k; kernel_effects os k
  end.

Lemma plain_ne s f : plain s -> bool_decide (f ∈ flags) = true -> s <> f.
Proof. intros Hs Hf ->. by apply Hs, (bool_decide_eq_true_1 _ Hf). Qed.

Ltac not_flag :=
  first [apply plain_ne; [assumption|reflexivity]
        |let E := fresh "E" in intros [_ E]; revert E; apply plain_ne; [assumption|reflexivity]].

Ltac flag_cases :=
  repeat (let E := fresh "E" in case_decide as E;
    [first [discriminate E | destruct E; discriminate | exfalso; revert E; not_flag | idtac]|first [exfalso; apply E; first [reflexivity | split; reflexivity] | clear E]]).

(** A plain word is skipped by both loops. *)
Lemma kernel_args_plain s rest k : plain s -> kernel_args atof stub (s :: rest) k = kernel_args atof stub rest k.
Proof.
  intros Hs. cbn [kernel_args]. by rewrite !decide_False by not_flag.
Qed.

Lemma main_args_plain s rest m : plain s -> main_args stub (s :: rest) m = main_args stub rest m.
Proof.
  intros Hs. cbn [main_args]. by rewrite !decide_False by not_flag.
Qed.

(** One option, with whatever follows it. *)
Lemma kernel_args_option o rest k :
  Forall plain (values o) -> kernel_args atof stub (render o ++ rest) k = k ← kernel_effect o k; kernel_args atof stub rest k.
Proof.
  intros Hv. destruct o; cbn [render values app] in *; repeat match goal with H : Forall _ (_ :: _) |- _ => apply Forall_cons in H as [? H] end.
  all: cbn [kernel_args kernel_effect]; destruct stub; flag_cases; rewrite ?kernel_args_plain by assumption; try reflexivity.
  all: first [by destruct (atoi _) | by destruct k].
Qed.

Lemma main_args_option o rest m :
  Forall plain (values o) -> main_args stub (render o ++ rest) m = main_args stub rest (main_effect o m).
Proof.
  intros Hv. destruct o; cbn [render values app] in *; repeat match goal with H : Forall _ (_ :: _) |- _ => apply Forall_cons in H as [? H] end.
  all: cbn [main_args main_effect]; destruct stub; flag_cases; rewrite ?main_args_plain by assumption; reflexivity.
Qed.

Lemma kernel_args_options os rest k :
  Forall (fun o => Forall plain (values o)) os ->
  kernel_args atof stub ((os ≫= render) ++ rest) k = k ← kernel_effects os k; kernel_args atof stub rest k.
Proof.
  revert k. induction os as [|o os IH]; intros k Hos; [done|]. apply Forall_cons in Hos as [Ho Hos].
  cbn [mbind list_bind kernel_effects]. rewrite <- app_assoc, kernel_args_option by done.
  destruct (kernel_effect o k) as [k'|]; [|done]. cbn [mbind outcome_bind]. by apply IH.
Qed.

Lemma main_args_options os rest m :
  Forall (fun o => Forall plain (values o)) os ->
  main_args stub ((os ≫= render) ++ rest) m = main_args stub rest (foldl (fun m o => main_effect o m) m os).
Proof.
  revert m. induction os as [|o os IH]; intros m Hos; [done|]. apply Forall_cons in Hos as [Ho Hos].
  cbn [mbind list_bind foldl]. rewrite <- app_assoc, main_args_option by done. by apply IH.
Qed.

(** The command line.  [main] and [Kernel::Kernel] each run a loop of their
    own over the same words; on a command line that is a sequence of options,
    given in any order and any number of times and with values that are not
    themselves flags, both loops see exactly the options that were written:
    every option has its effect, the last one of a kind wins, the options of
    the disk file system do nothing in the build with the stub, and the tasks
    asked for are done in their fixed order and end in [Halt].  If the last word
    is a flag without its value, the assertion fails and nothing is done. *)
Theorem command_line_correct os flag :
  Forall (fun o => Forall plain (values o)) os ->
  let m := foldl (fun m o => main_effect o m) default_main os in
  main atof one stub (os ≫= render) =
    (k ← kernel_effects os (default_kernel one); Ok (mkDebug (Some (debugArg m)), k, main_tasks stub m)) /\
  ((exists k, kernel_effects os (default_kernel one) = Ok k) -> flag ∈ ["-d"; "-x"; "-rs"; "-ci"; "-co"; "-n"; "-m"] ->
   main atof one stub ((os ≫= render) ++ [flag]) = Err AssertFailed).
Proof.
  intros Hos m. split.
  - unfold main. pose proof (main_args_options os [] default_main Hos) as HM. pose proof (kernel_args_options os [] (default_kernel one) Hos) as HK.
    rewrite app_nil_r in HM, HK. rewrite HM, HK. cbn [main_args mbind outcome_bind]. fold m.
    by destruct (kernel_effects os _).
  - intros [k Hk] Hfl. unfold main. rewrite main_args_options, kernel_args_options by done. rewrite Hk. fold m. cbn [mbind outcome_bind].
    repeat (apply elem_of_cons in Hfl as [->|Hfl]; [by destruct stub|]). by apply not_elem_of_nil in Hfl.
Qed.
End options.

(** A value that is a flag of the other loop is taken for one. *)
Lemma value_taken_for_flag {Real} (atof : string -> Real) one :
  exists k, main atof one true ["-x"; "-s"] = Ok (mkDebug (Some ""), k, [RunProgram "-s"; HaltMachine]) /\ debugUserProg k = true.
Proof. eexists. split; reflexivity. Qed.

Lemma debug_plus s flag : strchr s "+"%char = true -> IsEnabled (mkDebug (Some s)) flag = true.
Proof. intros Hs. unfold IsEnabled. cbn. rewrite Hs. apply orb_true_r. Qed.

(** ** Examples *)
Lemma load_sim_program : program_ok LoadSim.program (exec_header [] LoadSim.program).
Proof.
  split; [split; [vm_compute; congruence|reflexivity]|reflexivity|exact LoadSim.sizes|vm_compute; congruence|
    exact LoadSim.seg_code|exact LoadSim.seg_init|exact LoadSim.seg_ro|].
  intros v. change (in_segment (code _) v) with ((0 <=? v) && (v <? 8)).
  change (in_segment (initData _) v) with ((128 <=? v) && (v <? 132)).
  change (in_segment (readonlyData _) v) with ((0 <=? v) && (v <? 0)).
  split; [intros E; split|intros E]; apply not_true_is_false; intros E'; bool_lia.
Qed.

(** The last byte of the code, the first of the data, a byte of the code again. *)
Lemma program_runs_by_demand_paging_witness :
  exists m sp, run_program LoadSim.disk LoadSim.junk LoadSim.junk [] [] [] [] LoadSim.name newMachine = Ok (m, Some sp) /\
    exists k', read_bytes (K := HandlerSim.K) 0 [7; 128; 6] (m, newInterrupt, newStatistics, LoadSim.disk) = Ok (k', [8; 9; 7]).
Proof.
  destruct (program_runs_by_demand_paging (K := HandlerSim.K) LoadSim.disk LoadSim.program LoadSim.name (exec_header [] LoadSim.program)
    LoadSim.junk LoadSim.junk [] [] [] [] eq_refl load_sim_program) as (m & sp & HR & Hn & _ & _ & _ & _ & Hreads).
  exists m, sp. split; [exact HR|].
  assert (numPages sp = 9) as Hsp by (rewrite Hn; reflexivity). rewrite Hsp in Hreads. change PageSize with 128 in Hreads.
  destruct (Hreads 0 (m, newInterrupt, newStatistics, LoadSim.disk) [7; 128; 6] eq_refl eq_refl) as (k' & cs & Hrd & Hlen & _ & Hcs).
  { repeat constructor; lia. }
  exists k'. rewrite Hrd.
  pose proof (Hcs 0%nat 7 8 eq_refl eq_refl) as C0. pose proof (Hcs 1%nat 128 9 eq_refl eq_refl) as C1.
  pose proof (Hcs 2%nat 6 7 eq_refl eq_refl) as C2.
  destruct cs as [|c0 [|c1 [|c2 [|c3 cs]]]]; try discriminate Hlen.
  injection C0 as ->. injection C1 as ->. injection C2 as ->. reflexivity.
Defined.

Lemma command_line_correct_witness :
  main (fun _ => 0) 1 true ["-m"; "1"; "-x"; "halt"; "-K"; "-rs"; "7"] =
    Ok (mkDebug (Some ""), mkKernelArgs (Some 7) true false None None false 1 1, [ThreadSelfTest; RunProgram "halt"; HaltMachine]) /\
  main (fun _ => 0) 1 true ["-m"; "1"; "-x"; "halt"; "-K"; "-rs"; "7"; "-d"] = Err AssertFailed.
Proof.
  assert (Forall (fun o => Forall plain (values o)) [OMachine "1"; OProgram "halt"; OThreads; OSeed "7"]) as Hp.
  { repeat constructor; intros E; apply (bool_decide_eq_true_2 _) in E; vm_compute in E; discriminate E. }
  destruct (command_line_correct (fun _ => 0) 1 true [OMachine "1"; OProgram "halt"; OThreads; OSeed "7"] "-d" Hp) as [H1 H2].
  split; [exact H1|]. apply H2; [|left]. eexists. reflexivity.
Defined.
