(* ===== verification/Threads.v ===== *)
(** * Threads and the scheduler (src/code/threads/thread.h, thread.cc,
    scheduler.h, scheduler.cc, synch.h, synchlist.h)

    A thread's suspended execution is what [SWITCH] saves: here the list of
    kernel actions it has still to do, the innermost first.  The actions are
    the calls that thread code makes and the places inside kernel routines at
    which a thread can lose the CPU.  [Scheduler::Run] pushes the rest of its
    own body ([RunTail]) on the old thread before the new one continues.  The
    thread table, the semaphores and the locks are heaps indexed by pointers.
    Stacks are represented by their fence-post word. *)

From S2P Require Import Prelude Lists Interrupt Machine AddrSpace.

Definition MAX_THREAD_NUM : Z := 128.
Definition STACK_FENCEPOST : Z := 0xdedbeef.

Inductive ThreadStatus := JUST_CREATED | RUNNING | READY | BLOCKED.

#[export] Instance ThreadStatus_eq_dec : EqDecision ThreadStatus.
Proof. solve_decision. Defined.

(** Semaphores: those that code makes for itself, the private one of a lock,
    the one that [Condition::Wait] allocates for each waiter, and the one on
    which the driver of a device waits for its interrupt. *)
Inductive semid := USem (n : positive) | LSem (l : positive) | WSem (n : positive) | DSem (d : positive).

#[export] Instance semid_eq_dec : EqDecision semid.
Proof. solve_decision. Defined.
#[export] Instance semid_countable : Countable semid.
Proof.
  refine (inj_countable' (fun s => match s with USem n => inl (inl n) | LSem l => inl (inr l) | WSem n => inr (inl n)
      | DSem d => inr (inr d) end)
    (fun s => match s with inl (inl n) => USem n | inl (inr l) => LSem l | inr (inl n) => WSem n | inr (inr d) => DSem d end) _).
  by intros [].
Defined.

(** What a driver asks of its device: a sector to read or write, a character to
    display, a packet to send. *)
Inductive request :=
  | ReadReq (sector : Z) | WriteReq (sector : Z) (data : list Z) | PutReq (ch : Z) | SendReq (to : Z) (data : list Z).

Inductive action :=
  (* calls *)
  | Yield_ | P_ (s : semid) | V_ (s : semid)
  | Acquire_ (l : positive) | Release_ (l : positive)
  | Wait_ (c l : positive) | Signal_ (c l : positive) | Broadcast_ (c l : positive)
  | Fork_ (p : option Z) (body : list action)
  | Append_ (sl : positive) (item : Z) | RemoveFront_ (sl : positive) | Halt_
  (* inside kernel routines *)
  | Begin_ | Finish_ | RunTail | SleepLoop (finishing : bool) | SetLevel_ (l : IntStatus)
  | PLoop (s : semid) (oldLevel : IntStatus) | SetHolder (l : positive) | DeleteSem (s : semid)
  | PutItem (sl : positive) (item : Z) | RemoveLoop (sl : positive) | Request_ (d : positive) (r : request).

Record Thread := mkThread {
  priority : Z;
  status : ThreadStatus;
  stack : option Z;
  userRegisters : list Z;
  space : option positive;
  machineState : list action;
}.

Record Semaphore := mkSem { value : Z; queue : list positive }.
Record SynchList := mkSynchList { items : list Z; sl_lock : positive; listEmpty : positive }.

(** A device that takes one request at a time, and whether one is under way. *)
Inductive devkind := DiskDev | DisplayDev | NetworkDev.
Record Device := mkDevice { dkind : devkind; busy : bool }.

Record Kernel := mkKernel {
  intLevel : IntStatus;
  readyList : list positive;
  toBeDestroyed : option positive;
  currentThread : positive;
  threadNum : Z;
  threads : gmap positive Thread;
  spaces : gmap positive AddrSpace;
  machine : Machine;
  sems : gmap semid Semaphore;
  lockHolder : gmap positive (option positive);
  waitQueue : gmap positive (list positive);
  synchLists : gmap positive SynchList;
  devices : gmap positive Device;
}.

(** Stores to one field. *)
Definition with_intLevel l (k : Kernel) := mkKernel l (readyList k) (toBeDestroyed k) (currentThread k) (threadNum k)
  (threads k) (spaces k) (machine k) (sems k) (lockHolder k) (waitQueue k) (synchLists k) (devices k).
Definition with_ready r (k : Kernel) := mkKernel (intLevel k) r (toBeDestroyed k) (currentThread k) (threadNum k)
  (threads k) (spaces k) (machine k) (sems k) (lockHolder k) (waitQueue k) (synchLists k) (devices k).
Definition with_destroy d (k : Kernel) := mkKernel (intLevel k) (readyList k) d (currentThread k) (threadNum k)
  (threads k) (spaces k) (machine k) (sems k) (lockHolder k) (waitQueue k) (synchLists k) (devices k).
Definition with_current c (k : Kernel) := mkKernel (intLevel k) (readyList k) (toBeDestroyed k) c (threadNum k)
  (threads k) (spaces k) (machine k) (sems k) (lockHolder k) (waitQueue k) (synchLists k) (devices k).
Definition with_threadNum n (k : Kernel) := mkKernel (intLevel k) (readyList k) (toBeDestroyed k) (currentThread k) n
  (threads k) (spaces k) (machine k) (sems k) (lockHolder k) (waitQueue k) (synchLists k) (devices k).
Definition with_threads t (k : Kernel) := mkKernel (intLevel k) (readyList k) (toBeDestroyed k) (currentThread k) (threadNum k)
  t (spaces k) (machine k) (sems k) (lockHolder k) (waitQueue k) (synchLists k) (devices k).
Definition with_spaces s (k : Kernel) := mkKernel (intLevel k) (readyList k) (toBeDestroyed k) (currentThread k) (threadNum k)
  (threads k) s (machine k) (sems k) (lockHolder k) (waitQueue k) (synchLists k) (devices k).
Definition with_machine m (k : Kernel) := mkKernel (intLevel k) (readyList k) (toBeDestroyed k) (currentThread k) (threadNum k)
  (threads k) (spaces k) m (sems k) (lockHolder k) (waitQueue k) (synchLists k) (devices k).
Definition with_sems s (k : Kernel) := mkKernel (intLevel k) (readyList k) (toBeDestroyed k) (currentThread k) (threadNum k)
  (threads k) (spaces k) (machine k) s (lockHolder k) (waitQueue k) (synchLists k) (devices k).
Definition with_lockHolder h (k : Kernel) := mkKernel (intLevel k) (readyList k) (toBeDestroyed k) (currentThread k) (threadNum k)
  (threads k) (spaces k) (machine k) (sems k) h (waitQueue k) (synchLists k) (devices k).
Definition with_waitQueue w (k : Kernel) := mkKernel (intLevel k) (readyList k) (toBeDestroyed k) (currentThread k) (threadNum k)
  (threads k) (spaces k) (machine k) (sems k) (lockHolder k) w (synchLists k) (devices k).
Definition with_synchLists s (k : Kernel) := mkKernel (intLevel k) (readyList k) (toBeDestroyed k) (currentThread k) (threadNum k)
  (threads k) (spaces k) (machine k) (sems k) (lockHolder k) (waitQueue k) s (devices k).
Definition with_devices d (k : Kernel) := mkKernel (intLevel k) (readyList k) (toBeDestroyed k) (currentThread k) (threadNum k)
  (threads k) (spaces k) (machine k) (sems k) (lockHolder k) (waitQueue k) (synchLists k) d.

(** An object through its pointer. *)
Definition deref {K A} `{Countable K} (heap : gmap K A) (p : K) : outcome A :=
  match heap !! p with Some x => Ok x | None => Err Undefined end.

Definition set_thread (t : positive) (th : Thread) (k : Kernel) : Kernel := with_threads (<[t := th]> (threads k)) k.
Definition with_tstatus st th := mkThread (priority th) st (stack th) (userRegisters th) (space th) (machineState th).
Definition with_regs r th := mkThread (priority th) (status th) (stack th) r (space th) (machineState th).
Definition with_state ms th := mkThread (priority th) (status th) (stack th) (userRegisters th) (space th) ms.
Definition with_stack st th := mkThread (priority th) (status th) st (userRegisters th) (space th) (machineState th).

(** What the current thread still has to do, after the frames [fs]. *)
Definition push (fs : list action) (k : Kernel) : outcome Kernel :=
  th ← deref (threads k) (currentThread k);
  Ok (set_thread (currentThread k) (with_state (fs ++ machineState th) th) k).

(** ** thread.h, thread.cc *)
Definition setPriority (p : Z) : Z := if 7 <? p then 7 else if p <? 1 then 1 else p.

(** [Thread::Thread] with a name only; [regs] is the uninitialised register buffer. *)
Definition newThread (regs : list Z) : Thread := mkThread (setPriority 0) JUST_CREATED None regs None [].

(** [Thread::Thread] with a name and a priority. *)
Definition newThreadPriority (regs : list Z) (p : Z) (k : Kernel) : outcome (Kernel * Thread) :=
  let n := threadNum k + 1 in
  _ ← ASSERT (n <=? MAX_THREAD_NUM);
  Ok (with_threadNum n k, mkThread (setPriority p) JUST_CREATED None regs None []).

(** [Thread::CheckOverflow] *)
Definition CheckOverflow (th : Thread) : outcome unit :=
  match stack th with None => Ok tt | Some w => ASSERT (w =? STACK_FENCEPOST) end.

(** [Thread::StackAllocate]: the thread will start in [ThreadRoot]. *)
Definition StackAllocate (body : list action) (th : Thread) : Thread :=
  with_state (Begin_ :: body ++ [Finish_]) (with_stack (Some STACK_FENCEPOST) th).

(** [Thread::SaveUserState], [Thread::RestoreUserState] *)
Definition SaveUserState (t : positive) (k : Kernel) : outcome Kernel :=
  th ← deref (threads k) t;
  r ← for_range 0 NumTotalRegs (fun i r => v ← ReadRegister (machine k) i; arr_set r i v) (userRegisters th);
  Ok (set_thread t (with_regs r th) k).
Definition RestoreUserState (t : positive) (k : Kernel) : outcome Kernel :=
  th ← deref (threads k) t;
  m ← for_range 0 NumTotalRegs (fun i m => v ← arr_get (userRegisters th) i; WriteRegister m i v) (machine k);
  Ok (with_machine m k).

(** ** scheduler.cc *)

(** [Scheduler::Compare]; the threads are pointers into the thread table. *)
Definition getPriority (ths : gmap positive Thread) (t : positive) : Z := from_option priority 0 (ths !! t).
Definition Compare (ths : gmap positive Thread) (x y : positive) : Z :=
  if getPriority ths y <? getPriority ths x then -1
  else if getPriority ths x =? getPriority ths y then 0 else 1.

(** [Scheduler::ReadyToRun] *)
Definition ReadyToRun (t : positive) (k : Kernel) : outcome Kernel :=
  _ ← ASSERT (bool_decide (intLevel k = IntOff));
  th ← deref (threads k) t;
  let k := set_thread t (with_tstatus READY th) k in
  r ← Spec.insert (Compare (threads k)) (readyList k) t;
  Ok (with_ready r k).

(** [Scheduler::FindNextToRun] *)
Definition FindNextToRun (k : Kernel) : outcome (Kernel * option positive) :=
  _ ← ASSERT (bool_decide (intLevel k = IntOff));
  match readyList k with
  | [] => Ok (k, None)
  | t :: r => Ok (with_ready r k, Some t)
  end.

(** [Scheduler::CheckToBeDestroyed] with [Thread::~Thread]. *)
Definition CheckToBeDestroyed (k : Kernel) : outcome Kernel :=
  match toBeDestroyed k with
  | None => Ok k
  | Some t =>
      _ ← ASSERT (bool_decide (t <> currentThread k));
      Ok (with_destroy None (with_threads (delete t (threads k)) k))
  end.

(** [if (space != NULL) ...] of [Scheduler::Run], before and after the switch. *)
Definition save_user (t : positive) (k : Kernel) : outcome Kernel :=
  th ← deref (threads k) t;
  match space th with
  | None => Ok k
  | Some a =>
      k ← SaveUserState t k;
      sp ← deref (spaces k) a;
      sp ← SaveState (machine k) sp;
      Ok (with_spaces (<[a := sp]> (spaces k)) k)
  end.
Definition restore_user (t : positive) (k : Kernel) : outcome Kernel :=
  th ← deref (threads k) t;
  match space th with
  | None => Ok k
  | Some a =>
      k ← RestoreUserState t k;
      sp ← deref (spaces k) a;
      m ← RestoreState sp (machine k);
      Ok (with_machine m k)
  end.

(** [Scheduler::Run] up to [SWITCH], which leaves the old thread in [RunTail]. *)
Definition Run (nextThread : positive) (finishing : bool) (k : Kernel) : outcome Kernel :=
  let oldThread := currentThread k in
  _ ← ASSERT (bool_decide (intLevel k = IntOff));
  k ← (if finishing then
         _ ← ASSERT (bool_decide (toBeDestroyed k = None)); Ok (with_destroy (Some oldThread) k)
       else Ok k);
  k ← save_user oldThread k;
  th ← deref (threads k) oldThread;
  _ ← CheckOverflow th;
  k ← push [RunTail] k;
  let k := with_current nextThread k in
  nth ← deref (threads k) nextThread;
  Ok (set_thread nextThread (with_tstatus RUNNING nth) k).

(** The rest of [Scheduler::Run], in the thread that runs again. *)
Definition run_tail (k : Kernel) : outcome Kernel :=
  _ ← ASSERT (bool_decide (intLevel k = IntOff));
  k ← CheckToBeDestroyed k;
  restore_user (currentThread k) k.

(** ** Thread operations *)

(** [Thread::Yield] *)
Definition Yield (k : Kernel) : outcome Kernel :=
  let oldLevel := intLevel k in
  let k := with_intLevel IntOff k in
  k ← ReadyToRun (currentThread k) k;
  '(k, nextThread) ← FindNextToRun k;
  match nextThread with
  | None => Err Undefined
  | Some t => k ← push [SetLevel_ oldLevel] k; Run t false k
  end.

(** The [while] loop of [Thread::Sleep] and the switch after it; when no thread
    is ready the CPU idles and the loop is tried again. *)
Definition sleep_loop (finishing : bool) (k : Kernel) : outcome Kernel :=
  '(k, nextThread) ← FindNextToRun k;
  match nextThread with
  | None => push [SleepLoop finishing] k
  | Some t => Run t finishing k
  end.

(** [Thread::Sleep] *)
Definition Sleep (finishing : bool) (k : Kernel) : outcome Kernel :=
  _ ← ASSERT (bool_decide (intLevel k = IntOff));
  th ← deref (threads k) (currentThread k);
  sleep_loop finishing (set_thread (currentThread k) (with_tstatus BLOCKED th) k).

(** [Thread::Finish], [Thread::Begin] *)
Definition Finish (k : Kernel) : outcome Kernel := Sleep true (with_intLevel IntOff k).
Definition Begin (k : Kernel) : outcome Kernel :=
  k ← CheckToBeDestroyed k; Ok (with_intLevel IntOn k).

(** [Thread::Fork] *)
Definition Fork (t : positive) (body : list action) (k : Kernel) : outcome Kernel :=
  th ← deref (threads k) t;
  let k := set_thread t (StackAllocate body th) k in
  let oldLevel := intLevel k in
  k ← ReadyToRun t (with_intLevel IntOff k);
  Ok (with_intLevel oldLevel k).

(** [t = new Thread(...); t->Fork(body)] *)
Definition fork_new (regs : list Z) (p : option Z) (body : list action) (k : Kernel) : outcome Kernel :=
  let t := fresh (dom (threads k)) in
  '(k, th) ← match p with
             | None => Ok (k, newThread regs)
             | Some p => newThreadPriority regs p k
             end;
  Fork t body (set_thread t th k).
