(* ===== verification/Switch.v ===== *)
(** * The context switch (src/code/threads/switch.s, switch.h, and
    [Thread::StackAllocate] of thread.cc, for the x86)

    The instructions that switch.s uses, on a processor with the eight general
    registers and a memory of 32-bit words; [SWITCH] and [ThreadRoot] are the
    lists of instructions of the file.  An access to a word that is not mapped,
    or that is not aligned, has no result: the theorems show that none happens.
    The functions that [ThreadRoot] calls are C++ code; what it relies on is the
    calling convention, the class [Cdecl].  Threads.v takes a suspended thread to
    be the list of actions it has still to do: [first_switch_runs_body] shows
    that a new thread does the actions that Threads.v gives it. *)

From S2P Require Import Prelude Threads.
Open Scope Z_scope.

(** ** The processor *)
Inductive reg := EAX | EBX | ECX | EDX | EBP | ESI | EDI | ESP.

Record Regs := mkRegs { eax : Z; ebx : Z; ecx : Z; edx : Z; ebp : Z; esi : Z; edi : Z; esp : Z }.

(** The registers, the words of memory and the calls made so far: the function
    and the first argument it finds on the stack. *)
Record X86 := mkX86 { regs : Regs; mem : gmap Z Z; called : list (Z * option Z) }.

Definition get (r : reg) (s : Regs) : Z :=
  match r with
  | EAX => eax s | EBX => ebx s | ECX => ecx s | EDX => edx s
  | EBP => ebp s | ESI => esi s | EDI => edi s | ESP => esp s
  end.
Definition set (r : reg) (v : Z) (s : Regs) : Regs :=
  match r, s with
  | EAX, mkRegs a b c d bp si di sp => mkRegs v b c d bp si di sp
  | EBX, mkRegs a b c d bp si di sp => mkRegs a v c d bp si di sp
  | ECX, mkRegs a b c d bp si di sp => mkRegs a b v d bp si di sp
  | EDX, mkRegs a b c d bp si di sp => mkRegs a b c v bp si di sp
  | EBP, mkRegs a b c d bp si di sp => mkRegs a b c d v si di sp
  | ESI, mkRegs a b c d bp si di sp => mkRegs a b c d bp v di sp
  | EDI, mkRegs a b c d bp si di sp => mkRegs a b c d bp si v sp
  | ESP, mkRegs a b c d bp si di sp => mkRegs a b c d bp si di v
  end.

(** [%reg], [disp(%base)], and a symbol. *)
Inductive operand := R (r : reg) | Mem (disp : Z) (base : reg) | Sym (a : Z).

Inductive instr :=
  | movl (src dst : operand) | pushl (r : reg) | popl (r : reg) | call (r : reg) | ret.

Definition load (a : Z) (m : gmap Z Z) : outcome Z :=
  if a mod 4 =? 0 then match m !! a with Some v => Ok v | None => Err Undefined end else Err Undefined.
Definition store (a v : Z) (m : gmap Z Z) : outcome (gmap Z Z) :=
  if a mod 4 =? 0 then match m !! a with Some _ => Ok (<[a := v]> m) | None => Err Undefined end else Err Undefined.

Definition address (disp : Z) (base : reg) (s : X86) : Z := to_uint (get base (regs s) + disp).

Definition with_reg (r : reg) (v : Z) (s : X86) : X86 := mkX86 (set r v (regs s)) (mem s) (called s).
Definition with_mem (m : gmap Z Z) (s : X86) : X86 := mkX86 (regs s) m (called s).

(** One instruction that does not transfer control; [movl] has no form with two
    operands in memory. *)
Definition move (src dst : operand) (s : X86) : outcome X86 :=
  match src, dst with
  | R q, R r => Ok (with_reg r (get q (regs s)) s)
  | R q, Mem d b => m ← store (address d b s) (get q (regs s)) (mem s); Ok (with_mem m s)
  | R q, Sym a => m ← store a (get q (regs s)) (mem s); Ok (with_mem m s)
  | Mem d b, R r => v ← load (address d b s) (mem s); Ok (with_reg r v s)
  | Sym a, R r => v ← load a (mem s); Ok (with_reg r v s)
  | _, _ => Err Undefined
  end.
Definition push_word (v : Z) (s : X86) : outcome X86 :=
  let sp := address (-4) ESP s in
  m ← store sp v (mem s);
  Ok (with_reg ESP sp (with_mem m s)).
Definition pop_word (s : X86) : outcome (Z * X86) :=
  v ← load (address 0 ESP s) (mem s);
  Ok (v, with_reg ESP (address 4 ESP s) s).

(** What [ret] or a call that does not come back leaves. *)
Inductive finish := Returned (pc : Z) (s : X86) | NoReturn (s : X86).

(** A piece of code up to its [ret]: [function f s] is the effect of the function
    at address [f] entered in [s], and [after n] the address of the instruction
    that [n] instructions are left from. *)
Section Exec.
Context (function : Z -> X86 -> outcome (option X86)) (after : nat -> Z).

Fixpoint exec (code : list instr) (s : X86) : outcome finish :=
  match code with
  | [] => Err Undefined
  | movl src dst :: rest => s ← move src dst s; exec rest s
  | pushl r :: rest => s ← push_word (get r (regs s)) s; exec rest s
  | popl r :: rest => '(v, s) ← pop_word s; exec rest (with_reg r v s)
  | call r :: rest =>
      let f := get r (regs s) in
      let arg := mem s !! esp (regs s) in
      s ← push_word (after (length rest)) s;
      o ← function f (mkX86 (regs s) (mem s) (called s ++ [(f, arg)]));
      match o with
      | Some s => exec rest s
      | None => Ok (NoReturn (mkX86 (regs s) (mem s) (called s ++ [(f, arg)])))
      end
  | ret :: _ => '(v, s) ← pop_word s; Ok (Returned v s)
  end.
End Exec.

(** ** switch.h *)
Definition _ESP := 0.
Definition _EAX := 4.
Definition _EBX := 8.
Definition _ECX := 12.
Definition _EDX := 16.
Definition _EBP := 20.
Definition _ESI := 24.
Definition _EDI := 28.
Definition _PC := 32.

Definition PCState := Z.quot _PC 4 - 1.
Definition FPState := Z.quot _EBP 4 - 1.
Definition InitialPCState := Z.quot _ESI 4 - 1.
Definition InitialArgState := Z.quot _EDX 4 - 1.
Definition WhenDonePCState := Z.quot _EDI 4 - 1.
Definition StartupPCState := Z.quot _ECX 4 - 1.

Definition InitialPC := ESI.
Definition InitialArg := EDX.
Definition WhenDonePC := EDI.
Definition StartupPC := ECX.

(** ** switch.s *)
Definition ThreadRoot_code : list instr :=
  [pushl EBP; movl (R ESP) (R EBP); pushl InitialArg; call StartupPC; call InitialPC; call WhenDonePC;
   movl (R EBP) (R ESP); popl EBP; ret].

Section Code.
(** The address of the common block [_eax_save]. *)
Context (_eax_save : Z).

Definition save_code : list instr :=
  [movl (R EAX) (Sym _eax_save); movl (Mem 4 ESP) (R EAX);
   movl (R EBX) (Mem _EBX EAX); movl (R ECX) (Mem _ECX EAX); movl (R EDX) (Mem _EDX EAX);
   movl (R ESI) (Mem _ESI EAX); movl (R EDI) (Mem _EDI EAX); movl (R EBP) (Mem _EBP EAX);
   movl (R ESP) (Mem _ESP EAX);
   movl (Sym _eax_save) (R EBX); movl (R EBX) (Mem _EAX EAX);
   movl (Mem 0 ESP) (R EBX); movl (R EBX) (Mem _PC EAX)].
Definition restore_code : list instr :=
  [movl (Mem 8 ESP) (R EAX);
   movl (Mem _EAX EAX) (R EBX); movl (R EBX) (Sym _eax_save);
   movl (Mem _EBX EAX) (R EBX); movl (Mem _ECX EAX) (R ECX); movl (Mem _EDX EAX) (R EDX);
   movl (Mem _ESI EAX) (R ESI); movl (Mem _EDI EAX) (R EDI); movl (Mem _EBP EAX) (R EBP);
   movl (Mem _ESP EAX) (R ESP);
   movl (Mem _PC EAX) (R EAX); movl (R EAX) (Mem 4 ESP); movl (Sym _eax_save) (R EAX); ret].
Definition SWITCH_code : list instr := save_code ++ restore_code.
End Code.

(** [SWITCH] calls nothing. *)
Definition SWITCH (_eax_save : Z) (s : X86) : outcome finish :=
  exec (fun _ _ => Err Undefined) (fun _ => 0) (SWITCH_code _eax_save) s.

(** ** thread.cc *)
Definition StackSize : Z := 8 * 1024.
Definition MachineStateSize : Z := 75.

(** The fields [stackTop] and [machineState\[i\]] of a [Thread] object. *)
Definition stackTop_at (t : Z) : Z := t.
Definition machineState_at (t i : Z) : Z := t + 4 + 4 * i.

(** The fields that [Thread::Thread] sets and [SWITCH] uses. *)
Definition newThread_words (t : Z) (m : gmap Z Z) : outcome (gmap Z Z) :=
  m ← store (stackTop_at t) 0 m;
  for_range 0 MachineStateSize (fun i m => store (machineState_at t i) 0 m) m.

(** [Thread::StackAllocate] on the words of memory, for the x86: [stack] is what
    [AllocBoundedArray] returned, the other arguments are the addresses of the
    functions. *)
Definition StackAllocate (ThreadRoot ThreadBegin ThreadFinish : Z) (t stack func arg : Z) (m : gmap Z Z)
    : outcome (gmap Z Z) :=
  let stackTop := stack + 4 * (StackSize - 4) in
  let stackTop := stackTop - 4 in
  m ← store stackTop ThreadRoot m;
  m ← store (stackTop_at t) stackTop m;
  m ← store stack STACK_FENCEPOST m;
  m ← store (machineState_at t PCState) ThreadRoot m;
  m ← store (machineState_at t StartupPCState) ThreadBegin m;
  m ← store (machineState_at t InitialPCState) func m;
  m ← store (machineState_at t InitialArgState) arg m;
  store (machineState_at t WhenDonePCState) ThreadFinish m.

(** ** Memory *)

(** [block m a vs]: the words from [a] on are [vs]; [apart a n b k]: the [n] bytes
    from [a] and the [k] bytes from [b] do not meet; [fits a n]: an aligned
    object of [n] bytes that does not wrap around. *)
Definition block (m : gmap Z Z) (a : Z) (vs : list Z) : Prop :=
  forall i v, vs !! i = Some v -> m !! (a + 4 * Z.of_nat i) = Some v.
Definition apart (a n b k : Z) : Prop := a + n <= b \/ b + k <= a.
Definition fits (a n : Z) : Prop := a mod 4 = 0 /\ 0 <= a /\ a + n <= 2 ^ 32.
Definition mapped (m : gmap Z Z) (a n : Z) : Prop := forall i, 0 <= i < n -> is_Some (m !! (a + 4 * i)).

(** The words that [SWITCH] stores in a thread object: the field [stackTop] and
    the first eight of [machineState]. *)
Definition context (s : Regs) (pc : Z) : list Z :=
  [esp s; eax s; ebx s; ecx s; edx s; ebp s; esi s; edi s; pc].

Lemma fits_le a n k : fits a n -> k <= n -> fits a k.
Proof. intros (? & ? & ?) ?. repeat split; lia || done. Qed.

Lemma address_fits d b s n :
  fits (get b (regs s)) n -> 0 <= d -> d + 4 <= n -> d mod 4 = 0 ->
  address d b s = get b (regs s) + d /\ (get b (regs s) + d) mod 4 = 0.
Proof.
  intros (A & L & H) ? ? D. unfold address, to_uint. split.
  - apply Z.mod_small. lia.
  - rewrite Z.add_mod, A, D by lia. reflexivity.
Qed.

Lemma load_ok a m v : a mod 4 = 0 -> m !! a = Some v -> load a m = Ok v.
Proof. unfold load. by intros -> ->. Qed.
Lemma store_ok a v m : a mod 4 = 0 -> is_Some (m !! a) -> store a v m = Ok (<[a := v]> m).
Proof. unfold store. by intros -> [? ->]. Qed.

Section Moves.
Context (function : Z -> X86 -> outcome (option X86)) (after : nat -> Z).

(** One lemma per form of operands. *)
Lemma exec_reg q r rest s : exec function after (movl (R q) (R r) :: rest) s = exec function after rest (with_reg r (get q (regs s)) s).
Proof. done. Qed.
Lemma exec_save r d b rest s n :
  fits (get b (regs s)) n -> 0 <= d -> d + 4 <= n -> d mod 4 = 0 -> is_Some (mem s !! (get b (regs s) + d)) ->
  exec function after (movl (R r) (Mem d b) :: rest) s
  = exec function after rest (with_mem (<[get b (regs s) + d := get r (regs s)]> (mem s)) s).
Proof.
  intros F ? ? D E. destruct (address_fits d b s n) as [Ha Hm]; [done..|].
  cbn [exec move]. rewrite Ha, store_ok; done.
Qed.
Lemma exec_load r d b rest s n v :
  fits (get b (regs s)) n -> 0 <= d -> d + 4 <= n -> d mod 4 = 0 -> mem s !! (get b (regs s) + d) = Some v ->
  exec function after (movl (Mem d b) (R r) :: rest) s = exec function after rest (with_reg r v s).
Proof.
  intros F ? ? D E. destruct (address_fits d b s n) as [Ha Hm]; [done..|].
  cbn [exec move]. rewrite Ha, (load_ok _ _ v); done.
Qed.
Lemma exec_save_sym r a rest s :
  a mod 4 = 0 -> is_Some (mem s !! a) -> exec function after (movl (R r) (Sym a) :: rest) s = exec function after rest (with_mem (<[a := get r (regs s)]> (mem s)) s).
Proof. intros A E. cbn [exec move]. rewrite store_ok; done. Qed.
Lemma exec_load_sym r a rest s v :
  a mod 4 = 0 -> mem s !! a = Some v -> exec function after (movl (Sym a) (R r) :: rest) s = exec function after rest (with_reg r v s).
Proof. intros A E. cbn [exec move]. rewrite (load_ok _ _ v); done. Qed.
Lemma exec_ret rest s v :
  fits (esp (regs s)) 4 -> mem s !! esp (regs s) = Some v ->
  exec function after (ret :: rest) s = Ok (Returned v (with_reg ESP (to_uint (esp (regs s) + 4)) s)).
Proof.
  intros F E. destruct (address_fits 0 ESP s 4) as [Ha Hm]; [done..|]. cbn [get] in Ha, Hm.
  cbn [exec]. unfold pop_word. rewrite Ha, (load_ok _ _ v); [done..|]. by rewrite Z.add_0_r.
Qed.
Lemma exec_push r rest s n :
  fits (esp (regs s) - 4) n -> 4 <= n -> is_Some (mem s !! (esp (regs s) - 4)) ->
  exec function after (pushl r :: rest) s
  = exec function after rest (with_reg ESP (esp (regs s) - 4) (with_mem (<[esp (regs s) - 4 := get r (regs s)]> (mem s)) s)).
Proof.
  intros (A & L & H) ? E. cbn [exec]. unfold push_word, address, to_uint. cbn [get].
  rewrite Z.mod_small by lia. rewrite store_ok; [done|exact A|exact E].
Qed.
End Moves.

(** Two words of separate objects, and two words of one object, are different. *)
Lemma block_lookup m a vs i v : block m a vs -> vs !! i = Some v -> m !! (a + 4 * Z.of_nat i) = Some v.
Proof. intros B H. exact (B i v H). Qed.

Lemma block_outside m m' a vs :
  block m a vs -> (forall x, a <= x < a + 4 * Z.of_nat (length vs) -> m' !! x = m !! x) -> block m' a vs.
Proof.
  intros B H i v Hi. rewrite H; [by apply B|]. apply lookup_lt_Some in Hi. lia.
Qed.

Lemma mapped_insert m a n x v : mapped m a n -> mapped (<[x := v]> m) a n.
Proof. intros M i Hi. apply lookup_insert_is_Some'. right. by apply M. Qed.

Ltac mem_look :=
  repeat first [ rewrite lookup_insert_eq | rewrite lookup_insert_ne by (unfold apart in *; lia) ].
Ltac is_mapped :=
  repeat (apply lookup_insert_is_Some'; right);
  match goal with
  | H : mapped ?m ?a _ |- is_Some (?m !! (?a + ?d)) => exact (H (d / 4) ltac:(vm_compute; split; discriminate || reflexivity))
  | H : is_Some _ |- _ => exact H
  end.

Ltac reduce_x86 :=
  cbn [regs mem called with_reg with_mem set get eax ebx ecx edx ebp esi edi esp];
  unfold _PC, _EAX, _ESP, _EBP, _EDI, _ESI, _EDX, _ECX, _EBX.

(** Run the next instruction, a [movl] whose addresses are in mapped objects. *)
Ltac run F :=
  first
  [ erewrite exec_save; [|exact F|done|done|done|reduce_x86; is_mapped]
  | erewrite exec_load; [|exact F|done|done|done|reduce_x86; mem_look; eassumption] ];
  reduce_x86.

(** ** The two halves of [SWITCH] *)
Section Halves.
Context (function : Z -> X86 -> outcome (option X86)) (after : nat -> Z) (save : Z).

(** A call of [SWITCH(t1, t2)] that will return to [pc]. *)
Record switch_call (m : gmap Z Z) (s : Regs) (t1 t2 pc : Z) : Prop := {
  sc_frame : fits (esp s) 12;
  sc_args : block m (esp s) [pc; t1; t2];
  sc_thread : fits t1 36;
  sc_object : mapped m t1 9;
  sc_save : fits save 4;
  sc_saved : is_Some (m !! save);
  sc_apart : apart t1 36 (esp s) 12;
  sc_apart_frame : apart save 4 (esp s) 12;
  sc_apart_thread : apart save 4 t1 36;
}.

(** Memory after the registers of [s] are saved in [t1]. *)
Definition saved (m : gmap Z Z) (s : Regs) (t1 pc : Z) : gmap Z Z :=
  <[t1 + _PC := pc]> (<[t1 + _EAX := eax s]> (<[t1 + _ESP := esp s]> (<[t1 + _EBP := ebp s]> (<[t1 + _EDI := edi s]>
  (<[t1 + _ESI := esi s]> (<[t1 + _EDX := edx s]> (<[t1 + _ECX := ecx s]> (<[t1 + _EBX := ebx s]> (<[save := eax s]> m))))))))).

Lemma saved_other m s t1 pc x : ~ (t1 <= x < t1 + 36) -> x <> save -> saved m s t1 pc !! x = m !! x.
Proof. intros. unfold saved, _PC, _EAX, _ESP, _EBP, _EDI, _ESI, _EDX, _ECX, _EBX. rewrite !lookup_insert_ne by lia. done. Qed.

Lemma saved_context m s t1 pc : block (saved m s t1 pc) t1 (context s pc).
Proof.
  intros i v H. unfold context in H. unfold saved, _PC, _EAX, _ESP, _EBP, _EDI, _ESI, _EDX, _ECX, _EBX.
  do 9 (destruct i as [|i]; [injection H as <-; cbn [Z.of_nat Pos.of_succ_nat Pos.succ]; mem_look; done|]).
  discriminate.
Qed.

Lemma save_half m s l t1 t2 pc rest :
  switch_call m s t1 t2 pc ->
  exec function after (save_code save ++ rest) (mkX86 s m l)
  = exec function after rest (mkX86 (set EAX t1 (set EBX pc s)) (saved m s t1 pc) l).
Proof.
  intros [Ff Ba Ft Mo Fs [x Hs] A1 A2 A3]. destruct s as [a b c d bp si di sp]. cbn [esp] in *.
  assert (m !! (sp + 0) = Some pc) as H0 by exact (Ba 0%nat pc eq_refl).
  assert (m !! (sp + 4) = Some t1) as H4 by exact (Ba 1%nat t1 eq_refl).
  assert (save mod 4 = 0) as Sm by apply Fs.
  unfold save_code. cbn [app].
  rewrite exec_save_sym by (done || by exists x). reduce_x86.
  run Ff. do 7 run Ft.
  erewrite exec_load_sym; [|exact Sm|reduce_x86; mem_look; done].
  reduce_x86.
  run Ft.
  run Ff. run Ft. done.
Qed.

(** A thread [t] that is not running: its object holds the registers [s] with
    which it will go on at [pc], and its stack has [pc] on top. *)
Record suspended (m : gmap Z Z) (t : Z) (s : Regs) (pc : Z) : Prop := {
  su_object : fits t 36;
  su_context : block m t (context s pc);
  su_stack : fits (esp s) 8;
  su_return : m !! esp s = Some pc;
  su_slot : is_Some (m !! (esp s + 4));
  su_apart : apart save 4 t 36;
  su_apart_stack : apart save 4 (esp s) 8;
  su_apart_object : apart (esp s) 8 t 36;
}.

(** Memory after the registers of [s] are loaded: the return address is stored
    beside the one that [ret] takes. *)
Definition restored (m : gmap Z Z) (s : Regs) (pc : Z) : gmap Z Z :=
  <[esp s + 4 := pc]> (<[save := eax s]> m).

Lemma restored_other m s pc x : x <> save -> x <> esp s + 4 -> restored m s pc !! x = m !! x.
Proof. intros. unfold restored. by rewrite !lookup_insert_ne. Qed.

Lemma restore_half m s0 l t2 s pc :
  fits (esp s0) 12 -> m !! (esp s0 + 8) = Some t2 -> fits save 4 -> is_Some (m !! save) -> suspended m t2 s pc ->
  exec function after (restore_code save) (mkX86 s0 m l) = Ok (Returned pc (mkX86 (set ESP (esp s + 4) s) (restored m s pc) l)).
Proof.
  intros Ff Ha Fs Hs [Fo Bc Fk Hr Hk A1 A2 A3].
  destruct s0 as [a b c d bp si di sp], s as [a' b' c' d' bp' si' di' sp']. cbn [esp] in *.
  assert (save mod 4 = 0) as Sm by apply Fs.
  pose proof (Bc 0%nat _ eq_refl) as C0. pose proof (Bc 1%nat _ eq_refl) as C1. pose proof (Bc 2%nat _ eq_refl) as C2.
  pose proof (Bc 3%nat _ eq_refl) as C3. pose proof (Bc 4%nat _ eq_refl) as C4. pose proof (Bc 5%nat _ eq_refl) as C5.
  pose proof (Bc 6%nat _ eq_refl) as C6. pose proof (Bc 7%nat _ eq_refl) as C7. pose proof (Bc 8%nat _ eq_refl) as C8.
  cbn [Z.of_nat Pos.of_succ_nat Pos.succ Z.mul Pos.mul eax ebx ecx edx ebp esi edi esp] in C0, C1, C2, C3, C4, C5, C6, C7, C8.
  unfold restore_code.
  run Ff. run Fo. rewrite exec_save_sym by done. reduce_x86.
  do 8 run Fo. run Fk.
  erewrite exec_load_sym; [|exact Sm|reduce_x86; mem_look; done]. reduce_x86.
  erewrite exec_ret; [|exact (fits_le _ 8 4 Fk ltac:(lia))|reduce_x86; mem_look; eassumption].
  unfold restored. reduce_x86. rewrite to_uint_id; [done|]. destruct Fk as (?&?&?). split; lia.
Qed.
End Halves.

Lemma SWITCH_spec save m s l t1 t2 pc s2 pc2 :
  switch_call save m s t1 t2 pc -> suspended save m t2 s2 pc2 -> apart t1 36 t2 36 -> apart t1 36 (esp s2) 8 ->
  SWITCH save (mkX86 s m l)
  = Ok (Returned pc2 (mkX86 (set ESP (esp s2 + 4) s2) (restored save (saved save m s t1 pc) s2 pc2) l)).
Proof.
  intros C [Fo Bc Fk Hr Hk A1 A2 A3] A4 A5. unfold SWITCH, SWITCH_code.
  rewrite (save_half _ _ _ _ _ _ _ _ _ _ C). destruct C as [Ff Ba Ft Mo Fs Hs B1 B2 B3]. unfold apart in *.
  assert (esp (set EAX t1 (set EBX pc s)) = esp s) as E by by destruct s.
  apply restore_half with (t2 := t2); [by rewrite E| |done| |split; try done].
  - rewrite E, saved_other by lia. exact (Ba 2%nat _ eq_refl).
  - unfold saved. repeat (apply lookup_insert_is_Some'; right). done.
  - eapply block_outside; [exact Bc|]. cbn [length context]. intros. apply saved_other; lia.
  - rewrite saved_other by lia. done.
  - rewrite saved_other by lia. done.
Qed.

(** C3: [SWITCH(t1, t2)] saves the running thread and continues the suspended
    [t2]; it stores only in the object of [t1], in the common word and in one
    argument slot on the stack of [t2].  Whatever happens then, as long as the
    object of [t1] and the return address on its stack are left alone, a later
    [SWITCH(t3, t1)] comes back to the caller of the first one with every
    register, [eax] included, as it was and the stack pointer above the return
    address; again nothing else in memory changes. *)
Theorem switch_roundtrip save m s l t1 t2 pc s2 pc2 :
  switch_call save m s t1 t2 pc -> suspended save m t2 s2 pc2 ->
  apart t1 36 t2 36 -> apart t1 36 (esp s2) 8 -> apart (esp s) 12 (esp s2) 8 ->
  exists m1,
    SWITCH save (mkX86 s m l) = Ok (Returned pc2 (mkX86 (set ESP (esp s2 + 4) s2) m1 l)) /\
    (forall x, ~ (t1 <= x < t1 + 36) -> x <> save -> x <> esp s2 + 4 -> m1 !! x = m !! x) /\
    forall m2 s3 l2 t3 pc3,
      switch_call save m2 s3 t3 t1 pc3 ->
      (forall x, t1 <= x < t1 + 36 \/ x = esp s -> m2 !! x = m1 !! x) -> is_Some (m2 !! (esp s + 4)) ->
      apart t3 36 t1 36 -> apart t3 36 (esp s) 8 ->
      exists m3,
        SWITCH save (mkX86 s3 m2 l2) = Ok (Returned pc (mkX86 (set ESP (esp s + 4) s) m3 l2)) /\
        (forall x, ~ (t3 <= x < t3 + 36) -> x <> save -> x <> esp s + 4 -> m3 !! x = m2 !! x).
Proof.
  intros C S A1 A2 A3. eexists. split; [exact (SWITCH_spec _ _ _ l _ _ _ _ _ C S A1 A2)|].
  split; [intros; rewrite restored_other, saved_other by done; done|].
  intros m2 s3 l2 t3 pc3 C3 Hm Hk A4 A5. destruct C as [Ff Ba Ft Mo Fs Hs B1 B2 B3], S as [Fo Bc Fk Hr Hk2 D1 D2 D3].
  eexists. split; [apply (SWITCH_spec save m2 s3 l2 t3 t1 pc3 s pc C3); [|done..]|].
  - unfold apart in *. split; unfold apart; try done; try lia.
    + eapply block_outside; [apply saved_context|]. intros x Hx. cbn [length context] in Hx.
      rewrite Hm, restored_other by lia. reflexivity.
    + apply (fits_le _ 12); [done|lia].
    + rewrite Hm, restored_other, saved_other by lia.
      specialize (Ba 0%nat _ eq_refl). cbn in Ba. by rewrite Z.add_0_r in Ba.
  - intros. rewrite restored_other, saved_other by done. done.
Qed.

(** ** A new thread *)

(** The calling convention: a function that returns leaves the registers that
    belong to its caller and the stack above its arguments, and takes its return
    address; the stack of the thread stays mapped.  [args f] is the number of
    words of the arguments of [f]. *)
Class Cdecl (function : Z -> X86 -> outcome (option X86)) (args : Z -> Z) (stack top : Z) := {
  cdecl_args f : 0 <= args f;
  cdecl_saved f s s' : function f s = Ok (Some s') ->
    ebx (regs s') = ebx (regs s) /\ ebp (regs s') = ebp (regs s) /\ esi (regs s') = esi (regs s) /\
    edi (regs s') = edi (regs s) /\ esp (regs s') = esp (regs s) + 4 /\ called s' = called s;
  cdecl_frame f s s' x : function f s = Ok (Some s') -> esp (regs s) + 4 + 4 * args f <= x < top ->
    mem s' !! x = mem s !! x;
  cdecl_mapped f s s' x : function f s = Ok (Some s') -> stack <= x < top ->
    is_Some (mem s !! x) -> is_Some (mem s' !! x);
}.

Section Root.
Context (function : Z -> X86 -> outcome (option X86)) (after : nat -> Z) (args : Z -> Z) (stack top : Z)
  {HC : Cdecl function args stack top}.

(** What the functions that [ThreadRoot] calls do: the first two return, the
    last one does not. *)
Definition returns (f : Z) : Prop := forall s, exists s', function f s = Ok (Some s').
Definition never_returns (f : Z) : Prop := forall s, function f s = Ok None.

Lemma push_word_ok v s :
  fits (esp (regs s) - 4) 4 -> is_Some (mem s !! (esp (regs s) - 4)) ->
  push_word v s = Ok (with_reg ESP (esp (regs s) - 4) (with_mem (<[esp (regs s) - 4 := v]> (mem s)) s)).
Proof.
  intros (A & L & H) E. unfold push_word, address. cbn [get].
  rewrite to_uint_id by (split; lia). rewrite store_ok; done.
Qed.

(** A call that returns, with the stack pointer and the registers of the caller
    as they were. *)
Lemma exec_call r rest s :
  returns (get r (regs s)) -> fits (esp (regs s) - 4) 4 -> is_Some (mem s !! (esp (regs s) - 4)) ->
  exists s', exec function after (call r :: rest) s = exec function after rest s' /\
    called s' = called s ++ [(get r (regs s), mem s !! esp (regs s))] /\
    esp (regs s') = esp (regs s) /\ esi (regs s') = esi (regs s) /\ edi (regs s') = edi (regs s) /\
    (forall x, esp (regs s) + 4 * args (get r (regs s)) <= x < top -> mem s' !! x = mem s !! x) /\
    (forall x, stack <= x < top -> is_Some (mem s !! x) -> is_Some (mem s' !! x)).
Proof.
  intros Hr F E. cbn [exec]. rewrite push_word_ok by done. cbn [mbind outcome_bind].
  match goal with |- context [function ?f ?x] => destruct (Hr x) as [s' Hs']; rewrite Hs' end.
  cbn [mbind outcome_bind]. exists s'. split; [done|].
  destruct (cdecl_saved _ _ _ Hs') as (_ & _ & E1 & E2 & E3 & E4).
  destruct s as [[a b c d bp si di sp] m l]. reduce_x86. cbn [regs mem called with_reg with_mem set esi edi esp] in E1, E2, E3, E4.
  rewrite E4. split_and!; try done; try lia.
  - intros x Hx. rewrite (cdecl_frame _ _ _ x Hs'); cbn [regs mem with_reg with_mem set esp]; [|lia].
    pose proof (cdecl_args (get r (regs (mkX86 (mkRegs a b c d bp si di sp) m l)))) as Ha.
    cbn [regs] in Ha. rewrite lookup_insert_ne by lia. done.
  - intros x Hx Hm. apply (cdecl_mapped _ _ _ x Hs' Hx). cbn [mem with_reg with_mem].
    apply lookup_insert_is_Some'. by right.
Qed.

Lemma exec_call_no_return r rest s :
  never_returns (get r (regs s)) -> fits (esp (regs s) - 4) 4 -> is_Some (mem s !! (esp (regs s) - 4)) ->
  exists s', exec function after (call r :: rest) s = Ok (NoReturn s') /\
    called s' = called s ++ [(get r (regs s), mem s !! esp (regs s))].
Proof.
  intros Hr F E. cbn [exec]. rewrite push_word_ok by done. cbn [mbind outcome_bind].
  rewrite Hr. cbn [mbind outcome_bind]. eexists. split; [done|]. done.
Qed.

Lemma ThreadRoot_runs s :
  fits (esp (regs s) - 12) 12 -> stack <= esp (regs s) - 12 -> esp (regs s) <= top ->
  (forall i, 1 <= i <= 3 -> is_Some (mem s !! (esp (regs s) - 4 * i))) ->
  returns (ecx (regs s)) -> args (ecx (regs s)) = 0 -> returns (esi (regs s)) -> never_returns (edi (regs s)) ->
  exists s' w, exec function after ThreadRoot_code s = Ok (NoReturn s') /\
    called s' = called s ++ [(ecx (regs s), Some (edx (regs s))); (esi (regs s), Some (edx (regs s))); (edi (regs s), w)].
Proof.
  intros F Hlo Hhi Hm Hb Hargs Hf Hd. destruct s as [[a b c d bp si di sp] m l]. cbn [regs mem esp ecx esi edi edx called] in *.
  destruct F as (A & L & H).
  assert (forall i, 1 <= i <= 3 -> fits (sp - 4 * i) 4) as Fi.
  { intros i Hi. split; [|split; lia]. replace (sp - 4 * i) with ((sp - 12) + (3 - i) * 4) by lia.
    rewrite Z.mod_add by lia. done. }
  assert (fits (sp - 4) 4) as F1 by exact (Fi 1 ltac:(lia)). assert (fits (sp - 4 - 4) 4) as F2.
  { replace (sp - 4 - 4) with (sp - 4 * 2) by lia. apply Fi. lia. }
  assert (fits (sp - 4 - 4 - 4) 4) as F3. { replace (sp - 4 - 4 - 4) with (sp - 4 * 3) by lia. apply Fi. lia. }
  assert (is_Some (m !! (sp - 4))) as M1 by exact (Hm 1 ltac:(lia)).
  assert (is_Some (m !! (sp - 4 - 4))) as M2. { replace (sp - 4 - 4) with (sp - 4 * 2) by lia. apply Hm. lia. }
  assert (is_Some (m !! (sp - 4 - 4 - 4))) as M3. { replace (sp - 4 - 4 - 4) with (sp - 4 * 3) by lia. apply Hm. lia. }
  unfold ThreadRoot_code, InitialArg, StartupPC, InitialPC, WhenDonePC.
  erewrite exec_push; [|exact F1|lia|exact M1]. rewrite exec_reg. reduce_x86.
  erewrite exec_push; [|exact F2|lia|reduce_x86; apply lookup_insert_is_Some'; by right]. reduce_x86.
  edestruct (exec_call ECX) as (s1 & -> & Hc1 & Es1 & Ei1 & Ed1 & Hf1 & Hm1); [exact Hb|exact F3| |].
  { reduce_x86. do 2 (apply lookup_insert_is_Some'; right). exact M3. }
  cbn [regs mem called with_reg with_mem set get esp esi edi ecx edx ebp] in Hc1, Es1, Ei1, Ed1, Hf1, Hm1.
  rewrite Hargs in Hf1. rewrite lookup_insert_eq in Hc1.
  assert (mem s1 !! (sp - 4 - 4) = Some d) as Ha1. { rewrite Hf1 by lia. by rewrite lookup_insert_eq. }
  edestruct (exec_call ESI) as (s2 & -> & Hc2 & Es2 & Ei2 & Ed2 & Hf2 & Hm2); [cbn [get]; by rewrite Ei1|by rewrite Es1| |].
  { rewrite Es1. apply Hm1; [lia|]. do 2 (apply lookup_insert_is_Some'; right). exact M3. }
  cbn [get] in Hc2. rewrite Es1, Ha1, Ei1 in Hc2.
  edestruct (exec_call_no_return EDI) as (s3 & -> & Hc3); [cbn [get]; by rewrite Ed2, Ed1|by rewrite Es2, Es1| |].
  { rewrite Es2, Es1. apply Hm2; [lia|]. apply Hm1; [lia|]. do 2 (apply lookup_insert_is_Some'; right). exact M3. }
  cbn [get] in Hc3. exists s3, (mem s2 !! esp (regs s2)). split; [done|].
  rewrite Hc3, Hc2, Hc1, Ed2, Ed1, <- !app_assoc. done.
Qed.
End Root.

Lemma newThread_words_ok t m :
  fits t 304 -> mapped m t 76 ->
  exists m', newThread_words t m = Ok m' /\ block m' t (replicate 9 0) /\
    (forall x, is_Some (m !! x) -> is_Some (m' !! x)) /\ (forall x, ~ (t <= x < t + 304) -> m' !! x = m !! x).
Proof.
  intros (A & L & H) M. unfold newThread_words, stackTop_at. rewrite store_ok; [|done|].
  2: { replace t with (t + 4 * 0) by lia. apply M. lia. }
  cbn [mbind outcome_bind].
  edestruct (for_range_ind (fun i (m' : gmap Z Z) => (forall j, 0 <= j < i + 1 -> m' !! (t + 4 * j) = Some 0) /\
     (forall x, is_Some (m !! x) -> is_Some (m' !! x)) /\ (forall x, ~ (t <= x < t + 304) -> m' !! x = m !! x)))
    as (m' & -> & Hz & Hs & Ho); [| | |exists m'; split; [done|split; [|done]]].
  - done.
  - split; [|split].
    + intros j Hj. replace (t + 4 * j) with t by lia. by rewrite lookup_insert_eq.
    + intros x Hx. apply lookup_insert_is_Some'. by right.
    + intros x Hx. rewrite lookup_insert_ne by lia. done.
  - intros i m' Hi (Hz & Hs & Ho). unfold machineState_at, MachineStateSize in *. rewrite store_ok.
    + eexists. split; [done|]. split; [|split].
      * intros j Hj. destruct (decide (j = i + 1)) as [->|]; [replace (t + 4 * (i + 1)) with (t + 4 + 4 * i) by lia; by rewrite lookup_insert_eq|].
        rewrite lookup_insert_ne by lia. apply Hz. lia.
      * intros x Hx. apply lookup_insert_is_Some'. right. by apply Hs.
      * intros x Hx. rewrite lookup_insert_ne by lia. by apply Ho.
    + replace (t + 4 + 4 * i) with (t + (1 + i) * 4) by lia. by rewrite Z.mod_add by lia.
    + apply Hs. replace (t + 4 + 4 * i) with (t + 4 * (i + 1)) by lia. apply M. lia.
  - intros i v Hi. apply lookup_replicate in Hi as [-> Hi]. apply Hz. unfold MachineStateSize. lia.
Qed.

(** The registers with which a new thread starts. *)
Definition first_regs (ThreadBegin ThreadFinish stack func arg : Z) : Regs :=
  mkRegs 0 0 ThreadBegin arg 0 func ThreadFinish (stack + 4 * (StackSize - 4) - 4).

Lemma StackAllocate_ok ThreadRoot ThreadBegin ThreadFinish t stack func arg m :
  fits t 36 -> block m t (replicate 9 0) -> fits stack (4 * StackSize) -> mapped m stack StackSize ->
  apart t 36 stack (4 * StackSize) ->
  exists m', StackAllocate ThreadRoot ThreadBegin ThreadFinish t stack func arg m = Ok m' /\
    block m' t (context (first_regs ThreadBegin ThreadFinish stack func arg) ThreadRoot) /\
    m' !! stack = Some STACK_FENCEPOST /\ m' !! (stack + 4 * (StackSize - 4) - 4) = Some ThreadRoot /\
    mapped m' stack StackSize /\ (forall x, ~ (t <= x < t + 36) -> ~ (stack <= x < stack + 4 * StackSize) -> m' !! x = m !! x).
Proof.
  intros (A & L & H) B (A2 & L2 & H2) M Hap. unfold StackAllocate, stackTop_at.
  unfold machineState_at, first_regs, context, PCState, StartupPCState, InitialPCState, InitialArgState, WhenDonePCState.
  change (Z.quot _PC 4 - 1) with 7. change (Z.quot _ECX 4 - 1) with 2. change (Z.quot _ESI 4 - 1) with 5.
  change (Z.quot _EDX 4 - 1) with 3. change (Z.quot _EDI 4 - 1) with 6. unfold StackSize in *.
  assert (mapped m t 9) as Mt.
  { intros i Hi. exists 0. specialize (B (Z.to_nat i) 0). rewrite Z2Nat.id in B by lia. apply B.
    apply lookup_replicate_2. lia. }
  assert (forall k, (t + 4 + 4 * k) mod 4 = 0) as At. { intros k. replace (t + 4 + 4 * k) with (t + (1 + k) * 4) by lia. by rewrite Z.mod_add by lia. }
  assert (forall k, 0 <= k < 8 -> is_Some (m !! (t + 4 + 4 * k))) as Mk.
  { intros k Hk. replace (t + 4 + 4 * k) with (t + 4 * (1 + k)) by lia. apply Mt. lia. }
  rewrite store_ok; [cbn [mbind outcome_bind]| |]; cycle 1.
  { replace (stack + 4 * (8 * 1024 - 4) - 4) with (stack + 8187 * 4) by lia. by rewrite Z.mod_add by lia. }
  { replace (stack + 4 * (8 * 1024 - 4) - 4) with (stack + 4 * 8187) by lia. apply M. lia. }
  rewrite store_ok; [cbn [mbind outcome_bind]|done|]; cycle 1.
  { apply lookup_insert_is_Some'. right. replace t with (t + 4 * 0) by lia. apply Mt. lia. }
  rewrite store_ok; [cbn [mbind outcome_bind]|done|]; cycle 1.
  { do 2 (apply lookup_insert_is_Some'; right). replace stack with (stack + 4 * 0) by lia. apply M. lia. }
  do 5 (rewrite store_ok; [cbn [mbind outcome_bind]|apply At|repeat (apply lookup_insert_is_Some'; right); apply Mk; lia]).
  eexists. split; [done|]. unfold apart in Hap. split_and!.
  - intros i v Hi. specialize (B i).
    do 9 (destruct i as [|i]; [injection Hi as <-; cbn [Z.of_nat Pos.of_succ_nat Pos.succ eax ebx ebp ecx edx esi edi esp];
      repeat first [rewrite lookup_insert_eq; done | rewrite lookup_insert_ne by lia
        | match goal with |- <[?a := _]> _ !! ?b = _ => replace b with a by lia end]; try done; exact (B 0 eq_refl)|]).
    discriminate.
  - rewrite !lookup_insert_ne by lia. by rewrite lookup_insert_eq.
  - rewrite !lookup_insert_ne by lia. by rewrite lookup_insert_eq.
  - do 8 apply mapped_insert. done.
  - intros x Hx Hy. rewrite !lookup_insert_ne by lia. done.
Qed.

(** A thread that has been forked and not run yet is suspended. *)
Lemma forked_suspended save ThreadRoot ThreadBegin ThreadFinish t stack func arg m :
  fits t 36 -> fits stack (4 * StackSize) -> apart t 36 stack (4 * StackSize) ->
  apart save 4 t 36 -> apart save 4 stack (4 * StackSize) ->
  block m t (context (first_regs ThreadBegin ThreadFinish stack func arg) ThreadRoot) ->
  m !! (stack + 4 * (StackSize - 4) - 4) = Some ThreadRoot -> mapped m stack StackSize ->
  suspended save m t (first_regs ThreadBegin ThreadFinish stack func arg) ThreadRoot.
Proof.
  intros F (A & L & H) A1 A2 A3 B Hr M.
  split; try done; unfold first_regs, apart, StackSize in *; cbn [esp]; try lia.
  - repeat split; try lia. replace (stack + 4 * (8 * 1024 - 4) - 4) with (stack + 8187 * 4) by lia.
    by rewrite Z.mod_add by lia.
  - replace (stack + 4 * (8 * 1024 - 4) - 4 + 4) with (stack + 4 * 8188) by lia. apply M. lia.
Qed.

Section NewThread.
Context (function : Z -> X86 -> outcome (option X86)) (after : nat -> Z) (args : Z -> Z) (stack : Z)
  {HC : Cdecl function args stack (stack + 4 * (StackSize - 4))}
  (ThreadRoot ThreadBegin ThreadFinish save : Z).
Hypothesis Hbegin : returns function ThreadBegin.
Hypothesis Hbegin_args : args ThreadBegin = 0.
Hypothesis Hfinish : never_returns function ThreadFinish.

(** C8: a thread object made by [Thread::Thread] and prepared by
    [StackAllocate(func, arg)] starts at the first [SWITCH] to it in
    [ThreadRoot], with the fence post at the end of its stack in place;
    [ThreadRoot] calls [ThreadBegin], then [func] with the argument [arg], then
    [ThreadFinish], and nothing else.  Preparing the thread changes no word
    outside its object and its stack.  The three calls are the actions that
    [StackAllocate] of Threads.v leaves to a new thread. *)
Theorem first_switch_runs_body t func arg m :
  fits t 304 -> mapped m t 76 -> fits stack (4 * StackSize) -> mapped m stack StackSize ->
  apart t 304 stack (4 * StackSize) -> returns function func ->
  exists m0 m1, newThread_words t m = Ok m0 /\
    StackAllocate ThreadRoot ThreadBegin ThreadFinish t stack func arg m0 = Ok m1 /\
    (forall x, ~ (t <= x < t + 304) -> ~ (stack <= x < stack + 4 * StackSize) -> m1 !! x = m !! x) /\
    forall m2 s l t1 pc,
      switch_call save m2 s t1 t pc ->
      (forall x, t <= x < t + 36 \/ stack <= x < stack + 4 * StackSize -> m2 !! x = m1 !! x) ->
      apart save 4 t 36 -> apart save 4 stack (4 * StackSize) -> apart t1 36 t 36 -> apart t1 36 stack (4 * StackSize) ->
      exists s1 s2 w,
        SWITCH save (mkX86 s m2 l) = Ok (Returned ThreadRoot s1) /\ mem s1 !! stack = Some STACK_FENCEPOST /\
        exec function after ThreadRoot_code s1 = Ok (NoReturn s2) /\
        called s2 = l ++ [(ThreadBegin, Some arg); (func, Some arg); (ThreadFinish, w)] /\
        forall meaning body th,
          meaning ThreadBegin = [Begin_] -> meaning func = body -> meaning ThreadFinish = [Finish_] ->
          concat (map (fun c => meaning c.1) (drop (length l) (called s2))) = machineState (Threads.StackAllocate body th).
Proof using HC Hbegin Hbegin_args Hfinish.
  intros Ft Mt Fs Ms Ap Hf. destruct (newThread_words_ok t m Ft Mt) as (m0 & E0 & B0 & Hs0 & Ho0).
  destruct (StackAllocate_ok ThreadRoot ThreadBegin ThreadFinish t stack func arg m0) as (m1 & E1 & B1 & Hfp & Hr & M1 & Ho1);
    [by apply (fits_le _ 304)|done|done| |unfold apart in *; lia|].
  { intros i Hi. by apply Hs0, Ms. }
  exists m0, m1. split_and!; [done..|intros; rewrite Ho1, Ho0 by lia; done|]. intros m2 s l t1 pc C Hm A1 A2 A3 A4.
  assert (suspended save m2 t (first_regs ThreadBegin ThreadFinish stack func arg) ThreadRoot) as S.
  { apply forked_suspended; try done; [by apply (fits_le _ 304)|unfold apart in *; lia| | |].
    - eapply block_outside; [exact B1|]. cbn [length context]. intros. apply Hm. lia.
    - rewrite Hm; [done|]. unfold StackSize. lia.
    - intros i Hi. rewrite Hm by lia. by apply M1. }
  set (s1 := mkX86 (set ESP (stack + 4 * (StackSize - 4) - 4 + 4) (first_regs ThreadBegin ThreadFinish stack func arg))
     (restored save (saved save m2 s t1 pc) (first_regs ThreadBegin ThreadFinish stack func arg) ThreadRoot) l).
  assert (forall x, stack <= x < stack + 4 * (StackSize - 4) -> mem s1 !! x = m1 !! x) as Hk.
  { intros x Hx. subst s1. cbn [mem]. unfold apart, StackSize in *.
    rewrite restored_other, saved_other by (unfold first_regs; cbn [esp]; unfold StackSize; lia). apply Hm. lia. }
  assert (forall i, 1 <= i <= 3 -> is_Some (mem s1 !! (stack + 4 * (StackSize - 4) - 4 + 4 - 4 * i))) as Hi3.
  { intros i Hi. rewrite Hk by (unfold StackSize; lia).
    replace (stack + 4 * (StackSize - 4) - 4 + 4 - 4 * i) with (stack + 4 * (StackSize - 4 - i)) by lia.
    apply M1. unfold StackSize. lia. }
  destruct (ThreadRoot_runs function after args stack (stack + 4 * (StackSize - 4)) s1) as (s2 & w & E2 & Hc);
    try (subst s1; unfold first_regs; cbn [regs set esp ecx esi edi]; unfold StackSize in *; lia || done).
  { subst s1. unfold first_regs. cbn [regs set esp]. destruct Fs as (A & L & H). unfold StackSize in *. repeat split; try lia.
    replace (stack + 4 * (8 * 1024 - 4) - 4 + 4 - 12) with (stack + 8185 * 4) by lia. by rewrite Z.mod_add by lia. }
  exists s1, s2, w. split_and!.
  - apply (SWITCH_spec save m2 s l t1 t pc _ ThreadRoot C S); [done|]. unfold first_regs, apart, StackSize in *. cbn [esp]. lia.
  - rewrite Hk; [done|]. unfold StackSize. lia.
  - done.
  - exact Hc.
  - intros meaning body th H1 H2 H3. 
    assert (called s2 = l ++ [(ThreadBegin, Some arg); (func, Some arg); (ThreadFinish, w)]) as -> by exact Hc.
    rewrite drop_app_length. cbn [map concat fst].
    rewrite H1, H2, H3, app_nil_r. done.
Qed.
End NewThread.

(** ** An example: two threads in a small memory *)
Module TwoThreads.
(** Memory with the words below [4 * n], all 0. *)
Fixpoint zeros (n : nat) : gmap Z Z :=
  match n with O => ∅ | S n' => <[4 * Z.of_nat n' := 0]> (zeros n') end.
Lemma zeros_lookup n i : 0 <= i < Z.of_nat n -> zeros n !! (4 * i) = Some 0.
Proof.
  induction n as [|n IH]; intros Hi; [lia|]. cbn [zeros]. destruct (decide (i = Z.of_nat n)) as [->|].
  - by rewrite lookup_insert_eq.
  - rewrite lookup_insert_ne by lia. apply IH. lia.
Qed.
Lemma zeros_mapped n a k : 0 <= a -> a + k <= Z.of_nat n -> mapped (zeros n) (4 * a) k.
Proof. intros. intros i Hi. replace (4 * a + 4 * i) with (4 * (a + i)) by lia. rewrite zeros_lookup by lia. by eexists. Qed.

(** Every function returns at once, but for the one at 300. *)
Definition function (f : Z) (s : X86) : outcome (option X86) :=
  if f =? 300 then Ok None else Ok (Some (with_reg ESP (esp (regs s) + 4) s)).

#[export] Instance function_cdecl stack top : Cdecl function (fun _ => 0) stack top.
Proof.
  split; [done| | |]; intros f s s'; unfold function; destruct (f =? 300); try discriminate.
  - intros [= <-]. destruct s as [[] ? ?]. done.
  - intros x [= <-]. done.
  - intros x [= <-]. done.
Qed.

Definition size : nat := Z.to_nat 11000.
Definition m (t1 t2 : Z) (M : gmap Z Z) : gmap Z Z := <[43000 := 77]> (<[43004 := t1]> (<[43008 := t2]> M)).
Definition caller : Regs := mkRegs 1 2 3 4 5 6 7 43000.

Lemma caller_ok t1 t2 M :
  fits t1 36 -> mapped M t1 9 -> is_Some (M !! 42000) -> apart t1 36 43000 12 -> apart 42000 4 t1 36 ->
  switch_call 42000 (m t1 t2 M) caller t1 t2 77.
Proof.
  intros F Mt Ms A1 A2. unfold m. split; try done.
  - intros [|[|[|i]]] v Hi; cbn in Hi; [..|discriminate]; injection Hi as <-; cbn [caller esp Z.of_nat Pos.of_succ_nat Pos.succ].
    all: repeat first [rewrite lookup_insert_eq; done | rewrite lookup_insert_ne by lia | change (43000 + 4 * 0) with 43000 | change (43000 + 4 * 1) with 43004 | change (43000 + 4 * 2) with 43008 ].
  - by do 3 apply mapped_insert.
  - by rewrite !lookup_insert_ne by lia.
  - unfold apart, caller. cbn [esp]. lia.
Qed.

(** A thread at 40000 whose stack starts at 4096 is forked and switched to. *)
Lemma first_switch_runs_body_witness :
  exists m0 m1, newThread_words 40000 (zeros size) = Ok m0 /\ StackAllocate 100 200 300 40000 4096 400 9 m0 = Ok m1 /\
    exists s1 s2 w, SWITCH 42000 (mkX86 caller (m 41000 40000 m1) []) = Ok (Returned 100 s1) /\
      exec function (fun _ => 0) ThreadRoot_code s1 = Ok (NoReturn s2) /\
      called s2 = [(200, Some 9); (400, Some 9); (300, w)].
Proof.
  destruct (first_switch_runs_body function (fun _ => 0) (fun _ => 0) 4096 100 200 300 42000
    (fun s => ex_intro _ _ eq_refl) eq_refl (fun s => eq_refl) 40000 400 9 (zeros size))
    as (m0 & m1 & E0 & E1 & Ho & H).
  - repeat split; lia.
  - apply (zeros_mapped size 10000 76); unfold size; lia.
  - unfold fits, StackSize. repeat split; lia.
  - apply (zeros_mapped size 1024 StackSize); unfold size, StackSize; lia.
  - right. unfold StackSize. lia.
  - intros s. eexists. reflexivity.
  - exists m0, m1. split; [exact E0|]. split; [exact E1|].
    destruct (H (m 41000 40000 m1) caller [] 41000 77) as (s1 & s2 & w & R1 & _ & R2 & R3 & _).
    + apply caller_ok.
      * repeat split; lia.
      * intros i Hi. rewrite Ho by (unfold StackSize; lia). apply (zeros_mapped size 10250 9); unfold size; lia.
      * rewrite Ho by (unfold StackSize; lia). eexists. apply (zeros_lookup size 10500). unfold size. lia.
      * left. lia.
      * right. lia.
    + intros x Hx. unfold m, StackSize in *. rewrite !lookup_insert_ne by lia. reflexivity.
    + right. lia.
    + right. unfold StackSize. lia.
    + right. lia.
    + right. unfold StackSize. lia.
    + exists s1, s2, w. split; [exact R1|]. split; [exact R2|exact R3].
Defined.

(** The thread at 41000 switches to the one at 40000, whose registers are in its
    object, and back. *)
Definition other : Regs := mkRegs 10 20 30 40 50 60 70 8000.
Definition M0 : gmap Z Z :=
  <[8000 := 88]> (<[40032 := 88]> (<[40028 := 70]> (<[40024 := 60]> (<[40020 := 50]> (<[40016 := 40]> (<[40012 := 30]>
  (<[40008 := 20]> (<[40004 := 10]> (<[40000 := 8000]> (zeros size)))))))))).

Lemma M0_other x : x <> 8000 -> ~ (40000 <= x < 40036) -> M0 !! x = zeros size !! x.
Proof. intros. unfold M0. by rewrite !lookup_insert_ne by lia. Qed.
Lemma other_suspended : suspended 42000 (m 41000 40000 M0) 40000 other 88.
Proof.
  split.
  - repeat split; lia.
  - intros i v Hi. unfold m, M0. do 9 (destruct i as [|i]; [injection Hi as <-; cbn [Z.of_nat Pos.of_succ_nat Pos.succ];
      repeat first [rewrite lookup_insert_eq; done | rewrite lookup_insert_ne by lia]|]). discriminate.
  - unfold other, fits. cbn [esp]. repeat split; lia.
  - unfold other, m. cbn [esp]. rewrite !lookup_insert_ne by lia. unfold M0. apply lookup_insert_eq.
  - unfold other, m. cbn [esp]. rewrite !lookup_insert_ne by lia. rewrite M0_other by lia. eexists.
    apply (zeros_lookup size 2001). unfold size. lia.
  - right. lia.
  - right. unfold other. cbn [esp]. lia.
  - left. unfold other. cbn [esp]. lia.
Qed.

Definition later (m1 : gmap Z Z) : gmap Z Z :=
  <[42000 := 0]> (<[43500 := 99]> (<[43504 := 40000]> (<[43508 := 41000]> m1))).
Lemma switch_roundtrip_witness :
  exists m1, SWITCH 42000 (mkX86 caller (m 41000 40000 M0) []) = Ok (Returned 88 (mkX86 (set ESP 8004 other) m1 [])) /\
    exists m3, SWITCH 42000 (mkX86 (set ESP 43500 other) (later m1) [])
      = Ok (Returned 77 (mkX86 (set ESP 43004 caller) m3 [])).
Proof.
  destruct (switch_roundtrip 42000 (m 41000 40000 M0) caller [] 41000 40000 77 other 88) as (m1 & E1 & Ho & H).
  - apply caller_ok.
    + repeat split; lia.
    + intros i Hi. rewrite M0_other by lia. apply (zeros_mapped size 10250 9); unfold size; lia.
    + rewrite M0_other by lia. eexists. apply (zeros_lookup size 10500). unfold size. lia.
    + left. lia.
    + right. lia.
  - exact other_suspended.
  - right. lia.
  - right. unfold other. cbn [esp]. lia.
  - right. unfold other, caller. cbn [esp]. lia.
  - exists m1. split; [exact E1|].
    destruct (H (later m1) (set ESP 43500 other) [] 40000 99) as (m3 & E3 & _).
    + split.
      * unfold other, fits. cbn [esp set]. repeat split; lia.
      * intros [|[|[|i]]] v Hi; cbn in Hi; [..|discriminate]; injection Hi as <-; unfold later, other;
        cbn [set esp Z.of_nat Pos.of_succ_nat Pos.succ]; repeat first [apply lookup_insert_eq | rewrite lookup_insert_ne by lia].
      * repeat split; lia.
      * unfold later. do 4 apply mapped_insert. intros i Hi. rewrite Ho by (unfold other; cbn [esp]; lia).
        unfold m, M0. do 13 (apply lookup_insert_is_Some'; right).
        apply (zeros_mapped size 10000 9); unfold size; lia.
      * repeat split; lia.
      * eexists. unfold later. apply lookup_insert_eq.
      * left. unfold other. cbn [set esp]. lia.
      * left. unfold other. cbn [set esp]. lia.
      * right. lia.
    + intros x Hx. unfold later, caller in *. cbn [esp] in Hx. rewrite !lookup_insert_ne by lia. reflexivity.
    + unfold later. do 4 (apply lookup_insert_is_Some'; right). rewrite Ho by (unfold other, caller; cbn [esp]; lia).
      unfold m. eexists. unfold caller. cbn [esp]. rewrite lookup_insert_ne by lia. apply lookup_insert_eq.
    + left. lia.
    + left. unfold caller. cbn [esp]. lia.
    + exists m3. exact E3.
Defined.
End TwoThreads.
