(* ===== verification/Synch.v ===== *)
(** * Semaphores, locks, condition variables and synchronized lists
    (src/code/threads/synch.h, synch.cc, synchlist.h, synchlist.cc; the drivers
    filesys/synchdisk, userprog/synchconsole and the sending side of network/post)

    Every routine runs in the current thread.  A routine that calls others
    leaves the calls it has still to make on the thread's list of actions;
    [exec] does the first of them.  Between two actions the timer may preempt
    the thread and a device may post a semaphore, when interrupts are enabled
    ([step]). *)

From S2P Require Import Prelude Lists Interrupt Network Disk Machine AddrSpace Threads.
Open Scope Z_scope.

(** Stores to one synchronization object. *)
Definition set_sem (s : semid) (sem : Semaphore) (k : Kernel) : Kernel := with_sems (<[s := sem]> (sems k)) k.
Definition set_holder (l : positive) (h : option positive) (k : Kernel) : Kernel := with_lockHolder (<[l := h]> (lockHolder k)) k.
Definition set_waitQueue (c : positive) (q : list positive) (k : Kernel) : Kernel := with_waitQueue (<[c := q]> (waitQueue k)) k.
Definition set_synchList (sl : positive) (x : SynchList) (k : Kernel) : Kernel := with_synchLists (<[sl := x]> (synchLists k)) k.

Definition set_device (d : positive) (x : Device) (k : Kernel) : Kernel := with_devices (<[d := x]> (devices k)) k.

(** ** synch.cc *)

(** [Semaphore::Semaphore], [Lock::Lock], [Condition::Condition] *)
Definition newSemaphore (initialValue : Z) : Semaphore := mkSem initialValue [].
Definition newLock (l : positive) (k : Kernel) : Kernel := set_holder l None (set_sem (LSem l) (newSemaphore 1) k).
Definition newCondition (c : positive) (k : Kernel) : Kernel := set_waitQueue c [] k.

(** The [while] loop of [Semaphore::P] and the code after it, interrupts off;
    a thread that sleeps comes back to the test of the loop. *)
Definition P_loop (s : semid) (oldLevel : IntStatus) (k : Kernel) : outcome Kernel :=
  sem ← deref (sems k) s;
  if value sem =? 0 then
    q ← Spec.append (queue sem) (currentThread k);
    k ← push [PLoop s oldLevel] (set_sem s (mkSem (value sem) q) k);
    Sleep false k
  else
    v ← int_add (value sem) (-1);
    Ok (with_intLevel oldLevel (set_sem s (mkSem v (queue sem)) k)).

(** [Semaphore::P] *)
Definition P (s : semid) (k : Kernel) : outcome Kernel := P_loop s (intLevel k) (with_intLevel IntOff k).

(** [Semaphore::V] *)
Definition V (s : semid) (k : Kernel) : outcome Kernel :=
  let oldLevel := intLevel k in
  let k := with_intLevel IntOff k in
  sem ← deref (sems k) s;
  k ← match queue sem with
      | [] => Ok k
      | t :: q => ReadyToRun t (set_sem s (mkSem (value sem) q) k)
      end;
  sem ← deref (sems k) s;
  v ← int_add (value sem) 1;
  Ok (with_intLevel oldLevel (set_sem s (mkSem v (queue sem)) k)).

(** [Lock::IsHeldByCurrentThread] *)
Definition IsHeldByCurrentThread (l : positive) (k : Kernel) : outcome bool :=
  h ← deref (lockHolder k) l; Ok (bool_decide (h = Some (currentThread k))).

(** [Lock::Acquire], [Lock::Release] *)
Definition Acquire (l : positive) (k : Kernel) : outcome Kernel :=
  _ ← deref (lockHolder k) l; push [P_ (LSem l); SetHolder l] k.
Definition Release (l : positive) (k : Kernel) : outcome Kernel :=
  h ← IsHeldByCurrentThread l k;
  _ ← ASSERT h;
  push [V_ (LSem l)] (set_holder l None k).

(** A new semaphore for one waiter. *)
Definition fresh_waiter (k : Kernel) : positive :=
  fresh (set_omap (fun s => match s with WSem n => Some n | _ => None end) (dom (sems k)) : gset positive).

(** [Condition::Wait] *)
Definition Wait (c l : positive) (k : Kernel) : outcome Kernel :=
  h ← IsHeldByCurrentThread l k;
  _ ← ASSERT h;
  let waiter := fresh_waiter k in
  let k := set_sem (WSem waiter) (newSemaphore 0) k in
  q ← deref (waitQueue k) c;
  q ← Spec.append q waiter;
  push [Release_ l; P_ (WSem waiter); Acquire_ l; DeleteSem (WSem waiter)] (set_waitQueue c q k).

(** [Condition::Signal], [Condition::Broadcast] *)
Definition Signal (c l : positive) (k : Kernel) : outcome Kernel :=
  h ← IsHeldByCurrentThread l k;
  _ ← ASSERT h;
  q ← deref (waitQueue k) c;
  match q with
  | [] => Ok k
  | waiter :: q => push [V_ (WSem waiter)] (set_waitQueue c q k)
  end.
Definition Broadcast (c l : positive) (k : Kernel) : outcome Kernel :=
  q ← deref (waitQueue k) c;
  match q with
  | [] => Ok k
  | _ :: _ => push [Signal_ c l; Broadcast_ c l] k
  end.

(** [delete] of a semaphore. *)
Definition deleteSemaphore (s : semid) (k : Kernel) : outcome Kernel :=
  _ ← deref (sems k) s; Ok (with_sems (delete s (sems k)) k).

(** ** synchlist.cc *)

(** [SynchList<T>::SynchList] *)
Definition newSynchList (sl lock cond : positive) (k : Kernel) : Kernel :=
  set_synchList sl (mkSynchList [] lock cond) (newCondition cond (newLock lock k)).

(** [SynchList<T>::Append] *)
Definition SynchAppend (sl : positive) (item : Z) (k : Kernel) : outcome Kernel :=
  x ← deref (synchLists k) sl;
  push [Acquire_ (sl_lock x); PutItem sl item; Signal_ (listEmpty x) (sl_lock x); Release_ (sl_lock x)] k.

(** [list->Append(item)], which stops when an equal item is in the list. *)
Definition put_item (sl : positive) (item : Z) (k : Kernel) : outcome Kernel :=
  x ← deref (synchLists k) sl;
  xs ← Spec.append (items x) item;
  Ok (set_synchList sl (mkSynchList xs (sl_lock x) (listEmpty x)) k).

(** [SynchList<T>::RemoveFront] *)
Definition SynchRemoveFront (sl : positive) (k : Kernel) : outcome Kernel :=
  x ← deref (synchLists k) sl;
  push [Acquire_ (sl_lock x); RemoveLoop sl; Release_ (sl_lock x)] k.

(** Its [while] loop and [list->RemoveFront()]. *)
Definition remove_front_loop (sl : positive) (k : Kernel) : outcome Kernel :=
  x ← deref (synchLists k) sl;
  match items x with
  | [] => push [Wait_ (listEmpty x) (sl_lock x); RemoveLoop sl] k
  | item :: rest => Ok (set_synchList sl (mkSynchList rest (sl_lock x) (listEmpty x)) k)
  end.

(** ** Devices and their drivers

    A driver shares its lock, its semaphore and the device under one number. *)

(** What the constructors [SynchDisk], [SynchConsoleOutput] and
    [PostOfficeOutput] do: a semaphore, a lock, and the device. *)
Definition newDriver (d : positive) (kd : devkind) (k : Kernel) : Kernel :=
  set_device d (mkDevice kd false) (newLock d (set_sem (DSem d) (newSemaphore 0) k)).

Definition newSynchDisk (d : positive) (k : Kernel) : Kernel := newDriver d DiskDev k.
Definition newSynchConsoleOutput (d : positive) (k : Kernel) : Kernel := newDriver d DisplayDev k.
Definition newPostOfficeOutput (d : positive) (k : Kernel) : Kernel := newDriver d NetworkDev k.

(** [SynchConsoleInput]: the keyboard is not asked, it posts [waitFor] by itself. *)
Definition newSynchConsoleInput (lock waitFor : positive) (k : Kernel) : Kernel :=
  set_sem (USem waitFor) (newSemaphore 0) (newLock lock k).

(** What [Disk::ReadRequest], [WriteRequest], [ConsoleOutput::PutChar] and
    [NetworkOutput::Send] assert about their arguments. *)
Definition request_ok (kd : devkind) (r : request) : bool :=
  match kd, r with
  | DiskDev, ReadReq sector => in_disk sector
  | DiskDev, WriteReq sector data => in_disk sector && (Z.of_nat (length data) =? SectorSize)
  | DisplayDev, PutReq _ => true
  | NetworkDev, SendReq _ data => (0 <? Z.of_nat (length data)) && (Z.of_nat (length data) <=? MaxPacketSize)
  | _, _ => false
  end.

(** The request itself: the device must be idle, and is busy until its interrupt. *)
Definition dev_request (d : positive) (r : request) (k : Kernel) : outcome Kernel :=
  x ← deref (devices k) d;
  _ ← ASSERT (negb (busy x));
  _ ← ASSERT (request_ok (dkind x) r);
  Ok (set_device d (mkDevice (dkind x) true) k).

(** The interrupt: [Disk::CallBack] and its like, which end in the driver's
    [CallBack]. *)
Definition dev_interrupt (d : positive) (k : Kernel) : outcome Kernel :=
  x ← deref (devices k) d;
  V (DSem d) (set_device d (mkDevice (dkind x) false) k).

(** [SynchDisk::ReadSector], [SynchDisk::WriteSector] *)
Definition ReadSector (d : positive) (sectorNumber : Z) : list action :=
  [Acquire_ d; Request_ d (ReadReq sectorNumber); P_ (DSem d); Release_ d].
Definition WriteSector (d : positive) (sectorNumber : Z) (data : list Z) : list action :=
  [Acquire_ d; Request_ d (WriteReq sectorNumber data); P_ (DSem d); Release_ d].

(** [SynchConsoleOutput::PutChar] *)
Definition SynchPutChar (d : positive) (ch : Z) : list action :=
  [Acquire_ d; Request_ d (PutReq ch); P_ (DSem d); Release_ d].

(** [PostOfficeOutput::Send] from the lock on. *)
Definition SendPacket (d : positive) (to : Z) (buffer : list Z) : list action :=
  [Acquire_ d; Request_ d (SendReq to buffer); P_ (DSem d); Release_ d].

(** [SynchConsoleInput::GetChar]; the keyboard handler posts [waitFor]. *)
Definition SynchConsoleGetChar (lock waitFor : positive) : list action :=
  [Acquire_ lock; P_ (USem waitFor); Release_ lock].

(** ** Execution *)
Section execution.
Context (garbage : list Z).

(** One action. *)
Definition perform (a : action) (k : Kernel) : outcome Kernel :=
  match a with
  | Yield_ => Yield k
  | P_ s => P s k
  | V_ s => V s k
  | Acquire_ l => Acquire l k
  | Release_ l => Release l k
  | Wait_ c l => Wait c l k
  | Signal_ c l => Signal c l k
  | Broadcast_ c l => Broadcast c l k
  | Fork_ p body => fork_new garbage p body k
  | Append_ sl item => SynchAppend sl item k
  | RemoveFront_ sl => SynchRemoveFront sl k
  | Halt_ => Err Halted
  | Begin_ => Begin k
  | Finish_ => Finish k
  | RunTail => run_tail k
  | SleepLoop finishing => sleep_loop finishing k
  | SetLevel_ l => Ok (with_intLevel l k)
  | PLoop s oldLevel => P_loop s oldLevel k
  | SetHolder l => _ ← deref (lockHolder k) l; Ok (set_holder l (Some (currentThread k)) k)
  | DeleteSem s => deleteSemaphore s k
  | PutItem sl item => put_item sl item k
  | RemoveLoop sl => remove_front_loop sl k
  | Request_ d r => dev_request d r k
  end.

(** What the current thread does next. *)
Definition next_action (k : Kernel) : option action :=
  th ← threads k !! currentThread k; list.head (machineState th).

(** The current thread takes its next action. *)
Definition exec (k : Kernel) : outcome Kernel :=
  th ← deref (threads k) (currentThread k);
  match machineState th with
  | [] => Err Undefined
  | a :: rest => perform a (set_thread (currentThread k) (with_state rest th) k)
  end.

(** [n] actions without an interrupt. *)
Fixpoint run (n : nat) (k : Kernel) : outcome Kernel :=
  match n with
  | O => Ok k
  | S n => k ← exec k; run n k
  end.

(** The steps of the system: the current thread acts; the timer preempts it
    ([Interrupt::OneTick] calls [Yield] for the alarm); a device handler posts a
    semaphore, or completes the request of a driver, between two actions or
    while the CPU idles in [Sleep]; the user program of the current thread
    computes. *)
Inductive step : Kernel -> Kernel -> Prop :=
  | step_exec k k' : exec k = Ok k' -> step k k'
  | step_timer k k' : intLevel k = IntOn -> push [Yield_] k = Ok k' -> step k k'
  | step_device k k' n :
      intLevel k = IntOn \/ (exists f, next_action k = Some (SleepLoop f)) ->
      V (USem n) k = Ok k' -> step k k'
  | step_complete k k' d x :
      intLevel k = IntOn \/ (exists f, next_action k = Some (SleepLoop f)) ->
      devices k !! d = Some x -> busy x = true -> dev_interrupt d k = Ok k' -> step k k'
  | step_user k m :
      intLevel k = IntOn -> length (registers m) = Z.to_nat NumTotalRegs -> step k (with_machine m k).

Definition reachable : Kernel -> Kernel -> Prop := rtc step.
End execution.

(** ** The self tests of thread.cc and synch.cc as programs *)

(** [SimpleThread] and [Thread::SelfTest]; [rs] are the results of [rand()]. *)
Definition SimpleThread : list action := replicate 5 Yield_.
Definition ThreadSelfTest (rs : list Z) : list action :=
  ((fun r => Fork_ (Some (r mod 7 + 1)) SimpleThread) <$> take 5 rs) ++ [Yield_].

(** [SelfTestHelper] and [Semaphore::SelfTest] on the semaphores [ping] and
    [pong] ([this]), which is created here with its initial value. *)
Definition SelfTestHelper (ping pong : semid) : list action := concat (replicate 10 [P_ ping; V_ pong]).
Definition SemaphoreSelfTest (ping pong : semid) : list action :=
  Fork_ None (SelfTestHelper ping pong) :: concat (replicate 10 [V_ ping; P_ pong]) ++ [DeleteSem ping].

(** [SynchList<T>::SelfTestHelper] and [SynchList<T>::SelfTest] on the lists
    [ping] ([selfTestPing]) and [this]; [val] is the only item ever put into
    [ping], so that it is what the helper passes on. *)
Definition SynchListHelper (ping this : positive) (val : Z) : list action :=
  concat (replicate 10 [RemoveFront_ ping; Append_ this val]).
Definition SynchListSelfTest (ping this : positive) (val : Z) : list action :=
  Fork_ None (SynchListHelper ping this val) :: concat (replicate 10 [Append_ ping val; RemoveFront_ this]).

(** [Kernel::ThreadSelfTest] after [LibSelfTest]. *)
Definition KernelThreadSelfTest (rs : list Z) (ping pong : semid) (pingList synchList : positive) : list action :=
  ThreadSelfTest rs ++ SemaphoreSelfTest ping pong ++ [DeleteSem pong] ++ SynchListSelfTest pingList synchList 9.

(** The thread part of [Kernel::Initialize]: the main thread, which executes
    [prog] and then halts the machine. *)
Definition Initialize (regs : list Z) (prog : list action) : Kernel :=
  mkKernel IntOn [] None 1%positive 0
    {[ 1%positive := with_state (prog ++ [Halt_]) (with_tstatus RUNNING (newThread regs)) ]}
    ∅ newMachine ∅ ∅ ∅ ∅ ∅.

(** ** The self tests, run *)
Module SelfTestRun.
Definition ping : semid := USem 1.
Definition pong : semid := USem 2.
Definition k0 : Kernel :=
  newSynchList 2 12 22 (newSynchList 1 11 21 (set_sem pong (newSemaphore 0) (set_sem ping (newSemaphore 0)
    (Initialize (replicate 40 0) (KernelThreadSelfTest [3; 14; 15; 92; 65] ping pong 1 2))))).
Fixpoint until_halt (n : nat) (k : Kernel) : option Kernel :=
  match n with
  | O => None
  | S n =>
      match next_action k with
      | Some Halt_ => Some k
      | _ => match exec (replicate 40 0) k with Ok k => until_halt n k | Err _ => None end
      end
  end.
End SelfTestRun.

(** Without interrupts, the tests of threads, semaphores and synchronized lists
    run to the end of [main]: every other thread is gone, interrupts are on, and
    both lists are empty again. *)
Lemma kernel_self_test_passes :
  exists k, SelfTestRun.until_halt 5000 SelfTestRun.k0 = Some k /\ next_action k = Some Halt_ /\
    readyList k = [] /\ intLevel k = IntOn /\
    forall sl, sl = 1%positive \/ sl = 2%positive -> exists x, synchLists k !! sl = Some x /\ items x = [].
Proof.
  eexists. split; [vm_compute; reflexivity|]. split; [reflexivity|]. split; [reflexivity|]. split; [reflexivity|].
  intros sl [->| ->]; eexists; (split; [reflexivity|]); reflexivity.
Qed.
