(* ===== verification/SchedInv.v ===== *)
(** * The scheduler's invariant

    The states a thread goes through between the places at which it can lose
    the CPU, and what the ready list, the semaphore queues and the interrupt
    level look like in between.  Every routine of thread.cc and scheduler.cc, and
    [Semaphore::P] and [V], keep the invariant and never stop in one of their
    assertions. *)

From S2P Require Import Prelude Lists Interrupt Machine AddrSpace Threads Synch.

(** ** Where a thread is *)

(** The semaphore whose value a thread will test next. *)
Definition target (ms : list action) : option semid :=
  match ms with
  | PLoop s _ :: _ | RunTail :: PLoop s _ :: _ | SleepLoop false :: PLoop s _ :: _ => Some s
  | _ => None
  end.

(** What the thread's code still has to do, whatever the scheduler is at. *)
Definition cont (ms : list action) : list action :=
  match ms with
  | RunTail :: SetLevel_ _ :: r | SetLevel_ _ :: r | Begin_ :: r => r
  | RunTail :: PLoop s _ :: r | SleepLoop false :: PLoop s _ :: r | PLoop s _ :: r => P_ s :: r
  | [] | [RunTail] | [SleepLoop true] => [Finish_]
  | _ => ms
  end.

(** At an action of the thread's own code. *)
Definition plain (ms : list action) : bool :=
  match ms with
  | [] | Begin_ :: _ | RunTail :: _ | SleepLoop _ :: _ | SetLevel_ _ :: _ | PLoop _ _ :: _ => false
  | _ => true
  end.

(** Ready to be dispatched: just forked, or inside [Run] under [Yield] or [P]. *)
Inductive at_rest : list action -> Prop :=
  | rest_new r : at_rest (Begin_ :: r)
  | rest_yield ol r : at_rest (RunTail :: SetLevel_ ol :: r)
  | rest_P s ol r : at_rest (RunTail :: PLoop s ol :: r).

Definition queued (sms : gmap semid Semaphore) (s : semid) (t : positive) : Prop :=
  exists sem, sms !! s = Some sem /\ t ∈ queue sem.

(** A thread that is not on the CPU. *)
Inductive parked (sms : gmap semid Semaphore) (d : option positive) (t : positive)
    : ThreadStatus -> list action -> Prop :=
  | parked_ready ms : at_rest ms -> parked sms d t READY ms
  | parked_waiting s ol r : queued sms s t -> parked sms d t BLOCKED (RunTail :: PLoop s ol :: r)
  | parked_dead : d = Some t -> parked sms d t BLOCKED [RunTail].

(** The current thread. *)
Inductive active (k : Kernel) : ThreadStatus -> list action -> Prop :=
  | active_plain ms : toBeDestroyed k = None -> plain ms = true -> active k RUNNING ms
  | active_rest ms : intLevel k = IntOff -> at_rest ms -> active k RUNNING ms
  | active_level ol r : intLevel k = IntOff -> toBeDestroyed k = None -> active k RUNNING (SetLevel_ ol :: r)
  | active_retest s ol r : intLevel k = IntOff -> toBeDestroyed k = None -> active k RUNNING (PLoop s ol :: r)
  | active_woken s ol r : intLevel k = IntOff -> toBeDestroyed k = None ->
      active k READY (SleepLoop false :: PLoop s ol :: r)
  | active_idle s ol r : intLevel k = IntOff -> toBeDestroyed k = None -> queued (sems k) s (currentThread k) ->
      active k BLOCKED (SleepLoop false :: PLoop s ol :: r)
  | active_dying : intLevel k = IntOff -> toBeDestroyed k = None -> active k BLOCKED [SleepLoop true].

(** The current thread about to be switched out by [Run]. *)
Inductive leaving (finishing : bool) (k : Kernel) : ThreadStatus -> list action -> Prop :=
  | leaving_ready ms : finishing = false -> intLevel k = IntOff -> toBeDestroyed k = None -> at_rest (RunTail :: ms) ->
      leaving finishing k READY ms
  | leaving_P s ol r : finishing = false -> intLevel k = IntOff -> toBeDestroyed k = None ->
      queued (sems k) s (currentThread k) -> leaving finishing k BLOCKED (PLoop s ol :: r)
  | leaving_end : finishing = true -> intLevel k = IntOff -> toBeDestroyed k = None -> leaving finishing k BLOCKED [].

(** ** The invariant *)

(** Awake threads that will test [s] again. *)
Definition awake (s : semid) (th : Thread) : bool :=
  negb (bool_decide (status th = BLOCKED)) && bool_decide (target (machineState th) = Some s).
Definition woken (s : semid) (ths : gmap positive Thread) : Z :=
  Z.of_nat (base.size (filter (fun p => awake s p.2 = true) ths)).

(** The ready list holds the READY threads, once each, by priority. *)
Record ready_ok (ths : gmap positive Thread) (r : list positive) : Prop := {
  r_nodup : NoDup r;
  r_sorted : Sorted (cmp_le (Compare ths)) r;
  r_mem t : t ∈ r <-> exists th, ths !! t = Some th /\ status th = READY;
}.

(** A semaphore's queue holds threads blocked on it; each unit of its value is
    matched by an awake thread that will test it again while one is queued.
    [e] is a semaphore that the current thread is testing now. *)
Record sem_ok (e : option semid) (ths : gmap positive Thread) (s : semid) (sem : Semaphore) : Prop := {
  s_nodup : NoDup (queue sem);
  s_value : 0 <= value sem < 2 ^ 31;
  s_mem t : t ∈ queue sem -> exists th, ths !! t = Some th /\ status th = BLOCKED /\ target (machineState th) = Some s;
  s_wake : queue sem <> [] -> value sem <= woken s ths + (if bool_decide (e = Some s) then 1 else 0);
}.
Definition sems_ok e ths (sms : gmap semid Semaphore) : Prop := forall s sem, sms !! s = Some sem -> sem_ok e ths s sem.

(** The saved user state: buffers of 40 registers, address spaces that exist,
    fence posts in place. *)
Definition thread_user_ok (sps : gmap positive AddrSpace) (th : Thread) : Prop :=
  (stack th = None \/ stack th = Some STACK_FENCEPOST) /\ length (userRegisters th) = Z.to_nat NumTotalRegs /\
  (forall a, space th = Some a -> is_Some (sps !! a)).
Record user_ok (ths : gmap positive Thread) (sps : gmap positive AddrSpace) (m : Machine) : Prop := {
  u_threads t th : ths !! t = Some th -> thread_user_ok sps th;
  u_spaces a sp : sps !! a = Some sp -> length (s_reg sp) = Z.to_nat NumTotalRegs;
  u_machine : length (registers m) = Z.to_nat NumTotalRegs;
}.

Record sched_inv (e : option semid) (C : Kernel -> ThreadStatus -> list action -> Prop) (k : Kernel) : Prop := {
  si_cur : exists th, threads k !! currentThread k = Some th /\ C k (status th) (machineState th);
  si_others t th : t <> currentThread k -> threads k !! t = Some th ->
    parked (sems k) (toBeDestroyed k) t (status th) (machineState th);
  si_ready : ready_ok (threads k) (readyList k);
  si_sems : sems_ok e (threads k) (sems k);
  si_destroy d : toBeDestroyed k = Some d -> d <> currentThread k /\
    exists th, threads k !! d = Some th /\ status th = BLOCKED /\ machineState th = [RunTail];
  si_user : user_ok (threads k) (spaces k) (machine k);
}.

Definition conts (k : Kernel) : gmap positive (list action) := (fun th => cont (machineState th)) <$> threads k.

(** ** Facts about the pieces *)

(** Fields of a thread, and of the kernel, after stores to some of them. *)
Ltac tsimpl := cbn [priority status stack userRegisters space machineState with_tstatus with_regs with_state with_stack] in *.
Ltac ksimpl := cbn [intLevel readyList toBeDestroyed currentThread threadNum threads spaces machine sems lockHolder
  waitQueue synchLists devices with_intLevel with_ready with_destroy with_current with_threadNum with_threads with_spaces
  with_machine with_sems with_lockHolder with_waitQueue with_synchLists with_devices set_thread set_sem
  set_holder set_waitQueue set_synchList set_device] in *.

#[export] Instance Compare_comparator ths : Comparator (Compare ths).
Proof.
  unfold Compare. split; intros x y; [..|intros z];
    repeat match goal with |- context [?a <? ?b] => destruct (Z.ltb_spec a b)
           | |- context [?a =? ?b] => destruct (Z.eqb_spec a b) end; lia.
Qed.

Lemma Compare_le ths x y : cmp_le (Compare ths) x y <-> getPriority ths y <= getPriority ths x.
Proof.
  unfold cmp_le, Compare. destruct (Z.ltb_spec (getPriority ths y) (getPriority ths x)); [lia|].
  destruct (Z.eqb_spec (getPriority ths x) (getPriority ths y)); lia.
Qed.

Lemma Sorted_priority_ext ths ths' r :
  (forall t, t ∈ r -> getPriority ths' t = getPriority ths t) ->
  Sorted (cmp_le (Compare ths)) r -> Sorted (cmp_le (Compare ths')) r.
Proof.
  intros Hext. induction 1 as [|x r _ IH Hhd]; constructor.
  - apply IH. intros. apply Hext. by right.
  - destruct Hhd as [|y r' Hle]; constructor. apply Compare_le. apply Compare_le in Hle.
    rewrite !Hext by (rewrite ?elem_of_cons; tauto). done.
Qed.

(** ** Updates of one thread *)
Lemma getPriority_insert ths t th x :
  getPriority (<[t := th]> ths) x = if decide (x = t) then priority th else getPriority ths x.
Proof. unfold getPriority. case_decide; subst; [by rewrite lookup_insert_eq|by rewrite lookup_insert_ne]. Qed.

Lemma ready_ok_insert ths r t th th' :
  ths !! t = Some th -> priority th' = priority th -> (status th' = READY <-> status th = READY) ->
  ready_ok ths r -> ready_ok (<[t := th']> ths) r.
Proof.
  intros Ht Hp Hst [Hnd Hs Hm]. split; [done| |].
  - eapply Sorted_priority_ext; [|done]. intros x _. rewrite getPriority_insert. case_decide; [|done]. subst.
    unfold getPriority. by rewrite Ht.
  - intros x. rewrite Hm. destruct (decide (x = t)) as [->|Hne].
    + rewrite lookup_insert_eq, Ht. naive_solver.
    + by rewrite lookup_insert_ne.
Qed.

Lemma ready_ok_add ths r t th :
  ths !! t = Some th -> status th <> READY -> ready_ok ths r ->
  let ths' := <[t := with_tstatus READY th]> ths in ready_ok ths' (Spec.place (Compare ths') r t).
Proof.
  intros Ht Hst [Hnd Hs Hm] ths'. assert (t ∉ r) as Hnotin by (rewrite Hm; naive_solver).
  split.
  - by apply place_NoDup.
  - apply place_Sorted; [apply _|]. eapply Sorted_priority_ext; [|done]. intros x Hx. unfold ths'.
    rewrite getPriority_insert. by rewrite decide_False by congruence.
  - intros x. rewrite elem_of_place, Hm. unfold ths'. destruct (decide (x = t)) as [->|Hne].
    + rewrite lookup_insert_eq. naive_solver.
    + rewrite lookup_insert_ne by done. naive_solver.
Qed.

Lemma ready_ok_take ths r t th st :
  ths !! t = Some th -> st <> READY -> ready_ok ths (t :: r) -> ready_ok (<[t := with_tstatus st th]> ths) r.
Proof.
  intros Ht Hst [Hnd Hs Hm]. apply NoDup_cons in Hnd as [Hnotin Hnd]. apply Sorted_inv in Hs as [Hs _].
  split; [done| |].
  - eapply Sorted_priority_ext; [|done]. intros x Hx. rewrite getPriority_insert. by rewrite decide_False by congruence.
  - intros x. specialize (Hm x). rewrite elem_of_cons in Hm. destruct (decide (x = t)) as [->|Hne].
    + rewrite lookup_insert_eq. split; [done|]. intros (? & [= <-] & ?). done.
    + rewrite lookup_insert_ne by done. rewrite <- Hm. naive_solver.
Qed.

Lemma ready_ok_delete ths r t th :
  ths !! t = Some th -> status th <> READY -> ready_ok ths r -> ready_ok (delete t ths) r.
Proof.
  intros Ht Hst [Hnd Hs Hm]. split; [done| |].
  - eapply Sorted_priority_ext; [|done]. intros x Hx. apply Hm in Hx as (thx & Hx & Hr).
    unfold getPriority. rewrite lookup_delete_ne; [done|]. intros ->. congruence.
  - intros x. rewrite Hm. destruct (decide (x = t)) as [->|Hne].
    + rewrite lookup_delete_eq, Ht. naive_solver.
    + by rewrite lookup_delete_ne.
Qed.

Lemma awake_no_target s th : target (machineState th) = None -> awake s th = false.
Proof. intros Htg. unfold awake. rewrite Htg. by rewrite andb_false_r. Qed.

Lemma awake_other s x th : target (machineState th) = Some x -> x <> s -> awake s th = false.
Proof. intros Htg Hx. unfold awake. rewrite Htg, (bool_decide_eq_false_2 (Some x = Some s)) by congruence. by rewrite andb_false_r. Qed.

Lemma awake_blocked s th : status th = BLOCKED -> awake s th = false.
Proof. unfold awake. by intros ->. Qed.

Lemma awake_yes s th : status th <> BLOCKED -> target (machineState th) = Some s -> awake s th = true.
Proof. intros Hst Htg. unfold awake. rewrite bool_decide_eq_false_2, bool_decide_eq_true_2 by done. done. Qed.

Lemma woken_nonneg s ths : 0 <= woken s ths.
Proof. unfold woken. lia. Qed.

Lemma woken_insert_fresh s ths t th : ths !! t = None ->
  woken s (<[t := th]> ths) = woken s ths + Z.b2z (awake s th).
Proof.
  intros Ht. unfold woken. destruct (awake s th) eqn:E.
  - rewrite map_filter_insert_True by done. rewrite map_size_insert_None; [cbn; lia|]. apply map_lookup_filter_None. by left.
  - rewrite map_filter_insert_False by (cbn; congruence). rewrite delete_id by done. cbn. lia.
Qed.

Lemma woken_insert s ths t th th' : ths !! t = Some th ->
  woken s (<[t := th']> ths) = woken s ths - Z.b2z (awake s th) + Z.b2z (awake s th').
Proof.
  intros Ht. rewrite <- (insert_id ths t th Ht) at 2. rewrite <- !(insert_delete_eq ths t).
  rewrite !woken_insert_fresh by apply lookup_delete_eq. lia.
Qed.

Lemma woken_delete s ths t th : ths !! t = Some th -> awake s th = false -> woken s (delete t ths) = woken s ths.
Proof.
  intros Ht Ha. rewrite <- (insert_id ths t th Ht) at 2. rewrite <- (insert_delete_eq ths t).
  rewrite woken_insert_fresh by apply lookup_delete_eq. rewrite Ha. cbn. lia.
Qed.

(** Some awake thread tests [s] again when the count is positive. *)
Lemma woken_pos s ths : 0 < woken s ths -> exists t th, ths !! t = Some th /\ awake s th = true.
Proof.
  unfold woken. intros Hs. destruct (map_choose (filter (fun p => awake s p.2 = true) ths)) as (t & th & Ht).
  { intros E. rewrite E, map_size_empty in Hs. lia. }
  apply map_lookup_filter_Some in Ht as [Ht Ha]. eauto.
Qed.

Lemma sems_ok_insert e ths sms t th th' :
  ths !! t = Some th -> (forall s, awake s th = true -> awake s th' = true) ->
  (status th = BLOCKED -> status th' = BLOCKED /\ target (machineState th') = target (machineState th)) ->
  sems_ok e ths sms -> sems_ok e (<[t := th']> ths) sms.
Proof.
  intros Ht Haw Hb Hok s sem Hs. destruct (Hok s sem Hs) as [Hnd Hv Hm Hw]. split; [done..| |].
  - intros x Hx. destruct (Hm x Hx) as (thx & Hthx & Hst & Htg). destruct (decide (x = t)) as [->|Hne].
    + assert (thx = th) as -> by congruence. rewrite lookup_insert_eq. destruct (Hb Hst) as [? Htg'].
      exists th'. by rewrite Htg'.
    + rewrite lookup_insert_ne by done. eauto.
  - intros Hq. specialize (Hw Hq). rewrite (woken_insert s ths t th th' Ht). specialize (Haw s).
    destruct (awake s th), (awake s th'); cbn [Z.b2z]; lia.
Qed.

Lemma sems_ok_fresh e ths sms t th : ths !! t = None -> sems_ok e ths sms -> sems_ok e (<[t := th]> ths) sms.
Proof.
  intros Ht Hok s sem Hs. destruct (Hok s sem Hs) as [Hnd Hv Hm Hw]. split; [done..| |].
  - intros x Hx. destruct (Hm x Hx) as (thx & Hthx & ?). exists thx. rewrite lookup_insert_ne by congruence. eauto.
  - intros Hq. specialize (Hw Hq). rewrite woken_insert_fresh by done. destruct (awake s th); cbn [Z.b2z]; lia.
Qed.

Lemma sems_ok_delete e ths sms t th :
  ths !! t = Some th -> target (machineState th) = None -> sems_ok e ths sms -> sems_ok e (delete t ths) sms.
Proof.
  intros Ht Htg Hok s sem Hs. destruct (Hok s sem Hs) as [Hnd Hv Hm Hw]. split; [done..| |].
  - intros x Hx. destruct (Hm x Hx) as (thx & Hthx & Hst & Htx). exists thx. rewrite lookup_delete_ne by congruence. eauto.
  - intros Hq. rewrite (woken_delete s ths t th Ht); [auto|]. by apply awake_no_target.
Qed.

Lemma sems_ok_weaken s ths sms : sems_ok None ths sms -> sems_ok (Some s) ths sms.
Proof.
  intros Hok s' sem Hs. destruct (Hok s' sem Hs) as [? ? ? Hw]. split; [done..|]. intros Hq. specialize (Hw Hq).
  rewrite bool_decide_eq_false_2 in Hw by done. case_bool_decide; lia.
Qed.

Lemma user_ok_insert ths sps m t th th' :
  ths !! t = Some th -> stack th' = stack th -> userRegisters th' = userRegisters th -> space th' = space th ->
  user_ok ths sps m -> user_ok (<[t := th']> ths) sps m.
Proof.
  intros Ht E1 E2 E3 [Hu ? ?]. split; [|done..]. intros x thx Hx. destruct (decide (x = t)) as [->|Hne].
  - rewrite lookup_insert_eq in Hx. injection Hx as <-. unfold thread_user_ok. rewrite E1, E2, E3. exact (Hu t th Ht).
  - rewrite lookup_insert_ne in Hx by done. eauto.
Qed.

Lemma user_ok_new ths sps m t th :
  thread_user_ok sps th -> user_ok ths sps m -> user_ok (<[t := th]> ths) sps m.
Proof.
  intros Hth [Hu ? ?]. split; [|done..]. intros x thx Hx. destruct (decide (x = t)) as [->|Hne].
  - rewrite lookup_insert_eq in Hx. by injection Hx as <-.
  - rewrite lookup_insert_ne in Hx by done. eauto.
Qed.

Lemma user_ok_delete ths sps m t : user_ok ths sps m -> user_ok (delete t ths) sps m.
Proof. intros [Hu ? ?]. split; [|done..]. intros x thx Hx. apply lookup_delete_Some in Hx as [_ Hx]. eauto. Qed.

(** ** Updates of the current thread *)
Lemma set_set_thread t a b k : set_thread t a (set_thread t b k) = set_thread t a k.
Proof. unfold set_thread, with_threads. cbn. by rewrite insert_insert_eq. Qed.

Lemma deref_Some {K A} `{Countable K} (h : gmap K A) p x : h !! p = Some x -> deref h p = Ok x.
Proof. unfold deref. by intros ->. Qed.

Lemma push_ok fs k th :
  threads k !! currentThread k = Some th ->
  push fs k = Ok (set_thread (currentThread k) (with_state (fs ++ machineState th) th) k).
Proof. intros Ht. unfold push. by rewrite (deref_Some _ _ _ Ht). Qed.

Lemma push_set fs k th :
  push fs (set_thread (currentThread k) th k) = Ok (set_thread (currentThread k) (with_state (fs ++ machineState th) th) k).
Proof.
  rewrite (push_ok _ _ th) by (cbn; by rewrite lookup_insert_eq). f_equal. apply set_set_thread.
Qed.

(** ** Saving and restoring the user context *)
Lemma save_user_ok k t th :
  user_ok (threads k) (spaces k) (machine k) -> threads k !! t = Some th ->
  exists r sps, save_user t k = Ok (set_thread t (with_regs r th) (with_spaces sps k)) /\
    user_ok (<[t := with_regs r th]> (threads k)) sps (machine k) /\
    (forall a, space th = Some a -> r = registers (machine k) /\
       exists sp, spaces k !! a = Some sp /\
         sps = <[a := AddrSpace.mkAddrSpace (FileAddr sp) (pageTable sp) (numPages sp) (registers (machine k))]> (spaces k)).
Proof.
  intros Hu Ht. pose proof (u_threads _ _ _ Hu t th Ht) as (Hst & Hl & Hsp). unfold save_user.
  rewrite (deref_Some _ _ _ Ht). cbn [mbind outcome_bind]. destruct (space th) as [a|] eqn:Ea.
  - destruct (Hsp a eq_refl) as [sp Ha]. unfold SaveUserState. rewrite (deref_Some _ _ _ Ht). cbn [mbind outcome_bind].
    rewrite read_registers_ok by (done || apply Hu). cbn [mbind outcome_bind].
    cbn [spaces set_thread with_threads machine]. rewrite (deref_Some _ _ _ Ha). cbn [mbind outcome_bind].
    rewrite SaveState_ok by (apply Hu || by eapply u_spaces). cbn [mbind outcome_bind].
    exists (registers (machine k)), (<[a := AddrSpace.mkAddrSpace (FileAddr sp) (pageTable sp) (numPages sp) (registers (machine k))]> (spaces k)).
    split; [reflexivity|]. split; [|by intros ? [= <-]; eauto].
    split; [|..|apply Hu].
    + intros x thx Hx. assert (forall th0, thread_user_ok (spaces k) th0 ->
        thread_user_ok (<[a := AddrSpace.mkAddrSpace (FileAddr sp) (pageTable sp) (numPages sp) (registers (machine k))]> (spaces k)) th0) as Hmono.
      { intros th0 (? & ? & H0). split_and!; [done..|]. intros b Hb. destruct (H0 b Hb) as [spb Hspb].
        destruct (decide (a = b)) as [->|]; [rewrite lookup_insert_eq|rewrite lookup_insert_ne by done]; eauto. }
      apply Hmono. destruct (decide (x = t)) as [->|Hne].
      * rewrite lookup_insert_eq in Hx. injection Hx as <-. split_and!; [done|apply Hu|]. cbn. rewrite Ea. intros ? [= <-]. eauto.
      * rewrite lookup_insert_ne in Hx by done. by eapply u_threads.
    + intros b spb Hb. destruct (decide (a = b)) as [->|]; [rewrite lookup_insert_eq in Hb|rewrite lookup_insert_ne in Hb by done].
      * injection Hb as <-. apply Hu.
      * by eapply u_spaces.
  - assert (with_regs (userRegisters th) th = th) as Eth by by destruct th.
    exists (userRegisters th), (spaces k). rewrite Eth, insert_id by done. split_and!; [|done|done].
    unfold set_thread, with_threads, with_spaces. cbn. rewrite insert_id by done. by destruct k.
Qed.

Lemma restore_user_ok k t th :
  user_ok (threads k) (spaces k) (machine k) -> threads k !! t = Some th ->
  exists m, restore_user t k = Ok (with_machine m k) /\ length (registers m) = Z.to_nat NumTotalRegs /\
    (forall a sp, space th = Some a -> spaces k !! a = Some sp ->
       registers m = s_reg sp /\ Machine.pageTable m = pageTable sp /\ pageTableSize m = numPages sp /\
       Machine.FileAddr m = FileAddr sp /\ mainMemory m = mainMemory (machine k)).
Proof.
  intros Hu Ht. pose proof (u_threads _ _ _ Hu t th Ht) as (Hst & Hl & Hsp). unfold restore_user.
  rewrite (deref_Some _ _ _ Ht). cbn [mbind outcome_bind]. destruct (space th) as [a|] eqn:Ea.
  - destruct (Hsp a eq_refl) as [sp Ha]. unfold RestoreUserState. rewrite (deref_Some _ _ _ Ht). cbn [mbind outcome_bind].
    rewrite (write_registers_ok (userRegisters th)); [|done|apply Hu|].
    2: { intros i v m' Hv Hi. by rewrite (arr_get_Some _ _ _ Hi Hv). }
    cbn [mbind outcome_bind spaces with_machine]. rewrite (deref_Some _ _ _ Ha). cbn [mbind outcome_bind machine with_machine].
    rewrite RestoreState_ok; [|done|by eapply u_spaces]. cbn [mbind outcome_bind].
    eexists. split; [reflexivity|]. split; [by eapply (u_spaces _ _ _ Hu)|]. intros ? ? [= <-] ?. by simplify_eq.
  - exists (machine k). split_and!; [by destruct k|apply Hu|done].
Qed.

(** ** Dispatching *)

(** The synchronization objects and what every thread has to do. *)
Record same_sync (k k' : Kernel) : Prop := {
  ss_sems : sems k' = sems k;
  ss_holder : lockHolder k' = lockHolder k;
  ss_wait : waitQueue k' = waitQueue k;
  ss_lists : synchLists k' = synchLists k;
  ss_devs : devices k' = devices k;
  ss_num : threadNum k' = threadNum k;
}.

Lemma same_sync_refl k : same_sync k k.
Proof. done. Qed.

Lemma conts_set k t th th' :
  threads k !! t = Some th -> cont (machineState th') = cont (machineState th) -> conts (set_thread t th' k) = conts k.
Proof.
  intros Ht Hc. unfold conts. cbn. rewrite fmap_insert. apply insert_id. by rewrite lookup_fmap, Ht, Hc.
Qed.

Lemma conts_set_ne k t th : conts (set_thread t th k) = <[t := cont (machineState th)]> (conts k).
Proof. unfold conts. cbn. by rewrite fmap_insert. Qed.

Lemma leaving_tail fin k st ms :
  leaving fin k st ms -> target (RunTail :: ms) = target ms /\ cont (RunTail :: ms) = cont ms.
Proof. intros []; [|done..]. inv H2; done. Qed.

Lemma leaving_off fin k st ms : leaving fin k st ms -> intLevel k = IntOff /\ toBeDestroyed k = None.
Proof. by intros []. Qed.

Lemma parked_any_destroy sms d t st ms : parked sms None t st ms -> parked sms d t st ms.
Proof. inversion 1; by constructor. Qed.

Lemma assert_off k : intLevel k = IntOff -> ASSERT (bool_decide (intLevel k = IntOff)) = Ok tt.
Proof. by intros ->. Qed.

(** [Run] up to the switch. *)
Lemma Run_ok k n fin cth :
  user_ok (threads k) (spaces k) (machine k) -> intLevel k = IntOff -> (fin = true -> toBeDestroyed k = None) ->
  threads k !! currentThread k = Some cth -> is_Some (threads k !! n) ->
  exists r sps nth, let cth' := with_state (RunTail :: machineState cth) (with_regs r cth) in
    let ths1 := <[currentThread k := cth']> (threads k) in
    ths1 !! n = Some nth /\ user_ok ths1 sps (machine k) /\
    (forall a, space cth = Some a -> r = registers (machine k) /\
       exists sp, spaces k !! a = Some sp /\
         sps = <[a := AddrSpace.mkAddrSpace (FileAddr sp) (pageTable sp) (numPages sp) (registers (machine k))]> (spaces k)) /\
    Run n fin k = Ok (mkKernel (intLevel k) (readyList k) (if fin then Some (currentThread k) else toBeDestroyed k)
      n (threadNum k) (<[n := with_tstatus RUNNING nth]> ths1) sps (machine k) (sems k) (lockHolder k)
      (waitQueue k) (synchLists k) (devices k)).
Proof.
  intros Hu Hl Hd Hc Hn. unfold Run. rewrite (assert_off k Hl). cbn [mbind outcome_bind].
  set (k1 := if fin then with_destroy (Some (currentThread k)) k else k).
  assert ((if fin then _ ← ASSERT (bool_decide (toBeDestroyed k = None)); Ok (with_destroy (Some (currentThread k)) k)
           else Ok k) = Ok k1) as ->.
  { unfold k1. destruct fin; [|done]. by rewrite Hd, bool_decide_eq_true_2. }
  cbn [mbind outcome_bind].
  assert (threads k1 = threads k /\ spaces k1 = spaces k /\ machine k1 = machine k) as (E1 & E2 & E3) by (unfold k1; by destruct fin).
  destruct (save_user_ok k1 (currentThread k) cth) as (r & sps & -> & Hu' & Hsv); [by rewrite E1, E2, E3|by rewrite E1|].
  rewrite E2, E3 in Hsv.
  cbn [mbind outcome_bind]. rewrite (deref_Some _ _ (with_regs r cth)) by (cbn; by rewrite lookup_insert_eq).
  cbn [mbind outcome_bind]. assert (CheckOverflow (with_regs r cth) = Ok tt) as ->.
  { destruct (u_threads _ _ _ Hu _ _ Hc) as (Hst & _). unfold CheckOverflow. cbn. by destruct Hst as [->| ->]. }
  cbn [mbind outcome_bind].
  assert (currentThread (set_thread (currentThread k) (with_regs r cth) (with_spaces sps k1)) = currentThread k) as Ecur by (unfold k1; by destruct fin).
  rewrite (push_ok _ _ (with_regs r cth)) by (rewrite Ecur; cbn; by rewrite lookup_insert_eq).
  rewrite Ecur, set_set_thread. cbn [mbind outcome_bind threads with_current set_thread with_threads with_spaces].
  rewrite E1. set (cth' := with_state ([RunTail] ++ machineState (with_regs r cth)) (with_regs r cth)).
  assert (is_Some (<[currentThread k := cth']> (threads k) !! n)) as [nth Hnth].
  { destruct (decide (currentThread k = n)) as [->|]; [rewrite lookup_insert_eq|rewrite lookup_insert_ne by done]; eauto. }
  rewrite (deref_Some _ _ _ Hnth). exists r, sps, nth. split; [done|]. split_and!; [|done|].
  - rewrite E1, E3 in Hu'. rewrite <- (insert_insert_eq (threads k) (currentThread k) cth' (with_regs r cth)).
    eapply user_ok_insert; [| | | |exact Hu']; [by rewrite lookup_insert_eq|done..].
  - by destruct fin.
Qed.

(** What the scheduler finds on the ready list. *)
Lemma ready_head ths n r : ready_ok ths (n :: r) -> exists th, ths !! n = Some th /\ status th = READY.
Proof. intros Hr. apply (r_mem _ _ Hr). by left. Qed.

Lemma dispatch_ok k n r fin :
  sched_inv None (leaving fin) k -> readyList k = n :: r ->
  exists k', Run n fin (with_ready r k) = Ok k' /\ sched_inv None active k' /\ same_sync k k' /\ conts k' = conts k /\
    currentThread k' = n /\ readyList k' = r.
Proof.
  intros [(cth & Hc & HC) Hoth Hr Hs Hd Hu] Er. rewrite Er in Hr.
  destruct (leaving_off _ _ _ _ HC) as [Hl Hdn]. destruct (leaving_tail _ _ _ _ HC) as [Htg Hct].
  destruct (ready_head _ _ _ Hr) as (nth0 & Hn0 & Hn0st).
  destruct (Run_ok (with_ready r k) n fin cth) as (rg & sps & nth & Hn & Hu' & _ & HRun); [done..|by eexists|].
  cbn [threads with_ready currentThread machine intLevel readyList toBeDestroyed threadNum sems lockHolder waitQueue synchLists devices] in *.
  set (cth' := with_state (RunTail :: machineState cth) (with_regs rg cth)) in *.
  assert (status nth = READY /\ (n = currentThread k -> nth = cth') /\ (n <> currentThread k -> nth = nth0)) as (Hnst & Hn1 & Hn2).
  { destruct (decide (currentThread k = n)) as [<-|Hne].
    - rewrite lookup_insert_eq in Hn. injection Hn as <-. split_and!; [|done|done]. cbn. congruence.
    - rewrite lookup_insert_ne in Hn by done. by simplify_eq. }
  assert (ready_ok (<[currentThread k := cth']> (threads k)) (n :: r)) as Hr1 by by eapply ready_ok_insert.
  assert (sems_ok None (<[currentThread k := cth']> (threads k)) (sems k)) as Hs1.
  { eapply sems_ok_insert; [done| | |done]; unfold awake, cth'; tsimpl; by rewrite Htg. }
  eexists. split; [exact HRun|]. split; [split; cbn|].
  - rewrite lookup_insert_eq. eexists. split; [done|]. cbn. apply active_rest; [done|].
    destruct (decide (n = currentThread k)) as [E|Hne].
    + rewrite (Hn1 E) in *. unfold cth' in *. tsimpl. rewrite Hnst in HC. by inv HC.
    + rewrite (Hn2 Hne). specialize (Hoth n nth0 Hne Hn0). rewrite Hn0st in Hoth. by inv Hoth.
  - intros t th Ht. rewrite lookup_insert_ne by done. destruct (decide (currentThread k = t)) as [<-|Hne].
    + rewrite lookup_insert_eq. intros [= <-]. cbn. destruct HC; [by constructor|subst; by constructor|subst; by constructor].
    + rewrite lookup_insert_ne by done. intros Hth. specialize (Hoth t th (not_eq_sym Hne) Hth).
      destruct fin; [|done]. apply parked_any_destroy. by rewrite Hdn in Hoth.
  - eapply ready_ok_take; [done|done|exact Hr1].
  - eapply sems_ok_insert; [done| | |exact Hs1]; [|congruence]. intros s. unfold awake. by rewrite Hnst.
  - intros d. destruct fin; [|congruence]. intros [= <-]. inv HC; [done..|].
    assert (n <> currentThread k) as Hne by (intros ->; congruence).
    split; [congruence|]. rewrite lookup_insert_ne, lookup_insert_eq by done. eexists. split; [done|]. cbn. by split; congruence.
  - by eapply user_ok_insert.
  - split; [done|]. split; [|done]. unfold conts. cbn. rewrite !fmap_insert.
    assert (<[currentThread k:=cont (machineState cth')]> ((λ th, cont (machineState th)) <$> threads k) = ((λ th, cont (machineState th)) <$> threads k)) as E.
    { apply insert_id. rewrite lookup_fmap, Hc. cbn. by rewrite <- Hct. }
    rewrite E. apply insert_id. change (machineState (with_tstatus RUNNING nth)) with (machineState nth).
    assert (((λ th, cont (machineState th)) <$> <[currentThread k := cth']> (threads k)) !! n = Some (cont (machineState nth))) as E2.
    { by rewrite lookup_fmap, Hn. }
    by rewrite fmap_insert, E in E2.
Qed.

(** ** Operations of the running thread

    [running]: the current thread is in kernel code that does not block, its
    next action taken from its list. *)
Definition running (k : Kernel) (st : ThreadStatus) (ms : list action) : Prop :=
  st = RUNNING /\ toBeDestroyed k = None /\ target ms = None.

(** The current thread gets another list of actions. *)
Lemma replace_current e' C C' k th ms :
  sched_inv None C k -> threads k !! currentThread k = Some th ->
  (forall s, awake s th = true -> target ms = Some s \/ e' = Some s) ->
  (status th = BLOCKED -> target ms = target (machineState th)) ->
  C' (set_thread (currentThread k) (with_state ms th) k) (status th) ms ->
  sched_inv e' C' (set_thread (currentThread k) (with_state ms th) k).
Proof.
  intros [_ Hoth Hr Hs Hd Hu] Hc Haw Htg HC'. split; ksimpl.
  - rewrite lookup_insert_eq. eauto.
  - intros t tht Ht. rewrite lookup_insert_ne by done. auto.
  - by eapply ready_ok_insert.
  - intros s sem Hsem. destruct (Hs s sem Hsem) as [Hnd Hv Hm Hw]. split; [done..| |].
    + intros x Hx. destruct (Hm x Hx) as (thx & Hthx & Hst & Htx). destruct (decide (x = currentThread k)) as [->|Hne].
      * rewrite lookup_insert_eq. eexists. split; [done|]. simplify_eq. tsimpl. by rewrite Htg.
      * rewrite lookup_insert_ne by done. eauto.
    + intros Hq. specialize (Hw Hq). rewrite (woken_insert s _ _ th _ Hc). pose proof (woken_nonneg s (threads k)).
      specialize (Haw s). unfold awake in *. tsimpl. rewrite (bool_decide_eq_false_2 (None = Some s)) in Hw by done.
      destruct (bool_decide (status th = BLOCKED)); cbn [negb andb Z.b2z] in *; [case_bool_decide; lia|].
      destruct (bool_decide (target (machineState th) = Some s)), (bool_decide_reflect (target ms = Some s)),
        (bool_decide_reflect (e' = Some s)); cbn [Z.b2z] in *; try lia; naive_solver.
  - intros d Hdd. destruct (Hd d Hdd) as (Hne & thd & Hthd & ?). split; [done|]. rewrite lookup_insert_ne by done. eauto.
  - by eapply user_ok_insert.
Qed.

Lemma running_replace k th ms :
  sched_inv None running k -> threads k !! currentThread k = Some th -> target ms = None ->
  sched_inv None running (set_thread (currentThread k) (with_state ms th) k).
Proof.
  intros Hk Hc Hms. destruct (si_cur _ _ _ Hk) as (th' & Hc' & Hst & Hd & Htg). simplify_eq.
  eapply replace_current; [done|done| |congruence|done]. intros s. by rewrite awake_no_target.
Qed.

Lemma ReadyToRun_ok k t th :
  intLevel k = IntOff -> threads k !! t = Some th -> status th <> READY -> ready_ok (threads k) (readyList k) ->
  let ths := <[t := with_tstatus READY th]> (threads k) in
  ReadyToRun t k = Ok (with_ready (Spec.place (Compare ths) (readyList k) t) (with_threads ths k)).
Proof.
  intros Hl Ht Hst Hr. unfold ReadyToRun. rewrite (assert_off k Hl). cbn [mbind outcome_bind].
  rewrite (deref_Some _ _ _ Ht). cbn [mbind outcome_bind]. ksimpl. unfold Spec.insert.
  rewrite bool_decide_eq_true_2; [done|]. intros Hin. apply (r_mem _ _ Hr) in Hin as (? & ? & ?). congruence.
Qed.

Lemma FindNextToRun_ok k :
  intLevel k = IntOff ->
  FindNextToRun k = Ok (match readyList k with [] => (k, None) | t :: r => (with_ready r k, Some t) end).
Proof. intros Hl. unfold FindNextToRun. rewrite (assert_off k Hl). by destruct (readyList k). Qed.

(** [Thread::Yield] *)
Lemma Yield_ok k th :
  sched_inv None running k -> threads k !! currentThread k = Some th ->
  exists k', Yield k = Ok k' /\ sched_inv None active k' /\ same_sync k k' /\
    conts k' = <[currentThread k := machineState th]> (conts k) /\
    currentThread k' :: readyList k' =
      Spec.place (Compare (<[currentThread k := with_tstatus READY th]> (threads k))) (readyList k) (currentThread k).
Proof.
  intros [(th' & Hc' & Hst & Hdn & Htg) Hoth Hr Hs Hd Hu] Hc. assert (th' = th) as -> by congruence. unfold Yield.
  rewrite (ReadyToRun_ok _ _ th) by (done || congruence). cbn [mbind outcome_bind]. ksimpl.
  set (ths := <[currentThread k := with_tstatus READY th]> (threads k)).
  rewrite FindNextToRun_ok by done. cbn [mbind outcome_bind]. ksimpl.
  pose proof (ready_ok_add _ _ _ th Hc ltac:(congruence) Hr) as Hr'. cbn zeta in Hr'. fold ths in Hr'.
  destruct (Spec.place (Compare ths) (readyList k) (currentThread k)) as [|n r] eqn:Ep.
  { exfalso. pose proof (elem_of_place (Compare ths) (readyList k) (currentThread k) (currentThread k)) as [_ Hp].
    rewrite Ep in Hp. set_solver. }
  cbn [mbind outcome_bind]. rewrite (push_ok _ _ (with_tstatus READY th)) by (ksimpl; unfold ths; by rewrite lookup_insert_eq).
  cbn [mbind outcome_bind]. ksimpl.
  set (th2 := with_state ([SetLevel_ (intLevel k)] ++ machineState (with_tstatus READY th)) (with_tstatus READY th)).
  assert (set_thread (currentThread k) th2 (with_ready r (with_ready (n :: r) (with_threads ths (with_intLevel IntOff k)))) =
    with_ready r (set_thread (currentThread k) th2 (with_ready (n :: r) (with_intLevel IntOff k)))) as ->.
  { unfold set_thread, with_threads, with_ready. cbn. unfold ths. by rewrite insert_insert_eq. }
  edestruct (dispatch_ok (set_thread (currentThread k) th2 (with_ready (n :: r) (with_intLevel IntOff k))) n r false)
    as (k' & HR & Hi & Hss & Hct & Hcur & Hrl).
  2: done.
  - split; ksimpl.
    + rewrite lookup_insert_eq. eexists. split; [done|]. by repeat constructor.
    + intros t tht Ht. rewrite lookup_insert_ne by done. auto.
    + replace (<[currentThread k:=th2]> (threads k)) with (<[currentThread k:=th2]> ths) by (unfold ths; by rewrite insert_insert_eq).
      eapply ready_ok_insert; [| | |exact Hr']; [unfold ths; by rewrite lookup_insert_eq|done..].
    + eapply sems_ok_insert; [done| |congruence|done]. intros s. by rewrite awake_no_target.
    + congruence.
    + by eapply user_ok_insert.
  - exists k'. split_and!; [exact HR|done|by destruct Hss| |by rewrite Hcur, Hrl]. rewrite Hct. by rewrite conts_set_ne.
Qed.

(** [Thread::Sleep] from its loop on. *)
Lemma sleep_loop_ok fin k :
  sched_inv None (leaving fin) k ->
  exists k', sleep_loop fin k = Ok k' /\ sched_inv None active k' /\ same_sync k k' /\ conts k' = conts k.
Proof.
  intros Hk. destruct (si_cur _ _ _ Hk) as (th & Hc & HC). destruct (leaving_off _ _ _ _ HC) as [Hl Hdn].
  unfold sleep_loop. rewrite FindNextToRun_ok by done. destruct (readyList k) as [|n r] eqn:Er; cbn [mbind outcome_bind].
  - rewrite (push_ok _ _ th) by done. eexists. split; [done|]. cbn [app].
    assert (status th = BLOCKED /\ target (SleepLoop fin :: machineState th) = target (machineState th) /\
      cont (SleepLoop fin :: machineState th) = cont (machineState th) /\
      active k (status th) (SleepLoop fin :: machineState th)) as (Hst & Htg & Hct & Ha).
    { remember (status th) as st eqn:Est. destruct HC; subst; [|split_and!; [done..|by econstructor]..]. exfalso.
      pose proof (proj2 (r_mem _ _ (si_ready _ _ _ Hk) (currentThread k)) (ex_intro _ th (conj Hc (eq_sym Est)))) as Hin.
      rewrite Er in Hin. set_solver. }
    split_and!; [|done|by apply conts_set with th].
    eapply replace_current; [done|done| | |].
    + intros s. unfold awake. by rewrite Hst.
    + done.
    + remember (status th) as st. destruct Ha; try discriminate; econstructor; done.
  - destruct (dispatch_ok k n r fin Hk Er) as (k' & ? & ? & ? & ? & _). eauto.
Qed.

(** [Thread::Finish] *)
Lemma Finish_ok k th :
  sched_inv None running k -> threads k !! currentThread k = Some th -> machineState th = [] ->
  exists k', Finish k = Ok k' /\ sched_inv None active k' /\ same_sync k k' /\ conts k' = conts k.
Proof.
  intros [(th' & Hc' & Hst & Hdn & Htg) Hoth Hr Hs Hd Hu] Hc Hms. assert (th' = th) as -> by congruence. unfold Finish, Sleep. ksimpl.
  cbn [bool_decide decide IntStatus_eq_dec]. rewrite (deref_Some _ _ _ Hc).
  rewrite (bool_decide_eq_true_2 (IntOff = IntOff)) by done. cbn [ASSERT mbind outcome_bind].
  edestruct (sleep_loop_ok true (set_thread (currentThread k) (with_tstatus BLOCKED th) (with_intLevel IntOff k)))
    as (k' & -> & Hk' & Hss & Hct).
  - split; ksimpl.
    + rewrite lookup_insert_eq. eexists. split; [done|]. tsimpl. rewrite Hms. by constructor.
    + intros t tht Ht. rewrite lookup_insert_ne by done. auto.
    + eapply ready_ok_insert; [done|done| |done]. tsimpl. rewrite Hst. done.
    + eapply sems_ok_insert; [done| |congruence|done]. intros s. by rewrite awake_no_target.
    + congruence.
    + by eapply user_ok_insert.
  - exists k'. split_and!; [done..|by destruct Hss|]. rewrite Hct. by rewrite (conts_set _ _ th).
Qed.

(** ** Semaphores *)
Lemma queued_insert sms s sem sem' x t :
  sms !! s = Some sem -> (t ∈ queue sem -> t ∈ queue sem') -> queued sms x t -> queued (<[s := sem']> sms) x t.
Proof.
  intros Hs Hsub (sx & Hx & Hin). destruct (decide (s = x)) as [->|Hne].
  - exists sem'. rewrite lookup_insert_eq. simplify_eq. auto.
  - exists sx. by rewrite lookup_insert_ne.
Qed.

Lemma parked_queued sms sms' d t st ms :
  (forall s, queued sms s t -> queued sms' s t) -> parked sms d t st ms -> parked sms' d t st ms.
Proof. intros Hq []; constructor; auto. Qed.

(** The sleeping half of [P]: the thread queues up and gives up the CPU. *)
Lemma P_block_ok s ol k th sem :
  sched_inv (Some s) running k -> threads k !! currentThread k = Some th -> intLevel k = IntOff ->
  sems k !! s = Some sem -> value sem = 0 ->
  exists k', P_loop s ol k = Ok k' /\ sched_inv None active k' /\
    same_sync (set_sem s (mkSem 0 (queue sem ++ [currentThread k])) k) k' /\
    conts k' = <[currentThread k := P_ s :: machineState th]> (conts k).
Proof.
  intros [(th' & Hc' & Hst & Hdn & Htg) Hoth Hr Hs Hd Hu] Hc Hl Hsem Hv. assert (th' = th) as -> by congruence.
  unfold P_loop. rewrite (deref_Some _ _ _ Hsem). cbn [mbind outcome_bind]. rewrite Hv. cbn [Z.eqb].
  assert (currentThread k ∉ queue sem) as Hnin.
  { intros Hin. destruct (s_mem _ _ _ _ (Hs s sem Hsem) _ Hin) as (? & ? & ? & ?). congruence. }
  unfold Spec.append. rewrite bool_decide_eq_true_2 by done. cbn [ASSERT mbind outcome_bind].
  set (sem' := mkSem 0 (queue sem ++ [currentThread k])).
  rewrite (push_ok _ _ th) by done. cbn [mbind outcome_bind app]. unfold Sleep. ksimpl.
  rewrite Hl. rewrite (bool_decide_eq_true_2 (IntOff = IntOff)) by done. cbn [ASSERT mbind outcome_bind].
  rewrite (deref_Some _ _ (with_state (PLoop s ol :: machineState th) th)) by (ksimpl; by rewrite lookup_insert_eq).
  cbn [mbind outcome_bind]. rewrite set_set_thread.
  set (th2 := with_tstatus BLOCKED (with_state (PLoop s ol :: machineState th) th)).
  edestruct (sleep_loop_ok false (set_thread (currentThread k) th2 (set_sem s sem' k))) as (k' & -> & Hk' & Hss & Hct).
  - split; ksimpl.
    + rewrite lookup_insert_eq. eexists. split; [done|]. tsimpl. apply leaving_P; [done..|].
      exists sem'. ksimpl. rewrite lookup_insert_eq. split; [done|]. cbn. set_solver.
    + intros t tht Ht. rewrite lookup_insert_ne by done. intros Htht. eapply parked_queued; [|eauto].
      intros x. apply queued_insert with sem; [done|]. cbn. set_solver.
    + eapply ready_ok_insert; [done|done| |done]. tsimpl. rewrite Hst. done.
    + intros x semx Hx. destruct (decide (s = x)) as [<-|Hne].
      * rewrite lookup_insert_eq in Hx. injection Hx as <-. destruct (Hs s sem Hsem) as [Hnd Hv0 Hm Hw]. split; unfold sem'; cbn [queue value].
        -- apply NoDup_app. split_and!; [done|set_solver|]. apply NoDup_singleton.
        -- lia.
        -- intros t Hin. destruct (decide (t = currentThread k)) as [->|Hnt].
           ++ rewrite lookup_insert_eq. by eexists.
           ++ rewrite lookup_insert_ne by done. apply Hm. set_solver.
        -- intros _. apply Z.add_nonneg_nonneg; [apply woken_nonneg|]. by case_bool_decide.
      * rewrite lookup_insert_ne in Hx by done. destruct (Hs x semx Hx) as [Hnd Hv0 Hm Hw]. split; [done..| |].
        -- intros t Hin. destruct (Hm t Hin) as (tht & Htht & Hstt & ?). exists tht. rewrite lookup_insert_ne by congruence. eauto.
        -- intros Hq. specialize (Hw Hq). rewrite (woken_insert x _ _ th _ Hc), awake_no_target by done.
           replace (bool_decide (Some s = Some x)) with false in Hw by (by rewrite bool_decide_eq_false_2 by congruence).
           change (awake x th2) with false. rewrite (bool_decide_eq_false_2 (None = Some x)) by done. cbn [Z.b2z] in *. lia.
    + congruence.
    + by eapply user_ok_insert.
  - exists k'. split_and!; [done|done|by destruct Hss|]. rewrite Hct. by rewrite conts_set_ne.
Qed.

(** Storing a semaphore whose queue has not lost a thread. *)
Lemma running_sems e k sms :
  sched_inv e running k -> sems_ok None (threads k) sms ->
  (forall s t, queued (sems k) s t -> queued sms s t) -> sched_inv None running (with_sems sms k).
Proof.
  intros [Hc Hoth Hr Hs Hd Hu] Hok Hq. split; [done| |done|done|done|done].
  intros t th Ht Hth. ksimpl. eapply parked_queued; [|eauto]. auto.
Qed.

(** The other half: the value is consumed. *)
Lemma P_pass_ok s ol k sem :
  sched_inv (Some s) running k -> sems k !! s = Some sem -> value sem <> 0 ->
  let k' := with_intLevel ol (set_sem s (mkSem (value sem - 1) (queue sem)) k) in
  P_loop s ol k = Ok k' /\ sched_inv None running k'.
Proof.
  intros Hk Hsem Hv k'. pose proof (si_sems _ _ _ Hk s sem Hsem) as [Hnd Hr Hm Hw].
  unfold P_loop. rewrite (deref_Some _ _ _ Hsem). cbn [mbind outcome_bind]. rewrite (proj2 (Z.eqb_neq _ _) Hv).
  rewrite int_add_Ok by (unfold is_int; lia). split; [done|].
  assert (sched_inv None running (set_sem s (mkSem (value sem - 1) (queue sem)) k)) as Hk'.
  2: { by destruct Hk'. }
  eapply running_sems; [done| |].
  - intros x semx Hx. destruct (decide (s = x)) as [<-|Hne].
    + rewrite lookup_insert_eq in Hx. injection Hx as <-. split; cbn [queue value]; [done|lia|done|]. intros Hq. specialize (Hw Hq).
      rewrite bool_decide_eq_true_2 in Hw by done. rewrite bool_decide_eq_false_2 by done. lia.
    + rewrite lookup_insert_ne in Hx by done. destruct (si_sems _ _ _ Hk x semx Hx) as [Hnd' Hr' Hm' Hw']. split; [done..|].
      intros Hq. specialize (Hw' Hq). rewrite bool_decide_eq_false_2 in Hw' by congruence. by rewrite bool_decide_eq_false_2.
  - intros x t. by apply queued_insert with sem.
Qed.

(** What [V] needs of the state of the current thread: it depends on the
    scheduler only through the queues, and a waiter may find itself woken. *)
Class Wakeable (C : Kernel -> ThreadStatus -> list action -> Prop) : Prop := {
  w_keep k k' st ms : C k st ms -> intLevel k' = intLevel k -> toBeDestroyed k' = toBeDestroyed k ->
    currentThread k' = currentThread k ->
    (forall s, queued (sems k) s (currentThread k) -> queued (sems k') s (currentThread k)) -> C k' st ms;
  w_wake k k' s ms : C k BLOCKED ms -> target ms = Some s -> intLevel k' = intLevel k ->
    toBeDestroyed k' = toBeDestroyed k -> C k' READY ms;
}.

#[export] Instance running_wakeable : Wakeable running.
Proof. split; [intros k k' st ms (? & ? & ?) ? Hd ? ?|by intros k k' s ms (? & _)]. by rewrite <- Hd in *. Qed.

#[export] Instance active_wakeable : Wakeable active.
Proof.
  split.
  - intros k k' st ms HC Hl Hd Hcur Hq. destruct HC; [apply active_plain|apply active_rest|apply active_level|apply active_retest|apply active_woken|
      apply active_idle|apply active_dying]; try congruence; try done. rewrite Hcur. auto.
  - intros k k' s ms HC Htg Hl Hd. inversion HC; subst; [|done]. by constructor; rewrite ?Hl, ?Hd.
Qed.

Lemma V_wakes e C k s sem t q th `{!Wakeable C} :
  sched_inv e C k -> sems k !! s = Some sem -> queue sem = t :: q -> threads k !! t = Some th ->
  value sem < 2 ^ 31 - 1 ->
  let ths := <[t := with_tstatus READY th]> (threads k) in
  sched_inv e C (with_ready (Spec.place (Compare ths) (readyList k) t)
    (with_threads ths (set_sem s (mkSem (value sem + 1) q) k))).
Proof.
  intros [(cth & Hc & HC) Hoth Hr Hs Hd Hu] Hsem Hq Ht Hv ths.
  pose proof (Hs s sem Hsem) as [Hnd Hv0 Hm Hw]. rewrite Hq in *. apply NoDup_cons in Hnd as [Htq Hnd].
  destruct (Hm t ltac:(left)) as (th' & Ht' & Hst & Htg). assert (th' = th) as -> by congruence.
  assert (forall x u, u <> t -> queued (sems k) x u -> queued (<[s := mkSem (value sem + 1) q]> (sems k)) x u) as Hqq.
  { intros x u Hu' Hx. eapply queued_insert; [exact Hsem| |exact Hx]. rewrite Hq. cbn. intros [->|?]%elem_of_cons; done. }
  split; ksimpl.
  - destruct (decide (t = currentThread k)) as [E|Hne].
    + unfold ths. rewrite E, lookup_insert_eq. eexists. split; [done|]. tsimpl. rewrite E in Ht. simplify_eq.
      rewrite Hst in HC. by eapply w_wake.
    + unfold ths. rewrite lookup_insert_ne by done. eexists. split; [done|]. eapply w_keep; [done..|]. ksimpl. auto.
  - intros x thx Hx Hthx. destruct (decide (t = x)) as [<-|Hne].
    + unfold ths in Hthx. rewrite lookup_insert_eq in Hthx. injection Hthx as <-. tsimpl. constructor.
      specialize (Hoth t th Hx Ht). rewrite Hst in Hoth. destruct Hoth; [done..|constructor|done].
    + unfold ths in Hthx. rewrite lookup_insert_ne in Hthx by done. eapply parked_queued; [|eauto]. auto.
  - apply ready_ok_add; [done|congruence|done].
  - intros x semx Hx. destruct (decide (s = x)) as [<-|Hne].
    + rewrite lookup_insert_eq in Hx. injection Hx as <-. split; cbn [queue value]; [done|lia| |].
      * intros u Hin. destruct (Hm u ltac:(by right)) as (thu & ? & ? & ?). exists thu. unfold ths.
        rewrite lookup_insert_ne by congruence. eauto.
      * intros _. specialize (Hw ltac:(done)). unfold ths. rewrite (woken_insert s _ _ th _ Ht).
        rewrite (awake_blocked s th), (awake_yes s (with_tstatus READY th)) by done. cbn [Z.b2z]. lia.
    + rewrite lookup_insert_ne in Hx by done. destruct (Hs x semx Hx) as [Hnd' Hv' Hm' Hw']. split; [done..| |].
      * intros u Hin. destruct (Hm' u Hin) as (thu & ? & ? & Htu). exists thu. unfold ths.
        rewrite lookup_insert_ne by congruence. eauto.
      * intros Hqx. specialize (Hw' Hqx). unfold ths. rewrite (woken_insert x _ _ th _ Ht).
        rewrite (awake_blocked x th), (awake_other x s (with_tstatus READY th)) by done. cbn [Z.b2z]. lia.
  - intros d Hdd. destruct (Hd d Hdd) as (? & thd & Hthd & ? & Hmsd). split; [done|]. exists thd. unfold ths.
    rewrite lookup_insert_ne; [done|]. intros ->. simplify_eq. by rewrite Hmsd in Htg.
  - by eapply user_ok_insert.
Qed.

Lemma set_sem_ok e C k s sem v `{!Wakeable C} :
  sched_inv e C k -> sems k !! s = Some sem -> queue sem = [] -> 0 <= v < 2 ^ 31 ->
  sched_inv e C (set_sem s (mkSem v []) k).
Proof.
  intros [(cth & Hc & HC) Hoth Hr Hs Hd Hu] Hsem Hq Hv.
  assert (forall x u, queued (sems k) x u -> queued (<[s := mkSem v []]> (sems k)) x u) as Hqq.
  { intros x u Hx. eapply queued_insert; [exact Hsem| |exact Hx]. by rewrite Hq. }
  split; ksimpl; [|..|done|done]; [| |done|].
  - eexists. split; [done|]. eapply w_keep; [done..|]. auto.
  - intros t th Ht Hth. eapply parked_queued; [|eauto]. auto.
  - intros x semx Hx. destruct (decide (s = x)) as [<-|Hne].
    + rewrite lookup_insert_eq in Hx. injection Hx as <-. split; cbn [queue value]; [constructor|lia|by intros ? ?%elem_of_nil|done].
    + rewrite lookup_insert_ne in Hx by done. auto.
Qed.

(** [Semaphore::V] *)
Lemma V_ok C k s sem `{!Wakeable C} :
  sched_inv None C k -> sems k !! s = Some sem -> value sem < 2 ^ 31 - 1 ->
  exists k', V s k = Ok k' /\ sched_inv None C k' /\
    same_sync (set_sem s (mkSem (value sem + 1) (tail (queue sem))) k) k' /\
    intLevel k' = intLevel k /\ currentThread k' = currentThread k /\
    (forall t, machineState <$> threads k' !! t = machineState <$> threads k !! t).
Proof.
  intros Hk Hsem Hv. pose proof (si_sems _ _ _ Hk s sem Hsem) as [Hnd Hv0 Hm Hw].
  unfold V. ksimpl. rewrite (deref_Some _ _ _ Hsem). cbn [mbind outcome_bind]. destruct (queue sem) as [|t q] eqn:Eq.
  - cbn [mbind outcome_bind]. ksimpl. rewrite (deref_Some _ _ _ Hsem). cbn [mbind outcome_bind].
    rewrite int_add_Ok by (unfold is_int; lia). cbn [mbind outcome_bind]. rewrite Eq.
    exists (set_sem s (mkSem (value sem + 1) []) k). split; [by destruct k|]. split_and!; [|done..].
    apply (set_sem_ok None C k s sem); (done || lia).
  - destruct (Hm t ltac:(left)) as (th & Ht & Hst & Htg).
    rewrite (ReadyToRun_ok _ _ th) by (done || apply Hk || (ksimpl; congruence)). cbn [mbind outcome_bind]. ksimpl.
    rewrite (deref_Some _ _ (mkSem (value sem) q)) by by rewrite lookup_insert_eq. cbn [mbind outcome_bind value queue].
    rewrite int_add_Ok by (unfold is_int; lia). cbn [mbind outcome_bind].
    eexists. split.
    { unfold set_sem, with_sems, with_intLevel. cbn. rewrite insert_insert_eq. reflexivity. }
    split; [exact (V_wakes None C k s sem t q th Hk Hsem Eq Ht Hv)|]. split_and!; [done..|].
    intros x. ksimpl. destruct (decide (t = x)) as [<-|]; [by rewrite lookup_insert_eq, Ht|by rewrite lookup_insert_ne].
Qed.

Lemma V_overflow e C k s sem :
  sched_inv e C k -> sems k !! s = Some sem -> value sem = 2 ^ 31 - 1 -> V s k = Err Undefined.
Proof.
  intros Hk Hsem Hv. pose proof (si_sems _ _ _ Hk s sem Hsem) as [_ _ Hm _].
  unfold V. ksimpl. rewrite (deref_Some _ _ _ Hsem). cbn [mbind outcome_bind]. destruct (queue sem) as [|t q] eqn:Eq.
  - cbn [mbind outcome_bind]. ksimpl. rewrite (deref_Some _ _ _ Hsem). cbn [mbind outcome_bind].
    rewrite int_add_overflow; [done|]. unfold is_int. lia.
  - destruct (Hm t ltac:(left)) as (th & Ht & Hst & Htg).
    rewrite (ReadyToRun_ok _ _ th) by (done || apply Hk || (ksimpl; congruence)). cbn [mbind outcome_bind]. ksimpl.
    rewrite (deref_Some _ _ (mkSem (value sem) q)) by by rewrite lookup_insert_eq. cbn [mbind outcome_bind value].
    rewrite int_add_overflow; [done|]. unfold is_int. lia.
Qed.

(** ** Resuming a thread *)

Lemma destroy_ok e C k :
  sched_inv e C k ->
  exists k', CheckToBeDestroyed k = Ok k' /\ toBeDestroyed k' = None /\ intLevel k' = intLevel k /\
    currentThread k' = currentThread k /\ same_sync k k' /\
    conts k' = match toBeDestroyed k with None => conts k | Some d => delete d (conts k) end /\
    threads k' = match toBeDestroyed k with None => threads k | Some d => delete d (threads k) end /\
    forall C', (forall st ms, C k st ms -> C' k' st ms) -> sched_inv e C' k'.
Proof.
  intros [(cth & Hc & HC) Hoth Hr Hs Hd Hu]. unfold CheckToBeDestroyed. destruct (toBeDestroyed k) as [d|] eqn:Ed.
  - destruct (Hd d eq_refl) as (Hne & thd & Hthd & Hst & Hms). rewrite bool_decide_eq_true_2 by done. cbn [ASSERT mbind outcome_bind].
    eexists. split; [done|]. ksimpl. split_and!; [done..| |done|].
    + unfold conts. ksimpl. by rewrite fmap_delete.
    + intros C' HC'. split; ksimpl.
      * rewrite lookup_delete_ne by done. eauto.
      * intros t th Ht [Hdt Hth]%lookup_delete_Some. specialize (Hoth t th Ht Hth).
        destruct Hoth; [by constructor|by constructor|congruence].
      * eapply ready_ok_delete; [done|congruence|done].
      * eapply sems_ok_delete; [done|by rewrite Hms|done].
      * done.
      * by apply user_ok_delete.
  - exists k. split_and!; [done..|]. intros C' HC'. split; rewrite ?Ed; eauto.
Qed.

(** The remaining [conts] once a finished thread is gone. *)
Definition reap (k : Kernel) (c : gmap positive (list action)) : gmap positive (list action) :=
  match toBeDestroyed k with None => c | Some d => delete d c end.

Definition resumed (k : Kernel) (st : ThreadStatus) (ms : list action) : Prop :=
  st = RUNNING /\ intLevel k = IntOff /\ at_rest (RunTail :: ms).

Lemma resumed_active k st ms : resumed k st ms -> toBeDestroyed k = None -> active k st ms.
Proof. intros (-> & Hl & Hr) Hd. inversion Hr; subst; by constructor. Qed.

(** The rest of [Run] in a thread that runs again. *)
Lemma run_tail_ok k th ms :
  sched_inv None active k -> threads k !! currentThread k = Some th -> machineState th = RunTail :: ms ->
  exists k', run_tail (set_thread (currentThread k) (with_state ms th) k) = Ok k' /\ sched_inv None active k' /\
    same_sync k k' /\ conts k' = reap k (conts k).
Proof.
  intros Hk Hc Hms. destruct (si_cur _ _ _ Hk) as (th' & Hc' & HC). assert (th' = th) as -> by congruence.
  assert (resumed k (status th) ms) as Hres.
  { rewrite Hms in HC. inversion HC; subst; try done. }
  assert (target ms = target (machineState th) /\ cont ms = cont (machineState th)) as [Htg Hct].
  { rewrite Hms. destruct Hres as (_ & _ & Hr). by inversion Hr. }
  pose proof (proj1 (proj2 Hres)) as Hl.
  assert (sched_inv None resumed (set_thread (currentThread k) (with_state ms th) k)) as Hk1.
  { eapply replace_current; [done|done| |done|done]. intros s. unfold awake. rewrite Htg.
    intros [_ H%bool_decide_eq_true]%andb_true_iff. by left. }
  unfold run_tail. rewrite assert_off by done. cbn [mbind outcome_bind].
  destruct (destroy_ok _ _ _ Hk1) as (k2 & -> & Hd2 & Hl2 & Hc2 & Hss2 & Hct2 & _ & Hinv). cbn [mbind outcome_bind].
  specialize (Hinv active). destruct Hinv as [Hcur Hoth Hr Hs Hd Hu].
  { intros st ms' (? & ? & ?). apply resumed_active; [split_and!; congruence || done|done]. }
  destruct Hcur as (th2 & Hth2 & HC2). destruct (restore_user_ok k2 (currentThread k2) th2) as (m & -> & Hm & _); [done|done|].
  eexists. split; [done|]. split_and!.
  - split; ksimpl; [|done..|].
    + eexists. split; [done|]. by eapply w_keep.
    + destruct Hu. by split.
  - by destruct Hss2.
  - transitivity (conts k2); [done|]. rewrite Hct2. unfold reap. ksimpl. by rewrite (conts_set _ _ th).
Qed.

(** [Thread::Begin] *)
Lemma Begin_ok k th ms :
  sched_inv None active k -> threads k !! currentThread k = Some th -> machineState th = Begin_ :: ms -> target ms = None ->
  exists k', Begin (set_thread (currentThread k) (with_state ms th) k) = Ok k' /\ sched_inv None running k' /\
    same_sync k k' /\ conts k' = reap k (<[currentThread k := cont ms]> (conts k)) /\
    currentThread k' = currentThread k /\ threads k' !! currentThread k = Some (with_state ms th).
Proof.
  intros Hk Hc Hms Htg. destruct (si_cur _ _ _ Hk) as (th' & Hc' & HC). assert (th' = th) as -> by congruence.
  rewrite Hms in HC. assert (status th = RUNNING) as Hst by (inversion HC; done).
  assert (sched_inv None (fun _ st ms => st = RUNNING /\ target ms = None)
    (set_thread (currentThread k) (with_state ms th) k)) as Hk1.
  { eapply replace_current; [done|done| |congruence|done]. intros s. by rewrite awake_no_target by by rewrite Hms. }
  unfold Begin. destruct (destroy_ok _ _ _ Hk1) as (k2 & -> & Hd2 & Hl2 & Hc2 & Hss2 & Hct2 & Hth2 & Hinv). cbn [mbind outcome_bind].
  specialize (Hinv running). destruct Hinv as [Hcur Hoth Hr Hs Hd Hu].
  { intros st ms' [? ?]. done. }
  eexists. split; [done|]. split_and!; [by split|by destruct Hss2| |done|].
  - transitivity (conts k2); [done|]. rewrite Hct2. unfold reap. ksimpl. by rewrite conts_set_ne.
  - ksimpl. rewrite Hth2. destruct (toBeDestroyed k) as [d|] eqn:Ed; [|by rewrite lookup_insert_eq].
    destruct (si_destroy _ _ _ Hk d Ed) as [Hne _]. by rewrite lookup_delete_ne, lookup_insert_eq.
Qed.

(** A thread that finds itself ready, or not, in the loop of [Sleep]. *)
Lemma SleepLoop_ok k th fin ms :
  sched_inv None active k -> threads k !! currentThread k = Some th -> machineState th = SleepLoop fin :: ms ->
  exists k', sleep_loop fin (set_thread (currentThread k) (with_state ms th) k) = Ok k' /\ sched_inv None active k' /\
    same_sync k k' /\ conts k' = conts k.
Proof.
  intros Hk Hc Hms. destruct (si_cur _ _ _ Hk) as (th' & Hc' & HC). assert (th' = th) as -> by congruence.
  rewrite Hms in HC.
  assert (target ms = target (machineState th) /\ cont ms = cont (machineState th) /\ leaving fin k (status th) ms) as (Htg & Hct & Hlv).
  { rewrite Hms. inversion HC; subst; try done; try (by match goal with H : at_rest _ |- _ => inversion H end); (split_and!; [done|done|]);
      [apply leaving_ready|apply leaving_P|apply leaving_end]; try congruence; try done. constructor. }
  destruct (sleep_loop_ok fin (set_thread (currentThread k) (with_state ms th) k)) as (k' & -> & Hk' & Hss & Hct').
  - eapply replace_current; [done|done| |done|].
    + intros s. unfold awake. rewrite Htg. intros [_ H%bool_decide_eq_true]%andb_true_iff. by left.
    + remember (status th) as st. destruct Hlv; by constructor.
  - exists k'. split_and!; [done|done|by destruct Hss|]. rewrite Hct'. by apply conts_set with th.
Qed.

(** [Thread::Fork] of a new thread. *)
Lemma fork_ok k th garbage p body :
  sched_inv None running k -> threads k !! currentThread k = Some th -> length garbage = Z.to_nat NumTotalRegs ->
  (p <> None -> threadNum k < MAX_THREAD_NUM) ->
  exists k' t, fork_new garbage p body k = Ok k' /\ sched_inv None running k' /\ threads k !! t = None /\
    same_sync k (with_threadNum (threadNum k) k') /\ conts k' = <[t := body ++ [Finish_]]> (conts k) /\
    currentThread k' = currentThread k /\ threads k' !! currentThread k = Some th.
Proof.
  intros [(th' & Hc' & Hst & Hdn & Htg) Hoth Hr Hs Hd Hu] Hc Hg Hp. assert (th' = th) as -> by congruence.
  unfold fork_new. set (t := fresh (dom (threads k))).
  assert (threads k !! t = None) as Ht by (apply not_elem_of_dom, is_fresh).
  assert (exists k0 th0, match p with None => Ok (k, newThread garbage) | Some p => newThreadPriority garbage p k end = Ok (k0, th0) /\
    (exists n, k0 = with_threadNum n k) /\ stack th0 = None /\ userRegisters th0 = garbage /\ space th0 = None /\
    status th0 = JUST_CREATED) as (k0 & th0 & -> & (n & ->) & E1 & E2 & E3 & E4).
  { destruct p as [p|].
    - unfold newThreadPriority. replace (threadNum k + 1 <=? MAX_THREAD_NUM) with true by (specialize (Hp ltac:(done)); lia).
      cbn. eexists _, _. split_and!; [done|by eexists|done..].
    - eexists _, _. split_and!; [done| |done..]. exists (threadNum k). by destruct k. }
  cbn [mbind outcome_bind]. unfold Fork. ksimpl. rewrite (deref_Some _ _ th0) by by rewrite lookup_insert_eq.
  cbn [mbind outcome_bind]. set (th1 := StackAllocate body th0).
  assert (ready_ok (<[t := th1]> (threads k)) (readyList k)) as Hr1.
  { destruct Hr as [Hnd Hso Hmem]. split; [done| |].
    - eapply Sorted_priority_ext; [|done]. intros x Hx. rewrite getPriority_insert, decide_False; [done|].
      intros ->. apply Hmem in Hx as (? & ? & _). congruence.
    - intros x. rewrite Hmem. destruct (decide (t = x)) as [<-|]; [rewrite lookup_insert_eq|by rewrite lookup_insert_ne].
      rewrite Ht. unfold th1. split; [naive_solver|]. intros (? & [= <-] & Hx). cbn in Hx. congruence. }
  assert (currentThread k <> t) as Hne by congruence.
  rewrite (ReadyToRun_ok _ _ th1); ksimpl; [|done|by rewrite lookup_insert_eq|cbn; congruence|by rewrite insert_insert_eq].
  cbn [mbind outcome_bind]. rewrite !insert_insert_eq. eexists _, t. split; [reflexivity|]. split_and!; [|done|done| |done|].
  - split; ksimpl.
    + exists th. by rewrite lookup_insert_ne.
    + intros x thx Hx Hthx. destruct (decide (t = x)) as [<-|Hnx]; [rewrite lookup_insert_eq in Hthx|rewrite lookup_insert_ne in Hthx by done; auto].
      injection Hthx as <-. do 2 constructor.
    + rewrite <- (insert_insert_eq (threads k) t (with_tstatus READY th1) th1).
      apply ready_ok_add; [by rewrite lookup_insert_eq|cbn; congruence|done].
    + by apply sems_ok_fresh.
    + congruence.
    + apply user_ok_new; [|done]. split_and!; [by right|cbn; by rewrite E2|]. cbn. rewrite E3. done.
  - unfold conts. ksimpl. by rewrite fmap_insert.
  - ksimpl. by rewrite lookup_insert_ne.
Qed.
