(* ===== verification/SynchInv.v ===== *)
(** * Locks and condition variables: an ownership discipline

    A program is checked by following the rights that its actions take and
    give back: holding a lock, having passed a lock's semaphore, having to
    wait on, to post or to delete a waiter's semaphore, having a request at a
    device.  [checked] is that
    check, a function; [own_inv] says that in the running system every right has
    one owner and how the semaphores agree with the rights.  Together with the
    scheduler's invariant this shows that a checked program never fails an
    assertion of synch.cc and never touches a semaphore that is gone. *)

From S2P Require Import Prelude Lists Interrupt Machine AddrSpace Threads Synch SchedInv.

(** ** Rights *)
Inductive res :=
  | Held (l : positive) | Pend (l : positive) | Waits (w : positive) | Dels (w : positive) | Sigs (w : positive)
  | Asked (d : positive).

#[export] Instance res_eq_dec : EqDecision res.
Proof. solve_decision. Defined.
#[export] Instance res_countable : Countable res.
Proof.
  refine (inj_countable' (fun r => match r with Held l => inl (inl l) | Pend l => inl (inr l) | Waits w => inr (inl w)
      | Dels w => inr (inr (inl w)) | Sigs w => inr (inr (inr (inl w))) | Asked d => inr (inr (inr (inr d))) end)
    (fun r => match r with inl (inl l) => Held l | inl (inr l) => Pend l | inr (inl w) => Waits w
      | inr (inr (inl w)) => Dels w | inr (inr (inr (inl w))) => Sigs w | inr (inr (inr (inr d))) => Asked d end) _).
  by intros [].
Defined.

Abbreviation rights := (gset res).

(** The objects the kernel has created. *)
Record env := mkEnv {
  e_sems : gset positive;
  e_locks : gset positive;
  e_conds : gset positive;
  e_lists : gmap positive (positive * positive);
  e_devs : gmap positive devkind;
}.

Section checking.
Context (E : env).

Definition free_lock (l : positive) (Γ : rights) : bool :=
  bool_decide (l ∈ e_locks E /\ Held l ∉ Γ /\ Pend l ∉ Γ /\ Asked l ∉ Γ).

Definition takeP (s : semid) (Γ : rights) : option rights :=
  match s with
  | USem n => if decide (n ∈ e_sems E) then Some Γ else None
  | LSem l => if free_lock l Γ then Some ({[Pend l]} ∪ Γ) else None
  | WSem w => if decide (Waits w ∈ Γ) then Some ({[Dels w]} ∪ Γ ∖ {[Waits w]}) else None
  | DSem d => if decide (Asked d ∈ Γ) then Some (Γ ∖ {[Asked d]}) else None
  end.

Definition takeV (s : semid) (Γ : rights) : option rights :=
  match s with
  | USem n => if decide (n ∈ e_sems E) then Some Γ else None
  | LSem l => if decide (l ∈ e_locks E /\ Pend l ∈ Γ) then Some (Γ ∖ {[Pend l]}) else None
  | WSem w => if decide (Sigs w ∈ Γ) then Some (Γ ∖ {[Sigs w]}) else None
  | DSem _ => None
  end.

Definition needs_lock (c l : positive) (Γ : rights) : option rights :=
  if decide (c ∈ e_conds E /\ l ∈ e_locks E /\ Held l ∈ Γ /\ Asked l ∉ Γ) then Some Γ else None.

(** The rights after an action, if the thread may take it. *)
Fixpoint act (a : action) (Γ : rights) {struct a} : option rights :=
  match a with
  | Yield_ => Some Γ
  | P_ s => takeP s Γ
  | V_ s => takeV s Γ
  | Acquire_ l => if free_lock l Γ then Some ({[Held l]} ∪ Γ) else None
  | Release_ l => if decide (l ∈ e_locks E /\ Held l ∈ Γ /\ Asked l ∉ Γ) then Some (Γ ∖ {[Held l]}) else None
  | SetHolder l => if decide (l ∈ e_locks E /\ Pend l ∈ Γ) then Some ({[Held l]} ∪ Γ ∖ {[Pend l]}) else None
  | Wait_ c l | Signal_ c l | Broadcast_ c l => needs_lock c l Γ
  | DeleteSem (WSem w) => if decide (Dels w ∈ Γ) then Some (Γ ∖ {[Dels w]}) else None
  | Append_ sl _ | RemoveFront_ sl =>
      match e_lists E !! sl with Some (l, _) => if free_lock l Γ then Some Γ else None | None => None end
  | PutItem sl _ | RemoveLoop sl =>
      match e_lists E !! sl with Some (l, c) => needs_lock c l Γ | None => None end
  | Request_ d r =>
      match e_devs E !! d with
      | Some kd => if decide (request_ok kd r = true /\ Held d ∈ Γ /\ Asked d ∉ Γ) then Some ({[Asked d]} ∪ Γ) else None
      | None => None
      end
  | Fork_ _ body =>
      if (fix go (b : list action) (Γ : rights) : bool :=
            match b with
            | [] => bool_decide (Γ = ∅)
            | Halt_ :: _ => true
            | a :: r => match act a Γ with Some Γ' => go r Γ' | None => false end
            end) body ∅
      then Some Γ else None
  | DeleteSem _ | Halt_ | Begin_ | Finish_ | RunTail | SleepLoop _ | SetLevel_ _ | PLoop _ _ => None
  end.

(** A whole list of actions: it ends with no rights left, or halts the machine. *)
Fixpoint checked (c : list action) (Γ : rights) : bool :=
  match c with
  | [] => false
  | Finish_ :: r => match r with [] => bool_decide (Γ = ∅) | _ => false end
  | Halt_ :: _ => true
  | a :: r => match act a Γ with Some Γ' => checked r Γ' | None => false end
  end.

Definition env_wf : Prop :=
  (forall sl l c, e_lists E !! sl = Some (l, c) -> l ∈ e_locks E /\ c ∈ e_conds E) /\
  (forall d, is_Some (e_devs E !! d) -> d ∈ e_locks E).

(** Actions with several frames follow one another. *)
Fixpoint acts (fs : list action) (Γ : rights) : option rights :=
  match fs with
  | [] => Some Γ
  | a :: r => match act a Γ with Some Γ' => acts r Γ' | None => None end
  end.
End checking.

Lemma act_fork E p body Γ : act E (Fork_ p body) Γ = if checked E (body ++ [Finish_]) ∅ then Some Γ else None.
Proof.
  cbn [act].
  match goal with |- (if ?f body ∅ then _ else _) = _ => assert (forall b Δ, f b Δ = checked E (b ++ [Finish_]) Δ) as Hgo end.
  2: by rewrite Hgo.
  induction b as [|a r IH]; intros Δ; [done|].
  destruct a; try done; try (by destruct r); cbn [app checked]; match goal with |- context [act E ?a Δ] => destruct (act E a Δ) end;
    done || apply IH.
Qed.

Lemma checked_cons E a r Γ :
  a <> Finish_ -> a <> Halt_ ->
  checked E (a :: r) Γ = match act E a Γ with Some Γ' => checked E r Γ' | None => false end.
Proof. by destruct a. Qed.

Lemma checked_acts E fs r Γ Γ' : acts E fs Γ = Some Γ' -> checked E (fs ++ r) Γ = checked E r Γ'.
Proof.
  revert Γ. induction fs as [|a fs IH]; intros Γ; cbn [acts app]; [by intros [= ->]|].
  destruct (act E a Γ) as [Γ1|] eqn:Ea; [|done]. intros Hfs.
  rewrite checked_cons by (intros ->; done). rewrite Ea. auto.
Qed.

(** Checked code starts with an action of its own. *)
Lemma checked_plain E c Γ : checked E c Γ = true -> plain c = true /\ cont c = c /\ target c = None.
Proof. destruct c as [|[] r]; cbn; try done; repeat case_match; done. Qed.

(** ** The invariant *)
Abbreviation owners := (gmap res positive).

(** [Γ] is what thread [t] owns. *)
Definition agrees (own : owners) (t : positive) (Γ : rights) : Prop := forall x, x ∈ Γ <-> own !! x = Some t.

Definition in_wait (wq : gmap positive (list positive)) (w : positive) : Prop := exists c q, wq !! c = Some q /\ w ∈ q.

(** A lock is free, or one thread holds it, or one thread is between the
    semaphore and the field [lockHolder]. *)
Inductive lock_state : Z -> option positive -> option positive -> Prop :=
  | lock_free : lock_state 1 None None
  | lock_held t : lock_state 0 (Some t) None
  | lock_pend t : lock_state 0 None (Some t).

(** A waiter's semaphore: in the condition's list; picked by a signaller that
    has still to post it; posted; passed, and to be deleted; or gone. *)
Inductive waiter_state (wait : Prop) : option Z -> option positive -> option positive -> option positive -> Prop :=
  | waiter_none : ~ wait -> waiter_state wait None None None None
  | waiter_listed t : wait -> waiter_state wait (Some 0) (Some t) None None
  | waiter_signalled t u : ~ wait -> waiter_state wait (Some 0) (Some t) None (Some u)
  | waiter_posted t : ~ wait -> waiter_state wait (Some 1) (Some t) None None
  | waiter_passed t : ~ wait -> waiter_state wait (Some 0) None (Some t) None.

(** A device with a driver: idle; working for the thread that asked it, which
    holds the driver's lock; done, with the semaphore posted for that thread. *)
Inductive dev_state (held : option positive) : bool -> Z -> option positive -> Prop :=
  | dev_idle : dev_state held false 0 None
  | dev_asked t : held = Some t -> dev_state held true 0 (Some t)
  | dev_done t : held = Some t -> dev_state held false 1 (Some t).

Section invariant.
Context (E : env).

(** The device behind driver [d]. *)
Definition dev_ok (own : owners) (vals : semid -> option Z) (d : positive) (o : option Device) : Prop :=
  match o with
  | Some x => e_devs E !! d = Some (dkind x) /\
      exists v, vals (DSem d) = Some v /\ dev_state (own !! Held d) (busy x) v (own !! Asked d)
  | None => e_devs E !! d = None /\ own !! Asked d = None
  end.

Record own_inv (own : owners) (cs : gmap positive (list action)) (vals : semid -> option Z)
    (hold : gmap positive (option positive)) (wq : gmap positive (list positive)) (sls : gmap positive SynchList)
    (dvs : gmap positive Device) : Prop := {
  oi_typed t c : cs !! t = Some c -> exists Γ, agrees own t Γ /\ checked E c Γ = true;
  oi_alive x t : own !! x = Some t -> is_Some (cs !! t);
  oi_sems n : n ∈ e_sems E -> is_Some (vals (USem n));
  oi_locks l : l ∈ e_locks E -> hold !! l = Some (own !! Held l) /\
    exists v, vals (LSem l) = Some v /\ lock_state v (own !! Held l) (own !! Pend l);
  oi_waiters w : waiter_state (in_wait wq w) (vals (WSem w)) (own !! Waits w) (own !! Dels w) (own !! Sigs w);
  oi_conds c : c ∈ e_conds E -> is_Some (wq !! c);
  oi_nodup c q : wq !! c = Some q -> NoDup q;
  oi_disjoint c c' q q' w : wq !! c = Some q -> wq !! c' = Some q' -> w ∈ q -> w ∈ q' -> c = c';
  oi_lists sl l c : e_lists E !! sl = Some (l, c) -> exists x, sls !! sl = Some x /\ sl_lock x = l /\ listEmpty x = c;
  oi_devs d : dev_ok own vals d (dvs !! d);
}.

Definition values (k : Kernel) (s : semid) : option Z := value <$> sems k !! s.
Definition owned (own : owners) (k : Kernel) : Prop :=
  own_inv own (conts k) (values k) (lockHolder k) (waitQueue k) (synchLists k) (devices k).

(** The invariant of the system. *)
Definition kernel_inv (own : owners) (k : Kernel) : Prop := sched_inv None active k /\ owned own k.

(** Only the values of semaphores count. *)
Lemma own_ext own cs vals vals' hold wq sls dvs :
  (forall s, vals' s = vals s) -> own_inv own cs vals hold wq sls dvs -> own_inv own cs vals' hold wq sls dvs.
Proof.
  intros Hv []. split; try done; intros *; rewrite ?Hv; auto. specialize (oi_devs0 d). destruct (dvs !! d); [|done].
  destruct oi_devs0 as (? & v & ? & ?). split; [done|]. exists v. by rewrite Hv.
Qed.

(** ** Rights that change hands *)
Lemma agrees_give own t x Γ : agrees own t Γ -> agrees (<[x := t]> own) t ({[x]} ∪ Γ).
Proof.
  intros H y. specialize (H y). destruct (decide (x = y)) as [<-|]; [rewrite lookup_insert_eq|rewrite lookup_insert_ne by done]; set_solver.
Qed.

Lemma agrees_drop own t x Γ : agrees own t Γ -> agrees (delete x own) t (Γ ∖ {[x]}).
Proof.
  intros H y. specialize (H y). destruct (decide (x = y)) as [<-|]; [rewrite lookup_delete_eq|rewrite lookup_delete_ne by done]; set_solver.
Qed.

Lemma agrees_give_ne own t u x Γ : u <> t -> own !! x <> Some u -> agrees own u Γ -> agrees (<[x := t]> own) u Γ.
Proof.
  intros Hu Hx H y. rewrite (H y). destruct (decide (x = y)) as [<-|]; [rewrite lookup_insert_eq|by rewrite lookup_insert_ne]. naive_solver.
Qed.

Lemma agrees_drop_ne own u x Γ : own !! x <> Some u -> agrees own u Γ -> agrees (delete x own) u Γ.
Proof.
  intros Hx H y. rewrite (H y). destruct (decide (x = y)) as [<-|]; [rewrite lookup_delete_eq|by rewrite lookup_delete_ne]. naive_solver.
Qed.

Lemma agrees_unique own t Γ Γ' : agrees own t Γ -> agrees own t Γ' -> Γ = Γ'.
Proof. intros H H'. apply set_eq. intros x. by rewrite (H x), (H' x). Qed.

(** The typing part of the invariant, for a thread [t] and for the others. *)
Definition typed_but (t : positive) (own : owners) (cs : gmap positive (list action)) : Prop :=
  (forall u c, u <> t -> cs !! u = Some c -> exists Γ, agrees own u Γ /\ checked E c Γ = true) /\
  (forall x u, own !! x = Some u -> is_Some (cs !! u)).

Lemma typed_give t x own cs : is_Some (cs !! t) -> (forall u, own !! x = Some u -> u = t) -> typed_but t own cs -> typed_but t (<[x := t]> own) cs.
Proof.
  intros Ht Hx [H1 H2]. split.
  - intros u c Hu Hc. destruct (H1 u c Hu Hc) as (Γ & ? & ?). exists Γ. split; [|done]. apply agrees_give_ne; [done| |done]. naive_solver.
  - intros y u. destruct (decide (x = y)) as [<-|]; [rewrite lookup_insert_eq; naive_solver|rewrite lookup_insert_ne by done; apply H2].
Qed.

Lemma typed_drop t x own cs : own !! x = Some t -> typed_but t own cs -> typed_but t (delete x own) cs.
Proof.
  intros Hx [H1 H2]. split.
  - intros u c Hu Hc. destruct (H1 u c Hu Hc) as (Γ & ? & ?). exists Γ. split; [|done]. apply agrees_drop_ne; [|done]. congruence.
  - intros y u [_ Hy]%lookup_delete_Some. eauto.
Qed.

Lemma typed_but_of own cs t : (forall t c, cs !! t = Some c -> exists Γ, agrees own t Γ /\ checked E c Γ = true) ->
  (forall x t, own !! x = Some t -> is_Some (cs !! t)) -> typed_but t own cs.
Proof. intros H1 H2. split; [intros; by apply H1|done]. Qed.

(** Thread [t] goes on with [c], for which it has the rights. *)
Lemma typed_put t own cs c Γ : typed_but t own cs -> agrees own t Γ -> checked E c Γ = true ->
  (forall u c', <[t := c]> cs !! u = Some c' -> exists Γ, agrees own u Γ /\ checked E c' Γ = true) /\
  (forall x u, own !! x = Some u -> is_Some (<[t := c]> cs !! u)).
Proof.
  intros [H1 H2] Hag Hc. split.
  - intros u c'. destruct (decide (t = u)) as [<-|]; [rewrite lookup_insert_eq; intros [= <-]; eauto|rewrite lookup_insert_ne by done; auto].
  - intros x u Hx. destruct (decide (t = u)) as [<-|]; [rewrite lookup_insert_eq; eauto|rewrite lookup_insert_ne by done; eauto].
Qed.

(** A device that nothing happens to; one that nobody has asked does not care
    about its lock. *)
Lemma dev_ok_ext own own' vals vals' d o :
  vals' (DSem d) = vals (DSem d) -> own' !! Asked d = own !! Asked d ->
  own' !! Held d = own !! Held d \/ own !! Asked d = None ->
  dev_ok own vals d o -> dev_ok own' vals' d o.
Proof.
  intros Ev Ea Eh. destruct o as [x|]; cbn [dev_ok]; rewrite Ea; [|done]. intros (Ed & v & Hv & Hst). split; [done|].
  exists v. split; [congruence|]. destruct Eh as [->|Hn]; [done|]. rewrite Hn in *. inversion Hst. constructor.
Qed.

(** Whoever asked the device holds its lock. *)
Lemma dev_ok_held own vals d o :
  dev_ok own vals d o -> own !! Asked d = None \/ exists t, own !! Asked d = Some t /\ own !! Held d = Some t.
Proof. destruct o as [x|]; [|intros [_ ?]; by left]. intros (_ & v & _ & Hst). inversion Hst; eauto. Qed.

(** ** Effects of the operations on the rights *)
Section effects.
Context (t : positive) (own : owners) (cs : gmap positive (list action)) (vals : semid -> option Z)
  (hold : gmap positive (option positive)) (wq : gmap positive (list positive)) (sls : gmap positive SynchList)
  (dvs : gmap positive Device).
Context (Hinv : own_inv own cs vals hold wq sls dvs).

Lemma own_next a r : cs !! t = Some (a :: r) -> a <> Finish_ -> a <> Halt_ ->
  exists Γ Γ', agrees own t Γ /\ act E a Γ = Some Γ' /\ checked E r Γ' = true.
Proof.
  intros Ht Hf Hh. destruct (oi_typed _ _ _ _ _ _ _ Hinv _ _ Ht) as (Γ & Hag & Hch).
  rewrite checked_cons in Hch by done. destruct (act E a Γ) as [Γ'|] eqn:Ea; [|done]. eauto.
Qed.

Lemma own_typed_but : typed_but t own cs.
Proof. apply typed_but_of; apply Hinv. Qed.

(** No right changes hands. *)
Lemma own_put c Γ vals' sls' : agrees own t Γ -> checked E c Γ = true -> (forall s, vals' s = vals s \/ exists n, s = USem n /\ is_Some (vals' s)) ->
  (forall sl l c, e_lists E !! sl = Some (l, c) -> exists x, sls' !! sl = Some x /\ sl_lock x = l /\ listEmpty x = c) ->
  own_inv own (<[t := c]> cs) vals' hold wq sls' dvs.
Proof.
  intros Hag Hch Hv Hsl. destruct (typed_put t own cs c Γ own_typed_but Hag Hch) as [H1 H2].
  split; [exact H1|exact H2|..|exact Hsl|]; try apply Hinv.
  - intros n Hn. destruct (Hv (USem n)) as [->|(m & ? & ?)]; [by apply Hinv|done].
  - intros l Hl. destruct (Hv (LSem l)) as [->|(m & [=] & ?)]. by apply Hinv.
  - intros w. destruct (Hv (WSem w)) as [->|(m & [=] & ?)]. by apply Hinv.
  - intros d. destruct (Hv (DSem d)) as [Hd|(m & [=] & ?)]. eapply dev_ok_ext; [exact Hd|done|by left|apply Hinv].
Qed.

Lemma lock_at l : l ∈ e_locks E -> exists v, vals (LSem l) = Some v /\ hold !! l = Some (own !! Held l) /\
  lock_state v (own !! Held l) (own !! Pend l).
Proof. intros Hl. destruct (oi_locks _ _ _ _ _ _ _ Hinv l Hl) as (? & v & ? & ?). eauto. Qed.

Context (c : list action) (Γ : rights).

(** A lock changes state: the rights on other locks, and all waiters, stay. *)
Lemma own_lock l own' v vals' hold' :
  own !! Asked l = None ->
  typed_but t own' cs -> agrees own' t Γ -> checked E c Γ = true ->
  (forall x, x <> Held l -> x <> Pend l -> own' !! x = own !! x) ->
  vals' (LSem l) = Some v -> (forall s, s <> LSem l -> vals' s = vals s) ->
  hold' !! l = Some (own' !! Held l) -> (forall l', l' <> l -> hold' !! l' = hold !! l') ->
  lock_state v (own' !! Held l) (own' !! Pend l) ->
  own_inv own' (<[t := c]> cs) vals' hold' wq sls dvs.
Proof.
  intros Hasked Htb Hag Hch Hown Hv Hvals Hh Hhold Hst. destruct (typed_put t own' cs c Γ Htb Hag Hch) as [H1 H2].
  split; [exact H1|exact H2|..]; try apply Hinv.
  - intros n Hn. rewrite Hvals by done. by apply Hinv.
  - intros l' Hl'. destruct (decide (l' = l)) as [->|Hne]; [eauto|].
    rewrite Hhold, Hvals, !Hown by congruence. by apply Hinv.
  - intros w. rewrite Hvals, !Hown by done. apply Hinv.
  - intros d. eapply dev_ok_ext; [by apply Hvals|by apply Hown| |apply Hinv].
    destruct (decide (d = l)) as [->|]; [by right|left; apply Hown; congruence].
Qed.

(** A lock that thread [t] holds, without an outstanding request, or that nobody
    holds. *)
Lemma not_asked l : (own !! Held l = None \/ (own !! Held l = Some t /\ own !! Asked l <> Some t)) ->
  own !! Asked l = None.
Proof. intros Hl. destruct (dev_ok_held _ _ _ _ (oi_devs _ _ _ _ _ _ _ Hinv l)) as [|(u & Ha & Hh)]; [done|]. naive_solver. Qed.

(** A waiter's semaphore changes state. *)
Lemma own_waiter w own' vals' wq' :
  typed_but t own' cs -> agrees own' t Γ -> checked E c Γ = true ->
  (forall x, x <> Waits w -> x <> Dels w -> x <> Sigs w -> own' !! x = own !! x) ->
  (forall s, s <> WSem w -> vals' s = vals s) ->
  (forall c, is_Some (wq !! c) -> is_Some (wq' !! c)) ->
  (forall c q, wq' !! c = Some q -> NoDup q) ->
  (forall c c' q q' w, wq' !! c = Some q -> wq' !! c' = Some q' -> w ∈ q -> w ∈ q' -> c = c') ->
  (forall w', w' <> w -> in_wait wq' w' <-> in_wait wq w') ->
  waiter_state (in_wait wq' w) (vals' (WSem w)) (own' !! Waits w) (own' !! Dels w) (own' !! Sigs w) ->
  own_inv own' (<[t := c]> cs) vals' hold wq' sls dvs.
Proof.
  intros Htb Hag Hch Hown Hvals Hwq Hnd Hdis Hin Hst. destruct (typed_put t own' cs c Γ Htb Hag Hch) as [H1 H2].
  split; [exact H1|exact H2|..|exact Hnd|exact Hdis| |]; try apply Hinv.
  - intros n Hn. rewrite Hvals by done. by apply Hinv.
  - intros l Hl. rewrite Hvals, !Hown by done. by apply Hinv.
  - intros w'. destruct (decide (w' = w)) as [->|Hne]; [done|]. rewrite Hvals, !Hown by congruence.
    pose proof (oi_waiters _ _ _ _ _ _ _ Hinv w') as Hw. specialize (Hin w' Hne).
    destruct Hw; constructor; tauto.
  - intros c' Hc'. apply Hwq. by apply Hinv.
  - intros d. eapply dev_ok_ext; [by apply Hvals|by apply Hown|left; by apply Hown|apply Hinv].
Qed.

(** A device changes state; its lock stays with its holder. *)
Lemma own_device d own' vals' dvs' :
  typed_but t own' cs -> agrees own' t Γ -> checked E c Γ = true ->
  (forall x, x <> Asked d -> own' !! x = own !! x) ->
  (forall s, s <> DSem d -> vals' s = vals s) ->
  (forall d', d' <> d -> dvs' !! d' = dvs !! d') ->
  dev_ok own' vals' d (dvs' !! d) ->
  own_inv own' (<[t := c]> cs) vals' hold wq sls dvs'.
Proof.
  intros Htb Hag Hch Hown Hvals Hdvs Hd. destruct (typed_put t own' cs c Γ Htb Hag Hch) as [H1 H2].
  split; [exact H1|exact H2|..]; try apply Hinv.
  - intros n Hn. rewrite Hvals by done. by apply Hinv.
  - intros l Hl. rewrite Hvals, !Hown by done. by apply Hinv.
  - intros w. rewrite Hvals, !Hown by done. apply Hinv.
  - intros d'. destruct (decide (d' = d)) as [->|Hne]; [done|]. rewrite Hdvs by done.
    eapply dev_ok_ext; [apply Hvals|apply Hown|left; apply Hown|apply Hinv]; congruence.
Qed.

Lemma asked_at d u : own !! Asked d = Some u ->
  exists x v, dvs !! d = Some x /\ vals (DSem d) = Some v /\ e_devs E !! d = Some (dkind x) /\ own !! Held d = Some u /\
    dev_state (Some u) (busy x) v (Some u).
Proof.
  intros Ha. pose proof (oi_devs _ _ _ _ _ _ _ Hinv d) as Hd. unfold dev_ok in Hd. destruct (dvs !! d) as [x|] eqn:Ex.
  - destruct Hd as (Ed & v & Hv & Hst). rewrite Ha in Hst.
    assert (own !! Held d = Some u) as Hh by (inversion Hst; congruence). rewrite Hh in Hst. by eauto 10.
  - destruct Hd as [_ Hd]. congruence.
Qed.

Lemma own_waiter_same w own' vals' :
  typed_but t own' cs -> agrees own' t Γ -> checked E c Γ = true ->
  (forall x, x <> Waits w -> x <> Dels w -> x <> Sigs w -> own' !! x = own !! x) ->
  (forall s, s <> WSem w -> vals' s = vals s) ->
  waiter_state (in_wait wq w) (vals' (WSem w)) (own' !! Waits w) (own' !! Dels w) (own' !! Sigs w) ->
  own_inv own' (<[t := c]> cs) vals' hold wq sls dvs.
Proof. intros. eapply own_waiter; try done; apply Hinv. Qed.
End effects.

(** The rights of thread [t], whose next action is known. *)
Ltac own_start Hinv Ht :=
  let Γ := fresh "Γ" in
  destruct (own_next _ _ _ _ _ _ _ _ Hinv _ _ Ht) as (Γ & ? & Hag & Hact & Hch); [done|done|];
  cbn [act takeP takeV] in Hact; unfold needs_lock, free_lock in Hact;
  try match type of Hact with
  | (if decide ?P then _ else _) = _ => destruct (decide P) as [Hg|]; [|discriminate Hact]
  | (if bool_decide ?P then _ else _) = _ => destruct (bool_decide_reflect P) as [Hg|]; [|discriminate Hact]
  end; try (injection Hact as <-).

(** Close a goal on the new state of a lock or of a waiter's semaphore. *)
Ltac state_done :=
  repeat match goal with
  | H : None = ?e |- context [?e] => rewrite <- H
  | H : Some _ = ?e |- context [?e] => rewrite <- H
  end; by constructor.

Section operations.
Context (t : positive) (own : owners) (cs : gmap positive (list action)) (vals : semid -> option Z)
  (hold : gmap positive (option positive)) (wq : gmap positive (list positive)) (sls : gmap positive SynchList)
  (dvs : gmap positive Device).
Context (Hinv : own_inv own cs vals hold wq sls dvs).

Lemma own_alive x : own !! x = Some t -> is_Some (cs !! t).
Proof. apply Hinv. Qed.

Lemma own_setHolder l r : cs !! t = Some (SetHolder l :: r) ->
  is_Some (hold !! l) /\ hold !! l = Some None /\
  own_inv (<[Held l := t]> (delete (Pend l) own)) (<[t := r]> cs) vals (<[l := Some t]> hold) wq sls dvs.
Proof.
  intros Ht. own_start Hinv Ht. destruct Hg as [Hl Hp]. apply Hag in Hp as Hown.
  destruct (lock_at _ _ _ _ _ _ _ Hinv l Hl) as (v & Hv & Hh & Hst). rewrite Hown in Hst. inversion Hst; subst.
  assert (own !! Held l = None) as Hn by congruence. rewrite Hh, Hn. split; [eauto|]. split; [done|].
  eapply (own_lock t own cs vals hold wq sls dvs Hinv r _ l); [..|exact Hch| |exact Hv| | | |].
  - eapply (not_asked t); [exact Hinv|by left].
  - apply typed_give; [eauto| |apply typed_drop; [done|by eapply own_typed_but]].
    intros u. rewrite lookup_delete_ne by done. congruence.
  - by apply agrees_give, agrees_drop.
  - intros x ? ?. by rewrite lookup_insert_ne, lookup_delete_ne.
  - done.
  - by rewrite !lookup_insert_eq.
  - intros l' ?. by rewrite lookup_insert_ne.
  - rewrite lookup_insert_eq, lookup_insert_ne, lookup_delete_eq by done. constructor.
Qed.

Lemma own_release l r : cs !! t = Some (Release_ l :: r) ->
  hold !! l = Some (Some t) /\
  own_inv (<[Pend l := t]> (delete (Held l) own)) (<[t := V_ (LSem l) :: r]> cs) vals (<[l := None]> hold) wq sls dvs.
Proof.
  intros Ht. own_start Hinv Ht. destruct Hg as (Hl & Hp & Hna). apply Hag in Hp as Hown.
  destruct (lock_at _ _ _ _ _ _ _ Hinv l Hl) as (v & Hv & Hh & Hst). rewrite Hown in *. inversion Hst; subst. split; [done|].
  eapply (own_lock t own cs vals hold wq sls dvs Hinv _ ({[Pend l]} ∪ Γ ∖ {[Held l]}) l); [..|exact Hv| | | |].
  - eapply (not_asked t); [exact Hinv|]. right. split; [done|]. by rewrite <- (Hag (Asked l)).
  - apply typed_give; [eauto| |apply typed_drop; [done|by eapply own_typed_but]].
    intros u. rewrite lookup_delete_ne by done. congruence.
  - by apply agrees_give, agrees_drop.
  - rewrite checked_cons by done. cbn [act takeV]. rewrite decide_True by set_solver.
    replace (({[Pend l]} ∪ Γ ∖ {[Held l]}) ∖ {[Pend l]}) with (Γ ∖ {[Held l]} : rights); [done|].
    assert (Pend l ∉ Γ) by (rewrite (Hag (Pend l)); congruence). set_solver.
  - intros x ? ?. by rewrite lookup_insert_ne, lookup_delete_ne.
  - done.
  - by rewrite lookup_insert_eq, lookup_insert_ne, lookup_delete_eq.
  - intros l' ?. by rewrite lookup_insert_ne.
  - rewrite lookup_insert_eq, lookup_insert_ne, lookup_delete_eq by done. constructor.
Qed.

Lemma own_P_exists s r : cs !! t = Some (P_ s :: r) -> is_Some (vals s).
Proof.
  intros Ht. destruct s as [n|l|n|d]; own_start Hinv Ht.
  - by apply Hinv.
  - destruct Hg as (Hl & _). destruct (lock_at _ _ _ _ _ _ _ Hinv l Hl) as (v & -> & _). eauto.
  - apply Hag in Hg. pose proof (oi_waiters _ _ _ _ _ _ _ Hinv n) as Hw. rewrite Hg in Hw. inversion Hw; eauto.
  - apply Hag in Hg. destruct (asked_at _ _ _ _ _ _ _ Hinv d t Hg) as (x & v & _ & -> & _). eauto.
Qed.

(** A semaphore's value is consumed. *)
Lemma own_P_pass s r v vals' : cs !! t = Some (P_ s :: r) -> vals s = Some v -> v <> 0 ->
  vals' s = Some (v - 1) -> (forall x, x <> s -> vals' x = vals x) ->
  exists own', own_inv own' (<[t := r]> cs) vals' hold wq sls dvs.
Proof.
  intros Ht Hv Hv0 Hs Hvals. destruct s as [n|l|n|d]; own_start Hinv Ht.
  - exists own. eapply own_put; [done|done|done| |apply Hinv]. intros x. destruct (decide (x = USem n)) as [->|]; [right; eauto|left; auto].
  - destruct Hg as (Hl & Hnh & Hnp & _). destruct (lock_at _ _ _ _ _ _ _ Hinv l Hl) as (v' & Hv' & Hh & Hst).
    inversion Hst; subst; try congruence. assert (v = 1) as -> by congruence.
    exists (<[Pend l := t]> own). eapply (own_lock t own cs vals hold wq sls dvs Hinv _ _ l); [..|exact Hch| |exact Hs|done| | |].
    + eapply (not_asked t); [exact Hinv|by left].
    + apply typed_give; [eauto|congruence|by eapply own_typed_but].
    + by apply agrees_give.
    + intros x ? ?. by rewrite lookup_insert_ne.
    + by rewrite lookup_insert_ne.
    + done.
    + rewrite lookup_insert_eq, lookup_insert_ne by done. state_done.
  - apply Hag in Hg. pose proof (oi_waiters _ _ _ _ _ _ _ Hinv n) as Hw. rewrite Hg in Hw. rewrite Hv in Hw. inversion Hw; subst; try congruence.
    exists (<[Dels n := t]> (delete (Waits n) own)).
    eapply (own_waiter_same t own cs vals hold wq sls dvs Hinv _ _ n); [..|exact Hch| |done|].
    + apply typed_give; [eauto| |apply typed_drop; [done|by eapply own_typed_but]].
      intros u. rewrite lookup_delete_ne by done. congruence.
    + by apply agrees_give, agrees_drop.
    + intros x ? ? ?. by rewrite lookup_insert_ne, lookup_delete_ne.
    + rewrite Hs, lookup_insert_eq, !lookup_insert_ne, lookup_delete_eq, lookup_delete_ne by done.
      state_done.
  - apply Hag in Hg. destruct (asked_at _ _ _ _ _ _ _ Hinv d t Hg) as (x & v' & Hx & Hv' & Ex & Hh & Hst).
    assert (v' = v) as -> by congruence. inversion Hst; subst; [done|].
    exists (delete (Asked d) own). eapply (own_device t own cs vals hold wq sls dvs Hinv _ _ d); [..|exact Hch| |done|done|].
    + apply typed_drop; [done|by eapply own_typed_but].
    + by apply agrees_drop.
    + intros y ?. by rewrite lookup_delete_ne.
    + rewrite Hx. split; [done|]. exists 0. rewrite lookup_delete_eq, lookup_delete_ne by done. split; [by rewrite Hs|]. rewrite <- H. constructor.
Qed.

(** A semaphore is posted. *)
Lemma own_V s r : cs !! t = Some (V_ s :: r) ->
  exists v, vals s = Some v /\ ((forall n, s <> USem n) -> v = 0) /\
    forall vals', vals' s = Some (v + 1) -> (forall x, x <> s -> vals' x = vals x) ->
    exists own', own_inv own' (<[t := r]> cs) vals' hold wq sls dvs.
Proof.
  intros Ht. destruct s as [n|l|n|d]; own_start Hinv Ht; [..|done].
  - destruct (oi_sems _ _ _ _ _ _ _ Hinv n Hg) as [v Hv]. exists v. split_and!; [done|naive_solver|]. intros vals' Hs Hvals.
    exists own. eapply own_put; [done|done|done| |apply Hinv]. intros x. destruct (decide (x = USem n)) as [->|]; [right; eauto|left; auto].
  - destruct Hg as (Hl & Hp). apply Hag in Hp as Hown. destruct (lock_at _ _ _ _ _ _ _ Hinv l Hl) as (v' & Hv' & Hh & Hst).
    rewrite Hown in Hst. inversion Hst; subst. exists 0. split_and!; [done|done|]. intros vals' Hs Hvals.
    exists (delete (Pend l) own). eapply (own_lock t own cs vals hold wq sls dvs Hinv _ _ l); [..|exact Hch| |exact Hs|done| | |].
    + eapply (not_asked t); [exact Hinv|by left].
    + apply typed_drop; [done|by eapply own_typed_but].
    + by apply agrees_drop.
    + intros x ? ?. by rewrite lookup_delete_ne.
    + by rewrite lookup_delete_ne.
    + done.
    + rewrite lookup_delete_eq, lookup_delete_ne by done. state_done.
  - apply Hag in Hg. pose proof (oi_waiters _ _ _ _ _ _ _ Hinv n) as Hw. rewrite Hg in Hw. inversion Hw; subst.
    exists 0. split_and!; [done|done|]. intros vals' Hs Hvals.
    exists (delete (Sigs n) own).
    eapply (own_waiter_same t own cs vals hold wq sls dvs Hinv _ _ n); [..|exact Hch| |done|].
    + apply typed_drop; [done|by eapply own_typed_but].
    + by apply agrees_drop.
    + intros x ? ? ?. by rewrite lookup_delete_ne.
    + rewrite Hs, lookup_delete_eq, !lookup_delete_ne by done. state_done.
Qed.

Lemma held_at l Γ : agrees own t Γ -> l ∈ e_locks E -> Held l ∈ Γ -> hold !! l = Some (Some t) /\ Pend l ∉ Γ.
Proof.
  intros Hag Hl Hh. apply Hag in Hh. destruct (lock_at _ _ _ _ _ _ _ Hinv l Hl) as (v & Hv & Hho & Hst).
  rewrite Hh in *. inversion Hst; subst. split; [done|]. rewrite (Hag (Pend l)). congruence.
Qed.

(** A new semaphore in a condition's list. *)
Lemma own_wait c l r w vals' : cs !! t = Some (Wait_ c l :: r) -> vals (WSem w) = None ->
  vals' (WSem w) = Some 0 -> (forall x, x <> WSem w -> vals' x = vals x) ->
  hold !! l = Some (Some t) /\ exists q, wq !! c = Some q /\ w ∉ q /\
  own_inv (<[Waits w := t]> own) (<[t := [Release_ l; P_ (WSem w); Acquire_ l; DeleteSem (WSem w)] ++ r]> cs) vals' hold (<[c := q ++ [w]]> wq) sls dvs.
Proof.
  intros Ht Hw0 Hw Hvals. own_start Hinv Ht. destruct Hg as (Hc & Hl & Hh & Hna). destruct (held_at l Γ Hag Hl Hh) as [Hho Hnp].
  split; [done|]. destruct (oi_conds _ _ _ _ _ _ _ Hinv c Hc) as [q Hq]. exists q. split; [done|].
  pose proof (oi_waiters _ _ _ _ _ _ _ Hinv w) as Hst. rewrite Hw0 in Hst. inversion Hst as [Hnw| | | |]; subst.
  assert (forall c' q', wq !! c' = Some q' -> w ∉ q') as Hnin by (intros c' q' ? ?; apply Hnw; unfold in_wait; eauto).
  split; [eauto|].
  assert (forall w', w' <> w -> in_wait (<[c := q ++ [w]]> wq) w' <-> in_wait wq w') as Hiff.
  { intros w' Hne. unfold in_wait. split; intros (c' & q' & Hq' & Hin); (destruct (decide (c = c')) as [<-|];
      [rewrite ?lookup_insert_eq in *; simplify_eq|rewrite ?lookup_insert_ne in * by done]).
    - exists c, q. split; [done|]. set_solver.
    - eauto.
    - eexists c, _. rewrite lookup_insert_eq. split; [done|]. set_solver.
    - exists c', q'. rewrite lookup_insert_ne by done. eauto. }
  eapply (own_waiter t own cs vals hold wq sls dvs Hinv _ ({[Waits w]} ∪ Γ) w); [..|done| | | |exact Hiff|].
  - apply typed_give; [eauto|congruence|by eapply own_typed_but].
  - by apply agrees_give.
  - rewrite (checked_acts _ _ _ _ Γ); [done|].
    assert (Waits w ∉ Γ /\ Dels w ∉ Γ) as [Hn1 Hn2] by (rewrite (Hag (Waits w)), (Hag (Dels w)); split; congruence).
    cbn [acts act takeP]. rewrite decide_True by set_solver. rewrite decide_True by set_solver. unfold free_lock.
    rewrite bool_decide_eq_true_2 by set_solver. rewrite decide_True by set_solver. f_equal. clear -Hn1 Hn2 Hh.
    apply set_eq. intros x. destruct (decide (x = Held l)) as [->|]; [set_solver|].
    destruct (decide (x = Waits w)) as [->|]; [set_solver|]. destruct (decide (x = Dels w)) as [->|]; set_solver.
  - intros x ? ? ?. by rewrite lookup_insert_ne.
  - intros c' Hc'. destruct (decide (c = c')) as [<-|]; [rewrite lookup_insert_eq|rewrite lookup_insert_ne by done]; eauto.
  - intros c' q' Hq'. destruct (decide (c = c')) as [<-|]; [rewrite lookup_insert_eq in Hq'|rewrite lookup_insert_ne in Hq' by done; by eapply Hinv].
    simplify_eq. apply NoDup_app. split_and!; [by eapply Hinv|set_solver|apply NoDup_singleton].
  - intros c1 c2 q1 q2 x Hq1 Hq2 Hx1 Hx2. destruct (decide (x = w)) as [->|Hne].
    + destruct (decide (c = c1)) as [<-|]; [|rewrite lookup_insert_ne in Hq1 by done; by apply Hnin in Hq1].
      destruct (decide (c = c2)) as [<-|]; [done|rewrite lookup_insert_ne in Hq2 by done; by apply Hnin in Hq2].
    + assert (forall c' q', <[c := q ++ [w]]> wq !! c' = Some q' -> x ∈ q' -> exists q0, wq !! c' = Some q0 /\ x ∈ q0) as Hold.
      { intros c' q' Hq' Hx. destruct (decide (c = c')) as [<-|]; [rewrite lookup_insert_eq in Hq'|rewrite lookup_insert_ne in Hq' by done; eauto].
        simplify_eq. exists q. set_solver. }
      destruct (Hold c1 q1 Hq1 Hx1) as (? & ? & ?), (Hold c2 q2 Hq2 Hx2) as (? & ? & ?). by eapply (oi_disjoint _ _ _ _ _ _ _ Hinv).
  - rewrite Hw, lookup_insert_eq, !lookup_insert_ne by done.
    assert (in_wait (<[c := q ++ [w]]> wq) w) as Hin by (exists c, (q ++ [w]); rewrite lookup_insert_eq; set_solver). state_done.
Qed.

(** A signaller takes the first waiter. *)
Lemma own_signal c l r : cs !! t = Some (Signal_ c l :: r) ->
  hold !! l = Some (Some t) /\ exists q, wq !! c = Some q /\
    match q with
    | [] => own_inv own (<[t := r]> cs) vals hold wq sls dvs
    | w :: q' => own_inv (<[Sigs w := t]> own) (<[t := V_ (WSem w) :: r]> cs) vals hold (<[c := q']> wq) sls dvs
    end.
Proof.
  intros Ht. own_start Hinv Ht. destruct Hg as (Hc & Hl & Hh & Hna). destruct (held_at l Γ Hag Hl Hh) as [Hho Hnp].
  split; [done|]. destruct (oi_conds _ _ _ _ _ _ _ Hinv c Hc) as [q Hq]. exists q. split; [done|].
  destruct q as [|w q].
  { eapply own_put; [done|done|done|by left|apply Hinv]. }
  pose proof (oi_nodup _ _ _ _ _ _ _ Hinv c _ Hq) as [Hwq Hnd]%NoDup_cons.
  assert (forall c' q', <[c := q]> wq !! c' = Some q' -> exists q0, wq !! c' = Some q0 /\ forall x, x ∈ q' -> x ∈ q0) as Hsub.
  { intros c' q' Hq'. destruct (decide (c = c')) as [<-|]; [rewrite lookup_insert_eq in Hq'|rewrite lookup_insert_ne in Hq' by done; eauto].
    simplify_eq. exists (w :: q'). set_solver. }
  assert (~ in_wait (<[c := q]> wq) w) as Hnot.
  { intros (c' & q' & Hq' & Hin). destruct (Hsub _ _ Hq') as (q0 & Hq0 & Hs0).
    assert (c = c') as <- by (eapply (oi_disjoint _ _ _ _ _ _ _ Hinv c c' (w :: q) q0 w); [done|done|set_solver|auto]).
    rewrite lookup_insert_eq in Hq'. by simplify_eq. }
  pose proof (oi_waiters _ _ _ _ _ _ _ Hinv w) as Hst.
  assert (in_wait wq w) as Hin by (exists c, (w :: q); set_solver). inversion Hst; subst; try done.
  eapply (own_waiter t own cs vals hold wq sls dvs Hinv _ ({[Sigs w]} ∪ Γ) w); [..|done| | | | |].
  - apply typed_give; [eauto|congruence|by eapply own_typed_but].
  - by apply agrees_give.
  - rewrite checked_cons by done. cbn [act takeV]. rewrite decide_True by set_solver.
    assert (Sigs w ∉ Γ) by (rewrite (Hag (Sigs w)); congruence).
    replace (({[Sigs w]} ∪ Γ) ∖ {[Sigs w]}) with (Γ : rights) by set_solver. done.
  - intros x ? ? ?. by rewrite lookup_insert_ne.
  - intros c' Hc'. destruct (decide (c = c')) as [<-|]; [rewrite lookup_insert_eq|rewrite lookup_insert_ne by done]; eauto.
  - intros c' q' Hq'. destruct (decide (c = c')) as [<-|]; [rewrite lookup_insert_eq in Hq'; by simplify_eq|rewrite lookup_insert_ne in Hq' by done; by eapply Hinv].
  - intros c1 c2 q1 q2 x H1' H2' Hx1 Hx2. destruct (Hsub _ _ H1') as (? & ? & ?), (Hsub _ _ H2') as (? & ? & ?).
    eapply (oi_disjoint _ _ _ _ _ _ _ Hinv); eauto.
  - intros w' Hne. unfold in_wait. split.
    + intros (c' & q' & Hq' & Hin'). destruct (Hsub _ _ Hq') as (q0 & ? & ?). eauto.
    + intros (c' & q' & Hq' & Hin'). exists c'. destruct (decide (c = c')) as [<-|]; [rewrite lookup_insert_eq|rewrite lookup_insert_ne by done; eauto].
      simplify_eq. exists q. set_solver.
  - rewrite lookup_insert_eq, !lookup_insert_ne by done. state_done.
Qed.

(** The waiter deletes its semaphore, which nobody else knows any more. *)
Lemma own_delete w r vals' : cs !! t = Some (DeleteSem (WSem w) :: r) ->
  vals' (WSem w) = None -> (forall x, x <> WSem w -> vals' x = vals x) ->
  is_Some (vals (WSem w)) /\ own !! Waits w = None /\
  own_inv (delete (Dels w) own) (<[t := r]> cs) vals' hold wq sls dvs.
Proof.
  intros Ht Hw Hvals. own_start Hinv Ht. apply Hag in Hg.
  pose proof (oi_waiters _ _ _ _ _ _ _ Hinv w) as Hst. rewrite Hg in Hst. inversion Hst; subst. split_and!; [eauto|done|].
  eapply (own_waiter_same t own cs vals hold wq sls dvs Hinv _ _ w); [..|exact Hch| |done|].
  - apply typed_drop; [done|by eapply own_typed_but].
  - by apply agrees_drop.
  - intros x ? ? ?. by rewrite lookup_delete_ne.
  - rewrite Hw, lookup_delete_eq, !lookup_delete_ne by done. state_done.
Qed.

(** Calls that only lead to other calls. *)
Lemma own_expand a fs r : cs !! t = Some (a :: r) -> a <> Finish_ -> a <> Halt_ ->
  (forall Γ Γ', agrees own t Γ -> act E a Γ = Some Γ' -> acts E fs Γ = Some Γ') ->
  own_inv own (<[t := fs ++ r]> cs) vals hold wq sls dvs.
Proof.
  intros Ht Hf Hh Hfs. destruct (own_next _ _ _ _ _ _ _ _ Hinv _ _ Ht Hf Hh) as (Γ & Γ' & Hag & Hact & Hch).
  eapply own_put; [done|done| |by left|apply Hinv]. by rewrite (checked_acts _ _ _ _ Γ') by eauto.
Qed.

Lemma acts_acquire l Γ Γ' : act E (Acquire_ l) Γ = Some Γ' -> acts E [P_ (LSem l); SetHolder l] Γ = Some Γ'.
Proof.
  cbn [act acts takeP]. unfold free_lock. case_bool_decide as Hg; [|done]. intros [= <-]. destruct Hg as (Hl & Hh & Hp & Hna).
  rewrite decide_True by set_solver. f_equal. set_solver.
Qed.

Lemma own_acquire l r : cs !! t = Some (Acquire_ l :: r) ->
  is_Some (hold !! l) /\ own_inv own (<[t := [P_ (LSem l); SetHolder l] ++ r]> cs) vals hold wq sls dvs.
Proof.
  intros Ht. split.
  - own_start Hinv Ht. destruct (lock_at _ _ _ _ _ _ _ Hinv l (proj1 Hg)) as (? & ? & -> & _). eauto.
  - eapply own_expand; [done|done|done|]. intros Γ Γ' _. apply acts_acquire.
Qed.

Lemma own_broadcast c l r : cs !! t = Some (Broadcast_ c l :: r) ->
  is_Some (wq !! c) /\ own_inv own (<[t := r]> cs) vals hold wq sls dvs /\
  own_inv own (<[t := [Signal_ c l; Broadcast_ c l] ++ r]> cs) vals hold wq sls dvs.
Proof.
  intros Ht. split_and!.
  - own_start Hinv Ht. destruct Hg as (Hc & _). by apply Hinv.
  - apply (own_expand (Broadcast_ c l) []); [done..|]. intros Γ Γ' _. cbn. unfold needs_lock. by case_decide.
  - eapply own_expand; [done..|]. intros Γ Γ' _. cbn [act acts]. unfold needs_lock. case_decide; [|done]. intros [= <-]. by rewrite decide_True.
Qed.

(** A thread that holds the driver's lock gives the device its request. *)
Lemma own_request d q r : cs !! t = Some (Request_ d q :: r) ->
  exists x, dvs !! d = Some x /\ busy x = false /\ request_ok (dkind x) q = true /\
  forall x', dkind x' = dkind x -> busy x' = true ->
    own_inv (<[Asked d := t]> own) (<[t := r]> cs) vals hold wq sls (<[d := x']> dvs).
Proof.
  intros Ht. own_start Hinv Ht. pose proof (oi_devs _ _ _ _ _ _ _ Hinv d) as Hd. unfold dev_ok in Hd.
  destruct (e_devs E !! d) as [kd|] eqn:Ed; [|done]. destruct (dvs !! d) as [dev|] eqn:Ex; [|by destruct Hd].
  destruct Hd as ([= ->] & v & Hv & Hst). destruct (decide _) as [(Hq & Hh & Hna)|]; [|done]. injection Hact as <-.
  exists dev. apply Hag in Hh. assert (own !! Asked d = None) as Hn.
  { eapply (not_asked t); [exact Hinv|]. right. split; [done|]. by rewrite <- (Hag (Asked d)). }
  rewrite Hn in Hst. inversion Hst; subst. split_and!; [done|done|done|]. intros x' Ek Eb.
  eapply (own_device t own cs vals hold wq sls dvs Hinv _ _ d); [..|exact Hch| |done| |].
  - apply typed_give; [eauto|congruence|by eapply own_typed_but].
  - by apply agrees_give.
  - intros y ?. by rewrite lookup_insert_ne.
  - intros d' ?. by rewrite lookup_insert_ne.
  - rewrite lookup_insert_eq. cbn [dev_ok]. split; [by rewrite Ek|]. eexists. split; [done|].
    rewrite lookup_insert_eq, lookup_insert_ne by done. rewrite Eb. by constructor.
Qed.

(** The device's interrupt. *)
Lemma own_complete d x x' vals' : dvs !! d = Some x -> busy x = true -> dkind x' = dkind x -> busy x' = false ->
  vals' (DSem d) = Some 1 -> (forall s, s <> DSem d -> vals' s = vals s) ->
  vals (DSem d) = Some 0 /\ own_inv own cs vals' hold wq sls (<[d := x']> dvs).
Proof.
  intros Hx Hb Ek Eb Hv Hvals. pose proof (oi_devs _ _ _ _ _ _ _ Hinv d) as Hd. rewrite Hx in Hd. destruct Hd as (Ed & v & Hv' & Hst).
  rewrite Hb in Hst. inversion Hst as [|u Hh|]; subst. split; [done|]. split; try apply Hinv.
  - intros n Hn. rewrite Hvals by done. by apply Hinv.
  - intros l Hl. rewrite Hvals by done. by apply Hinv.
  - intros w. rewrite Hvals by done. apply Hinv.
  - intros d'. destruct (decide (d' = d)) as [->|Hne].
    + rewrite lookup_insert_eq. cbn [dev_ok]. split; [by rewrite Ek|]. eexists. split; [done|]. rewrite Eb. state_done.
    + rewrite lookup_insert_ne by done. eapply dev_ok_ext; [apply Hvals; congruence|done|by left|apply Hinv].
Qed.

(** Threads come and go. *)
Lemma own_reap d : cs !! d = Some [Finish_] -> own_inv own (delete d cs) vals hold wq sls dvs.
Proof.
  intros Hd. destruct (oi_typed _ _ _ _ _ _ _ Hinv d _ Hd) as (Γ & Hag & Hch). apply bool_decide_eq_true in Hch. subst Γ.
  split; try apply Hinv.
  - intros u c [_ Hc]%lookup_delete_Some. by apply Hinv.
  - intros x u Hx. rewrite lookup_delete_ne; [by eapply Hinv|]. intros <-. apply Hag in Hx. set_solver.
Qed.

Lemma own_new u body : cs !! u = None -> checked E (body ++ [Finish_]) ∅ = true ->
  own_inv own (<[u := body ++ [Finish_]]> cs) vals hold wq sls dvs.
Proof.
  intros Hu Hch. split; try apply Hinv.
  - intros v c. destruct (decide (u = v)) as [<-|]; [rewrite lookup_insert_eq|rewrite lookup_insert_ne by done; apply Hinv].
    intros [= <-]. exists ∅. split; [|done]. intros x. split; [set_solver|]. intros Hx.
    destruct (oi_alive _ _ _ _ _ _ _ Hinv x u Hx). congruence.
  - intros x v Hx. destruct (decide (u = v)) as [<-|]; [rewrite lookup_insert_eq; eauto|rewrite lookup_insert_ne by done; by eapply Hinv].
Qed.
(** Synchronized lists *)
Context (Hwf : env_wf E).

Lemma own_append sl x item r : sls !! sl = Some x -> cs !! t = Some (Append_ sl item :: r) ->
  own_inv own (<[t := [Acquire_ (sl_lock x); PutItem sl item; Signal_ (listEmpty x) (sl_lock x); Release_ (sl_lock x)] ++ r]> cs) vals hold wq sls dvs.
Proof.
  intros Hx Ht. eapply own_expand; [done..|]. intros Γ Γ' _. cbn [act acts]. destruct (e_lists E !! sl) as [[l c]|] eqn:El; [|done].
  destruct (oi_lists _ _ _ _ _ _ _ Hinv _ _ _ El) as (x' & Hx' & <- & <-). assert (x' = x) as -> by congruence.
  destruct (proj1 Hwf _ _ _ El) as [Hl Hc]. destruct (free_lock E (sl_lock x) Γ) eqn:Hfree; [|done]. intros [= <-].
  apply bool_decide_eq_true in Hfree as (_ & Hh & Hp & Hna). unfold needs_lock. rewrite !decide_True by set_solver. f_equal. set_solver.
Qed.

Lemma own_removeFront sl x r : sls !! sl = Some x -> cs !! t = Some (RemoveFront_ sl :: r) ->
  own_inv own (<[t := [Acquire_ (sl_lock x); RemoveLoop sl; Release_ (sl_lock x)] ++ r]> cs) vals hold wq sls dvs.
Proof.
  intros Hx Ht. eapply own_expand; [done..|]. intros Γ Γ' _. cbn [act acts]. destruct (e_lists E !! sl) as [[l c]|] eqn:El; [|done].
  destruct (oi_lists _ _ _ _ _ _ _ Hinv _ _ _ El) as (x' & Hx' & <- & <-). assert (x' = x) as -> by congruence.
  destruct (proj1 Hwf _ _ _ El) as [Hl Hc]. destruct (free_lock E (sl_lock x) Γ) eqn:Hfree; [|done]. intros [= <-].
  apply bool_decide_eq_true in Hfree as (_ & Hh & Hp & Hna). unfold needs_lock. rewrite !decide_True by set_solver. f_equal. set_solver.
Qed.

Lemma own_removeWait sl x r : sls !! sl = Some x -> cs !! t = Some (RemoveLoop sl :: r) ->
  own_inv own (<[t := [Wait_ (listEmpty x) (sl_lock x); RemoveLoop sl] ++ r]> cs) vals hold wq sls dvs.
Proof.
  intros Hx Ht. eapply own_expand; [done..|]. intros Γ Γ' _. cbn [act acts]. destruct (e_lists E !! sl) as [[l c]|] eqn:El; [|done].
  destruct (oi_lists _ _ _ _ _ _ _ Hinv _ _ _ El) as (x' & Hx' & <- & <-). assert (x' = x) as -> by congruence.
  unfold needs_lock. case_decide; [|done]. intros [= <-]. by rewrite decide_True.
Qed.

(** The lists of the environment exist. *)
Lemma own_list a sl r : cs !! t = Some (a :: r) ->
  (exists item, a = Append_ sl item) \/ a = RemoveFront_ sl \/ (exists item, a = PutItem sl item) \/ a = RemoveLoop sl ->
  exists x, sls !! sl = Some x.
Proof.
  intros Ht Ha. assert (exists lc, e_lists E !! sl = Some lc) as [[l c] El].
  { destruct (own_next _ _ _ _ _ _ _ _ Hinv _ _ Ht) as (Γ & Γ' & _ & Hact & _); [naive_solver..|].
    destruct Ha as [[? ->]|[->|[[? ->]| ->]]]; cbn [act] in Hact; destruct (e_lists E !! sl); by eauto. }
  destruct (oi_lists _ _ _ _ _ _ _ Hinv _ _ _ El) as (x & ? & _). eauto.
Qed.

(** The list's contents change; the rights do not. *)
Lemma own_items a sl x y r : sls !! sl = Some x -> cs !! t = Some (a :: r) -> (exists item, a = PutItem sl item) \/ a = RemoveLoop sl ->
  sl_lock y = sl_lock x -> listEmpty y = listEmpty x ->
  own_inv own (<[t := r]> cs) vals hold wq (<[sl := y]> sls) dvs.
Proof.
  intros Hx Ht Ha E1 E2. destruct (own_next _ _ _ _ _ _ _ _ Hinv _ _ Ht) as (Γ & Γ' & Hag & Hact & Hch); [naive_solver..|].
  assert (Γ' = Γ) as ->.
  { destruct Ha as [[? ->]| ->]; cbn [act] in Hact; destruct (e_lists E !! sl) as [[]|]; unfold needs_lock in Hact; try case_decide; by simplify_eq. }
  eapply own_put; [done|done|done|by left|]. intros sl' l c Hl. destruct (oi_lists _ _ _ _ _ _ _ Hinv _ _ _ Hl) as (z & Hz & ? & ?).
  destruct (decide (sl = sl')) as [<-|]; [rewrite lookup_insert_eq|rewrite lookup_insert_ne by done; eauto].
  exists y. simplify_eq. split_and!; congruence.
Qed.
End operations.
End invariant.
