(* ===== verification/KernelSafe.v ===== *)
(** * Safety of the thread system

    The scheduler's invariant and the ownership discipline hold in every state
    that a checked program can reach, whatever the timer and the devices do:
    the kernel never fails one of its assertions, no wake-up is lost, locks
    exclude each other.  Also how [Yield] chooses, and what the order of the ready
    list means for it. *)

From S2P Require Import Prelude Lists Interrupt Machine AddrSpace Threads Synch SchedInv SynchInv.

Section safety.
Context (E : env) (Hwf : env_wf E) (garbage : list Z) (Hgarbage : length garbage = Z.to_nat NumTotalRegs).
Implicit Types (k : Kernel) (own : owners).

Abbreviation kinv := (kernel_inv E).

Lemma to_active k th :
  sched_inv None running k -> threads k !! currentThread k = Some th -> plain (machineState th) = true ->
  sched_inv None active k.
Proof.
  intros [(th' & Hc' & Hst & Hdn & Htg) Hoth Hr Hs Hd Hu] Hc Hp. assert (th' = th) as -> by congruence.
  split; try done. exists th. split; [done|]. rewrite Hst. by constructor.
Qed.

Lemma values_set_sem s sem k x : values (set_sem s sem k) x = if decide (x = s) then Some (value sem) else values k x.
Proof.
  unfold values. ksimpl. case_decide; subst; [by rewrite lookup_insert_eq|by rewrite lookup_insert_ne].
Qed.

(** ** One action of checked code *)
Section action.
Context (k : Kernel) (own : owners) (th : Thread) (a : action) (rest : list action).
Context (Hk : sched_inv None active k) (Ho : owned E own k) (Hc : threads k !! currentThread k = Some th)
  (Hms : machineState th = a :: rest) (Hplain : plain (a :: rest) = true).

Abbreviation k0 := (set_thread (currentThread k) (with_state rest th) k).
Abbreviation succeeds := (exists k' own', perform garbage a k0 = Ok k' /\ kinv own' k').

Lemma action_status : status th = RUNNING /\ toBeDestroyed k = None.
Proof.
  destruct (si_cur _ _ _ Hk) as (th' & Hc' & HC). assert (th' = th) as -> by congruence. rewrite Hms in HC.
  inversion HC; subst; try done. by match goal with H : at_rest _ |- _ => inversion H; subst end.
Qed.

Lemma action_cont : conts k !! currentThread k = Some (a :: rest).
Proof. unfold conts. rewrite lookup_fmap, Hc. cbn. rewrite Hms. by destruct a. Qed.

Lemma action_running ms : target ms = None -> sched_inv None running (set_thread (currentThread k) (with_state ms th) k).
Proof.
  intros Htg. destruct action_status as [Hst Hd]. eapply replace_current; [done|done| |congruence|done].
  intros s. rewrite awake_no_target; [done|]. rewrite Hms. by destruct a.
Qed.

Lemma action_checked : a <> Finish_ -> a <> Halt_ -> exists Γ, checked E rest Γ = true.
Proof. intros. destruct (own_next _ _ _ _ _ _ _ _ _ Ho _ _ action_cont) as (? & ? & _ & _ & ?); eauto. Qed.

(** An action that only stores to locks, conditions, lists and devices, and leaves the
    thread with [c] to do. *)
Lemma action_stores c own' hold wq sls dvs :
  own_inv E own' (<[currentThread k := c]> (conts k)) (values k) hold wq sls dvs ->
  kinv own' (set_thread (currentThread k) (with_state c th)
    (with_devices dvs (with_synchLists sls (with_waitQueue wq (with_lockHolder hold k))))).
Proof.
  intros Ho'. destruct (oi_typed _ _ _ _ _ _ _ _ Ho' (currentThread k) c) as (Γ & _ & Hch); [by rewrite lookup_insert_eq|].
  destruct (checked_plain _ _ _ Hch) as (Hp & Hcc & Htg). split.
  - eapply to_active; [|ksimpl; by rewrite lookup_insert_eq|done]. destruct (action_running c Htg). by split.
  - unfold owned. rewrite conts_set_ne. tsimpl. rewrite Hcc. exact Ho'.
Qed.

Lemma perform_Acquire l : a = Acquire_ l -> succeeds.
Proof.
  intros Ea. pose proof action_cont as Hcont. rewrite Ea in Hcont |- *. destruct (own_acquire _ _ _ _ _ _ _ _ _ Ho l rest Hcont) as [[h Hh] Ho'].
  eexists _, own. split; [|exact (action_stores _ _ _ _ _ _ Ho')].
  cbn [perform]. unfold Acquire. ksimpl. rewrite (deref_Some _ _ _ Hh). cbn [mbind outcome_bind]. by rewrite push_set.
Qed.

Lemma IsHeld_ok l k1 : lockHolder k1 !! l = Some (Some (currentThread k1)) -> IsHeldByCurrentThread l k1 = Ok true.
Proof. intros Hh. unfold IsHeldByCurrentThread. rewrite (deref_Some _ _ _ Hh). cbn. by rewrite bool_decide_eq_true_2. Qed.

Lemma perform_Release l : a = Release_ l -> succeeds.
Proof.
  intros Ea. pose proof action_cont as Hcont. rewrite Ea in Hcont |- *. destruct (own_release _ _ _ _ _ _ _ _ _ Ho l rest Hcont) as [Hh Ho'].
  eexists _, _. split; [|exact (action_stores _ _ _ _ _ _ Ho')].
  cbn [perform]. unfold Release. rewrite IsHeld_ok by done. cbn [ASSERT mbind outcome_bind].
  exact (push_set _ (set_holder l None k) _).
Qed.

Lemma perform_SetHolder l : a = SetHolder l -> succeeds.
Proof.
  intros Ea. pose proof action_cont as Hcont. rewrite Ea in Hcont |- *. destruct (own_setHolder _ _ _ _ _ _ _ _ _ Ho l rest Hcont) as ([h Hh] & _ & Ho').
  eexists _, _. split; [|exact (action_stores _ _ _ _ _ _ Ho')].
  cbn [perform]. ksimpl. by rewrite (deref_Some _ _ _ Hh).
Qed.

Lemma perform_Signal c l : a = Signal_ c l -> succeeds.
Proof.
  intros Ea. pose proof action_cont as Hcont. rewrite Ea in Hcont |- *. destruct (own_signal _ _ _ _ _ _ _ _ _ Ho c l rest Hcont) as (Hh & q & Hq & Ho').
  cbn [perform]. unfold Signal. rewrite IsHeld_ok by done. cbn [ASSERT mbind outcome_bind]. ksimpl. rewrite (deref_Some _ _ _ Hq).
  cbn [mbind outcome_bind]. destruct q as [|w q]; (eexists _, _; split; [|exact (action_stores _ _ _ _ _ _ Ho')]); [done|].
  exact (push_set _ (set_waitQueue c q k) _).
Qed.

Lemma perform_Broadcast c l : a = Broadcast_ c l -> succeeds.
Proof.
  intros Ea. pose proof action_cont as Hcont. rewrite Ea in Hcont |- *. destruct (own_broadcast _ _ _ _ _ _ _ _ _ Ho c l rest Hcont) as ([q Hq] & Ho1 & Ho2).
  cbn [perform]. unfold Broadcast. ksimpl. rewrite (deref_Some _ _ _ Hq). cbn [mbind outcome_bind].
  destruct q as [|w q].
  - eexists _, _. split; [|exact (action_stores _ _ _ _ _ _ Ho1)]. done.
  - eexists _, _. split; [|exact (action_stores _ _ _ _ _ _ Ho2)]. by rewrite push_set.
Qed.

Lemma perform_Append sl item : a = Append_ sl item -> succeeds.
Proof.
  intros Ea. pose proof action_cont as Hcont. rewrite Ea in Hcont |- *.
  destruct (own_list _ _ _ _ _ _ _ _ _ Ho _ sl rest Hcont) as [x Hx]; [by eauto|].
  eexists _, own. split; [|exact (action_stores _ _ _ _ _ _ (own_append _ _ _ _ _ _ _ _ _ Ho Hwf sl x item rest Hx Hcont))].
  cbn [perform]. unfold SynchAppend. ksimpl. rewrite (deref_Some _ _ _ Hx). cbn [mbind outcome_bind]. by rewrite push_set.
Qed.

Lemma perform_RemoveFront sl : a = RemoveFront_ sl -> succeeds.
Proof.
  intros Ea. pose proof action_cont as Hcont. rewrite Ea in Hcont |- *.
  destruct (own_list _ _ _ _ _ _ _ _ _ Ho _ sl rest Hcont) as [x Hx]; [by eauto|].
  eexists _, own. split; [|exact (action_stores _ _ _ _ _ _ (own_removeFront _ _ _ _ _ _ _ _ _ Ho Hwf sl x rest Hx Hcont))].
  cbn [perform]. unfold SynchRemoveFront. ksimpl. rewrite (deref_Some _ _ _ Hx). cbn [mbind outcome_bind]. by rewrite push_set.
Qed.

Lemma perform_RemoveLoop sl : a = RemoveLoop sl -> succeeds.
Proof.
  intros Ea. pose proof action_cont as Hcont. rewrite Ea in Hcont |- *.
  destruct (own_list _ _ _ _ _ _ _ _ _ Ho _ sl rest Hcont) as [x Hx]; [by eauto|].
  cbn [perform]. unfold remove_front_loop. ksimpl. rewrite (deref_Some _ _ _ Hx). cbn [mbind outcome_bind].
  destruct (items x) as [|i xs] eqn:Ei.
  - eexists _, own. split; [|exact (action_stores _ _ _ _ _ _ (own_removeWait _ _ _ _ _ _ _ _ _ Ho sl x rest Hx Hcont))]. by rewrite push_set.
  - eexists _, own. split; [|eapply (action_stores rest); eapply (own_items _ _ _ _ _ _ _ _ _ Ho _ sl x
      (mkSynchList xs (sl_lock x) (listEmpty x))); [done|exact Hcont|by right|done|done]].
    reflexivity.
Qed.

Lemma perform_PutItem sl item : a = PutItem sl item ->
  succeeds \/ (perform garbage a k0 = Err AssertFailed /\ exists x, synchLists k !! sl = Some x /\ item ∈ items x).
Proof.
  intros Ea. pose proof action_cont as Hcont. rewrite Ea in Hcont |- *.
  destruct (own_list _ _ _ _ _ _ _ _ _ Ho _ sl rest Hcont) as [x Hx]; [by eauto|].
  cbn [perform]. unfold put_item. ksimpl. rewrite (deref_Some _ _ _ Hx). cbn [mbind outcome_bind]. unfold Spec.append.
  destruct (decide (item ∈ items x)) as [Hin|Hnin].
  - right. rewrite bool_decide_eq_false_2 by auto. cbn. eauto.
  - left. rewrite bool_decide_eq_true_2 by done. cbn [ASSERT mbind outcome_bind].
    eexists _, own. split; [|eapply (action_stores rest); eapply (own_items _ _ _ _ _ _ _ _ _ Ho _ sl x
      (mkSynchList (items x ++ [item]) (sl_lock x) (listEmpty x))); [done|exact Hcont|by eauto|done|done]].
    reflexivity.
Qed.

Lemma perform_Request d q : a = Request_ d q -> succeeds.
Proof.
  intros Ea. pose proof action_cont as Hcont. rewrite Ea in Hcont |- *.
  destruct (own_request _ _ _ _ _ _ _ _ _ Ho d q rest Hcont) as (x & Hx & Hb & Hq & Ho').
  eexists _, _. split; [|exact (action_stores _ _ _ _ _ _ (Ho' (mkDevice (dkind x) true) eq_refl eq_refl))].
  cbn [perform]. unfold dev_request. ksimpl. rewrite (deref_Some _ _ _ Hx). cbn [mbind outcome_bind]. by rewrite Hb, Hq.
Qed.

(** Lists of another thread's actions and the objects are as before. *)
Lemma owned_same own1 k1 k2 : same_sync k1 k2 -> conts k2 = conts k1 -> owned E own1 k1 -> owned E own1 k2.
Proof. intros [E1 E2 E3 E4 E5 _] Ec. unfold owned, values. by rewrite E1, E2, E3, E4, E5, Ec. Qed.

Lemma perform_Yield : a = Yield_ -> succeeds.
Proof.
  intros Ea. pose proof action_cont as Hcont. destruct action_checked as [Γ Hch]; [by rewrite Ea..|]. rewrite Ea in Hcont |- *.
  destruct (checked_plain _ _ _ Hch) as (Hp & Hcc & Htg). cbn [perform].
  destruct (Yield_ok k0 (with_state rest th)) as (k' & -> & Hk' & Hss & Hct & _); [by apply action_running|ksimpl; by rewrite lookup_insert_eq|].
  eexists k', own. split; [done|]. split; [done|]. destruct Hss as [E1 E2 E3 E4 E5 _]. unfold owned, values. rewrite E1, E2, E3, E4, E5, Hct. ksimpl. tsimpl.
  rewrite conts_set_ne, insert_insert_eq.
  apply (own_expand _ _ _ _ _ _ _ _ _ Ho Yield_ [] rest); [done..|]. by intros ? ? _ [= <-].
Qed.

Lemma perform_Fork p body : a = Fork_ p body ->
  succeeds \/ (perform garbage a k0 = Err AssertFailed /\ (exists q, p = Some q) /\ MAX_THREAD_NUM <= threadNum k).
Proof.
  intros Ea. pose proof action_cont as Hcont. destruct action_checked as [Γ Hch]; [by rewrite Ea..|]. rewrite Ea in Hcont |- *.
  destruct (checked_plain _ _ _ Hch) as (Hp & Hcc & Htg). cbn [perform].
  assert ((exists q, p = Some q) /\ MAX_THREAD_NUM <= threadNum k \/ (p <> None -> threadNum k < MAX_THREAD_NUM)) as [[[q ->] Hn]|Hn].
  { destruct p; [|by right]. destruct (Z.lt_ge_cases (threadNum k) MAX_THREAD_NUM); [by right|left; eauto]. }
  { right. unfold fork_new, newThreadPriority. ksimpl. replace (threadNum k + 1 <=? MAX_THREAD_NUM) with false by lia. by eauto. }
  left. destruct (fork_ok k0 (with_state rest th) garbage p body) as (k' & t & -> & Hk' & Ht & Hss & Hct & Hcur & Hth);
    [by apply action_running|ksimpl; by rewrite lookup_insert_eq|done|done|].
  eexists k', own. split; [done|]. split.
  - eapply to_active; [done|by rewrite Hcur|done].
  - destruct Hss as [E1 E2 E3 E4 E5 _]. ksimpl. unfold owned, values. rewrite E1, E2, E3, E4, E5, Hct, conts_set_ne. tsimpl. rewrite Hcc.
    assert (own_inv E own (<[currentThread k := rest]> (conts k)) (values k) (lockHolder k) (waitQueue k) (synchLists k) (devices k)) as Ho1.
    { apply (own_expand _ _ _ _ _ _ _ _ _ Ho (Fork_ p body) [] rest); [done..|]. intros ? ? _. rewrite act_fork. by case_match. }
    apply (own_new _ _ _ _ _ _ _ _ Ho1).
    + apply lookup_insert_None in Ht as [Ht Hne]. rewrite lookup_insert_ne by done. unfold conts. by rewrite lookup_fmap, Ht.
    + destruct (own_next _ _ _ _ _ _ _ _ _ Ho _ _ Hcont) as (? & ? & _ & Hact & _); [done..|]. rewrite act_fork in Hact. by case_match.
Qed.

Lemma perform_Finish : a = Finish_ -> succeeds.
Proof.
  intros Ea. pose proof action_cont as Hcont. rewrite Ea in Hcont |- *.
  assert (rest = []) as Er.
  { destruct (oi_typed _ _ _ _ _ _ _ _ Ho _ _ Hcont) as (Γ & _ & Hch). by destruct rest. }
  cbn [perform]. destruct (Finish_ok k0 (with_state rest th)) as (k' & -> & Hk' & Hss & Hct);
    [apply action_running; by rewrite Er|ksimpl; by rewrite lookup_insert_eq|done|].
  eexists k', own. split; [done|]. split; [done|]. eapply (owned_same own k); [by destruct Hss| |done].
  rewrite Hct, conts_set_ne. apply insert_id. tsimpl. by rewrite Hcont, Er.
Qed.

Lemma perform_Wait c l : a = Wait_ c l -> succeeds.
Proof.
  intros Ea. pose proof action_cont as Hcont. rewrite Ea in Hcont |- *.
  set (w := fresh_waiter k).
  assert (sems k !! WSem w = None) as Hw.
  { apply not_elem_of_dom. intros Hin. apply (is_fresh (set_omap (fun s => match s with WSem n => Some n | _ => None end) (dom (sems k)) : gset positive)).
    apply elem_of_set_omap. exists (WSem w). split; [done|]. reflexivity. }
  set (k1 := set_sem (WSem w) (newSemaphore 0) k).
  destruct (own_wait _ _ _ _ _ _ _ _ _ Ho c l rest w (values k1) Hcont) as (Hh & q & Hq & Hwq & Ho').
  { unfold values. by rewrite Hw. }
  { unfold k1. rewrite values_set_sem. by rewrite decide_True. }
  { intros x Hx. unfold k1. rewrite values_set_sem. by rewrite decide_False. }
  set (fs := [Release_ l; P_ (WSem w); Acquire_ l; DeleteSem (WSem w)]) in *.
  exists (set_thread (currentThread k) (with_state (fs ++ rest) th) (set_waitQueue c (q ++ [w]) k1)), (<[Waits w := currentThread k]> own). split.
  - cbn [perform]. unfold Wait. rewrite IsHeld_ok by done. cbn [ASSERT mbind outcome_bind]. ksimpl.
    rewrite (deref_Some _ _ _ Hq). cbn [mbind outcome_bind]. unfold Spec.append.
    change (fresh_waiter _) with w. rewrite bool_decide_eq_true_2 by done. cbn [ASSERT mbind outcome_bind].
    exact (push_set _ (set_waitQueue c (q ++ [w]) k1) _).
  - destruct (oi_typed _ _ _ _ _ _ _ _ Ho' (currentThread k) (fs ++ rest)) as (Γ & _ & Hch); [by rewrite lookup_insert_eq|].
    destruct (checked_plain _ _ _ Hch) as (Hp & Hcc & Htg). split.
    + eapply to_active; [|ksimpl; by rewrite lookup_insert_eq|done].
      pose proof (action_running (fs ++ rest) Htg) as Hr.
      assert (sched_inv None running (with_sems (sems k1) (set_thread (currentThread k) (with_state (fs ++ rest) th) k))) as Hr'.
      { eapply running_sems; [done| |].
        - intros s sem. unfold k1. ksimpl. destruct (decide (WSem w = s)) as [<-|]; [rewrite lookup_insert_eq|rewrite lookup_insert_ne by done].
          + intros [= <-]. split; cbn [newSemaphore queue value]; [constructor|lia|by intros ? ?%elem_of_nil|done].
          + intros Hs. exact (si_sems _ _ _ Hr s sem Hs).
        - intros s t (sem & Hs & Hin). exists sem. split; [|done]. unfold k1. ksimpl. rewrite lookup_insert_ne by congruence. done. }
      destruct Hr'. by split.
    + unfold owned. rewrite conts_set_ne. tsimpl. rewrite Hcc. exact Ho'.
Qed.

(** Nobody is queued on a semaphore that no thread has still to pass. *)
Lemma queue_empty w sem : sems k !! WSem w = Some sem -> own !! Waits w = None -> queue sem = [].
Proof.
  intros Hs Hw. destruct (queue sem) as [|t q] eqn:Eq; [done|]. exfalso.
  destruct (s_mem _ _ _ _ (si_sems _ _ _ Hk _ _ Hs) t) as (tht & Ht & Hst & Htg); [rewrite Eq; by left|].
  assert (conts k !! t = Some (cont (machineState tht))) as Hct by (unfold conts; by rewrite lookup_fmap, Ht).
  assert (exists r, cont (machineState tht) = P_ (WSem w) :: r) as [r Er].
  { clear -Htg. destruct (machineState tht) as [|[] [|[] r]]; cbn in *; try done; simplify_eq; eauto; by case_match; simplify_eq; eauto. }
  rewrite Er in Hct. destruct (own_next _ _ _ _ _ _ _ _ _ Ho _ _ Hct) as (Γ & Γ' & Hag & Hact & _); [done..|].
  cbn in Hact. case_decide as Hin; [|done]. apply Hag in Hin. congruence.
Qed.

Lemma perform_DeleteSem s : a = DeleteSem s -> succeeds.
Proof.
  intros Ea. pose proof action_cont as Hcont. destruct action_checked as [Γ Hch]; [by rewrite Ea..|]. rewrite Ea in Hcont |- *.
  destruct (checked_plain _ _ _ Hch) as (Hp & Hcc & Htg).
  assert (exists w, s = WSem w) as [w ->].
  { destruct (own_next _ _ _ _ _ _ _ _ _ Ho _ _ Hcont) as (? & ? & _ & Hact & _); [done..|]. destruct s; eauto; done. }
  set (k1 := with_sems (delete (WSem w) (sems k)) k).
  destruct (own_delete _ _ _ _ _ _ _ _ _ Ho w rest (values k1) Hcont) as ([v Hv] & Hno & Ho').
  { unfold values, k1. ksimpl. by rewrite lookup_delete_eq. }
  { intros x Hx. unfold values, k1. ksimpl. by rewrite lookup_delete_ne. }
  unfold values in Hv. apply fmap_Some in Hv as (sem & Hsem & _).
  exists (with_sems (delete (WSem w) (sems k)) k0), (delete (Dels w) own). split.
  - cbn [perform]. unfold deleteSemaphore. ksimpl. by rewrite (deref_Some _ _ _ Hsem).
  - split.
    + eapply to_active; [|ksimpl; by rewrite lookup_insert_eq|done]. pose proof (action_running rest Htg) as Hr.
      eapply running_sems; [done| |].
      * intros x semx [_ Hx]%lookup_delete_Some. exact (si_sems _ _ _ Hr x semx Hx).
      * intros x t (semx & Hx & Hin). exists semx. split; [|done]. ksimpl. rewrite lookup_delete_ne; [done|].
        intros <-. ksimpl. rewrite (queue_empty w semx Hx Hno) in Hin. set_solver.
    + unfold owned. change (conts (with_sems _ k0)) with (conts k0). rewrite conts_set_ne. tsimpl. rewrite Hcc. exact Ho'.
Qed.

Lemma perform_V s : a = V_ s ->
  succeeds \/ (perform garbage a k0 = Err Undefined /\ exists n sem, s = USem n /\ sems k !! s = Some sem /\ value sem = 2 ^ 31 - 1).
Proof.
  intros Ea. pose proof action_cont as Hcont. destruct action_checked as [Γ Hch]; [by rewrite Ea..|]. rewrite Ea in Hcont |- *.
  destruct (checked_plain _ _ _ Hch) as (Hp & Hcc & Htg). cbn [perform].
  destruct (own_V _ _ _ _ _ _ _ _ _ Ho s rest Hcont) as (v & Hv & Hsmall & Ho').
  unfold values in Hv. apply fmap_Some in Hv as (sem & Hsem & ->).
  pose proof (action_running rest Htg) as Hr. pose proof (s_value _ _ _ _ (si_sems _ _ _ Hr s sem Hsem)) as Hvb.
  destruct (Z.eq_dec (value sem) (2 ^ 31 - 1)) as [Emax|Hmax].
  { right. split; [by eapply V_overflow|]. assert (exists n, s = USem n) as [n ->]; [|eauto].
    destruct s as [n| | |]; [eauto|exfalso; assert (value sem = 0) by (apply Hsmall; done); lia..]. }
  left. destruct (V_ok running k0 s sem) as (k' & -> & Hk' & Hss & Hl & Hcur & Hth); [done|done|lia|].
  destruct (Ho' (values k')) as (own' & Ho'').
  { unfold values. rewrite (ss_sems _ _ Hss). ksimpl. by rewrite lookup_insert_eq. }
  { intros x Hx. unfold values. rewrite (ss_sems _ _ Hss). ksimpl. by rewrite lookup_insert_ne. }
  exists k', own'. split; [done|]. ksimpl.
  pose proof (Hth (currentThread k)) as Hcth. rewrite lookup_insert_eq in Hcth. apply fmap_Some in Hcth as (th' & Hth' & Hms').
  split.
  - eapply to_active; [done|by rewrite Hcur|]. by rewrite <- Hms'.
  - assert (conts k' = <[currentThread k := rest]> (conts k)) as Hct.
    { rewrite <- Hcc at 1. change (cont rest) with (cont (machineState (with_state rest th))). rewrite <- conts_set_ne.
      unfold conts. apply map_eq. intros x. rewrite !lookup_fmap. specialize (Hth x). ksimpl.
      destruct (threads k' !! x), (<[currentThread k:=with_state rest th]> (threads k) !! x); simplify_eq/=; congruence. }
    destruct Hss as [_ E2 E3 E4 E5 _]. unfold owned. rewrite Hct, E2, E3, E4, E5. exact Ho''.
Qed.
End action.

(** ** [Semaphore::P], entered or taken up again after a wait *)
Lemma P_loop_safe k own th rest s ol :
  sched_inv (Some s) running k -> threads k !! currentThread k = Some (with_state rest th) -> intLevel k = IntOff ->
  own_inv E own (<[currentThread k := P_ s :: rest]> (conts k)) (values k) (lockHolder k) (waitQueue k) (synchLists k) (devices k) ->
  exists k' own', P_loop s ol k = Ok k' /\ kinv own' k'.
Proof.
  intros Hk Hc Hl Ho.
  assert (<[currentThread k := P_ s :: rest]> (conts k) !! currentThread k = Some (P_ s :: rest)) as Hcont by apply lookup_insert_eq.
  destruct (own_P_exists _ _ _ _ _ _ _ _ _ Ho s rest Hcont) as [v Hv]. pose proof Hv as Hv'. unfold values in Hv'.
  apply fmap_Some in Hv' as (sem & Hsem & ->).
  destruct (own_next _ _ _ _ _ _ _ _ _ Ho _ _ Hcont) as (Γ & Γ' & _ & _ & Hch); [done..|].
  destruct (checked_plain _ _ _ Hch) as (Hp & Hcc & Htg).
  destruct (Z.eq_dec (value sem) 0) as [E0|Hne].
  - destruct (P_block_ok s ol k _ sem Hk Hc Hl Hsem E0) as (k' & -> & Hk' & Hss & Hct). exists k', own. split; [done|]. split; [done|].
    destruct Hss as [E1 E2 E3 E4 E5 _]. ksimpl. unfold owned. rewrite E2, E3, E4, E5, Hct. tsimpl.
    rewrite <- (insert_insert_eq (conts k) (currentThread k) (P_ s :: rest) (P_ s :: rest)).
    destruct (oi_typed _ _ _ _ _ _ _ _ Ho _ _ Hcont) as (Δ & Hag & HchΔ).
    eapply own_put; [exact Ho|exact Hag|exact HchΔ| |apply Ho]. intros x. left. unfold values. rewrite E1.
    destruct (decide (s = x)) as [<-|]; [rewrite lookup_insert_eq, Hsem; cbn; by rewrite E0|by rewrite lookup_insert_ne].
  - destruct (P_pass_ok s ol k sem Hk Hsem Hne) as (-> & Hk').
    set (k' := with_intLevel ol (set_sem s (mkSem (value sem - 1) (queue sem)) k)) in *.
    destruct (own_P_pass _ _ _ _ _ _ _ _ _ Ho s rest (value sem) (values k') Hcont Hv Hne) as (own' & Ho').
    { unfold values, k'. ksimpl. by rewrite lookup_insert_eq. }
    { intros x Hx. unfold values, k'. ksimpl. by rewrite lookup_insert_ne. }
    exists k', own'. split; [done|]. split; [by eapply to_active|]. rewrite insert_insert_eq in Ho'.
    unfold owned. rewrite insert_id in Ho'; [exact Ho'|]. unfold conts. rewrite lookup_fmap, Hc. cbn. by rewrite Hcc.
Qed.

(** ** The whole step *)

(** The ways in which checked code can stop the simulation. *)
Inductive may_stop (k : Kernel) : failure -> Prop :=
  | stop_halt : next_action k = Some Halt_ -> may_stop k Halted
  | stop_threads p body : next_action k = Some (Fork_ (Some p) body) -> MAX_THREAD_NUM <= threadNum k -> may_stop k AssertFailed
  | stop_overflow n sem : next_action k = Some (V_ (USem n)) -> sems k !! USem n = Some sem -> value sem = 2 ^ 31 - 1 ->
      may_stop k Undefined
  | stop_duplicate sl item x : next_action k = Some (PutItem sl item) -> synchLists k !! sl = Some x -> item ∈ items x ->
      may_stop k AssertFailed.

Lemma exec_head k th a rest :
  threads k !! currentThread k = Some th -> machineState th = a :: rest ->
  exec garbage k = perform garbage a (set_thread (currentThread k) (with_state rest th) k) /\ next_action k = Some a.
Proof. intros Hc Hms. unfold exec, next_action, deref. rewrite Hc. cbn. by rewrite Hms. Qed.

Definition safe_step k : Prop :=
  (exists k' own', exec garbage k = Ok k' /\ kinv own' k') \/ (exists e, exec garbage k = Err e /\ may_stop k e).

(** One of the lemmas above, for the action at hand. *)
Ltac performed L := solve [eapply L; try reflexivity; eassumption].

Lemma plain_safe own k th a rest :
  kinv own k -> threads k !! currentThread k = Some th -> machineState th = a :: rest -> plain (a :: rest) = true -> safe_step k.
Proof.
  intros [Hk Ho] Hc Hms Hp. destruct (exec_head k th a rest Hc Hms) as [Hex Hnext]. unfold safe_step. rewrite Hex.
  pose proof (action_cont k th a rest Hc Hms Hp) as Hcont.
  destruct a; try discriminate Hp; try (left; first [performed perform_Yield | performed perform_Acquire | performed perform_Release
    | performed perform_SetHolder | performed perform_Wait | performed perform_Signal | performed perform_Broadcast
    | performed perform_Append | performed perform_RemoveFront | performed perform_RemoveLoop | performed perform_DeleteSem
    | performed perform_Request | performed perform_Finish]).
  - (* P *)
    left. cbn [perform]. unfold P. destruct (own_next _ _ _ _ _ _ _ _ _ Ho _ _ Hcont) as (? & ? & _ & _ & Hch); [done..|].
    destruct (checked_plain _ _ _ Hch) as (_ & _ & Htg).
    apply (P_loop_safe _ own th rest); [|ksimpl; by rewrite lookup_insert_eq|done|].
    + destruct (action_running k th (P_ s) rest Hk Hc Hms Hp rest Htg). split; try done. by apply sems_ok_weaken.
    + change (conts (with_intLevel _ ?k)) with (conts k). rewrite conts_set_ne, insert_insert_eq, insert_id by done. exact Ho.
  - destruct (perform_V k own th _ rest Hk Ho Hc Hms Hp s eq_refl) as [?|(He & n & sem & -> & ? & ?)]; [by left|right].
    eexists. split; [done|]. by econstructor.
  - destruct (perform_Fork k own th _ rest Hk Ho Hc Hms Hp p body eq_refl) as [?|(He & [q ->] & ?)]; [by left|right].
    eexists. split; [done|]. by econstructor.
  - right. eexists. split; [done|]. by constructor.
  - destruct (perform_PutItem k own th _ rest Hk Ho Hc Hms Hp sl item eq_refl) as [?|(He & x & ? & ?)]; [by left|right].
    eexists. split; [done|]. by eapply stop_duplicate.
Qed.

Lemma owned_reap own k k' :
  sched_inv None active k -> owned E own k -> same_sync k k' -> conts k' = reap k (conts k) -> owned E own k'.
Proof.
  intros Hk Ho [E1 E2 E3 E4 E5 _] Hct. unfold owned, values. rewrite E1, E2, E3, E4, E5, Hct. unfold reap.
  destruct (toBeDestroyed k) as [d|] eqn:Ed; [|exact Ho]. destruct (si_destroy _ _ _ Hk d Ed) as (_ & th & Hth & _ & Hms).
  apply own_reap; [exact Ho|]. unfold conts. rewrite lookup_fmap, Hth. cbn [fmap option_fmap option_map]. by rewrite Hms.
Qed.

Lemma exec_safe own k : kinv own k -> safe_step k.
Proof.
  intros Hinv. destruct Hinv as [Hk Ho]. destruct (si_cur _ _ _ Hk) as (th & Hc & HC).
  assert (conts k !! currentThread k = Some (cont (machineState th))) as Hcont by (unfold conts; by rewrite lookup_fmap, Hc).
  destruct (machineState th) as [|a rest] eqn:Hms; [inversion HC; subst; try done; by match goal with H : at_rest _ |- _ => inversion H end|].
  destruct (plain (a :: rest)) eqn:Hp; [by eapply (plain_safe own k th a rest)|].
  destruct (exec_head k th a rest Hc Hms) as [Hex Hnext]. unfold safe_step. rewrite Hex. left.
  assert (at_rest (a :: rest) \/ (exists ol, a = SetLevel_ ol /\ status th = RUNNING) \/
    (exists s ol, a = PLoop s ol /\ intLevel k = IntOff /\ status th = RUNNING) \/ (exists f, a = SleepLoop f)) as Hcases.
  { inversion HC; subst; try congruence; [by left|naive_solver..]. }
  destruct Hcases as [Hrest|[(ol & -> & Hst)|[(s & ol & -> & Hl & Hst)|[f ->]]]].
  - assert (a = Begin_ \/ a = RunTail) as [->| ->] by (inversion Hrest; eauto).
    + destruct (oi_typed _ _ _ _ _ _ _ _ Ho _ _ Hcont) as (Γ & _ & Hch). cbn [cont] in Hcont, Hch.
      destruct (checked_plain _ _ _ Hch) as (Hpl & Hcc & Htg).
      destruct (Begin_ok k th rest Hk Hc Hms Htg) as (k' & Hk1 & Hk' & Hss & Hct & Hcur & Hth). exists k', own. split; [done|].
      split; [eapply to_active; [done|by rewrite Hcur|done]|]. eapply owned_reap; [done|done|done|]. by rewrite Hct, Hcc, insert_id.
    + destruct (run_tail_ok k th rest Hk Hc Hms) as (k' & Hk1 & Hk' & Hss & Hct). exists k', own. split; [done|]. split; [done|].
      exact (owned_reap own k k' Hk Ho Hss Hct).
  - destruct (oi_typed _ _ _ _ _ _ _ _ Ho _ _ Hcont) as (Γ & _ & Hch). cbn [cont] in Hcont, Hch.
    destruct (checked_plain _ _ _ Hch) as (Hpl & Hcc & Htg).
    eexists _, own. split; [done|]. split.
    + eapply to_active; [|ksimpl; by rewrite lookup_insert_eq|done].
      assert (toBeDestroyed k = None) as Hd by (inversion HC; subst; try done; by match goal with H : at_rest _ |- _ => inversion H end).
      assert (sched_inv None running (set_thread (currentThread k) (with_state rest th) k)) as Hr.
      { eapply replace_current; [done|done| |congruence|done]. intros x. rewrite awake_no_target; [done|by rewrite Hms]. }
      destruct Hr. by split.
    + eapply (owned_same own k); [done| |done]. change (conts (with_intLevel _ ?k)) with (conts k).
      eapply conts_set; [done|]. tsimpl. by rewrite Hms, Hcc.
  - apply (P_loop_safe _ own th rest); [|ksimpl; by rewrite lookup_insert_eq|done|].
    + assert (toBeDestroyed k = None) as Hd by (inversion HC; subst; try done; by match goal with H : at_rest _ |- _ => inversion H end).
      destruct (oi_typed _ _ _ _ _ _ _ _ Ho _ _ Hcont) as (Γ & _ & Hch). cbn [cont] in Hch.
      rewrite checked_cons in Hch by done. case_match; [|done]. destruct (checked_plain _ _ _ Hch) as (_ & _ & Htg).
      eapply replace_current; [done|done| |congruence|done]. intros x Hx. right.
      unfold awake in Hx. rewrite Hms in Hx. apply andb_true_iff in Hx as [_ Hx%bool_decide_eq_true]. done.
    + rewrite conts_set_ne, insert_insert_eq, insert_id by done. exact Ho.
  - destruct (SleepLoop_ok k th f rest Hk Hc Hms) as (k' & Hk1 & Hk' & Hss & Hct). exists k', own. split; [done|]. split; [done|].
    by eapply owned_same.
Qed.

(** ** Interrupts *)
Lemma timer_safe own k k' : kinv own k -> intLevel k = IntOn -> push [Yield_] k = Ok k' -> kinv own k'.
Proof.
  intros [Hk Ho] Hl Hpush. destruct (si_cur _ _ _ Hk) as (th & Hc & HC).
  rewrite (push_ok _ _ th Hc) in Hpush. injection Hpush as <-. cbn [app].
  assert (plain (machineState th) = true /\ status th = RUNNING /\ toBeDestroyed k = None) as (Hp & Hst & Hd) by (inversion HC; subst; by try congruence).
  assert (cont (machineState th) = machineState th /\ target (machineState th) = None) as [Hcc Htg].
  { clear -Hp. by destruct (machineState th) as [|[] ?]. }
  split.
  - eapply to_active; [|ksimpl; by rewrite lookup_insert_eq|done].
    eapply replace_current; [done|done| |congruence|done]. intros s. by rewrite awake_no_target.
  - unfold owned. rewrite conts_set_ne. tsimpl. cbn [cont].
    destruct (oi_typed _ _ _ _ _ _ _ _ Ho (currentThread k) (machineState th)) as (Γ & Hag & Hch).
    { unfold conts. rewrite lookup_fmap, Hc. cbn. by rewrite Hcc. }
    eapply own_put; [exact Ho|exact Hag|by rewrite checked_cons by done|by left|apply Ho].
Qed.

Lemma device_safe own k k' n : kinv own k -> V (USem n) k = Ok k' -> kinv own k'.
Proof.
  intros [Hk Ho] HV. assert (exists sem, sems k !! USem n = Some sem) as [sem Hsem].
  { unfold V, deref in HV. ksimpl. destruct (sems k !! USem n); [eauto|done]. }
  pose proof (s_value _ _ _ _ (si_sems _ _ _ Hk _ _ Hsem)) as Hv.
  destruct (Z.eq_dec (value sem) (2 ^ 31 - 1)) as [Emax|Hmax]; [by rewrite (V_overflow _ _ _ _ _ Hk Hsem Emax) in HV|].
  destruct (V_ok active k (USem n) sem) as (k2 & HV2 & Hk' & Hss & Hl & Hcur & Hth); [done|done|lia|].
  rewrite HV2 in HV. injection HV as <-. split; [done|]. destruct (si_cur _ _ _ Hk) as (th & Hc & _).
  assert (conts k2 = conts k) as Hct.
  { unfold conts. apply map_eq. intros x. rewrite !lookup_fmap. specialize (Hth x).
    destruct (threads k2 !! x), (threads k !! x); simplify_eq/=; congruence. }
  assert (conts k !! currentThread k = Some (cont (machineState th))) as Hcont by (unfold conts; by rewrite lookup_fmap, Hc).
  destruct (oi_typed _ _ _ _ _ _ _ _ Ho _ _ Hcont) as (Γ & Hag & Hch).
  unfold owned. destruct Hss as [E1 E2 E3 E4 E5 _]. rewrite Hct, E2, E3, E4, E5. ksimpl. rewrite <- (insert_id _ _ _ Hcont).
  eapply own_put; [exact Ho|exact Hag|exact Hch| |apply Ho]. intros s. unfold values. rewrite E1. ksimpl.
  destruct (decide (USem n = s)) as [<-|]; [right; exists n; rewrite lookup_insert_eq; eauto|left; by rewrite lookup_insert_ne].
Qed.

(** The completion of a driver's request. *)
Lemma complete_safe own k k' d x :
  kinv own k -> devices k !! d = Some x -> busy x = true -> dev_interrupt d k = Ok k' -> kinv own k'.
Proof.
  intros [Hk Ho] Hx Hb HI. set (x' := mkDevice (dkind x) false). unfold dev_interrupt in HI. rewrite (deref_Some _ _ _ Hx) in HI.
  cbn [mbind outcome_bind] in HI. fold x' in HI. set (k1 := set_device d x' k) in *.
  assert (sched_inv None active k1) as Hk1.
  { destruct Hk as [(th & Hc & HC) Hoth Hr Hs Hd Hu]. split; try done. exists th. split; [done|]. by eapply w_keep. }
  assert (exists sem, sems k !! DSem d = Some sem) as [sem Hsem].
  { unfold V, deref in HI. ksimpl. change (sems k1) with (sems k) in HI. destruct (sems k !! DSem d); [eauto|done]. }
  destruct (own_complete E _ _ _ _ _ _ _ Ho d x x' (fun s => if decide (s = DSem d) then Some 1 else values k s) Hx Hb) as [H0 Ho'];
    [done|done|by rewrite decide_True|intros s Hs; by rewrite decide_False|].
  assert (value sem = 0) as Ev by (unfold values in H0; rewrite Hsem in H0; by injection H0).
  destruct (V_ok active k1 (DSem d) sem) as (k2 & HV & Hk' & Hss & Hl & Hcur & Hth); [done|done|lia|].
  rewrite HV in HI. injection HI as <-. split; [done|].
  assert (conts k2 = conts k) as Hct.
  { unfold conts. apply map_eq. intros y. rewrite !lookup_fmap. specialize (Hth y). change (threads k1) with (threads k) in Hth.
    destruct (threads k2 !! y), (threads k !! y); simplify_eq/=; congruence. }
  destruct Hss as [E1 E2 E3 E4 E5 _]. unfold owned. rewrite Hct, E2, E3, E4, E5. ksimpl. unfold k1. ksimpl.
  eapply own_ext; [|exact Ho']. intros s. cbn beta. unfold values. rewrite E1. ksimpl. unfold k1. ksimpl.
  destruct (decide (s = DSem d)) as [->|]; [rewrite lookup_insert_eq; cbn; by rewrite Ev|by rewrite lookup_insert_ne].
Qed.

Lemma user_safe own k m : kinv own k -> length (registers m) = Z.to_nat NumTotalRegs -> kinv own (with_machine m k).
Proof.
  intros [[(th & Hc & HC) Hoth Hr Hs Hd [Hu1 Hu2 Hu3]] Ho] Hm. split; [|exact Ho]. split; try done.
  exists th. split; [done|]. by eapply w_keep.
Qed.

Lemma step_safe own k k' : kinv own k -> step garbage k k' -> exists own', kinv own' k'.
Proof.
  intros Hk Hstep. destruct Hstep as [k k' Hex|k k' Hl Hp|k k' n Hl HV|k k' d x Hl Hx Hb HI|k m Hl Hm].
  - destruct (exec_safe own k Hk) as [(k2 & own' & Hk2 & ?)|(e & He & _)]; [|congruence]. rewrite Hk2 in Hex. simplify_eq. eauto.
  - eauto using timer_safe.
  - eauto using device_safe.
  - eauto using complete_safe.
  - eauto using user_safe.
Qed.

Lemma reachable_safe own k k' : kinv own k -> reachable garbage k k' -> exists own', kinv own' k'.
Proof.
  intros Hk Hreach. unfold reachable in Hreach. revert own Hk. induction Hreach as [k|k k1 k2 Hstep _ IH]; intros own Hk; [eauto|].
  destruct (step_safe own k k1 Hk Hstep) as [own' ?]. eauto.
Qed.

(** ** The start *)

(** A kernel after [Initialize] and the creation of the objects of [E]: the main
    thread runs, a checked program before it; nobody waits. *)
Record initial (k : Kernel) : Prop := {
  in_on : intLevel k = IntOn;
  in_ready : readyList k = [];
  in_destroy : toBeDestroyed k = None;
  in_main : exists th, threads k = {[ currentThread k := th ]} /\ status th = RUNNING /\ checked E (machineState th) ∅ = true;
  in_user : user_ok (threads k) (spaces k) (machine k);
  in_sems s sem : sems k !! s = Some sem -> queue sem = [] /\ 0 <= value sem < 2 ^ 31;
  in_usems n : n ∈ e_sems E -> is_Some (sems k !! USem n);
  in_locks l : l ∈ e_locks E -> value <$> sems k !! LSem l = Some 1 /\ lockHolder k !! l = Some None;
  in_wsems w : sems k !! WSem w = None;
  in_conds c : c ∈ e_conds E -> is_Some (waitQueue k !! c);
  in_waits c q : waitQueue k !! c = Some q -> q = [];
  in_devs d : match devices k !! d with
    | Some x => e_devs E !! d = Some (dkind x) /\ busy x = false /\ value <$> sems k !! DSem d = Some 0
    | None => e_devs E !! d = None
    end;
  in_lists sl l c : e_lists E !! sl = Some (l, c) -> exists x, synchLists k !! sl = Some x /\ sl_lock x = l /\ listEmpty x = c;
}.

Lemma initial_inv k : initial k -> kinv ∅ k.
Proof.
  intros [Hon Hr Hd (th & Hth & Hst & Hch) Hu Hs Hus Hlk Hws Hcd Hwq Hdv Hls].
  destruct (checked_plain _ _ _ Hch) as (Hp & Hcc & Htg). split.
  - split.
    + exists th. rewrite Hth, lookup_singleton_eq. split; [done|]. rewrite Hst. by constructor.
    + intros t tht Ht. rewrite Hth, lookup_singleton_ne by done. done.
    + rewrite Hr. split; [constructor|constructor|]. intros t. rewrite Hth. split; [by intros ?%elem_of_nil|].
      intros (tht & [<- <-]%lookup_singleton_Some & ?). congruence.
    + intros s sem Hsem. destruct (Hs s sem Hsem) as [Hq Hv]. split; rewrite ?Hq; [constructor|done|by intros ? ?%elem_of_nil|done].
    + congruence.
    + done.
  - assert (conts k = {[ currentThread k := machineState th ]}) as Hct by (unfold conts; by rewrite Hth, map_fmap_singleton, Hcc).
    assert (forall w, ~ in_wait (waitQueue k) w) as Hnw.
    { intros w (c & q & Hq & Hin). rewrite (Hwq c q Hq) in Hin. set_solver. }
    split; unfold values.
    + intros t c. rewrite Hct. intros [<- <-]%lookup_singleton_Some. exists ∅. split; [|done]. intros x. set_solver.
    + intros x t. by rewrite lookup_empty.
    + intros n Hn. destruct (Hus n Hn) as [sem ->]. eauto.
    + intros l Hl. destruct (Hlk l Hl) as [Hv Hh]. rewrite !lookup_empty. split; [done|]. exists 1. split; [done|constructor].
    + intros w. rewrite Hws, !lookup_empty. by constructor.
    + done.
    + intros c q Hq. rewrite (Hwq c q Hq). constructor.
    + intros c c' q q' w Hq _ Hin. rewrite (Hwq c q Hq) in Hin. set_solver.
    + done.
    + intros d. specialize (Hdv d). unfold dev_ok. rewrite !lookup_empty. destruct (devices k !! d) as [x|]; [|done].
      destruct Hdv as (Ed & Eb & Ev). rewrite Eb. split; [done|]. exists 0. split; [done|constructor].
Qed.
End safety.
