(* ===== verification/Frame.v ===== *)
(** * What an action leaves alone (src/code/threads: thread.cc, scheduler.cc,
    synch.cc, synchlist.cc; the drivers)

    Each action of a thread changes the objects it is about and nothing else;
    the scheduler moves threads between its lists and touches no object at all.
    Of a thread three things are followed: its address space ([homes]), the work
    it has still to do on devices and synchronized lists ([todos]), and the user
    context in its address space. *)

From S2P Require Import Prelude Lists Interrupt Machine AddrSpace Threads Synch SchedInv SynchInv KernelSafe.

(** ** Work on devices and lists *)

(** A request to a device, the wait for its interrupt, an item put into or taken
    from a synchronized list. *)
Inductive work := AskW (d : positive) (r : request) | WaitW (d : positive) | PutW (sl : positive) (item : Z) | GetW (sl : positive).

(** The work that an action stands for, now or after it has been expanded. *)
Definition work_of (a : action) : list work :=
  match a with
  | Request_ d r => [AskW d r]
  | P_ (DSem d) | PLoop (DSem d) _ => [WaitW d]
  | PutItem sl item | Append_ sl item => [PutW sl item]
  | RemoveLoop sl | RemoveFront_ sl => [GetW sl]
  | _ => []
  end.
Definition todo (ms : list action) : list work := concat (work_of <$> ms).

Lemma todo_app ms ms' : todo (ms ++ ms') = todo ms ++ todo ms'.
Proof. unfold todo. by rewrite fmap_app, concat_app. Qed.

Definition homes (k : Kernel) : gmap positive (option positive) := space <$> threads k.
Definition todos (k : Kernel) : gmap positive (list work) := (fun th => todo (machineState th)) <$> threads k.

Lemma homes_lookup k t : homes k !! t = space <$> threads k !! t.
Proof. apply lookup_fmap. Qed.
Lemma todos_lookup k t : todos k !! t = (fun th => todo (machineState th)) <$> threads k !! t.
Proof. apply lookup_fmap. Qed.

(** ** The scheduler *)

(** Objects that the scheduler never stores to. *)
Definition quiet (k k' : Kernel) : Prop :=
  synchLists k' = synchLists k /\ threadNum k' = threadNum k /\ devices k' = devices k /\
  sems k' = sems k /\ lockHolder k' = lockHolder k /\ waitQueue k' = waitQueue k.

(** Nothing happens to the threads but that some end. *)
Definition kept (k k' : Kernel) : Prop := homes k' ⊆ homes k /\ todos k' ⊆ todos k.

Lemma quiet_trans k1 k2 k3 : quiet k1 k2 -> quiet k2 k3 -> quiet k1 k3.
Proof. unfold quiet. intuition congruence. Qed.
Lemma kept_trans k1 k2 k3 : kept k1 k2 -> kept k2 k3 -> kept k1 k3.
Proof. unfold kept. intros [] []. split; by etrans. Qed.
Lemma kept_same k k' : threads k' = threads k -> kept k k'.
Proof. unfold kept, homes, todos. by intros ->. Qed.

Lemma kept_set t th th' k k' :
  threads k' = <[t := th']> (threads k) ->
  threads k !! t = Some th -> space th' = space th -> todo (machineState th') = todo (machineState th) -> kept k k'.
Proof.
  intros E Ht Es Em. unfold kept, homes, todos. rewrite E, !fmap_insert, Es, Em.
  by rewrite !insert_id by (by rewrite lookup_fmap, Ht).
Qed.

Lemma kept_delete t k k' : threads k' = delete t (threads k) -> kept k k'.
Proof. unfold kept, homes, todos. intros ->. rewrite !fmap_delete. split; apply delete_subseteq. Qed.

(** A routine of the scheduler in the current thread, up to the switch. *)
Record calm (k k' : Kernel) : Prop := {
  cm_quiet : quiet k k';
  cm_kept : kept k k';
  cm_current : currentThread k' = currentThread k;
  cm_spaces : spaces k' = spaces k;
  cm_machine : machine k' = machine k;
}.

#[export] Instance calm_preorder : PreOrder calm.
Proof.
  split; [by split|]. intros k1 k2 k3 [] []. split; try congruence; [by eapply quiet_trans|by eapply kept_trans].
Qed.

Lemma push_calm fs k k' : push fs k = Ok k' -> todo fs = [] -> calm k k'.
Proof.
  unfold push, deref. intros H Hfs. repeat (inv_ok1 || case_match); simplify_eq. split; try done.
  eapply kept_set; [reflexivity|done|done|]. cbn [machineState with_state]. by rewrite todo_app, Hfs.
Qed.
Lemma ReadyToRun_calm t k k' : ReadyToRun t k = Ok k' -> calm k k'.
Proof.
  unfold ReadyToRun, deref. intros H. repeat (inv_ok1 || case_match); simplify_eq. split; try done.
  by eapply kept_set.
Qed.
Lemma FindNextToRun_calm k k' o : FindNextToRun k = Ok (k', o) -> calm k k'.
Proof. unfold FindNextToRun. intros H. repeat (inv_ok1 || case_match); simplify_eq; by split. Qed.
Lemma destroy_calm k k' : CheckToBeDestroyed k = Ok k' -> calm k k'.
Proof.
  unfold CheckToBeDestroyed. intros H. repeat (inv_ok1 || case_match); simplify_eq; split; try done.
  by eapply kept_delete.
Qed.
Lemma level_calm l k : calm k (with_intLevel l k).
Proof. by split. Qed.
Lemma status_calm t th st k : threads k !! t = Some th -> calm k (set_thread t (with_tstatus st th) k).
Proof. intros Ht. split; try done. by eapply kept_set. Qed.

(** ** The switch *)

(** What a routine does that may end in a switch: the context of the current
    thread goes to its address space, no other space changes. *)
Record frame (k k' : Kernel) : Prop := {
  fr_kept : kept k k';
  fr_spaces a : homes k !! currentThread k <> Some (Some a) -> spaces k' !! a = spaces k !! a;
}.

Lemma calm_frame k1 k2 k3 : calm k1 k2 -> frame k2 k3 -> frame k1 k3.
Proof.
  intros [_ Hk Hc Hs _] [Hk' Hs']. split; [by eapply kept_trans|]. intros a Ha. rewrite Hs', Hs; [done|].
  rewrite Hc. intros E. apply Ha. by eapply lookup_weaken, Hk.
Qed.
Lemma frame_calm k1 k2 k3 : frame k1 k2 -> quiet k2 k3 -> kept k2 k3 -> spaces k3 = spaces k2 -> frame k1 k3.
Proof. intros [Hk Hs] _ Hk' Hs'. split; [by eapply kept_trans|]. intros a Ha. by rewrite Hs', Hs. Qed.
Lemma calm_to_frame k k' : calm k k' -> frame k k'.
Proof. intros []. split; [done|]. by rewrite cm_spaces0. Qed.

(** Saving the user state stores into the thread and its space only. *)
Lemma save_frame k k' :
  save_user (currentThread k) k = Ok k' ->
  quiet k k' /\ frame k k' /\ currentThread k' = currentThread k /\ machine k' = machine k.
Proof.
  unfold save_user, SaveUserState, deref. intros H. repeat (inv_ok1 || case_match); simplify_eq/=; try done.
  split; [done|]. split; [|done]. split.
  - by eapply kept_set.
  - intros b Hb. ksimpl. rewrite lookup_insert_ne; [done|]. intros <-. apply Hb. rewrite homes_lookup.
    match goal with H : threads k !! currentThread k = Some _ |- _ => rewrite H end. cbn. congruence.
Qed.

Lemma Run_frame n f k k' : Run n f k = Ok k' -> quiet k k' /\ frame k k'.
Proof.
  unfold Run. intros H. cbn zeta in H. destruct (ASSERT (bool_decide (intLevel k = IntOff))); [|done]. cbn [mbind outcome_bind] in H.
  match type of H with mbind _ ?m = _ => destruct m as [kd|] eqn:Ed; [|done] end. cbn [mbind outcome_bind] in H.
  assert (calm k kd) as Hd by (destruct f; repeat inv_ok1; by split). rewrite <- (cm_current _ _ Hd) in H.
  destruct (save_user _ kd) as [ks|] eqn:Es; [|done]. cbn [mbind outcome_bind] in H. apply save_frame in Es as (Hq & Hf & _ & _).
  destruct (deref (threads ks) _) as [th|]; [|done]. cbn [mbind outcome_bind] in H. destruct (CheckOverflow th); [|done]. cbn [mbind outcome_bind] in H.
  destruct (push _ ks) as [kp|] eqn:Ep; [|done]. cbn [mbind outcome_bind] in H. apply push_calm in Ep as Hp; [|done].
  unfold deref in H. ksimpl. destruct (threads kp !! n) as [nth|] eqn:En; [|done]. cbn [mbind outcome_bind] in H. injection H as <-.
  assert (kept kp (set_thread n (with_tstatus RUNNING nth) (with_current n kp))) as Hl
    by by eapply kept_set.
  split.
  - eapply quiet_trans; [apply Hd|]. eapply quiet_trans; [exact Hq|]. apply Hp.
  - eapply calm_frame; [exact Hd|]. eapply frame_calm; [exact Hf|apply Hp| |apply Hp]. by eapply kept_trans; [apply Hp|].
Qed.

(** ** Routines that switch *)
Lemma Yield_frame k k' : Yield k = Ok k' -> quiet k k' /\ frame k k'.
Proof.
  unfold Yield. intros H. cbn zeta in H.
  destruct (ReadyToRun _ _) as [k1|] eqn:E1; [|done]. cbn [mbind outcome_bind] in H.
  destruct (FindNextToRun k1) as [[k2 [t|]]|] eqn:E2; try done. cbn [mbind outcome_bind] in H.
  destruct (push _ k2) as [k3|] eqn:E3; [|done]. cbn [mbind outcome_bind] in H. apply Run_frame in H as [Hq Hf].
  assert (calm k k3) as Hc
    by (etrans; [apply level_calm|]; etrans; [by eapply ReadyToRun_calm|]; etrans; [by eapply FindNextToRun_calm|]; by eapply push_calm).
  split; [eapply quiet_trans; [apply Hc|exact Hq]|by eapply calm_frame].
Qed.

Lemma sleep_loop_frame f k k' : sleep_loop f k = Ok k' -> quiet k k' /\ frame k k'.
Proof.
  unfold sleep_loop. intros H. destruct (FindNextToRun k) as [[k1 o]|] eqn:E; [|done]. cbn [mbind outcome_bind] in H.
  apply FindNextToRun_calm in E as Hc. destruct o as [t|].
  - apply Run_frame in H as [Hq Hf]. split; [eapply quiet_trans; [apply Hc|exact Hq]|by eapply calm_frame].
  - apply push_calm in H; [|done]. assert (calm k k') as Hc' by (by etrans). split; [apply Hc'|by apply calm_to_frame].
Qed.

Lemma Sleep_frame f k k' : Sleep f k = Ok k' -> quiet k k' /\ frame k k'.
Proof.
  unfold Sleep, deref. intros H. destruct (ASSERT _); [|done]. cbn [mbind outcome_bind] in H.
  destruct (threads k !! currentThread k) as [th|] eqn:Hc; [|done]. cbn [mbind outcome_bind] in H.
  apply sleep_loop_frame in H as [Hq Hf]. pose proof (status_calm _ _ BLOCKED _ Hc) as Hs.
  split; [eapply quiet_trans; [apply Hs|exact Hq]|by eapply calm_frame].
Qed.

Lemma run_tail_frame k k' : run_tail k = Ok k' -> quiet k k' /\ frame k k' /\ currentThread k' = currentThread k.
Proof.
  unfold run_tail. intros H. destruct (ASSERT _); [|done]. cbn [mbind outcome_bind] in H.
  destruct (CheckToBeDestroyed k) as [kd|] eqn:Ed; [|done]. cbn [mbind outcome_bind] in H. apply destroy_calm in Ed as Hd.
  assert (quiet kd k' /\ kept kd k' /\ spaces k' = spaces kd /\ currentThread k' = currentThread kd) as (Hq & Hk & Hs & Hc).
  { unfold restore_user, RestoreUserState in H. repeat (inv_ok1 || case_match); simplify_eq/=; done. }
  split; [eapply quiet_trans; [apply Hd|exact Hq]|]. split; [|by rewrite Hc, (cm_current _ _ Hd)].
  split; [eapply kept_trans; [apply Hd|exact Hk]|]. intros b _. by rewrite Hs, (cm_spaces _ _ Hd).
Qed.

(** ** One action *)

(** The current thread is left with the work [p] more; a thread may be new. *)
Record touched (p : list work) (k k' : Kernel) : Prop := {
  to_homes u h : homes k' !! u = Some h -> homes k !! u = Some h \/ homes k !! u = None /\ h = None;
  to_todos u w : todos k' !! u = Some w -> todos k !! u = None \/
    exists w0, todos k !! u = Some w0 /\ w = if decide (u = currentThread k) then p ++ w0 else w0;
  to_spaces a : homes k !! currentThread k <> Some (Some a) -> spaces k' !! a = spaces k !! a;
}.

Lemma frame_touched k k' : frame k k' -> touched [] k k'.
Proof.
  intros [[Hh Ht] Hs]. split; [..|done].
  - intros u h Hu. left. by eapply lookup_weaken.
  - intros u w Hu. right. exists w. split; [by eapply lookup_weaken|]. by case_decide.
Qed.

Lemma touched_frame p k1 k2 k3 :
  touched p k1 k2 -> currentThread k2 = currentThread k1 -> spaces k2 = spaces k1 -> frame k2 k3 -> touched p k1 k3.
Proof.
  intros [Hh Ht _] Hc Es [[Hh' Ht'] Hs]. split.
  - intros u h Hu. apply Hh. by eapply lookup_weaken.
  - intros u w Hu. apply Ht. by eapply lookup_weaken.
  - intros a Ha. rewrite Hs, Es; [done|]. rewrite Hc. intros E. destruct (Hh _ _ E) as [|[_ ?]]; done.
Qed.

Lemma stores_touched p k1 k2 k3 :
  threads k2 = threads k1 -> currentThread k2 = currentThread k1 -> spaces k2 = spaces k1 -> touched p k2 k3 -> touched p k1 k3.
Proof. intros E1 E2 E3 [Hh Ht Hs]. unfold homes, todos in *. rewrite E1, E2, ?E3 in *. split; done. Qed.

Lemma push_touched fs k k' :
  push fs k = Ok k' -> touched (todo fs) k k' /\ quiet k k' /\ currentThread k' = currentThread k /\ spaces k' = spaces k /\
    machine k' = machine k.
Proof.
  unfold push, deref. intros H. destruct (threads k !! currentThread k) as [th|] eqn:Hc; [|done]. cbn [mbind outcome_bind] in H.
  injection H as <-. split; [|done]. split; [..|done].
  - intros u h. rewrite !homes_lookup. ksimpl. intros Hu. left. destruct (decide (u = currentThread k)) as [->|Hne].
    + rewrite lookup_insert_eq in Hu. by rewrite Hc.
    + by rewrite lookup_insert_ne in Hu.
  - intros u w. rewrite !todos_lookup. ksimpl. intros Hu. right. destruct (decide (u = currentThread k)) as [->|Hne].
    + rewrite lookup_insert_eq in Hu. rewrite Hc. cbn [fmap option_fmap option_map machineState with_state] in *. injection Hu as <-.
      eexists. split; [done|]. apply todo_app.
    + rewrite lookup_insert_ne in Hu by done. eauto.
Qed.

Lemma fork_touched garbage p body k k' :
  fork_new garbage p body k = Ok k' -> touched [] k k' /\ threadNum k <= threadNum k' /\ currentThread k' = currentThread k /\
    synchLists k' = synchLists k /\ devices k' = devices k /\ sems k' = sems k /\ lockHolder k' = lockHolder k /\
    spaces k' = spaces k /\ machine k' = machine k.
Proof.
  unfold fork_new, Fork. intros H. cbn zeta in H. set (t := fresh (dom (threads k))) in *.
  match type of H with mbind _ ?m = _ => destruct m as [[k1 th]|] eqn:E1; [|done] end. cbn [mbind outcome_bind] in H.
  assert (threads k1 = threads k /\ quiet k (with_threadNum (threadNum k) k1) /\ currentThread k1 = currentThread k /\
    spaces k1 = spaces k /\ machine k1 = machine k /\ threadNum k <= threadNum k1 /\ space th = None) as (Et & Eq & Ec & Es & Em & En & Eh).
  { unfold newThreadPriority in E1. destruct p; repeat inv_ok1; split_and!; first [done | ksimpl; lia]. }
  unfold deref in H. ksimpl. rewrite lookup_insert_eq in H. cbn [mbind outcome_bind] in H.
  destruct (ReadyToRun _ _) as [k2|] eqn:E2; [|done]. cbn [mbind outcome_bind] in H. injection H as <-.
  apply ReadyToRun_calm in E2 as [(Q1 & Q2 & Q3 & Q4 & Q5 & Q6) [Kh Kt] Hc Hs Hm]. unfold quiet in Eq. ksimpl. destruct Eq as (L1 & _ & L3 & L4 & L5 & _).
  assert (threads k !! t = None) as Hf by (apply not_elem_of_dom, is_fresh).
  split; [|split_and!; first [congruence | lia]]. split.
  - intros u h Hu. change (homes k2 !! u = Some h) in Hu. eapply lookup_weaken in Hu; [|exact Kh]. rewrite homes_lookup in Hu |- *. ksimpl.
    rewrite Et in Hu. destruct (decide (t = u)) as [<-|]; [|rewrite !lookup_insert_ne in Hu by done; by left].
    rewrite lookup_insert_eq in Hu. right. rewrite Hf. cbn in *. split; congruence.
  - intros u w Hu. change (todos k2 !! u = Some w) in Hu. eapply lookup_weaken in Hu; [|exact Kt]. rewrite !todos_lookup in *. ksimpl.
    rewrite Et in Hu. destruct (decide (t = u)) as [<-|]; [left; by rewrite Hf|]. rewrite !lookup_insert_ne in Hu by done. right. exists w.
    split; [done|]. by case_decide.
  - intros a _. ksimpl. by rewrite Hs, Es.
Qed.

(** What an action leaves its own thread to do. *)
Definition pushed (a : action) (k : Kernel) : list work :=
  match a with
  | Append_ sl item => [PutW sl item]
  | RemoveFront_ sl => [GetW sl]
  | RemoveLoop sl => match synchLists k !! sl with Some x => if decide (items x = []) then [GetW sl] else [] | None => [] end
  | P_ (DSem d) | PLoop (DSem d) _ =>
      match sems k !! DSem d with Some sem => if value sem =? 0 then [WaitW d] else [] | None => [] end
  | _ => []
  end.

(** The objects after an action: the lists, the devices, the value of a driver's
    semaphore, the holder of a lock. *)
Definition lists_after (a : action) (k : Kernel) (sl : positive) : option SynchList :=
  match a, synchLists k !! sl with
  | PutItem sl' item, Some x => if decide (sl' = sl) then Some (mkSynchList (items x ++ [item]) (sl_lock x) (listEmpty x)) else Some x
  | RemoveLoop sl', Some x => if decide (sl' = sl) then Some (mkSynchList (tail (items x)) (sl_lock x) (listEmpty x)) else Some x
  | _, o => o
  end.
Definition devices_after (a : action) (k : Kernel) (d : positive) : option Device :=
  match a, devices k !! d with
  | Request_ d' r, Some x => if decide (d' = d) then Some (mkDevice (dkind x) true) else Some x
  | _, o => o
  end.
Definition tokens_after (a : action) (k : Kernel) (d : positive) : option Z :=
  match a, value <$> sems k !! DSem d with
  | (P_ (DSem d') | PLoop (DSem d') _), Some v => if decide (d' = d) then Some (if v =? 0 then 0 else v - 1) else Some v
  | V_ (DSem d'), Some v => if decide (d' = d) then Some (v + 1) else Some v
  | DeleteSem (DSem d'), Some v => if decide (d' = d) then None else Some v
  | _, o => o
  end.
Definition holder_after (a : action) (k : Kernel) (l : positive) : option (option positive) :=
  match a, lockHolder k !! l with
  | SetHolder l', Some h => if decide (l' = l) then Some (Some (currentThread k)) else Some h
  | Release_ l', Some h => if decide (l' = l) then Some None else Some h
  | _, o => o
  end.

Record effect (a : action) (k k' : Kernel) : Prop := {
  ef_touched : touched (pushed a k) k k';
  ef_number : threadNum k <= threadNum k';
  ef_lists sl : synchLists k' !! sl = lists_after a k sl;
  ef_devices d : devices k' !! d = devices_after a k d;
  ef_tokens d : value <$> sems k' !! DSem d = tokens_after a k d;
  ef_holder l : lockHolder k' !! l = holder_after a k l;
}.

(** An action that only stores to the threads. *)
Definition quiet_action (a : action) : Prop :=
  forall k sl d l, lists_after a k sl = synchLists k !! sl /\ devices_after a k d = devices k !! d /\
    tokens_after a k d = value <$> sems k !! DSem d /\ holder_after a k l = lockHolder k !! l.

Lemma quiet_effect a k k' : quiet_action a -> quiet k k' -> touched (pushed a k) k k' -> effect a k k'.
Proof.
  intros Ha (Q1 & Q2 & Q3 & Q4 & Q5 & _) Ht. split; [done|lia|..]; intros x; destruct (Ha k x x x) as (E1 & E2 & E3 & E4);
    first [by rewrite E1, Q1|by rewrite E2, Q3|by rewrite E3, Q4|by rewrite E4, Q5].
Qed.

Lemma P_loop_effect s ol a k k' :
  a = P_ s \/ a = PLoop s ol -> P_loop s ol k = Ok k' -> effect a k k'.
Proof.
  intros Ha. unfold P_loop, deref. destruct (sems k !! s) as [sem|] eqn:Hs; [|done]. cbn [mbind outcome_bind].
  assert (pushed a k = if value sem =? 0 then work_of (P_ s) else []) as Hp
    by (destruct Ha as [-> | ->], s; cbn; rewrite ?Hs; by destruct (_ =? _)).
  assert (forall d, tokens_after a k d = match value <$> sems k !! DSem d with
    | Some v => if decide (s = DSem d) then Some (if v =? 0 then 0 else v - 1) else Some v | None => None end) as Htk.
  { intros d. destruct (sems k !! DSem d) as [sd|] eqn:E; [|destruct Ha as [-> | ->], s; cbn; by rewrite E].
    destruct Ha as [-> | ->], s; cbn; rewrite E; cbn; repeat case_decide; congruence || done. }
  assert (forall sl, lists_after a k sl = synchLists k !! sl) as Hl by (intros sl; destruct Ha as [-> | ->]; cbn; by destruct (synchLists k !! sl)).
  assert (forall d, devices_after a k d = devices k !! d) as Hd by (intros d; destruct Ha as [-> | ->]; cbn; by destruct (devices k !! d)).
  assert (forall l, holder_after a k l = lockHolder k !! l) as Hh by (intros l; destruct Ha as [-> | ->]; cbn; by destruct (lockHolder k !! l)).
  destruct (Z.eqb_spec (value sem) 0) as [E0|E0]; intros H.
  - destruct (Spec.append _ _) as [q|]; [|done]. cbn [mbind outcome_bind] in H. destruct (push _ _) as [k1|] eqn:E1; [|done].
    cbn [mbind outcome_bind] in H. apply push_touched in E1 as (Ht & (Q1 & Q2 & Q3 & Q4 & Q5 & _) & Ec & Es & _).
    apply Sleep_frame in H as [(R1 & R2 & R3 & R4 & R5 & _) Hf]. ksimpl.
    split; intros; rewrite ?Hl, ?Hd, ?Hh, ?Htk; rewrite ?R1, ?R2, ?R3, ?R4, ?R5, ?Q1, ?Q2, ?Q3, ?Q4, ?Q5; try done.
    + rewrite Hp. eapply touched_frame; [|exact Ec|exact Es|exact Hf]. eapply (stores_touched _ _ (set_sem s (mkSem (value sem) q) k)); [done..|].
      replace (work_of (P_ s)) with (todo [PLoop s ol]) by (by destruct s). exact Ht.
    + destruct (decide (s = DSem d)) as [->|Hne].
      * rewrite lookup_insert_eq, Hs. cbn. by rewrite E0.
      * rewrite lookup_insert_ne by done. by destruct (sems k !! DSem d).
  - unfold int_add in H. destruct (_ && _); [|done]. cbn [mbind outcome_bind] in H. injection H as <-.
    split; intros; rewrite ?Hl, ?Hd, ?Hh, ?Htk; try done.
    + rewrite Hp. by apply frame_touched.
    + ksimpl. destruct (decide (s = DSem d)) as [->|Hne].
      * rewrite lookup_insert_eq, Hs. cbn. by rewrite (proj2 (Z.eqb_neq _ _) E0).
      * rewrite lookup_insert_ne by done. by destruct (sems k !! DSem d).
Qed.

Lemma V_effect s k k' : V s k = Ok k' -> effect (V_ s) k k' /\ currentThread k' = currentThread k /\ spaces k' = spaces k /\ machine k' = machine k.
Proof.
  unfold V, deref. intros H. cbn zeta in H. ksimpl. destruct (sems k !! s) as [sem|] eqn:Hs; [|done]. cbn [mbind outcome_bind] in H.
  match type of H with mbind _ ?m = _ => destruct m as [k1|] eqn:E1; [|done] end. cbn [mbind outcome_bind] in H.
  assert (exists q, calm (set_sem s (mkSem (value sem) q) (with_intLevel IntOff k)) k1) as (q & [(Q1 & Q2 & Q3 & Q4 & Q5 & _) Hk Hc Hsp Hm]).
  { destruct (queue sem) as [|t q] eqn:Eq.
    - exists []. injection E1 as <-. rewrite <- Eq. destruct sem. split; try done. unfold quiet. ksimpl. split_and!; try done.
      by rewrite insert_id.
    - exists q. by eapply ReadyToRun_calm. }
  ksimpl. rewrite Q4, lookup_insert_eq in H. cbn [mbind outcome_bind value] in H. unfold int_add in H. destruct (_ && _); [|done].
  cbn [mbind outcome_bind] in H. injection H as <-. split; [|done].
  assert (forall d, tokens_after (V_ s) k d = match value <$> sems k !! DSem d with
    | Some v => if decide (s = DSem d) then Some (v + 1) else Some v | None => None end) as Htk.
  { intros d. destruct (sems k !! DSem d) as [sd|] eqn:E; [|destruct s; cbn; by rewrite E].
    destruct s; cbn; rewrite E; cbn; repeat case_decide; congruence || done. }
  split; intros; rewrite ?Htk; ksimpl; rewrite ?Q1, ?Q2, ?Q3, ?Q4, ?Q5; try done.
  - assert (pushed (V_ s) k = []) as -> by (by destruct s). apply frame_touched. split; [exact Hk|]. intros a _. ksimpl. by rewrite Hsp.
  - rewrite insert_insert_eq. destruct (decide (s = DSem d)) as [->|Hne].
    + rewrite lookup_insert_eq, Hs. done.
    + rewrite lookup_insert_ne by done. by destruct (sems k !! DSem d).
Qed.

(** An action that pushes frames after stores to other objects. *)
Lemma pushing_effect a fs k k1 k' :
  push fs k1 = Ok k' -> todo fs = pushed a k ->
  threads k1 = threads k -> currentThread k1 = currentThread k -> spaces k1 = spaces k -> threadNum k1 = threadNum k ->
  (forall sl, synchLists k1 !! sl = lists_after a k sl) -> (forall d, devices k1 !! d = devices_after a k d) ->
  (forall d, value <$> sems k1 !! DSem d = tokens_after a k d) -> (forall l, lockHolder k1 !! l = holder_after a k l) ->
  effect a k k'.
Proof.
  intros Hp Hfs E1 E2 E3 E4 H1 H2 H3 H4. apply push_touched in Hp as (Ht & (Q1 & Q2 & Q3 & Q4 & Q5 & _) & _).
  rewrite Hfs in Ht. split; [by eapply stores_touched|lia|..]; intros; rewrite ?Q1, ?Q3, ?Q4, ?Q5; done.
Qed.

Lemma frame_effect a k k' : quiet_action a -> pushed a k = [] -> quiet k k' /\ frame k k' -> effect a k k'.
Proof. intros Ha Hp [Hq Hf]. apply quiet_effect; [done..|]. rewrite Hp. by apply frame_touched. Qed.

Lemma perform_effect garbage a k k' : perform garbage a k = Ok k' -> effect a k k'.
Proof.
  intros H. destruct a; cbn [perform] in H.
  - by apply frame_effect, Yield_frame.
  - unfold P in H. apply (P_loop_effect _ _ (P_ s)) in H; [|by left]. destruct H as [Ht ? ? ? ? ?].
    split; [by eapply (stores_touched _ _ (with_intLevel IntOff k))|done..].
  - by apply V_effect in H as [H _].
  - unfold Acquire in H. destruct (deref _ _); [|done]. cbn [mbind outcome_bind] in H. by eapply pushing_effect.
  - unfold Release, IsHeldByCurrentThread, deref in H. destruct (lockHolder k !! l) as [h|] eqn:Hh; [|done]. cbn [mbind outcome_bind] in H.
    destruct (ASSERT _); [|done]. cbn [mbind outcome_bind] in H. eapply pushing_effect; try done. intros l'. cbn. ksimpl.
    destruct (decide (l = l')) as [<-|]; [by rewrite lookup_insert_eq, Hh|]. rewrite lookup_insert_ne by done. by destruct (lockHolder k !! l').
  - unfold Wait in H. destruct (IsHeldByCurrentThread _ _); [|done]. cbn [mbind outcome_bind] in H. destruct (ASSERT _); [|done].
    cbn [mbind outcome_bind] in H. cbn zeta in H. destruct (deref _ _) as [q|]; [|done]. cbn [mbind outcome_bind] in H.
    destruct (Spec.append _ _) as [q'|]; [|done]. cbn [mbind outcome_bind] in H. eapply pushing_effect; try done. intros d. ksimpl.
    by rewrite lookup_insert_ne.
  - unfold Signal in H. destruct (IsHeldByCurrentThread _ _); [|done]. cbn [mbind outcome_bind] in H. destruct (ASSERT _); [|done].
    cbn [mbind outcome_bind] in H. destruct (deref _ _) as [[|w q]|]; [|by eapply pushing_effect|done]. injection H as <-.
    by apply frame_effect.
  - unfold Broadcast in H. destruct (deref _ _) as [[|w q]|]; [|by eapply pushing_effect|done]. injection H as <-. by apply frame_effect.
  - apply fork_touched in H as (Ht & Hn & _ & E1 & E2 & E3 & E4 & _). split; [done|done|..]; intros; by rewrite ?E1, ?E2, ?E3, ?E4.
  - unfold SynchAppend in H. destruct (deref _ _) as [x|]; [|done]. by eapply pushing_effect.
  - unfold SynchRemoveFront in H. destruct (deref _ _) as [x|]; [|done]. by eapply pushing_effect.
  - done.
  - unfold Begin in H. destruct (CheckToBeDestroyed k) as [k1|] eqn:E; [|done]. injection H as <-. apply destroy_calm in E.
    assert (calm k (with_intLevel IntOn k1)) as Hc by (etrans; [exact E|apply level_calm]).
    apply frame_effect; [done..|]. split; [apply Hc|by apply calm_to_frame].
  - unfold Finish in H. apply Sleep_frame in H as [Hq Hf]. by apply frame_effect; [| |split; [|eapply calm_frame; [apply level_calm|]]].
  - apply run_tail_frame in H as (? & ? & _). by apply frame_effect.
  - apply sleep_loop_frame in H. by apply frame_effect.
  - injection H as <-. by apply frame_effect.
  - eapply P_loop_effect; [by right|done].
  - destruct (lockHolder k !! l) as [h|] eqn:Hh; unfold deref in H; rewrite Hh in H; [|done]. injection H as <-. split; try done; [by apply frame_touched|].
    intros l'. cbn. destruct (decide (l = l')) as [<-|]; [by rewrite lookup_insert_eq, Hh|]. rewrite lookup_insert_ne by done.
    by destruct (lockHolder k !! l').
  - unfold deleteSemaphore in H. destruct (deref _ _) as [x|]; [|done]. injection H as <-.
    split; try done; [by apply frame_touched|]. intros d. ksimpl. destruct (decide (s = DSem d)) as [->|Hne].
    + rewrite lookup_delete_eq. cbn. destruct (sems k !! DSem d); [|done]. cbn. by rewrite decide_True.
    + rewrite lookup_delete_ne by done. destruct s; try done. cbn. destruct (sems k !! DSem d); [|done]. cbn. rewrite decide_False by congruence. done.
  - unfold put_item, deref in H. destruct (synchLists k !! sl) as [x|] eqn:Hx; [|done]. cbn [mbind outcome_bind] in H. unfold Spec.append in H.
    destruct (ASSERT _); [|done]. injection H as <-. split; try done; [by apply frame_touched|]. intros sl'. cbn.
    destruct (decide (sl = sl')) as [<-|]; [by rewrite lookup_insert_eq, Hx|]. rewrite lookup_insert_ne by done. by destruct (synchLists k !! sl').
  - unfold remove_front_loop, deref in H. destruct (synchLists k !! sl) as [x|] eqn:Hx; [|done]. cbn [mbind outcome_bind] in H.
    assert (forall sl', lists_after (RemoveLoop sl) k sl' = <[sl := mkSynchList (tail (items x)) (sl_lock x) (listEmpty x)]> (synchLists k) !! sl') as Hl.
    { intros sl'. cbn. destruct (decide (sl = sl')) as [<-|]; [by rewrite lookup_insert_eq, Hx|]. rewrite lookup_insert_ne by done. by destruct (synchLists k !! sl'). }
    destruct (items x) as [|i xs] eqn:Ei.
    + eapply pushing_effect; try done; [cbn; by rewrite Hx, decide_True|]. intros sl'. rewrite Hl. cbn. rewrite insert_id; [done|].
      rewrite Hx. destruct x. cbn in *. by subst.
    + injection H as <-. split; try done. cbn. rewrite Hx, decide_False by (by rewrite Ei). by apply frame_touched.
  - unfold dev_request, deref in H. destruct (devices k !! d) as [x|] eqn:Hx; [|done]. cbn [mbind outcome_bind] in H.
    destruct (ASSERT (negb _)); [|done]. cbn [mbind outcome_bind] in H. destruct (ASSERT _); [|done]. injection H as <-.
    split; try done; [by apply frame_touched|]. intros d'. cbn.
    destruct (decide (d = d')) as [<-|]; [by rewrite lookup_insert_eq, Hx|]. rewrite lookup_insert_ne by done. by destruct (devices k !! d').
Qed.

(** ** One step of the system *)
Lemma exec_inv garbage k k' :
  exec garbage k = Ok k' -> exists th a rest, threads k !! currentThread k = Some th /\ machineState th = a :: rest /\
    perform garbage a (set_thread (currentThread k) (with_state rest th) k) = Ok k'.
Proof.
  unfold exec, deref. destruct (threads k !! currentThread k) as [th|] eqn:Hc; [|done]. cbn [mbind outcome_bind].
  destruct (machineState th) as [|a rest] eqn:Hms; [done|]. intros H. by exists th, a, rest.
Qed.

(** Address spaces: new threads have none, and a step of one thread does not
    touch the space of another. *)
Record spaces_step (k k' : Kernel) : Prop := {
  ss_homes u h : homes k' !! u = Some h -> homes k !! u = Some h \/ homes k !! u = None /\ h = None;
  ss_spaces a : homes k !! currentThread k <> Some (Some a) -> spaces k' !! a = spaces k !! a;
}.

Lemma homes_state t th ms k : threads k !! t = Some th -> homes (set_thread t (with_state ms th) k) = homes k.
Proof. intros Ht. unfold homes. ksimpl. rewrite fmap_insert. apply insert_id. by rewrite lookup_fmap, Ht. Qed.

Lemma touched_spaces p k k' : touched p k k' -> spaces_step k k'.
Proof. intros []. by split. Qed.

Lemma step_spaces garbage k k' : step garbage k k' -> spaces_step k k' /\ threadNum k <= threadNum k'.
Proof.
  intros [k1 k2 Hex|k1 k2 _ Hp|k1 k2 n _ HV|k1 k2 d x _ Hx _ HI|k1 m _ _].
  - apply exec_inv in Hex as (th & a & rest & Hc & _ & Hp). apply perform_effect in Hp as [[Hh _ Hs] Hn _ _ _ _].
    rewrite (homes_state _ _ _ _ Hc) in *. by split.
  - apply push_touched in Hp as (Ht & (_ & Hn & _) & _). split; [by eapply touched_spaces|lia].
  - apply V_effect in HV as ([Ht Hn _ _ _ _] & _). split; [by eapply touched_spaces|done].
  - unfold dev_interrupt, deref in HI. rewrite Hx in HI. cbn [mbind outcome_bind] in HI.
    apply V_effect in HI as ([Ht Hn _ _ _ _] & _). split; [by eapply touched_spaces, (stores_touched _ _ (set_device d _ k1))|done].
  - split; [|done]. split; [by left|done].
Qed.

(** A step that changes the current thread goes through [Run]. *)
Definition by_run (k k' : Kernel) : Prop :=
  exists k1 n f, Run n f k1 = Ok k' /\ spaces k1 = spaces k /\ machine k1 = machine k /\ currentThread k1 = currentThread k /\ homes k1 ⊆ homes k.

Lemma calm_run k k1 n f k' : calm k k1 -> Run n f k1 = Ok k' -> by_run k k'.
Proof. intros [_ [Hh _] Hc Hs Hm] HR. exists k1, n, f. by split_and!. Qed.

Lemma sleep_loop_run f k k' : sleep_loop f k = Ok k' -> currentThread k' = currentThread k \/ by_run k k'.
Proof.
  unfold sleep_loop. intros H. destruct (FindNextToRun k) as [[k1 o]|] eqn:E; [|done]. cbn [mbind outcome_bind] in H.
  apply FindNextToRun_calm in E as Hc. destruct o as [t|]; [right; by eapply calm_run|].
  left. apply push_calm in H; [|done]. by rewrite (cm_current _ _ H), (cm_current _ _ Hc).
Qed.

Lemma Sleep_run f k k' : Sleep f k = Ok k' -> currentThread k' = currentThread k \/ by_run k k'.
Proof.
  unfold Sleep, deref. intros H. destruct (ASSERT _); [|done]. cbn [mbind outcome_bind] in H.
  destruct (threads k !! currentThread k) as [th|] eqn:Hc; [|done]. cbn [mbind outcome_bind] in H.
  apply sleep_loop_run in H as [?|(k1 & n & f' & HR & Es & Em & Ec & Hh)]; [by left|right]. exists k1, n, f'. split_and!; try done.
  etrans; [exact Hh|]. apply (cm_kept _ _ (status_calm _ _ BLOCKED _ Hc)).
Qed.

Lemma push_homes fs k k' : push fs k = Ok k' -> homes k' = homes k.
Proof.
  unfold push, deref. destruct (threads k !! currentThread k) as [th|] eqn:Hc; [|done]. cbn [mbind outcome_bind]. intros [= <-].
  by apply homes_state.
Qed.

Lemma P_loop_run s ol k k' : P_loop s ol k = Ok k' -> currentThread k' = currentThread k \/ by_run k k'.
Proof.
  unfold P_loop, deref. destruct (sems k !! s) as [sem|]; [|done]. cbn [mbind outcome_bind].
  destruct (_ =? _); intros H; [|destruct (int_add _ _); [|done]; injection H as <-; by left].
  destruct (Spec.append _ _) as [q|]; [|done]. cbn [mbind outcome_bind] in H. destruct (push _ _) as [k1|] eqn:E1; [|done].
  cbn [mbind outcome_bind] in H. apply push_homes in E1 as Hh. apply push_touched in E1 as (_ & _ & Ec & Es & Em).
  apply Sleep_run in H as [E|(k2 & n & f & HR & Es2 & Em2 & Ec2 & Hh2)]; [left; by rewrite E, Ec|right].
  exists k2, n, f. ksimpl. split_and!; [done|congruence..|]. by rewrite Hh in Hh2.
Qed.

(** A routine that ends by pushing frames stays in its thread. *)
Lemma push_current fs k k' : push fs k = Ok k' -> currentThread k' = currentThread k.
Proof. intros H. by apply push_touched in H as (_ & _ & ? & _). Qed.

Lemma perform_run garbage a k k' : perform garbage a k = Ok k' -> currentThread k' = currentThread k \/ by_run k k'.
Proof.
  intros H. destruct a; cbn [perform] in H;
    try (left; unfold Acquire, Release, IsHeldByCurrentThread, Wait, Signal, Broadcast, SynchAppend, SynchRemoveFront, deleteSemaphore,
           put_item, remove_front_loop, dev_request in H; repeat (inv_ok1 || case_match); simplify_eq/=;
         solve [done | match goal with H : push _ _ = Ok _ |- _ => by apply push_current in H end]).
  - unfold Yield in H. cbn zeta in H. right. destruct (ReadyToRun _ _) as [k1|] eqn:E1; [|done]. cbn [mbind outcome_bind] in H.
    destruct (FindNextToRun k1) as [[k2 [t|]]|] eqn:E2; try done. cbn [mbind outcome_bind] in H.
    destruct (push _ k2) as [k3|] eqn:E3; [|done]. cbn [mbind outcome_bind] in H. eapply calm_run; [|exact H].
    etrans; [apply level_calm|]. etrans; [by eapply ReadyToRun_calm|]. etrans; [by eapply FindNextToRun_calm|]. by eapply push_calm.
  - apply P_loop_run in H as [|(k1 & n & f & HR)]; [by left|right]. by exists k1, n, f.
  - left. by apply V_effect in H as (_ & ? & _).
  - left. by apply fork_touched in H as (_ & _ & ? & _).
  - left. unfold Begin in H. destruct (CheckToBeDestroyed k) as [k1|] eqn:E; [|done]. injection H as <-. apply destroy_calm in E. apply E.
  - apply Sleep_run in H as [|(k1 & n & f & HR)]; [by left|right]. by exists k1, n, f.
  - left. by apply run_tail_frame in H as (_ & _ & ?).
  - by apply sleep_loop_run in H.
  - by apply P_loop_run in H.
Qed.

Lemma step_run garbage k k' : step garbage k k' -> currentThread k' = currentThread k \/ by_run k k'.
Proof.
  intros [k1 k2 Hex|k1 k2 _ Hp|k1 k2 n _ HV|k1 k2 d x _ Hx _ HI|k1 m _ _].
  - apply exec_inv in Hex as (th & a & rest & Hc & _ & Hp). apply perform_run in Hp as [|(k1' & n & f & HR & Es & Em & Ec & Hh)]; [by left|right].
    rewrite (homes_state _ _ _ _ Hc) in Hh. by exists k1', n, f.
  - left. by apply push_current in Hp.
  - left. by apply V_effect in HV as (_ & ? & _).
  - left. unfold dev_interrupt, deref in HI. rewrite Hx in HI. by apply V_effect in HI as (_ & ? & _).
  - by left.
Qed.
