(* ===== verification/KernelProps.v ===== *)
(** * What the thread system guarantees

    Theorems about every state that the system can reach from its start, under
    any timer and device interrupts: safety, the scheduler's invariant, no lost
    wake-up, mutual exclusion, the order of synchronized lists; and about the
    choices of the scheduler. *)

From S2P Require Import Prelude Lists Interrupt Machine AddrSpace Threads Synch SchedInv SynchInv KernelSafe Frame.

(** ** Reachable states *)
Section reachable.
Context (E : env) (garbage : list Z) (k0 k : Kernel).

Lemma reach_inv :
  env_wf E -> length garbage = Z.to_nat NumTotalRegs -> initial E k0 -> reachable garbage k0 k ->
  exists own, kernel_inv E own k.
Proof. intros Hwf Hg Hi Hr. eapply reachable_safe; [done|done| |done]. by eapply initial_inv. Qed.

(** C1: a checked program runs safely.  From a kernel that has just started
    with a program that passes [checked], whatever the timer, the devices and
    the user code do, the current thread can always take its next action: no
    assertion of thread.cc, scheduler.cc, synch.cc or list.cc fails, no dangling
    thread, semaphore, lock, condition or list is touched, and no device is given
    a request while it works on another.  The exceptions are
    the four of [may_stop]: [Halt], the 129th thread with a priority, a
    semaphore's value passing 2^31 - 1, and an item that is in the synchronized
    list already. *)
Theorem kernel_safe :
  env_wf E -> length garbage = Z.to_nat NumTotalRegs -> initial E k0 -> reachable garbage k0 k ->
  (exists k', exec garbage k = Ok k') \/ (exists e, exec garbage k = Err e /\ may_stop k e).
Proof.
  intros Hwf Hg Hi Hr. destruct (reach_inv Hwf Hg Hi Hr) as [own Hk].
  destruct (exec_safe E Hwf garbage Hg own k Hk) as [(k' & _ & ? & _)|?]; eauto.
Qed.

(** C14: the scheduler's invariant.  In every reachable state the ready list
    holds exactly the READY threads, once each, by decreasing priority; only
    the current thread is RUNNING, and it is unless it waits for work inside
    [Sleep]; a BLOCKED thread is in the queue of exactly one semaphore, or is
    finishing. *)
Theorem scheduler_invariant :
  env_wf E -> length garbage = Z.to_nat NumTotalRegs -> initial E k0 -> reachable garbage k0 k ->
  NoDup (readyList k) /\ Sorted (cmp_le (Compare (threads k))) (readyList k) /\
  (forall t, t ∈ readyList k <-> exists th, threads k !! t = Some th /\ status th = READY) /\
  (exists th, threads k !! currentThread k = Some th /\
     (status th = RUNNING \/ exists f, next_action k = Some (SleepLoop f))) /\
  (forall t th, threads k !! t = Some th ->
     match status th with
     | JUST_CREATED => False
     | RUNNING => t = currentThread k
     | READY => True
     | BLOCKED => (exists s, queued (sems k) s t /\ forall s', queued (sems k) s' t -> s' = s) \/
                  machineState th = [RunTail] \/ machineState th = [SleepLoop true]
     end).
Proof.
  intros Hwf Hg Hi Hr. destruct (reach_inv Hwf Hg Hi Hr) as [own [Hk _]].
  destruct Hk as [(th & Hc & HC) Hoth [Hnd Hso Hmem] Hs Hd Hu]. split_and!; [done..| |].
  - exists th. split; [done|]. unfold next_action. rewrite Hc. cbn. inversion HC as [? ? ? E1 E2|? ? ? E1 E2|? ? ? ? E1 E2|? ? ? ? ? E1 E2|? ? ? ? ? E1 E2|? ? ? ? ? ? E1 E2|? ? E1 E2]; rewrite <- ?E1, <- ?E2; cbn; eauto.
  - assert (forall s s' t, queued (sems k) s t -> queued (sems k) s' t -> s' = s) as Huniq.
    { intros s s' t (sem & Hsem & Hin) (sem' & Hsem' & Hin').
      destruct (s_mem _ _ _ _ (Hs _ _ Hsem) t Hin) as (? & ? & _ & ?), (s_mem _ _ _ _ (Hs _ _ Hsem') t Hin') as (? & ? & _ & ?). congruence. }
    intros t tht Ht. destruct (decide (t = currentThread k)) as [->|Hne].
    + assert (tht = th) as -> by congruence. inversion HC; eauto 10.
    + specialize (Hoth t tht Hne Ht). inversion Hoth; eauto 10.
Qed.

(** C13: no wake-up is lost.  While a thread is queued on a semaphore whose
    value is positive, some thread that is awake is about to test the semaphore
    again; and the CPU idles only when every semaphore on which a thread is
    queued has value 0. *)
Theorem no_lost_wakeup :
  env_wf E -> length garbage = Z.to_nat NumTotalRegs -> initial E k0 -> reachable garbage k0 k ->
  forall s sem, sems k !! s = Some sem -> queue sem <> [] ->
  (0 < value sem -> exists t th, threads k !! t = Some th /\ status th <> BLOCKED /\ target (machineState th) = Some s) /\
  (readyList k = [] -> (exists f, next_action k = Some (SleepLoop f)) -> value sem = 0).
Proof.
  intros Hwf Hg Hi Hr s sem Hsem Hq. destruct (reach_inv Hwf Hg Hi Hr) as [own [Hk _]].
  destruct (si_sems _ _ _ Hk s sem Hsem) as [_ Hv _ Hw]. specialize (Hw Hq). rewrite bool_decide_eq_false_2 in Hw by done.
  assert (0 < value sem -> exists t th, threads k !! t = Some th /\ status th <> BLOCKED /\ target (machineState th) = Some s) as Hpos.
  { intros Hp. destruct (woken_pos s (threads k)) as (t & th & Ht & Ha); [lia|]. exists t, th. split; [done|].
    unfold awake in Ha. apply andb_true_iff in Ha as [Ha1%negb_true_iff%bool_decide_eq_false Ha2%bool_decide_eq_true]. done. }
  split; [done|]. intros Hempty [f Hf]. destruct (Z.eq_dec (value sem) 0) as [|Hne]; [done|exfalso].
  destruct (Hpos ltac:(lia)) as (t & th & Ht & Hst & _).
  assert (status th <> READY) as Hnr.
  { intros E1. pose proof (proj2 (r_mem _ _ (si_ready _ _ _ Hk) t) (ex_intro _ th (conj Ht E1))) as Hin. rewrite Hempty in Hin. set_solver. }
  destruct (decide (t = currentThread k)) as [->|Hnc].
  - destruct (si_cur _ _ _ Hk) as (th' & Hc & HC). assert (th' = th) as -> by congruence.
    unfold next_action in Hf. rewrite Ht in Hf. cbn in Hf.
    destruct HC; try congruence; try done; [by destruct ms as [|[] ?]|]. destruct H0; cbn in Hf; done.
  - pose proof (si_others _ _ _ Hk t th Hnc Ht) as Hpk. inversion Hpk; congruence.
Qed.

(** A thread between the end of [Lock::Acquire]'s [P] and the [V] of
    [Lock::Release]. *)
Definition inside (l t : positive) : Prop :=
  lockHolder k !! l = Some (Some t) \/
  exists th, threads k !! t = Some th /\
    (list.head (cont (machineState th)) = Some (SetHolder l) \/ list.head (cont (machineState th)) = Some (V_ (LSem l))).

(** C12: mutual exclusion.  In every reachable state at most one thread is
    inside a lock, and while one is the lock's semaphore is 0, so that no other
    gets past [Acquire]. *)
Theorem mutual_exclusion l t :
  env_wf E -> length garbage = Z.to_nat NumTotalRegs -> initial E k0 -> reachable garbage k0 k ->
  l ∈ e_locks E -> inside l t ->
  value <$> sems k !! LSem l = Some 0 /\ forall u, inside l u -> u = t.
Proof.
  intros Hwf Hg Hi Hr Hl Ht. destruct (reach_inv Hwf Hg Hi Hr) as [own [Hk Ho]].
  destruct (lock_at _ _ _ _ _ _ _ _ Ho l Hl) as (v & Hv & Hh & Hst).
  assert (forall u, inside l u -> own !! Held l = Some u \/ own !! Pend l = Some u) as Hin.
  { intros u [Hu|(th & Hth & Hhd)]; [left; congruence|right].
    assert (conts k !! u = Some (cont (machineState th))) as Hct by (unfold conts; by rewrite lookup_fmap, Hth).
    destruct (cont (machineState th)) as [|a r]; [naive_solver|]. cbn in Hhd.
    destruct Hhd as [[= ->]|[= ->]]; (destruct (own_next _ _ _ _ _ _ _ _ _ Ho _ _ Hct) as (Γ & Γ' & Hag & Hact & _); [done..|]);
      cbn in Hact; case_decide as Hd; try done; apply Hag; tauto. }
  unfold values in Hv. destruct (Hin t Ht) as [E1|E1]; rewrite E1 in Hst; inversion Hst; subst; (split; [done|]);
    intros u Hu; destruct (Hin u Hu); congruence.
Qed.
End reachable.

(** ** The scheduler's choice *)

Lemma place_ext {T} (f g : T -> T -> Z) xs x : (forall y, y ∈ xs -> f x y = g x y) -> Spec.place f xs x = Spec.place g xs x.
Proof.
  induction xs as [|y xs IH]; intros Hfg; [done|]. cbn. rewrite Hfg by by left. rewrite IH; [done|]. intros. apply Hfg. by right.
Qed.

Lemma place_Compare_insert ths t th th' r x :
  ths !! t = Some th -> priority th' = priority th ->
  Spec.place (Compare (<[t := th']> ths)) r x = Spec.place (Compare ths) r x.
Proof.
  intros Ht Hp. apply place_ext. intros y _. unfold Compare. rewrite !getPriority_insert.
  assert (getPriority ths t = priority th') as E by (unfold getPriority; rewrite Ht; done).
  do 2 case_decide; subst; by rewrite ?E.
Qed.

(** The head of the ready list after the current thread joined it. *)
Lemma place_head ths r c n r' :
  Sorted (cmp_le (Compare ths)) r -> Spec.place (Compare ths) r c = n :: r' ->
  Forall (fun t => getPriority ths t <= getPriority ths n) (c :: r) /\
  (n = c /\ r' = r /\ Forall (fun t => getPriority ths t < getPriority ths c) r \/
   exists r0, r = n :: r0 /\ getPriority ths c <= getPriority ths n /\ r' = Spec.place (Compare ths) r0 c).
Proof.
  intros Hs Hp. assert (forall a l, Sorted (cmp_le (Compare ths)) (a :: l) -> Forall (fun t => getPriority ths t <= getPriority ths a) l) as Hall.
  { intros a l Hsl. apply Sorted_StronglySorted in Hsl; [|intros x y z; apply compare_trans].
    apply StronglySorted_inv in Hsl as [_ H]. eapply Forall_impl; [exact H|]. intros x Hx. by apply Compare_le. }
  destruct r as [|y r]; cbn in Hp.
  { simplify_eq. split; [repeat constructor; done|]. left. by repeat constructor. }
  destruct (Z.ltb_spec (Compare ths c y) 0) as [Hlt|Hge]; simplify_eq.
  - assert (getPriority ths y < getPriority ths n) as Hyn.
    { unfold Compare in Hlt. destruct (Z.ltb_spec (getPriority ths y) (getPriority ths n)); [done|]. by case_match. }
    specialize (Hall y r Hs). assert (Forall (fun t => getPriority ths t < getPriority ths n) (y :: r)) as Hf.
    { constructor; [done|]. eapply Forall_impl; [exact Hall|]. intros x. cbn. lia. }
    split; [constructor; [done|]; eapply Forall_impl; [exact Hf|]; intros x; cbn; lia|]. by left.
  - assert (getPriority ths c <= getPriority ths n) as Hcn.
    { unfold Compare in Hge. destruct (Z.ltb_spec (getPriority ths n) (getPriority ths c)); lia. }
    split; [|right; eauto]. constructor; [done|]. constructor; [done|]. auto.
Qed.

Lemma yield_exec E own garbage k :
  env_wf E -> length garbage = Z.to_nat NumTotalRegs -> kernel_inv E own k -> next_action k = Some Yield_ ->
  let prio := getPriority (threads k) in let c := currentThread k in
  exists k', exec garbage k = Ok k' /\
    Forall (fun t => prio t <= prio (currentThread k')) (c :: readyList k) /\
    (currentThread k' = c /\ readyList k' = readyList k /\ Forall (fun t => prio t < prio c) (readyList k) \/
     exists r0, readyList k = currentThread k' :: r0 /\ prio c <= prio (currentThread k') /\
       readyList k' = Spec.place (Compare (threads k)) r0 c).
Proof.
  intros Hwf Hg [Hk Ho] Hnext prio c. unfold next_action in Hnext. destruct (threads k !! currentThread k) as [th|] eqn:Hc; [|done].
  cbn in Hnext. destruct (machineState th) as [|a rest] eqn:Hms; [done|]. cbn in Hnext. injection Hnext as ->.
  destruct (exec_head garbage k th Yield_ rest Hc Hms) as [-> _]. cbn [perform].
  destruct (action_checked E k own th Yield_ rest Ho Hc Hms) as [Γ Hch]; [done..|].
  destruct (checked_plain _ _ _ Hch) as (_ & _ & Htg).
  pose proof (action_running k th Yield_ rest Hk Hc Hms eq_refl rest Htg) as Hr.
  destruct (Yield_ok _ (with_state rest th) Hr) as (k' & -> & _ & _ & _ & Hpl); [ksimpl; by rewrite lookup_insert_eq|].
  exists k'. split; [done|]. symmetry in Hpl. ksimpl. rewrite insert_insert_eq in Hpl.
  rewrite (place_Compare_insert _ _ th) in Hpl by done. apply (place_head _ _ _ _ _ (r_sorted _ _ (si_ready _ _ _ Hk)) Hpl).
Qed.

(** What [Yield] chooses.  The thread that runs next has the highest
    priority of the current and all ready threads; the current thread keeps the
    CPU exactly when every ready thread has a lower priority, and otherwise the
    first of the ready list runs and the current thread goes behind the ready
    threads of its priority and above.  (Yielding to a lower priority never
    happens.) *)
Theorem yield_choice E own garbage k :
  env_wf E -> length garbage = Z.to_nat NumTotalRegs -> kernel_inv E own k -> next_action k = Some Yield_ ->
  let prio := getPriority (threads k) in let c := currentThread k in
  exists k', exec garbage k = Ok k' /\
    Forall (fun t => prio t <= prio (currentThread k')) (c :: readyList k) /\
    (currentThread k' = c /\ readyList k' = readyList k /\ Forall (fun t => prio t < prio c) (readyList k) \/
     exists r0, readyList k = currentThread k' :: r0 /\ prio c <= prio (currentThread k') /\
       readyList k' = Spec.place (Compare (threads k)) r0 c).
Proof. apply yield_exec. Qed.

(** Round robin.  A ready thread whose priority is at least that of the
    current thread moves up one place with every [Yield], and is the next to run
    when it was the first: the place in the list bounds the number of calls of
    [Yield] before it runs. *)
Theorem yield_round_robin E own garbage k xs t ys :
  env_wf E -> length garbage = Z.to_nat NumTotalRegs -> kernel_inv E own k -> next_action k = Some Yield_ ->
  readyList k = xs ++ t :: ys -> getPriority (threads k) (currentThread k) <= getPriority (threads k) t ->
  exists k', exec garbage k = Ok k' /\
    match xs with
    | [] => currentThread k' = t
    | x :: xs' => currentThread k' = x /\ exists ys', readyList k' = xs' ++ t :: ys'
    end.
Proof.
  intros Hwf Hg Hk Hnext Hr Hp. destruct (yield_exec E own garbage k Hwf Hg Hk Hnext) as (k' & Hk' & _ & Hch). exists k'. split; [done|].
  destruct Hch as [(_ & _ & Hlt)|(r0 & Hr0 & _ & Hpl)].
  { exfalso. rewrite Hr, Forall_app, Forall_cons in Hlt. lia. }
  rewrite Hr in Hr0. destruct xs as [|x xs]; cbn in Hr0; simplify_eq; [done|]. split; [done|]. rewrite Hpl.
  exists (Spec.place (Compare (threads k)) ys (currentThread k)).
  pose proof (r_sorted _ _ (si_ready _ _ _ (proj1 Hk))) as Hs. rewrite Hr in Hs. apply Sorted_inv in Hs as [Hs _]. clear -Hs Hp.
  induction xs as [|y xs IH]; cbn.
  - destruct (Z.ltb_spec (Compare (threads k) (currentThread k) t) 0) as [Hlt|]; [|done]. exfalso.
    unfold Compare in Hlt. repeat case_match; lia.
  - assert (getPriority (threads k) t <= getPriority (threads k) y) as Hy.
    { apply Sorted_StronglySorted in Hs; [|intros a b c; apply compare_trans]. apply StronglySorted_inv in Hs as [_ Hall].
      rewrite Forall_forall in Hall. apply Compare_le, Hall. set_solver. }
    destruct (Z.ltb_spec (Compare (threads k) (currentThread k) y) 0) as [Hlt|].
    + exfalso. unfold Compare in Hlt. repeat case_match; lia.
    + apply Sorted_inv in Hs as [Hs _]. by rewrite (IH Hs).
Qed.

Lemma run_reachable garbage n k k' : run garbage n k = Ok k' -> reachable garbage k k'.
Proof.
  unfold reachable. revert k. induction n as [|n IH]; intros k; cbn [run]; [by intros [= ->]|]. intros H.
  destruct (exec garbage k) as [k1|] eqn:Hex; cbn [mbind outcome_bind] in H; [|done].
  eapply rtc_l; [by apply step_exec|]. by apply IH.
Qed.

(** The state after [n] actions. *)
Definition after (garbage : list Z) (n : nat) (k : Kernel) : Kernel :=
  match run garbage n k with Ok k' => k' | Err _ => k end.

Lemma after_reachable garbage n k : reachable garbage k (after garbage n k).
Proof. unfold after. destruct (run garbage n k) eqn:Hr; [by eapply run_reachable|apply rtc_refl]. Qed.

(** A program that creates 129 threads with a priority, one after the other,
    each of which finishes before the next is created. *)
Definition spawn : list action := concat (replicate 129 [Fork_ (Some 7) []; Yield_]).

(** The limit of 128 threads counts creations.  [threadNum] never decreases
    whatever the system does; once it is 128 the creation of a thread with a
    priority fails the assertion of the constructor; and this happens although
    every thread created before has finished and is gone. *)
Theorem thread_limit :
  (forall garbage k k', reachable garbage k k' -> threadNum k <= threadNum k') /\
  (forall garbage k p body, next_action k = Some (Fork_ (Some p) body) -> threadNum k = MAX_THREAD_NUM ->
     exec garbage k = Err AssertFailed) /\
  exists k, reachable (replicate 40 0) (Initialize (replicate 40 0) spawn) k /\
    dom (threads k) = {[ currentThread k ]} /\ exec (replicate 40 0) k = Err AssertFailed.
Proof.
  split_and!.
  - intros garbage k k' Hr. unfold reachable in Hr. induction Hr as [|k k1 k2 Hs _ IH]; [lia|]. apply step_spaces in Hs as [_ ?]. lia.
  - intros garbage k p body Hnext Hn. unfold next_action in Hnext. destruct (threads k !! currentThread k) as [th|] eqn:Hc; [|done].
    cbn in Hnext. destruct (machineState th) as [|a rest] eqn:Hms; [done|]. cbn in Hnext. injection Hnext as ->.
    destruct (exec_head garbage k th _ rest Hc Hms) as [-> _]. cbn [perform]. unfold fork_new, newThreadPriority. ksimpl.
    by rewrite Hn.
  - exists (after (replicate 40 0) 768 (Initialize (replicate 40 0) spawn)). split; [apply after_reachable|].
    split; [apply (bool_decide_unpack _); vm_compute; exact I|vm_compute; reflexivity].
Qed.

(** ** User programs across switches *)

(** The state of the machine that belongs to a user program. *)
Definition user_state (m : Machine) : list Z * option positive * Z * list Z :=
  (registers m, Machine.pageTable m, pageTableSize m, Machine.FileAddr m).

(** The machine runs in the address space [sp]: what [Execute] and
    [RestoreState] set up. *)
Definition runs_in (sp : AddrSpace) (m : Machine) : Prop :=
  Machine.pageTable m = pageTable sp /\ pageTableSize m = numPages sp /\ Machine.FileAddr m = FileAddr sp.

(** A step while [t] is not on the CPU. *)
Definition away (garbage : list Z) (t : positive) (k k' : Kernel) : Prop := step garbage k k' /\ currentThread k <> t.

(** [Run] stores the registers of the machine in the address space of the thread
    that leaves. *)
Lemma Run_saves n f k k' a :
  Run n f k = Ok k' -> homes k !! currentThread k = Some (Some a) -> length (registers (machine k)) = Z.to_nat NumTotalRegs ->
  (forall sp, spaces k !! a = Some sp -> length (s_reg sp) = Z.to_nat NumTotalRegs) ->
  exists sp, spaces k !! a = Some sp /\
    spaces k' !! a = Some (AddrSpace.mkAddrSpace (FileAddr sp) (pageTable sp) (numPages sp) (registers (machine k))).
Proof.
  unfold Run. intros H Hh Hm Hsp. cbn zeta in H. destruct (ASSERT (bool_decide (intLevel k = IntOff))); [|done]. cbn [mbind outcome_bind] in H.
  match type of H with mbind _ ?m = _ => destruct m as [kd|] eqn:Ed; [|done] end. cbn [mbind outcome_bind] in H.
  assert (threads kd = threads k /\ spaces kd = spaces k /\ machine kd = machine k) as (E1 & E2 & E3) by (destruct f; repeat inv_ok1; done).
  unfold save_user, deref in H. rewrite E1 in H. rewrite homes_lookup in Hh.
  destruct (threads k !! currentThread k) as [th|] eqn:Hc; [|done]. cbn in Hh. injection Hh as Hh. cbn [mbind outcome_bind] in H. rewrite Hh in H.
  destruct (SaveUserState _ kd) as [k1|] eqn:E4; [|done]. cbn [mbind outcome_bind] in H.
  assert (spaces k1 = spaces k /\ machine k1 = machine k) as [E5 E6].
  { unfold SaveUserState in E4. repeat inv_ok1. by rewrite <- E2, <- E3. }
  rewrite E5, E6 in H. destruct (spaces k !! a) as [sp|] eqn:Ha; [|done]. cbn [mbind outcome_bind] in H.
  rewrite SaveState_ok in H by (done || by apply Hsp). cbn [mbind outcome_bind] in H. exists sp. split; [done|].
  match type of H with mbind _ ?m = _ => destruct m as [th'|]; [|done] end. cbn [mbind outcome_bind] in H.
  destruct (CheckOverflow th'); [|done]. cbn [mbind outcome_bind] in H.
  destruct (push _ _) as [kp|] eqn:Ep; [|done]. cbn [mbind outcome_bind] in H. apply push_touched in Ep as (_ & _ & _ & Es & _).
  ksimpl. destruct (threads kp !! n); [|done]. injection H as <-. ksimpl. rewrite Es. apply lookup_insert_eq.
Qed.

(** The rest of [Run] brings the context back. *)
Lemma run_tail_restores k th ms a sp :
  sched_inv None active k -> threads k !! currentThread k = Some th -> machineState th = RunTail :: ms ->
  space th = Some a -> spaces k !! a = Some sp ->
  exists k', run_tail (set_thread (currentThread k) (with_state ms th) k) = Ok k' /\
    registers (machine k') = s_reg sp /\ Machine.pageTable (machine k') = pageTable sp /\ pageTableSize (machine k') = numPages sp /\
    Machine.FileAddr (machine k') = FileAddr sp /\ mainMemory (machine k') = mainMemory (machine k).
Proof.
  intros Hk Hc Hms Ha Hsp. set (k1 := set_thread _ _ k). set (th1 := with_state ms th).
  assert (user_ok (threads k1) (spaces k1) (machine k1)) as Hu1
    by (eapply user_ok_insert; [exact Hc|done..|apply Hk]).
  assert (exists kd, CheckToBeDestroyed k1 = Ok kd /\ user_ok (threads kd) (spaces kd) (machine kd) /\ threads kd !! currentThread k = Some th1 /\
    spaces kd = spaces k /\ machine kd = machine k /\ currentThread kd = currentThread k) as (kd & Ed & Hud & Htd & Es & Em & Ec).
  { unfold CheckToBeDestroyed. change (toBeDestroyed k1) with (toBeDestroyed k). destruct (toBeDestroyed k) as [x|] eqn:Ex.
    - destruct (si_destroy _ _ _ Hk x Ex) as [Hne _]. rewrite bool_decide_eq_true_2 by done. cbn [ASSERT mbind outcome_bind].
      eexists. split; [reflexivity|]. ksimpl. split_and!; try done; [by apply user_ok_delete|].
      rewrite lookup_delete_ne by done. apply lookup_insert_eq.
    - exists k1. split_and!; try done. apply lookup_insert_eq. }
  unfold run_tail. assert (intLevel k1 = IntOff) as Hl.
  { destruct (si_cur _ _ _ Hk) as (th' & Hc' & HC). assert (th' = th) as -> by congruence. rewrite Hms in HC. by inversion HC. }
  rewrite (assert_off _ Hl). cbn [mbind outcome_bind]. rewrite Ed. cbn [mbind outcome_bind]. rewrite Ec.
  destruct (restore_user_ok kd (currentThread k) th1 Hud Htd) as (m & -> & _ & Hm). destruct (Hm a sp) as (E1 & E2 & E3 & E4 & E5); [done|by rewrite Es|].
  eexists. split; [done|]. ksimpl. rewrite <- Em. by split_and!.
Qed.

Section context.
Context (E : env) (garbage : list Z) (k0 k : Kernel) (a : positive) (sp : AddrSpace).
Context (Hwf : env_wf E) (Hg : length garbage = Z.to_nat NumTotalRegs) (Hi : initial E k0) (Hr : reachable garbage k0 k).

(** While the thread is away, its address space stays as [Run] left it. *)
Lemma away_space t k1 k2 :
  (forall u, homes k1 !! u = Some (Some a) -> u = t) -> rtc (away garbage t) k1 k2 ->
  spaces k2 !! a = spaces k1 !! a /\ forall u, homes k2 !! u = Some (Some a) -> u = t.
Proof.
  intros Hown Haway. revert Hown. induction Haway as [k1|k1 k1' k2 [Hs Hc] _ IH]; intros Hown; [done|].
  apply step_spaces in Hs as [[Hh Hsp] _]. destruct IH as [IH1 IH2].
  - intros u Hu. destruct (Hh u _ Hu) as [|[_ ?]]; [by apply Hown|done].
  - split; [|done]. rewrite IH1. apply Hsp. intros E1. by apply Hc, Hown.
Qed.

(** C30: a thread finds its user program as it left it.  Let a thread whose
    address space no other thread shares run in that space, and let the system
    switch from it to another thread.  Whatever threads, interrupts and user
    programs run then: when [Run] goes on in the thread, the rest of [Run] makes
    the 40 registers, the page table, its size and the description of the
    program's segments what they were at the switch, and leaves the main memory
    as it finds it. *)
Theorem user_context_restored k1 k2 th2 :
  homes k !! currentThread k = Some (Some a) -> (forall u, homes k !! u = Some (Some a) -> u = currentThread k) ->
  spaces k !! a = Some sp -> runs_in sp (machine k) ->
  step garbage k k1 -> currentThread k1 <> currentThread k -> rtc (away garbage (currentThread k)) k1 k2 ->
  currentThread k2 = currentThread k -> next_action k2 = Some RunTail ->
  threads k2 !! currentThread k = Some th2 -> space th2 = Some a ->
  exists k3, exec garbage k2 = Ok k3 /\ user_state (machine k3) = user_state (machine k) /\
    mainMemory (machine k3) = mainMemory (machine k2).
Proof.
  intros Hh Hown Hsp (Hpt & Hsz & Hfa) Hs1 Hne Haway Hc2 Hnext Hth2 Ha2.
  destruct (reach_inv E garbage k0 k Hwf Hg Hi Hr) as [own [Hk _]]. pose proof (si_user _ _ _ Hk) as Hu.
  destruct (step_run _ _ _ Hs1) as [|(km & n & f & HR & Es & Em & Ec & Hhm)]; [done|].
  assert (homes km !! currentThread km = Some (Some a)) as Hhk.
  { unfold Run in HR. cbn zeta in HR. destruct (homes km !! currentThread km) as [h|] eqn:Eh.
    - eapply lookup_weaken in Eh as Eh'; [|exact Hhm]. rewrite Ec in Eh'. congruence.
    - exfalso. rewrite homes_lookup in Eh. repeat inv_ok1. destruct (threads km !! currentThread km) eqn:Et; [done|].
      destruct f; repeat inv_ok1; unfold save_user, deref in *; ksimpl; rewrite Et in *; done. }
  destruct (Run_saves n f km k1 a HR Hhk) as (sp' & Hsp' & Hsv); [rewrite Em; apply Hu|rewrite Es; apply (u_spaces _ _ _ Hu)|].
  rewrite Es, Hsp in Hsp'. injection Hsp' as <-. rewrite Em in Hsv.
  destruct (step_spaces _ _ _ Hs1) as [[Hh1 _] _].
  destruct (away_space (currentThread k) k1 k2) as [Esp _]; [|done|].
  { intros u Hu1. destruct (Hh1 u _ Hu1) as [|[_ ?]]; [by apply Hown|done]. }
  assert (reachable garbage k0 k2) as Hr2.
  { unfold reachable in *. etrans; [exact Hr|]. eapply rtc_l; [exact Hs1|]. clear -Haway. induction Haway as [|x y z [Hxy _] _ IH]; [apply rtc_refl|by eapply rtc_l]. }
  destruct (reach_inv E garbage k0 k2 Hwf Hg Hi Hr2) as [own2 [Hk2 _]].
  unfold next_action in Hnext. rewrite Hc2, Hth2 in Hnext. cbn in Hnext. destruct (machineState th2) as [|b ms] eqn:Hms; [done|]. injection Hnext as ->.
  rewrite <- Hc2 in Hth2. destruct (exec_head garbage k2 th2 _ ms Hth2 Hms) as [-> _]. cbn [perform].
  destruct (run_tail_restores k2 th2 ms a _ Hk2 Hth2 Hms Ha2 (eq_trans Esp Hsv)) as (k3 & -> & E1 & E2 & E3 & E4 & E5).
  exists k3. split; [done|]. split; [|done]. unfold user_state. cbn in *. by rewrite E1, E2, E3, E4, Hpt, Hsz, Hfa.
Qed.
End context.

(** ** A concrete system

    Two threads of priority 7 wait on a semaphore; the main thread takes a
    lock, posts the semaphore once and uses a synchronized list. *)
Module KernelSim.
Definition regs : list Z := replicate 40 0.
Definition u : semid := USem 1.
Definition objects : env := mkEnv {[ 1%positive ]} {[ 1%positive ]} {[ 1%positive ]} {[ 1%positive := (1%positive, 1%positive) ]} ∅.
Definition prog : list action :=
  [Fork_ (Some 7) [P_ u; Append_ 1 5]; Fork_ (Some 7) [P_ u]; Yield_; Acquire_ 1; V_ u; Release_ 1; V_ u; RemoveFront_ 1].
Definition start : Kernel := set_sem u (newSemaphore 0) (newSynchList 1 1 1 (Initialize regs prog)).
End KernelSim.
Import KernelSim.

Lemma objects_wf : env_wf objects.
Proof.
  split; [|by intros d [? ?]]. intros sl l c Hl. cbn in Hl. apply lookup_singleton_Some in Hl as [<- [= <- <-]]. cbn. set_solver.
Qed.

Lemma start_initial : initial objects start.
Proof.
  split; try done.
  - eexists. split; [reflexivity|]. split; [done|]. vm_compute. done.
  - split; [|done|done]. intros t th Ht. cbn in Ht. apply lookup_singleton_Some in Ht as [<- <-]. split_and!; [by left|done|done].
  - intros s sem. cbn. destruct (decide (s = u)) as [->|]; [intros [= <-]; done|]. rewrite lookup_insert_ne by done.
    destruct (decide (s = LSem 1)) as [->|]; [intros [= <-]; done|]. rewrite lookup_insert_ne by done. done.
  - intros n Hn. cbn in Hn. apply elem_of_singleton in Hn as ->. by eexists.
  - intros l Hl. cbn in Hl. by apply elem_of_singleton in Hl as ->.
  - intros c Hc. cbn in Hc. apply elem_of_singleton in Hc as ->. by eexists.
  - intros c q Hq. cbn in Hq. by apply lookup_singleton_Some in Hq as [<- <-].
  - intros sl l c Hl. cbn in Hl. apply lookup_singleton_Some in Hl as [<- [= <- <-]]. by eexists.
Qed.

Lemma regs_40 : length regs = Z.to_nat NumTotalRegs.
Proof. reflexivity. Qed.

Lemma kernel_safe_witness :
  (exists k', exec regs (after regs 13 start) = Ok k') \/
  (exists e, exec regs (after regs 13 start) = Err e /\ may_stop (after regs 13 start) e).
Proof. exact (kernel_safe objects regs start _ objects_wf regs_40 start_initial (after_reachable regs 13 start)). Defined.

Lemma scheduler_invariant_witness :
  readyList (after regs 16 start) = [2%positive; 3%positive] /\
  (forall t, t ∈ readyList (after regs 16 start) <->
     exists th, threads (after regs 16 start) !! t = Some th /\ Threads.status th = READY).
Proof.
  split; [vm_compute; reflexivity|].
  exact (proj1 (proj2 (proj2 (scheduler_invariant objects regs start _ objects_wf regs_40 start_initial (after_reachable regs 16 start))))).
Defined.

Lemma no_lost_wakeup_witness :
  exists t th, threads (after regs 13 start) !! t = Some th /\ Threads.status th <> BLOCKED /\ target (machineState th) = Some u.
Proof.
  apply (proj1 (no_lost_wakeup objects regs start _ objects_wf regs_40 start_initial (after_reachable regs 13 start) u
    (mkSem 1 [3%positive]) ltac:(vm_compute; reflexivity) ltac:(done))). reflexivity.
Defined.

Lemma mutual_exclusion_witness :
  value <$> sems (after regs 13 start) !! LSem 1 = Some 0 /\ forall v, inside (after regs 13 start) 1 v -> v = 1%positive.
Proof.
  apply (mutual_exclusion objects regs start _ 1 1 objects_wf regs_40 start_initial (after_reachable regs 13 start)).
  - cbn. set_solver.
  - left. vm_compute. reflexivity.
Defined.

Lemma yield_choice_witness :
  exists k', exec regs (after regs 2 start) = Ok k' /\ currentThread k' = 2%positive.
Proof.
  destruct (reachable_safe objects objects_wf regs regs_40 ∅ start (after regs 2 start)) as [own Hk].
  { apply (initial_inv objects objects_wf regs regs_40), start_initial. }
  { apply after_reachable. }
  destruct (yield_choice objects own regs (after regs 2 start) objects_wf regs_40 Hk ltac:(vm_compute; reflexivity))
    as (k' & Hk' & _ & [(_ & _ & Hlt)|(r0 & Hr & _)]).
  - exfalso. vm_compute in Hlt. inversion Hlt as [|? ? Hx _]. discriminate Hx.
  - exists k'. split; [exact Hk'|].
    assert (readyList (after regs 2 start) = [2%positive; 3%positive]) as E2 by (vm_compute; reflexivity). congruence.
Defined.

Lemma yield_round_robin_witness :
  exists k', exec regs (after regs 2 start) = Ok k' /\ currentThread k' = 2%positive /\ exists ys', readyList k' = 3%positive :: ys'.
Proof.
  destruct (reachable_safe objects objects_wf regs regs_40 ∅ start (after regs 2 start)) as [own Hk].
  { apply (initial_inv objects objects_wf regs regs_40), start_initial. }
  { apply after_reachable. }
  exact (yield_round_robin objects own regs (after regs 2 start) [2%positive] 3 [] objects_wf regs_40 Hk
    ltac:(vm_compute; reflexivity) ltac:(vm_compute; reflexivity) ltac:(vm_compute; discriminate)).
Defined.

(** The main thread runs a user program and is switched out for another thread,
    while which a user program changes the registers. *)
Module ContextSim.
Definition sp : AddrSpace := AddrSpace.mkAddrSpace [3] (Some 9%positive) 4 (replicate 40 0).
Definition none : env := mkEnv ∅ ∅ ∅ ∅ ∅.
Definition main : Thread := mkThread 1 RUNNING None regs (Some 1%positive) [Fork_ None []; Yield_; Halt_].
Definition m0 : Machine := with_space (Some 9%positive) 4 [3] (with_registers (replicate 40 7) newMachine).
Definition k0 : Kernel := mkKernel IntOn [] None 1 0 {[ 1%positive := main ]} {[ 1%positive := sp ]} m0 ∅ ∅ ∅ ∅ ∅.
Definition other_registers : Machine := with_registers (replicate 40 8) m0.

Lemma none_wf : env_wf none.
Proof. split; [by intros sl l c Hl|by intros d [? ?]]. Qed.
Lemma k0_initial : initial none k0.
Proof.
  split; try done.
  - eexists. split; [reflexivity|]. split; [done|]. vm_compute. done.
  - split; [| |done].
    + intros t th Ht. cbn in Ht. apply lookup_singleton_Some in Ht as [<- <-]. split_and!; [by left|done|]. intros a [= <-]. by exists sp.
    + intros a x Hx. cbn in Hx. by apply lookup_singleton_Some in Hx as [<- <-].
Qed.

(** The states before and after the switch, and when the main thread is back. *)
Definition k : Kernel := after regs 1 k0.
Definition k1 : Kernel := after regs 1 k.
Definition k2 : Kernel := after regs 1 (with_machine other_registers (after regs 1 k1)).

Lemma after_step n x : match run regs 1 x with Ok y => run regs n y <> Err Undefined | Err _ => False end -> step regs x (after regs 1 x).
Proof.
  unfold after. cbn [run]. destruct (exec regs x) as [y|] eqn:Ex; [|done]. intros _. by apply step_exec.
Qed.
Lemma away_other : rtc (away regs 1) k1 k2.
Proof.
  eapply rtc_l; [split; [apply (after_step 0); vm_compute; discriminate|vm_compute; discriminate]|].
  eapply rtc_l; [split; [apply (step_user regs _ other_registers); vm_compute; reflexivity|vm_compute; discriminate]|].
  apply rtc_once. split; [apply (after_step 0); vm_compute; discriminate|vm_compute; discriminate].
Qed.
End ContextSim.

Lemma user_context_restored_witness :
  registers (machine ContextSim.k2) = replicate 40 8 /\ exists k3, exec regs ContextSim.k2 = Ok k3 /\ registers (machine k3) = replicate 40 7 /\ pageTableSize (machine k3) = 4.
Proof.
  split; [vm_compute; reflexivity|].
  destruct (threads ContextSim.k2 !! 1%positive) as [th2|] eqn:Hth2; [|vm_compute in Hth2; discriminate].
  destruct (user_context_restored ContextSim.none regs ContextSim.k0 ContextSim.k 1 ContextSim.sp ContextSim.none_wf regs_40
    ContextSim.k0_initial (after_reachable regs 1 ContextSim.k0) ContextSim.k1 ContextSim.k2 th2) as (k3 & H1 & H2 & _).
  - vm_compute. reflexivity.
  - intros u Hu. rewrite homes_lookup in Hu. apply fmap_Some in Hu as (th & Hth & Hs).
    assert (dom (threads ContextSim.k) = {[ 1%positive; 2%positive ]}) as Hd by (apply (bool_decide_unpack _); vm_compute; exact I).
    apply elem_of_dom_2 in Hth as Hin. rewrite Hd in Hin. apply elem_of_union in Hin as [->%elem_of_singleton| ->%elem_of_singleton]; [vm_compute; reflexivity|].
    vm_compute in Hth. injection Hth as <-. discriminate Hs.
  - vm_compute. reflexivity.
  - split_and!; vm_compute; reflexivity.
  - apply (ContextSim.after_step 0). vm_compute. discriminate.
  - vm_compute. discriminate.
  - exact ContextSim.away_other.
  - vm_compute. reflexivity.
  - vm_compute. reflexivity.
  - exact Hth2.
  - vm_compute in Hth2. injection Hth2 as <-. reflexivity.
  - exists k3. split; [exact H1|]. unfold user_state in H2. injection H2 as E1 _ E3 _. rewrite E1, E3. split; vm_compute; reflexivity.
Defined.
