(* ===== verification/Calls.v ===== *)
(** * Calls of synchronized lists and drivers as events (src/code/threads/synchlist.cc,
    filesys/synchdisk.cc)

    A run of the thread system with what happens at the lists and the devices:
    a thread puts an item into a list or takes one out of it, gives a device a
    request or gets past its wait for the interrupt; a device completes a
    request.  The events are read off the steps of Synch.v, so that a trace
    belongs to every interleaving, and the theorems compare traces with what a
    queue and a sequence of calls would give. *)

From S2P Require Import Prelude Lists Interrupt Machine AddrSpace Threads Synch SchedInv SynchInv KernelSafe Frame KernelProps.

(** ** Events *)
Inductive event := Asked_ (d : positive) (r : request) | Waited_ (d : positive) | Put_ (sl : positive) (item : Z) | Got_ (sl : positive) (item : Z).
Inductive label := Did (t : positive) (e : event) | Completed (d : positive).

#[export] Instance request_eq_dec : EqDecision request.
Proof. solve_decision. Defined.
#[export] Instance event_eq_dec : EqDecision event.
Proof. solve_decision. Defined.
#[export] Instance label_eq_dec : EqDecision label.
Proof. solve_decision. Defined.

(** What an action does at lists and devices, and the events of the next action
    of the current thread. *)
Definition events_of (a : action) (k : Kernel) : list event :=
  match a with
  | Request_ d r => [Asked_ d r]
  | P_ (DSem d) | PLoop (DSem d) _ =>
      match sems k !! DSem d with Some sem => if value sem =? 0 then [] else [Waited_ d] | None => [] end
  | PutItem sl item => [Put_ sl item]
  | RemoveLoop sl => match synchLists k !! sl with Some x => match items x with i :: _ => [Got_ sl i] | [] => [] end | None => [] end
  | _ => []
  end.
Definition emits (k : Kernel) : list label :=
  match next_action k with Some a => Did (currentThread k) <$> events_of a k | None => [] end.

Section traces.
Context (garbage : list Z).

(** The steps of [step], with their events. *)
Inductive tstep : Kernel -> list label -> Kernel -> Prop :=
  | t_exec k k' : exec garbage k = Ok k' -> tstep k (emits k) k'
  | t_timer k k' : intLevel k = IntOn -> push [Yield_] k = Ok k' -> tstep k [] k'
  | t_device k k' n :
      intLevel k = IntOn \/ (exists f, next_action k = Some (SleepLoop f)) -> V (USem n) k = Ok k' -> tstep k [] k'
  | t_complete k k' d x :
      intLevel k = IntOn \/ (exists f, next_action k = Some (SleepLoop f)) ->
      devices k !! d = Some x -> busy x = true -> dev_interrupt d k = Ok k' -> tstep k [Completed d] k'
  | t_user k m : intLevel k = IntOn -> length (registers m) = Z.to_nat NumTotalRegs -> tstep k [] (with_machine m k).

Inductive traced (k0 : Kernel) : list label -> Kernel -> Prop :=
  | traced_nil : traced k0 [] k0
  | traced_snoc tr k ev k' : traced k0 tr k -> tstep k ev k' -> traced k0 (tr ++ ev) k'.

(** A run during which the thread [t] exists. *)
Inductive stays (t : positive) (k0 : Kernel) : list label -> Kernel -> Prop :=
  | stays_nil : is_Some (threads k0 !! t) -> stays t k0 [] k0
  | stays_snoc tr k ev k' : stays t k0 tr k -> tstep k ev k' -> is_Some (threads k' !! t) -> stays t k0 (tr ++ ev) k'.

Lemma tstep_step k ev k' : tstep k ev k' -> step garbage k k'.
Proof. destruct 1; [by apply step_exec|by apply step_timer|by eapply step_device|by eapply step_complete|by apply step_user]. Qed.
Lemma step_tstep k k' : step garbage k k' -> exists ev, tstep k ev k'.
Proof. destruct 1; eexists; [by apply t_exec|by apply t_timer|by eapply t_device|by eapply t_complete|by apply t_user]. Qed.

Lemma traced_reachable k0 tr k : traced k0 tr k -> reachable garbage k0 k.
Proof. induction 1 as [|tr k ev k' _ IH Hs]; [apply rtc_refl|]. eapply rtc_r; [exact IH|by eapply tstep_step]. Qed.
Lemma reachable_traced k0 k : reachable garbage k0 k -> exists tr, traced k0 tr k.
Proof.
  revert k. apply (rtc_ind_r (fun k => exists tr, traced k0 tr k)); [exists []; constructor|].
  intros k k' _ Hs [tr IH]. destruct (step_tstep _ _ Hs) as [ev ?]. exists (tr ++ ev). by econstructor.
Qed.
Lemma stays_traced t k0 tr1 k1 tr2 k2 : traced k0 tr1 k1 -> stays t k1 tr2 k2 -> traced k0 (tr1 ++ tr2) k2.
Proof. intros H1. induction 1; [by rewrite app_nil_r|]. rewrite app_assoc. by econstructor. Qed.

(** ** What a thread has done and has still to do *)
Definition by_thread (t : positive) (tr : list label) : list event :=
  omap (fun l => match l with Did u e => if decide (u = t) then Some e else None | Completed _ => None end) tr.

Definition work_done (e : event) : work :=
  match e with Asked_ d r => AskW d r | Waited_ d => WaitW d | Put_ sl item => PutW sl item | Got_ sl _ => GetW sl end.

Lemma by_thread_app t tr tr' : by_thread t (tr ++ tr') = by_thread t tr ++ by_thread t tr'.
Proof. apply omap_app. Qed.

Lemma by_thread_did t u es : by_thread t (Did u <$> es) = if decide (u = t) then es else [].
Proof.
  induction es as [|e es IH]; [by case_decide|]. rewrite fmap_cons. unfold by_thread in *. cbn [omap list_omap]. rewrite IH.
  by case_decide.
Qed.

(** The events of an action are the part of its work that it does not leave to
    be done. *)
Lemma emits_work k k' th a rest :
  threads k !! currentThread k = Some th -> machineState th = a :: rest -> exec garbage k = Ok k' ->
  work_of a = (work_done <$> by_thread (currentThread k) (emits k)) ++ pushed a (set_thread (currentThread k) (with_state rest th) k).
Proof.
  intros Hc Hms. destruct (exec_head garbage k th a rest Hc Hms) as [-> Hn]. intros H.
  unfold emits. rewrite Hn, by_thread_did, decide_True by done. destruct a; try done; cbn [perform] in H; cbn [events_of].
  - destruct s; try done. unfold P, P_loop, deref in H. ksimpl. cbn [pushed work_of]. ksimpl. destruct (sems k !! DSem d) as [sem|]; [|done].
    by destruct (value sem =? 0).
  - destruct s; try done. unfold P_loop, deref in H. ksimpl. cbn [pushed work_of]. ksimpl. destruct (sems k !! DSem d) as [sem|]; [|done].
    by destruct (value sem =? 0).
  - unfold remove_front_loop, deref in H. ksimpl. cbn [pushed work_of]. ksimpl. destruct (synchLists k !! sl) as [x|]; [|done].
    by destruct (items x).
Qed.

Lemma tstep_work t k ev k' w :
  tstep k ev k' -> is_Some (threads k !! t) -> todos k' !! t = Some w -> todos k !! t = Some ((work_done <$> by_thread t ev) ++ w).
Proof.
  assert (forall p k k', touched p k k' -> is_Some (todos k !! t) -> todos k' !! t = Some w ->
    exists w0, todos k !! t = Some w0 /\ w = if decide (t = currentThread k) then p ++ w0 else w0) as Htouch.
  { intros p x y Ht [w1 Hw1] Hw. destruct (to_todos _ _ _ Ht t w Hw) as [|?]; [congruence|done]. }
  intros Hs Ha Hw. assert (is_Some (todos k !! t)) as Hal by (rewrite todos_lookup; by apply fmap_is_Some).
  destruct Hs as [k k' Hex|k k' _ Hp|k k' n _ HV|k k' d x _ Hx _ HI|k m _ _].
  - apply exec_inv in Hex as Hex'. destruct Hex' as (th & a & rest & Hc & Hms & Hp). pose proof (emits_work k k' th a rest Hc Hms Hex) as Hwork.
    apply perform_effect, ef_touched in Hp. destruct (Htouch _ _ _ Hp) as (w0 & Hw0 & E); [|done|].
    { rewrite todos_lookup. ksimpl. destruct (decide (t = currentThread k)) as [->|]; [rewrite lookup_insert_eq; by eexists|].
      rewrite lookup_insert_ne by done. by apply fmap_is_Some. }
    rewrite todos_lookup in Hw0 |- *. ksimpl. destruct (decide (t = currentThread k)) as [->|Hne].
    + rewrite lookup_insert_eq in Hw0. cbn in Hw0. injection Hw0 as <-. rewrite Hc. cbn. f_equal. rewrite Hms, E, app_assoc, <- Hwork.
      unfold todo. by rewrite fmap_cons.
    + rewrite lookup_insert_ne in Hw0 by done. rewrite Hw0, E. unfold emits. destruct (next_action k); [|done]. rewrite by_thread_did, decide_False by done. done.
  - apply push_touched in Hp as (Ht & _). destruct (Htouch _ _ _ Ht Hal Hw) as (w0 & Hw0 & ->). rewrite Hw0. by case_decide.
  - apply V_effect in HV as ([Ht _ _ _ _ _] & _). destruct (Htouch _ _ _ Ht Hal Hw) as (w0 & Hw0 & ->). rewrite Hw0. by case_decide.
  - unfold dev_interrupt, deref in HI. rewrite Hx in HI. cbn [mbind outcome_bind] in HI. apply V_effect in HI as ([Ht _ _ _ _ _] & _).
    eapply (stores_touched _ k) in Ht; [|done..]. destruct (Htouch _ _ _ Ht Hal Hw) as (w0 & Hw0 & ->). rewrite Hw0. by case_decide.
  - done.
Qed.

(** Over a stretch of a run: what a thread had to do is what it did and what it
    has still to do. *)
Lemma stays_work t k0 tr k th0 th :
  stays t k0 tr k -> threads k0 !! t = Some th0 -> threads k !! t = Some th ->
  todo (machineState th0) = (work_done <$> by_thread t tr) ++ todo (machineState th).
Proof.
  intros Hs. revert th. induction Hs as [|tr k ev k' Hs IH Ht Ha]; intros th H0 H1; [by assert (th0 = th) as -> by congruence|].
  assert (is_Some (threads k !! t)) as [thk Hk] by (by destruct Hs).
  assert (todos k' !! t = Some (todo (machineState th))) as Hw by (by rewrite todos_lookup, H1).
  apply (tstep_work t k ev k' _ Ht (mk_is_Some _ _ Hk)) in Hw. rewrite todos_lookup, Hk in Hw. cbn in Hw. injection Hw as Hw.
  rewrite (IH thk H0 Hk), Hw, by_thread_app, fmap_app. by rewrite app_assoc.
Qed.

(** A call that the thread has finished did exactly its work. *)
Lemma call_work t k0 tr k th0 th call rest :
  stays t k0 tr k -> threads k0 !! t = Some th0 -> threads k !! t = Some th ->
  machineState th0 = call ++ rest -> machineState th = rest -> work_done <$> by_thread t tr = todo call.
Proof.
  intros Hs H0 H1 E0 E1. pose proof (stays_work t k0 tr k th0 th Hs H0 H1) as Hw. rewrite E0, E1, todo_app in Hw. by apply app_inv_tail in Hw.
Qed.
End traces.

(** ** Synchronized lists *)

(** The items put into the list [sl], and those taken out of it, in order. *)
Definition puts (sl : positive) (tr : list label) : list Z :=
  omap (fun l => match l with Did _ (Put_ sl' item) => if decide (sl' = sl) then Some item else None | _ => None end) tr.
Definition gots (sl : positive) (tr : list label) : list Z :=
  omap (fun l => match l with Did _ (Got_ sl' item) => if decide (sl' = sl) then Some item else None | _ => None end) tr.

Lemma puts_app sl tr tr' : puts sl (tr ++ tr') = puts sl tr ++ puts sl tr'.
Proof. apply omap_app. Qed.
Lemma gots_app sl tr tr' : gots sl (tr ++ tr') = gots sl tr ++ gots sl tr'.
Proof. apply omap_app. Qed.

Lemma tstep_items garbage k ev k' sl x :
  tstep garbage k ev k' -> synchLists k !! sl = Some x ->
  exists x', synchLists k' !! sl = Some x' /\ items x ++ puts sl ev = gots sl ev ++ items x'.
Proof.
  intros Hs Hx. destruct Hs as [k k' Hex|k k' _ Hp|k k' n _ HV|k k' d y _ Hy _ HI|k m _ _].
  - apply exec_inv in Hex as (th & a & rest & Hc & Hms & Hp). destruct (exec_head garbage k th a rest Hc Hms) as [_ Hn].
    apply perform_effect in Hp as [_ _ Hl _ _ _]. specialize (Hl sl). unfold emits. rewrite Hn, Hl. unfold lists_after, events_of. ksimpl. rewrite Hx.
    assert (forall es, (forall sl' i, Put_ sl' i ∉ es) -> (forall sl' i, Got_ sl' i ∉ es) ->
      puts sl (Did (currentThread k) <$> es) = [] /\ gots sl (Did (currentThread k) <$> es) = []) as Hnone.
    { intros es. induction es as [|e es IH]; intros H1 H2; [done|]. destruct IH as [IH1 IH2]; [set_solver..|]. rewrite fmap_cons.
      unfold puts, gots in *. cbn [omap list_omap]. rewrite IH1, IH2. destruct e; [done|done|by destruct (H1 sl0 item); left|by destruct (H2 sl0 item); left]. }
    destruct a; try (exists x; split; [done|]; match goal with |- context [Did _ <$> ?es] => destruct (Hnone es) as [-> ->] end;
      [repeat case_match; set_solver..|]; by rewrite app_nil_r).
    + unfold puts, gots. cbn. case_decide; eexists; (split; [reflexivity|]); by rewrite ?app_nil_r.
    + unfold puts, gots. destruct (decide (sl0 = sl)) as [->|Hne].
      * rewrite Hx. eexists. split; [done|]. destruct (items x) as [|i xs]; cbn; [done|]. rewrite decide_True by done. by rewrite app_nil_r.
      * exists x. split; [done|]. destruct (synchLists k !! sl0) as [y|]; [|by rewrite app_nil_r].
        destruct (items y); cbn; [by rewrite app_nil_r|]. rewrite decide_False by done. by rewrite app_nil_r.
  - apply push_touched in Hp as (_ & (E & _) & _). exists x. rewrite E. split; [done|by rewrite app_nil_r].
  - apply V_effect in HV as ([_ _ E _ _ _] & _). exists x. rewrite E. split; [done|by rewrite app_nil_r].
  - unfold dev_interrupt, deref in HI. rewrite Hy in HI. apply V_effect in HI as ([_ _ E _ _ _] & _). exists x. rewrite E.
    split; [done|by rewrite app_nil_r].
  - exists x. split; [done|by rewrite app_nil_r].
Qed.

Lemma traced_items garbage k0 tr k sl x0 :
  traced garbage k0 tr k -> synchLists k0 !! sl = Some x0 ->
  exists x, synchLists k !! sl = Some x /\ items x0 ++ puts sl tr = gots sl tr ++ items x.
Proof.
  intros Ht Hx0. induction Ht as [|tr k ev k' _ (x & Hx & E) Hs]; [exists x0; split; [done|by rewrite app_nil_r]|].
  destruct (tstep_items _ _ _ _ _ _ Hs Hx) as (x' & Hx' & E'). exists x'. split; [done|].
  by rewrite puts_app, gots_app, app_assoc, E, <- !app_assoc, E'.
Qed.

Section lists.
Context (E : env) (garbage : list Z) (k0 : Kernel) (sl l c : positive) (x0 : SynchList).
Context (Hwf : env_wf E) (Hg : length garbage = Z.to_nat NumTotalRegs) (Hi : initial E k0).
Context (Hsl : e_lists E !! sl = Some (l, c)) (Hx0 : synchLists k0 !! sl = Some x0).

(** Whoever is about to touch the list holds its lock. *)
Lemma list_under_lock k a :
  reachable garbage k0 k -> next_action k = Some a -> a = RemoveLoop sl \/ (exists item, a = PutItem sl item) ->
  lockHolder k !! l = Some (Some (currentThread k)).
Proof.
  intros Hr Hn Ha. destruct (reach_inv E garbage k0 k Hwf Hg Hi Hr) as [own [_ Ho]].
  unfold next_action in Hn. destruct (threads k !! currentThread k) as [th|] eqn:Hc; [|done]. cbn in Hn.
  destruct (machineState th) as [|b rest] eqn:Hms; [done|]. cbn in Hn. injection Hn as ->.
  assert (conts k !! currentThread k = Some (a :: rest)) as Hct
    by (unfold conts; rewrite lookup_fmap, Hc; cbn; rewrite Hms; by destruct Ha as [->|[i ->]]).
  destruct (own_next _ _ _ _ _ _ _ _ _ Ho _ _ Hct) as (Γ & Γ' & Hag & Hact & _); [by destruct Ha as [->|[i ->]]..|].
  assert (needs_lock E c l Γ = Some Γ') as Hn by (destruct Ha as [->|[i ->]]; cbn [act] in Hact; by rewrite Hsl in Hact).
  unfold needs_lock in Hn. case_decide as Hd; [|done]. destruct Hd as (_ & Hl & Hh%Hag & _).
  destruct (oi_locks _ _ _ _ _ _ _ _ Ho l Hl) as [-> _]. by rewrite Hh.
Qed.

(** On an empty list the caller goes to wait for the condition. *)
Lemma empty_list_waits k x :
  reachable garbage k0 k -> next_action k = Some (RemoveLoop sl) -> synchLists k !! sl = Some x -> items x = [] ->
  exists k', exec garbage k = Ok k' /\ next_action k' = Some (Wait_ c l) /\ synchLists k' = synchLists k.
Proof.
  intros Hr Hn Hx He. destruct (reach_inv E garbage k0 k Hwf Hg Hi Hr) as [own [_ Ho]].
  destruct (oi_lists _ _ _ _ _ _ _ _ Ho sl l c Hsl) as (x' & Hx' & El & Ec). assert (x' = x) as -> by congruence.
  unfold next_action in Hn. destruct (threads k !! currentThread k) as [th|] eqn:Hc; [|done]. cbn in Hn.
  destruct (machineState th) as [|b rest] eqn:Hms; [done|]. cbn in Hn. injection Hn as ->.
  destruct (exec_head garbage k th _ rest Hc Hms) as [-> _]. cbn [perform]. unfold remove_front_loop, deref. ksimpl. rewrite Hx.
  cbn [mbind outcome_bind]. rewrite He, push_set, El, Ec. eexists. split; [reflexivity|]. split; [|done].
  unfold next_action. ksimpl. by rewrite lookup_insert_eq.
Qed.

(** C27: a synchronized list is a queue for any number of threads.  In every run,
    whatever the interleaving: what was in the list at the start followed by all
    that was put into it is all that was taken out followed by what is in it
    now, so items come out once each and in the order in which they went in; a
    thread about to touch the list holds its lock; a thread that finds the list
    empty goes to wait on the condition of the list; and while a call of
    [Append] or [RemoveFront] is under way, up to its return, its thread puts
    exactly the given item into the list, or takes exactly one item out of it,
    and does nothing else to lists and devices. *)
Theorem synchlist_queue tr k :
  traced garbage k0 tr k ->
  (exists x, synchLists k !! sl = Some x /\ items x0 ++ puts sl tr = gots sl tr ++ items x /\
    (next_action k = Some (RemoveLoop sl) -> items x = [] ->
       exists k', exec garbage k = Ok k' /\ next_action k' = Some (Wait_ c l) /\ synchLists k' = synchLists k)) /\
  (forall a, next_action k = Some a -> a = RemoveLoop sl \/ (exists item, a = PutItem sl item) ->
     lockHolder k !! l = Some (Some (currentThread k))) /\
  (forall t tr' k' th th' rest, stays garbage t k tr' k' -> threads k !! t = Some th -> threads k' !! t = Some th' -> machineState th' = rest ->
     (forall item, machineState th = Append_ sl item :: rest -> by_thread t tr' = [Put_ sl item]) /\
     (machineState th = RemoveFront_ sl :: rest -> exists item, by_thread t tr' = [Got_ sl item])).
Proof.
  intros Ht. pose proof (traced_reachable _ _ _ _ Ht) as Hr. split_and!.
  - destruct (traced_items _ _ _ _ _ _ Ht Hx0) as (x & Hx & Eq). exists x. split_and!; [done..|]. intros. by eapply empty_list_waits.
  - intros a Ha. by apply list_under_lock.
  - intros t tr' k' th th' rest Hs Hth Hth' Hms'. split.
    + intros item Hms. apply (call_work _ t k tr' k' th th' [Append_ sl item] rest Hs Hth Hth') in Hms; [|done].
      destruct (by_thread t tr') as [|e [|]]; try done. destruct e; try done. cbn in Hms. by simplify_eq.
    + intros Hms. apply (call_work _ t k tr' k' th th' [RemoveFront_ sl] rest Hs Hth Hth') in Hms; [|done].
      destruct (by_thread t tr') as [|e [|]]; try done. destruct e; try done. cbn in Hms. simplify_eq. eauto.
Qed.
End lists.

(** ** Runs without interrupts, with their traces *)
Fixpoint trun (garbage : list Z) (n : nat) (k : Kernel) : list label * Kernel :=
  match n with
  | O => ([], k)
  | S n => match exec garbage k with Ok k' => let '(tr, k2) := trun garbage n k' in (emits k ++ tr, k2) | Err _ => ([], k) end
  end.

Lemma traced_trans garbage k0 tr1 k1 tr2 k2 : traced garbage k0 tr1 k1 -> traced garbage k1 tr2 k2 -> traced garbage k0 (tr1 ++ tr2) k2.
Proof. intros H1. induction 1; [by rewrite app_nil_r|]. rewrite app_assoc. by econstructor. Qed.

Lemma traced_once garbage k ev k' : tstep garbage k ev k' -> traced garbage k ev k'.
Proof. intros Hs. apply (traced_snoc _ _ [] k ev k'); [constructor|done]. Qed.

Lemma trun_traced garbage n k : traced garbage k (trun garbage n k).1 (trun garbage n k).2.
Proof.
  revert k. induction n as [|n IH]; intros k; cbn [trun]; [constructor|]. destruct (exec garbage k) as [k'|] eqn:Ex; [|constructor].
  specialize (IH k'). destruct (trun garbage n k') as [tr k2]. cbn [fst snd] in *. eapply traced_trans; [by apply traced_once, t_exec|done].
Qed.

(** The program of KernelSim: one item goes through the list. *)
Lemma synchlist_queue_witness :
  let tr := (trun KernelSim.regs 49 KernelSim.start).1 in
  traced KernelSim.regs KernelSim.start tr (trun KernelSim.regs 49 KernelSim.start).2 /\ puts 1 tr = [5] /\ gots 1 tr = [5] /\
  exists x, synchLists (trun KernelSim.regs 49 KernelSim.start).2 !! 1%positive = Some x /\ items x = [].
Proof.
  cbn zeta. split; [apply trun_traced|]. split; [vm_compute; reflexivity|]. split; [vm_compute; reflexivity|].
  destruct (synchlist_queue KernelSim.objects KernelSim.regs KernelSim.start 1 1 1 (mkSynchList [] 1 1) objects_wf regs_40 start_initial
    ltac:(reflexivity) ltac:(reflexivity) _ _ (trun_traced KernelSim.regs 49 KernelSim.start)) as [(x & Hx & Eq & _) _].
  exists x. split; [exact Hx|]. replace (puts 1 _) with [5] in Eq by (vm_compute; reflexivity).
  replace (gots 1 _) with [5] in Eq by (vm_compute; reflexivity). cbn in Eq. by injection Eq.
Defined.

(** In the self test of the kernel, the helper's ten items come back through
    both lists. *)
Lemma self_test_items :
  let tr := (trun (replicate 40 0) 5000 SelfTestRun.k0).1 in
  gots 1 tr = replicate 10 9 /\ gots 2 tr = replicate 10 9.
Proof. vm_compute. split; reflexivity. Qed.
