(* ===== verification/SynchDisk.v ===== *)
(** * Drivers of devices (src/code/filesys/synchdisk.cc, the display of
    userprog/synchconsole.cc, the sending side of network/post.cc)

    Each of these drivers turns a device that interrupts into a call that
    returns when the request is done: take the lock, give the device the
    request, wait for the interrupt on a semaphore, release the lock.  They run
    in the thread system, where every interleaving with other threads, the
    timer and the interrupts is possible.  [KernelProps.kernel_safe] covers
    them already: the device is never given a request while it works on one.
    Here: who waits for what, and that the disk of Disk.v, driven by the events
    of any run of threads that call [ReadSector] and [WriteSector], behaves like
    a store of sectors that does one call after the other. *)

From S2P Require Import Prelude Lists Interrupt Disk Machine AddrSpace Threads Synch SchedInv SynchInv KernelSafe Frame KernelProps Calls.
Open Scope Z_scope.

(** ** The drivers are checked code *)
Section drivers.
Context (E : env) (d : positive) (kd : devkind) (Hd : e_devs E !! d = Some kd).

(** The four calls of a driver, for a request that the device accepts. *)
Lemma acts_driver r Γ :
  request_ok kd r = true -> free_lock E d Γ = true ->
  acts E [Acquire_ d; Request_ d r; P_ (DSem d); Release_ d] Γ = Some Γ.
Proof.
  intros Hr Hf. cbn [acts act takeP]. rewrite Hf, Hd. apply bool_decide_eq_true in Hf as (Hl & Hh & Hp & Ha).
  rewrite decide_True by set_solver. rewrite decide_True by set_solver. rewrite decide_True by set_solver.
  f_equal. clear -Hh Ha. apply set_eq. intros x. destruct (decide (x = Held d)) as [->|]; [set_solver|].
  destruct (decide (x = Asked d)) as [->|]; set_solver.
Qed.
End drivers.

(** ** Waiting for the device *)
Section waiting.
Context (E : env) (garbage : list Z) (k0 k : Kernel).
Context (Hwf : env_wf E) (Hg : length garbage = Z.to_nat NumTotalRegs) (Hi : initial E k0) (Hr : reachable garbage k0 k).

(** A device that works does so for the thread that holds the driver's lock,
    and its semaphore is not posted yet. *)
Lemma busy_device d x :
  devices k !! d = Some x -> busy x = true ->
  value <$> sems k !! DSem d = Some 0 /\ exists t, lockHolder k !! d = Some (Some t).
Proof.
  intros Hx Hb. destruct (reach_inv E garbage k0 k Hwf Hg Hi Hr) as [own [_ Ho]]. pose proof (oi_devs _ _ _ _ _ _ _ _ Ho d) as Hd.
  rewrite Hx in Hd. destruct Hd as (He & v & Hv & Hst). rewrite Hb in Hst. inversion Hst as [|t Hh|]; subst. split; [exact Hv|]. exists t.
  destruct (oi_locks _ _ _ _ _ _ _ _ Ho d) as [-> _]; [by apply Hwf; eauto|]. by rewrite Hh.
Qed.

(** A driver's call returns only when the device is done.  In every
    reachable state, a thread about to wait for its device holds the driver's
    lock.  While the device works, waiting blocks the thread on the driver's
    semaphore; once the interrupt has come, the wait returns at once and the
    thread goes on to release the lock. *)
Theorem driver_waits_for_device d x th rest :
  devices k !! d = Some x -> threads k !! currentThread k = Some th -> machineState th = P_ (DSem d) :: rest ->
  lockHolder k !! d = Some (Some (currentThread k)) /\
  exists k' th' sem, exec garbage k = Ok k' /\ threads k' !! currentThread k = Some th' /\ sems k' !! DSem d = Some sem /\
    value sem = 0 /\
    if busy x then status th' = BLOCKED /\ currentThread k ∈ queue sem
    else currentThread k' = currentThread k /\ machineState th' = rest.
Proof.
  intros Hx Hc Hms. destruct (reach_inv E garbage k0 k Hwf Hg Hi Hr) as [own [Hk Ho]].
  pose proof (action_cont k th (P_ (DSem d)) rest Hc Hms) as Hcont.
  destruct (own_next _ _ _ _ _ _ _ _ _ Ho _ _ (Hcont eq_refl)) as (Γ & Γ' & Hag & Hact & Hch); [done..|].
  cbn [act takeP] in Hact. destruct (decide (Asked d ∈ Γ)) as [Ha%Hag|]; [|done].
  destruct (asked_at _ _ _ _ _ _ _ _ Ho d _ Ha) as (x' & v & Hx' & Hv & He & Hh & Hst). assert (x' = x) as -> by congruence.
  split. { destruct (oi_locks _ _ _ _ _ _ _ _ Ho d) as [-> _]; [by apply Hwf; eauto|]. by rewrite Hh. }
  unfold values in Hv. apply fmap_Some in Hv as (sem & Hsem & ->).
  destruct (exec_head garbage k th _ rest Hc Hms) as [-> _]. cbn [perform]. unfold P. set (kk := set_thread _ _ k).
  destruct (checked_plain _ _ _ Hch) as (_ & Hcc & Htg).
  assert (sched_inv (Some (DSem d)) running (with_intLevel IntOff kk)) as Hrun.
  { destruct (action_running k th (P_ (DSem d)) rest Hk Hc Hms eq_refl rest Htg). split; try done. by apply sems_ok_weaken. }
  assert (threads (with_intLevel IntOff kk) !! currentThread (with_intLevel IntOff kk) = Some (with_state rest th)) as Hc1
    by (unfold kk; ksimpl; by rewrite lookup_insert_eq).
  inversion Hst as [Hb E0 E1|u Hu Hb E0 E1|u Hu Hb E0 E1]; subst.
  - destruct (P_block_ok (DSem d) (intLevel kk) _ _ sem Hrun Hc1 eq_refl Hsem (eq_sym E0)) as (k' & -> & Hk' & Hss & _).
    pose proof (ss_sems _ _ Hss) as Hs'. unfold kk in Hs'. ksimpl.
    assert (sems k' !! DSem d = Some (mkSem 0 (queue sem ++ [currentThread k]))) as Hsem' by (by rewrite Hs', lookup_insert_eq).
    destruct (s_mem _ _ _ _ (si_sems _ _ _ Hk' _ _ Hsem') (currentThread k)) as (th' & Hth' & Hst' & _); [cbn; set_solver|].
    exists k', th', (mkSem 0 (queue sem ++ [currentThread k])). split_and!; [done..|]. cbn [queue]. apply elem_of_app. right. by left.
  - destruct (P_pass_ok (DSem d) (intLevel kk) _ sem Hrun Hsem) as (-> & _); [congruence|].
    eexists _, (with_state rest th), _. split; [reflexivity|]. unfold kk. ksimpl. rewrite !lookup_insert_eq.
    split_and!; try done. cbn [value]. lia.
Qed.
End waiting.

(** ** A disk that does one request after the other *)

(** The reference: a store of sectors, and what the reads return to whom. *)
Fixpoint sequential (rs : list (positive * request)) (store : Z -> list Z) : (Z -> list Z) * list (positive * list Z) :=
  match rs with
  | [] => (store, [])
  | (t, ReadReq s) :: rest => let '(store', out) := sequential rest store in (store', (t, store s) :: out)
  | (_, WriteReq s data) :: rest => sequential rest (fun s' => if decide (s' = s) then data else store s')
  | _ :: rest => sequential rest store
  end.

Lemma sequential_app rs rs' store :
  sequential (rs ++ rs') store =
    ((sequential rs' (sequential rs store).1).1, (sequential rs store).2 ++ (sequential rs' (sequential rs store).1).2).
Proof.
  revert store. induction rs as [|[t r] rs IH]; intros store; cbn [app sequential fst snd]; [by destruct (sequential rs' store)|].
  destruct r; try apply IH. rewrite IH. by destruct (sequential rs store).
Qed.

Lemma sequential_ext rs store store' :
  (forall s, in_disk s = true -> store s = store' s) -> Forall (fun r => request_ok DiskDev r.2 = true) rs ->
  (sequential rs store).2 = (sequential rs store').2 /\
  forall s, in_disk s = true -> (sequential rs store).1 s = (sequential rs store').1 s.
Proof.
  revert store store'. induction rs as [|[t r] rs IH]; intros store store' Hs Hok; [done|]. inversion_clear Hok as [|? ? Hr Hrs].
  destruct r as [s|s data|ch|to data]; cbn [sequential]; [|apply IH; [|done]; intros s' Hs'; case_decide; auto|by apply IH..].
  specialize (IH store store' Hs Hrs). destruct (sequential rs store), (sequential rs store'). cbn in *. destruct IH as [-> ?].
  split; [by rewrite (Hs s Hr)|done].
Qed.

(** ** One call after the other *)

(** The device [d] as its driver uses it: idle, at work for a thread, done for a
    thread that has still to notice. *)
Inductive phase := Idle | Working (t : positive) | Finished (t : positive).

Definition phase_step (d : positive) (p : phase) (l : label) : option phase :=
  match l with
  | Did t (Asked_ d' _) => if decide (d' = d) then match p with Idle => Some (Working t) | _ => None end else Some p
  | Completed d' => if decide (d' = d) then match p with Working t => Some (Finished t) | _ => None end else Some p
  | Did t (Waited_ d') =>
      if decide (d' = d) then match p with Finished u => if decide (u = t) then Some Idle else None | _ => None end else Some p
  | _ => Some p
  end.

(** The phase after a trace; [None] if two calls overlap, or a wait ends before
    the interrupt of its own request. *)
Fixpoint phases (d : positive) (p : phase) (tr : list label) : option phase :=
  match tr with
  | [] => Some p
  | l :: tr => match phase_step d p l with Some p' => phases d p' tr | None => None end
  end.

Lemma phases_app d p tr tr' :
  phases d p (tr ++ tr') = match phases d p tr with Some p' => phases d p' tr' | None => None end.
Proof. revert p. induction tr as [|l tr IH]; intros p; [done|]. cbn. destruct (phase_step d p l); auto. Qed.

(** The phase as the kernel's objects show it. *)
Definition phase_of (d : positive) (k : Kernel) : phase :=
  match devices k !! d, value <$> sems k !! DSem d, lockHolder k !! d with
  | Some x, Some v, Some (Some t) => if busy x then Working t else if v =? 0 then Idle else Finished t
  | _, _, _ => Idle
  end.

Section serial.
Context (E : env) (Hwf : env_wf E) (garbage : list Z) (d : positive) (Hd : is_Some (e_devs E !! d)).

(** The objects behind a driver, in a state of the invariant. *)
Lemma driver_state own k :
  kernel_inv E own k -> exists x v, devices k !! d = Some x /\ e_devs E !! d = Some (dkind x) /\ value <$> sems k !! DSem d = Some v /\
    lockHolder k !! d = Some (own !! Held d) /\ dev_state (own !! Held d) (busy x) v (own !! Asked d).
Proof.
  intros [_ Ho]. pose proof (oi_devs _ _ _ _ _ _ _ _ Ho d) as Hv. unfold dev_ok in Hv. destruct (devices k !! d) as [x|].
  - destruct Hv as (He & v & Hv & Hst). exists x, v. split_and!; try done. destruct (oi_locks _ _ _ _ _ _ _ _ Ho d) as [? _]; [|done].
    by apply Hwf; eauto.
  - destruct Hv as [He _]. rewrite He in Hd. by destruct Hd.
Qed.

(** The rights that the next action of the current thread needs. *)
Lemma next_rights own k th a rest b :
  kernel_inv E own k -> threads k !! currentThread k = Some th -> machineState th = a :: rest ->
  cont (a :: rest) = b :: rest -> b <> Finish_ -> b <> Halt_ ->
  exists Γ Γ', agrees own (currentThread k) Γ /\ act E b Γ = Some Γ'.
Proof.
  intros [_ Ho] Hc Hms Hcont Hf Hh. assert (conts k !! currentThread k = Some (b :: rest)) as Hct
    by (unfold conts; rewrite lookup_fmap, Hc; cbn; by rewrite Hms, Hcont).
  destruct (own_next _ _ _ _ _ _ _ _ _ Ho _ _ Hct Hf Hh) as (Γ & Γ' & ? & ? & _). eauto.
Qed.

Lemma phase_keep k k' :
  devices k' !! d = devices k !! d -> value <$> sems k' !! DSem d = value <$> sems k !! DSem d -> lockHolder k' !! d = lockHolder k !! d ->
  phase_of d k' = phase_of d k.
Proof. unfold phase_of. by intros -> -> ->. Qed.

(** Passing the semaphore of the driver, or going to sleep on it. *)
Lemma phase_wait own k k' th a rest s :
  kernel_inv E own k -> threads k !! currentThread k = Some th -> machineState th = a :: rest -> a = P_ s \/ (exists ol, a = PLoop s ol) ->
  effect a (set_thread (currentThread k) (with_state rest th) k) k' ->
  phases d (phase_of d k) (emits k) = Some (phase_of d k').
Proof.
  intros Hk Hc Hms Ha [_ _ _ Hdev Htok Hhold].
  destruct (exec_head garbage k th a rest Hc Hms) as [_ Hn]. unfold emits. rewrite Hn. specialize (Hdev d). specialize (Htok d). specialize (Hhold d).
  assert (devices k' !! d = devices k !! d /\ lockHolder k' !! d = lockHolder k !! d) as [E1 E2]
    by (rewrite Hdev, Hhold; by destruct Ha as [->|[ol ->]]).
  assert (value <$> sems k' !! DSem d = match value <$> sems k !! DSem d with
    | Some v => if decide (s = DSem d) then Some (if v =? 0 then 0 else v - 1) else Some v | None => None end) as E3.
  { rewrite Htok. destruct (sems k !! DSem d) as [sd|] eqn:Es; [|destruct Ha as [->|[ol ->]], s; cbn; by rewrite Es].
    destruct Ha as [->|[ol ->]], s; cbn; rewrite Es; cbn; repeat case_decide; congruence || done. }
  assert (events_of a k = match s with
    | DSem d0 => match sems k !! DSem d0 with Some sem => if value sem =? 0 then [] else [Waited_ d0] | None => [] end | _ => [] end)
    as -> by (by destruct Ha as [->|[ol ->]]).
  destruct (decide (s = DSem d)) as [->|Hne].
  - destruct (next_rights own k th a rest (P_ (DSem d)) Hk Hc Hms) as (Γ & Γ' & Hag & Hact); [by destruct Ha as [->|[ol ->]]|done|done|].
    cbn [act takeP] in Hact. case_decide as Hask; [|done]. apply Hag in Hask.
    destruct (driver_state own k Hk) as (x & v & Hx & _ & Hv & Hh & Hst). rewrite Hask in Hst. rewrite Hv in E3.
    unfold phase_of. rewrite E1, E2, E3, Hx, Hv, Hh. apply fmap_Some in Hv as (sem & -> & ->).
    inversion Hst as [|u Hu E4 E5 E6|u Hu E4 E5 E6]; subst; rewrite Hu; cbn.
    + done.
    + rewrite !decide_True by done. done.
  - assert (phase_of d k' = phase_of d k) as -> by (apply phase_keep; [done| |done]; rewrite E3; by destruct (value <$> sems k !! DSem d)).
    destruct s as [| | |d0]; try done. destruct (sems k !! DSem d0) as [sem|]; [|done]. destruct (value sem =? 0); [done|]. cbn.
    rewrite decide_False by congruence. done.
Qed.

(** Any action of the current thread. *)
Lemma phase_exec own k k' :
  kernel_inv E own k -> exec garbage k = Ok k' -> phases d (phase_of d k) (emits k) = Some (phase_of d k').
Proof.
  intros Hk Hex. apply exec_inv in Hex as (th & a & rest & Hc & Hms & Hp). destruct (exec_head garbage k th a rest Hc Hms) as [_ Hn].
  apply perform_effect in Hp as Heff. destruct (driver_state own k Hk) as (x & v & Hx & _ & Hv & Hh & Hst).
  pose proof Heff as [_ _ _ Hdev Htok Hhold]. specialize (Hdev d). specialize (Htok d). specialize (Hhold d).
  assert (lock_state_of : exists lv, lock_state lv (own !! Held d) (own !! Pend d)).
  { destruct Hk as [_ Ho]. destruct (oi_locks _ _ _ _ _ _ _ _ Ho d) as (_ & lv & _ & ?); [by apply Hwf|eauto]. }
  assert (forall b, cont (a :: rest) = b :: rest -> b <> Finish_ -> b <> Halt_ ->
    exists Γ Γ', agrees own (currentThread k) Γ /\ act E b Γ = Some Γ') as Hrights by (intros b; by eapply next_rights).
  destruct a; try done; try (by eapply (phase_wait _ _ _ _ _ _ s); eauto);
    try (unfold emits; rewrite Hn; cbn [events_of]; assert (phase_of d k' = phase_of d k) as -> by (by apply phase_keep); done).
  - (* V *) unfold emits; rewrite Hn; cbn. destruct (Hrights (V_ s)) as (Γ & Γ' & _ & Hact); [done..|]. destruct s; try done;
      (assert (phase_of d k' = phase_of d k) as -> by (by apply phase_keep)); done.
  - (* Release *) unfold emits; rewrite Hn; cbn. destruct (decide (l = d)) as [->|Hne].
    + destruct (Hrights (Release_ d)) as (Γ & Γ' & Hag & Hact); [done..|]. cbn [act] in Hact. case_decide as Hd'; [|done].
      destruct Hd' as (_ & Hheld%Hag & Hnask). assert (own !! Asked d <> Some (currentThread k)) as Hna by (intros E1; by apply Hnask, Hag).
      rewrite Hheld in Hst, Hh. unfold phase_of. cbn in Hdev, Htok, Hhold. rewrite Hdev, Htok, Hhold, Hx, Hv, Hh. cbn. rewrite decide_True by done.
      inversion Hst; subst; congruence || done.
    + assert (phase_of d k' = phase_of d k) as ->; [|done]. apply phase_keep; [done|done|]. rewrite Hhold. cbn. rewrite Hh.
      by rewrite decide_False.
  - (* SetHolder *) unfold emits; rewrite Hn; cbn. destruct (decide (l = d)) as [->|Hne].
    + destruct (Hrights (SetHolder d)) as (Γ & Γ' & Hag & Hact); [done..|]. cbn [act] in Hact. case_decide as Hd'; [|done].
      destruct Hd' as (_ & Hpend%Hag). destruct lock_state_of as [lv Hls]. rewrite Hpend in Hls.
      assert (own !! Held d = None) as Hnone by (by inversion Hls). rewrite Hnone in Hst, Hh.
      unfold phase_of. cbn in Hdev, Htok, Hhold. rewrite Hdev, Htok, Hhold, Hx, Hv, Hh. cbn. rewrite decide_True by done. by inversion Hst.
    + assert (phase_of d k' = phase_of d k) as ->; [|done]. apply phase_keep; [done|done|]. rewrite Hhold. cbn. rewrite Hh.
      by rewrite decide_False.
  - (* delete *) unfold emits; rewrite Hn; cbn. destruct (Hrights (DeleteSem s)) as (Γ & Γ' & _ & Hact); [done..|]. destruct s; try done;
      (assert (phase_of d k' = phase_of d k) as -> by (by apply phase_keep)); done.
  - (* RemoveLoop *) unfold emits; rewrite Hn; cbn. assert (phase_of d k' = phase_of d k) as -> by (by apply phase_keep).
    destruct (synchLists k !! sl) as [y|]; [|done]. by destruct (items y).
  - (* Request *) unfold emits; rewrite Hn; cbn. destruct (decide (d0 = d)) as [->|Hne].
    + destruct (Hrights (Request_ d r)) as (Γ & Γ' & Hag & Hact); [done..|]. cbn [act] in Hact. destruct (e_devs E !! d); [|done].
      case_decide as Hd'; [|done]. destruct Hd' as (_ & Hheld%Hag & Hnask).
      assert (own !! Asked d <> Some (currentThread k)) as Hna by (intros E1; by apply Hnask, Hag).
      rewrite Hheld in Hst, Hh. unfold phase_of. cbn in Hdev, Htok, Hhold. rewrite Hdev, Htok, Hhold, Hx, Hv, Hh. cbn. rewrite decide_True by done.
      inversion Hst; subst; congruence || done.
    + assert (phase_of d k' = phase_of d k) as ->; [|done]. apply phase_keep; [|done|done]. rewrite Hdev. cbn. rewrite Hx.
      by rewrite decide_False.
Qed.
(** Any step of the system. *)
Lemma phase_tstep own k ev k' :
  kernel_inv E own k -> tstep garbage k ev k' -> phases d (phase_of d k) ev = Some (phase_of d k').
Proof.
  intros Hk Hs. destruct Hs as [k k' Hex|k k' _ Hp|k k' n _ HV|k k' d0 x0 _ Hx0 Hb HI|k m _ _].
  - by eapply phase_exec.
  - apply push_touched in Hp as (_ & (_ & _ & E1 & E2 & E3 & _) & _). cbn. f_equal. symmetry. apply phase_keep; by rewrite ?E1, ?E2, ?E3.
  - apply V_effect in HV as ([_ _ _ Hdev Htok Hhold] & _). cbn. f_equal. symmetry. by apply phase_keep.
  - unfold dev_interrupt, deref in HI. rewrite Hx0 in HI. cbn [mbind outcome_bind] in HI.
    apply V_effect in HI as ([_ _ _ Hdev Htok Hhold] & _). specialize (Hdev d). specialize (Htok d). specialize (Hhold d).
    cbn in Hdev, Htok, Hhold. cbn [phases phase_step]. destruct (driver_state own k Hk) as (x & v & Hx & _ & Hv & Hh & Hst).
    destruct (decide (d0 = d)) as [->|Hne].
    + assert (x0 = x) as -> by congruence. rewrite lookup_insert_eq in Hdev. unfold phase_of. rewrite Hdev, Htok, Hhold, Hx, Hv, Hh, Hb.
      rewrite Hb in Hst. inversion Hst as [|u Hu E1 E2 E3|]; subst. rewrite Hu. cbn. rewrite ?decide_True by done. done.
    + rewrite lookup_insert_ne in Hdev by done. f_equal. symmetry. apply phase_keep; [done| |done]. rewrite Htok, Hv. cbn. rewrite ?decide_False by done. done.
  - done.
Qed.

(** The calls at a device never overlap: the events of every run take the
    device from one phase to the next. *)
Lemma traced_phase k0 tr k :
  length garbage = Z.to_nat NumTotalRegs -> initial E k0 -> traced garbage k0 tr k -> phases d Idle tr = Some (phase_of d k).
Proof.
  intros Hg Hi. induction 1 as [|tr k ev k' Ht IH Hs].
  - cbn. f_equal. unfold phase_of. pose proof (in_devs _ _ Hi d) as Hx. destruct (devices k0 !! d) as [x|]; [|done].
    destruct Hx as (_ & -> & ->). by destruct (lockHolder k0 !! d) as [[t|]|].
  - destruct (reach_inv E garbage k0 k Hwf Hg Hi (traced_reachable _ _ _ _ Ht)) as [own Hk]. rewrite phases_app, IH. by eapply phase_tstep.
Qed.
End serial.

(** ** The disk under its driver *)

(** The requests that reach the device [d], each with the thread that makes it. *)
Definition requests (d : positive) (tr : list label) : list (positive * request) :=
  omap (fun l => match l with Did t (Asked_ d' r) => if decide (d' = d) then Some (t, r) else None | _ => None end) tr.

Lemma requests_app d tr tr' : requests d (tr ++ tr') = requests d tr ++ requests d tr'.
Proof. apply omap_app. Qed.

Section disk.
Context {K : Type} `{InterruptState K} `{!InterruptStateLaws K}.

(** The disk of Disk.v at an event of the thread system: a request is handed to
    it, or its interrupt comes.  What a read transfers goes to the thread that
    asked for it. *)
Definition disk_event (d : positive) (k : K) (l : label) (dsk : Disk) : outcome (Disk * list (positive * list Z)) :=
  match l with
  | Did t (Asked_ d' r) =>
      if decide (d' = d) then
        match r with
        | ReadReq s => '(dsk, _, data) ← ReadRequest dsk k s; Ok (dsk, [(t, data)])
        | WriteReq s data => '(dsk, _) ← WriteRequest dsk k s data; Ok (dsk, [])
        | _ => Err Undefined
        end
      else Ok (dsk, [])
  | Completed d' => if decide (d' = d) then '(dsk, _) ← DiskCallBack (fun k => Ok k) dsk k; Ok (dsk, []) else Ok (dsk, [])
  | _ => Ok (dsk, [])
  end.

(** A whole trace; [clock] gives the machine at each event. *)
Fixpoint replay (d : positive) (clock : nat -> K) (tr : list label) (dsk : Disk) : outcome (Disk * list (positive * list Z)) :=
  match tr with
  | [] => Ok (dsk, [])
  | l :: tr =>
      '(dsk, now) ← disk_event d (clock (length tr)) l dsk;
      '(dsk, out) ← replay d clock tr dsk;
      Ok (dsk, now ++ out)
  end.

(** A time at which a request can be made: the tick counter has room. *)
Definition clock_ok (k : K) : Prop := 0 <= totalTicks (k_stats k) < 2 ^ 30 /\ pending_sorted (pending (k_int k)).

(** What a driver writes are bytes. *)
Definition buffer_ok (r : request) : Prop := match r with WriteReq _ data => Forall is_byte data | _ => True end.

Lemma idle_disk_ok dsk : disk_ok dsk -> disk_ok (mkDisk (image dsk) false (lastSector dsk) (bufferInit dsk)).
Proof. intros []. by split. Qed.

(** The disk works exactly while the driver thinks so. *)
Definition working (p : phase) : bool := match p with Working _ => true | _ => false end.

Lemma disk_event_ok d k p p' l dsk :
  disk_ok dsk -> Disk.active dsk = working p -> clock_ok k -> phase_step d p l = Some p' ->
  Forall (fun r => request_ok DiskDev r.2 = true /\ buffer_ok r.2) (requests d [l]) ->
  exists dsk' out, disk_event d k l dsk = Ok (dsk', out) /\ disk_ok dsk' /\ Disk.active dsk' = working p' /\
    out = (sequential (requests d [l]) (image_sector (image dsk))).2 /\
    forall s, in_disk s = true -> image_sector (image dsk') s = (sequential (requests d [l]) (image_sector (image dsk))).1 s.
Proof.
  intros Hd Ha [Ht Hp] Hph Hok. assert (p' = p -> disk_event d k l dsk = Ok (dsk, []) -> requests d [l] = [] -> exists dsk' out,
    disk_event d k l dsk = Ok (dsk', out) /\ disk_ok dsk' /\ Disk.active dsk' = working p' /\
    out = (sequential (requests d [l]) (image_sector (image dsk))).2 /\
    forall s, in_disk s = true -> image_sector (image dsk') s = (sequential (requests d [l]) (image_sector (image dsk))).1 s) as Hkeep
    by (intros -> -> ->; by exists dsk, []).
  destruct l as [t [d' r|d'|sl item|sl item]|d']; cbn [phase_step disk_event] in *; try (apply Hkeep; congruence || done).
  - destruct (decide (d' = d)) as [->|Hne]; [|apply Hkeep; [congruence|done|]; cbn; by rewrite decide_False].
    destruct p; try done. injection Hph as <-. cbn in Hok |- *. rewrite decide_True in Hok |- * by done. cbn in Ha.
    apply Forall_cons in Hok as [[Hr Hb] _]. destruct r as [s|s data|ch|to data]; try done; cbn in Hr, Hb |- *.
    + pose proof (disk_request_ok dsk k s (replicate (Z.to_nat SectorSize) 0) Hd Ha Ht Hp (length_replicate _ _)) as HR. rewrite Hr in HR.
      destruct HR as [(d1 & k1 & -> & Hi & Ha1 & Hd1 & _) _]; [apply Forall_replicate; unfold is_byte; lia|]. cbn.
      exists d1, [(t, image_sector (image dsk) s)]. rewrite Hi. by split_and!.
    + apply andb_true_iff in Hr as [Hs Hlen]. assert (length data = Z.to_nat SectorSize) as Hdl by lia.
      pose proof (disk_request_ok dsk k s data Hd Ha Ht Hp Hdl Hb) as HR. rewrite Hs in HR.
      destruct HR as [_ (d1 & k1 & -> & Hd1 & Ha1 & Hsec & Hoth & _)]. cbn. exists d1, []. split_and!; try done.
      intros s' Hs'. case_decide; [by subst|by apply Hoth].
  - destruct (decide (d' = d)) as [->|Hne]; [|apply Hkeep; [congruence|done|done]].
    destruct p as [| |u]; try done. destruct (decide (u = t)); [|done]. injection Hph as <-. by exists dsk, [].
  - destruct (decide (d' = d)) as [->|Hne]; [|apply Hkeep; [congruence|done|done]].
    destruct p as [|u|]; try done. injection Hph as <-. cbn. eexists _, []. split; [reflexivity|]. split; [by apply idle_disk_ok|done].
Qed.

(** A trace without overlapping calls: the disk does what a store would. *)
Lemma replay_ok d clock tr dsk p p' :
  disk_ok dsk -> Disk.active dsk = working p -> (forall n, clock_ok (clock n)) -> phases d p tr = Some p' ->
  Forall (fun r => request_ok DiskDev r.2 = true /\ buffer_ok r.2) (requests d tr) ->
  exists dsk' out, replay d clock tr dsk = Ok (dsk', out) /\ disk_ok dsk' /\
    out = (sequential (requests d tr) (image_sector (image dsk))).2 /\
    forall s, in_disk s = true -> image_sector (image dsk') s = (sequential (requests d tr) (image_sector (image dsk))).1 s.
Proof.
  intros Hd Ha Hck. revert p dsk Hd Ha. induction tr as [|l tr IH]; intros p dsk Hd Ha Hph Hok; [by exists dsk, []|].
  change (l :: tr) with ([l] ++ tr) in Hok |- *. rewrite requests_app in Hok |- *. apply Forall_app in Hok as [Hl Hok]. cbn [phases] in Hph.
  destruct (phase_step d p l) as [p1|] eqn:Hp1; [|done].
  destruct (disk_event_ok d (clock (length tr)) p p1 l dsk Hd Ha (Hck _) Hp1 Hl) as (d1 & o1 & He & Hd1 & Ha1 & Ho1 & Hs1).
  destruct (IH p1 d1 Hd1 Ha1 Hph Hok) as (d2 & o2 & He2 & Hd2 & Ho2 & Hs2). exists d2, (o1 ++ o2). cbn [app replay]. rewrite He. cbn [mbind outcome_bind].
  rewrite He2. split; [done|]. split; [done|]. rewrite sequential_app.
  destruct (sequential_ext (requests d tr) _ _ Hs1) as [E1 E2]; [eapply Forall_impl; [exact Hok|]; by intros ? []|].
  cbn [fst snd]. split; [by rewrite <- E1, <- Ho1, <- Ho2|]. intros s Hs. by rewrite Hs2, E2.
Qed.
End disk.

(** ** Requests and calls in a trace *)
Section valid.
Context (E : env) (Hwf : env_wf E) (garbage : list Z) (d : positive) (kd : devkind) (Hd : e_devs E !! d = Some kd).
Context (k0 : Kernel) (Hg : length garbage = Z.to_nat NumTotalRegs) (Hi : initial E k0).

(** The device accepts what reaches it. *)
Lemma requests_valid tr k : traced garbage k0 tr k -> Forall (fun r => request_ok kd r.2 = true) (requests d tr).
Proof.
  induction 1 as [|tr k ev k' Ht IH Hs]; [constructor|]. rewrite requests_app. apply Forall_app. split; [exact IH|].
  destruct Hs as [k k' Hex|k k' _ _|k k' n _ _|k k' d0 x0 _ _ _ _|k m _ _]; try constructor.
  destruct (reach_inv E garbage k0 k Hwf Hg Hi (traced_reachable _ _ _ _ Ht)) as [own Hk].
  destruct (driver_state E Hwf d ltac:(by eexists) own k Hk) as (x & v & Hx & He & _).
  apply exec_inv in Hex as (th & a & rest & Hc & Hms & Hp). destruct (exec_head garbage k th a rest Hc Hms) as [_ Hn].
  unfold emits. rewrite Hn. assert (forall es, (forall d' r, Asked_ d' r ∉ es) -> requests d (Did (currentThread k) <$> es) = []) as Hnone.
  { intros es. induction es as [|e es IHe]; intros Hno; [done|]. rewrite fmap_cons. unfold requests in *. cbn [omap list_omap].
    rewrite IHe by set_solver. destruct e; try done. by destruct (Hno d0 r); left. }
  destruct a; try (rewrite Hnone; [constructor|]; cbn [events_of]; repeat case_match; set_solver).
  cbn. case_decide as Hdd; [subst|constructor]. constructor; [|constructor]. cbn. cbn [perform] in Hp. unfold dev_request, deref in Hp. ksimpl.
  rewrite Hx in Hp. cbn [mbind outcome_bind] in Hp. assert (kd = dkind x) as -> by congruence.
  destruct (busy x); [done|]. cbn in Hp. by destruct (request_ok (dkind x) r).
Qed.
End valid.

Lemma by_thread_split t tr e es :
  by_thread t tr = e :: es -> exists tr1 tr2, tr = tr1 ++ Did t e :: tr2 /\ by_thread t tr1 = [] /\ by_thread t tr2 = es.
Proof.
  induction tr as [|l tr IH]; [done|]. destruct l as [u e'|d'].
  - unfold by_thread. cbn [omap list_omap]. case_decide as Hu.
    + subst. intros [= -> H]. by exists [], tr.
    + intros H. destruct (IH H) as (tr1 & tr2 & -> & E1 & E2). exists (Did u e' :: tr1), tr2. split; [done|]. split; [|done].
      unfold by_thread in *. cbn [omap list_omap]. by rewrite decide_False.
  - intros H. destruct (IH H) as (tr1 & tr2 & -> & E1 & E2). by exists (Completed d' :: tr1), tr2.
Qed.

(** While the device works for a thread that does nothing, nothing happens to
    the device but its interrupt. *)
Lemma finished_span d t mid p : phases d (Finished t) mid = Some p -> by_thread t mid = [] -> requests d mid = [] /\ p = Finished t.
Proof.
  induction mid as [|l mid IH]; [by intros [= <-]|]. cbn [phases]. intros Hp Hb. change (l :: mid) with ([l] ++ mid) in *.
  rewrite by_thread_app, requests_app in *. apply app_eq_nil in Hb as [Hb Hb']. cbn in Hb. destruct l as [u [d' r|d'|sl item|sl item]|d']; cbn in Hp |- *;
    repeat case_decide; simplify_eq; auto.
Qed.

Lemma working_span d t mid :
  phases d (Working t) mid = Some (Finished t) -> by_thread t mid = [] ->
  exists a b, mid = a ++ Completed d :: b /\ requests d (a ++ b) = [].
Proof.
  induction mid as [|l mid IH]; [done|]. cbn [phases]. intros Hp Hb. change (l :: mid) with ([l] ++ mid) in *.
  rewrite by_thread_app in Hb. apply app_eq_nil in Hb as [Hb Hb'].
  assert (l = Completed d \/ phase_step d (Working t) l = Some (Working t) /\ requests d [l] = []) as [->|[E1 E2]].
  { destruct l as [u [d' r|d'|sl item|sl item]|d']; cbn in Hp |- *; repeat case_decide; simplify_eq; eauto. }
  - cbn in Hp. rewrite decide_True in Hp by done. apply finished_span in Hp as [? _]; [|done]. by exists [], mid.
  - rewrite E1 in Hp. destruct (IH Hp Hb') as (a & b & -> & Hr). exists (l :: a), b. split; [done|].
    change (requests d ([l] ++ (a ++ b)) = []). by rewrite requests_app, E2, Hr.
Qed.

(** A call in a trace without overlapping calls: the request, the interrupt, the
    end of the wait, and no other request in between. *)
Lemma call_span d t r p p' tr :
  phases d p tr = Some p' -> by_thread t tr = [Asked_ d r; Waited_ d] ->
  exists tr1 tr2 tr3 tr4, tr = tr1 ++ Did t (Asked_ d r) :: tr2 ++ Completed d :: tr3 ++ Did t (Waited_ d) :: tr4 /\ requests d (tr2 ++ tr3) = [].
Proof.
  intros Hp Hb. apply by_thread_split in Hb as (tr1 & tr2 & -> & _ & Hb). apply by_thread_split in Hb as (mid & tr4 & -> & Hm & _).
  rewrite phases_app in Hp. destruct (phases d p tr1) as [p1|]; [|done]. cbn [phases phase_step] in Hp. rewrite decide_True in Hp by done.
  destruct p1; try done. rewrite phases_app in Hp. destruct (phases d (Working t) mid) as [p2|] eqn:Hmid; [|done].
  cbn [phases phase_step] in Hp. rewrite decide_True in Hp by done. destruct p2 as [| |u]; try done. destruct (decide (u = t)) as [->|]; [|done].
  destruct (working_span _ _ _ Hmid Hm) as (a & b & -> & Hr). exists tr1, a, b, tr4. by rewrite <- app_assoc.
Qed.

(** ** Threads that use the disk *)

(** What a client asks of a [SynchDisk]. *)
Inductive disk_call := ReadCall (sectorNumber : Z) | WriteCall (sectorNumber : Z) (data : list Z).

Definition call_code (d : positive) (c : disk_call) : list action :=
  match c with ReadCall s => ReadSector d s | WriteCall s data => WriteSector d s data end.
Definition call_request (c : disk_call) : request := match c with ReadCall s => ReadReq s | WriteCall s data => WriteReq s data end.

(** A sector of the disk, and a buffer of its size. *)
Definition call_ok (c : disk_call) : bool :=
  match c with ReadCall s => in_disk s | WriteCall s data => in_disk s && (Z.of_nat (length data) =? SectorSize) end.

Definition calls (d : positive) (cs : list disk_call) : list action := concat (call_code d <$> cs).

(** The main thread starts any number of threads that make calls, and makes
    calls itself. *)
Definition clients (d : positive) (bodies : list (option Z * list disk_call)) (main : list disk_call) : list action :=
  ((fun b => Fork_ b.1 (calls d b.2)) <$> bodies) ++ calls d main.
Definition disk_machine (garbage : list Z) (d : positive) (bodies : list (option Z * list disk_call)) (main : list disk_call) : Kernel :=
  newSynchDisk d (Initialize garbage (clients d bodies main)).
Definition disk_env (d : positive) : env := mkEnv ∅ {[ d ]} ∅ ∅ {[ d := DiskDev ]}.

Lemma disk_env_wf d : env_wf (disk_env d).
Proof. split; [by intros sl l c Hl|]. intros d' [kd Hd]. cbn in Hd. apply lookup_singleton_Some in Hd as [<- _]. cbn. set_solver. Qed.

Lemma acts_app E fs fs' Γ Γ1 Γ2 : acts E fs Γ = Some Γ1 -> acts E fs' Γ1 = Some Γ2 -> acts E (fs ++ fs') Γ = Some Γ2.
Proof.
  revert Γ. induction fs as [|a fs IH]; intros Γ; cbn [acts app]; [by intros [= ->]|]. destruct (act E a Γ); [|done]. apply IH.
Qed.

Section clients.
Context (d : positive).

(** The drivers are checked code for every call. *)
Lemma acts_calls cs : Forall (fun c => call_ok c = true) cs -> acts (disk_env d) (calls d cs) ∅ = Some ∅.
Proof.
  induction 1 as [|c cs Hc _ IH]; [done|]. unfold calls. rewrite fmap_cons, concat_cons. eapply acts_app; [|exact IH].
  replace (call_code d c) with [Acquire_ d; Request_ d (call_request c); P_ (DSem d); Release_ d] by (by destruct c).
  apply (acts_driver _ _ DiskDev); [cbn; by rewrite lookup_singleton_eq|by destruct c|]. unfold free_lock. apply bool_decide_eq_true. cbn. set_solver.
Qed.

Lemma clients_checked bodies main :
  Forall (fun b => Forall (fun c => call_ok c = true) b.2) bodies -> Forall (fun c => call_ok c = true) main ->
  checked (disk_env d) (clients d bodies main ++ [Halt_]) ∅ = true.
Proof.
  intros Hb Hm. rewrite (checked_acts _ _ _ ∅ ∅); [done|]. unfold clients. eapply (acts_app _ _ _ _ ∅); [|by apply acts_calls].
  induction Hb as [|[p cs] bodies Hcs _ IH]; [done|]. rewrite fmap_cons. cbn [acts fst snd]. rewrite act_fork.
  rewrite (checked_acts _ _ _ ∅ ∅) by (by apply acts_calls). cbn [checked]. rewrite bool_decide_eq_true_2 by done. exact IH.
Qed.

Lemma disk_machine_initial garbage bodies main :
  length garbage = Z.to_nat NumTotalRegs ->
  Forall (fun b => Forall (fun c => call_ok c = true) b.2) bodies -> Forall (fun c => call_ok c = true) main ->
  initial (disk_env d) (disk_machine garbage d bodies main).
Proof.
  intros Hg Hb Hm. split; try done.
  - eexists. split; [reflexivity|]. split; [done|]. cbn [machineState with_state with_tstatus newThread]. by apply clients_checked.
  - split; [|done|done]. intros t th Ht. cbn in Ht. apply lookup_singleton_Some in Ht as [<- <-]. split_and!; [by left|done|done].
  - intros s sem. cbn. destruct (decide (s = LSem d)) as [->|]; [rewrite lookup_insert_eq; intros [= <-]; done|]. rewrite lookup_insert_ne by done.
    destruct (decide (s = DSem d)) as [->|]; [rewrite lookup_insert_eq; intros [= <-]; done|]. rewrite lookup_insert_ne by done. done.
  - intros l Hl. cbn in Hl |- *. apply elem_of_singleton in Hl as ->. by rewrite !lookup_insert_eq.
  - intros d'. cbn. destruct (decide (d = d')) as [<-|]; [rewrite lookup_insert_eq, lookup_singleton_eq, lookup_insert_ne, lookup_insert_eq by done; done|].
    by rewrite lookup_insert_ne, lookup_singleton_ne.
Qed.
End clients.

Section sequential.
Context {K : Type} `{InterruptState K} `{!InterruptStateLaws K}.

(** C5: the synchronous disk is a sequential store of sectors.  Any number of
    threads call [ReadSector] and [WriteSector] on valid sectors, any number of
    times each, in whatever interleaving with each other, the timer and the
    disk's interrupts.  Then the system runs on until it halts or the thread
    limit is met; the calls do not overlap at the disk (a request is
    made only when the previous one has completed and its thread has noticed);
    the disk of disk.cc, given those requests and interrupts at any times, fails
    no assertion, every read transfers to its thread what the last write to its
    sector stored, and no write touches another sector; and a call that returns
    has made its one request, seen that request complete, and no other request
    was made in between. *)
Theorem synchdisk_sequential garbage d bodies main dsk (clock : nat -> K) tr k :
  length garbage = Z.to_nat NumTotalRegs ->
  Forall (fun b => Forall (fun c => call_ok c = true) b.2) bodies -> Forall (fun c => call_ok c = true) main ->
  traced garbage (disk_machine garbage d bodies main) tr k -> Forall (fun r => buffer_ok r.2) (requests d tr) ->
  disk_ok dsk -> Disk.active dsk = false -> (forall n, clock_ok (clock n)) ->
  ((exists k', exec garbage k = Ok k') \/ exists e, exec garbage k = Err e /\ may_stop k e) /\
  phases d Idle tr = Some (phase_of d k) /\
  (exists dsk' out, replay d clock tr dsk = Ok (dsk', out) /\
     out = (sequential (requests d tr) (image_sector (image dsk))).2 /\
     forall s, in_disk s = true -> image_sector (image dsk') s = (sequential (requests d tr) (image_sector (image dsk))).1 s) /\
  (forall t tr' k' th th' c rest, stays garbage t k tr' k' -> threads k !! t = Some th -> threads k' !! t = Some th' ->
     machineState th = call_code d c ++ rest -> machineState th' = rest ->
     exists tr1 tr2 tr3 tr4,
       tr' = tr1 ++ Did t (Asked_ d (call_request c)) :: tr2 ++ Completed d :: tr3 ++ Did t (Waited_ d) :: tr4 /\
       requests d (tr2 ++ tr3) = []).
Proof.
  intros Hg Hb Hm Ht Hby Hd Ha Hck. pose proof (disk_env_wf d) as Hwf. pose proof (disk_machine_initial d garbage bodies main Hg Hb Hm) as Hi.
  assert (e_devs (disk_env d) !! d = Some DiskDev) as He by (cbn; by rewrite lookup_singleton_eq).
  assert (forall tr k, traced garbage (disk_machine garbage d bodies main) tr k -> phases d Idle tr = Some (phase_of d k)) as Hph
    by (intros tr' k'; by apply (traced_phase (disk_env d) Hwf garbage d)).
  split_and!.
  - destruct (reach_inv _ garbage _ k Hwf Hg Hi (traced_reachable _ _ _ _ Ht)) as [own Hk].
    destruct (exec_safe _ Hwf garbage Hg own k Hk) as [(k' & _ & ? & _)|?]; eauto.
  - by apply Hph.
  - pose proof (requests_valid _ Hwf garbage d DiskDev He _ Hg Hi tr k Ht) as Hv.
    destruct (replay_ok d clock tr dsk Idle (phase_of d k) Hd Ha Hck (Hph _ _ Ht)) as (d' & out & ? & _ & ? & ?); [|by exists d', out].
    by apply Forall_and.
  - intros t tr' k' th th' c rest Hs Hth Hth' Hms Hms'. eapply (call_span d t _ (phase_of d k) (phase_of d k')).
    + pose proof (Hph _ _ (stays_traced _ _ _ _ _ _ _ Ht Hs)) as Hp. by rewrite phases_app, (Hph _ _ Ht) in Hp.
    + pose proof (call_work _ t k tr' k' th th' _ rest Hs Hth Hth' Hms Hms') as Hw.
      destruct c; cbn in Hw; destruct (by_thread t tr') as [|e1 [|e2 [|]]]; try done; destruct e1, e2; cbn in Hw; try done; by simplify_eq.
Qed.
End sequential.

(** ** Two threads at one disk

    The main thread reads a sector that another thread writes; the timer
    preempts where the schedule says so, and the disk interrupts when the CPU
    idles. *)
Module DiskSim.

Definition tick (timer : bool) (k : Kernel) : outcome (list label * Kernel) :=
  let act := k' ← exec KernelSim.regs k; Ok (emits k, k') in
  match next_action k, readyList k, devices k !! 1%positive with
  | Some (SleepLoop _), [], Some x => if busy x then k' ← dev_interrupt 1 k; Ok ([Completed 1], k') else act
  | _, _, _ => if timer && bool_decide (intLevel k = IntOn) then k' ← push [Yield_] k; Ok ([], k') else act
  end.
Fixpoint simulate (ts : list bool) (k : Kernel) : list label * Kernel :=
  match ts with
  | [] => ([], k)
  | timer :: ts => match tick timer k with Ok (ev, k') => let '(tr, k2) := simulate ts k' in (ev ++ tr, k2) | Err _ => ([], k) end
  end.

Definition sector : list Z := replicate 128 7.
Definition bodies : list (option Z * list disk_call) := [(Some 7, [WriteCall 5 sector])].
Definition main : list disk_call := [ReadCall 5; ReadCall 5].
Definition start : Kernel := disk_machine KernelSim.regs 1 bodies main.

(** Fifteen steps of the main thread and the disk, then a preemption. *)
Definition schedule : list bool := replicate 15 false ++ true :: replicate 60 false.

Lemma simulate_traced ts k : traced KernelSim.regs k (simulate ts k).1 (simulate ts k).2.
Proof.
  revert k. induction ts as [|timer ts IH]; intros k; cbn [simulate]; [constructor|].
  destruct (tick timer k) as [[ev k']|] eqn:Ht; [|constructor]. specialize (IH k'). destruct (DiskSim.simulate ts k') as [tr k2]. cbn [fst snd] in *.
  eapply traced_trans; [|exact IH]. apply traced_once. unfold tick in Ht.
  assert (forall o, (k' ← exec KernelSim.regs k; Ok (emits k, k')) = o -> o = Ok (ev, k') -> tstep KernelSim.regs k ev k') as Hact.
  { intros o <- Ho. destruct (exec _ k) as [k1|] eqn:Ex; [|done]. cbn in Ho. simplify_eq. by apply t_exec. }
  destruct (timer && bool_decide (intLevel k = IntOn)) eqn:Et.
  - apply andb_true_iff in Et as [_ Et%bool_decide_eq_true].
    assert (forall o, (k' ← push [Yield_] k; Ok ([] : list label, k')) = o -> o = Ok (ev, k') -> tstep KernelSim.regs k ev k') as Htm.
    { intros o <- Ho. destruct (push _ k) as [k1|] eqn:Ep; [|done]. cbn in Ho. simplify_eq. by apply t_timer. }
    destruct (next_action k) as [[]|] eqn:Ea, (readyList k), (devices k !! 1%positive) as [x|] eqn:Ex; try (by eapply Htm).
    destruct (busy x) eqn:Eb; [|by eapply Hact]. destruct (dev_interrupt 1 k) as [k1|] eqn:Ei; [|done]. cbn in Ht. simplify_eq.
    eapply t_complete; [right; eauto|done..].
  - destruct (next_action k) as [[]|] eqn:Ea, (readyList k), (devices k !! 1%positive) as [x|] eqn:Ex; try (by eapply Hact).
    destruct (busy x) eqn:Eb; [|by eapply Hact]. destruct (dev_interrupt 1 k) as [k1|] eqn:Ei; [|done]. cbn in Ht. simplify_eq.
    eapply t_complete; [right; eauto|done..].
Qed.
End DiskSim.

(** The main thread waits while the disk works for it, and passes when it is
    done. *)
Lemma driver_waits_for_device_witness :
  (exists k' th' sem, exec KernelSim.regs (DiskSim.simulate (replicate 5 false) DiskSim.start).2 = Ok k' /\
     threads k' !! 1%positive = Some th' /\ sems k' !! DSem 1 = Some sem /\ value sem = 0 /\
     status th' = BLOCKED /\ 1%positive ∈ queue sem).
Proof.
  set (k := (DiskSim.simulate (replicate 5 false) DiskSim.start).2).
  destruct (driver_waits_for_device (disk_env 1) KernelSim.regs DiskSim.start k (disk_env_wf 1) regs_40
    (disk_machine_initial 1 KernelSim.regs DiskSim.bodies DiskSim.main regs_40 ltac:(repeat constructor) ltac:(repeat constructor))
    (traced_reachable _ _ _ _ (DiskSim.simulate_traced (replicate 5 false) DiskSim.start)) 1 (mkDevice DiskDev true)
    (mkThread 1 RUNNING None KernelSim.regs None ([P_ (DSem 1); Release_ 1] ++ ReadSector 1 5 ++ [Halt_]))
    (Release_ 1 :: ReadSector 1 5 ++ [Halt_]))
    as (_ & k' & th' & sem & H1 & H2 & H3 & H4 & H5); [vm_compute; reflexivity..|].
  change (currentThread k) with 1%positive in *. exists k', th', sem. cbn [busy] in H5. destruct H5. by split_and!.
Defined.

(** The reads before and after the other thread's write. *)
Lemma synchdisk_sequential_witness :
  let tr := (DiskSim.simulate DiskSim.schedule DiskSim.start).1 in
  requests 1 tr = [(1%positive, ReadReq 5); (2%positive, WriteReq 5 DiskSim.sector); (1%positive, ReadReq 5)] /\
  exists dsk', replay 1 (fun _ => Sim.k0) tr (mkDisk blank_image false 0 0) =
    Ok (dsk', [(1%positive, replicate 128 0); (1%positive, DiskSim.sector)]).
Proof.
  intros tr. assert (requests 1 tr = [(1%positive, ReadReq 5); (2%positive, WriteReq 5 DiskSim.sector); (1%positive, ReadReq 5)]) as Hrs
    by (vm_compute; reflexivity). split; [exact Hrs|].
  assert (clock_ok Sim.k0) as Hk by (split; [vm_compute; split; [discriminate|reflexivity]|exact Sim.k0_sorted]).
  destruct (synchdisk_sequential KernelSim.regs 1 DiskSim.bodies DiskSim.main (mkDisk blank_image false 0 0) (fun _ => Sim.k0) tr
    (DiskSim.simulate DiskSim.schedule DiskSim.start).2 regs_40 ltac:(repeat constructor) ltac:(repeat constructor)
    (DiskSim.simulate_traced DiskSim.schedule DiskSim.start)) as (_ & _ & (dsk' & out & Hs & -> & _) & _).
  - rewrite Hrs. constructor; [exact I|]. constructor; [apply Forall_replicate; unfold is_byte; lia|]. constructor; [exact I|constructor].
  - split; [apply blank_image_ok|reflexivity].
  - reflexivity.
  - done.
  - exists dsk'. rewrite Hs, Hrs. f_equal.
Defined.
